(* ===== verification/_CoqProject ===== *)
-Q . S2P
Prelude.v
Params.v
Sleeplock.v
Bio.v
BioInv.v
Log.v
LogInv.v
LogCrash.v
LogTxn.v
CString.v
Interfaces.v
BlockInst.v
Fs.v
FsBlocks.v
FsInode.v
FsData.v
FsWrite.v
Fsinfo.v
FsProps.v
FsWriteProps.v
FsTrunc.v
FsDir.v
FsPath.v
FsUnlink.v
FsTree.v
FsLink.v
FsDirProps.v
Mkfs.v
MkfsInv.v
MkfsBuild.v
MkfsMain.v
MkfsProps.v
Kalloc.v
Vm.v
VmInv.v
VmCopy.v
VmProps.v
Spinlock.v
Ring.v
Virtio.v
VirtioInv.v
VirtioSys.v
VirtioProps.v
Pipe.v
Console.v
Printf.v
Kernel.v
File.v
Proc.v
Exec.v
Sysfile.v
SysUnlink.v
SysLink.v
UnlinkDemo.v
Syscall.v
Trap.v
Riscv.v
Boot.v
BootProps.v
Frame.v
FileInv.v
Ulib.v
Grep.v
Usys.v
User.v
UserProps.v
LsProps.v
InitProps.v
Tests.v
Grind.v
TestProps.v
Sched.v
ProcProps.v
Umalloc.v
UmallocInv.v
UmallocProps.v
Sh.v
ShProps.v
ShRun.v
ShRunProps.v
