(* ===== verification/Prelude.v ===== *)
(** * xv6 on RISC-V: a verification library

    xv6 is a small Unix kernel; this tree adds a system call [fsinfo] that
    counts files, directories, inodes and free blocks.  The library models the
    C code of the kernel, of mkfs and of the user programs and proves what makes
    it correct.  All paths below are relative to src/xv6.

    ** The program and its models

    A system call enters through [usertrap] (trap.c), is dispatched by
    [syscall] (syscall.c) to a handler in sysproc.c or sysfile.c, which works
    on processes (proc.c, exec.c), open files (file.c) and through them on
    pipes (pipe.c), devices (console.c, uart.c) or the file system (fs.c).  The
    file system changes blocks inside transactions of the log (log.c), which
    uses the buffer cache (bio.c), which calls the disk driver
    (virtio_disk.c).  Memory comes from the page allocator (kalloc.c) and page
    tables (vm.c); spin-locks (spinlock.c) and sleep-locks (sleeplock.c) keep
    harts and processes apart.

    - Prelude.v: machine integers, bytes, the monad below, its rules, tactics.
    - Params.v: the constants of param.h, fs.h, stat.h, riscv.h, memlayout.h.
    - Sleeplock.v, Bio.v, Log.v: kernel/sleeplock.c, bio.c, log.c.  BioInv.v has
      the invariant of the cache, LogInv.v the disk writes of the log's loops,
      LogCrash.v crashes and recovery, LogTxn.v the log's theorems.
    - CString.v: kernel/string.c.
    - Interfaces.v: classes for what the file system asks of the block layer
      ([BlockOps], [BlockLaws]) and of user memory ([UserMem], [UserMemLaws]).
      BlockInst.v proves that log and cache satisfy [BlockLaws].
    - Fs.v: kernel/fs.c, over these interfaces.  FsBlocks.v, FsInode.v,
      FsData.v, FsWrite.v, FsTrunc.v, FsDir.v and FsPath.v prove the block
      allocator, inodes, reading, writing, truncation, directories and paths,
      FsUnlink.v the last reference to an inode, FsTree.v the disk as a tree of
      directories and what removing a name makes of it, FsLink.v what adding a
      name does; Fsinfo.v is
      [sys_fsinfo]; FsProps.v, FsWriteProps.v and FsDirProps.v state the
      theorems for the file system on the log, with a small disk image.
    - Mkfs.v: mkfs/mkfs.c, which writes the first image.  MkfsInv.v (one file
      of the image), MkfsBuild.v (all of them), MkfsMain.v (the program),
      MkfsProps.v (the kernel booted from the image).
    - Kalloc.v, Vm.v: kernel/kalloc.c, vm.c.  VmInv.v (page tables), VmCopy.v
      (copyin, copyout), VmProps.v (theorems).
    - Spinlock.v: kernel/spinlock.c, harts interleaved at single memory accesses.
    - Virtio.v: kernel/virtio_disk.c with the device as a relation, all
      processes, the interrupt handler and the device interleaved.  VirtioInv.v,
      VirtioSys.v (invariant), VirtioProps.v (theorems).
    - Ring.v: buffers with wrapping counters; Pipe.v: kernel/pipe.c; Console.v:
      kernel/console.c and uart.c; Printf.v: kernel/printf.c, user/printf.c.
    - Kernel.v: the state of the whole kernel, with the components as parts of
      it.  File.v (kernel/file.c), Proc.v (proc.c), Exec.v (exec.c), Sysfile.v
      (sysfile.c and the argument fetching of syscall.c; SysUnlink.v proves
      [sys_unlink], SysLink.v [sys_link], UnlinkDemo.v runs both on the small
      image), Syscall.v (sysproc.c,
      the dispatcher), Trap.v (trap.c and [forkret] of proc.c) run on it.
    - Riscv.v: the registers of a hart (kernel/riscv.h).  Boot.v: kernel/start.c,
      main.c and plic.c on harts and the interrupt controller; BootProps.v.
    - Frame.v: what code leaves alone; FileInv.v: reference counts of files;
      ProcProps.v: exec, the first return to user space, wait, kill, the
      scheduler's pass over the table.  Sched.v: sleep and wakeup (proc.c) with
      the scheduler as a step relation.
    - Ulib.v, Grep.v, Umalloc.v (UmallocInv.v, UmallocProps.v), Sh.v
      (ShProps.v), ShRun.v (ShRunProps.v): user/ulib.c, grep.c, umalloc.c, the
      parser of sh.c and the rest of it, as processes making system calls.
    - Usys.v: user programs as interaction trees of system calls, how they run
      and rules for them.  User.v: the rest of ulib.c and grep.c, and user/cat.c,
      wc.c, echo.c, ls.c, init.c, kill.c, ln.c, mkdir.c, rm.c, zombie.c and
      fsinfo_test.c.  UserProps.v has the class [Files] of what they rely on and
      proves cat, wc and grep; LsProps.v proves ls and echo, InitProps.v init,
      mkdir and rm; LsProps.v also has a kernel that satisfies [Files].
    - Tests.v: user/forktest.c, stressfs.c, logstress.c, forphan.c and dorphan.c;
      Grind.v: user/grind.c; TestProps.v: their theorems.

    ** Conventions

    Code is a function in the monad [M]: from a state it returns a value, a
    new state and the list of its visible events (wakeups, disk writes, bytes
    sent), or panics, or goes to sleep on a channel.  A function that sleeps
    with local variables has a version that takes them and is entered again
    when it is woken.  A section under a spin-lock is one step where nothing in
    it can sleep; Spinlock.v, Sched.v and Virtio.v are where interleaving itself
    is the subject, and have step relations.  Integers are [Z] with explicit
    wrap-around ([u32], [i32], ...).  Undefined behaviour of C and an exhausted
    loop bound are panics whose text no C panic has, so a theorem that code
    returns also says that neither happens.

    Loops that are not structural have a bound that is enough: n/BSIZE + 2
    rounds for [readi] and [writei] (each ends at a block boundary), len/PGSIZE
    + 2 for the copy loops (page boundaries), the length of the path for
    [namex] (every component shortens it), the size of a ring or the count
    asked for in pipes and console, the bytes still to copy for mkfs's
    [iappend], the number of free blocks for the allocator's list walks, four
    calls per character for the parser of the shell and one round per character
    for its main loop.  C10, C12, C16, C17, C20, C26, C31, C32, C36, C38 and C39
    prove that these bounds are never reached.  The loops of the small user
    programs are loops of interaction trees without a bound: C26 proves that
    they end, C5 what holds at every step of one that does not.

    Parameters stand for what is not C code of this tree: the addresses the
    linker chooses and the padding of a struct ([Machine]), the disk device
    ([virtio_blk], any device that processes the chains it is given in any
    order), what devices answer (arguments of the interrupt handlers), how many
    bytes a user's read returns, what mkfs reads from the host's files, whether the kernel grants an [sbrk].

    ** The theorems

    - Log and cache: C1 crash atomicity, C2 log space is never exceeded, C3 a
      commit that needs more buffers than there are.
    - Library routines: C4 (string.c), C24 (ulib.c), C21 (printf).
    - Boot: C22 harts come up in order, with interrupts set up.
    - File system: C6 block allocation, C7 truncation and the last reference
      to an inode, C8, C9 inodes and their table, C10 reading, C11 the system
      call unlink from its argument to the disk, C40 the system call link, C12
      paths, C31 writing, C13 fsinfo, C17 the kernel finds on the image
      of mkfs what mkfs was given.
    - Memory: C14 page allocator, C15 page tables, C16 copying to and from
      user space.
    - Locks and scheduling: C18 spin-locks, C27 no lost wakeup.
    - Byte streams: C19 pipes are a FIFO, C20 the console's line discipline.
    - Processes and files: C23 reference counts under every system call, C28
      exec is all or nothing and how a process starts, C29 what kill(0) does, C30 wait.
    - Disk driver: C33 it refines an atomic disk and does not panic, C35 progress.
    - User programs: C5 init, C25 grep's matcher, C26 cat, wc and grep, C36, C37 malloc and free, C38, C39 the
      shell's parser, C32 a whole session of the shell, C34 the test programs.

    ** Not modelled

    The assembly (entry.S, trampoline.S, kernelvec.S, swtch.S, usys.S) saves and
    restores registers.  The TLB is not modelled, so sfence_vma has no effect.
    usertests.c is a list of test cases for the system calls, run one after the
    other.  [create] and its callers are modelled and run, and are
    covered by C23 and through their parts by C6, C8, C12, C31 and C40, but have no
    theorem of their own on what they leave on disk.  C11 and C40 do not count the
    links of an inode against the directory entries that name it. *)
From Stdlib Require Export ZArith Lia.
From stdpp Require Export strings numbers gmap base list.
#[global] Open Scope Z_scope.
Set Default Goal Selector "!".

(** ** Machine integers: a w-bit value is a [Z]; the wrap-around is explicit. *)

Definition u8 (x : Z) : Z := x `mod` 2^8.
Definition u16 (x : Z) : Z := x `mod` 2^16.
Definition u32 (x : Z) : Z := x `mod` 2^32.
Definition u64 (x : Z) : Z := x `mod` 2^64.
Definition i16 (x : Z) : Z := (x + 2^15) `mod` 2^16 - 2^15.
Definition i32 (x : Z) : Z := (x + 2^31) `mod` 2^32 - 2^31.
Definition i64 (x : Z) : Z := (x + 2^63) `mod` 2^64 - 2^63.

(** ** Bytes and little-endian words *)

Abbreviation bytes := (list Z).

Fixpoint to_le (n : nat) (w : Z) : bytes :=
  match n with
  | O => []
  | S n => w `mod` 256 :: to_le n (w `div` 256)
  end.

Fixpoint of_le (l : bytes) : Z :=
  match l with
  | [] => 0
  | b :: t => b + 256 * of_le t
  end.

Definition is_byte (x : Z) : Prop := 0 <= x < 256.

(** [slice l off n] is the n bytes at offset off; [splice] overwrites bytes in place. *)
Definition slice {A} (l : list A) (off n : nat) : list A := take n (drop off l).
Definition splice {A} (l : list A) (off : nat) (bs : list A) : list A :=
  take off l ++ bs ++ drop (off + length bs) l.

(** Fields of C structs stored in a byte array at a fixed offset. *)
Definition get_u16 (d : bytes) (off : Z) : Z := of_le (slice d (Z.to_nat off) 2).
Definition get_u32 (d : bytes) (off : Z) : Z := of_le (slice d (Z.to_nat off) 4).
Definition get_i16 (d : bytes) (off : Z) : Z := i16 (get_u16 d off).
Definition get_i32 (d : bytes) (off : Z) : Z := i32 (get_u32 d off).
Definition put_u16 (d : bytes) (off v : Z) : bytes := splice d (Z.to_nat off) (to_le 2 v).
Definition put_u32 (d : bytes) (off v : Z) : bytes := splice d (Z.to_nat off) (to_le 4 v).

(** ** Wait channels, observable events, outcomes *)

Inductive chan : Set :=
  | ChSleeplock (kind : string) (i : nat)  (* a sleep-lock, passed as its own channel *)
  | ChLog | ChTicks | ChPipeRead (pi : Z) | ChPipeWrite (pi : Z)
  | ChProc (p : nat) | ChCons | ChUart | ChDiskFree | ChBuf (i : nat)
  | ChSched.  (* in the scheduler, asleep on no channel: the process exited *)

#[export] Instance chan_eq_dec : EqDecision chan.
Proof. solve_decision. Defined.

Inductive event : Set :=
  | Wake (c : chan)                   (* wakeup(chan) *)
  | Print (msg : string)              (* kernel printf *)
  | DiskWrite (bno : Z) (data : bytes) (* a block reaches the disk *)
  | Putc (c : Z).                     (* a byte sent to the uart *)

#[export] Instance event_eq_dec : EqDecision event.
Proof. solve_decision. Defined.

Inductive outcome (S A : Type) : Type :=
  | Ret (a : A) (s : S) (tr : list event)
  | Panic (msg : string) (tr : list event)
  | Sleep (c : chan) (s : S) (tr : list event).
Arguments Ret {S A} a s tr.
Arguments Panic {S A} msg tr.
Arguments Sleep {S A} c s tr.

Definition M (S A : Type) : Type := S -> outcome S A.

Definition ret {S A} (a : A) : M S A := fun s => Ret a s [].
Definition panic {S A} (msg : string) : M S A := fun s => Panic msg [].
(* C leaves what happens next undefined; the models stop here. *)
Definition undefined_behaviour {S A} (what : string) : M S A :=
  panic ("undefined behaviour: " ++ what).
Definition sleep_on {S A} (c : chan) : M S A := fun s => Sleep c s [].
Definition emit {S} (e : event) : M S unit := fun s => Ret tt s [e].
Definition gets {S A} (f : S -> A) : M S A := fun s => Ret (f s) s [].
Definition modify {S} (f : S -> S) : M S unit := fun s => Ret tt (f s) [].

Definition bind {S A B} (m : M S A) (f : A -> M S B) : M S B := fun s =>
  match m s with
  | Ret a s1 t1 =>
      match f a s1 with
      | Ret b s2 t2 => Ret b s2 (t1 ++ t2)
      | Panic msg t2 => Panic msg (t1 ++ t2)
      | Sleep c s2 t2 => Sleep c s2 (t1 ++ t2)
      end
  | Panic msg t1 => Panic msg t1
  | Sleep c s1 t1 => Sleep c s1 t1
  end.

Declare Scope kmonad_scope.
Delimit Scope kmonad_scope with kmonad.
#[global] Open Scope kmonad_scope.
Notation "'let!' x ':=' m 'in' k" := (bind m (fun x => k))
  (at level 10, x pattern, m at level 100, k at level 200,
   format "'let!'  x  ':='  m  'in' '//' k") : kmonad_scope.
Notation "m ';;;' k" := (bind m (fun _ => k))
  (at level 199, right associativity, format "m ';;;' '//' k") : kmonad_scope.

Definition when {S} (b : bool) (m : M S unit) : M S unit := if b then m else ret tt.
Definition wakeup {S} (c : chan) : M S unit := emit (Wake c).

(** [zoom get put m] runs [m] on a component of a larger state. *)
Definition zoom {S T A} (get : S -> T) (put : T -> S -> S) (m : M T A) : M S A := fun s =>
  match m (get s) with
  | Ret a t tr => Ret a (put t s) tr
  | Panic msg tr => Panic msg tr
  | Sleep c t tr => Sleep c (put t s) tr
  end.

(** A C [for] loop of n iterations from index i; [Some r] is an early exit. *)
Fixpoint for_from {S R} (n : nat) (i : Z) (body : Z -> M S (option R)) : M S (option R) :=
  match n with
  | O => ret None
  | S n => let! r := body i in
           match r with
           | Some r => ret (Some r)
           | None => for_from n (i + 1) body
           end
  end.

(** [for(i = 0; i < n; i++) body(i)] without early exit. *)
Definition iter {S} (n : Z) (body : Z -> M S unit) : M S unit :=
  for_from (R:=unit) (Z.to_nat n) 0 (fun i => body i ;;; ret None) ;;; ret tt.

(** ** Weakest preconditions.  [wpt m s Q]: [m] started in [s] returns (it
    neither panics nor sleeps) and its result, state and trace satisfy [Q];
    [wp] ignores the trace. *)

Definition wpt {S A} (m : M S A) (s : S) (Q : A -> S -> list event -> Prop) : Prop :=
  match m s with
  | Ret a s' t => Q a s' t
  | _ => False
  end.

Definition wp {S A} (m : M S A) (s : S) (Q : A -> S -> Prop) : Prop :=
  wpt m s (fun a s' _ => Q a s').

(** The block writes of a trace, in order. *)
Definition dwrites (t : list event) : list (Z * bytes) :=
  omap (fun e => match e with DiskWrite b d => Some (b, d) | _ => None end) t.

Lemma dwrites_app t1 t2 : dwrites (t1 ++ t2) = dwrites t1 ++ dwrites t2.
Proof. apply omap_app. Qed.

(** Running a step that returns without events. *)
Lemma bind_run {S B C} (x : M S B) (k : B -> M S C) (s s' : S) (a : B) : x s = Ret a s' [] -> bind x k s = k a s'.
Proof. unfold bind. intros ->. by destruct (k a s'). Qed.
Lemma bind_gets {S B C} (g : S -> B) (k : B -> M S C) (s : S) : bind (gets g) k s = k (g s) s.
Proof. by apply bind_run. Qed.
Lemma bind_modify {S C} (g : S -> S) (k : unit -> M S C) (s : S) : bind (modify g) k s = k tt (g s).
Proof. by apply bind_run. Qed.

Section wp_rules.
Context {S : Type}.

Lemma wpt_bind {A B} (m : M S A) (f : A -> M S B) s Q :
  wpt m s (fun a s1 t1 => wpt (f a) s1 (fun b s2 t2 => Q b s2 (t1 ++ t2))) ->
  wpt (bind m f) s Q.
Proof.
  unfold wpt, bind. destruct (m s) as [a s1 t1| |]; [|done|done].
  by destruct (f a s1).
Qed.

Lemma wpt_mono {A} (m : M S A) s (P Q : A -> S -> list event -> Prop) :
  wpt m s P -> (forall a s' t, P a s' t -> Q a s' t) -> wpt m s Q.
Proof. unfold wpt. destruct (m s); eauto. Qed.

Lemma wpt_ret {A} (a : A) s (Q : A -> S -> list event -> Prop) : Q a s [] -> wpt (ret a) s Q.
Proof. done. Qed.

Lemma wpt_gets {A} (f : S -> A) s (Q : A -> S -> list event -> Prop) :
  Q (f s) s [] -> wpt (gets f) s Q.
Proof. done. Qed.

Lemma wpt_modify (f : S -> S) s (Q : unit -> S -> list event -> Prop) :
  Q tt (f s) [] -> wpt (modify f) s Q.
Proof. done. Qed.

Lemma wpt_emit e s (Q : unit -> S -> list event -> Prop) : Q tt s [e] -> wpt (emit e) s Q.
Proof. done. Qed.

Lemma wpt_wp {A} (m : M S A) s Q (R : A -> S -> Prop) :
  wpt m s Q -> (forall a s' t, Q a s' t -> R a s') -> wp m s R.
Proof. intros H HQR. eapply wpt_mono; [exact H|]. eauto. Qed.

Lemma wpt_zoom {T A} (get : S -> T) (put : T -> S -> S) (m : M T A) s Q :
  wpt m (get s) (fun a t tr => Q a (put t s) tr) -> wpt (zoom get put m) s Q.
Proof. unfold wpt, zoom. by destruct (m (get s)). Qed.

Lemma wp_bind {A B} (m : M S A) (f : A -> M S B) s Q :
  wp m s (fun a s1 => wp (f a) s1 Q) -> wp (bind m f) s Q.
Proof. intros H. apply wpt_bind. eapply wpt_mono; [exact H|]. done. Qed.

Lemma wp_bind_inv {A B} (m : M S A) (f : A -> M S B) s Q :
  wp (bind m f) s Q -> wp m s (fun a s1 => wp (f a) s1 Q).
Proof.
  unfold wp, wpt, bind. destruct (m s) as [a s1 t1| |]; [|done|done].
  by destruct (f a s1).
Qed.

Lemma wp_mono {A} (m : M S A) s (P Q : A -> S -> Prop) :
  wp m s P -> (forall a s', P a s' -> Q a s') -> wp m s Q.
Proof. intros H HPQ. eapply wpt_mono; [exact H|]. eauto. Qed.

Lemma wp_conj {A} (m : M S A) s (P Q : A -> S -> Prop) :
  wp m s P -> wp m s Q -> wp m s (fun a s' => P a s' /\ Q a s').
Proof. unfold wp, wpt. destruct (m s); tauto. Qed.

Lemma wp_ret {A} (a : A) s (Q : A -> S -> Prop) : Q a s -> wp (ret a) s Q.
Proof. done. Qed.

Lemma wp_gets {A} (f : S -> A) s (Q : A -> S -> Prop) : Q (f s) s -> wp (gets f) s Q.
Proof. done. Qed.

Lemma wp_modify (f : S -> S) s (Q : unit -> S -> Prop) : Q tt (f s) -> wp (modify f) s Q.
Proof. done. Qed.

Lemma wp_emit e s (Q : unit -> S -> Prop) : Q tt s -> wp (emit e) s Q.
Proof. done. Qed.

Lemma wp_when (b : bool) (m : M S unit) s Q :
  (b = true -> wp m s Q) -> (b = false -> Q tt s) -> wp (when b m) s Q.
Proof. destruct b; intros H1 H2; [by apply H1 | by apply H2]. Qed.

Lemma wp_if {A} (b : bool) (m1 m2 : M S A) s Q :
  (b = true -> wp m1 s Q) -> (b = false -> wp m2 s Q) -> wp (if b then m1 else m2) s Q.
Proof. destruct b; auto. Qed.

Lemma wp_zoom {T A} (get : S -> T) (put : T -> S -> S) (m : M T A) s Q :
  wp m (get s) (fun a t => Q a (put t s)) -> wp (zoom get put m) s Q.
Proof. unfold wp, wpt, zoom. by destruct (m (get s)). Qed.

(** A returning run, from its weakest precondition. *)
Lemma wp_elim {A} (m : M S A) s Q :
  wp m s Q -> exists a s' t, m s = Ret a s' t /\ Q a s'.
Proof. unfold wp, wpt. destruct (m s); [eauto 10|done|done]. Qed.

Lemma wpt_elim {A} (m : M S A) s Q :
  wpt m s Q -> exists a s' t, m s = Ret a s' t /\ Q a s' t.
Proof. unfold wpt. destruct (m s); [eauto 10|done|done]. Qed.

Lemma wp_intro {A} (m : M S A) s (Q : A -> S -> Prop) a s' t :
  m s = Ret a s' t -> Q a s' -> wp m s Q.
Proof. unfold wp, wpt. by intros ->. Qed.

(** Loop rule: [I j s] holds before iteration [j]. *)
Lemma wp_for_from {R} (I : Z -> S -> Prop) (n : nat) (i : Z)
    (body : Z -> M S (option R)) s (Q : option R -> S -> Prop) :
  I i s ->
  (forall j s1, i <= j < i + Z.of_nat n -> I j s1 ->
     wp (body j) s1 (fun r s2 =>
       match r with Some r => Q (Some r) s2 | None => I (j + 1) s2 end)) ->
  (forall s1, I (i + Z.of_nat n) s1 -> Q None s1) ->
  wp (for_from n i body) s Q.
Proof.
  revert i s. induction n as [|n IH]; intros i s HI Hbody Hend; simpl.
  - apply wp_ret, Hend. by replace (i + Z.of_nat 0) with i by lia.
  - apply wp_bind. eapply wp_mono; [apply Hbody; [lia|done]|].
    intros [r|] s2 H2; [by apply wp_ret|].
    apply IH; [done| |].
    + intros j s3 Hj. apply Hbody. lia.
    + intros s3 H3. apply Hend. by replace (i + Z.of_nat (Datatypes.S n)) with (i + 1 + Z.of_nat n) by lia.
Qed.

(** The same for [iter], with the trace produced so far. *)
Lemma wpt_iter (I : Z -> S -> list event -> Prop) (n : Z) (body : Z -> M S unit) s Q :
  0 <= n -> I 0 s [] ->
  (forall j s1 t1, 0 <= j < n -> I j s1 t1 ->
     wpt (body j) s1 (fun _ s2 t2 => I (j + 1) s2 (t1 ++ t2))) ->
  (forall s1 t1, I n s1 t1 -> Q tt s1 t1) ->
  wpt (iter n body) s Q.
Proof.
  intros Hn HI Hbody Hend. unfold iter. apply wpt_bind.
  assert (forall m i s1 t1, 0 <= i -> i + Z.of_nat m = n -> I i s1 t1 ->
    wpt (for_from (R:=unit) m i (fun i => bind (body i) (fun _ => ret None))) s1
      (fun r s2 t2 => r = None /\ I n s2 (t1 ++ t2))) as Hloop.
  { intros m. induction m as [|m IH]; intros i s1 t1 Hi Hm Hinv; simpl.
    - apply wpt_ret. rewrite app_nil_r. by replace n with i by lia.
    - apply wpt_bind, wpt_bind. eapply wpt_mono; [apply Hbody; [lia|exact Hinv]|].
      intros [] s2 t2 H2. apply wpt_ret. simpl. rewrite app_nil_r.
      eapply wpt_mono; [apply (IH (i + 1) s2 (t1 ++ t2)); [lia..|done]|].
      simpl. intros r s3 t3 [-> H3]. by rewrite app_assoc. }
  eapply wpt_mono; [apply (Hloop _ 0 s []); [lia|lia|done]|].
  intros r s2 t2 [-> H2]. apply wpt_ret. rewrite app_nil_r. by apply Hend.
Qed.

Lemma wp_iter (I : Z -> S -> Prop) (n : Z) (body : Z -> M S unit) s (Q : unit -> S -> Prop) :
  0 <= n -> I 0 s ->
  (forall j s1, 0 <= j < n -> I j s1 -> wp (body j) s1 (fun _ s2 => I (j + 1) s2)) ->
  (forall s1, I n s1 -> Q tt s1) -> wp (iter n body) s Q.
Proof.
  intros Hn HI Hbody Hend. apply (wpt_iter (fun j s _ => I j s)); [done|done| |auto].
  intros j s1 t1 Hj Hinv. by apply Hbody.
Qed.
End wp_rules.

(** Partial correctness: whatever [m] returns, if it returns, satisfies [Q]. *)
Definition wlp {S A} (m : M S A) (s : S) (Q : A -> S -> Prop) : Prop :=
  forall a s' t, m s = Ret a s' t -> Q a s'.

Section wlp_rules.
Context {S : Type}.

Lemma wlp_bind {A B} (m : M S A) (f : A -> M S B) s Q :
  wlp m s (fun a s1 => wlp (f a) s1 Q) -> wlp (bind m f) s Q.
Proof.
  unfold wlp, bind. intros H b s2 t. destruct (m s) as [a s1 t1| |] eqn:Hm; [|done|done].
  destruct (f a s1) as [b' s2' t2| |] eqn:Hf; [|done|done]. intros [= <- <- <-]. by eapply H.
Qed.

Lemma wlp_mono {A} (m : M S A) s (P Q : A -> S -> Prop) :
  wlp m s P -> (forall a s', P a s' -> Q a s') -> wlp m s Q.
Proof. unfold wlp. eauto. Qed.

Lemma wlp_ret {A} (a : A) s (Q : A -> S -> Prop) : Q a s -> wlp (ret a) s Q.
Proof. by intros H ? ? ? [= <- <- <-]. Qed.
Lemma wlp_gets {A} (f : S -> A) s (Q : A -> S -> Prop) : Q (f s) s -> wlp (gets f) s Q.
Proof. by intros H ? ? ? [= <- <- <-]. Qed.
Lemma wlp_modify (f : S -> S) s (Q : unit -> S -> Prop) : Q tt (f s) -> wlp (modify f) s Q.
Proof. by intros H ? ? ? [= <- <- <-]. Qed.
Lemma wlp_emit e s (Q : unit -> S -> Prop) : Q tt s -> wlp (emit e) s Q.
Proof. by intros H ? ? ? [= <- <- <-]. Qed.
Lemma wlp_panic {A} msg s (Q : A -> S -> Prop) : wlp (panic msg) s Q.
Proof. done. Qed.
Lemma wlp_sleep {A} c s (Q : A -> S -> Prop) : wlp (sleep_on c) s Q.
Proof. done. Qed.

Lemma wlp_zoom {T A} (get : S -> T) (put : T -> S -> S) (m : M T A) s Q :
  (forall a t, Q a (put t s)) -> wlp (zoom get put m) s Q.
Proof. intros H a s' t. unfold zoom. destruct (m (get s)); [|done|done]. intros [= <- <- <-]. apply H. Qed.

(** An invariant of the body is an invariant of the loop. *)
Lemma wlp_iter (I : S -> Prop) n (body : Z -> M S unit) s :
  I s -> (forall j s1, I s1 -> wlp (body j) s1 (fun _ => I)) -> wlp (iter n body) s (fun _ => I).
Proof.
  intros HI Hbody. unfold iter. apply wlp_bind.
  assert (forall m i s, I s ->
    wlp (for_from (R:=unit) m i (fun i => bind (body i) (fun _ => ret None))) s (fun _ => I)) as Hloop.
  { intros m. induction m as [|m IH]; intros i s1 H1; simpl; [by apply wlp_ret|].
    apply wlp_bind, wlp_bind. eapply wlp_mono; [by apply Hbody|]. intros ? s2 H2.
    apply wlp_ret. by apply IH. }
  eapply wlp_mono; [by apply Hloop|]. intros ? s1 H1. by apply wlp_ret.
Qed.
End wlp_rules.

Ltac wlp_step :=
  lazymatch goal with
  | |- wlp (bind _ _) _ _ => apply wlp_bind
  | |- wlp (ret _) _ _ => apply wlp_ret
  | |- wlp (gets _) _ _ => apply wlp_gets
  | |- wlp (modify _) _ _ => apply wlp_modify
  | |- wlp (emit _) _ _ => apply wlp_emit
  | |- wlp (wakeup _) _ _ => apply wlp_emit
  | |- wlp (panic _) _ _ => apply wlp_panic
  | |- wlp (undefined_behaviour _) _ _ => apply wlp_panic
  | |- wlp (sleep_on _) _ _ => apply wlp_sleep
  end.
Ltac wlp_steps := repeat (wlp_step; cbn beta iota).

Create HintDb kwp discriminated.
#[export] Hint Resolve wp_ret wp_gets wp_modify wp_emit : kwp.

(** [wp_step] peels one monadic construct off the goal. *)
Ltac wp_step :=
  lazymatch goal with
  | |- wp (bind _ _) _ _ => apply wp_bind
  | |- wp (ret _) _ _ => apply wp_ret
  | |- wp (gets _) _ _ => apply wp_gets
  | |- wp (modify _) _ _ => apply wp_modify
  | |- wp (emit _) _ _ => apply wp_emit
  | |- wp (wakeup _) _ _ => apply wp_emit
  | |- wpt (bind _ _) _ _ => apply wpt_bind
  | |- wpt (ret _) _ _ => apply wpt_ret
  | |- wpt (gets _) _ _ => apply wpt_gets
  | |- wpt (modify _) _ _ => apply wpt_modify
  | |- wpt (emit _) _ _ => apply wpt_emit
  | |- wpt (wakeup _) _ _ => apply wpt_emit
  end.
Ltac wp_steps := repeat (wp_step; cbn beta iota).

(** ** Byte and slice lemmas *)

Lemma length_to_le n w : length (to_le n w) = n.
Proof. revert w. induction n; simpl; auto. Qed.

Lemma to_le_bytes n w : Forall is_byte (to_le n w).
Proof.
  revert w. induction n as [|n IH]; intros w; simpl; constructor; [|done].
  unfold is_byte. pose proof (Z.mod_pos_bound w 256). lia.
Qed.

Lemma of_to_le n w : of_le (to_le n w) = w `mod` 2 ^ (8 * Z.of_nat n).
Proof.
  revert w. induction n as [|n IH]; intros w; simpl of_le.
  - by rewrite Z.mod_1_r.
  - rewrite IH. replace (8 * Z.of_nat (S n)) with (8 + 8 * Z.of_nat n) by lia.
    rewrite Z.pow_add_r by lia. change (2 ^ 8) with 256.
    rewrite Z.rem_mul_r by lia. lia.
Qed.

Lemma of_le_bound l : Forall is_byte l -> 0 <= of_le l < 2 ^ (8 * Z.of_nat (length l)).
Proof.
  induction 1 as [|b l Hb _ IH]; simpl; [lia|].
  replace (8 * Z.of_nat (S (length l))) with (8 + 8 * Z.of_nat (length l)) by lia.
  rewrite Z.pow_add_r by lia. unfold is_byte in Hb. lia.
Qed.

Lemma to_of_le l : Forall is_byte l -> to_le (length l) (of_le l) = l.
Proof.
  induction 1 as [|b l Hb _ IH]; simpl; [done|]. unfold is_byte in Hb.
  replace (b + 256 * of_le l) with (of_le l * 256 + b) by lia.
  rewrite Z.div_add_l, Z.div_small by lia.
  rewrite Z.add_comm, Z.mod_add, Z.mod_small by lia.
  by rewrite Z.add_0_r, IH.
Qed.

Lemma u32_id x : 0 <= x < 2^32 -> u32 x = x.
Proof. apply Z.mod_small. Qed.
Lemma u8_id x : 0 <= x < 2^8 -> u8 x = x.
Proof. apply Z.mod_small. Qed.
Lemma u64_id x : 0 <= x < 2^64 -> u64 x = x.
Proof. apply Z.mod_small. Qed.
Lemma i32_id x : - 2^31 <= x < 2^31 -> i32 x = x.
Proof. intros. unfold i32. rewrite Z.mod_small; lia. Qed.
Lemma i16_id x : - 2^15 <= x < 2^15 -> i16 x = x.
Proof. intros. unfold i16. rewrite Z.mod_small; lia. Qed.
Lemma i16_u16 x : i16 (x `mod` 2^16) = i16 x.
Proof. unfold i16. by rewrite Z.add_mod_idemp_l by lia. Qed.
Lemma i32_u32 x : i32 (x `mod` 2^32) = i32 x.
Proof. unfold i32. by rewrite Z.add_mod_idemp_l by lia. Qed.
Lemma u32_bound x : 0 <= u32 x < 2^32.
Proof. apply Z.mod_pos_bound. lia. Qed.
Lemma u8_bound x : 0 <= u8 x < 2^8.
Proof. apply Z.mod_pos_bound. lia. Qed.

Section slices.
Context {A : Type}.
Implicit Types (l bs : list A).

Lemma length_slice l off n : (off + n <= length l)%nat -> length (slice l off n) = n.
Proof. intros. unfold slice. rewrite length_take, length_drop. lia. Qed.

Lemma length_splice l off bs :
  (off + length bs <= length l)%nat -> length (splice l off bs) = length l.
Proof.
  intros. unfold splice. rewrite !length_app, length_take, length_drop. lia.
Qed.

Lemma lookup_splice l off bs i :
  (off + length bs <= length l)%nat ->
  splice l off bs !! i =
    if decide (off <= i < off + length bs)%nat then bs !! (i - off)%nat else l !! i.
Proof.
  intros Hlen. unfold splice. case_decide as Hi.
  - rewrite lookup_app_r by (rewrite length_take; lia).
    rewrite lookup_app_l by (rewrite length_take; lia).
    f_equal. rewrite length_take. lia.
  - destruct (decide (i < off)%nat).
    + rewrite lookup_app_l by (rewrite length_take; lia).
      by rewrite lookup_take_lt by lia.
    + rewrite lookup_app_r by (rewrite length_take; lia).
      rewrite lookup_app_r by (rewrite length_take; lia).
      rewrite lookup_drop. f_equal. rewrite length_take. lia.
Qed.

Lemma lookup_slice l off n i :
  slice l off n !! i = if decide (i < n)%nat then l !! (off + i)%nat else None.
Proof.
  unfold slice. case_decide.
  - by rewrite lookup_take_lt, lookup_drop by lia.
  - apply lookup_ge_None. rewrite length_take. lia.
Qed.

Lemma slice_splice_same l off bs :
  (off + length bs <= length l)%nat -> slice (splice l off bs) off (length bs) = bs.
Proof.
  intros. unfold slice, splice.
  rewrite drop_app_ge by (rewrite length_take; lia).
  rewrite length_take. replace (off - off `min` length l)%nat with 0%nat by lia.
  by rewrite drop_0, take_app_length.
Qed.

Lemma slice_splice_ne l off bs off' n :
  (off + length bs <= length l)%nat ->
  (off' + n <= off \/ off + length bs <= off')%nat ->
  slice (splice l off bs) off' n = slice l off' n.
Proof.
  intros Hlen Hd. apply list_eq. intros i. rewrite !lookup_slice.
  case_decide; [|done]. rewrite lookup_splice by done. by rewrite decide_False by lia.
Qed.

Lemma splice_slice_id l off n :
  (off + n <= length l)%nat -> splice l off (slice l off n) = l.
Proof.
  intros. apply list_eq. intros i.
  rewrite lookup_splice by (rewrite length_slice; lia).
  rewrite length_slice by lia. case_decide; [|done].
  rewrite lookup_slice, decide_True by lia. f_equal. lia.
Qed.
End slices.

Lemma Forall_splice {A} (P : A -> Prop) (l bs : list A) off :
  Forall P l -> Forall P bs -> Forall P (splice l off bs).
Proof.
  intros. unfold splice. repeat apply Forall_app_2; auto using Forall_take, Forall_drop.
Qed.

Create Rewrite HintDb len.
#[export] Hint Rewrite @length_app @length_take @length_drop @length_fmap
  @length_replicate @length_insert @length_alter @length_to_le @length_seqZ : len.
Ltac len := autorewrite with len; simpl length; try lia.

Section fields.
Implicit Types (d : bytes).

Lemma get_put_u32_same d off v :
  0 <= off -> off + 4 <= Z.of_nat (length d) -> get_u32 (put_u32 d off v) off = u32 v.
Proof.
  intros H1 H2. unfold get_u32, put_u32.
  replace 4%nat with (length (to_le 4 v)) at 2 by apply length_to_le.
  rewrite slice_splice_same by (rewrite length_to_le; lia). apply of_to_le.
Qed.

Lemma get_put_u32_ne d off off' v :
  0 <= off -> 0 <= off' -> off + 4 <= Z.of_nat (length d) ->
  off' + 4 <= off \/ off + 4 <= off' -> get_u32 (put_u32 d off v) off' = get_u32 d off'.
Proof.
  intros. unfold get_u32, put_u32. rewrite slice_splice_ne; [done|rewrite length_to_le; lia..].
Qed.

Lemma length_put_u32 d off v :
  0 <= off -> off + 4 <= Z.of_nat (length d) -> length (put_u32 d off v) = length d.
Proof. intros. apply length_splice. rewrite length_to_le. lia. Qed.

Lemma put_u32_bytes d off v : Forall is_byte d -> Forall is_byte (put_u32 d off v).
Proof. intros. apply Forall_splice; [done|apply to_le_bytes]. Qed.

Lemma get_u32_bound d off : Forall is_byte d -> 0 <= get_u32 d off < 2^32.
Proof.
  intros Hd. unfold get_u32.
  pose proof (of_le_bound (slice d (Z.to_nat off) 4)) as Hb.
  assert (length (slice d (Z.to_nat off) 4) <= 4)%nat
    by (unfold slice; rewrite length_take; lia).
  assert (Forall is_byte (slice d (Z.to_nat off) 4)) as HF
    by (unfold slice; auto using Forall_take, Forall_drop).
  specialize (Hb HF). split; [lia|].
  eapply Z.lt_le_trans; [apply Hb|]. apply Z.pow_le_mono_r; lia.
Qed.
End fields.
