(* ===== verification/Params.v ===== *)
(** * Kernel configuration constants

    The numeric macros of [kernel/param.h], [kernel/fs.h], [kernel/stat.h],
    [kernel/riscv.h] and [kernel/memlayout.h] that the models use. *)
From S2P Require Import Prelude.

Definition NPROC : Z := 64.
Definition NCPU : Z := 8.
Definition NOFILE : Z := 16.
Definition NFILE : Z := 100.
Definition NINODE : Z := 50.
Definition NDEV : Z := 10.
Definition ROOTDEV : Z := 1.
Definition MAXARG : Z := 32.
Definition MAXOPBLOCKS : Z := 10.
Definition LOGBLOCKS : Z := MAXOPBLOCKS * 3.
Definition NBUF : nat := 30.
Definition FSSIZE : Z := 2000.
Definition MAXPATH : Z := 128.
Definition USERSTACK : Z := 1.

Definition ROOTINO : Z := 1.
Definition BSIZE : Z := 1024.
Definition FSMAGIC : Z := 0x10203040.
Definition NDIRECT : Z := 12.
Definition NINDIRECT : Z := BSIZE / 4.
Definition MAXFILE : Z := NDIRECT + NINDIRECT.
(* sizeof(struct dinode): four shorts, a uint, and 13 uints *)
Definition DINODE_SIZE : Z := 64.
Definition IPB : Z := BSIZE / DINODE_SIZE.
Definition BPB : Z := BSIZE * 8.
Definition DIRSIZ : Z := 14.
(* sizeof(struct dirent) *)
Definition DIRENT_SIZE : Z := 16.

Definition T_DIR : Z := 1.
Definition T_FILE : Z := 2.
Definition T_DEVICE : Z := 3.

(** A disk block is BSIZE bytes. *)
Definition zero_block : bytes := replicate (Z.to_nat BSIZE) 0.
Definition block_ok (d : bytes) : Prop := length d = Z.to_nat BSIZE /\ Forall is_byte d.

Lemma zero_block_ok : block_ok zero_block.
Proof. split; [apply length_replicate|]. apply Forall_replicate. unfold is_byte. lia. Qed.

(** [kconst] makes the constants visible to [lia]. *)
Ltac kconst :=
  change IPB with 16 in *; change BPB with 8192 in *; change NINDIRECT with 256 in *;
  change MAXFILE with 268 in *;
  unfold NPROC, NCPU, NOFILE, NFILE, NINODE, NDEV, ROOTDEV, MAXARG, LOGBLOCKS,
    MAXOPBLOCKS, NBUF, FSSIZE, MAXPATH, USERSTACK, ROOTINO, MAXFILE, NINDIRECT,
    NDIRECT, IPB, BPB, DINODE_SIZE, BSIZE, DIRSIZ, DIRENT_SIZE, T_DIR, T_FILE,
    T_DEVICE in *.
Ltac klia := kconst; lia.
