(* ===== verification/Sleeplock.v ===== *)
(** * Sleep-locks ([kernel/sleeplock.c])

    The state of one sleep-lock and its operations as seen by the process
    with pid [pid].  The inner spinlock makes each operation one atomic step;
    a process that finds the lock held goes to sleep on the lock's channel. *)
From S2P Require Import Prelude Params.

Record sleeplock : Set := mkSleeplock { sl_locked : bool; sl_pid : Z }.

#[export] Instance sleeplock_inhabited : Inhabited sleeplock := populate (mkSleeplock false 0).
#[export] Instance sleeplock_eq_dec : EqDecision sleeplock.
Proof. solve_decision. Defined.

Definition initsleeplock : sleeplock := mkSleeplock false 0.

Definition acquiresleep (c : chan) (pid : Z) : M sleeplock unit :=
  let! locked := gets sl_locked in
  if locked then sleep_on c
  else modify (fun _ => mkSleeplock true pid).

Definition releasesleep (c : chan) : M sleeplock unit :=
  modify (fun _ => mkSleeplock false 0) ;;;
  wakeup c.

Definition holdingsleep (pid : Z) (lk : sleeplock) : bool :=
  sl_locked lk && (sl_pid lk =? pid).
