(* ===== verification/Bio.v ===== *)
(** * Buffer cache ([kernel/bio.c])

    The NBUF buffers and the list head are one array of [buf] records linked
    by [b_prev]/[b_next] indices (index [HEAD] is [bcache.head]), exactly the
    pointer structure of the C code.  The disk behind [virtio_disk_rw] is a
    finite map from block numbers to blocks. *)
From S2P Require Import Prelude Params Sleeplock.

Record buf : Set := mkBuf {
  b_valid : bool;
  b_dev : Z;
  b_blockno : Z;
  b_lock : sleeplock;
  b_refcnt : Z;
  b_prev : nat;
  b_next : nat;
  b_data : bytes }.

(* static storage: all fields zero *)
Definition buf0 : buf := mkBuf false 0 0 initsleeplock 0 0 0 zero_block.
#[export] Instance buf_inhabited : Inhabited buf := populate buf0.

Definition HEAD : nat := NBUF.

Record bst : Set := mkBst {
  bs_bufs : list buf;          (* NBUF buffers followed by the head *)
  bs_disk : gmap Z bytes;      (* what virtio_disk_rw reads and writes *)
  bs_pid : Z }.                (* myproc()->pid *)

Definition set_bufs (f : list buf -> list buf) (s : bst) : bst :=
  mkBst (f (bs_bufs s)) (bs_disk s) (bs_pid s).
Definition set_disk (f : gmap Z bytes -> gmap Z bytes) (s : bst) : bst :=
  mkBst (bs_bufs s) (f (bs_disk s)) (bs_pid s).

Definition set_lock (lk : sleeplock) (b : buf) : buf :=
  mkBuf (b_valid b) (b_dev b) (b_blockno b) lk (b_refcnt b) (b_prev b) (b_next b) (b_data b).
Definition set_refcnt (r : Z) (b : buf) : buf :=
  mkBuf (b_valid b) (b_dev b) (b_blockno b) (b_lock b) r (b_prev b) (b_next b) (b_data b).
Definition set_prev (p : nat) (b : buf) : buf :=
  mkBuf (b_valid b) (b_dev b) (b_blockno b) (b_lock b) (b_refcnt b) p (b_next b) (b_data b).
Definition set_next (n : nat) (b : buf) : buf :=
  mkBuf (b_valid b) (b_dev b) (b_blockno b) (b_lock b) (b_refcnt b) (b_prev b) n (b_data b).
Definition set_data (d : bytes) (b : buf) : buf :=
  mkBuf (b_valid b) (b_dev b) (b_blockno b) (b_lock b) (b_refcnt b) (b_prev b) (b_next b) d.
Definition set_valid (v : bool) (b : buf) : buf :=
  mkBuf v (b_dev b) (b_blockno b) (b_lock b) (b_refcnt b) (b_prev b) (b_next b) (b_data b).
Definition set_recycled (dev blockno : Z) (b : buf) : buf :=
  mkBuf false dev blockno (b_lock b) 1 (b_prev b) (b_next b) (b_data b).

Definition buf_at (i : nat) (s : bst) : buf := bs_bufs s !!! i.
Definition modify_buf (i : nat) (f : buf -> buf) : M bst unit :=
  modify (set_bufs (alter f i)).
Definition with_buf_lock {A} (i : nat) (m : M sleeplock A) : M bst A :=
  zoom (fun s => b_lock (buf_at i s)) (fun lk => set_bufs (alter (set_lock lk) i)) m.

(** Unlinked buffers are threaded in at the front of the list, after the head. *)
Definition link_front (b : nat) (bufs : list buf) : list buf :=
  let first := b_next (bufs !!! HEAD) in
  let bufs := alter (set_next first) b bufs in
  let bufs := alter (set_prev HEAD) b bufs in
  let bufs := alter (set_prev b) first bufs in
  alter (set_next b) HEAD bufs.

Definition unlink (b : nat) (bufs : list buf) : list buf :=
  let bufs := alter (set_prev (b_prev (bufs !!! b))) (b_next (bufs !!! b)) bufs in
  alter (set_next (b_next (bufs !!! b))) (b_prev (bufs !!! b)) bufs.

Definition binit_bufs : list buf :=
  let bufs := replicate (S NBUF) buf0 in
  let bufs := alter (set_prev HEAD) HEAD bufs in
  let bufs := alter (set_next HEAD) HEAD bufs in
  foldl (fun bufs b => alter (set_lock initsleeplock) b (link_front b bufs)) bufs (seq 0 NBUF).

Definition binit : M bst unit := modify (set_bufs (fun _ => binit_bufs)).

(** [for(b = start; b != &bcache.head; b = b->step)] looking for [p]; the walk
    is bounded by [fuel], and [NBUF] steps visit the whole list. *)
Fixpoint scan (step : buf -> nat) (p : buf -> bool) (bufs : list buf) (fuel b : nat)
    : option nat :=
  match fuel with
  | O => None
  | S fuel =>
      if decide (b = HEAD) then None
      else if p (bufs !!! b) then Some b
      else scan step p bufs fuel (step (bufs !!! b))
  end.

Definition cached_in (dev blockno : Z) (b : buf) : bool :=
  (b_dev b =? dev) && (b_blockno b =? blockno).
Definition is_unused (b : buf) : bool := b_refcnt b =? 0.

Definition bget (dev blockno : Z) : M bst nat :=
  let! pid := gets bs_pid in
  let! bufs := gets bs_bufs in
  match scan b_next (cached_in dev blockno) bufs NBUF (b_next (bufs !!! HEAD)) with
  | Some b =>
      modify_buf b (fun x => set_refcnt (u32 (b_refcnt x + 1)) x) ;;;
      with_buf_lock b (acquiresleep (ChSleeplock "buffer" b) pid) ;;;
      ret b
  | None =>
      match scan b_prev is_unused bufs NBUF (b_prev (bufs !!! HEAD)) with
      | Some b =>
          modify_buf b (set_recycled dev blockno) ;;;
          with_buf_lock b (acquiresleep (ChSleeplock "buffer" b) pid) ;;;
          ret b
      | None => panic "bget: no buffers"
      end
  end.

(** [virtio_disk_rw] as the buffer cache sees it: the block that holds sector
    [blockno * (BSIZE/512)] (a 32-bit product) is transferred; the device
    answers a request outside the disk with a non-zero status. *)
Definition sector_block (blockno : Z) : Z := u32 (blockno * (BSIZE / 512)) / (BSIZE / 512).

Definition virtio_disk_rw (i : nat) (write : bool) : M bst unit :=
  let! b := gets (buf_at i) in
  let! disk := gets bs_disk in
  let blk := sector_block (b_blockno b) in
  match disk !! blk with
  | None => panic "virtio_disk_intr status"
  | Some d =>
      if write then
        modify (set_disk (<[ blk := b_data b ]>)) ;;;
        emit (DiskWrite blk (b_data b))
      else modify_buf i (set_data d)
  end.

Definition bread (dev blockno : Z) : M bst nat :=
  let! b := bget dev blockno in
  let! x := gets (buf_at b) in
  when (negb (b_valid x))
    (virtio_disk_rw b false ;;; modify_buf b (set_valid true)) ;;;
  ret b.

Definition bwrite (b : nat) : M bst unit :=
  let! pid := gets bs_pid in
  let! x := gets (buf_at b) in
  if negb (holdingsleep pid (b_lock x)) then panic "bwrite"
  else virtio_disk_rw b true.

Definition brelse (b : nat) : M bst unit :=
  let! pid := gets bs_pid in
  let! x := gets (buf_at b) in
  if negb (holdingsleep pid (b_lock x)) then panic "brelse"
  else
    with_buf_lock b (releasesleep (ChSleeplock "buffer" b)) ;;;
    modify_buf b (fun x => set_refcnt (u32 (b_refcnt x - 1)) x) ;;;
    let! x := gets (buf_at b) in
    when (b_refcnt x =? 0)
      (modify (set_bufs (fun bufs => link_front b (unlink b bufs)))).

Definition bpin (b : nat) : M bst unit :=
  modify_buf b (fun x => set_refcnt (u32 (b_refcnt x + 1)) x).
Definition bunpin (b : nat) : M bst unit :=
  modify_buf b (fun x => set_refcnt (u32 (b_refcnt x - 1)) x).

(** [bp->data] as the holder of a buffer reads and writes it. *)
Definition read_data (b : nat) : M bst bytes := gets (fun s => b_data (buf_at b s)).
Definition write_data (b : nat) (d : bytes) : M bst unit := modify_buf b (set_data d).
