(* ===== verification/BioInv.v ===== *)
(** * Buffer cache: invariant and specifications of the operations

    [bio_wf P s]: the linked list is a permutation of the buffers, no block is
    cached twice, a buffer nobody references agrees with the disk, and the
    reference count is the holder plus the pin (blocks of [P] are pinned by the
    log).  The specifications describe every operation by its effect on the
    disk, on the logical contents [bview] and on the buffers held. *)
From S2P Require Import Prelude Params Sleeplock Bio.

(** ** The doubly linked list *)

Fixpoint linked (nx pv : nat -> nat) (x : nat) (l : list nat) (y : nat) : Prop :=
  match l with
  | [] => nx x = y /\ pv y = x
  | a :: l => nx x = a /\ pv a = x /\ linked nx pv a l y
  end.

Definition upd (f : nat -> nat) (i v : nat) : nat -> nat :=
  fun j => if decide (j = i) then v else f j.

Lemma upd_eq f i v : upd f i v i = v.
Proof. unfold upd. by rewrite decide_True. Qed.
Lemma upd_ne f i j v : j <> i -> upd f i v j = f j.
Proof. intros. unfold upd. by rewrite decide_False. Qed.

Lemma linked_app nx pv x l1 b l2 y :
  linked nx pv x (l1 ++ b :: l2) y <-> linked nx pv x l1 b /\ linked nx pv b l2 y.
Proof.
  revert x. induction l1 as [|a l1 IH]; intros x; simpl; [tauto|].
  rewrite IH. tauto.
Qed.

Lemma linked_ext nx pv nx' pv' x l y :
  (forall i, i ∈ x :: l -> nx' i = nx i) -> (forall i, i ∈ l ++ [y] -> pv' i = pv i) ->
  linked nx pv x l y -> linked nx' pv' x l y.
Proof.
  revert x. induction l as [|a l IH]; intros x Hn Hp; simpl.
  - intros [<- Hpy]. rewrite Hn, Hp by set_solver. done.
  - intros (Hx & Ha & Hl). rewrite Hn, Hp by set_solver. split_and!; [done..|].
    apply IH; set_solver.
Qed.

Lemma linked_last nx pv x l y : linked nx pv x l y -> pv y ∈ x :: l.
Proof.
  revert x. induction l as [|a l IH]; intros x; simpl; [set_solver|].
  intros (_ & _ & Hl%IH). set_solver.
Qed.

(** Redirecting the end of a segment from [b] to [n]. *)
Lemma linked_retarget nx pv x l b n :
  NoDup (x :: l) -> n ∉ l -> linked nx pv x l b ->
  linked (upd nx (pv b) n) (upd pv n (pv b)) x l n.
Proof.
  revert x. induction l as [|a l IH]; intros x Hnd Hn; simpl.
  - intros [<- Hp]. by rewrite Hp, !upd_eq.
  - intros (Hx & Ha & Hl). pose proof (linked_last _ _ _ _ _ Hl).
    apply NoDup_cons in Hnd as [Hx' Hnd].
    assert (x <> pv b) by (by intros ->). assert (a <> n) by (intros ->; set_solver).
    rewrite !upd_ne by done. split_and!; [done..|]. apply IH; set_solver.
Qed.

(** Removing [b] from the ring: [b->next->prev = b->prev; b->prev->next = b->next]. *)
Lemma linked_unlink nx pv h l1 b l2 :
  NoDup (h :: l1 ++ b :: l2) ->
  linked nx pv h (l1 ++ b :: l2) h ->
  linked (upd nx (pv b) (nx b)) (upd pv (nx b) (pv b)) h (l1 ++ l2) h.
Proof.
  intros Hnd. rewrite linked_app. intros [H1 H2].
  pose proof (linked_last _ _ _ _ _ H1) as Hp.
  apply NoDup_cons in Hnd as [Hh (Hnd1 & Hdisj & Hnd2)%NoDup_app].
  apply NoDup_cons in Hnd2 as [Hb Hnd2].
  assert (NoDup (h :: l1)) by (apply NoDup_cons; set_solver).
  destruct l2 as [|c l2]; simpl in H2.
  - destruct H2 as [-> _]. rewrite app_nil_r. apply linked_retarget; set_solver.
  - destruct H2 as (-> & _ & H2). apply linked_app. split.
    + apply linked_retarget; set_solver.
    + apply NoDup_cons in Hnd2 as [? _].
      eapply linked_ext; [..|exact H2]; intros i Hi; apply upd_ne; set_solver.
Qed.

(** Inserting [b] after the head. *)
Lemma linked_front nx pv h b l :
  NoDup (h :: b :: l) -> linked nx pv h l h ->
  linked (upd (upd nx b (nx h)) h b) (upd (upd pv b h) (nx h) b) h (b :: l) h.
Proof.
  intros Hnd Hl. rewrite !NoDup_cons in Hnd. simpl.
  rewrite upd_eq. split_and!; [done| |].
  - rewrite upd_ne, upd_eq; [done|]. destruct l as [|a l]; simpl in Hl; set_solver.
  - destruct l as [|a l]; simpl in Hl |- *.
    + destruct Hl as [-> Hp]. rewrite upd_ne by set_solver. rewrite upd_eq, upd_eq. done.
    + destruct Hl as (-> & Hp & Hl). rewrite upd_ne by set_solver. rewrite !upd_eq.
      split_and!; [done..|]. eapply linked_ext; [..|exact Hl]; intros i Hi.
      * assert (i <> h /\ i <> b) as [??] by (clear Hl Hp; set_solver). by rewrite !upd_ne.
      * rewrite NoDup_cons in Hnd. clear Hl Hp.
        assert (i <> a /\ i <> b) as [??] by set_solver. by rewrite !upd_ne.
Qed.

(** Links read off the buffer array, and what the pointer updates do to them. *)
Definition nx (bufs : list buf) (i : nat) : nat := b_next (bufs !!! i).
Definition pv (bufs : list buf) (i : nat) : nat := b_prev (bufs !!! i).

Lemma lookup_total_alter (f : buf -> buf) i j (bufs : list buf) :
  (i < length bufs)%nat ->
  alter f i bufs !!! j = if decide (j = i) then f (bufs !!! i) else bufs !!! j.
Proof.
  intros Hi. destruct (decide (j = i)) as [->|Hne].
  - by apply list_lookup_total_alter_eq.
  - by apply list_lookup_total_alter_ne.
Qed.

(** The fields of a buffer other than its list links. *)
Definition core (b : buf) : bool * Z * Z * sleeplock * Z * bytes :=
  (b_valid b, b_dev b, b_blockno b, b_lock b, b_refcnt b, b_data b).

Lemma core_alter f i j (bufs : list buf) :
  (forall b, core (f b) = core b) -> core (alter f i bufs !!! j) = core (bufs !!! j).
Proof.
  intros Hf. rewrite list_lookup_total_alter. case_decide as Hi; [|done].
  destruct Hi as [-> _]. apply Hf.
Qed.

Lemma link_front_spec b bufs l :
  NoDup (HEAD :: b :: l) -> (forall i, i ∈ HEAD :: b :: l -> (i < length bufs)%nat) ->
  linked (nx bufs) (pv bufs) HEAD l HEAD ->
  linked (nx (link_front b bufs)) (pv (link_front b bufs)) HEAD (b :: l) HEAD /\
  length (link_front b bufs) = length bufs /\
  (forall i, core (link_front b bufs !!! i) = core (bufs !!! i)).
Proof.
  intros Hnd Hlt Hl.
  assert (nx bufs HEAD < length bufs)%nat as Hf.
  { apply Hlt. destruct l; simpl in Hl; set_solver. }
  assert (HEAD < length bufs)%nat by (apply Hlt; set_solver).
  assert (b < length bufs)%nat by (apply Hlt; set_solver).
  split_and!.
  - eapply linked_ext; [..|by apply linked_front]; intros i _.
    + unfold nx at 1, link_front. rewrite !lookup_total_alter by (len; done).
      unfold upd. fold (nx bufs HEAD). repeat case_decide; subst; done.
    + unfold pv at 1, link_front. rewrite !lookup_total_alter by (len; done).
      unfold upd. fold (nx bufs HEAD). repeat case_decide; subst; try done.
  - unfold link_front. by rewrite !length_alter.
  - intros i. unfold link_front. by rewrite !core_alter by done.
Qed.

Lemma unlink_spec b bufs l1 l2 :
  NoDup (HEAD :: l1 ++ b :: l2) ->
  (forall i, i ∈ HEAD :: l1 ++ b :: l2 -> (i < length bufs)%nat) ->
  linked (nx bufs) (pv bufs) HEAD (l1 ++ b :: l2) HEAD ->
  linked (nx (unlink b bufs)) (pv (unlink b bufs)) HEAD (l1 ++ l2) HEAD /\
  length (unlink b bufs) = length bufs /\
  (forall i, core (unlink b bufs !!! i) = core (bufs !!! i)).
Proof.
  intros Hnd Hlt Hl. pose proof Hl as [H1 H2]%linked_app.
  assert (pv bufs b < length bufs)%nat as Hp.
  { apply linked_last in H1. apply Hlt. set_solver. }
  assert (nx bufs b < length bufs)%nat as Hn.
  { apply Hlt. destruct l2; simpl in H2; set_solver. }
  assert (nx bufs b <> b) as Hnb.
  { apply NoDup_cons in Hnd as [Hh (_ & _ & Hnd)%NoDup_app]. apply NoDup_cons in Hnd as [Hb _].
    destruct l2; simpl in H2; destruct H2 as [-> _]; set_solver. }
  assert (b_prev (alter (set_prev (pv bufs b)) (nx bufs b) bufs !!! b) = pv bufs b) as Hpb
    by (rewrite lookup_total_alter by done; by rewrite decide_False).
  assert (b_next (alter (set_prev (pv bufs b)) (nx bufs b) bufs !!! b) = nx bufs b) as Hnb2
    by (rewrite lookup_total_alter by done; by rewrite decide_False).
  assert (unlink b bufs =
    alter (set_next (nx bufs b)) (pv bufs b) (alter (set_prev (pv bufs b)) (nx bufs b) bufs)) as ->
    by (unfold unlink; cbv zeta; fold (pv bufs b) (nx bufs b); by rewrite Hpb, Hnb2).
  split_and!.
  - eapply linked_ext; [..|by apply linked_unlink]; intros i _.
    + unfold nx at 1. rewrite !lookup_total_alter by (len; done).
      unfold upd. repeat case_decide; subst; done.
    + unfold pv at 1. rewrite !lookup_total_alter by (len; done).
      unfold upd. repeat case_decide; subst; done.
  - by rewrite !length_alter.
  - intros i. by rewrite !core_alter by done.
Qed.

(** Walking the ring visits its elements in order, so a scan with NBUF steps
    of fuel finds the first match or shows there is none. *)
Lemma linked_reverse nx pv x l y : linked nx pv x l y -> linked pv nx y (reverse l) x.
Proof.
  revert x. induction l as [|a l IH]; intros x; simpl.
  - by intros [??].
  - intros (Hx & Ha & Hl). rewrite reverse_cons. apply linked_app. split; [by apply IH|].
    simpl. tauto.
Qed.

Lemma scan_spec step pv' p bufs fuel x l :
  linked (fun i => step (bufs !!! i)) pv' x l HEAD -> HEAD ∉ l -> (length l <= fuel)%nat ->
  match scan step p bufs fuel (step (bufs !!! x)) with
  | Some b => exists l1 l2, l = l1 ++ b :: l2 /\ p (bufs !!! b) = true /\
                            forall i, i ∈ l1 -> p (bufs !!! i) = false
  | None => forall i, i ∈ l -> p (bufs !!! i) = false
  end.
Proof.
  revert x fuel. induction l as [|a l IH]; intros x fuel Hl Hh Hfuel; simpl in Hl.
  - destruct Hl as [Hx _]. destruct fuel as [|fuel]; simpl; [set_solver|].
    rewrite decide_True by done. set_solver.
  - destruct Hl as (Hx & _ & Hl). destruct fuel as [|fuel]; simpl in Hfuel; [lia|].
    simpl. rewrite Hx, decide_False by set_solver. destruct (p (bufs !!! a)) eqn:Hp.
    + exists [], l. set_solver.
    + specialize (IH a fuel Hl ltac:(set_solver) ltac:(lia)).
      destruct (scan _ _ _ _ _) as [b|].
      * destruct IH as (l1 & l2 & -> & Hb & Hl1). exists (a :: l1), l2. set_solver.
      * intros i [->|Hi]%elem_of_cons; auto.
Qed.

(** ** The invariant *)

Definition buf_ok (P : gset Z) (disk : gmap Z bytes) (pid : Z) (x : buf) : Prop :=
  b_valid x = bool_decide (b_dev x = ROOTDEV) /\
  (b_dev x = ROOTDEV -> is_Some (disk !! b_blockno x) /\ block_ok (b_data x)) /\
  b_refcnt x = (if sl_locked (b_lock x) then 1 else 0)
             + (if decide (b_dev x = ROOTDEV /\ b_blockno x ∈ P) then 1 else 0) /\
  (sl_locked (b_lock x) = true -> b_dev x = ROOTDEV /\ sl_pid (b_lock x) = pid) /\
  (b_dev x = ROOTDEV -> b_refcnt x = 0 -> disk !! b_blockno x = Some (b_data x)).

Definition cached (s : bst) (b : Z) (i : nat) : Prop :=
  (i < NBUF)%nat /\ b_dev (buf_at i s) = ROOTDEV /\ b_blockno (buf_at i s) = b.

Definition ring_ok (bufs : list buf) : Prop :=
  length bufs = S NBUF /\
  exists order, order ≡ₚ seq 0 NBUF /\ linked (nx bufs) (pv bufs) HEAD order HEAD.

Definition disk_ok (disk : gmap Z bytes) : Prop :=
  forall b d, disk !! b = Some d -> 0 <= b < 2^31 /\ block_ok d.

Record bio_wf (P : gset Z) (s : bst) : Prop := {
  wf_ring : ring_ok (bs_bufs s);
  wf_bufs : forall i, (i < NBUF)%nat -> buf_ok P (bs_disk s) (bs_pid s) (buf_at i s);
  wf_uniq : forall b i j, cached s b i -> cached s b j -> i = j;
  wf_pins : forall b, b ∈ P -> exists i, cached s b i;
  wf_disk : disk_ok (bs_disk s) }.

(** The logical contents of a block: the cached copy if there is one. *)
Definition bview (s : bst) (b : Z) : bytes :=
  match list_find (fun x => b_dev x = ROOTDEV /\ b_blockno x = b) (take NBUF (bs_bufs s)) with
  | Some (_, x) => b_data x
  | None => bs_disk s !!! b
  end.

(** The buffers whose sleep-lock is held, with the blocks they cache. *)
Definition held (s : bst) : gmap nat Z :=
  omap (fun x => if sl_locked (b_lock x) then Some (b_blockno x) else None)
    (map_seq 0 (take NBUF (bs_bufs s))).

Definition heldset (s : bst) : gset Z := map_img (held s).

Lemma ring_len bufs : ring_ok bufs -> length bufs = S NBUF.
Proof. by intros [? _]. Qed.

Lemma lookup_take_bufs s i :
  length (bs_bufs s) = S NBUF -> (i < NBUF)%nat -> take NBUF (bs_bufs s) !! i = Some (buf_at i s).
Proof.
  intros Hlen Hi. rewrite lookup_take_lt by done. unfold buf_at.
  apply list_lookup_lookup_total_lt. lia.
Qed.

Lemma held_lookup s i :
  length (bs_bufs s) = S NBUF ->
  held s !! i =
    if decide (i < NBUF)%nat
    then if sl_locked (b_lock (buf_at i s)) then Some (b_blockno (buf_at i s)) else None
    else None.
Proof.
  intros Hlen. unfold held. rewrite lookup_omap, lookup_map_seq_0. case_decide.
  - by rewrite lookup_take_bufs.
  - rewrite lookup_ge_None_2; [done|]. rewrite length_take. lia.
Qed.

Lemma bview_cached s b i :
  length (bs_bufs s) = S NBUF -> (forall b i j, cached s b i -> cached s b j -> i = j) ->
  cached s b i -> bview s b = b_data (buf_at i s).
Proof.
  intros Hlen Huniq Hc. unfold bview. destruct (list_find _ _) as [[j x]|] eqn:Hf.
  - apply list_find_Some in Hf as (Hj & [Hd Hb] & _).
    assert (j < NBUF)%nat by (apply lookup_lt_Some in Hj; rewrite length_take in Hj; lia).
    rewrite lookup_take_bufs in Hj by done. simplify_eq.
    rewrite (Huniq (b_blockno (buf_at j s)) j i); [done| |]; done.
  - rewrite list_find_None, Forall_lookup in Hf. destruct Hc as (Hi & Hd & Hb).
    destruct (Hf i (buf_at i s)); [by apply lookup_take_bufs|done].
Qed.

Lemma bview_uncached s b :
  length (bs_bufs s) = S NBUF -> (forall i, ~ cached s b i) -> bview s b = bs_disk s !!! b.
Proof.
  intros Hlen Hc. unfold bview. destruct (list_find _ _) as [[j x]|] eqn:Hf; [|done].
  apply list_find_Some in Hf as (Hj & [Hd Hb] & _).
  assert (j < NBUF)%nat by (apply lookup_lt_Some in Hj; rewrite length_take in Hj; lia).
  rewrite lookup_take_bufs in Hj by done. simplify_eq. by destruct (Hc j).
Qed.

Lemma cached_or_not s b :
  length (bs_bufs s) = S NBUF -> (exists i, cached s b i) \/ (forall i, ~ cached s b i).
Proof.
  intros Hlen.
  destruct (list_find (fun x => b_dev x = ROOTDEV /\ b_blockno x = b) (take NBUF (bs_bufs s)))
    as [[j x]|] eqn:Hfind; [left|right].
  - apply list_find_Some in Hfind as (Hj & [Hd Hb] & _).
    assert (j < NBUF)%nat by (apply lookup_lt_Some in Hj; rewrite length_take in Hj; lia).
    rewrite lookup_take_bufs in Hj by done. simplify_eq. exists j. by split_and!.
  - rewrite list_find_None, Forall_lookup in Hfind. intros j (Hj & Hd & Hb).
    destruct (Hfind j (buf_at j s)); [by apply lookup_take_bufs|done].
Qed.

(** ** Replacing one buffer *)

Definition keeps_links (f : buf -> buf) : Prop :=
  forall x, b_next (f x) = b_next x /\ b_prev (f x) = b_prev x.

Lemma ring_alter bufs f i : keeps_links f -> ring_ok bufs -> ring_ok (alter f i bufs).
Proof.
  intros Hf [Hlen (order & Hperm & Hl)]. split; [by rewrite length_alter|].
  exists order. split; [done|].
  eapply linked_ext; [..|exact Hl]; intros j _; unfold nx, pv;
    rewrite list_lookup_total_alter; case_decide as Hj; try done; destruct Hj as [-> _]; apply Hf.
Qed.

Lemma buf_at_alter s i f j :
  length (bs_bufs s) = S NBUF -> (i < NBUF)%nat ->
  buf_at j (set_bufs (alter f i) s) = if decide (j = i) then f (buf_at i s) else buf_at j s.
Proof. intros Hlen Hi. apply lookup_total_alter. lia. Qed.

Section replace.
Context (P P' : gset Z) (s : bst) (i : nat) (f : buf -> buf).
Context (Hwf : bio_wf P s) (Hi : (i < NBUF)%nat) (Hf : keeps_links f).
Let nb := f (buf_at i s).
Let s' := set_bufs (alter f i) s.

Lemma replace_len : length (bs_bufs s) = S NBUF.
Proof. apply ring_len, (wf_ring _ _ Hwf). Qed.

Lemma replace_at j : buf_at j s' = if decide (j = i) then nb else buf_at j s.
Proof. apply buf_at_alter; [apply replace_len|done]. Qed.

Lemma replace_cached b j :
  cached s' b j <->
    (j = i /\ b_dev nb = ROOTDEV /\ b_blockno nb = b) \/ (j <> i /\ cached s b j).
Proof.
  unfold cached. rewrite replace_at. case_decide; subst; [|tauto].
  split; [|naive_solver]. tauto.
Qed.

Lemma wf_replace :
  buf_ok P' (bs_disk s) (bs_pid s) nb ->
  (forall j, j <> i -> (j < NBUF)%nat -> buf_ok P' (bs_disk s) (bs_pid s) (buf_at j s)) ->
  (b_dev nb = ROOTDEV -> forall j, j <> i -> ~ cached s (b_blockno nb) j) ->
  (forall b, b ∈ P' -> (b_dev nb = ROOTDEV /\ b_blockno nb = b) \/ exists j, j <> i /\ cached s b j) ->
  bio_wf P' s'.
Proof.
  intros Hnb Hother Huniq Hpins. split.
  - apply ring_alter; [done|]. apply Hwf.
  - intros j Hj. rewrite replace_at. simpl. case_decide; [done|]. by apply Hother.
  - intros b j k Hj%replace_cached Hk%replace_cached.
    destruct Hj as [(-> & Hd & <-)|[Hj Hcj]], Hk as [(-> & Hd' & Hb')|[Hk Hck]]; [done|..].
    + by destruct (Huniq Hd k Hk).
    + subst. by destruct (Huniq Hd' j Hj).
    + by eapply (wf_uniq _ _ Hwf).
  - intros b [[??]|(j & ? & ?)]%Hpins; [exists i|exists j]; apply replace_cached; auto.
  - apply Hwf.
Qed.

Lemma view_replace b :
  bio_wf P' s' ->
  bview s' b =
    if decide (b_dev nb = ROOTDEV /\ b_blockno nb = b) then b_data nb
    else if decide (b_dev (buf_at i s) = ROOTDEV /\ b_blockno (buf_at i s) = b) then bs_disk s !!! b
    else bview s b.
Proof.
  intros Hwf'. pose proof (ring_len _ (wf_ring _ _ Hwf')) as Hlen'.
  destruct (decide _) as [[Hd Hb]|Hnb].
  { rewrite (bview_cached _ _ i); [by rewrite replace_at, decide_True|done|apply Hwf'|].
    apply replace_cached. auto. }
  destruct (decide _) as [[Hd Hb]|Hob].
  { rewrite (bview_uncached s'); [done|done|]. intros j [(_ & ? & ?)|[Hj Hc]]%replace_cached; [tauto|].
    apply Hj. eapply (wf_uniq _ _ Hwf); [done|]. by split_and!. }
  destruct (cached_or_not s b replace_len) as [[j Hc]|Hnc].
  - assert (j <> i) by (intros ->; destruct Hc; tauto).
    rewrite (bview_cached s _ j); [|apply replace_len|apply Hwf|done].
    rewrite (bview_cached s' _ j); [by rewrite replace_at, decide_False|done|apply Hwf'|].
    apply replace_cached. auto.
  - rewrite (bview_uncached s) by (apply replace_len || done).
    rewrite (bview_uncached s'); [done|done|].
    intros j [(_ & ? & ?)|[_ Hc]]%replace_cached; [tauto|]. by eapply Hnc.
Qed.

Lemma held_replace :
  held s' = if sl_locked (b_lock nb) then <[i := b_blockno nb]> (held s) else delete i (held s).
Proof.
  pose proof replace_len as Hlen.
  assert (length (bs_bufs s') = S NBUF) as Hlen' by (by simpl; rewrite length_alter).
  apply map_eq. intros j. rewrite held_lookup by done. rewrite replace_at.
  destruct (decide (j = i)) as [->|Hne].
  - rewrite decide_True by done. destruct (sl_locked (b_lock nb));
      [by rewrite lookup_insert_eq|by rewrite lookup_delete_eq].
  - destruct (sl_locked (b_lock nb)).
    + rewrite lookup_insert_ne by done. by rewrite held_lookup.
    + rewrite lookup_delete_ne by done. by rewrite held_lookup.
Qed.
End replace.

(** ** Specifications *)

Lemma order_elem order i : order ≡ₚ seq 0 NBUF -> i ∈ order <-> (i < NBUF)%nat.
Proof. intros ->. rewrite elem_of_seq. lia. Qed.

Lemma find_cached P s b : bio_wf P s ->
  match scan b_next (cached_in ROOTDEV b) (bs_bufs s) NBUF (b_next (bs_bufs s !!! HEAD)) with
  | Some i => cached s b i
  | None => forall i, ~ cached s b i
  end.
Proof.
  intros Hwf. destruct (wf_ring _ _ Hwf) as [_ (order & Hperm & Hl)].
  assert (HEAD ∉ order) as Hh by (rewrite order_elem by done; unfold HEAD; lia).
  assert (length order <= NBUF)%nat as Hfuel by (by rewrite Hperm, length_seq).
  pose proof (scan_spec b_next _ (cached_in ROOTDEV b) (bs_bufs s) NBUF _ _ Hl Hh Hfuel) as Hscan.
  destruct (scan _ _ _ _ _) as [i|].
  - destruct Hscan as (l1 & l2 & -> & Hp & _). unfold cached_in in Hp.
    assert (i < NBUF)%nat by (eapply order_elem; [exact Hperm|set_solver]).
    split_and!; [done|unfold buf_at; lia..].
  - intros i (Hi & Hd & Hb). specialize (Hscan i).
    rewrite order_elem in Hscan by done. specialize (Hscan Hi).
    unfold cached_in in Hscan. unfold buf_at in *. lia.
Qed.

Lemma find_unused P s : bio_wf P s ->
  match scan b_prev is_unused (bs_bufs s) NBUF (b_prev (bs_bufs s !!! HEAD)) with
  | Some i => (i < NBUF)%nat /\ b_refcnt (buf_at i s) = 0
  | None => forall i, (i < NBUF)%nat -> b_refcnt (buf_at i s) <> 0
  end.
Proof.
  intros Hwf. destruct (wf_ring _ _ Hwf) as [_ (order & Hperm & Hl)].
  apply linked_reverse in Hl.
  assert (HEAD ∉ reverse order) as Hh
    by (rewrite elem_of_reverse, order_elem by done; unfold HEAD; lia).
  assert (length (reverse order) <= NBUF)%nat as Hfuel by (by rewrite length_reverse, Hperm, length_seq).
  pose proof (scan_spec b_prev _ is_unused (bs_bufs s) NBUF _ _ Hl Hh Hfuel) as Hscan.
  destruct (scan _ _ _ _ _) as [i|].
  - destruct Hscan as (l1 & l2 & Hrev & Hp & _). unfold is_unused in Hp. split; [|unfold buf_at; lia].
    eapply order_elem; [exact Hperm|]. apply elem_of_reverse. rewrite Hrev. set_solver.
  - intros i Hi. specialize (Hscan i). rewrite elem_of_reverse, order_elem in Hscan by done.
    specialize (Hscan Hi). unfold is_unused in Hscan. unfold buf_at. lia.
Qed.

Lemma held_Some P s i b : bio_wf P s ->
  held s !! i = Some b <-> cached s b i /\ sl_locked (b_lock (buf_at i s)) = true.
Proof.
  intros Hwf. rewrite held_lookup by apply ring_len, (wf_ring _ _ Hwf). unfold cached.
  case_decide as Hi; [|naive_solver].
  destruct (wf_bufs _ _ Hwf i Hi) as (_ & _ & _ & Hlk & _).
  destruct (sl_locked _); naive_solver.
Qed.

Lemma refcnt_busy P s i : bio_wf P s -> (i < NBUF)%nat -> b_refcnt (buf_at i s) <> 0 ->
  b_dev (buf_at i s) = ROOTDEV /\ b_blockno (buf_at i s) ∈ heldset s ∪ P.
Proof.
  intros Hwf Hi Hr. destruct (wf_bufs _ _ Hwf i Hi) as (_ & _ & Href & Hlk & _).
  destruct (sl_locked (b_lock (buf_at i s))) eqn:Hl.
  - destruct (Hlk eq_refl) as [Hd _]. split; [done|]. apply elem_of_union_l.
    apply elem_of_map_img. exists i. eapply held_Some; [done|]. by split.
  - case_decide as HP; [|lia]. set_solver.
Qed.

(** With fewer than NBUF distinct busy blocks there is a buffer to recycle. *)
Lemma exists_unused P s : bio_wf P s -> (size (heldset s ∪ P) < NBUF)%nat ->
  exists i, (i < NBUF)%nat /\ b_refcnt (buf_at i s) = 0.
Proof.
  intros Hwf Hsize. pose proof (find_unused P s Hwf) as Hf.
  destruct (scan _ _ _ _ _) as [i|]; [eauto|]. exfalso.
  set (l := (fun i => b_blockno (buf_at i s)) <$> seq 0 NBUF).
  assert (NoDup l).
  { apply NoDup_alt. intros i j b Hi Hj. unfold l in *.
    apply list_lookup_fmap_Some in Hi as (i' & -> & [-> Hi]%lookup_seq).
    apply list_lookup_fmap_Some in Hj as (j' & Hj' & [-> Hj]%lookup_seq).
    simpl in *. destruct (refcnt_busy P s i Hwf Hi (Hf i Hi)).
    destruct (refcnt_busy P s j Hwf Hj (Hf j Hj)).
    eapply (wf_uniq _ _ Hwf); split_and!; eauto. }
  assert (list_to_set (C:=gset Z) l ⊆ heldset s ∪ P) as Hsub.
  { intros b [i [-> Hi%elem_of_seq]]%elem_of_list_to_set%list_elem_of_fmap.
    apply (refcnt_busy P s i Hwf); [lia|]. apply Hf. lia. }
  apply subseteq_size in Hsub. rewrite size_list_to_set in Hsub by done.
  unfold l in Hsub. rewrite length_fmap, length_seq in Hsub. lia.
Qed.

Lemma alter_alter (f g : buf -> buf) i (l : list buf) : alter f i (alter g i l) = alter (f ∘ g) i l.
Proof. apply list_alter_alter_eq. Qed.

Definition grabbed (pid r : Z) (x : buf) : buf := set_lock (mkSleeplock true pid) (set_refcnt r x).
Definition filled (pid dev blockno : Z) (d : bytes) (x : buf) : buf :=
  set_valid true (set_data d (set_lock (mkSleeplock true pid) (set_recycled dev blockno x))).

Lemma bread_hit s dev b i :
  length (bs_bufs s) = S NBUF -> (i < NBUF)%nat ->
  scan b_next (cached_in dev b) (bs_bufs s) NBUF (b_next (bs_bufs s !!! HEAD)) = Some i ->
  sl_locked (b_lock (buf_at i s)) = false -> b_valid (buf_at i s) = true ->
  bread dev b s = Ret i (set_bufs (alter (fun x => grabbed (bs_pid s) (u32 (b_refcnt x + 1)) x) i) s) [].
Proof.
  intros Hlen Hi Hscan Hl Hv. unfold bread, bget, bind, gets, modify_buf, modify, with_buf_lock, zoom.
  rewrite Hscan. cbn -[buf_at].
  rewrite buf_at_alter by done. rewrite decide_True by done. cbn -[buf_at]. rewrite Hl.
  cbn -[buf_at]. unfold set_bufs; simpl. rewrite alter_alter. 
  unfold buf_at. simpl. rewrite lookup_total_alter by lia. rewrite decide_True by done.
  unfold compose. simpl. unfold buf_at in Hv. rewrite Hv. done.
Qed.

Lemma bread_miss s dev b i d :
  length (bs_bufs s) = S NBUF -> (i < NBUF)%nat ->
  scan b_next (cached_in dev b) (bs_bufs s) NBUF (b_next (bs_bufs s !!! HEAD)) = None ->
  scan b_prev is_unused (bs_bufs s) NBUF (b_prev (bs_bufs s !!! HEAD)) = Some i ->
  sl_locked (b_lock (buf_at i s)) = false -> bs_disk s !! sector_block b = Some d ->
  bread dev b s = Ret i (set_bufs (alter (filled (bs_pid s) dev b d) i) s) [].
Proof.
  intros Hlen Hi Hscan Hscan' Hl Hd.
  unfold bread, bget, bind, gets, modify_buf, modify, with_buf_lock, zoom.
  rewrite Hscan, Hscan'. cbn -[buf_at].
  rewrite buf_at_alter by done. rewrite decide_True by done. cbn -[buf_at]. rewrite Hl.
  cbn -[buf_at]. unfold set_bufs; simpl. rewrite alter_alter.
  unfold buf_at. simpl. rewrite lookup_total_alter by lia. rewrite decide_True by done.
  unfold compose. simpl. unfold virtio_disk_rw, bind, gets, modify_buf, modify, buf_at. simpl.
  rewrite lookup_total_alter by lia. rewrite decide_True by done. simpl. rewrite Hd. simpl.
  unfold set_bufs; simpl. rewrite !alter_alter. done.
Qed.

Lemma sector_block_id b : 0 <= b < 2^31 -> sector_block b = b.
Proof.
  intros Hb. unfold sector_block. change (BSIZE / 512) with 2.
  rewrite u32_id by lia. apply Z.div_mul. lia.
Qed.

(** What a successful [bread] guarantees. *)
Definition bread_post (P : gset Z) (s : bst) (b : Z) (h : nat) (s' : bst) (t : list event) : Prop :=
  bio_wf P s' /\ bs_disk s' = bs_disk s /\ bs_pid s' = bs_pid s /\
  (forall b', bview s' b' = bview s b') /\
  held s !! h = None /\ held s' = <[h := b]> (held s) /\ dwrites t = [].

Lemma bread_hit_post P s b i :
  bio_wf P s -> cached s b i -> sl_locked (b_lock (buf_at i s)) = false ->
  bread_post P s b i
    (set_bufs (alter (fun x => grabbed (bs_pid s) (u32 (b_refcnt x + 1)) x) i) s) [].
Proof.
  intros Hwf Hc Hl. pose proof Hc as (Hi & Hdev & Hbno).
  pose proof (ring_len _ (wf_ring _ _ Hwf)) as Hlen.
  destruct (wf_bufs _ _ Hwf i Hi) as (Hv & Hblk & Href & Hlk & Hcl).
  set (f := fun x => _). assert (keeps_links f) as Hf by done. rewrite Hl in Href.
  assert (bio_wf P (set_bufs (alter f i) s)) as Hwf'.
  { apply (wf_replace P); try done.
    - unfold f, grabbed. split_and!; simpl; [done|done| |done|].
      + rewrite Href, u32_id; [lia|]. case_decide; lia.
      + intros _. rewrite Href, u32_id; case_decide; lia.
    - intros j _. apply Hwf.
    - intros _ j Hj Hc'. apply Hj. eapply (wf_uniq _ _ Hwf); [exact Hc'|].
      unfold f; simpl. by rewrite Hbno.
    - intros b' [j Hj]%(wf_pins _ _ Hwf). destruct (decide (j = i)) as [->|]; [left|eauto].
      by destruct Hj as (_ & ? & ?). }
  split_and!; try done.
  - intros b'. rewrite (view_replace P P) by done. unfold f at 1 2 3; simpl.
    destruct (decide (_ /\ _ = b')) as [[_ <-]|]; [|done].
    symmetry. apply bview_cached; [done|apply Hwf|]. by split_and!.
  - rewrite held_lookup by done. rewrite decide_True by done. by rewrite Hl.
  - rewrite (held_replace P) by done. unfold f; simpl. by rewrite Hbno.
Qed.

Lemma bread_miss_post P s b i d :
  bio_wf P s -> bs_disk s !! b = Some d -> (forall j, ~ cached s b j) ->
  (i < NBUF)%nat -> b_refcnt (buf_at i s) = 0 ->
  sl_locked (b_lock (buf_at i s)) = false /\
  bread_post P s b i (set_bufs (alter (filled (bs_pid s) ROOTDEV b d) i) s) [].
Proof.
  intros Hwf Hd Hfind Hi Hr. pose proof (ring_len _ (wf_ring _ _ Hwf)) as Hlen.
  destruct (wf_disk _ _ Hwf _ _ Hd) as [Hb Hdok].
  destruct (wf_bufs _ _ Hwf i Hi) as (Hv & Hblk & Href & Hlk & Hcl).
  assert (sl_locked (b_lock (buf_at i s)) = false) as Hl.
  { destruct (sl_locked _); [|done]. case_decide; lia. }
  split; [done|]. set (f := filled _ _ _ _). assert (keeps_links f) as Hf by done.
  assert (b ∉ P) as HbP by (intros [j Hj]%(wf_pins _ _ Hwf); by destruct (Hfind j)).
  assert (bio_wf P (set_bufs (alter f i) s)) as Hwf'.
  { apply (wf_replace P); try done.
    - unfold f, filled. split_and!; simpl; [done|done| |done|done].
      rewrite decide_False by tauto. done.
    - intros j _. apply Hwf.
    - intros b' Hb'. destruct (wf_pins _ _ Hwf b' Hb') as [j Hj]. right. exists j. split; [|done].
      intros ->. destruct Hj as (_ & Hdv & Hbn). rewrite Hl, decide_True in Href by (by subst). lia. }
  split_and!; try done.
  - intros b'. rewrite (view_replace P P) by done. unfold f at 1 2 3; simpl.
    destruct (decide (ROOTDEV = ROOTDEV /\ b = b')) as [[_ <-]|];
      [|destruct (decide (_ /\ _ = b')) as [[Hdv <-]|]; [|done]].
    + rewrite (bview_uncached s) by done. symmetry. by apply lookup_total_correct.
    + rewrite (bview_cached s _ i); [|done|apply Hwf|by split_and!].
      apply lookup_total_correct, Hcl; done.
  - rewrite held_lookup by done. rewrite decide_True by done. by rewrite Hl.
  - rewrite (held_replace P) by done. done.
Qed.

Lemma bread_spec P s b :
  bio_wf P s -> is_Some (bs_disk s !! b) -> b ∉ heldset s ->
  b ∈ P \/ (size (heldset s ∪ P) < NBUF)%nat ->
  wpt (bread ROOTDEV b) s (bread_post P s b).
Proof.
  intros Hwf [d Hd] Hnh Hroom. pose proof (ring_len _ (wf_ring _ _ Hwf)) as Hlen.
  pose proof (find_cached P s b Hwf) as Hfind. unfold wpt.
  destruct (scan b_next _ _ _ _) as [i|] eqn:Hscan.
  - pose proof Hfind as (Hi & Hdev & _). destruct (wf_bufs _ _ Hwf i Hi) as (Hv & _).
    assert (sl_locked (b_lock (buf_at i s)) = false) as Hl.
    { destruct (sl_locked _) eqn:Hl; [|done]. destruct Hnh. apply elem_of_map_img.
      exists i. by apply (held_Some P). }
    erewrite bread_hit; [|done..|by rewrite Hv, bool_decide_eq_true].
    by apply bread_hit_post.
  - assert (exists i, (i < NBUF)%nat /\ b_refcnt (buf_at i s) = 0) as Hun.
    { apply (exists_unused P); [done|]. destruct Hroom as [HP|]; [|done].
      destruct (wf_pins _ _ Hwf b HP) as [j Hj]. by destruct (Hfind j). }
    pose proof (find_unused P s Hwf) as Hfu.
    destruct (scan b_prev _ _ _ _) as [i|] eqn:Hscan';
      [|by destruct Hun as (j & Hj & []%(Hfu j Hj))].
    destruct Hfu as [Hi Hr].
    destruct (bread_miss_post P s b i d) as [Hl Hpost]; [done..|].
    erewrite bread_miss; [exact Hpost|done..|].
    rewrite sector_block_id; [done|]. by apply (wf_disk _ _ Hwf _ _ Hd).
Qed.

(** The panic of [bget]: every buffer is in use. *)
Lemma bread_no_buffers P s b :
  bio_wf P s -> (forall i, ~ cached s b i) ->
  (forall i, (i < NBUF)%nat -> b_refcnt (buf_at i s) <> 0) ->
  bread ROOTDEV b s = Panic "bget: no buffers" [].
Proof.
  intros Hwf Hnc Hbusy. pose proof (find_cached P s b Hwf) as Hf.
  pose proof (find_unused P s Hwf) as Hu.
  unfold bread, bget, bind, gets.
  destruct (scan b_next _ _ _ _) as [i|]; [by destruct (Hnc i)|].
  destruct (scan b_prev _ _ _ _) as [i|]; [|done]. naive_solver.
Qed.

(** A held buffer holds the logical contents of its block. *)
Lemma held_data P s h b : bio_wf P s -> held s !! h = Some b ->
  b_data (buf_at h s) = bview s b.
Proof.
  intros Hwf Hh. apply (held_Some P) in Hh as [Hc _]; [|done].
  symmetry. apply bview_cached; [apply ring_len|apply Hwf|done]. apply Hwf.
Qed.

Lemma held_holding P s h b : bio_wf P s -> held s !! h = Some b ->
  holdingsleep (bs_pid s) (b_lock (buf_at h s)) = true.
Proof.
  intros Hwf Hh. apply (held_Some P) in Hh as [(Hi & _) Hl]; [|done].
  destruct (wf_bufs _ _ Hwf h Hi) as (_ & _ & _ & Hlk & _).
  unfold holdingsleep. destruct (Hlk Hl) as [_ ->]. rewrite Hl. by rewrite Z.eqb_refl.
Qed.

Lemma write_data_spec P s h b d :
  bio_wf P s -> held s !! h = Some b -> block_ok d ->
  wpt (write_data h d) s (fun _ s' t =>
    bio_wf P s' /\ bs_disk s' = bs_disk s /\ bs_pid s' = bs_pid s /\
    (forall b', bview s' b' = if decide (b' = b) then d else bview s b') /\
    held s' = held s /\ dwrites t = []).
Proof.
  intros Hwf Hh Hd. pose proof Hh as [Hc Hl]%(held_Some P); [|done].
  pose proof Hc as (Hi & Hdev & Hbno).
  destruct (wf_bufs _ _ Hwf h Hi) as (Hv & Hblk & Href & Hlk & Hcl). rewrite Hl in Href.
  unfold wpt, write_data, modify_buf, modify.
  set (f := set_data d). assert (keeps_links f) as Hf by done.
  assert (bio_wf P (set_bufs (alter f h) s)) as Hwf'.
  { apply (wf_replace P); try done.
    - unfold f. split_and!; simpl; [done| |by rewrite Hl|done|].
      + intros _. split; [|done]. by apply Hblk.
      + intros _ Hr. case_decide; lia.
    - intros j _. apply Hwf.
    - intros _ j Hj Hc'. apply Hj. eapply (wf_uniq _ _ Hwf); [exact Hc'|].
      unfold f; simpl. by rewrite Hbno.
    - intros b' [j Hj]%(wf_pins _ _ Hwf). destruct (decide (j = h)) as [->|]; [left|eauto].
      by destruct Hj as (_ & ? & ?). }
  split_and!; try done.
  - intros b'. rewrite (view_replace P P) by done. unfold f; simpl.
    destruct (decide (b' = b)) as [->|Hne].
    + by rewrite decide_True.
    + rewrite !decide_False; [done|naive_solver..].
  - rewrite (held_replace P) by done. unfold f; simpl. rewrite Hl.
    apply insert_id. by rewrite Hh, Hbno.
Qed.

(** [bwrite] makes the disk agree with the held buffer. *)
Lemma bwrite_spec P s h b :
  bio_wf P s -> held s !! h = Some b ->
  wpt (bwrite h) s (fun _ s' t =>
    bio_wf P s' /\ bs_disk s' = <[b := bview s b]> (bs_disk s) /\ bs_pid s' = bs_pid s /\
    (forall b', bview s' b' = bview s b') /\
    held s' = held s /\ dwrites t = [(b, bview s b)]).
Proof.
  intros Hwf Hh. pose proof Hh as [Hc Hl]%(held_Some P); [|done].
  pose proof Hc as (Hi & Hdev & Hbno).
  destruct (wf_bufs _ _ Hwf h Hi) as (_ & Hblk & _). rewrite Hdev, Hbno in Hblk.
  destruct (Hblk eq_refl) as [[d Hd] Hok]. destruct (wf_disk _ _ Hwf _ _ Hd) as [Hb _].
  rewrite <- (held_data P s h b) by done.
  unfold wpt, bwrite, virtio_disk_rw, bind, gets, modify, emit.
  rewrite (held_holding P s h b) by done. cbn -[buf_at].
  rewrite Hbno, sector_block_id, Hd by done. cbn -[buf_at]. split_and!; try done.
  2: { intros b'. pose proof (ring_len _ (wf_ring _ _ Hwf)) as Hlen.
    destruct (cached_or_not s b' Hlen) as [[j Hj]|Hnc].
    - by rewrite !(bview_cached _ b' j) by (apply Hwf || done).
    - rewrite !bview_uncached by done. simpl. rewrite lookup_total_insert_ne; [done|].
      intros <-. by destruct (Hnc h). }
  split; [apply Hwf| | |apply Hwf|].
  - intros i Hi'. change (buf_at i _) with (buf_at i s). simpl.
    destruct (wf_bufs _ _ Hwf i Hi') as (Hv & Hblk' & Href & Hlk & Hcl).
    split_and!; [done| |done|done|].
    + intros Hd'. destruct (Hblk' Hd') as [Hs ?]. split; [|done].
      destruct (decide (b = b_blockno (buf_at i s))) as [->|];
        [by rewrite lookup_insert_eq|by rewrite lookup_insert_ne].
    + intros Hd' Hr. destruct (decide (b = b_blockno (buf_at i s))) as [Heq|].
      * rewrite <- Heq, lookup_insert_eq. f_equal.
        rewrite (wf_uniq _ _ Hwf b h i); [done..|]. by split_and!.
      * rewrite lookup_insert_ne by done. auto.
  - apply (wf_uniq _ _ Hwf).
  - intros b' d'. simpl. intros [[<- <-]|[_ ?]]%lookup_insert_Some; [done|].
    by apply (wf_disk _ _ Hwf).
Qed.

(** A state whose buffers differ only in their list links. *)
Lemma wf_same_core P s s' :
  bio_wf P s -> ring_ok (bs_bufs s') -> bs_disk s' = bs_disk s -> bs_pid s' = bs_pid s ->
  (forall i, core (buf_at i s') = core (buf_at i s)) ->
  bio_wf P s' /\ (forall b, bview s' b = bview s b) /\ held s' = held s.
Proof.
  intros Hwf Hring Hdisk Hpid Hcore.
  pose proof (ring_len _ Hring) as Hlen'. pose proof (ring_len _ (wf_ring _ _ Hwf)) as Hlen.
  assert (forall i, b_valid (buf_at i s') = b_valid (buf_at i s) /\
    b_dev (buf_at i s') = b_dev (buf_at i s) /\ b_blockno (buf_at i s') = b_blockno (buf_at i s) /\
    b_lock (buf_at i s') = b_lock (buf_at i s) /\ b_refcnt (buf_at i s') = b_refcnt (buf_at i s) /\
    b_data (buf_at i s') = b_data (buf_at i s)) as Hc
    by (intros i; specialize (Hcore i); unfold core in Hcore; by simplify_eq).
  assert (forall b i, cached s' b i <-> cached s b i) as Hcached
    by (intros b i; unfold cached; destruct (Hc i) as (_ & -> & -> & _); done).
  assert (forall b i j, cached s' b i -> cached s' b j -> i = j) as Huniq
    by (intros b i j; rewrite !Hcached; apply Hwf).
  split_and!.
  - split; [done| |done| |by rewrite Hdisk; apply Hwf].
    + intros i Hi. unfold buf_ok. destruct (Hc i) as (-> & -> & -> & -> & -> & ->).
      rewrite Hdisk, Hpid. by apply Hwf.
    + intros b Hb%(wf_pins _ _ Hwf). setoid_rewrite Hcached. done.
  - intros b. destruct (cached_or_not s b Hlen) as [[j Hj]|Hnc].
    + rewrite (bview_cached s b j); [|done|apply Hwf|done].
      rewrite (bview_cached s' b j); [apply Hc|done|done|by apply Hcached].
    + rewrite (bview_uncached s), (bview_uncached s'), Hdisk; [done|done| |done|done].
      intros j. rewrite Hcached. apply Hnc.
  - apply map_eq. intros i. rewrite !held_lookup by done.
    destruct (Hc i) as (_ & _ & -> & -> & _). done.
Qed.

(** Moving a buffer to the front of the list keeps the ring. *)
Lemma ring_move_front bufs h :
  ring_ok bufs -> (h < NBUF)%nat ->
  ring_ok (link_front h (unlink h bufs)) /\
  (forall i, core (link_front h (unlink h bufs) !!! i) = core (bufs !!! i)).
Proof.
  intros [Hlen (order & Hperm & Hl)] Hh.
  destruct (list_elem_of_split order h) as (l1 & l2 & ->); [by apply order_elem|].
  assert (NoDup (HEAD :: l1 ++ h :: l2)) as Hnd.
  { apply NoDup_cons. split; [rewrite order_elem by done; unfold HEAD; lia|].
    rewrite Hperm. apply NoDup_seq. }
  assert (forall i, i ∈ HEAD :: l1 ++ h :: l2 -> (i < S NBUF)%nat) as Hlt.
  { intros i [->|Hi]%elem_of_cons; [unfold HEAD; lia|]. apply order_elem in Hi; [lia|done]. }
  destruct (unlink_spec h bufs l1 l2) as (Hl' & Hlen' & Hcore'); [done|by rewrite Hlen|done|].
  destruct (link_front_spec h (unlink h bufs) (l1 ++ l2)) as (Hl'' & Hlen'' & Hcore'');
    [by rewrite Permutation_middle| |done|].
  { intros i Hi. rewrite Hlen', Hlen. apply Hlt. set_solver. }
  split; [split|].
  - by rewrite Hlen'', Hlen'.
  - exists (h :: l1 ++ l2). split; [|done]. by rewrite Permutation_middle.
  - intros i. by rewrite Hcore''.
Qed.

Definition dropped (x : buf) : buf :=
  set_refcnt (u32 (b_refcnt x - 1)) (set_lock (mkSleeplock false 0) x).

Lemma brelse_run s h :
  length (bs_bufs s) = S NBUF -> (h < NBUF)%nat ->
  holdingsleep (bs_pid s) (b_lock (buf_at h s)) = true ->
  let s1 := set_bufs (alter dropped h) s in
  brelse h s =
    Ret tt (if b_refcnt (buf_at h s1) =? 0
            then set_bufs (fun bufs => link_front h (unlink h bufs)) s1 else s1)
      [Wake (ChSleeplock "buffer" h)].
Proof.
  intros Hlen Hi Hhold s1. unfold brelse, bind, gets. rewrite Hhold.
  unfold with_buf_lock, zoom, modify_buf, modify. cbn -[buf_at link_front unlink].
  unfold set_bufs. cbn -[buf_at link_front unlink]. rewrite alter_alter.
  change (mkBst (alter _ h (bs_bufs s)) (bs_disk s) (bs_pid s)) with s1.
  by destruct (b_refcnt (buf_at h s1) =? 0).
Qed.

Lemma brelse_spec P s h b :
  bio_wf P s -> held s !! h = Some b -> (b ∈ P \/ bs_disk s !! b = Some (bview s b)) ->
  wpt (brelse h) s (fun _ s' t =>
    bio_wf P s' /\ bs_disk s' = bs_disk s /\ bs_pid s' = bs_pid s /\
    (forall b', bview s' b' = bview s b') /\
    held s' = delete h (held s) /\ dwrites t = []).
Proof.
  intros Hwf Hh Hclean. pose proof Hh as [Hc Hl]%(held_Some P); [|done].
  pose proof (held_data P s h b Hwf Hh) as Hdata.
  pose proof Hc as (Hi & Hdev & Hbno). pose proof (ring_len _ (wf_ring _ _ Hwf)) as Hlen.
  destruct (wf_bufs _ _ Hwf h Hi) as (Hv & Hblk & Href & Hlk & Hcl). rewrite Hl in Href.
  set (f := dropped). assert (keeps_links f) as Hf by done.
  assert (b_refcnt (f (buf_at h s)) = b_refcnt (buf_at h s) - 1) as Hr.
  { unfold f; simpl. rewrite Href, u32_id; case_decide; lia. }
  set (s1 := set_bufs (alter f h) s).
  assert (bio_wf P s1) as Hwf1.
  { apply (wf_replace P); try done.
    - split_and!; [done|done| |done|].
      + rewrite Hr, Href. simpl. lia.
      + intros _. rewrite Hr, Href. simpl. rewrite Hbno, Hdata. intros Hz.
        destruct Hclean as [HP|]; [|done]. rewrite decide_True in Hz by done. lia.
    - intros j _. apply Hwf.
    - intros _ j Hj Hc'. apply Hj. eapply (wf_uniq _ _ Hwf); [exact Hc'|].
      simpl. by rewrite Hbno.
    - intros b' [j Hj]%(wf_pins _ _ Hwf). destruct (decide (j = h)) as [->|]; [left|eauto].
      by destruct Hj as (_ & ? & ?). }
  assert (forall b', bview s1 b' = bview s b') as Hview1.
  { intros b'. unfold s1. rewrite (view_replace P P) by done. simpl.
    destruct (decide (_ /\ _ = b')) as [[_ <-]|]; [|done]. by rewrite Hbno. }
  assert (held s1 = delete h (held s)) as Hheld1 by (unfold s1; by rewrite (held_replace P)).
  unfold wpt. rewrite brelse_run by (done || by eapply held_holding).
  cbv zeta. fold f. fold s1. destruct (_ =? 0); [|by split_and!].
  destruct (ring_move_front (bs_bufs s1) h) as [Hring Hcore]; [apply Hwf1|done|].
  destruct (wf_same_core P s1 (set_bufs (fun bufs => link_front h (unlink h bufs)) s1))
    as (Hwf2 & Hview2 & Hheld2); [done..|].
  split_and!; try done.
  - intros b'. by rewrite Hview2.
  - by rewrite Hheld2.
Qed.

(** [bpin] and [bunpin] move a cached block in and out of the pinned set. *)
Definition pin_post (P' : gset Z) (s s' : bst) : Prop :=
  bio_wf P' s' /\ bs_disk s' = bs_disk s /\ bs_pid s' = bs_pid s /\
  (forall b', bview s' b' = bview s b') /\ held s' = held s.

Lemma set_refcnt_post P P' s h b r :
  bio_wf P s -> held s !! h = Some b ->
  r = 1 + (if decide (b ∈ P') then 1 else 0) ->
  (forall b', b' <> b -> b' ∈ P' <-> b' ∈ P) ->
  pin_post P' s (set_bufs (alter (set_refcnt r) h) s).
Proof.
  intros Hwf Hh Hr HP. pose proof Hh as [Hc Hl]%(held_Some P); [|done].
  pose proof Hc as (Hi & Hdev & Hbno).
  destruct (wf_bufs _ _ Hwf h Hi) as (Hv & Hblk & Href & Hlk & Hcl).
  set (f := set_refcnt r). assert (keeps_links f) as Hf by done.
  assert (bio_wf P' (set_bufs (alter f h) s)) as Hwf'.
  { apply (wf_replace P); try done.
    - split_and!; [done|done| |done|]; simpl.
      + rewrite Hl, Hbno, Hr. destruct (decide (b ∈ P'));
          [rewrite decide_True by done|rewrite decide_False by tauto]; lia.
      + intros _ Hz. destruct (decide (b ∈ P')); lia.
    - intros j Hj Hj'. destruct (wf_bufs _ _ Hwf j Hj') as (? & ? & Href' & ? & ?).
      split_and!; try done. rewrite Href'. f_equal.
      destruct (decide (b_dev (buf_at j s) = ROOTDEV)) as [Hdj|].
      + assert (b_blockno (buf_at j s) <> b).
        { intros Hb. apply Hj. eapply (wf_uniq _ _ Hwf b); by split_and!. }
        apply decide_ext. rewrite HP by done. tauto.
      + by rewrite !decide_False by tauto.
    - intros _ j Hj Hc'. apply Hj. eapply (wf_uniq _ _ Hwf); [exact Hc'|].
      simpl. by rewrite Hbno.
    - intros b' Hb'. destruct (decide (b' = b)) as [->|Hne]; [by left|right].
      apply HP in Hb'; [|done]. apply (wf_pins _ _ Hwf) in Hb' as [j Hj]. exists j.
      split; [|done]. intros ->. destruct Hj as (_ & _ & ?). congruence. }
  split_and!; try done.
  - intros b'. rewrite (view_replace P P') by done. simpl.
    destruct (decide (_ /\ _ = b')) as [[_ <-]|]; [|done].
    rewrite Hbno. by apply (held_data P).
  - rewrite (held_replace P) by done. simpl. rewrite Hl. apply insert_id. by rewrite Hh, Hbno.
Qed.

Lemma held_refcnt P s h b : bio_wf P s -> held s !! h = Some b ->
  b_refcnt (buf_at h s) = 1 + (if decide (b ∈ P) then 1 else 0).
Proof.
  intros Hwf Hh. pose proof Hh as [Hc Hl]%(held_Some P); [|done].
  destruct Hc as (Hi & Hdev & Hbno). destruct (wf_bufs _ _ Hwf h Hi) as (_ & _ & Href & _).
  rewrite Hl, Hdev, Hbno in Href. rewrite Href.
  destruct (decide (b ∈ P)); [rewrite decide_True by done|rewrite decide_False by tauto]; lia.
Qed.

Lemma modify_refcnt_run P s h b (g : Z -> Z) : bio_wf P s -> held s !! h = Some b ->
  modify_buf h (fun x => set_refcnt (g (b_refcnt x)) x) s =
  Ret tt (set_bufs (alter (set_refcnt (g (b_refcnt (buf_at h s)))) h) s) [].
Proof.
  intros Hwf Hh. pose proof (ring_len _ (wf_ring _ _ Hwf)) as Hlen.
  apply (held_Some P) in Hh as [(Hi & _) _]; [|done].
  unfold modify_buf, modify, set_bufs. do 2 f_equal. apply list_alter_ext; [|done].
  intros x Hx. unfold buf_at. by rewrite (list_lookup_total_correct _ _ _ Hx).
Qed.

Lemma bpin_spec P s h b :
  bio_wf P s -> held s !! h = Some b -> b ∉ P ->
  wpt (bpin h) s (fun _ s' t => pin_post ({[b]} ∪ P) s s' /\ dwrites t = []).
Proof.
  intros Hwf Hh HP. unfold wpt, bpin.
  rewrite (modify_refcnt_run P s h b (fun r => u32 (r + 1))) by done.
  split; [|done]. apply (set_refcnt_post P _ s h b); [done|done| |set_solver].
  rewrite (held_refcnt P s h b), decide_False, decide_True by set_solver. done.
Qed.

Lemma bunpin_spec P s h b :
  bio_wf P s -> held s !! h = Some b -> b ∈ P ->
  wpt (bunpin h) s (fun _ s' t => pin_post (P ∖ {[b]}) s s' /\ dwrites t = []).
Proof.
  intros Hwf Hh HP. unfold wpt, bunpin.
  rewrite (modify_refcnt_run P s h b (fun r => u32 (r - 1))) by done.
  split; [|done]. apply (set_refcnt_post P _ s h b); [done|done| |set_solver].
  rewrite (held_refcnt P s h b), decide_True, decide_False by set_solver. done.
Qed.

(** The state left by [binit] satisfies the invariant with nothing cached. *)
Definition boot_bst (disk : gmap Z bytes) (pid : Z) : bst := mkBst binit_bufs disk pid.

Lemma binit_ring : ring_ok binit_bufs.
Proof.
  split; [by vm_compute|]. exists (reverse (seq 0 NBUF)). split; [by rewrite reverse_Permutation|].
  vm_compute. tauto.
Qed.

Lemma boot_cached disk pid b i : ~ cached (boot_bst disk pid) b i.
Proof.
  intros (Hi & Hd & _). unfold NBUF in Hi.
  do 30 (destruct i as [|i]; [by vm_compute in Hd|]). lia.
Qed.

Lemma boot_buf i : (i < NBUF)%nat -> let x := binit_bufs !!! i in
  b_valid x = false /\ b_dev x = 0 /\ b_lock x = initsleeplock /\ b_refcnt x = 0.
Proof.
  intros Hi. unfold NBUF in Hi. do 30 (destruct i as [|i]; [by vm_compute|]). lia.
Qed.

Lemma boot_wf disk pid : disk_ok disk -> bio_wf ∅ (boot_bst disk pid).
Proof.
  intros Hd. split; [apply binit_ring| |..|done].
  - intros i Hi. destruct (boot_buf i Hi) as (Hv & Hdv & Hl & Hr).
    change (buf_at i (boot_bst disk pid)) with (binit_bufs !!! i).
    unfold buf_ok. rewrite Hv, Hdv, Hl, Hr.
    split; [done|]. split; [done|]. split; [|split; done].
    rewrite decide_False; [done|]. intros [_ []%elem_of_empty].
  - intros b i j Hc. by apply boot_cached in Hc.
  - intros b []%elem_of_empty.
Qed.

Lemma boot_held disk pid : held (boot_bst disk pid) = ∅.
Proof. by vm_compute. Qed.

#[global] Opaque binit_bufs.
