(* ===== verification/Log.v ===== *)
(** * Write-ahead log ([kernel/log.c])

    [lst] is the buffer cache and disk below the log together with the
    [struct log] fields.  [install_trans], [read_head], [write_head],
    [recover_from_log], [begin_op], [end_op], [write_log], [commit] and
    [log_write] are the C functions; the spinlock [log.lock] makes the
    sections it guards atomic and is left implicit. *)
From stdpp Require Import pretty.
From S2P Require Import Prelude Params Sleeplock Bio.

Record lst : Set := mkLst {
  l_bio : bst;
  l_start : Z;         (* log.start *)
  l_outstanding : Z;   (* log.outstanding *)
  l_committing : bool; (* log.committing *)
  l_dev : Z;           (* log.dev *)
  l_n : Z;             (* log.lh.n *)
  l_block : list Z }.  (* log.lh.block[LOGBLOCKS] *)

Definition set_bio (b : bst) (s : lst) : lst :=
  mkLst b (l_start s) (l_outstanding s) (l_committing s) (l_dev s) (l_n s) (l_block s).
Definition set_outstanding (o : Z) (s : lst) : lst :=
  mkLst (l_bio s) (l_start s) o (l_committing s) (l_dev s) (l_n s) (l_block s).
Definition set_committing (c : bool) (s : lst) : lst :=
  mkLst (l_bio s) (l_start s) (l_outstanding s) c (l_dev s) (l_n s) (l_block s).
Definition set_lh_n (n : Z) (s : lst) : lst :=
  mkLst (l_bio s) (l_start s) (l_outstanding s) (l_committing s) (l_dev s) n (l_block s).
Definition set_lh_block (b : list Z) (s : lst) : lst :=
  mkLst (l_bio s) (l_start s) (l_outstanding s) (l_committing s) (l_dev s) (l_n s) b.
Definition set_log_dev (start dev : Z) (s : lst) : lst :=
  mkLst (l_bio s) start (l_outstanding s) (l_committing s) dev (l_n s) (l_block s).

Definition bio {A} (m : M bst A) : M lst A := zoom l_bio set_bio m.

(** [log.lh.block[i]]; the C array has LOGBLOCKS elements. *)
Definition lh_block (i : Z) (s : lst) : Z := l_block s !!! Z.to_nat i.
Definition set_block (i v : Z) : M lst unit :=
  if i <? LOGBLOCKS then modify (fun s => set_lh_block (<[Z.to_nat i := v]> (l_block s)) s)
  else undefined_behaviour "log.lh.block[] index".

(** The on-disk header: [int n] then [int block[LOGBLOCKS]]. *)
Definition hdr_n (d : bytes) : Z := get_i32 d 0.
Definition hdr_block (d : bytes) (i : Z) : Z := get_i32 d (4 + 4 * i).

Definition install_trans (recovering : bool) : M lst unit :=
  let! n := gets l_n in
  iter n (fun tail =>
    let! dst := gets (lh_block tail) in
    when recovering (emit (Print ("recovering tail " ++ pretty tail ++ " dst " ++ pretty dst))) ;;;
    let! dev := gets l_dev in
    let! start := gets l_start in
    let! lbuf := bio (bread dev (u32 (start + tail + 1))) in
    let! dbuf := bio (bread dev (u32 dst)) in
    let! d := bio (read_data lbuf) in
    bio (write_data dbuf d) ;;;
    bio (bwrite dbuf) ;;;
    when (negb recovering) (bio (bunpin dbuf)) ;;;
    bio (brelse lbuf) ;;;
    bio (brelse dbuf)).

Definition read_head : M lst unit :=
  let! dev := gets l_dev in
  let! start := gets l_start in
  let! b := bio (bread dev (u32 start)) in
  let! lh := bio (read_data b) in
  modify (set_lh_n (hdr_n lh)) ;;;
  iter (hdr_n lh) (fun i => set_block i (hdr_block lh i)) ;;;
  bio (brelse b).

(** [hb->n = n; for(i < n) hb->block[i] = block[i]] on the header's bytes. *)
Definition fill_head (n : Z) (block : list Z) (hb : bytes) : bytes :=
  foldl (fun hb i => put_u32 hb (4 + 4 * Z.of_nat i) (block !!! i))
    (put_u32 hb 0 n) (seq 0 (Z.to_nat n)).

Definition write_head : M lst unit :=
  let! dev := gets l_dev in
  let! start := gets l_start in
  let! b := bio (bread dev (u32 start)) in
  let! hb := bio (read_data b) in
  let! n := gets l_n in
  let! block := gets l_block in
  bio (write_data b (fill_head n block hb)) ;;;
  bio (bwrite b) ;;;
  bio (brelse b).

Definition recover_from_log : M lst unit :=
  read_head ;;;
  install_trans true ;;;
  modify (set_lh_n 0) ;;;
  write_head.

(** [sizeof(struct logheader)] is [4 + 4*LOGBLOCKS]. *)
Definition initlog (dev logstart : Z) : M lst unit :=
  if BSIZE <=? 4 + 4 * LOGBLOCKS then panic "initlog: too big logheader"
  else
    modify (set_log_dev (i32 logstart) (i32 dev)) ;;;
    recover_from_log.

Definition begin_op : M lst unit :=
  let! committing := gets l_committing in
  let! n := gets l_n in
  let! outstanding := gets l_outstanding in
  if committing then sleep_on ChLog
  else if LOGBLOCKS <? n + (outstanding + 1) * MAXOPBLOCKS then sleep_on ChLog
  else modify (set_outstanding (outstanding + 1)).

Definition write_log : M lst unit :=
  let! n := gets l_n in
  iter n (fun tail =>
    let! dev := gets l_dev in
    let! start := gets l_start in
    let! to := bio (bread dev (u32 (start + tail + 1))) in
    let! src := gets (lh_block tail) in
    let! from := bio (bread dev (u32 src)) in
    let! d := bio (read_data from) in
    bio (write_data to d) ;;;
    bio (bwrite to) ;;;
    bio (brelse from) ;;;
    bio (brelse to)).

Definition commit : M lst unit :=
  let! n := gets l_n in
  when (0 <? n)
    (write_log ;;;
     write_head ;;;
     install_trans false ;;;
     modify (set_lh_n 0) ;;;
     write_head).

Definition end_op : M lst unit :=
  modify (fun s => set_outstanding (l_outstanding s - 1) s) ;;;
  let! committing := gets l_committing in
  if committing then panic "log.committing"
  else
    let! outstanding := gets l_outstanding in
    if outstanding =? 0 then
      modify (set_committing true) ;;;
      commit ;;;
      modify (set_committing false) ;;;
      wakeup ChLog
    else wakeup ChLog.

(** First index i < n with [block[i] == blockno], or n. *)
Fixpoint log_index (n : nat) (block : list Z) (blockno : Z) (i : nat) : nat :=
  match n with
  | O => i
  | S n => if u32 (block !!! i) =? blockno then i else log_index n block blockno (S i)
  end.

Definition log_write (b : nat) : M lst unit :=
  let! n := gets l_n in
  let! outstanding := gets l_outstanding in
  if LOGBLOCKS <=? n then panic "too big a transaction"
  else if outstanding <? 1 then panic "log_write outside of trans"
  else
    let! blockno := gets (fun s => b_blockno (buf_at b (l_bio s))) in
    let! block := gets l_block in
    let i := Z.of_nat (log_index (Z.to_nat n) block blockno 0) in
    set_block i (i32 blockno) ;;;
    when (i =? n) (bio (bpin b) ;;; modify (set_lh_n (n + 1))).
