(* ===== verification/LogInv.v ===== *)
(** * Log: what its loops write to the disk

    The disk writes of [write_log], [write_head], [install_trans] and
    [recover_from_log] as explicit lists, and the effect of each on the
    logical block contents. *)
From S2P Require Import Prelude Params Sleeplock Bio BioInv Log.

Definition apply_writes (w : list (Z * bytes)) (d : gmap Z bytes) : gmap Z bytes :=
  foldl (fun d x => <[x.1 := x.2]> d) d w.

Lemma apply_writes_app w1 w2 d :
  apply_writes (w1 ++ w2) d = apply_writes w2 (apply_writes w1 d).
Proof. apply foldl_app. Qed.

Lemma apply_writes_notin w d b :
  b ∉ w.*1 -> apply_writes w d !! b = d !! b.
Proof.
  revert d. induction w as [|[b' x] w IH]; intros d Hb; simpl; [done|].
  simpl in Hb. rewrite IH by set_solver. rewrite lookup_insert_ne; [done|set_solver].
Qed.

Lemma apply_writes_dom w d b : is_Some (d !! b) -> is_Some (apply_writes w d !! b).
Proof.
  revert d. induction w as [|[b' x] w IH]; intros d Hb; simpl; [done|].
  apply IH. destruct (decide (b' = b)) as [->|];
    [by rewrite lookup_insert_eq|by rewrite lookup_insert_ne].
Qed.

Lemma wpt_bio {A} (m : M bst A) s Q :
  wpt m (l_bio s) (fun a b t => Q a (set_bio b s) t) -> wpt (bio m) s Q.
Proof. apply wpt_zoom. Qed.

Lemma wpt_when_emit {S} (c : bool) (m : string) (s : S) (Q : unit -> S -> list event -> Prop) :
  (forall t, dwrites t = [] -> Q tt s t) -> wpt (when c (emit (Print m))) s Q.
Proof. intros H. destruct c; [apply wpt_emit|apply wpt_ret]; by apply H. Qed.

Lemma set_bio_set_bio b b' s : set_bio b (set_bio b' s) = set_bio b s.
Proof. done. Qed.

(** With nothing held or pinned, the logical contents are the disk's. *)
Lemma clean_view P s b : bio_wf P s -> b ∉ heldset s -> b ∉ P -> bview s b = bs_disk s !!! b.
Proof.
  intros Hwf Hh HP. pose proof (ring_len _ (wf_ring _ _ Hwf)) as Hlen.
  destruct (cached_or_not s b Hlen) as [[i Hc]|]; [|by apply bview_uncached].
  rewrite (bview_cached s b i); [|done|apply Hwf|done].
  pose proof Hc as (Hi & Hd & Hb). destruct (wf_bufs _ _ Hwf i Hi) as (_ & _ & Href & _ & Hcl).
  symmetry. apply lookup_total_correct. rewrite <- Hb. apply Hcl; [done|]. rewrite Href.
  rewrite decide_False by (rewrite Hb; tauto).
  destruct (sl_locked _) eqn:Hl; [|done]. destruct Hh. apply elem_of_map_img.
  exists i. by apply (held_Some P).
Qed.

Lemma heldset_empty s : held s = ∅ -> heldset s = ∅.
Proof. intros H. unfold heldset. rewrite H. apply map_img_empty_L. Qed.

Lemma heldset_insert s h b : held s = {[h := b]} -> heldset s = {[b]}.
Proof. intros H. unfold heldset. rewrite H. apply map_img_singleton_L. Qed.

(** ** Copying one block to the disk: the body of the copy loops *)

(** One block [dst] is written, with contents [v], and nothing else changes. *)
Definition wrote (P' : gset Z) (dst : Z) (v : bytes) (s s' : bst) (t : list event) : Prop :=
  bio_wf P' s' /\ held s' = ∅ /\ bs_pid s' = bs_pid s /\
  bs_disk s' = <[dst := v]> (bs_disk s) /\
  (forall b, bview s' b = if decide (b = dst) then v else bview s b) /\
  dwrites t = [(dst, v)].

(** The loops copy [src] to [dst]; they differ in the order of the reads and
    in the unpinning. *)
Definition copied (P' : gset Z) (src dst : Z) (s : bst) : bst -> list event -> Prop :=
  wrote P' dst (bview s src) s.

(** Steps through one call of the buffer cache inside the log's state. *)
Ltac bio_step spec :=
  apply wpt_bind, wpt_bio; eapply wpt_mono; [eapply spec|]; cbn [l_bio set_bio].
Ltac bio_last spec :=
  apply wpt_bio; eapply wpt_mono; [eapply spec|]; cbn [l_bio set_bio].
Ltac get_step := apply wpt_bind, wpt_gets; cbn beta.

Lemma delete_both (h1 h2 : nat) (b1 b2 : Z) (m : gmap nat Z) :
  m = <[h1 := b1]> (<[h2 := b2]> ∅) -> delete h1 (delete h2 m) = ∅ /\ delete h2 (delete h1 m) = ∅.
Proof.
  intros ->. split; apply map_empty; intros i; destruct (decide (i = h1)), (decide (i = h2));
    subst; simplify_map_eq; done.
Qed.

Section bodies.
Context (s : lst) (P : gset Z) (src dst : Z).
Context (Hwf : bio_wf P (l_bio s)) (Hheld : held (l_bio s) = ∅) (Hdev : l_dev s = ROOTDEV).
Context (Hsrc : is_Some (bs_disk (l_bio s) !! src)) (Hdst : is_Some (bs_disk (l_bio s) !! dst)).
Context (Hne : src <> dst).

Lemma in_disk_ok b : is_Some (bs_disk (l_bio s) !! b) -> 0 <= b < 2^31.
Proof. intros [d Hd]. apply (wf_disk _ _ Hwf _ _ Hd). Qed.

Lemma in_disk_u32 b : is_Some (bs_disk (l_bio s) !! b) -> u32 b = b.
Proof. intros Hb%in_disk_ok. apply u32_id. lia. Qed.

Lemma view_ok b : is_Some (bs_disk (l_bio s) !! b) -> block_ok (bview (l_bio s) b).
Proof.
  intros [d Hd]. pose proof (ring_len _ (wf_ring _ _ Hwf)) as Hlen.
  destruct (cached_or_not (l_bio s) b Hlen) as [[i Hc]|Hnc].
  - rewrite (bview_cached _ b i); [|done|apply Hwf|done]. destruct Hc as (Hi & Hdv & _).
    destruct (wf_bufs _ _ Hwf i Hi) as (_ & Hblk & _). by apply Hblk.
  - rewrite bview_uncached by done. rewrite (lookup_total_correct _ _ _ Hd).
    by apply (wf_disk _ _ Hwf _ _ Hd).
Qed.

(** The body of [write_log]: [src] is pinned, [dst] is a log slot. *)
Lemma write_log_body (tail : Z) :
  src ∈ P -> dst ∉ P -> (size P < NBUF)%nat -> lh_block tail s = src ->
  u32 (l_start s + tail + 1) = dst ->
  wpt (let! dev := gets l_dev in
       let! start := gets l_start in
       let! to := bio (bread dev (u32 (start + tail + 1))) in
       let! src := gets (lh_block tail) in
       let! from := bio (bread dev (u32 src)) in
       let! d := bio (read_data from) in
       bio (write_data to d) ;;;
       bio (bwrite to) ;;;
       bio (brelse from) ;;;
       bio (brelse to)) s
    (fun _ s' t => exists b', s' = set_bio b' s /\ copied P src dst (l_bio s) b' t).
Proof.
  intros HsP HdP Hroom Hblk Hstart. get_step. get_step. rewrite Hdev, Hstart.
  bio_step (bread_spec P); [done|done|by rewrite heldset_empty by done|right; by rewrite heldset_empty, union_empty_l_L by done|].
  intros to b1 t1 (Hwf1 & Hd1 & Hp1 & Hv1 & Hnh1 & Hh1 & Ht1). rewrite Hheld in Hh1.
  get_step. change (lh_block tail (set_bio b1 s)) with (lh_block tail s). rewrite Hblk, in_disk_u32 by done.
  bio_step (bread_spec P); [done|by rewrite Hd1|rewrite (heldset_insert _ to dst) by done; set_solver|by left|].
  intros from b2 t2 (Hwf2 & Hd2 & Hp2 & Hv2 & Hnh2 & Hh2 & Ht2).
  rewrite Hh1 in Hnh2, Hh2. apply lookup_insert_None in Hnh2 as [_ Hft].
  assert (held b2 !! from = Some src) as Hf by (by rewrite Hh2, lookup_insert_eq).
  assert (held b2 !! to = Some dst) as Ht
    by (by rewrite Hh2, lookup_insert_ne, lookup_insert_eq).
  apply wpt_bind, wpt_bio. unfold read_data. apply wpt_gets. cbn [l_bio set_bio].
  rewrite (held_data P b2 from src) by done. rewrite Hv2, Hv1.
  bio_step (write_data_spec P); [done|done|by apply view_ok|].
  intros _ b3 t3 (Hwf3 & Hd3 & Hp3 & Hv3 & Hh3 & Ht3).
  bio_step (bwrite_spec P); [done|by rewrite Hh3|].
  intros _ b4 t4 (Hwf4 & Hd4 & Hp4 & Hv4 & Hh4 & Ht4).
  bio_step (brelse_spec P); [done|by rewrite Hh4, Hh3|by left|].
  intros _ b5 t5 (Hwf5 & Hd5 & Hp5 & Hv5 & Hh5 & Ht5).
  bio_last (brelse_spec P); [done|by rewrite Hh5, Hh4, Hh3, lookup_delete_ne| |].
  { right. rewrite Hd5, Hd4, lookup_insert_eq, Hv5, Hv4. done. }
  intros _ b6 t6 (Hwf6 & Hd6 & Hp6 & Hv6 & Hh6 & Ht6).
  assert (bview b3 dst = bview (l_bio s) src) as Hv3d by (by rewrite Hv3, decide_True).
  exists b6. split; [done|]. split_and!.
  - done.
  - rewrite Hh6, Hh5, Hh4, Hh3. by eapply delete_both.
  - congruence.
  - rewrite Hd6, Hd5, Hd4, Hd3, Hd2, Hd1. by rewrite Hv3d.
  - intros b. rewrite Hv6, Hv5, Hv4, Hv3. case_decide; [done|]. by rewrite Hv2, Hv1.
  - simpl. rewrite !dwrites_app, Ht1, Ht2, Ht3, Ht4, Ht5, Ht6, Hv3d. done.
Qed.

(** The body of [install_trans]: [src] is a log slot, [dst] a home block that
    is pinned during a commit and not during recovery. *)
Definition installed_pins (recovering : bool) : gset Z := if recovering then P else P ∖ {[dst]}.

Lemma unpin_step (recovering : bool) (s1 : lst) dbuf :
  bio_wf P (l_bio s1) -> held (l_bio s1) !! dbuf = Some dst -> (recovering = false -> dst ∈ P) ->
  wpt (when (negb recovering) (bio (bunpin dbuf))) s1 (fun _ s2 t =>
    exists b2, s2 = set_bio b2 s1 /\ pin_post (installed_pins recovering) (l_bio s1) b2 /\ dwrites t = []).
Proof.
  intros Hwf1 Hd HP. destruct recovering; simpl.
  - apply wpt_ret. exists (l_bio s1). by destruct s1.
  - bio_last (bunpin_spec P); [done|done|by apply HP|]. intros _ b2 t [Hpin Ht]. eauto.
Qed.

Lemma install_body (recovering : bool) (tail : Z) :
  src ∉ P -> (size P < NBUF)%nat ->
  (if recovering then dst ∉ P /\ (size ({[src]} ∪ P) < NBUF)%nat else dst ∈ P) ->
  lh_block tail s = dst -> u32 (l_start s + tail + 1) = src ->
  wpt (let! dev := gets l_dev in
       let! start := gets l_start in
       let! lbuf := bio (bread dev (u32 (start + tail + 1))) in
       let! dbuf := bio (bread dev (u32 (lh_block tail s))) in
       let! d := bio (read_data lbuf) in
       bio (write_data dbuf d) ;;;
       bio (bwrite dbuf) ;;;
       when (negb recovering) (bio (bunpin dbuf)) ;;;
       bio (brelse lbuf) ;;;
       bio (brelse dbuf)) s
    (fun _ s' t => exists b', s' = set_bio b' s /\
       copied (installed_pins recovering) src dst (l_bio s) b' t).
Proof.
  intros HsP Hroom Hrec Hblk Hstart. rewrite Hblk. get_step. get_step. rewrite Hdev, Hstart.
  rewrite in_disk_u32 by done.
  bio_step (bread_spec P); [done|done|by rewrite heldset_empty by done|right; by rewrite heldset_empty, union_empty_l_L by done|].
  intros lb b1 t1 (Hwf1 & Hd1 & Hp1 & Hv1 & Hnh1 & Hh1 & Ht1). rewrite Hheld in Hh1.
  bio_step (bread_spec P); [done|by rewrite Hd1|rewrite (heldset_insert _ lb src) by done; set_solver| |].
  { rewrite (heldset_insert _ lb src) by done. destruct recovering; [right|left]; tauto. }
  intros db b2 t2 (Hwf2 & Hd2 & Hp2 & Hv2 & Hnh2 & Hh2 & Ht2).
  rewrite Hh1 in Hnh2, Hh2. apply lookup_insert_None in Hnh2 as [_ Hft].
  assert (held b2 !! db = Some dst) as Hf by (by rewrite Hh2, lookup_insert_eq).
  assert (held b2 !! lb = Some src) as Ht
    by (by rewrite Hh2, lookup_insert_ne, lookup_insert_eq).
  apply wpt_bind, wpt_bio. unfold read_data. apply wpt_gets. cbn [l_bio set_bio].
  rewrite (held_data P b2 lb src) by done. rewrite Hv2, Hv1.
  bio_step (write_data_spec P); [done|done|by apply view_ok|].
  intros _ b3 t3 (Hwf3 & Hd3 & Hp3 & Hv3 & Hh3 & Ht3).
  bio_step (bwrite_spec P); [done|by rewrite Hh3|].
  intros _ b4 t4 (Hwf4 & Hd4 & Hp4 & Hv4 & Hh4 & Ht4).
  apply wpt_bind. eapply wpt_mono; [eapply unpin_step|].
  { done. } { cbn [l_bio set_bio]. by rewrite Hh4, Hh3. } { by destruct recovering. }
  cbn [l_bio set_bio]. intros _ ? t5 (b5 & -> & (Hwf5 & Hd5 & Hp5 & Hv5 & Hh5) & Ht5).
  set (P' := installed_pins recovering) in *.
  assert (bview b5 src = bview (l_bio s) src) as Hvs
    by (rewrite Hv5, Hv4, Hv3, decide_False, Hv2, Hv1 by done; done).
  assert (bview b3 dst = bview (l_bio s) src) as Hvd by (by rewrite Hv3, decide_True).
  bio_step (brelse_spec P'); [done|by rewrite Hh5, Hh4, Hh3| |].
  { right. rewrite Hvs, Hd5, Hd4, lookup_insert_ne, Hd3, Hd2, Hd1 by done.
    rewrite (clean_view P) by (done || by rewrite heldset_empty).
    apply lookup_lookup_total. done. }
  intros _ b6 t6 (Hwf6 & Hd6 & Hp6 & Hv6 & Hh6 & Ht6).
  bio_last (brelse_spec P'); [done|by rewrite Hh6, Hh5, Hh4, Hh3, lookup_delete_ne| |].
  { right. by rewrite Hd6, Hd5, Hd4, lookup_insert_eq, Hv6, Hv5, Hv4. }
  intros _ b7 t7 (Hwf7 & Hd7 & Hp7 & Hv7 & Hh7 & Ht7).
  exists b7. split; [done|]. split_and!.
  - done.
  - rewrite Hh7, Hh6, Hh5, Hh4, Hh3. by apply (delete_both db lb dst src).
  - congruence.
  - rewrite Hd7, Hd6, Hd5, Hd4, Hd3, Hd2, Hd1. by rewrite Hvd.
  - intros b. rewrite Hv7, Hv6, Hv5, Hv4, Hv3. case_decide; [done|]. by rewrite Hv2, Hv1.
  - simpl. rewrite !dwrites_app, Ht1, Ht2, Ht3, Ht4, Ht5, Ht6, Ht7, Hvd. done.
Qed.
End bodies.

(** ** The loops *)

Definition logged (s : lst) : list Z := take (Z.to_nat (l_n s)) (l_block s).
Definition in_log (s : lst) (b : Z) : Prop := l_start s <= b <= l_start s + LOGBLOCKS.

(** The layout facts the log relies on: its blocks exist, and the blocks it
    carries exist and lie outside it. *)
Record log_geom (s : lst) : Prop := {
  lg_dev : l_dev s = ROOTDEV;
  lg_start : 0 <= l_start s;
  lg_slots : forall b, in_log s b -> is_Some (bs_disk (l_bio s) !! b);
  lg_n : 0 <= l_n s <= LOGBLOCKS;
  lg_len : length (l_block s) = Z.to_nat LOGBLOCKS;
  lg_home : forall b, b ∈ logged s -> is_Some (bs_disk (l_bio s) !! b) /\ ~ in_log s b }.

Lemma logged_elem s j : log_geom s -> 0 <= j < l_n s -> lh_block j s ∈ logged s.
Proof.
  intros Hg Hj. pose proof (lg_len _ Hg). pose proof (lg_n _ Hg).
  apply (list_elem_of_lookup_2 _ (Z.to_nat j)). unfold logged, lh_block.
  rewrite lookup_take_lt by lia. apply list_lookup_lookup_total_lt. lia.
Qed.

Lemma logged_lookup s j b : logged s !! j = Some b -> b = lh_block (Z.of_nat j) s /\ (j < Z.to_nat (l_n s))%nat.
Proof.
  unfold logged, lh_block. intros [Hb Hj]%lookup_take_Some. rewrite Nat2Z.id.
  split; [|done]. symmetry. by apply list_lookup_total_correct.
Qed.

Lemma logged_inj s i j :
  NoDup (logged s) -> log_geom s -> 0 <= i < l_n s -> 0 <= j < l_n s ->
  lh_block i s = lh_block j s -> i = j.
Proof.
  intros Hnd Hg Hi Hj Heq. pose proof (lg_len _ Hg). pose proof (lg_n _ Hg).
  assert (forall k, 0 <= k < l_n s -> logged s !! Z.to_nat k = Some (lh_block k s)) as Hl.
  { intros k Hk. unfold logged, lh_block. rewrite lookup_take_lt by lia.
    apply list_lookup_lookup_total_lt. lia. }
  enough (Z.to_nat i = Z.to_nat j) by lia.
  eapply NoDup_lookup; [exact Hnd|by apply Hl|]. rewrite Hl by done. by rewrite Heq.
Qed.

Lemma logged_size s : NoDup (logged s) -> log_geom s ->
  size (list_to_set (logged s) : gset Z) = Z.to_nat (l_n s).
Proof.
  intros Hnd Hg. rewrite size_list_to_set by done. unfold logged. rewrite length_take.
  pose proof (lg_len _ Hg). pose proof (lg_n _ Hg). lia.
Qed.

(** The pairs written by the first j iterations of [write_log] and [install_trans]. *)
Definition log_writes (s : lst) (j : Z) : list (Z * bytes) :=
  (fun i => (l_start s + i + 1, bview (l_bio s) (lh_block i s))) <$> seqZ 0 j.
Definition home_writes (s : lst) (V : Z -> bytes) (j : Z) : list (Z * bytes) :=
  (fun i => (lh_block i s, V i)) <$> seqZ 0 j.

Lemma log_writes_S s j : 0 <= j -> log_writes s (j + 1) =
  log_writes s j ++ [(l_start s + j + 1, bview (l_bio s) (lh_block j s))].
Proof. intros. unfold log_writes. rewrite seqZ_app, fmap_app by lia. done. Qed.

Lemma home_writes_S s V j : 0 <= j -> home_writes s V (j + 1) = home_writes s V j ++ [(lh_block j s, V j)].
Proof. intros. unfold home_writes. rewrite seqZ_app, fmap_app by lia. done. Qed.

Section loops.
Context (s : lst) (Hg : log_geom s) (Hheld : held (l_bio s) = ∅) (Hnd : NoDup (logged s)).
Context (Hwf : bio_wf (list_to_set (logged s)) (l_bio s)).
Let P : gset Z := list_to_set (logged s).
Let V := bview (l_bio s).

Lemma slot_u32 j : 0 <= j < LOGBLOCKS -> u32 (l_start s + j + 1) = l_start s + j + 1.
Proof.
  intros Hj. eapply in_disk_u32; [exact Hwf|]. apply Hg. unfold in_log. lia.
Qed.

Lemma write_log_spec :
  l_n s < LOGBLOCKS ->
  wpt write_log s (fun _ s' t => exists b', s' = set_bio b' s /\
    bio_wf P b' /\ held b' = ∅ /\ bs_pid b' = bs_pid (l_bio s) /\
    dwrites t = log_writes s (l_n s) /\ bs_disk b' = apply_writes (dwrites t) (bs_disk (l_bio s)) /\
    (forall b, ~ in_log s b -> bview b' b = V b) /\
    bview b' (l_start s) = V (l_start s) /\
    (forall i, 0 <= i < l_n s -> bview b' (l_start s + i + 1) = V (lh_block i s))).
Proof.
  intros Hroom. pose proof (lg_n _ Hg) as Hn. unfold write_log. get_step.
  eapply (wpt_iter (fun j s1 t1 => exists b1, s1 = set_bio b1 s /\
    bio_wf P b1 /\ held b1 = ∅ /\ bs_pid b1 = bs_pid (l_bio s) /\
    dwrites t1 = log_writes s j /\ bs_disk b1 = apply_writes (dwrites t1) (bs_disk (l_bio s)) /\
    (forall b, ~ in_log s b -> bview b1 b = V b) /\ bview b1 (l_start s) = V (l_start s) /\
    (forall i, 0 <= i < j -> bview b1 (l_start s + i + 1) = V (lh_block i s)))).
  - lia.
  - exists (l_bio s). split; [by destruct s|]. split_and!; try done. lia.
  - intros j s1 t1 Hj (b1 & -> & Hwf1 & Hh1 & Hp1 & Ht1 & Hd1 & Hv1 & Hvs1 & Hvl1).
    pose proof (logged_elem s j Hg Hj) as HL. destruct (lg_home _ Hg _ HL) as [Hsome Hnl].
    assert (forall b, is_Some (bs_disk (l_bio s) !! b) -> is_Some (bs_disk b1 !! b)) as Hdom
      by (intros b; rewrite Hd1; apply apply_writes_dom).
    eapply wpt_mono; [eapply (write_log_body (set_bio b1 s) P (lh_block j s) (l_start s + j + 1))|];
      cbn [l_bio set_bio]; try done.
    + apply Hg.
    + by apply Hdom.
    + apply Hdom, Hg. unfold in_log. lia.
    + intros Heq. apply Hnl. rewrite Heq. unfold in_log. lia.
    + unfold P. by rewrite elem_of_list_to_set.
    + unfold P. rewrite elem_of_list_to_set. intros [_ []]%(lg_home _ Hg). unfold in_log. lia.
    + unfold P. rewrite logged_size by done. unfold NBUF. unfold LOGBLOCKS, MAXOPBLOCKS in *. lia.
    + apply slot_u32. lia.
    + intros _ s2 t2 (b2 & -> & Hwf2 & Hh2 & Hp2 & Hd2 & Hv2 & Ht2).
      rewrite Hv1 in Hd2, Hv2, Ht2 by done.
      exists b2. split; [done|]. split_and!; try done.
      * congruence.
      * rewrite dwrites_app, Ht1, Ht2, log_writes_S by lia. done.
      * rewrite dwrites_app, apply_writes_app, Ht2, <- Hd1. done.
      * intros b Hb. rewrite Hv2, decide_False; [by apply Hv1|]. intros ->. apply Hb. unfold in_log. lia.
      * rewrite Hv2, decide_False by lia. done.
      * intros i Hi. rewrite Hv2. case_decide; [by replace i with j by lia|]. apply Hvl1. lia.
  - eauto.
Qed.
End loops.

(** The blocks still pinned before iteration j of [install_trans]. *)
Definition pins (s : lst) (recovering : bool) (j : Z) : gset Z :=
  if recovering then ∅ else list_to_set (drop (Z.to_nat j) (logged s)).

Section install.
Context (s : lst) (recovering : bool) (Hg : log_geom s) (Hheld : held (l_bio s) = ∅).
Context (Hnd : recovering = false -> NoDup (logged s) /\ l_n s < LOGBLOCKS).
Context (Hwf : bio_wf (pins s recovering 0) (l_bio s)).
Let slot (i : Z) : bytes := bview (l_bio s) (l_start s + i + 1).

Lemma logged_drop j : 0 <= j < l_n s ->
  drop (Z.to_nat j) (logged s) = lh_block j s :: drop (Z.to_nat (j + 1)) (logged s).
Proof.
  intros Hj. pose proof (lg_len _ Hg). pose proof (lg_n _ Hg).
  replace (Z.to_nat (j + 1)) with (S (Z.to_nat j)) by lia. apply drop_S.
  unfold logged, lh_block. rewrite lookup_take_lt by lia. apply list_lookup_lookup_total_lt. lia.
Qed.

Lemma pins_step j : 0 <= j < l_n s ->
  installed_pins (pins s recovering j) (lh_block j s) recovering = pins s recovering (j + 1).
Proof.
  intros Hj. unfold installed_pins, pins. destruct recovering; [done|].
  destruct Hnd as [Hnd' _]; [done|]. pose proof (logged_drop j Hj) as Hdrop.
  assert (NoDup (drop (Z.to_nat j) (logged s))) as Hd
    by (rewrite <- (take_drop (Z.to_nat j) (logged s)) in Hnd'; by apply NoDup_app in Hnd' as (_ & _ & ?)).
  rewrite Hdrop in Hd |- *. apply NoDup_cons in Hd as [Hd _]. simpl. set_solver.
Qed.

Lemma pins_sub j b : b ∈ pins s recovering j -> b ∈ logged s.
Proof.
  unfold pins. destruct recovering; [set_solver|]. rewrite elem_of_list_to_set.
  intros Hb. rewrite <- (take_drop (Z.to_nat j) (logged s)). set_solver.
Qed.

Lemma pins_size j : (size (pins s recovering j) < NBUF)%nat.
Proof.
  unfold pins. destruct recovering; [rewrite size_empty; unfold NBUF; lia|].
  destruct Hnd as [Hnd' Hn]; [done|].
  apply Nat.le_lt_trans with (size (list_to_set (logged s) : gset Z)).
  - apply subseteq_size. intros b. rewrite !elem_of_list_to_set.
    rewrite <- (take_drop (Z.to_nat j) (logged s)) at 2. set_solver.
  - rewrite logged_size by done. pose proof (lg_n _ Hg). klia.
Qed.

Lemma install_trans_spec :
  wpt (install_trans recovering) s (fun _ s' t => exists b', s' = set_bio b' s /\
    bio_wf ∅ b' /\ held b' = ∅ /\ bs_pid b' = bs_pid (l_bio s) /\
    dwrites t = home_writes s slot (l_n s) /\
    bs_disk b' = apply_writes (dwrites t) (bs_disk (l_bio s))).
Proof.
  pose proof (lg_n _ Hg) as Hn. unfold install_trans. get_step.
  eapply (wpt_iter (fun j s1 t1 => exists b1, s1 = set_bio b1 s /\
    bio_wf (pins s recovering j) b1 /\ held b1 = ∅ /\ bs_pid b1 = bs_pid (l_bio s) /\
    dwrites t1 = home_writes s slot j /\ bs_disk b1 = apply_writes (dwrites t1) (bs_disk (l_bio s)) /\
    (forall b, b ∉ logged s -> bview b1 b = bview (l_bio s) b))).
  - lia.
  - exists (l_bio s). split; [by destruct s|]. by split_and!.
  - intros j s1 t1 Hj (b1 & -> & Hwf1 & Hh1 & Hp1 & Ht1 & Hd1 & Hv1).
    pose proof (logged_elem s j Hg Hj) as HL. destruct (lg_home _ Hg _ HL) as [Hsome Hnl].
    assert (forall b, is_Some (bs_disk (l_bio s) !! b) -> is_Some (bs_disk b1 !! b)) as Hdom
      by (intros b; rewrite Hd1; apply apply_writes_dom).
    assert (in_log s (l_start s + j + 1)) as Hin by (unfold in_log; lia).
    assert (l_start s + j + 1 ∉ logged s) as Hnl' by (by intros [_ []]%(lg_home _ Hg)).
    get_step. change (lh_block j (set_bio b1 s)) with (lh_block j s).
    apply wpt_bind. apply wpt_when_emit. intros tp Htp. 
    eapply wpt_mono; [eapply (install_body (set_bio b1 s) (pins s recovering j) (l_start s + j + 1) (lh_block j s))|];
      cbn [l_bio set_bio]; try done.
    + apply Hg.
    + by apply Hdom, Hg.
    + by apply Hdom.
    + by intros Heq; rewrite Heq in *.
    + intros Hp. by apply pins_sub in Hp.
    + apply pins_size.
    + unfold pins. destruct recovering; [split; [set_solver|]|].
      * rewrite union_empty_r_L, size_singleton. unfold NBUF. lia.
      * rewrite logged_drop by done. set_solver.
    + eapply in_disk_u32; [exact Hwf|by apply Hg].
    + rewrite pins_step by done. intros _ s2 t2 (b2 & -> & Hwf2 & Hh2 & Hp2 & Hd2 & Hv2 & Ht2).
      cbn [l_bio set_bio] in *. rewrite Hv1 in Hd2, Hv2, Ht2 by done.
      exists b2. split; [done|]. split_and!; try done.
      * congruence.
      * rewrite !dwrites_app, Ht1, Htp, Ht2, home_writes_S by lia. done.
      * rewrite !dwrites_app, apply_writes_app, Htp, Ht2, <- Hd1. done.
      * intros b Hb. rewrite Hv2, decide_False; [by apply Hv1|]. by intros ->.
  - intros s1 t1 (b1 & -> & Hwf1 & Hh1 & Hp1 & Ht1 & Hd1 & _). exists b1. split_and!; try done.
    replace (pins s recovering (l_n s)) with (∅ : gset Z) in Hwf1; [done|].
    unfold pins. destruct recovering; [done|]. rewrite drop_ge; [done|].
    unfold logged. rewrite length_take. lia.
Qed.
End install.

(** ** The header block *)

Lemma get_put_i32_same d off v :
  0 <= off -> off + 4 <= Z.of_nat (length d) -> - 2^31 <= v < 2^31 -> get_i32 (put_u32 d off v) off = v.
Proof.
  intros. unfold get_i32. rewrite get_put_u32_same by done. unfold u32.
  rewrite i32_u32. by apply i32_id.
Qed.

Lemma get_put_i32_ne d off off' v :
  0 <= off -> 0 <= off' -> off + 4 <= Z.of_nat (length d) ->
  off' + 4 <= off \/ off + 4 <= off' -> get_i32 (put_u32 d off v) off' = get_i32 d off'.
Proof. intros. unfold get_i32. by rewrite get_put_u32_ne. Qed.

Definition header_ok (n : Z) (block : list Z) : Prop :=
  0 <= n <= LOGBLOCKS /\ forall i, (i < Z.to_nat n)%nat -> 0 <= block !!! i < 2^31.

Lemma fill_head_inv n block hb (m : nat) :
  header_ok n block -> block_ok hb -> (m <= Z.to_nat n)%nat ->
  let d := foldl (fun hb i => put_u32 hb (4 + 4 * Z.of_nat i) (block !!! i)) (put_u32 hb 0 n) (seq 0 m) in
  block_ok d /\ hdr_n d = n /\ forall i, (i < m)%nat -> hdr_block d (Z.of_nat i) = block !!! i.
Proof.
  intros [Hn Hb] [Hlen Hby]. induction m as [|m IH]; intros Hm; cbv zeta.
  - simpl. split_and!; [|apply get_put_i32_same; klia|lia].
    split; [rewrite length_put_u32; klia|by apply put_u32_bytes].
  - rewrite seq_S, foldl_app. simpl. destruct IH as ((Hlen' & Hby') & Hn' & Hb'); [lia|].
    set (d := foldl _ _ _) in *. split_and!.
    + split; [rewrite length_put_u32; klia|by apply put_u32_bytes].
    + unfold hdr_n. rewrite get_put_i32_ne; [done|klia..].
    + intros i Hi. unfold hdr_block. destruct (decide (i = m)) as [->|].
      * apply get_put_i32_same; [lia|klia|]. specialize (Hb m). lia.
      * rewrite get_put_i32_ne; [apply Hb'; lia|klia..].
Qed.

Lemma fill_head_ok n block hb : header_ok n block -> block_ok hb ->
  block_ok (fill_head n block hb) /\ hdr_n (fill_head n block hb) = n /\
  forall i, 0 <= i < n -> hdr_block (fill_head n block hb) i = block !!! Z.to_nat i.
Proof.
  intros Hh Hb. destruct (fill_head_inv n block hb (Z.to_nat n)) as (H1 & H2 & H3); [done..|].
  split_and!; [done..|]. intros i Hi. rewrite <- (Z2Nat.id i) at 1 by lia. apply H3. lia.
Qed.

(** The header as the list of block numbers it names. *)
Definition hdr_list (d : bytes) : list Z := hdr_block d <$> seqZ 0 (hdr_n d).

Lemma fill_head_list s hb : header_ok (l_n s) (l_block s) -> block_ok hb ->
  length (l_block s) = Z.to_nat LOGBLOCKS ->
  hdr_list (fill_head (l_n s) (l_block s) hb) = logged s.
Proof.
  intros Hh Hb Hlen. destruct (fill_head_ok _ _ _ Hh Hb) as (_ & Hn & Hi).
  unfold hdr_list, logged. rewrite Hn. destruct Hh as [Hn' _]. apply list_eq. intros i.
  rewrite list_lookup_fmap. destruct (decide (i < Z.to_nat (l_n s))%nat).
  - rewrite lookup_take_lt by done. rewrite lookup_seqZ_lt by lia. simpl.
    rewrite Hi by lia. rewrite Z.add_0_l, Nat2Z.id. symmetry. apply list_lookup_lookup_total_lt. lia.
  - rewrite lookup_take_ge by lia. rewrite lookup_seqZ_ge by lia. done.
Qed.

Section header.
Context (s : lst) (P : gset Z).
Context (Hwf : bio_wf P (l_bio s)) (Hheld : held (l_bio s) = ∅) (Hdev : l_dev s = ROOTDEV).
Context (Hs : is_Some (bs_disk (l_bio s) !! l_start s)) (Hsize : (size P < NBUF)%nat).
Let hb := bview (l_bio s) (l_start s).

Lemma write_head_spec :
  header_ok (l_n s) (l_block s) ->
  wpt write_head s (fun _ s' t => exists b', s' = set_bio b' s /\
    wrote P (l_start s) (fill_head (l_n s) (l_block s) hb) (l_bio s) b' t).
Proof.
  intros Hh. unfold write_head. get_step. get_step. rewrite Hdev, (in_disk_u32 s P) by done.
  bio_step (bread_spec P); [done|done|by rewrite heldset_empty by done|right; by rewrite heldset_empty, union_empty_l_L by done|].
  intros h b1 t1 (Hwf1 & Hd1 & Hp1 & Hv1 & Hnh1 & Hh1 & Ht1). rewrite Hheld in Hh1.
  assert (held b1 !! h = Some (l_start s)) as Hb by (by rewrite Hh1, lookup_insert_eq).
  apply wpt_bind, wpt_bio. unfold read_data. apply wpt_gets. cbn [l_bio set_bio].
  rewrite (held_data P b1 h (l_start s)), Hv1 by done. fold hb. get_step. get_step.
  change (l_n (set_bio b1 s)) with (l_n s). change (l_block (set_bio b1 s)) with (l_block s).
  bio_step (write_data_spec P); [done|done|apply fill_head_ok; [done|by apply (view_ok s P)]|].
  intros _ b3 t3 (Hwf3 & Hd3 & Hp3 & Hv3 & Hh3 & Ht3).
  bio_step (bwrite_spec P); [done|by rewrite Hh3|].
  intros _ b4 t4 (Hwf4 & Hd4 & Hp4 & Hv4 & Hh4 & Ht4).
  bio_last (brelse_spec P); [done|by rewrite Hh4, Hh3| |].
  { right. by rewrite Hd4, lookup_insert_eq, Hv4. }
  intros _ b5 t5 (Hwf5 & Hd5 & Hp5 & Hv5 & Hh5 & Ht5).
  set (v := fill_head _ _ _) in *.
  assert (bview b3 (l_start s) = v) as Hvv by (by rewrite Hv3, decide_True).
  exists b5. split; [done|]. split_and!.
  - done.
  - rewrite Hh5, Hh4, Hh3, Hh1. apply delete_insert_id, lookup_empty.
  - congruence.
  - by rewrite Hd5, Hd4, Hvv, Hd3, Hd1.
  - intros b. by rewrite Hv5, Hv4, Hv3, Hv1.
  - simpl. by rewrite !dwrites_app, Ht1, Ht3, Ht4, Ht5, Hvv.
Qed.
End header.

(** ** Recovery *)

Section recovery.
Context (s : lst) (Hwf : bio_wf ∅ (l_bio s)) (Hheld : held (l_bio s) = ∅).
Context (Hdev : l_dev s = ROOTDEV) (Hlen : length (l_block s) = Z.to_nat LOGBLOCKS).
Context (Hs : is_Some (bs_disk (l_bio s) !! l_start s)).
Let hb := bview (l_bio s) (l_start s).
Context (Hn : 0 <= hdr_n hb <= LOGBLOCKS).

Lemma read_blocks_spec s1 :
  length (l_block s1) = Z.to_nat LOGBLOCKS ->
  wpt (iter (hdr_n hb) (fun i => set_block i (hdr_block hb i))) s1 (fun _ s2 t =>
    exists bl, s2 = set_lh_block bl s1 /\ t = [] /\ length bl = Z.to_nat LOGBLOCKS /\
      take (Z.to_nat (hdr_n hb)) bl = hdr_list hb).
Proof.
  intros Hl1. eapply (wpt_iter (fun j s2 t2 => exists bl, s2 = set_lh_block bl s1 /\ t2 = [] /\
    length bl = Z.to_nat LOGBLOCKS /\ forall i, 0 <= i < j -> bl !!! Z.to_nat i = hdr_block hb i)).
  - lia.
  - exists (l_block s1). split_and!; [by destruct s1|done..|lia].
  - intros j s2 t2 Hj (bl & -> & -> & Hbl & Hi). unfold set_block.
    destruct (Z.ltb_spec j LOGBLOCKS) as [HjL|]; [|lia]. apply wpt_modify. simpl.
    exists (<[Z.to_nat j := hdr_block hb j]> bl). split_and!; [done|done|by rewrite length_insert|].
    intros i Hij. destruct (decide (i = j)) as [->|].
    + apply list_lookup_total_insert_eq. klia.
    + rewrite list_lookup_total_insert_ne by lia. apply Hi. lia.
  - intros s2 t2 (bl & -> & -> & Hbl & Hi). exists bl. split_and!; try done.
    apply list_eq. intros i. unfold hdr_list. rewrite list_lookup_fmap.
    destruct (decide (i < Z.to_nat (hdr_n hb))%nat).
    + rewrite lookup_take_lt, lookup_seqZ_lt by lia. simpl. rewrite <- Hi by lia.
      rewrite Z.add_0_l, Nat2Z.id. apply list_lookup_lookup_total_lt. lia.
    + by rewrite lookup_take_ge, lookup_seqZ_ge by lia.
Qed.

Lemma read_head_spec :
  wpt read_head s (fun _ s' t => exists b' bl,
    s' = set_lh_block bl (set_lh_n (hdr_n hb) (set_bio b' s)) /\
    bio_wf ∅ b' /\ held b' = ∅ /\ bs_disk b' = bs_disk (l_bio s) /\ bs_pid b' = bs_pid (l_bio s) /\
    (forall b, bview b' b = bview (l_bio s) b) /\ dwrites t = [] /\
    length bl = Z.to_nat LOGBLOCKS /\ take (Z.to_nat (hdr_n hb)) bl = hdr_list hb).
Proof.
  unfold read_head. get_step. get_step. rewrite Hdev, (in_disk_u32 s ∅) by done.
  bio_step (bread_spec ∅); [done|done|by rewrite heldset_empty by done| |].
  { right. rewrite heldset_empty, union_empty_l_L, size_empty by done. unfold NBUF. lia. }
  intros h b1 t1 (Hwf1 & Hd1 & Hp1 & Hv1 & Hnh1 & Hh1 & Ht1). rewrite Hheld in Hh1.
  assert (held b1 !! h = Some (l_start s)) as Hb by (by rewrite Hh1, lookup_insert_eq).
  apply wpt_bind, wpt_bio. unfold read_data. apply wpt_gets. cbn [l_bio set_bio].
  rewrite (held_data ∅ b1 h (l_start s)), Hv1 by done. fold hb.
  apply wpt_bind, wpt_modify. apply wpt_bind.
  eapply wpt_mono; [by apply read_blocks_spec|].
  intros _ s2 t2 (bl & -> & -> & Hbl & Htake). cbn [l_bio set_bio].
  bio_last (brelse_spec ∅); [done|done| |].
  { right. change (l_bio (set_lh_block bl _)) with b1. rewrite Hd1, Hv1.
    rewrite (clean_view ∅); [by apply lookup_lookup_total|done|by rewrite heldset_empty|set_solver]. }
  intros _ b3 t3 (Hwf3 & Hd3 & Hp3 & Hv3 & Hh3 & Ht3).
  exists b3, bl. split_and!; try done.
  - rewrite Hh3. change (l_bio (set_lh_block bl _)) with b1. rewrite Hh1.
    apply delete_insert_id, lookup_empty.
  - by rewrite Hd3, <- Hd1.
  - by rewrite Hp3, <- Hp1.
  - intros b. rewrite Hv3. by apply Hv1.
  - simpl. by rewrite !dwrites_app, Ht1, Ht3.
Qed.
End recovery.

(** What recovery does to a disk, as a list of writes. *)
Definition install_list (start : Z) (d : gmap Z bytes) : list (Z * bytes) :=
  (fun i => (hdr_block (d !!! start) i, d !!! (start + i + 1))) <$> seqZ 0 (hdr_n (d !!! start)).
Definition recovery_writes (start : Z) (d : gmap Z bytes) : list (Z * bytes) :=
  install_list start d ++ [(start, put_u32 (d !!! start) 0 0)].

(** A disk whose log region is well formed. *)
Record log_disk (start : Z) (d : gmap Z bytes) : Prop := {
  ld_ok : disk_ok d;
  ld_start : 0 <= start;
  ld_slots : forall b, start <= b <= start + LOGBLOCKS -> is_Some (d !! b);
  ld_n : 0 <= hdr_n (d !!! start) <= LOGBLOCKS;
  ld_home : forall b, b ∈ hdr_list (d !!! start) ->
    is_Some (d !! b) /\ ~ (start <= b <= start + LOGBLOCKS) }.

Lemma home_writes_ext s V (f : Z -> Z) (g : Z -> bytes) n :
  (forall i, 0 <= i < n -> lh_block i s = f i /\ V i = g i) ->
  home_writes s V n = (fun i => (f i, g i)) <$> seqZ 0 n.
Proof.
  intros H. apply list_fmap_ext. intros k i Hi. apply lookup_seqZ in Hi as [-> Hk].
  destruct (H (0 + Z.of_nat k)) as [-> ->]; [lia|done].
Qed.

Lemma lh_block_hdr s d : length (l_block s) = Z.to_nat LOGBLOCKS -> 0 <= l_n s <= LOGBLOCKS ->
  hdr_n d = l_n s -> logged s = hdr_list d -> forall i, 0 <= i < l_n s -> lh_block i s = hdr_block d i.
Proof.
  intros Hlen Hn' Hn Heq i Hi.
  assert (logged s !! Z.to_nat i = Some (lh_block i s)) as Hl.
  { unfold logged, lh_block. rewrite lookup_take_lt by lia. apply list_lookup_lookup_total_lt. lia. }
  rewrite Heq in Hl. unfold hdr_list in Hl. rewrite list_lookup_fmap, Hn, lookup_seqZ_lt in Hl by lia.
  simpl in Hl. rewrite Z2Nat.id in Hl by lia. by simplify_eq.
Qed.

Lemma recover_spec s :
  bio_wf ∅ (l_bio s) -> held (l_bio s) = ∅ -> l_dev s = ROOTDEV ->
  length (l_block s) = Z.to_nat LOGBLOCKS -> log_disk (l_start s) (bs_disk (l_bio s)) ->
  wpt recover_from_log s (fun _ s' t => exists b' bl,
    s' = set_lh_block bl (set_lh_n 0 (set_bio b' s)) /\ length bl = Z.to_nat LOGBLOCKS /\
    bio_wf ∅ b' /\ held b' = ∅ /\ bs_pid b' = bs_pid (l_bio s) /\
    dwrites t = recovery_writes (l_start s) (bs_disk (l_bio s)) /\
    bs_disk b' = apply_writes (dwrites t) (bs_disk (l_bio s))).
Proof.
  intros Hwf Hheld Hdev Hlen Hld. set (d := bs_disk (l_bio s)) in *.
  assert (forall b, bview (l_bio s) b = d !!! b) as Hview.
  { intros b. apply (clean_view ∅); [done|by rewrite heldset_empty|set_solver]. }
  assert (is_Some (d !! l_start s)) as Hs by (apply Hld; klia).
  pose proof (ld_n _ _ Hld) as Hn. unfold recover_from_log. apply wpt_bind.
  eapply wpt_mono; [apply read_head_spec; rewrite ?Hview; done|]. rewrite Hview.
  intros _ ? t1 (b1 & bl & -> & Hwf1 & Hh1 & Hd1 & Hp1 & Hv1 & Ht1 & Hbl & Htake).
  set (s1 := set_lh_block bl _).
  assert (log_geom s1) as Hg1.
  { split; try done; [by apply Hld|..]; change (l_bio s1) with b1; rewrite Hd1.
    - apply (ld_slots _ _ Hld).
    - unfold logged; simpl. rewrite Htake. apply (ld_home _ _ Hld). }
  apply wpt_bind. eapply wpt_mono; [by apply (install_trans_spec s1 true)|].
  intros _ ? t2 (b2 & -> & Hwf2 & Hh2 & Hp2 & Ht2 & Hd2).
  change (l_bio s1) with b1 in *. change (l_n s1) with (hdr_n (d !!! l_start s)) in Ht2.
  change (l_start s1) with (l_start s) in *.
  assert (dwrites t2 = install_list (l_start s) d) as Ht2'.
  { rewrite Ht2. apply home_writes_ext. intros i Hi. split.
    - apply lh_block_hdr; done.
    - by rewrite Hv1, Hview. }
  assert (l_start s ∉ (dwrites t2).*1) as Hni.
  { rewrite Ht2'. unfold install_list. rewrite <- list_fmap_compose. intros Hin.
    apply (ld_home _ _ Hld) in Hin as [_ []]. klia. }
  apply wpt_bind, wpt_modify.
  assert (bs_disk b2 !! l_start s = d !! l_start s) as Hsd by (by rewrite Hd2, apply_writes_notin, Hd1).
  eapply wpt_mono; [apply (write_head_spec (set_lh_n 0 (set_bio b2 s1)) ∅)|]; try done.
  { simpl. by rewrite Hsd. }
  { rewrite size_empty. unfold NBUF. lia. }
  { split; simpl; [klia|lia]. }
  intros _ ? t3 (b3 & -> & Hwf3 & Hh3 & Hp3 & Hd3 & _ & Ht3).
  cbn [l_bio set_bio set_lh_n l_start l_n] in Hd3, Ht3, Hp3.
  change (l_start s1) with (l_start s) in *.
  rewrite (clean_view ∅ b2) in Hd3, Ht3; [|done|by rewrite heldset_empty|set_solver|done|by rewrite heldset_empty|set_solver].
  rewrite (lookup_total_alt (bs_disk b2)), Hsd, <- lookup_total_alt in Hd3, Ht3.
  exists b3, bl. split_and!; try done.
  - congruence.
  - simpl. rewrite !dwrites_app, Ht1, Ht2', Ht3. done.
  - simpl. rewrite !dwrites_app, !apply_writes_app, Ht1, Ht3, Hd3, Hd2, Hd1. done.
Qed.
