(* ===== verification/LogCrash.v ===== *)
(** * Crash safety of the log

    The disk writes of a commit, and the proof that a crash after any of them,
    followed by any number of crashes during recovery, leaves the blocks
    outside the log either all as before the transaction or all as the
    transaction wrote them.  A single block write is atomic. *)
From S2P Require Import Prelude Params Sleeplock Bio BioInv Log LogInv.

(** ** Disks *)

Definition home_eq (start : Z) (d d' : gmap Z bytes) : Prop :=
  forall b, ~ (start <= b <= start + LOGBLOCKS) -> d !! b = d' !! b.
Definition log_eq (start : Z) (d d' : gmap Z bytes) : Prop :=
  forall b, start <= b <= start + LOGBLOCKS -> d !! b = d' !! b.
Definition good_writes (w : list (Z * bytes)) : Prop :=
  Forall (fun x => 0 <= x.1 < 2^31 /\ block_ok x.2) w.
Definition in_region (start : Z) (w : list (Z * bytes)) : Prop :=
  Forall (fun x => start <= x.1 <= start + LOGBLOCKS) w.
Definition out_region (start : Z) (w : list (Z * bytes)) : Prop :=
  Forall (fun x => ~ (start <= x.1 <= start + LOGBLOCKS)) w.

(** The disk recovery produces, up to the header it clears. *)
Definition recovered (start : Z) (d : gmap Z bytes) : gmap Z bytes :=
  apply_writes (install_list start d) d.

Lemma apply_writes_in w d d' b : b ∈ w.*1 -> apply_writes w d !! b = apply_writes w d' !! b.
Proof.
  revert d d'. induction w as [|[b' x] w IH]; intros d d' Hb; simpl in *; [set_solver|].
  destruct (decide (b ∈ w.*1)) as [|Hn]; [by apply IH|].
  assert (b = b') as -> by set_solver. rewrite !apply_writes_notin by done.
  by rewrite !lookup_insert_eq.
Qed.

(** Replaying a list of writes over one of its prefixes gives the whole list. *)
Lemma apply_writes_replay w k d : apply_writes w (apply_writes (take k w) d) = apply_writes w d.
Proof.
  apply map_eq. intros b. destruct (decide (b ∈ w.*1)) as [|Hn]; [by apply apply_writes_in|].
  rewrite !apply_writes_notin; [done|done| |done].
  intros Hb. apply Hn. rewrite <- (take_drop k w), fmap_app. set_solver.
Qed.

Lemma apply_writes_dom_inv w d b : (forall b, b ∈ w.*1 -> is_Some (d !! b)) ->
  is_Some (apply_writes w d !! b) -> is_Some (d !! b).
Proof.
  intros Hw. destruct (decide (b ∈ w.*1)) as [|Hn]; [by auto|]. by rewrite apply_writes_notin.
Qed.

Lemma apply_writes_ok w d : disk_ok d -> good_writes w -> disk_ok (apply_writes w d).
Proof.
  intros Hd Hw. revert d Hd. induction Hw as [|[b x] w [Hb Hx] _ IH]; intros d Hd; simpl; [done|].
  apply IH. intros b' x' [[<- <-]|[_ ?]]%lookup_insert_Some; [done|by apply Hd].
Qed.

Lemma apply_in_region start w d : in_region start w -> home_eq start (apply_writes w d) d.
Proof.
  intros Hw b Hb. apply apply_writes_notin. intros (x & -> & Hx)%list_elem_of_fmap.
  unfold in_region in Hw. rewrite Forall_forall in Hw. by apply Hb, Hw.
Qed.

Lemma apply_out_region start w d : out_region start w -> log_eq start (apply_writes w d) d.
Proof.
  intros Hw b Hb. apply apply_writes_notin. intros (x & -> & Hx)%list_elem_of_fmap.
  unfold out_region in Hw. rewrite Forall_forall in Hw. by apply (Hw x).
Qed.

Lemma apply_home_eq start w d d' : home_eq start d d' ->
  home_eq start (apply_writes w d) (apply_writes w d').
Proof.
  intros H b Hb. destruct (decide (b ∈ w.*1)); [by apply apply_writes_in|].
  rewrite !apply_writes_notin by done. by apply H.
Qed.

Lemma log_eq_total start d d' b : log_eq start d d' -> start <= b <= start + LOGBLOCKS ->
  d !!! b = d' !!! b.
Proof. intros H Hb. rewrite !lookup_total_alt. by rewrite H. Qed.

Lemma install_list_ext start d d' : log_eq start d d' -> 0 <= hdr_n (d' !!! start) <= LOGBLOCKS ->
  install_list start d = install_list start d'.
Proof.
  intros Heq Hn. unfold install_list. rewrite (log_eq_total start d d' start) by (done || klia).
  apply list_fmap_ext. intros k i Hi. apply lookup_seqZ in Hi as [-> Hk].
  by rewrite (log_eq_total start d d') by (done || klia).
Qed.

Lemma install_list_out start d : log_disk start d -> out_region start (install_list start d).
Proof.
  intros Hd. unfold out_region, install_list. apply Forall_fmap, Forall_forall. intros i Hi.
  apply (ld_home _ _ Hd). unfold hdr_list. set_solver.
Qed.

Lemma install_list_good start d : log_disk start d -> good_writes (install_list start d).
Proof.
  intros Hd. unfold good_writes, install_list. apply Forall_fmap, Forall_forall. intros i Hi.
  destruct (ld_home _ _ Hd (hdr_block (d !!! start) i)) as [[x Hx] _]; [unfold hdr_list; set_solver|].
  simpl. split; [by apply (ld_ok _ _ Hd _ _ Hx)|]. apply elem_of_seqZ in Hi.
  pose proof (ld_n _ _ Hd). destruct (ld_slots _ _ Hd (start + i + 1)) as [y Hy]; [lia|].
  rewrite (lookup_total_correct _ _ _ Hy). by apply (ld_ok _ _ Hd _ _ Hy).
Qed.

Lemma install_list_nil start d : hdr_n (d !!! start) = 0 -> install_list start d = [].
Proof. intros H. unfold install_list. by rewrite H. Qed.

(** A disk that agrees on the log region and keeps its blocks is well formed too. *)
Lemma log_disk_ext start d d' : log_disk start d -> log_eq start d' d -> disk_ok d' ->
  (forall b, is_Some (d !! b) -> is_Some (d' !! b)) -> log_disk start d'.
Proof.
  intros Hd Heq Hok Hdom. split; [done|apply Hd| |..].
  - intros b Hb. by apply Hdom, Hd.
  - rewrite (log_eq_total start d' d) by (done || klia). apply Hd.
  - rewrite (log_eq_total start d' d) by (done || klia). intros b [Hb Hb']%(ld_home _ _ Hd). auto.
Qed.

Lemma good_take w k : good_writes w -> good_writes (take k w).
Proof. apply Forall_take. Qed.

(** A header naming no blocks makes the log region well formed. *)
Lemma log_disk_empty start d : disk_ok d -> 0 <= start ->
  (forall b, start <= b <= start + LOGBLOCKS -> is_Some (d !! b)) ->
  hdr_n (d !!! start) = 0 -> log_disk start d.
Proof.
  intros. split; try done; [klia|]. unfold hdr_list. rewrite H2. simpl. set_solver.
Qed.

Lemma cleared_ok d : block_ok d -> block_ok (put_u32 d 0 0) /\ hdr_n (put_u32 d 0 0) = 0.
Proof.
  intros Hd. destruct (fill_head_ok 0 [] d) as (H1 & H2 & _); [|done|by split].
  split; [klia|lia].
Qed.

Lemma log_disk_header start d : log_disk start d -> block_ok (d !!! start) /\ 0 <= start < 2^31.
Proof.
  intros Hd. destruct (ld_slots _ _ Hd start) as [h Hh]; [klia|].
  rewrite (lookup_total_correct _ _ _ Hh). by destruct (ld_ok _ _ Hd _ _ Hh).
Qed.

(** ** A crash during recovery *)

Lemma take_app_cases {A} k (l1 l2 : list A) :
  take k (l1 ++ l2) = take k l1 \/ exists k', take k (l1 ++ l2) = l1 ++ take (S k') l2.
Proof.
  destruct (decide (k <= length l1)%nat).
  - left. by apply take_app_le.
  - right. exists (k - length l1 - 1)%nat.
    replace (S (k - length l1 - 1)) with (k - length l1)%nat by lia. apply take_app_ge. lia.
Qed.

Lemma cleared_disk start d : log_disk start d ->
  let d' := <[start := put_u32 (d !!! start) 0 0]> d in
  log_disk start d' /\ home_eq start (recovered start d') d.
Proof.
  intros Hd d'. destruct (log_disk_header _ _ Hd) as [Hh Hs].
  destruct (cleared_ok _ Hh) as [Hok Hn].
  assert (hdr_n (d' !!! start) = 0) as Hn' by (unfold d'; by rewrite lookup_total_insert_eq).
  split.
  - apply log_disk_empty; [|apply Hd| |done].
    + intros b x [[<- <-]|[_ ?]]%lookup_insert_Some; [done|by apply (ld_ok _ _ Hd)].
    + intros b Hb. apply (apply_writes_dom [(start, _)]), Hd, Hb.
  - unfold recovered. rewrite install_list_nil by done. intros b Hb. simpl.
    unfold d'. rewrite lookup_insert_ne; [done|]. intros ->. apply Hb. klia.
Qed.

Lemma installing_disk start d k : log_disk start d ->
  let d' := apply_writes (take k (install_list start d)) d in
  log_disk start d' /\ recovered start d' = recovered start d.
Proof.
  intros Hd d'.
  assert (log_eq start d' d) as Heq by (apply apply_out_region, Forall_take, install_list_out, Hd).
  split.
  - apply (log_disk_ext start d); [done..| |].
    + apply apply_writes_ok; [apply Hd|]. by apply good_take, install_list_good.
    + intros b. apply apply_writes_dom.
  - unfold recovered. rewrite (install_list_ext start d' d) by (done || apply Hd).
    apply apply_writes_replay.
Qed.

Lemma recovery_crash_disk start d k : log_disk start d ->
  let d' := apply_writes (take k (recovery_writes start d)) d in
  log_disk start d' /\ home_eq start (recovered start d') (recovered start d).
Proof.
  intros Hd. unfold recovery_writes.
  destruct (take_app_cases k (install_list start d) [(start, put_u32 (d !!! start) 0 0)])
    as [->|[k' ->]]; cbv zeta.
  - destruct (installing_disk start d k Hd) as [H1 H2]. split; [done|]. by intros b _; rewrite H2.
  - rewrite take_ge by (simpl; lia). rewrite apply_writes_app.
    destruct (installing_disk start d (length (install_list start d)) Hd) as [H1 _].
    rewrite firstn_all in H1. fold (recovered start d) in *.
    assert (d !!! start = recovered start d !!! start) as ->.
    { symmetry. apply (log_eq_total start); [|klia]. by apply apply_out_region, install_list_out. }
    by apply cleared_disk.
Qed.

(** ** A crash during a commit *)

(** The four groups of writes: log slots, header, home blocks, cleared header. *)
Lemma commit_crash_disk start d A h B k :
  log_disk start d -> hdr_n (d !!! start) = 0 ->
  in_region start A -> start ∉ A.*1 -> good_writes A -> block_ok h ->
  log_disk start (apply_writes (A ++ [(start, h)]) d) ->
  install_list start (apply_writes (A ++ [(start, h)]) d) = B ->
  let d' := apply_writes (take k (A ++ [(start, h)] ++ B ++ [(start, put_u32 h 0 0)])) d in
  log_disk start d' /\
  (home_eq start (recovered start d') d \/ home_eq start (recovered start d') (apply_writes B d)).
Proof.
  intros Hd Hn HA HsA HgA Hh Hd1 HB. set (d1 := apply_writes (A ++ [(start, h)]) d) in *.
  destruct (log_disk_header _ _ Hd) as [_ Hs].
  destruct (take_app_cases k A ([(start, h)] ++ B ++ [(start, put_u32 h 0 0)])) as [->|[k' ->]].
  { set (d' := apply_writes _ _). cbv zeta.
    assert (d' !!! start = d !!! start) as Hst.
    { unfold d'. rewrite !lookup_total_alt, apply_writes_notin; [done|].
      intros Hin. apply HsA. rewrite <- (take_drop k A), fmap_app. set_solver. }
    split.
    - apply log_disk_empty; [|lia| |by rewrite Hst].
      + apply apply_writes_ok; [apply Hd|by apply good_take].
      + intros b Hb. by apply apply_writes_dom, Hd.
    - left. unfold recovered. rewrite install_list_nil by (by rewrite Hst).
      change (apply_writes [] d') with d'. apply apply_in_region. by apply Forall_take. }
  assert (home_eq start (recovered start d1) (apply_writes B d)) as Hrec.
  { unfold recovered. rewrite HB. apply apply_home_eq, apply_in_region, Forall_app.
    split; [done|]. apply Forall_singleton. simpl. klia. }
  change ([(start, h)] ++ B ++ [(start, put_u32 h 0 0)])
    with ((start, h) :: (B ++ [(start, put_u32 h 0 0)])).
  rewrite firstn_cons, cons_middle, app_assoc, apply_writes_app. fold d1.
  assert (d1 !!! start = h) as Hhd
    by (unfold d1; rewrite apply_writes_app; apply lookup_total_insert_eq).
  destruct (recovery_crash_disk start d1 k' Hd1) as [H1 H2].
  unfold recovery_writes in H1, H2. rewrite HB, Hhd in H1, H2. cbv zeta.
  split; [done|]. right. intros b Hb. rewrite H2 by done. by apply Hrec.
Qed.

(** ** The commit protocol *)

(** Between system calls: the logged blocks are distinct and exactly the
    pinned ones, and the header on disk names no block. *)
Record log_wf (s : lst) : Prop := {
  lw_geom : log_geom s;
  lw_nodup : NoDup (logged s);
  lw_bio : bio_wf (list_to_set (logged s)) (l_bio s);
  lw_hdr : hdr_n (bs_disk (l_bio s) !!! l_start s) = 0 }.

Definition commit_header (s : lst) : bytes :=
  fill_head (l_n s) (l_block s) (bs_disk (l_bio s) !!! l_start s).
Definition commit_home (s : lst) : list (Z * bytes) :=
  home_writes s (fun i => bview (l_bio s) (lh_block i s)) (l_n s).
Definition commit_writes (s : lst) : list (Z * bytes) :=
  log_writes s (l_n s) ++ [(l_start s, commit_header s)] ++
  commit_home s ++ [(l_start s, put_u32 (commit_header s) 0 0)].

Section commit.
Context (s : lst) (Hwf : log_wf s) (Hheld : held (l_bio s) = ∅) (Hroom : l_n s < LOGBLOCKS).
Let Hg := lw_geom _ Hwf.
Let P : gset Z := list_to_set (logged s).
Let d := bs_disk (l_bio s).

Lemma start_in_disk : is_Some (d !! l_start s).
Proof. apply Hg. unfold in_log. klia. Qed.

Lemma region_not_pinned b : in_log s b -> b ∉ P.
Proof. intros Hb. unfold P. rewrite elem_of_list_to_set. by intros [_ []]%(lg_home _ Hg). Qed.

Lemma logged_header_ok : header_ok (l_n s) (l_block s).
Proof.
  split; [apply Hg|]. intros i Hi.
  destruct (lg_home _ Hg (lh_block (Z.of_nat i) s)) as [[x Hx] _]; [apply logged_elem; [done|lia]|].
  unfold lh_block in Hx. rewrite Nat2Z.id in Hx. by apply (wf_disk _ _ (lw_bio _ Hwf) _ _ Hx).
Qed.

Lemma start_view : bview (l_bio s) (l_start s) = d !!! l_start s.
Proof.
  apply (clean_view P); [apply Hwf|by rewrite heldset_empty|]. apply region_not_pinned.
  unfold in_log. klia.
Qed.

Lemma pins_start : pins s false 0 = P.
Proof. unfold pins. by rewrite drop_0. Qed.

Lemma P_size : (size P < NBUF)%nat.
Proof. unfold P. rewrite logged_size by apply Hwf. pose proof (lg_n _ Hg). klia. Qed.

Lemma commit_header_ok : block_ok (commit_header s) /\
  hdr_n (commit_header s) = l_n s /\ hdr_list (commit_header s) = logged s.
Proof.
  assert (block_ok (d !!! l_start s)) as Hok.
  { rewrite <- start_view. apply (view_ok s P); [apply Hwf|apply start_in_disk]. }
  destruct (fill_head_ok _ _ _ logged_header_ok Hok) as (H1 & H2 & _).
  split_and!; [done..|]. apply fill_head_list; [apply logged_header_ok|done|apply Hg].
Qed.

Lemma commit_spec_pos : 0 < l_n s ->
  wpt commit s (fun _ s' t => exists b', s' = set_lh_n 0 (set_bio b' s) /\
    bio_wf ∅ b' /\ held b' = ∅ /\ bs_pid b' = bs_pid (l_bio s) /\
    dwrites t = commit_writes s /\ bs_disk b' = apply_writes (dwrites t) d).
Proof.
  intros Hpos. unfold commit. get_step. destruct (Z.ltb_spec 0 (l_n s)); [|lia]. simpl when.
  assert (in_log s (l_start s)) as Hstart by (unfold in_log; klia).
  pose proof (lw_bio _ Hwf) as Hbio. pose proof (lw_nodup _ Hwf) as Hnd. apply wpt_bind.
  eapply wpt_mono; [by apply write_log_spec|].
  intros _ ? t1 (b1 & -> & Hwf1 & Hh1 & Hp1 & Ht1 & Hd1 & Hv1 & Hvs1 & Hvl1).
  assert (forall b, is_Some (d !! b) -> is_Some (bs_disk b1 !! b)) as Hdom1
    by (intros b; rewrite Hd1; apply apply_writes_dom).
  apply wpt_bind. eapply wpt_mono; [apply (write_head_spec (set_bio b1 s) P)|].
  { done. } { done. } { apply Hg. } { by apply Hdom1, start_in_disk. }
  { apply P_size. } { apply logged_header_ok. }
  intros _ ? t2 (b2 & -> & Hwf2 & Hh2 & Hp2 & Hd2 & Hv2 & Ht2).
  cbn [l_bio set_bio l_start l_n l_block] in Hp2, Hd2, Hv2, Ht2.
  rewrite Hvs1, start_view in Hd2, Hv2, Ht2. fold (commit_header s) in Hd2, Hv2, Ht2.
  assert (forall b, is_Some (d !! b) -> is_Some (bs_disk b2 !! b)) as Hdom2.
  { intros b Hb. rewrite Hd2. by apply (apply_writes_dom [(l_start s, _)]), Hdom1. }
  rewrite set_bio_set_bio. set (s2 := set_bio b2 s).
  assert (log_geom s2) as Hg2.
  { destruct Hg as [H1 H2 H3 H4 H5 H6]. split; try done; intros b Hb.
    - by apply Hdom2, H3.
    - destruct (H6 b Hb). split; [by apply Hdom2|done]. }
  apply wpt_bind. eapply wpt_mono; [apply (install_trans_spec s2 false); try done|].
  intros _ ? t3 (b3 & -> & Hwf3 & Hh3 & Hp3 & Ht3 & Hd3).
  change (l_bio s2) with b2 in *. change (l_n s2) with (l_n s) in *.
  change (l_start s2) with (l_start s) in *.
  assert (dwrites t3 = commit_home s) as Ht3'.
  { rewrite Ht3. apply home_writes_ext. intros i Hi. split; [done|].
    rewrite Hv2, decide_False by lia. by apply Hvl1. }
  assert (bs_disk b3 !! l_start s = Some (commit_header s)) as Hs3.
  { rewrite Hd3, apply_writes_notin, Hd2; [apply lookup_insert_eq|].
    rewrite Ht3. unfold home_writes. rewrite <- list_fmap_compose.
    intros (i & Hi & Hin%elem_of_seqZ)%list_elem_of_fmap. simpl in Hi.
    destruct (lg_home _ Hg (lh_block i s)) as [_ []]; [apply logged_elem; [done|lia]|].
    change (lh_block i s) with (lh_block i s2). by rewrite <- Hi. }
  apply wpt_bind, wpt_modify.
  eapply wpt_mono; [apply (write_head_spec (set_lh_n 0 (set_bio b3 s2)) ∅)|]; try done.
  { apply Hg. }
  { rewrite size_empty. unfold NBUF. lia. } { split; simpl; [klia|lia]. }
  intros _ ? t4 (b4 & -> & Hwf4 & Hh4 & Hp4 & Hd4 & _ & Ht4).
  cbn [l_bio set_bio set_lh_n l_start l_n] in Hd4, Ht4, Hp4. change (l_start s2) with (l_start s) in *.
  rewrite (clean_view ∅ b3), (lookup_total_correct _ _ _ Hs3) in Hd4, Ht4;
    [|done|by rewrite heldset_empty|set_solver|done|by rewrite heldset_empty|set_solver].
  exists b4. split_and!; try done.
  - congruence.
  - simpl. by rewrite !dwrites_app, Ht1, Ht2, Ht3', Ht4.
  - simpl. rewrite !dwrites_app, !apply_writes_app, Ht2, Ht4, Hd4, Hd3, Hd2, Hd1. done.
Qed.
End commit.

(** The blocks outside the log have their new contents on disk after a commit. *)
Section committed.
Context (s : lst) (Hwf : log_wf s) (Hheld : held (l_bio s) = ∅) (Hroom : l_n s < LOGBLOCKS).
Let Hg := lw_geom _ Hwf.
Let d := bs_disk (l_bio s).
Let start := l_start s.

Lemma commit_home_elem b v : (b, v) ∈ commit_home s -> b ∈ logged s /\ v = bview (l_bio s) b.
Proof.
  unfold commit_home, home_writes.
  intros (i & [= -> ->] & Hi%elem_of_seqZ)%list_elem_of_fmap. split; [|done].
  apply logged_elem; [done|lia].
Qed.

Lemma commit_home_keys b : b ∈ (commit_home s).*1 <-> b ∈ logged s.
Proof.
  split.
  - intros ([b' v] & -> & Hin)%list_elem_of_fmap. by apply commit_home_elem in Hin as [? _].
  - intros [j Hj]%list_elem_of_lookup. apply logged_lookup in Hj as [-> Hj].
    unfold commit_home, home_writes. rewrite <- list_fmap_compose.
    apply list_elem_of_fmap. exists (Z.of_nat j). split; [done|]. apply elem_of_seqZ. lia.
Qed.

Lemma apply_writes_val w (f : Z -> bytes) (m : gmap Z bytes) b :
  (forall b v, (b, v) ∈ w -> v = f b) -> b ∈ w.*1 -> apply_writes w m !! b = Some (f b).
Proof.
  revert m. induction w as [|[b' x] w IH]; intros m Hf Hb; simpl in *; [set_solver|].
  destruct (decide (b ∈ w.*1)) as [|Hn]; [apply IH; set_solver|].
  rewrite apply_writes_notin by done. assert (b = b') as -> by set_solver.
  rewrite lookup_insert_eq. f_equal. apply Hf. set_solver.
Qed.

Lemma commit_home_disk b : is_Some (d !! b) ->
  apply_writes (commit_home s) d !! b = Some (bview (l_bio s) b).
Proof.
  intros Hb. destruct (decide (b ∈ logged s)) as [Hin|Hin].
  - apply apply_writes_val; [|by apply commit_home_keys]. by intros b' v [_ ?]%commit_home_elem.
  - rewrite apply_writes_notin by (by rewrite commit_home_keys).
    rewrite (clean_view (list_to_set (logged s))).
    + by apply lookup_lookup_total.
    + apply Hwf.
    + by rewrite heldset_empty.
    + by rewrite elem_of_list_to_set.
Qed.

Lemma log_writes_region : in_region start (log_writes s (l_n s)) /\
  start ∉ (log_writes s (l_n s)).*1 /\ good_writes (log_writes s (l_n s)).
Proof.
  pose proof (lg_n _ Hg) as Hn. unfold in_region, good_writes, log_writes.
  rewrite <- list_fmap_compose, !Forall_fmap, !Forall_forall. split_and!.
  - intros i Hi%elem_of_seqZ. simpl. unfold start. lia.
  - intros (i & Hi & Hin%elem_of_seqZ)%list_elem_of_fmap. simpl in Hi. unfold start in Hi. lia.
  - intros i Hi%elem_of_seqZ. simpl. destruct (lg_home _ Hg (lh_block i s)) as [Hd _].
    { apply logged_elem; [done|lia]. }
    split; [|by apply (view_ok s (list_to_set (logged s))); [apply Hwf|]].
    eapply in_disk_ok; [apply Hwf|]. apply Hg. unfold in_log. lia.
Qed.

Lemma log_writes_slot i : 0 <= i < l_n s ->
  apply_writes (log_writes s (l_n s)) d !! (start + i + 1) = Some (bview (l_bio s) (lh_block i s)).
Proof.
  intros Hi. replace (lh_block i s) with (lh_block (start + i + 1 - start - 1) s) by (f_equal; lia).
  apply (apply_writes_val _ (fun b => bview (l_bio s) (lh_block (b - start - 1) s))).
  - intros b v (j & [= -> ->] & _)%list_elem_of_fmap. do 2 f_equal. unfold start. lia.
  - unfold log_writes. rewrite <- list_fmap_compose. apply list_elem_of_fmap.
    exists i. split; [done|]. apply elem_of_seqZ. lia.
Qed.

(** Once the header is on disk, the log describes the whole transaction. *)
Lemma logged_disk :
  let d1 := apply_writes (log_writes s (l_n s) ++ [(start, commit_header s)]) d in
  log_disk start d1 /\ install_list start d1 = commit_home s.
Proof.
  intros d1. destruct (commit_header_ok s Hwf Hheld) as (Hok & Hn & HL).
  destruct log_writes_region as (Hreg & Hns & Hgood). pose proof (lg_n _ Hg) as Hrange.
  assert (d1 !!! start = commit_header s) as Hh
    by (unfold d1; rewrite apply_writes_app; apply lookup_total_insert_eq).
  assert (forall b, is_Some (d !! b) -> is_Some (d1 !! b)) as Hdom
    by (intros b; apply apply_writes_dom).
  assert (0 <= start < 2^31) as Hs
    by (eapply in_disk_ok; [apply Hwf|]; by apply start_in_disk).
  split.
  - split; rewrite ?Hh, ?Hn, ?HL; try done.
    + apply apply_writes_ok; [apply (wf_disk _ _ (lw_bio _ Hwf))|].
      apply Forall_app. split; [done|]. by apply Forall_singleton.
    + apply Hg.
    + intros b Hb. by apply Hdom, Hg.
    + intros b [Hb Hb']%(lg_home _ Hg). auto.
  - unfold install_list. rewrite Hh, Hn. symmetry. apply home_writes_ext.
    intros i Hi. split; [apply lh_block_hdr; (done || apply Hg)|].
    unfold d1. rewrite apply_writes_app. simpl. rewrite lookup_total_insert_ne by lia.
    symmetry. apply lookup_total_correct. by apply log_writes_slot.
Qed.
End committed.

(** ** Rebooting *)

(** The kernel's state after [binit], before [initlog]. *)
Definition boot_lst (disk : gmap Z bytes) (pid : Z) : lst :=
  mkLst (boot_bst disk pid) 0 0 false 0 0 (replicate (Z.to_nat LOGBLOCKS) 0).

(** A state with an empty transaction and nothing held. *)
Lemma log_wf_empty s :
  bio_wf ∅ (l_bio s) -> l_n s = 0 -> l_dev s = ROOTDEV -> length (l_block s) = Z.to_nat LOGBLOCKS ->
  log_disk (l_start s) (bs_disk (l_bio s)) -> hdr_n (bs_disk (l_bio s) !!! l_start s) = 0 ->
  log_wf s.
Proof.
  intros Hwf Hn Hdev Hlen Hd Hh. assert (logged s = []) as HL by (unfold logged; by rewrite Hn).
  split; rewrite ?HL; [|constructor|done|done]. split; rewrite ?HL, ?Hn; try done.
  - apply Hd.
  - apply (ld_slots _ _ Hd).
  - set_solver.
Qed.

Lemma initlog_run start disk pid : log_disk start disk ->
  wpt (initlog ROOTDEV start) (boot_lst disk pid) (fun _ s' t =>
    log_wf s' /\ held (l_bio s') = ∅ /\ l_n s' = 0 /\ l_start s' = start /\
    l_outstanding s' = 0 /\ l_committing s' = false /\
    dwrites t = recovery_writes start disk /\
    (forall b, ~ (start <= b <= start + LOGBLOCKS) -> bs_disk (l_bio s') !! b = recovered start disk !! b) /\
    (forall b, bview (l_bio s') b = bs_disk (l_bio s') !!! b)).
Proof.
  intros Hd. destruct (log_disk_header _ _ Hd) as [Hhd Hs]. unfold initlog.
  change (BSIZE <=? 4 + 4 * LOGBLOCKS) with false. cbv iota. rewrite i32_id by lia.
  change (i32 ROOTDEV) with ROOTDEV. apply wpt_bind, wpt_modify.
  set (s0 := set_log_dev _ _ _).
  assert (bio_wf ∅ (l_bio s0)) as Hwf0 by (by apply boot_wf, Hd).
  assert (held (l_bio s0) = ∅) as Hh0 by apply boot_held.
  assert (bs_disk (l_bio s0) = disk /\ l_start s0 = start /\ l_outstanding s0 = 0 /\
    l_committing s0 = false /\ l_dev s0 = ROOTDEV /\ length (l_block s0) = Z.to_nat LOGBLOCKS)
    as (Hdk & Hst & Ho & Hc & Hdv & Hlb) by (by split_and!).
  clearbody s0. subst disk start. eapply wpt_mono; [by apply (recover_spec s0)|].
  intros _ ? t (b & bl & -> & Hbl & Hwf & Hh & Hp & Ht & Hdisk). simpl.
  set (start := l_start s0) in *. set (disk := bs_disk (l_bio s0)) in *.
  destruct (recovery_crash_disk start disk (length (recovery_writes start disk)) Hd) as [Hld _].
  rewrite firstn_all, <- Ht, <- Hdisk in Hld.
  assert (hdr_n (bs_disk b !!! start) = 0) as Hn.
  { rewrite Hdisk, Ht. unfold recovery_writes. rewrite apply_writes_app. simpl.
    rewrite lookup_total_insert_eq. by apply cleared_ok. }
  split_and!; try done.
  - by apply log_wf_empty.
  - intros b' Hb'. rewrite Hdisk, Ht. unfold recovery_writes. rewrite apply_writes_app. simpl.
    rewrite lookup_insert_ne; [done|]. intros <-. apply Hb'. klia.
  - intros b'. apply (clean_view ∅); [done|by rewrite heldset_empty|set_solver].
Qed.

(** One reboot that itself crashes: [initlog] stops after k of its disk writes. *)
Definition recovery_crash (start : Z) (d d' : gmap Z bytes) : Prop :=
  exists pid s' t k, initlog ROOTDEV start (boot_lst d pid) = Ret tt s' t /\
    d' = apply_writes (take k (dwrites t)) d.

Lemma recovery_crash_step start d d' : log_disk start d -> recovery_crash start d d' ->
  log_disk start d' /\ home_eq start (recovered start d') (recovered start d).
Proof.
  intros Hd (pid & s' & t & k & Hrun & ->).
  pose proof (initlog_run start d pid Hd) as Hwp. unfold wpt in Hwp. rewrite Hrun in Hwp.
  destruct Hwp as (_ & _ & _ & _ & _ & _ & -> & _). by apply recovery_crash_disk.
Qed.

Lemma recovery_crashes start d d' : log_disk start d -> rtc (recovery_crash start) d d' ->
  log_disk start d' /\ home_eq start (recovered start d') (recovered start d).
Proof.
  intros Hd Hr. induction Hr as [d|d d1 d' H1 _ IH]; [done|].
  destruct (recovery_crash_step start d d1 Hd H1) as [Hd1 Heq1].
  destruct (IH Hd1) as [Hd' Heq]. split; [done|]. intros b Hb. by rewrite Heq, Heq1.
Qed.

Lemma home_eq_total start d d' b : home_eq start d d' -> ~ (start <= b <= start + LOGBLOCKS) ->
  d !!! b = d' !!! b.
Proof. intros H Hb. rewrite !lookup_total_alt. by rewrite H. Qed.

(** What [commit] leaves behind: the transaction is empty, nothing is pinned,
    and every block outside the log has its logical contents on disk. *)
Definition commit_post (s s' : lst) (t : list event) : Prop :=
  log_wf s' /\ l_n s' = 0 /\ held (l_bio s') = ∅ /\
  l_start s' = l_start s /\ l_outstanding s' = l_outstanding s /\ l_committing s' = l_committing s /\
  bs_pid (l_bio s') = bs_pid (l_bio s) /\
  (forall b, is_Some (bs_disk (l_bio s) !! b) -> ~ in_log s b ->
     bs_disk (l_bio s') !! b = Some (bview (l_bio s) b)) /\
  (forall b, is_Some (bs_disk (l_bio s) !! b) <-> is_Some (bs_disk (l_bio s') !! b)) /\
  dwrites t = if 0 <? l_n s then commit_writes s else [].

Section commit_all.
Context (s : lst) (Hwf : log_wf s) (Hheld : held (l_bio s) = ∅) (Hroom : l_n s < LOGBLOCKS).
Let Hg := lw_geom _ Hwf.
Let d := bs_disk (l_bio s).
Let start := l_start s.

Lemma wf_log_disk : log_disk start d.
Proof.
  apply log_disk_empty; [apply (wf_disk _ _ (lw_bio _ Hwf))|apply Hg|apply (lg_slots _ Hg)|apply Hwf].
Qed.

Lemma commit_disk k : let d' := apply_writes (take k (commit_writes s)) d in
  log_disk start d' /\
  (home_eq start (recovered start d') d \/
   home_eq start (recovered start d') (apply_writes (commit_home s) d)).
Proof.
  destruct (logged_disk s Hwf Hheld Hroom) as [Hd1 HB].
  destruct (log_writes_region s Hwf Hroom) as (Hreg & Hns & Hgood).
  apply commit_crash_disk; try done; [apply wf_log_disk|apply Hwf|].
  by apply (commit_header_ok s).
Qed.

Lemma commit_disk_final : let d' := apply_writes (commit_writes s) d in
  hdr_n (d' !!! start) = 0 /\ home_eq start d' (apply_writes (commit_home s) d).
Proof.
  destruct (log_writes_region s Hwf Hroom) as (Hreg & Hns & Hgood).
  destruct (commit_header_ok s Hwf Hheld) as (Hok & _).
  unfold commit_writes. rewrite app_assoc. fold start.
  set (A := log_writes s (l_n s) ++ [(start, commit_header s)]).
  assert (in_region start A) as HA.
  { apply Forall_app. split; [done|]. apply Forall_singleton. simpl. klia. }
  rewrite app_assoc, apply_writes_app. simpl. rewrite lookup_total_insert_eq.
  split; [by apply cleared_ok|]. intros b Hb. rewrite lookup_insert_ne by (intros ->; apply Hb; klia).
  rewrite apply_writes_app. apply (apply_home_eq start); [|done]. by apply apply_in_region.
Qed.

Lemma commit_dom b : is_Some (d !! b) <-> is_Some (apply_writes (commit_writes s) d !! b).
Proof.
  destruct (log_writes_region s Hwf Hroom) as (Hreg & _ & _).
  split; [apply apply_writes_dom|]. apply apply_writes_dom_inv. intros b' Hb'.
  unfold commit_writes in Hb'. rewrite !fmap_app, !elem_of_app, (commit_home_keys s Hwf) in Hb'.
  assert (in_log s (l_start s)) as Hst by (unfold in_log; klia).
  destruct Hb' as [Hb'|[->%list_elem_of_singleton|[HL| ->%list_elem_of_singleton]]];
    [|by apply Hg|by apply (lg_home _ Hg)|by apply Hg].
  apply list_elem_of_fmap in Hb' as (x & -> & Hx). apply Hg.
  unfold in_region in Hreg. rewrite Forall_forall in Hreg. by apply Hreg.
Qed.

Lemma commit_spec : wpt commit s (fun _ => commit_post s).
Proof.
  destruct (Z.ltb_spec 0 (l_n s)) as [Hpos|Hz].
  - eapply wpt_mono; [by apply commit_spec_pos|].
    intros _ ? t (b' & -> & Hbio & Hh & Hp & Ht & Hd'). destruct commit_disk_final as [Hn Hhome].
    rewrite Ht in Hd'. fold d in Hd'. rewrite <- Hd' in Hn, Hhome.
    destruct (commit_disk (length (commit_writes s))) as [Hld _]. rewrite firstn_all, <- Hd' in Hld.
    unfold commit_post. rewrite (proj2 (Z.ltb_lt 0 (l_n s)) Hpos). simpl. split_and!; try done.
    + apply log_wf_empty; simpl; try done; apply Hg.
    + intros b Hb Hnl. rewrite Hhome by done. by apply commit_home_disk.
    + intros b. rewrite Hd'. apply commit_dom.
  - unfold commit. get_step. unfold commit_post. destruct (Z.ltb_spec 0 (l_n s)); [lia|].
    apply wpt_ret. pose proof (lg_n _ Hg). split_and!; try done; [lia|].
    intros b Hb Hnl. rewrite (clean_view (list_to_set (logged s))).
    + by apply lookup_lookup_total.
    + apply Hwf.
    + by rewrite heldset_empty.
    + unfold logged. replace (l_n s) with 0 by lia. set_solver.
Qed.

Lemma log_wf_flags c o : log_wf (set_committing c (set_outstanding o s)).
Proof. destruct Hwf as [[] ]. by split. Qed.
End commit_all.

(** The last [end_op] of a transaction commits it. *)
Lemma end_op_last s : log_wf s -> held (l_bio s) = ∅ -> l_n s < LOGBLOCKS ->
  l_outstanding s = 1 -> l_committing s = false ->
  wpt end_op s (fun _ s' t => commit_post (set_outstanding 0 s) s' t).
Proof.
  intros Hwf Hheld Hroom Ho Hc. unfold end_op. apply wpt_bind, wpt_modify. rewrite Ho. change (1 - 1) with 0.
  get_step. simpl l_committing. rewrite Hc. get_step. simpl l_outstanding. rewrite Z.eqb_refl.
  apply wpt_bind, wpt_modify. apply wpt_bind.
  eapply wpt_mono; [apply commit_spec; try done; by apply log_wf_flags|].
  intros _ s2 t (Hwf2 & Hn2 & Hh2 & Hs2 & Ho2 & Hc2 & Hp2 & Hd2 & Hdom2 & Ht2).
  apply wpt_bind, wpt_modify, wpt_emit. unfold commit_post.
  split_and!; try done.
  - replace (set_committing false s2) with (set_committing false (set_outstanding 0 s2)).
    + by apply log_wf_flags.
    + destruct s2; simpl in *. by subst.
  - simpl. by rewrite !dwrites_app, Ht2, app_nil_r.
Qed.

Lemma commit_crash_prefix s : log_wf s -> held (l_bio s) = ∅ -> l_n s < LOGBLOCKS ->
  forall t k, dwrites t = (if 0 <? l_n s then commit_writes s else []) ->
  let d' := apply_writes (take k (dwrites t)) (bs_disk (l_bio s)) in
  log_disk (l_start s) d' /\
  (home_eq (l_start s) (recovered (l_start s) d') (bs_disk (l_bio s)) \/
   home_eq (l_start s) (recovered (l_start s) d') (apply_writes (commit_home s) (bs_disk (l_bio s)))).
Proof.
  intros Hwf Hheld Hroom t k ->. destruct (0 <? l_n s); [by apply commit_disk|].
  rewrite take_nil. simpl. split; [by apply wf_log_disk|]. left.
  unfold recovered. by rewrite install_list_nil by apply Hwf.
Qed.
