(* ===== verification/LogTxn.v ===== *)
(** * Transactions: [log_write], [begin_op], [end_op] and the log's properties

    Specifications of the operations the file system calls, and the theorems
    on crash atomicity, group commit and log space. *)
From S2P Require Import Prelude Params Sleeplock Bio BioInv Log LogInv LogCrash.

(** ** [log_write] *)

Lemma log_index_spec n block b i :
  (i <= log_index n block b i <= i + n)%nat /\
  (forall j, (i <= j < log_index n block b i)%nat -> u32 (block !!! j) <> b) /\
  ((log_index n block b i < i + n)%nat -> u32 (block !!! (log_index n block b i)) = b).
Proof.
  revert i. induction n as [|n IH]; intros i; simpl; [split_and!; lia|].
  destruct (Z.eqb_spec (u32 (block !!! i)) b) as [Hb|Hb].
  { split; [lia|]. split; [lia|done]. }
  destruct (IH (S i)) as (H1 & H2 & H3). split; [lia|]. split; [|intros; apply H3; lia].
  intros j Hj. destruct (decide (j = i)) as [->|]; [done|]. apply H2. lia.
Qed.

(** The set of blocks in the current transaction. *)
Definition txn (s : lst) : gset Z := list_to_set (logged s).

Definition log_write_post (s : lst) (b : Z) (s' : lst) (t : list event) : Prop :=
  log_wf s' /\ txn s' = {[b]} ∪ txn s /\
  (forall b', bview (l_bio s') b' = bview (l_bio s) b') /\
  held (l_bio s') = held (l_bio s) /\ bs_disk (l_bio s') = bs_disk (l_bio s) /\
  bs_pid (l_bio s') = bs_pid (l_bio s) /\
  l_start s' = l_start s /\ l_outstanding s' = l_outstanding s /\
  l_committing s' = l_committing s /\ dwrites t = [].

Section log_write.
Context (s : lst) (h : nat) (b : Z).
Context (Hwf : log_wf s) (Hheld : held (l_bio s) !! h = Some b) (Hnl : ~ in_log s b).
Let Hg := lw_geom _ Hwf.

Lemma held_in_disk : is_Some (bs_disk (l_bio s) !! b).
Proof.
  apply (held_Some _ _ _ _ (lw_bio _ Hwf)) in Hheld as [(Hi & Hd & Hb) _].
  destruct (wf_bufs _ _ (lw_bio _ Hwf) h Hi) as (_ & Hblk & _). rewrite Hb in Hblk. by apply Hblk.
Qed.

Lemma held_blockno : b_blockno (buf_at h (l_bio s)) = b /\ i32 b = b /\ u32 b = b.
Proof.
  pose proof held_in_disk as [x Hx]. apply (wf_disk _ _ (lw_bio _ Hwf)) in Hx as [Hb _].
  apply (held_Some _ _ _ _ (lw_bio _ Hwf)) in Hheld as [(_ & _ & Hbn) _].
  split_and!; [done|apply i32_id; lia|apply u32_id; lia].
Qed.

(** The block number is found in the header exactly if it is already logged. *)
Lemma log_index_logged :
  let i := log_index (Z.to_nat (l_n s)) (l_block s) b 0 in
  (i <= Z.to_nat (l_n s))%nat /\
  (i = Z.to_nat (l_n s) -> b ∉ logged s) /\
  ((i < Z.to_nat (l_n s))%nat -> l_block s !! i = Some b).
Proof.
  intros i. destruct (log_index_spec (Z.to_nat (l_n s)) (l_block s) b 0) as (H1 & H2 & H3).
  fold i in H1, H2, H3. pose proof (lg_len _ Hg) as Hlen. pose proof (lg_n _ Hg) as Hn.
  assert (forall j, (j < Z.to_nat (l_n s))%nat -> u32 (l_block s !!! j) = l_block s !!! j) as Hu.
  { intros j Hj. apply u32_id. pose proof (logged_header_ok s Hwf) as [_ Hh]. specialize (Hh j Hj). lia. }
  split_and!; [lia|..].
  - intros Hi (j & Hj)%list_elem_of_lookup. unfold logged in Hj. apply lookup_take_Some in Hj as [Hj Hjn].
    apply (H2 j); [lia|]. rewrite Hu by done. by apply list_lookup_total_correct.
  - intros Hi. rewrite <- H3 by lia. rewrite Hu by done. apply list_lookup_lookup_total_lt. lia.
Qed.

Lemma log_absorb : forall i, l_block s !! i = Some b -> set_lh_block (<[i := b]> (l_block s)) s = s.
Proof. intros i Hi. rewrite list_insert_id by done. by destruct s. Qed.

Lemma log_append_wf bs' :
  b ∉ logged s -> l_n s < LOGBLOCKS -> pin_post ({[b]} ∪ txn s) (l_bio s) bs' ->
  let s' := set_lh_n (l_n s + 1)
    (set_bio bs' (set_lh_block (<[Z.to_nat (l_n s) := b]> (l_block s)) s)) in
  log_wf s' /\ txn s' = {[b]} ∪ txn s.
Proof.
  intros Hb Hroom (Hbio & Hd & Hp & Hv & Hh) s'.
  pose proof (lg_len _ Hg) as Hlen. pose proof (lg_n _ Hg) as Hn.
  assert (logged s' = logged s ++ [b]) as HL.
  { unfold logged, s'. simpl. replace (Z.to_nat (l_n s + 1)) with (S (Z.to_nat (l_n s))) by lia.
    rewrite (take_S_r _ _ b) by (apply list_lookup_insert_eq; klia).
    by rewrite take_insert_ge by lia. }
  assert (txn s' = {[b]} ∪ txn s) as Htxn.
  { unfold txn. rewrite HL, list_to_set_app_L. simpl. set_solver. }
  split; [|done]. split.
  - destruct Hg as [H1 H2 H3 H4 H5 H6]. split; rewrite ?HL; unfold s'; simpl; try done.
    + by rewrite Hd.
    + lia.
    + by rewrite length_insert.
    + rewrite Hd. intros b' [Hb'| ->%list_elem_of_singleton]%elem_of_app; [by apply H6|].
      split; [apply held_in_disk|done].
  - rewrite HL. apply NoDup_app. split_and!; [apply Hwf|set_solver|apply NoDup_singleton].
  - change (list_to_set (logged s')) with (txn s'). by rewrite Htxn.
  - unfold s'. simpl. rewrite Hd. apply Hwf.
Qed.

Lemma log_write_spec : l_n s < LOGBLOCKS -> 1 <= l_outstanding s ->
  wpt (log_write h) s (fun _ => log_write_post s b).
Proof.
  intros Hroom Hout. destruct held_blockno as (Hbn & Hi32 & _). unfold log_write. get_step. get_step.
  destruct (Z.leb_spec LOGBLOCKS (l_n s)); [lia|].
  destruct (Z.ltb_spec (l_outstanding s) 1); [lia|].
  get_step. rewrite Hbn. get_step. rewrite Hi32. pose proof (lg_n _ Hg) as Hn.
  destruct log_index_logged as (Hle & Hnew & Hold).
  set (i := log_index _ _ _ _) in *. unfold set_block.
  destruct (Z.ltb_spec (Z.of_nat i) LOGBLOCKS); [|klia]. apply wpt_bind, wpt_modify.
  rewrite Nat2Z.id. destruct (Z.eqb_spec (Z.of_nat i) (l_n s)) as [Hi|Hi]; simpl when.
  - replace i with (Z.to_nat (l_n s)) by lia. specialize (Hnew ltac:(lia)).
    assert (b ∉ txn s) by (unfold txn; by rewrite elem_of_list_to_set).
    bio_step (bpin_spec (txn s)); [apply Hwf|done|done|].
    intros _ bs' t1 [Hpin Ht1]. apply wpt_modify. 
    destruct (log_append_wf bs' Hnew Hroom Hpin) as [Hwf' Htxn].
    destruct Hpin as (_ & Hd & Hp & Hv & Hh). split_and!; try done.
    simpl. by rewrite !dwrites_app, Ht1.
  - apply wpt_ret. rewrite log_absorb by (apply Hold; lia).
    split_and!; try done. apply eq_sym, subseteq_union_1_L, singleton_subseteq_l.
    unfold txn. rewrite elem_of_list_to_set. apply (list_elem_of_lookup_2 _ i).
    unfold logged. rewrite lookup_take_lt by lia. apply Hold. lia.
Qed.
End log_write.

(** ** [begin_op] *)

Lemma begin_op_spec s : l_committing s = false ->
  l_n s + (l_outstanding s + 1) * MAXOPBLOCKS <= LOGBLOCKS ->
  wpt begin_op s (fun _ s' t => s' = set_outstanding (l_outstanding s + 1) s /\ t = []).
Proof.
  intros Hc Hroom. unfold begin_op. get_step. get_step. get_step. rewrite Hc.
  destruct (Z.ltb_spec LOGBLOCKS (l_n s + (l_outstanding s + 1) * MAXOPBLOCKS)); [lia|].
  by apply wpt_modify.
Qed.

(** ** Updating one block inside a transaction *)

(** [bread]; change the data; [log_write]; [brelse]: the pattern of every
    metadata update in the file system. *)
Definition update_block (b : Z) (f : bytes -> bytes) : M lst unit :=
  let! h := bio (bread ROOTDEV b) in
  let! d := bio (read_data h) in
  bio (write_data h (f d)) ;;;
  log_write h ;;;
  bio (brelse h).

(** The parts of the state an operation of a transaction leaves alone. *)
Definition same_txn (s s' : lst) : Prop :=
  l_start s' = l_start s /\ l_outstanding s' = l_outstanding s /\
  l_committing s' = l_committing s /\ bs_disk (l_bio s') = bs_disk (l_bio s) /\
  bs_pid (l_bio s') = bs_pid (l_bio s).

Lemma log_wf_set_bio s b' : log_wf s -> bio_wf (txn s) b' -> bs_disk b' = bs_disk (l_bio s) ->
  log_wf (set_bio b' s).
Proof.
  intros [[] Hnd Hbio Hh] Hb Hd. split; [split|..]; simpl; rewrite ?Hd; try done.
Qed.

Lemma txn_size s : log_wf s -> size (txn s) = Z.to_nat (l_n s).
Proof. intros Hwf. apply logged_size; apply Hwf. Qed.

Lemma update_block_spec s b f :
  log_wf s -> held (l_bio s) = ∅ -> is_Some (bs_disk (l_bio s) !! b) -> ~ in_log s b ->
  l_n s < LOGBLOCKS -> 1 <= l_outstanding s -> block_ok (f (bview (l_bio s) b)) ->
  wpt (update_block b f) s (fun _ s' t =>
    log_wf s' /\ held (l_bio s') = ∅ /\ txn s' = {[b]} ∪ txn s /\ same_txn s s' /\ dwrites t = [] /\
    forall b', bview (l_bio s') b' = if decide (b' = b) then f (bview (l_bio s) b) else bview (l_bio s) b').
Proof.
  intros Hwf Hheld Hb Hnl Hroom Hout Hf. unfold update_block.
  pose proof (lg_n _ (lw_geom _ Hwf)) as Hn.
  bio_step (bread_spec (txn s)); [apply Hwf|done|by rewrite heldset_empty| |].
  { right. rewrite heldset_empty, union_empty_l_L, txn_size by done. klia. }
  intros h b1 t1 (Hwf1 & Hd1 & Hp1 & Hv1 & Hnh1 & Hh1 & Ht1). rewrite Hheld in Hh1.
  assert (held b1 !! h = Some b) as Hhb by (by rewrite Hh1, lookup_insert_eq).
  apply wpt_bind, wpt_bio. unfold read_data. apply wpt_gets. cbn [l_bio set_bio].
  rewrite (held_data (txn s) b1 h b), Hv1 by done.
  bio_step (write_data_spec (txn s)); [done|done|done|].
  intros _ b2 t2 (Hwf2 & Hd2 & Hp2 & Hv2 & Hh2 & Ht2). rewrite !set_bio_set_bio.
  apply wpt_bind. eapply wpt_mono; [apply (log_write_spec (set_bio b2 s) h b); try done|].
  { apply log_wf_set_bio; [done..|]. by rewrite Hd2. }
  { cbn [l_bio set_bio]. by rewrite Hh2. }
  intros _ s3 t3 (Hwf3 & Htxn & Hv3 & Hh3 & Hd3 & Hp3 & Hs3 & Ho3 & Hc3 & Ht3).
  cbn [l_bio set_bio] in *. change (txn (set_bio b2 s)) with (txn s) in Htxn.
  bio_last (brelse_spec (txn s3)); [apply Hwf3|by rewrite Hh3, Hh2|left; set_solver|].
  intros _ b4 t4 (Hwf4 & Hd4 & Hp4 & Hv4 & Hh4 & Ht4). cbn [l_bio set_bio].
  split_and!.
  - by apply log_wf_set_bio.
  - rewrite Hh4, Hh3, Hh2, Hh1. apply delete_insert_id, lookup_empty.
  - done.
  - unfold same_txn. simpl. split_and!; try done; congruence.
  - simpl. by rewrite !dwrites_app, Ht1, Ht2, Ht3, Ht4.
  - intros b'. rewrite Hv4, Hv3, Hv2. case_decide; [done|]. by rewrite Hv1.
Qed.

(** ** Crash atomicity *)

(** C1.  Crash atomicity of the log.  When the last [end_op] of a transaction
    runs, it returns with every block outside the log on disk as the
    transaction left it; and if the machine stops after any prefix of the disk
    writes it issues, and then again any number of times during recovery, a
    final run of [initlog] succeeds and the blocks outside the log are either
    all as they were before the transaction or all as it wrote them. *)
Theorem crash_atomicity s :
  log_wf s -> held (l_bio s) = ∅ -> l_n s < LOGBLOCKS ->
  l_outstanding s = 1 -> l_committing s = false ->
  wpt end_op s (fun _ s' t =>
    log_wf s' /\
    (forall b, is_Some (bs_disk (l_bio s) !! b) -> ~ in_log s b ->
       bs_disk (l_bio s') !! b = Some (bview (l_bio s) b)) /\
    forall k d pid,
      rtc (recovery_crash (l_start s)) (apply_writes (take k (dwrites t)) (bs_disk (l_bio s))) d ->
      wpt (initlog ROOTDEV (l_start s)) (boot_lst d pid) (fun _ s'' _ =>
        log_wf s'' /\
        ((forall b, is_Some (bs_disk (l_bio s) !! b) -> ~ in_log s b ->
            bview (l_bio s'') b = bs_disk (l_bio s) !!! b) \/
         (forall b, is_Some (bs_disk (l_bio s) !! b) -> ~ in_log s b ->
            bview (l_bio s'') b = bview (l_bio s) b)))).
Proof.
  intros Hwf Hheld Hroom Ho Hc. eapply wpt_mono; [by apply end_op_last|].
  intros _ s' t (Hwf' & _ & _ & _ & _ & _ & _ & Hd' & _ & Ht). split_and!; [done..|].
  intros k d pid Hcrash.
  destruct (commit_crash_prefix s Hwf Hheld Hroom t k Ht) as [Hld Hrec].
  destruct (recovery_crashes _ _ _ Hld Hcrash) as [Hldd Heq].
  eapply wpt_mono; [by apply initlog_run|].
  intros _ s'' t'' (Hwf'' & _ & _ & _ & _ & _ & _ & Hdisk & Hview). split; [done|].
  assert (forall b, ~ in_log s b -> bview (l_bio s'') b =
    recovered (l_start s) (apply_writes (take k (dwrites t)) (bs_disk (l_bio s))) !!! b) as Hv.
  { intros b Hb. rewrite Hview, !lookup_total_alt, Hdisk by done. by rewrite Heq. }
  destruct Hrec as [Hrec|Hrec]; [left|right]; intros b Hb Hnl; rewrite Hv by done;
    rewrite (home_eq_total _ _ _ b Hrec) by done; [done|].
  apply lookup_total_correct. by apply commit_home_disk.
Qed.

(** ** Log space *)

(** System calls in flight: [op p] blocks written so far by the process p. *)
Record gst : Set := mkGst { g_log : lst; g_ops : gmap nat nat }.

(** Several processes interleave [begin_op], [log_write] of a block they hold
    and [end_op]; each writes at most MAXOPBLOCKS blocks per operation. *)
Inductive gstep : gst -> gst -> Prop :=
  | g_begin p s ops s' t : ops !! p = None ->
      begin_op s = Ret tt s' t -> gstep (mkGst s ops) (mkGst s' (<[p := O]> ops))
  | g_write p c h s ops s' t : ops !! p = Some c -> Z.of_nat c < MAXOPBLOCKS ->
      log_write h s = Ret tt s' t -> gstep (mkGst s ops) (mkGst s' (<[p := S c]> ops))
  | g_end p c s ops s' t : ops !! p = Some c ->
      end_op s = Ret tt s' t -> gstep (mkGst s ops) (mkGst s' (delete p ops)).

(** Blocks the operations in flight may still write. *)
Definition room (ops : gmap nat nat) : Z :=
  map_fold (fun _ c acc => (MAXOPBLOCKS - Z.of_nat c) + acc) 0 ops.

Lemma room_insert p c ops : ops !! p = None ->
  room (<[p := c]> ops) = (MAXOPBLOCKS - Z.of_nat c) + room ops.
Proof. intros H. unfold room. rewrite map_fold_insert_L; [done|intros; lia|done]. Qed.

Lemma room_delete p c ops : ops !! p = Some c ->
  room ops = (MAXOPBLOCKS - Z.of_nat c) + room (delete p ops).
Proof.
  intros H. rewrite <- (insert_delete_id ops p c) at 1 by done.
  apply room_insert, lookup_delete_eq.
Qed.

Record space_ok (g : gst) : Prop := {
  sp_out : l_outstanding (g_log g) = Z.of_nat (size (g_ops g));
  sp_cap : forall p c, g_ops g !! p = Some c -> Z.of_nat c <= MAXOPBLOCKS;
  sp_n : 0 <= l_n (g_log g);
  sp_room : l_n (g_log g) + room (g_ops g) <= LOGBLOCKS }.

Lemma room_bounds ops : (forall p c, ops !! p = Some c -> Z.of_nat c <= MAXOPBLOCKS) ->
  0 <= room ops <= MAXOPBLOCKS * Z.of_nat (size ops).
Proof.
  induction ops as [|p c ops Hp IH] using map_ind; intros Hcap.
  - unfold room. rewrite map_fold_empty, map_size_empty. lia.
  - rewrite room_insert, map_size_insert_None by done.
    assert (Z.of_nat c <= MAXOPBLOCKS) by (apply (Hcap p), lookup_insert_eq).
    destruct IH as [IH1 IH2]; [|klia].
    intros p' c' Hp'. apply (Hcap p'). rewrite lookup_insert_ne; [done|]. by intros ->; congruence.
Qed.

(** Steps that only touch the buffer cache keep the log's own fields. *)
Definition same_fields (s s' : lst) : Prop :=
  l_n s' = l_n s /\ l_outstanding s' = l_outstanding s.

Lemma wlp_bio {A} (m : M bst A) s0 s : same_fields s0 s -> wlp (bio m) s (fun _ => same_fields s0).
Proof. intros H. by apply wlp_zoom. Qed.

Ltac bio_only s0 := repeat first
  [ wlp_step; cbn beta iota
  | eapply wlp_mono; [by apply (wlp_bio _ s0)|]; intros; cbn beta in * ].

Lemma write_head_fields s0 s : same_fields s0 s -> wlp write_head s (fun _ => same_fields s0).
Proof. intros H. unfold write_head. by bio_only s0. Qed.

Lemma write_log_fields s0 s : same_fields s0 s -> wlp write_log s (fun _ => same_fields s0).
Proof.
  intros H. unfold write_log. wlp_step. wlp_step. apply wlp_iter; [done|]. intros j s1 H1.
  by bio_only s0.
Qed.

Lemma install_trans_fields r s0 s : same_fields s0 s -> wlp (install_trans r) s (fun _ => same_fields s0).
Proof.
  intros H. unfold install_trans. wlp_step. wlp_step. apply wlp_iter; [done|]. intros j s1 H1.
  destruct r; simpl when; by bio_only s0.
Qed.

Lemma commit_fields s : 0 <= l_n s -> wlp commit s (fun _ s' =>
  l_n s' = 0 /\ l_outstanding s' = l_outstanding s).
Proof.
  intros Hn. unfold commit. wlp_steps. destruct (Z.ltb_spec 0 (l_n s)); simpl when; [|wlp_steps; lia].
  wlp_step. eapply wlp_mono; [by apply (write_log_fields s)|]. intros ? s1 H1. cbn beta.
  wlp_step. eapply wlp_mono; [by apply (write_head_fields s)|]. intros ? s2 H2. cbn beta.
  wlp_step. eapply wlp_mono; [by apply (install_trans_fields _ s)|]. intros ? s3 [_ H3]. cbn beta.
  wlp_steps. eapply wlp_mono; [by apply (write_head_fields (set_lh_n 0 s3))|].
  intros ? s4 [-> ->]. done.
Qed.

Lemma end_op_fields s : 0 <= l_n s -> wlp end_op s (fun _ s' =>
  0 <= l_n s' <= l_n s /\ l_outstanding s' = l_outstanding s - 1).
Proof.
  intros Hn. unfold end_op. wlp_steps. destruct (l_committing _); [by wlp_steps|]. wlp_steps.
  destruct (_ =? 0); [|wlp_steps; simpl; lia]. wlp_steps.
  eapply wlp_mono; [by apply commit_fields|]. intros ? s1 [H1 H2]. cbn beta. wlp_steps. simpl in *. lia.
Qed.

Lemma log_write_fields h s : 0 <= l_n s -> wlp (log_write h) s (fun _ s' =>
  0 <= l_n s' <= l_n s + 1 /\ l_outstanding s' = l_outstanding s).
Proof.
  intros Hn. unfold log_write, set_block. wlp_steps. destruct (LOGBLOCKS <=? _); [by wlp_steps|].
  destruct (_ <? 1); [by wlp_steps|]. wlp_steps. destruct (_ <? LOGBLOCKS); [|by wlp_steps].
  wlp_steps. destruct (_ =? l_n s); simpl when; [|wlp_steps; simpl; lia].
  wlp_step. eapply wlp_mono; [by apply (wlp_bio _ s)|]. intros ? s1 [H1 H2]. cbn beta.
  wlp_steps. simpl. lia.
Qed.

Lemma begin_op_inv s s' t : begin_op s = Ret tt s' t ->
  l_n s + (l_outstanding s + 1) * MAXOPBLOCKS <= LOGBLOCKS /\ s' = set_outstanding (l_outstanding s + 1) s.
Proof.
  unfold begin_op, bind, gets. destruct (l_committing s); [done|].
  destruct (Z.ltb_spec LOGBLOCKS (l_n s + (l_outstanding s + 1) * MAXOPBLOCKS)); [done|].
  by intros [= <- <-].
Qed.

Lemma gstep_space g g' : space_ok g -> gstep g g' -> space_ok g'.
Proof.
  intros [Hout Hcap Hn Hroom] Hstep.
  destruct Hstep as [p s ops s' t Hp Hrun|p c h s ops s' t Hp Hc Hrun|p c s ops s' t Hp Hrun]; simpl in *.
  - apply begin_op_inv in Hrun as [Hr ->]. pose proof (room_bounds ops Hcap). split; simpl.
    + rewrite map_size_insert_None by done. lia.
    + intros p' c' [[<- <-]|[_ ?]]%lookup_insert_Some; [klia|by eapply Hcap].
    + lia.
    + rewrite room_insert by done. klia.
  - destruct (log_write_fields h s Hn _ _ _ Hrun) as [H1 H2].
    pose proof (room_delete p c ops Hp) as Hd. split; simpl.
    + rewrite map_size_insert_Some by eauto. lia.
    + intros p' c' [[<- <-]|[_ ?]]%lookup_insert_Some; [lia|by eapply Hcap].
    + lia.
    + rewrite <- insert_delete_eq, room_insert by apply lookup_delete_eq. lia.
  - destruct (end_op_fields s Hn _ _ _ Hrun) as [H1 H2].
    pose proof (room_delete p c ops Hp) as Hd. specialize (Hcap p c Hp) as Hcp. split; simpl.
    + rewrite map_size_delete, Hp. assert (size ops <> 0%nat) by (intros ?%map_size_empty_inv; subst; done). lia.
    + intros p' c' [_ ?]%lookup_delete_Some. by eapply Hcap.
    + lia.
    + lia.
Qed.

(** C2.  Reserving log space up front is enough: from a log with no system
    call in flight, however processes interleave [begin_op], [log_write] and
    [end_op], as long as each operation writes at most MAXOPBLOCKS blocks the
    log never overflows and a [log_write] hits neither of its panics. *)
Theorem log_space_reserved s g p c h :
  0 <= l_n s <= LOGBLOCKS -> l_outstanding s = 0 ->
  rtc gstep (mkGst s ∅) g -> g_ops g !! p = Some c -> Z.of_nat c < MAXOPBLOCKS ->
  l_n (g_log g) < LOGBLOCKS /\
  log_write h (g_log g) <> Panic "too big a transaction" [] /\
  log_write h (g_log g) <> Panic "log_write outside of trans" [].
Proof.
  intros Hn Ho Hreach Hp Hc.
  assert (space_ok g) as [Hout Hcap Hn' Hroom].
  { assert (space_ok (mkGst s ∅)) as H0.
    { split; simpl; rewrite ?map_size_empty; try done; try lia.
      unfold room. rewrite map_fold_empty. lia. }
    revert H0. induction Hreach; eauto using gstep_space. }
  pose proof (room_delete p c _ Hp) as Hd.
  assert (0 <= room (delete p (g_ops g))) as H0.
  { apply room_bounds. intros p' c' [_ ?]%lookup_delete_Some. by eapply Hcap. }
  assert (1 <= l_outstanding (g_log g)).
  { rewrite Hout. assert (size (g_ops g) <> 0%nat); [|lia].
    intros ?%map_size_empty_inv. by rewrite H in Hp. }
  assert (l_n (g_log g) < LOGBLOCKS) by lia. split; [done|].
  unfold log_write, bind, gets, set_block, when.
  destruct (Z.leb_spec LOGBLOCKS (l_n (g_log g))); [lia|].
  destruct (Z.ltb_spec (l_outstanding (g_log g)) 1); [lia|].
  destruct (_ <? LOGBLOCKS); [|by split]. simpl. by destruct (_ =? _).
Qed.

(** ** A full log *)

Lemma size_list_to_set_le (l : list Z) : (size (list_to_set l : gset Z) <= length l)%nat.
Proof.
  induction l as [|x l IH]; [by rewrite list_to_set_nil, size_empty|].
  rewrite list_to_set_cons, size_union_alt, size_singleton. simpl length.
  enough (size (list_to_set l ∖ {[x]} : gset Z) <= size (list_to_set l : gset Z))%nat by lia.
  apply subseteq_size. set_solver.
Qed.

(** With NBUF blocks pinned, every buffer holds a pinned block. *)
Lemma all_pinned P s i : bio_wf P s -> size P = NBUF -> (i < NBUF)%nat ->
  b_dev (buf_at i s) = ROOTDEV /\ b_blockno (buf_at i s) ∈ P.
Proof.
  intros Hwf Hsize Hi. destruct (decide (b_dev (buf_at i s) = ROOTDEV /\ b_blockno (buf_at i s) ∈ P)); [done|].
  exfalso. set (l := (fun j => b_blockno (buf_at j s)) <$> (seq 0 i ++ seq (S i) (NBUF - S i))).
  assert (P ⊆ list_to_set l) as Hsub.
  { intros b Hb. destruct (wf_pins _ _ Hwf b Hb) as (j & Hj & Hd & Hbn).
    apply elem_of_list_to_set, list_elem_of_fmap. exists j. split; [done|].
    rewrite elem_of_app, !elem_of_seq.
    assert (j <> i) by (intros ->; subst; tauto). lia. }
  apply subseteq_size in Hsub. pose proof (size_list_to_set_le l) as Hle.
  assert (length l < NBUF)%nat by (unfold l; rewrite length_fmap, length_app, !length_seq; lia). lia.
Qed.

Lemma commit_full s : log_wf s -> held (l_bio s) = ∅ -> l_n s = LOGBLOCKS ->
  commit s = Panic "bget: no buffers" [].
Proof.
  intros Hwf Hheld Hn. pose proof (lw_geom _ Hwf) as Hg.
  assert (size (txn s) = NBUF) as Hsize by (rewrite txn_size, Hn by done; done).
  assert (in_log s (l_start s + 0 + 1)) as Hin by (unfold in_log; klia).
  assert (bread ROOTDEV (l_start s + 0 + 1) (l_bio s) = Panic "bget: no buffers" []) as Hpanic.
  { apply (bread_no_buffers (txn s)); [apply Hwf|..].
    - intros i (Hi & _ & Hb). destruct (all_pinned (txn s) (l_bio s) i) as [_ HP]; [apply Hwf|done..|].
      rewrite Hb in HP. by apply (region_not_pinned s Hwf) in HP.
    - intros i Hi Hr. destruct (all_pinned (txn s) (l_bio s) i) as [Hd HP]; [apply Hwf|done..|].
      destruct (wf_bufs _ _ (lw_bio _ Hwf) i Hi) as (_ & _ & Href & _).
      rewrite decide_True in Href by done. destruct (sl_locked _); lia. }
  assert (bio (bread (l_dev s) (u32 (l_start s + 0 + 1))) s = Panic "bget: no buffers" []) as Hbio.
  { rewrite (lg_dev _ Hg), (slot_u32 s Hg (lw_bio _ Hwf)) by klia. unfold bio, zoom. by rewrite Hpanic. }
  assert (write_log s = Panic "bget: no buffers" []) as Hwl.
  { unfold write_log, iter, bind, gets. rewrite Hn. change (Z.to_nat LOGBLOCKS) with (S 29).
    cbn [for_from]. unfold bind. by rewrite Hbio. }
  unfold commit, bind, gets. rewrite Hn. change (0 <? LOGBLOCKS) with true. cbn [when].
  by rewrite Hwl.
Qed.

(** C3.  The size of the cache bounds the size of a transaction: a transaction
    that fills the log (LOGBLOCKS = NBUF distinct blocks, all pinned) cannot be
    committed, since [write_log] finds no buffer for its first log slot and
    [bget] panics before anything reaches the disk; with one block less the
    commit goes through and the new contents are on disk. *)
Theorem commit_needs_a_free_buffer s :
  log_wf s -> held (l_bio s) = ∅ ->
  (l_n s = LOGBLOCKS -> commit s = Panic "bget: no buffers" []) /\
  (l_n s < LOGBLOCKS -> wpt commit s (fun _ s' _ =>
     l_n s' = 0 /\ forall b, is_Some (bs_disk (l_bio s) !! b) -> ~ in_log s b ->
       bs_disk (l_bio s') !! b = Some (bview (l_bio s) b))).
Proof.
  intros Hwf Hheld. split; [by apply commit_full|]. intros Hroom.
  eapply wpt_mono; [by apply commit_spec|]. unfold commit_post. tauto.
Qed.

(** ** Concrete transactions *)

(** A blank disk of 80 blocks with the log at blocks 2..32. *)
Definition demo_disk : gmap Z bytes := list_to_map ((fun b => (b, zero_block)) <$> seqZ 0 80).

Lemma demo_lookup b : 0 <= b < 80 -> demo_disk !! b = Some zero_block.
Proof.
  intros Hb. apply elem_of_list_to_map_1.
  - rewrite <- list_fmap_compose. apply NoDup_fmap; [by intros ? ? ?|apply NoDup_seqZ].
  - apply list_elem_of_fmap. exists b. split; [done|]. apply elem_of_seqZ. lia.
Qed.

Lemma demo_log_disk : log_disk 2 demo_disk.
Proof.
  apply log_disk_empty; [|lia| |].
  - intros b d Hb. apply elem_of_list_to_map_2 in Hb.
    apply list_elem_of_fmap in Hb as (b' & [= -> ->] & Hin%elem_of_seqZ).
    split; [lia|apply zero_block_ok].
  - intros b Hb. rewrite demo_lookup by klia. done.
  - rewrite (lookup_total_correct _ _ _ (demo_lookup 2 ltac:(lia))). by vm_compute.
Qed.

(** After recovery on the blank disk, one operation that has logged k blocks. *)
Lemma demo_fill (k : nat) : (k <= Z.to_nat LOGBLOCKS)%nat ->
  exists s, log_wf s /\ held (l_bio s) = ∅ /\ l_n s = Z.of_nat k /\ l_outstanding s = 1 /\
    l_committing s = false /\ l_start s = 2 /\
    txn s = list_to_set (seqZ 40 (Z.of_nat k)) /\
    (forall b, 0 <= b < 80 -> is_Some (bs_disk (l_bio s) !! b)).
Proof.
  induction k as [|k IH]; intros Hk.
  - destruct (wpt_elim _ _ _ (initlog_run 2 demo_disk 1 demo_log_disk))
      as ([] & s & t & Hrun & Hwf & Hh & Hn & Hs & Ho & Hc & _ & Hd & _).
    clear Hrun. exists (set_committing false (set_outstanding 1 s)). split_and!; try done.
    + by apply log_wf_flags.
    + unfold txn, logged. simpl. by rewrite Hn.
    + intros b Hb. change (is_Some (bs_disk (l_bio s) !! b)).
      destruct (decide (2 <= b <= 2 + LOGBLOCKS)) as [Hin|Hin].
      * apply (lg_slots _ (lw_geom _ Hwf)). unfold in_log. by rewrite Hs.
      * rewrite Hd by done. apply apply_writes_dom. by rewrite demo_lookup.
  - destruct IH as (s & Hwf & Hh & Hn & Ho & Hc & Hs & Ht & Hd); [lia|].
    assert (block_ok (replicate (Z.to_nat BSIZE) 7)) as H7.
    { split; [apply length_replicate|]. apply Forall_replicate. unfold is_byte. lia. }
    assert (~ in_log s (40 + Z.of_nat k)) as Hnl by (unfold in_log; rewrite Hs; klia).
    assert (l_n s < LOGBLOCKS) as Hroom by klia. assert (1 <= l_outstanding s) as Hout by lia.
    assert (is_Some (bs_disk (l_bio s) !! (40 + Z.of_nat k))) as Hb by (apply Hd; klia).
    destruct (wpt_elim _ _ _ (update_block_spec s (40 + Z.of_nat k) (fun _ => replicate (Z.to_nat BSIZE) 7)
      Hwf Hh Hb Hnl Hroom Hout H7))
      as ([] & s' & t & Hrun & Hwf' & Hh' & Htxn & (Hs' & Ho' & Hc' & Hd' & _) & _).
    clear Hrun. exists s'. split_and!; try congruence.
    + pose proof (txn_size s' Hwf') as Hsz. pose proof (lg_n _ (lw_geom _ Hwf')) as Hn'.
      rewrite Htxn, Ht, size_union, size_singleton, size_list_to_set, length_seqZ in Hsz.
      * lia.
      * apply NoDup_seqZ.
      * intros b ->%elem_of_singleton Hin%elem_of_list_to_set%elem_of_seqZ. lia.
    + rewrite Htxn, Ht. apply set_eq. intros b.
      rewrite elem_of_union, elem_of_singleton, !elem_of_list_to_set, !elem_of_seqZ. lia.
    + by rewrite Hd'.
Qed.

Lemma crash_atomicity_witness : exists s,
  l_n s = 3 /\ log_wf s /\ held (l_bio s) = ∅ /\ wpt end_op s (fun _ s' t => log_wf s').
Proof.
  destruct (demo_fill 3) as (s & Hwf & Hh & Hn & Ho & Hc & _); [vm_compute; lia|].
  exists s. split_and!; [done..|]. eapply wpt_mono.
  - apply (crash_atomicity s); [done|done|rewrite Hn; vm_compute; done|done|done].
  - intros ? s' t H. exact (proj1 H).
Defined.

Lemma log_space_reserved_witness : exists g,
  rtc gstep (mkGst (boot_lst ∅ 1) ∅) g /\ g_ops g !! 1%nat = Some 0%nat /\ l_n (g_log g) < LOGBLOCKS.
Proof.
  set (g := mkGst (set_outstanding 1 (boot_lst ∅ 1)) (<[1%nat := 0%nat]> ∅)).
  assert (rtc gstep (mkGst (boot_lst ∅ 1) ∅) g) as Hr.
  { apply rtc_once. by apply (g_begin 1%nat _ _ _ []). }
  exists g. split_and!; [done|done|].
  apply (log_space_reserved (boot_lst ∅ 1) g 1%nat 0%nat 0%nat); [vm_compute; done|done|done|done|].
  vm_compute. done.
Defined.

Lemma commit_needs_a_free_buffer_witness : exists s,
  log_wf s /\ held (l_bio s) = ∅ /\ l_n s = LOGBLOCKS /\ commit s = Panic "bget: no buffers" [].
Proof.
  destruct (demo_fill 30) as (s & Hwf & Hh & Hn & _); [vm_compute; lia|].
  exists s. split_and!; [done|done|done|]. by apply (commit_needs_a_free_buffer s).
Defined.
