(* ===== verification/CString.v ===== *)
(** * String and memory routines ([kernel/string.c])

    [mem] is byte-addressable memory.  The routines that write through one
    pointer while reading through another that may overlap ([memset],
    [memmove]) work on it.  A string that is only read is the stream of bytes
    at its pointer, [nat -> Z], and [strncpy]/[safestrcpy], whose arguments do
    not overlap, give the bytes they store at the destination, in order. *)
From S2P Require Import Prelude.

Definition mem : Set := Z -> Z.
Definition store (m : mem) (a v : Z) : mem := fun x => if x =? a then v else m x.

Fixpoint memset_loop (m : mem) (dst c : Z) (n : nat) (i : Z) : mem :=
  match n with
  | O => m
  | S n => memset_loop (store m (dst + i) (u8 c)) dst c n (i + 1)
  end.
Definition memset (m : mem) (dst c n : Z) : mem := memset_loop m dst c (Z.to_nat n) 0.

Fixpoint memcmp (n : nat) (s1 s2 : nat -> Z) : Z :=
  match n with
  | O => 0
  | S n => if s1 0%nat =? s2 0%nat then memcmp n (fun i => s1 (S i)) (fun i => s2 (S i))
           else s1 0%nat - s2 0%nat
  end.

(* while(n-- > 0) *--d = *--s; *)
Fixpoint copy_down (m : mem) (d s : Z) (n : nat) : mem :=
  match n with
  | O => m
  | S n => copy_down (store m (d - 1) (m (s - 1))) (d - 1) (s - 1) n
  end.
(* while(n-- > 0) *d++ = *s++; *)
Fixpoint copy_up (m : mem) (d s : Z) (n : nat) : mem :=
  match n with
  | O => m
  | S n => copy_up (store m d (m s)) (d + 1) (s + 1) n
  end.
Definition memmove (m : mem) (dst src n : Z) : mem :=
  if n =? 0 then m
  else if (src <? dst) && (dst <? src + n) then copy_down m (dst + n) (src + n) (Z.to_nat n)
  else copy_up m dst src (Z.to_nat n).
Definition memcpy (m : mem) (dst src n : Z) : mem := memmove m dst src n.

Fixpoint strncmp (n : nat) (p q : nat -> Z) : Z :=
  match n with
  | O => 0
  | S n =>
      if negb (p 0%nat =? 0) && (p 0%nat =? q 0%nat)
      then strncmp n (fun i => p (S i)) (fun i => q (S i))
      else p 0%nat - q 0%nat
  end.

Fixpoint strncpy (n : nat) (t : nat -> Z) : list Z :=
  match n with
  | O => []
  | S n => if t 0%nat =? 0 then 0 :: replicate n 0 else t 0%nat :: strncpy n (fun i => t (S i))
  end.

(* the loop runs while --n > 0; the terminating store follows it *)
Fixpoint safestrcpy_loop (n : nat) (t : nat -> Z) : list Z :=
  match n with
  | O => [0]
  | S n => if t 0%nat =? 0 then [0; 0] else t 0%nat :: safestrcpy_loop n (fun i => t (S i))
  end.
Definition safestrcpy (n : Z) (t : nat -> Z) : list Z :=
  if n <=? 0 then [] else safestrcpy_loop (Z.to_nat (n - 1)) t.

(** [strlen]; the scan is cut off after [fuel] bytes without a NUL. *)
Fixpoint strlen (fuel : nat) (s : nat -> Z) : option Z :=
  match fuel with
  | O => None
  | S fuel => if s 0%nat =? 0 then Some 0
              else match strlen fuel (fun i => s (S i)) with
                   | Some n => Some (n + 1)
                   | None => None
                   end
  end.

(** The bytes of a list followed by NULs, as a stream. *)
Definition str_at (l : list Z) : nat -> Z := fun i => default 0 (l !! i).

(** The characters of a C string. *)
Fixpoint cstring (bs : bytes) : bytes :=
  match bs with
  | [] => []
  | b :: bs => if b =? 0 then [] else b :: cstring bs
  end.

(** ** Correctness *)

Lemma cstring_id text : Forall (fun c => c <> 0) text -> cstring text = text.
Proof. induction 1 as [|c text Hc Ht IH]; [done|]. cbn. by rewrite (proj2 (Z.eqb_neq c 0)), IH. Qed.

Lemma memset_loop_at n m dst c i a :
  memset_loop m dst c n i a =
    if decide (dst + i <= a < dst + i + Z.of_nat n) then u8 c else m a.
Proof.
  revert m i. induction n as [|n IH]; intros m i; simpl.
  - by rewrite decide_False by lia.
  - rewrite IH. unfold store. repeat case_decide; try lia; try done; destruct (Z.eqb_spec a (dst + i)); lia || done.
Qed.

Lemma copy_up_at n m d s a :
  s >= d \/ s + Z.of_nat n <= d ->
  copy_up m d s n a = if decide (d <= a < d + Z.of_nat n) then m (s + (a - d)) else m a.
Proof.
  revert m d s. induction n as [|n IH]; intros m d s Hov; simpl.
  - by rewrite decide_False by lia.
  - rewrite IH by lia. unfold store. repeat case_decide; try lia.
    + destruct (Z.eqb_spec (s + 1 + (a - (d + 1))) d); [lia|]. f_equal. lia.
    + destruct (Z.eqb_spec a d); [|lia]. f_equal. lia.
    + destruct (Z.eqb_spec a d); [lia|done].
Qed.

Lemma copy_down_at n m d s a :
  s <= d ->
  copy_down m d s n a =
    if decide (d - Z.of_nat n <= a < d) then m (s + (a - d)) else m a.
Proof.
  revert m d s. induction n as [|n IH]; intros m d s Hov; simpl.
  - by rewrite decide_False by lia.
  - rewrite IH by lia. unfold store. repeat case_decide; try lia.
    + destruct (Z.eqb_spec (s - 1 + (a - (d - 1))) (d - 1)); [lia|]. f_equal. lia.
    + destruct (Z.eqb_spec a (d - 1)); [|lia]. f_equal. lia.
    + destruct (Z.eqb_spec a (d - 1)); [lia|done].
Qed.

Lemma memmove_at m dst src n a : 0 <= n ->
  memmove m dst src n a = if decide (dst <= a < dst + n) then m (src + (a - dst)) else m a.
Proof.
  intros Hn. unfold memmove. destruct (Z.eqb_spec n 0) as [->|Hz].
  - by rewrite decide_False by lia.
  - destruct ((src <? dst) && (dst <? src + n)) eqn:Hov.
    + rewrite copy_down_at by lia.
      destruct (decide (dst <= a < dst + n)); [rewrite decide_True by lia|rewrite decide_False by lia; done].
      f_equal. lia.
    + rewrite copy_up_at by lia.
      destruct (decide (dst <= a < dst + n)); [by rewrite decide_True by lia|by rewrite decide_False by lia].
Qed.

(** ** Strings *)

(** [p] and [q] agree up to the first NUL, or on their first n bytes. *)
Definition str_eq_n (n : nat) (p q : nat -> Z) : Prop :=
  forall i, (i < n)%nat -> (forall j, (j < i)%nat -> p j <> 0) -> p i = q i.

Lemma strncmp_zero n p q : strncmp n p q = 0 <-> str_eq_n n p q.
Proof.
  revert p q. induction n as [|n IH]; intros p q; simpl; [split; [unfold str_eq_n; lia|done]|].
  destruct (Z.eqb_spec (p 0%nat) 0) as [H0|H0]; simpl.
  - split.
    + intros Heq i Hi Hpre. destruct i as [|i]; [lia|]. destruct (Hpre 0%nat); [lia|done].
    + intros H. specialize (H 0%nat ltac:(lia) ltac:(lia)). lia.
  - destruct (Z.eqb_spec (p 0%nat) (q 0%nat)) as [He|He]; simpl.
    + rewrite IH. unfold str_eq_n. split.
      * intros H [|i] Hi Hpre; [done|]. apply H; [lia|]. intros j Hj. apply Hpre. lia.
      * intros H i Hi Hpre. apply H; [lia|]. intros [|j] Hj; [done|]. apply Hpre. lia.
    + split; [lia|]. intros H. destruct He. apply H; lia.
Qed.

Lemma length_strncpy n t : length (strncpy n t) = n.
Proof.
  revert t. induction n as [|n IH]; intros t; simpl; [done|].
  destruct (_ =? _); simpl; [by rewrite length_replicate|by rewrite IH].
Qed.

Lemma strncpy_bytes n t : (forall i, is_byte (t i)) -> Forall is_byte (strncpy n t).
Proof.
  revert t. induction n as [|n IH]; intros t Ht; simpl; [done|]. destruct (_ =? _).
  - constructor; [unfold is_byte; lia|]. apply Forall_replicate. unfold is_byte. lia.
  - constructor; [done|]. by apply IH.
Qed.

(** The copy compares equal to the string it was made from. *)
Lemma strncpy_strncmp n t : strncmp n t (str_at (strncpy n t)) = 0.
Proof.
  apply strncmp_zero. revert t. induction n as [|n IH]; intros t i Hi Hpre; [lia|].
  unfold str_at. simpl. destruct (Z.eqb_spec (t 0%nat) 0) as [H0|H0].
  - destruct i as [|i]; [done|]. destruct (Hpre 0%nat); [lia|done].
  - destruct i as [|i]; [done|]. simpl. apply (IH (fun i => t (S i)) i); [lia|].
    intros j Hj. apply Hpre. lia.
Qed.

Lemma safestrcpy_loop_spec n t :
  exists k, (k <= n)%nat /\ (forall j, (j < k)%nat -> t j <> 0) /\ ((k < n)%nat -> t k = 0) /\
    take (S k) (safestrcpy_loop n t) = (t <$> seq 0 k) ++ [0] /\
    (length (safestrcpy_loop n t) <= S n)%nat.
Proof.
  revert t. induction n as [|n IH]; intros t; simpl.
  - exists 0%nat. split_and!; simpl; try lia; done.
  - destruct (Z.eqb_spec (t 0%nat) 0) as [H0|H0].
    + exists 0%nat. split_and!; simpl; try lia; done.
    + destruct (IH (fun i => t (S i))) as (k & Hk & Hnz & Hz & Htake & Hlen).
      exists (S k). split_and!.
      * lia.
      * intros [|j] Hj; [done|]. apply Hnz. lia.
      * intros. apply Hz. lia.
      * simpl take. rewrite Htake. simpl. f_equal. by rewrite <- fmap_S_seq, <- list_fmap_compose.
      * simpl. lia.
Qed.

Lemma strlen_spec fuel s n : strlen fuel s = Some n <->
  0 <= n < Z.of_nat fuel /\ s (Z.to_nat n) = 0 /\ forall j, (j < Z.to_nat n)%nat -> s j <> 0.
Proof.
  revert s n. induction fuel as [|fuel IH]; intros s n; simpl; [split; [done|lia]|].
  destruct (Z.eqb_spec (s 0%nat) 0) as [H0|H0].
  - split.
    + intros [= <-]. split_and!; try lia; done.
    + intros (Hn & _ & Hpre). destruct (decide (n = 0)) as [->|]; [done|].
      destruct (Hpre 0%nat); [lia|done].
  - destruct (strlen fuel (fun i => s (S i))) as [m|] eqn:Hs; split; try done.
    + apply IH in Hs as (Hm & Hz & Hpre). intros [= <-].
      replace (Z.to_nat (m + 1)) with (S (Z.to_nat m)) by lia. split_and!; [lia..|done|].
      intros [|j] Hj; [done|]. apply Hpre. lia.
    + intros (Hn & Hz & Hpre). destruct (decide (n = 0)) as [->|]; [done|]. f_equal.
      assert (strlen fuel (fun i => s (S i)) = Some (n - 1)) as Heq; [|rewrite Hs in Heq; injection Heq; lia].
      apply IH. replace (Z.to_nat n) with (S (Z.to_nat (n - 1))) in * by lia. split_and!; [lia..|done|].
      intros j Hj. apply Hpre. lia.
    + intros (Hn & Hz & Hpre). destruct (decide (n = 0)) as [->|]; [done|].
      assert (strlen fuel (fun i => s (S i)) = Some (n - 1)) as Heq; [|by rewrite Hs in Heq].
      apply IH. replace (Z.to_nat n) with (S (Z.to_nat (n - 1))) in * by lia. split_and!; [lia..|done|].
      intros j Hj. apply Hpre. lia.
Qed.


