(* ===== verification/Interfaces.v ===== *)
(** * Interfaces between the file system and the layers below it

    [BlockOps] are the calls the file system makes on the buffer cache and the
    log, [BlockLaws] what those layers promise about them; [UserMem] is the
    part of the virtual memory system that copies to and from user space. *)
From S2P Require Import Prelude Params.

Class BlockOps (D : Type) : Type := {
  bl_bread : Z -> Z -> M D nat;          (* bread(dev, blockno) *)
  bl_data : nat -> M D bytes;            (* reading bp->data *)
  bl_set_data : nat -> bytes -> M D unit; (* writing bp->data *)
  bl_log_write : nat -> M D unit;
  bl_brelse : nat -> M D unit;
  bl_begin_op : M D unit;
  bl_end_op : M D unit;
  bl_initlog : Z -> Z -> M D unit }.     (* initlog(dev, sb.logstart) *)

Class BlockLaws (D : Type) `{BlockOps D} : Type := {
  bl_wf : D -> Prop;
  bl_view : D -> Z -> bytes;             (* logical contents of a block *)
  bl_held : D -> gmap nat Z;             (* buffers held, with their blocks *)
  bl_txn : D -> gset Z;                  (* blocks of the current transaction *)
  bl_home : D -> Z -> Prop;              (* blocks the file system may use *)
  bl_open : D -> Prop;                   (* inside a transaction *)
  bl_idle : D -> Prop;                   (* no transaction *)
  bl_clean : D -> Z -> Prop;             (* not modified since it was read *)

  bl_same : D -> D -> Prop := fun d d' =>
    bl_wf d' /\ (forall b, bl_home d b <-> bl_home d' b) /\ (bl_open d -> bl_open d') /\
    (bl_idle d -> bl_idle d');

  bl_home_range d b : bl_wf d -> bl_home d b -> 0 <= b < 2^31;
  bl_view_ok d b : bl_wf d -> bl_home d b -> block_ok (bl_view d b);

  bl_bread_law d b : bl_wf d -> bl_home d b -> b ∉ (map_img (bl_held d) : gset Z) ->
    (size (bl_txn d) + size (bl_held d) < NBUF)%nat ->
    wp (bl_bread ROOTDEV b) d (fun h d' =>
      bl_same d d' /\ (forall b', bl_view d' b' = bl_view d b') /\
      bl_held d !! h = None /\ bl_held d' = <[h := b]> (bl_held d) /\ bl_txn d' = bl_txn d /\
      (b ∉ bl_txn d -> bl_clean d' b) /\ (forall b', bl_clean d b' -> bl_clean d' b'));

  bl_data_law d h b : bl_wf d -> bl_held d !! h = Some b ->
    wp (bl_data h) d (fun x d' => x = bl_view d b /\ d' = d);

  bl_set_data_law d h b x : bl_wf d -> bl_held d !! h = Some b -> block_ok x ->
    wp (bl_set_data h x) d (fun _ d' =>
      bl_same d d' /\ (forall b', bl_view d' b' = if decide (b' = b) then x else bl_view d b') /\
      bl_held d' = bl_held d /\ bl_txn d' = bl_txn d /\
      (forall b', b' <> b -> bl_clean d b' -> bl_clean d' b'));

  bl_log_write_law d h b : bl_wf d -> bl_held d !! h = Some b -> bl_home d b -> bl_open d ->
    Z.of_nat (size (bl_txn d)) < LOGBLOCKS ->
    wp (bl_log_write h) d (fun _ d' =>
      bl_same d d' /\ (forall b', bl_view d' b' = bl_view d b') /\
      bl_held d' = bl_held d /\ bl_txn d' = {[b]} ∪ bl_txn d /\
      (forall b', bl_clean d b' -> bl_clean d' b'));

  bl_brelse_law d h b : bl_wf d -> bl_held d !! h = Some b -> (b ∈ bl_txn d \/ bl_clean d b) ->
    wp (bl_brelse h) d (fun _ d' =>
      bl_same d d' /\ (forall b', bl_view d' b' = bl_view d b') /\
      bl_held d' = delete h (bl_held d) /\ bl_txn d' = bl_txn d /\
      (forall b', bl_clean d b' -> bl_clean d' b'));

  bl_begin_op_law d : bl_wf d -> bl_idle d ->
    wp bl_begin_op d (fun _ d' =>
      bl_wf d' /\ (forall b, bl_home d b <-> bl_home d' b) /\ bl_open d' /\
      (forall b', bl_view d' b' = bl_view d b') /\ bl_held d' = bl_held d /\ bl_txn d' = ∅);

  bl_end_op_law d : bl_wf d -> bl_open d -> bl_held d = ∅ ->
    Z.of_nat (size (bl_txn d)) < LOGBLOCKS ->
    wp bl_end_op d (fun _ d' =>
      bl_wf d' /\ (forall b, bl_home d b <-> bl_home d' b) /\ bl_idle d' /\
      (forall b', bl_home d b' -> bl_view d' b' = bl_view d b') /\
      bl_held d' = ∅ /\ bl_txn d' = ∅) }.

(** Copying to user memory stores a prefix of the bytes and may fail part
    way; copying from it yields the bytes stored in the kernel buffer. *)
Class UserMem (U : Type) : Type := {
  um_copyout : Z -> bytes -> M U Z;
  um_copyin : Z -> Z -> M U (Z * bytes) }.

Class UserMemLaws (U : Type) `{UserMem U} : Type := {
  um_copyout_law va bs u : wp (um_copyout va bs) u (fun r _ => r = 0 \/ r = -1);
  um_copyin_law va n u : 0 <= n -> wp (um_copyin va n) u (fun r _ =>
    (r.1 = 0 /\ Z.of_nat (length r.2) = n \/ r.1 = -1 /\ Z.of_nat (length r.2) <= n) /\
    Forall is_byte r.2) }.
