(* ===== verification/BlockInst.v ===== *)
(** * The buffer cache and the log implement the block interface

    [lst], the log on top of the buffer cache, satisfies [BlockLaws]. *)
From S2P Require Import Prelude Params Sleeplock Bio BioInv Log LogInv LogCrash LogTxn Interfaces.

#[export] Instance log_block_ops : BlockOps lst := {
  bl_bread dev b := bio (bread dev b);
  bl_data h := bio (read_data h);
  bl_set_data h d := bio (write_data h d);
  bl_log_write h := log_write h;
  bl_brelse h := bio (brelse h);
  bl_begin_op := begin_op;
  bl_end_op := end_op;
  bl_initlog dev start := initlog dev start }.

Definition home (s : lst) (b : Z) : Prop := is_Some (bs_disk (l_bio s) !! b) /\ ~ in_log s b.
Definition block_clean (s : lst) (b : Z) : Prop :=
  bs_disk (l_bio s) !! b = Some (bview (l_bio s) b).
Definition txn_open (s : lst) : Prop := l_outstanding s = 1 /\ l_committing s = false.
Definition txn_idle (s : lst) : Prop :=
  l_outstanding s = 0 /\ l_committing s = false /\ l_n s = 0.

Lemma wp_bio {A} (m : M bst A) s (Q : A -> lst -> Prop) P :
  wpt m (l_bio s) P -> (forall a b t, P a b t -> Q a (set_bio b s)) -> wp (bio m) s Q.
Proof. intros H HQ. apply wp_zoom. eapply wpt_mono; [exact H|]. intros a b t HP. by eapply HQ. Qed.

Lemma size_heldset s : (size (heldset s) <= size (held s))%nat.
Proof.
  unfold heldset, map_img, map_to_set. etransitivity; [apply size_list_to_set_le|].
  by rewrite length_fmap, length_map_to_list.
Qed.

(** Facts every law needs about the state after a buffer-cache call. *)
Lemma same_after (s : lst) (b' : bst) :
  log_wf s -> bio_wf (txn s) b' -> bs_disk b' = bs_disk (l_bio s) ->
  let s' := set_bio b' s in
  log_wf s' /\ (forall b, home s b <-> home s' b) /\ (txn_open s -> txn_open s') /\
  (txn_idle s -> txn_idle s').
Proof.
  intros Hwf Hb Hd s'. split; [by apply log_wf_set_bio|]. split; [|done].
  intros b. unfold home, s'. simpl. by rewrite Hd.
Qed.

Section laws.
Context (s : lst) (Hwf : log_wf s).

Lemma home_range b : home s b -> 0 <= b < 2^31.
Proof. intros [Hb _]. eapply in_disk_ok; [apply Hwf|done]. Qed.

Lemma home_view_ok b : home s b -> block_ok (bview (l_bio s) b).
Proof. intros [Hb _]. eapply view_ok; [apply Hwf|done]. Qed.

Lemma bread_law b : home s b -> b ∉ (map_img (held (l_bio s)) : gset Z) ->
  (size (txn s) + size (held (l_bio s)) < NBUF)%nat ->
  wp (bio (bread ROOTDEV b)) s (fun h s' =>
    (log_wf s' /\ (forall b, home s b <-> home s' b) /\ (txn_open s -> txn_open s') /\
     (txn_idle s -> txn_idle s')) /\
    (forall b', bview (l_bio s') b' = bview (l_bio s) b') /\
    held (l_bio s) !! h = None /\ held (l_bio s') = <[h := b]> (held (l_bio s)) /\ txn s' = txn s /\
    (b ∉ txn s -> block_clean s' b) /\ (forall b', block_clean s b' -> block_clean s' b')).
Proof.
  intros [Hb Hnl] Hnh Hroom. eapply wp_bio; [apply (bread_spec (txn s)); [apply Hwf|done|done|]|].
  { right. pose proof (size_heldset (l_bio s)). rewrite size_union_alt.
    enough (size (txn s ∖ heldset (l_bio s)) <= size (txn s))%nat by lia.
    apply subseteq_size. set_solver. }
  intros h b' t (Hwf' & Hd & Hp & Hv & Hnone & Hh & _). split; [by apply same_after|].
  split_and!; try done; unfold block_clean; simpl.
  - intros HbP. rewrite Hd, Hv. rewrite (clean_view (txn s)); [by apply lookup_lookup_total|apply Hwf|done|done].
  - intros b'' Hc. by rewrite Hd, Hv.
Qed.

Lemma data_law h b : held (l_bio s) !! h = Some b ->
  wp (bio (read_data h)) s (fun x s' => x = bview (l_bio s) b /\ s' = s).
Proof.
  intros Hh. apply wp_zoom. unfold read_data. apply wp_gets.
  rewrite (held_data (txn s) _ _ b) by (apply Hwf || done). by destruct s.
Qed.

Lemma set_data_law h b x : held (l_bio s) !! h = Some b -> block_ok x ->
  wp (bio (write_data h x)) s (fun _ s' =>
    (log_wf s' /\ (forall b, home s b <-> home s' b) /\ (txn_open s -> txn_open s') /\
     (txn_idle s -> txn_idle s')) /\
    (forall b', bview (l_bio s') b' = if decide (b' = b) then x else bview (l_bio s) b') /\
    held (l_bio s') = held (l_bio s) /\ txn s' = txn s /\
    (forall b', b' <> b -> block_clean s b' -> block_clean s' b')).
Proof.
  intros Hh Hx. eapply wp_bio; [apply (write_data_spec (txn s) _ h b); [apply Hwf|done|done]|].
  intros _ b' t (Hwf' & Hd & Hp & Hv & Hheld & _). split; [by apply same_after|].
  split_and!; try done. unfold block_clean; simpl. intros b'' Hne Hc.
  by rewrite Hd, Hv, decide_False.
Qed.

Lemma log_write_law h b : held (l_bio s) !! h = Some b -> home s b -> txn_open s ->
  Z.of_nat (size (txn s)) < LOGBLOCKS ->
  wp (log_write h) s (fun _ s' =>
    (log_wf s' /\ (forall b, home s b <-> home s' b) /\ (txn_open s -> txn_open s') /\
     (txn_idle s -> txn_idle s')) /\
    (forall b', bview (l_bio s') b' = bview (l_bio s) b') /\
    held (l_bio s') = held (l_bio s) /\ txn s' = {[b]} ∪ txn s /\
    (forall b', block_clean s b' -> block_clean s' b')).
Proof.
  intros Hh [_ Hnl] [Ho Hc] Hroom. rewrite txn_size in Hroom by done.
  pose proof (lg_n _ (lw_geom _ Hwf)).
  eapply wpt_mono; [apply (log_write_spec s h b); (done || lia)|].
  intros _ s' t (Hwf' & Htxn & Hv & Hheld & Hd & Hp & Hs & Ho' & Hc' & _).
  split_and!; try done.
  - intros b'. unfold home, in_log. by rewrite Hd, Hs.
  - intros _. split; congruence.
  - intros [Ho'' _]. lia.
  - intros b'. unfold block_clean. by rewrite Hd, Hv.
Qed.

Lemma brelse_law h b : held (l_bio s) !! h = Some b -> (b ∈ txn s \/ block_clean s b) ->
  wp (bio (brelse h)) s (fun _ s' =>
    (log_wf s' /\ (forall b, home s b <-> home s' b) /\ (txn_open s -> txn_open s') /\
     (txn_idle s -> txn_idle s')) /\
    (forall b', bview (l_bio s') b' = bview (l_bio s) b') /\
    held (l_bio s') = delete h (held (l_bio s)) /\ txn s' = txn s /\
    (forall b', block_clean s b' -> block_clean s' b')).
Proof.
  intros Hh Hcl. eapply wp_bio; [apply (brelse_spec (txn s) _ h b); [apply Hwf|done|done]|].
  intros _ b' t (Hwf' & Hd & Hp & Hv & Hheld & _). split; [by apply same_after|].
  split_and!; try done. unfold block_clean; simpl. intros b''. by rewrite Hd, Hv.
Qed.

Lemma begin_op_law : txn_idle s ->
  wp begin_op s (fun _ s' =>
    log_wf s' /\ (forall b, home s b <-> home s' b) /\ txn_open s' /\
    (forall b', bview (l_bio s') b' = bview (l_bio s) b') /\
    held (l_bio s') = held (l_bio s) /\ txn s' = ∅).
Proof.
  intros (Ho & Hc & Hn). eapply wpt_mono; [apply begin_op_spec; [done|rewrite Hn, Ho; vm_compute; done]|].
  intros _ s' t [-> _]. rewrite Ho. split_and!; try done.
  - replace (set_outstanding (0 + 1) s) with (set_committing false (set_outstanding 1 s)).
    + by apply log_wf_flags.
    + destruct s; simpl in *. by subst.
  - unfold txn, logged. simpl. by rewrite Hn.
Qed.

Lemma end_op_law : txn_open s -> held (l_bio s) = ∅ -> Z.of_nat (size (txn s)) < LOGBLOCKS ->
  wp end_op s (fun _ s' =>
    log_wf s' /\ (forall b, home s b <-> home s' b) /\ txn_idle s' /\
    (forall b', home s b' -> bview (l_bio s') b' = bview (l_bio s) b') /\
    held (l_bio s') = ∅ /\ txn s' = ∅).
Proof.
  intros [Ho Hc] Hh Hroom. rewrite txn_size in Hroom by done.
  pose proof (lg_n _ (lw_geom _ Hwf)) as Hn.
  eapply wpt_mono; [apply end_op_last; (done || lia)|].
  intros _ s' t (Hwf' & Hn' & Hh' & Hs' & Ho' & Hc' & _ & Hd' & Hdom & _).
  assert (forall b, home s b <-> home s' b) as Hhome
    by (intros b; unfold home, in_log; by rewrite Hs', Hdom).
  split_and!; try done.
  - split_and!; [done|by rewrite Hc'|done].
  - intros b [Hb Hnl]. specialize (Hd' b Hb Hnl). rewrite (clean_view (txn s')).
    + by apply lookup_total_correct.
    + apply Hwf'.
    + by rewrite heldset_empty.
    + unfold txn, logged. rewrite Hn'. set_solver.
  - unfold txn, logged. by rewrite Hn'.
Qed.
End laws.

#[export] Instance log_block_laws : BlockLaws lst := {
  bl_wf := log_wf;
  bl_view s := bview (l_bio s);
  bl_held s := held (l_bio s);
  bl_txn := txn;
  bl_home := home;
  bl_open := txn_open;
  bl_idle := txn_idle;
  bl_clean := block_clean;
  bl_home_range s b Hwf := home_range s Hwf b;
  bl_view_ok s b Hwf := home_view_ok s Hwf b;
  bl_bread_law s b Hwf := bread_law s Hwf b;
  bl_data_law s h b Hwf := data_law s Hwf h b;
  bl_set_data_law s h b x Hwf := set_data_law s Hwf h b x;
  bl_log_write_law s h b Hwf := log_write_law s Hwf h b;
  bl_brelse_law s h b Hwf := brelse_law s Hwf h b;
  bl_begin_op_law s Hwf := begin_op_law s Hwf;
  bl_end_op_law s Hwf := end_op_law s Hwf }.
