(* ===== verification/Fs.v ===== *)
(** * File system ([kernel/fs.c])

    Superblock, block allocator, inodes and their in-memory table, file
    contents, directories and path names.  The definitions are generic in the
    block layer [D] and in user memory [U]; an in-memory inode is an index
    into [f_itable], and a NULL inode pointer is [None]. *)
From stdpp Require Import pretty.
From S2P Require Import Prelude Params Sleeplock CString Interfaces.

Record superblock : Set := mkSb {
  sb_magic : Z; sb_size : Z; sb_nblocks : Z; sb_ninodes : Z;
  sb_nlog : Z; sb_logstart : Z; sb_inodestart : Z; sb_bmapstart : Z }.

Record inode : Set := mkInode {
  i_dev : Z; i_inum : Z; i_ref : Z; i_lock : sleeplock; i_valid : bool;
  i_type : Z; i_major : Z; i_minor : Z; i_nlink : Z; i_size : Z; i_addrs : list Z }.

Definition inode0 : inode :=
  mkInode 0 0 0 initsleeplock false 0 0 0 0 0 (replicate (Z.to_nat (NDIRECT + 1)) 0).
#[export] Instance inode_inhabited : Inhabited inode := populate inode0.

Definition set_iref (r : Z) (i : inode) : inode :=
  mkInode (i_dev i) (i_inum i) r (i_lock i) (i_valid i) (i_type i) (i_major i) (i_minor i)
    (i_nlink i) (i_size i) (i_addrs i).
Definition set_ilock (lk : sleeplock) (i : inode) : inode :=
  mkInode (i_dev i) (i_inum i) (i_ref i) lk (i_valid i) (i_type i) (i_major i) (i_minor i)
    (i_nlink i) (i_size i) (i_addrs i).
Definition set_ivalid (v : bool) (i : inode) : inode :=
  mkInode (i_dev i) (i_inum i) (i_ref i) (i_lock i) v (i_type i) (i_major i) (i_minor i)
    (i_nlink i) (i_size i) (i_addrs i).
Definition set_itype (t : Z) (i : inode) : inode :=
  mkInode (i_dev i) (i_inum i) (i_ref i) (i_lock i) (i_valid i) t (i_major i) (i_minor i)
    (i_nlink i) (i_size i) (i_addrs i).
Definition set_inlink (n : Z) (i : inode) : inode :=
  mkInode (i_dev i) (i_inum i) (i_ref i) (i_lock i) (i_valid i) (i_type i) (i_major i) (i_minor i)
    n (i_size i) (i_addrs i).
Definition set_idev (major minor : Z) (i : inode) : inode :=
  mkInode (i_dev i) (i_inum i) (i_ref i) (i_lock i) (i_valid i) (i_type i) major minor
    (i_nlink i) (i_size i) (i_addrs i).
Definition set_isize (n : Z) (i : inode) : inode :=
  mkInode (i_dev i) (i_inum i) (i_ref i) (i_lock i) (i_valid i) (i_type i) (i_major i) (i_minor i)
    (i_nlink i) n (i_addrs i).
Definition set_iaddr (k : Z) (a : Z) (i : inode) : inode :=
  mkInode (i_dev i) (i_inum i) (i_ref i) (i_lock i) (i_valid i) (i_type i) (i_major i) (i_minor i)
    (i_nlink i) (i_size i) (<[Z.to_nat k := a]> (i_addrs i)).
Definition i_addr (i : inode) (k : Z) : Z := i_addrs i !!! Z.to_nat k.

(** [struct dinode] at byte offset [off] of a block. *)
Definition dinode_off (inum : Z) : Z := inum `mod` IPB * DINODE_SIZE.
Definition di_type (d : bytes) (off : Z) : Z := get_i16 d off.
Definition di_major (d : bytes) (off : Z) : Z := get_i16 d (off + 2).
Definition di_minor (d : bytes) (off : Z) : Z := get_i16 d (off + 4).
Definition di_nlink (d : bytes) (off : Z) : Z := get_i16 d (off + 6).
Definition di_size (d : bytes) (off : Z) : Z := get_u32 d (off + 8).
Definition di_addr (d : bytes) (off k : Z) : Z := get_u32 d (off + 12 + 4 * k).

(** The fields [ilock] copies into the in-memory inode. *)
Definition load_dinode (d : bytes) (off : Z) (i : inode) : inode :=
  mkInode (i_dev i) (i_inum i) (i_ref i) (i_lock i) (i_valid i)
    (di_type d off) (di_major d off) (di_minor d off) (di_nlink d off) (di_size d off)
    (di_addr d off <$> seqZ 0 (NDIRECT + 1)).

(** The fields [iupdate] copies to the disk inode. *)
Definition put_addrs (addrs : list Z) (off : Z) (d : bytes) : bytes :=
  foldl (fun d k => put_u32 d (off + 12 + 4 * Z.of_nat k) (addrs !!! k)) d
    (seq 0 (Z.to_nat (NDIRECT + 1))).
Definition store_dinode (i : inode) (off : Z) (d : bytes) : bytes :=
  let d := put_u16 d off (i_type i) in
  let d := put_u16 d (off + 2) (i_major i) in
  let d := put_u16 d (off + 4) (i_minor i) in
  let d := put_u16 d (off + 6) (i_nlink i) in
  let d := put_u32 d (off + 8) (i_size i) in
  put_addrs (i_addrs i) off d.

(** Bitmap bits. *)
Definition bit_mask (bi : Z) : Z := Z.shiftl 1 (bi `mod` 8).
Definition bit_clear (d : bytes) (bi : Z) : bool :=
  Z.land (d !!! Z.to_nat (bi / 8)) (bit_mask bi) =? 0.
Definition set_bit (d : bytes) (bi : Z) : bytes :=
  <[Z.to_nat (bi / 8) := u8 (Z.lor (d !!! Z.to_nat (bi / 8)) (bit_mask bi))]> d.
Definition clear_bit (d : bytes) (bi : Z) : bytes :=
  <[Z.to_nat (bi / 8) := u8 (Z.land (d !!! Z.to_nat (bi / 8)) (Z.lnot (bit_mask bi)))]> d.

(** The first clear bit among the n bits from bi. *)
Fixpoint find_clear (d : bytes) (n : nat) (bi : Z) : option Z :=
  match n with
  | O => None
  | S n => if bit_clear d bi then Some bi else find_clear d n (bi + 1)
  end.

Definition namecmp (s t : bytes) : Z := strncmp (Z.to_nat DIRSIZ) (str_at s) (str_at t).

(** Path elements.  [path] is the C string's bytes, [name] the caller's buffer. *)
Definition SLASH : Z := 47.
Fixpoint skip_slashes (path : bytes) : bytes :=
  match path with
  | c :: rest => if c =? SLASH then skip_slashes rest else path
  | [] => []
  end.
Fixpoint elem_of_path (path : bytes) : bytes * bytes :=
  match path with
  | c :: rest => if c =? SLASH then ([], path)
                 else let '(e, r) := elem_of_path rest in (c :: e, r)
  | [] => ([], [])
  end.
Definition skipelem (path name : bytes) : option (bytes * bytes) :=
  match skip_slashes path with
  | [] => None
  | s =>
      let '(elem, path) := elem_of_path s in
      let len := Z.of_nat (length elem) in
      let name := if DIRSIZ <=? len then splice name 0 (take (Z.to_nat DIRSIZ) elem)
                  else splice name 0 (elem ++ [0]) in
      Some (skip_slashes path, name)
  end.

(** [struct dirent]: a 16-bit inode number and a name. *)
Definition de_inum (de : bytes) : Z := get_u16 de 0.
Definition de_name (de : bytes) : bytes := drop 2 de.
Definition mk_dirent (inum : Z) (name : bytes) : bytes :=
  to_le 2 inum ++ strncpy (Z.to_nat DIRSIZ) (str_at name).

(** Where [readi] puts data and [writei] takes it from: a user address, or a
    kernel buffer (its bytes are returned, respectively given). *)
Inductive copy_dst : Set := UserDst (va : Z) | KernDst.
Inductive copy_src : Set := UserSrc (va : Z) | KernSrc (bs : bytes).

Section fs.
Context {D U : Type} `{BlockOps D} `{UserMem U}.

Record fstate : Type := mkFs {
  f_blk : D;                (* buffer cache, log and disk *)
  f_user : U;               (* myproc()'s user memory *)
  f_sb : superblock;        (* sb *)
  f_itable : list inode;    (* itable.inode[NINODE] *)
  f_cwd : nat;              (* myproc()->cwd *)
  f_pid : Z }.              (* myproc()->pid *)

Definition set_blk (d : D) (s : fstate) : fstate :=
  mkFs d (f_user s) (f_sb s) (f_itable s) (f_cwd s) (f_pid s).
Definition set_user (u : U) (s : fstate) : fstate :=
  mkFs (f_blk s) u (f_sb s) (f_itable s) (f_cwd s) (f_pid s).
Definition set_sb (sb : superblock) (s : fstate) : fstate :=
  mkFs (f_blk s) (f_user s) sb (f_itable s) (f_cwd s) (f_pid s).
Definition set_itable (t : list inode) (s : fstate) : fstate :=
  mkFs (f_blk s) (f_user s) (f_sb s) t (f_cwd s) (f_pid s).

Definition blk {A} (m : M D A) : M fstate A := zoom f_blk set_blk m.
Definition user {A} (m : M U A) : M fstate A := zoom f_user set_user m.

Definition inode_at (ip : nat) (s : fstate) : inode := f_itable s !!! ip.
Definition modify_inode (ip : nat) (f : inode -> inode) : M fstate unit :=
  modify (fun s => set_itable (alter f ip (f_itable s)) s).
Definition with_ilock {A} (ip : nat) (m : M sleeplock A) : M fstate A :=
  zoom (fun s => i_lock (inode_at ip s))
    (fun lk s => set_itable (alter (set_ilock lk) ip (f_itable s)) s) m.

Definition IBLOCK (i : Z) (sb : superblock) : Z := u32 (i / IPB + sb_inodestart sb).
Definition BBLOCK (b : Z) (sb : superblock) : Z := u32 (b / BPB + sb_bmapstart sb).

(** ** Super block and blocks *)

Definition decode_sb (d : bytes) : superblock :=
  mkSb (get_u32 d 0) (get_u32 d 4) (get_u32 d 8) (get_u32 d 12)
    (get_u32 d 16) (get_u32 d 20) (get_u32 d 24) (get_u32 d 28).

Definition readsb (dev : Z) : M fstate unit :=
  let! bp := blk (bl_bread dev 1) in
  let! d := blk (bl_data bp) in
  modify (set_sb (decode_sb d)) ;;;
  blk (bl_brelse bp).

Definition bzero (dev bno : Z) : M fstate unit :=
  let! bp := blk (bl_bread dev (u32 bno)) in
  blk (bl_set_data bp zero_block) ;;;
  blk (bl_log_write bp) ;;;
  blk (bl_brelse bp).

(** One bitmap block per iteration: [for(b = 0; b < sb.size; b += BPB)]. *)
Definition balloc (dev : Z) : M fstate Z :=
  let! sb := gets f_sb in
  let! r := for_from (Z.to_nat ((sb_size sb + BPB - 1) / BPB)) 0 (fun k =>
    let b := k * BPB in
    let! bp := blk (bl_bread dev (BBLOCK b sb)) in
    let! d := blk (bl_data bp) in
    match find_clear d (Z.to_nat (Z.min BPB (sb_size sb - b))) 0 with
    | Some bi =>
        blk (bl_set_data bp (set_bit d bi)) ;;;
        blk (bl_log_write bp) ;;;
        blk (bl_brelse bp) ;;;
        bzero dev (b + bi) ;;;
        ret (Some (b + bi))
    | None => blk (bl_brelse bp) ;;; ret None
    end) in
  match r with
  | Some b => ret b
  | None => emit (Print "balloc: out of blocks") ;;; ret 0
  end.

Definition bfree (dev b : Z) : M fstate unit :=
  let! sb := gets f_sb in
  let! bp := blk (bl_bread dev (BBLOCK b sb)) in
  let bi := b `mod` BPB in
  let! d := blk (bl_data bp) in
  if bit_clear d bi then panic "freeing free block"
  else
    blk (bl_set_data bp (clear_bit d bi)) ;;;
    blk (bl_log_write bp) ;;;
    blk (bl_brelse bp).

(** ** Inodes *)

Definition iinit : M fstate unit :=
  modify (fun s => set_itable (set_ilock initsleeplock <$> f_itable s) s).

Definition iget_hit (dev inum : Z) (i : inode) : bool :=
  (0 <? i_ref i) && (i_dev i =? dev) && (i_inum i =? inum).

Definition iget (dev inum : Z) : M fstate nat :=
  let! t := gets f_itable in
  match list_find (fun i => iget_hit dev inum i) t with
  | Some (ip, _) => modify_inode ip (fun i => set_iref (i_ref i + 1) i) ;;; ret ip
  | None =>
      match list_find (fun i => i_ref i = 0) t with
      | None => panic "iget: no inodes"
      | Some (ip, _) =>
          modify_inode ip (fun i =>
            mkInode dev inum 1 (i_lock i) false (i_type i) (i_major i) (i_minor i)
              (i_nlink i) (i_size i) (i_addrs i)) ;;;
          ret ip
      end
  end.

Definition idup (ip : nat) : M fstate nat :=
  modify_inode ip (fun i => set_iref (i_ref i + 1) i) ;;; ret ip.

Definition ialloc (dev type : Z) : M fstate (option nat) :=
  let! sb := gets f_sb in
  let! r := for_from (Z.to_nat (sb_ninodes sb - 1)) 1 (fun inum =>
    let! bp := blk (bl_bread dev (IBLOCK inum sb)) in
    let! d := blk (bl_data bp) in
    let off := dinode_off inum in
    if di_type d off =? 0 then
      let d := splice d (Z.to_nat off) (replicate (Z.to_nat DINODE_SIZE) 0) in
      blk (bl_set_data bp (put_u16 d off type)) ;;;
      blk (bl_log_write bp) ;;;
      blk (bl_brelse bp) ;;;
      let! ip := iget dev inum in
      ret (Some ip)
    else blk (bl_brelse bp) ;;; ret None) in
  match r with
  | Some ip => ret (Some ip)
  | None => emit (Print "ialloc: no inodes") ;;; ret None
  end.

Definition iupdate (ip : nat) : M fstate unit :=
  let! i := gets (inode_at ip) in
  let! sb := gets f_sb in
  let! bp := blk (bl_bread (i_dev i) (IBLOCK (i_inum i) sb)) in
  let! d := blk (bl_data bp) in
  blk (bl_set_data bp (store_dinode i (dinode_off (i_inum i)) d)) ;;;
  blk (bl_log_write bp) ;;;
  blk (bl_brelse bp).

Definition ilock (ip : option nat) : M fstate unit :=
  match ip with
  | None => panic "ilock"
  | Some ip =>
      let! i := gets (inode_at ip) in
      if i_ref i <? 1 then panic "ilock"
      else
        let! pid := gets f_pid in
        with_ilock ip (acquiresleep (ChSleeplock "inode" ip) pid) ;;;
        when (negb (i_valid i))
          (let! sb := gets f_sb in
           let! bp := blk (bl_bread (i_dev i) (IBLOCK (i_inum i) sb)) in
           let! d := blk (bl_data bp) in
           modify_inode ip (load_dinode d (dinode_off (i_inum i))) ;;;
           blk (bl_brelse bp) ;;;
           modify_inode ip (set_ivalid true) ;;;
           let! i := gets (inode_at ip) in
           if i_type i =? 0 then panic "ilock: no type" else ret tt)
  end.

Definition iunlock (ip : option nat) : M fstate unit :=
  match ip with
  | None => panic "iunlock"
  | Some ip =>
      let! i := gets (inode_at ip) in
      let! pid := gets f_pid in
      if negb (holdingsleep pid (i_lock i)) || (i_ref i <? 1) then panic "iunlock"
      else with_ilock ip (releasesleep (ChSleeplock "inode" ip))
  end.

(** [a[j]] of an indirect block. *)
Definition ind_get (d : bytes) (j : Z) : Z := get_u32 d (4 * j).
Definition ind_put (d : bytes) (j a : Z) : bytes := put_u32 d (4 * j) a.

Definition bmap (ip : nat) (bn : Z) : M fstate Z :=
  let! i := gets (inode_at ip) in
  if bn <? NDIRECT then
    if i_addr i bn =? 0 then
      let! addr := balloc (i_dev i) in
      if addr =? 0 then ret 0
      else modify_inode ip (set_iaddr bn addr) ;;; ret addr
    else ret (i_addr i bn)
  else
    let bn := bn - NDIRECT in
    if bn <? NINDIRECT then
      let! addr :=
        if i_addr i NDIRECT =? 0 then
          let! addr := balloc (i_dev i) in
          when (negb (addr =? 0)) (modify_inode ip (set_iaddr NDIRECT addr)) ;;;
          ret addr
        else ret (i_addr i NDIRECT) in
      if addr =? 0 then ret 0
      else
        let! bp := blk (bl_bread (i_dev i) addr) in
        let! d := blk (bl_data bp) in
        let! addr :=
          if ind_get d bn =? 0 then
            let! addr := balloc (i_dev i) in
            when (negb (addr =? 0))
              (let! d := blk (bl_data bp) in
               blk (bl_set_data bp (ind_put d bn addr)) ;;;
               blk (bl_log_write bp)) ;;;
            ret addr
          else ret (ind_get d bn) in
        blk (bl_brelse bp) ;;;
        ret addr
    else panic "bmap: out of range".

Definition itrunc (ip : nat) : M fstate unit :=
  iter NDIRECT (fun k =>
    let! i := gets (inode_at ip) in
    when (negb (i_addr i k =? 0))
      (bfree (i_dev i) (i_addr i k) ;;;
       modify_inode ip (set_iaddr k 0))) ;;;
  let! i := gets (inode_at ip) in
  when (negb (i_addr i NDIRECT =? 0))
    (let! bp := blk (bl_bread (i_dev i) (i_addr i NDIRECT)) in
     iter NINDIRECT (fun j =>
       let! d := blk (bl_data bp) in
       when (negb (ind_get d j =? 0)) (bfree (i_dev i) (ind_get d j))) ;;;
     blk (bl_brelse bp) ;;;
     bfree (i_dev i) (i_addr i NDIRECT) ;;;
     modify_inode ip (set_iaddr NDIRECT 0)) ;;;
  modify_inode ip (set_isize 0) ;;;
  iupdate ip.

Definition iput (ip : nat) : M fstate unit :=
  let! i := gets (inode_at ip) in
  let! pid := gets f_pid in
  when ((i_ref i =? 1) && i_valid i && (i_nlink i =? 0))
    (with_ilock ip (acquiresleep (ChSleeplock "inode" ip) pid) ;;;
     itrunc ip ;;;
     modify_inode ip (set_itype 0) ;;;
     iupdate ip ;;;
     modify_inode ip (set_ivalid false) ;;;
     with_ilock ip (releasesleep (ChSleeplock "inode" ip))) ;;;
  modify_inode ip (fun i => set_iref (i_ref i - 1) i).

Definition iunlockput (ip : nat) : M fstate unit :=
  iunlock (Some ip) ;;;
  iput ip.

Definition ireclaim (dev : Z) : M fstate unit :=
  let! sb := gets f_sb in
  iter (sb_ninodes sb - 1) (fun k =>
    let inum := k + 1 in
    let! bp := blk (bl_bread dev (IBLOCK inum sb)) in
    let! d := blk (bl_data bp) in
    let off := dinode_off inum in
    let! ip :=
      if negb (di_type d off =? 0) && (di_nlink d off =? 0) then
        emit (Print ("ireclaim: orphaned inode " ++ pretty inum)) ;;;
        let! ip := iget dev inum in
        ret (Some ip)
      else ret None in
    blk (bl_brelse bp) ;;;
    match ip with
    | Some ip =>
        blk bl_begin_op ;;;
        ilock (Some ip) ;;;
        iunlock (Some ip) ;;;
        iput ip ;;;
        blk bl_end_op
    | None => ret tt
    end).

Definition fsinit (dev : Z) : M fstate unit :=
  readsb dev ;;;
  let! sb := gets f_sb in
  if negb (sb_magic sb =? FSMAGIC) then panic "invalid file system"
  else
    blk (bl_initlog dev (sb_logstart sb)) ;;;
    ireclaim dev.

(** [struct stat], as [stati] fills it. *)
Record stat : Set := mkStat { st_dev : Z; st_ino : Z; st_type : Z; st_nlink : Z; st_size : Z }.
Definition stati (i : inode) : stat :=
  mkStat (i32 (i_dev i)) (i_inum i) (i_type i) (i_nlink i) (i_size i).

(** ** File contents *)

Definition either_copyout (dst : copy_dst) (tot : Z) (bs : bytes) : M fstate Z :=
  match dst with
  | UserDst va => user (um_copyout (u64 (va + tot)) bs)
  | KernDst => ret 0
  end.

(** The bytes stored at the destination are returned with the status. *)
Definition either_copyin (src : copy_src) (tot n : Z) : M fstate (Z * bytes) :=
  match src with
  | UserSrc va => user (um_copyin (u64 (va + tot)) n)
  | KernSrc bs => ret (0, slice bs (Z.to_nat tot) (Z.to_nat n))
  end.

(** The copy loops of [readi] and [writei].  Each iteration moves [m >= 1]
    bytes up to a block boundary, so [n / BSIZE + 2] iterations are enough. *)
Definition chunk (n tot off : Z) : Z := Z.min (n - tot) (BSIZE - off `mod` BSIZE).
Definition copy_fuel (n : Z) : nat := Z.to_nat (n / BSIZE + 2).

Fixpoint readi_loop (fuel : nat) (ip : nat) (dst : copy_dst) (off n tot : Z) (acc : bytes)
    : M fstate (Z * bytes) :=
  if tot <? n then
    match fuel with
    | O => undefined_behaviour "readi: fuel"
    | S fuel =>
        let! addr := bmap ip (off / BSIZE) in
        if addr =? 0 then ret (tot, acc)
        else
          let! i := gets (inode_at ip) in
          let! bp := blk (bl_bread (i_dev i) addr) in
          let m := chunk n tot off in
          let! d := blk (bl_data bp) in
          let bs := slice d (Z.to_nat (off `mod` BSIZE)) (Z.to_nat m) in
          let! r := either_copyout dst tot bs in
          if r =? -1 then blk (bl_brelse bp) ;;; ret (-1, acc)
          else
            blk (bl_brelse bp) ;;;
            readi_loop fuel ip dst (u32 (off + m)) n (tot + m) (acc ++ bs)
    end
  else ret (tot, acc).

(** The result is the return value and, for a kernel destination, the bytes
    stored there. *)
Definition readi (ip : nat) (dst : copy_dst) (off n : Z) : M fstate (Z * bytes) :=
  let! i := gets (inode_at ip) in
  if (i_size i <? off) || (u32 (off + n) <? off) then ret (0, [])
  else
    let n := if i_size i <? u32 (off + n) then i_size i - off else n in
    readi_loop (copy_fuel n) ip dst off n 0 [].

(** The result carries [tot] and the offset reached. *)
Fixpoint writei_loop (fuel : nat) (ip : nat) (src : copy_src) (off n tot : Z) : M fstate (Z * Z) :=
  if tot <? n then
    match fuel with
    | O => undefined_behaviour "writei: fuel"
    | S fuel =>
        let! addr := bmap ip (off / BSIZE) in
        if addr =? 0 then ret (tot, off)
        else
          let! i := gets (inode_at ip) in
          let! bp := blk (bl_bread (i_dev i) addr) in
          let m := chunk n tot off in
          let! r := either_copyin src tot m in
          let! d := blk (bl_data bp) in
          blk (bl_set_data bp (splice d (Z.to_nat (off `mod` BSIZE)) r.2)) ;;;
          if r.1 =? -1 then blk (bl_brelse bp) ;;; ret (tot, off)
          else
            blk (bl_log_write bp) ;;;
            blk (bl_brelse bp) ;;;
            writei_loop fuel ip src (u32 (off + m)) n (tot + m)
    end
  else ret (tot, off).

Definition writei (ip : nat) (src : copy_src) (off n : Z) : M fstate Z :=
  let! i := gets (inode_at ip) in
  if (i_size i <? off) || (u32 (off + n) <? off) then ret (-1)
  else if MAXFILE * BSIZE <? u32 (off + n) then ret (-1)
  else
    let! r := writei_loop (copy_fuel n) ip src off n 0 in
    let! i := gets (inode_at ip) in
    when (i_size i <? r.2) (modify_inode ip (set_isize r.2)) ;;;
    iupdate ip ;;;
    ret r.1.

(** ** Directories *)

Definition dirents (size : Z) : nat := Z.to_nat ((size + DIRENT_SIZE - 1) / DIRENT_SIZE).

(** The inode and the offset [*poff]. *)
Definition dirlookup (dp : nat) (name : bytes) : M fstate (option (nat * Z)) :=
  let! i := gets (inode_at dp) in
  if negb (i_type i =? T_DIR) then panic "dirlookup not DIR"
  else
    for_from (dirents (i_size i)) 0 (fun k =>
      let off := k * DIRENT_SIZE in
      let! r := readi dp KernDst off DIRENT_SIZE in
      if negb (r.1 =? DIRENT_SIZE) then panic "dirlookup read"
      else
        let de := r.2 in
        if de_inum de =? 0 then ret None
        else if namecmp name (de_name de) =? 0 then
          let! ip := iget (i_dev i) (de_inum de) in
          ret (Some (ip, off))
        else ret None).

Definition dirlink (dp : nat) (name : bytes) (inum : Z) : M fstate Z :=
  let! r := dirlookup dp name in
  match r with
  | Some (ip, _) => iput ip ;;; ret (-1)
  | None =>
      let! i := gets (inode_at dp) in
      let! empty := for_from (dirents (i_size i)) 0 (fun k =>
        let off := k * DIRENT_SIZE in
        let! r := readi dp KernDst off DIRENT_SIZE in
        if negb (r.1 =? DIRENT_SIZE) then panic "dirlink read"
        else if de_inum r.2 =? 0 then ret (Some off) else ret None) in
      let off := match empty with
                 | Some off => off
                 | None => Z.of_nat (dirents (i_size i)) * DIRENT_SIZE
                 end in
      let! w := writei dp (KernSrc (mk_dirent inum name)) off DIRENT_SIZE in
      if negb (w =? DIRENT_SIZE) then ret (-1) else ret 0
  end.

(** ** Paths *)

(** [namex]'s loop consumes one element of [path] per iteration. *)
Fixpoint namex_loop (fuel : nat) (ip : nat) (path : bytes) (parent : bool) (name : bytes)
    : M fstate (option nat * bytes) :=
  match skipelem path name with
  | None =>
      if parent then iput ip ;;; ret (None, name)
      else ret (Some ip, name)
  | Some (path, name) =>
      match fuel with
      | O => undefined_behaviour "namex: fuel"
      | S fuel =>
          ilock (Some ip) ;;;
          let! i := gets (inode_at ip) in
          if negb (i_type i =? T_DIR) then iunlockput ip ;;; ret (None, name)
          else if parent && bool_decide (path = []) then
            iunlock (Some ip) ;;; ret (Some ip, name)
          else
            let! next := dirlookup ip name in
            match next with
            | None => iunlockput ip ;;; ret (None, name)
            | Some (next, _) => iunlockput ip ;;; namex_loop fuel next path parent name
            end
      end
  end.

Definition namex (path : bytes) (parent : bool) (name : bytes) : M fstate (option nat * bytes) :=
  let! ip :=
    match path with
    | c :: _ => if c =? SLASH then iget ROOTDEV ROOTINO else let! cwd := gets f_cwd in idup cwd
    | [] => let! cwd := gets f_cwd in idup cwd
    end in
  namex_loop (length path) ip path parent name.

Definition name0 : bytes := replicate (Z.to_nat DIRSIZ) 0.

Definition namei (path : bytes) : M fstate (option nat) :=
  let! r := namex path false name0 in ret r.1.
Definition nameiparent (path name : bytes) : M fstate (option nat * bytes) := namex path true name.
End fs.
