(* ===== verification/FsBlocks.v ===== *)
(** * Block allocator: proofs

    Reasoning about the file system's block updates against [BlockLaws], and
    the correctness of [balloc], [bfree] and [bzero] on the free bitmap. *)
From S2P Require Import Prelude Params Sleeplock CString Interfaces Fs.

(** ** Bitmap bits *)

Lemma land_bit x k : 0 <= k -> (Z.land x (Z.shiftl 1 k) =? 0) = negb (Z.testbit x k).
Proof.
  intros Hk. rewrite Z.shiftl_1_l. destruct (Z.testbit x k) eqn:Hb; simpl.
  - apply Z.eqb_neq. intros H0. apply (f_equal (fun z => Z.testbit z k)) in H0.
    rewrite Z.land_spec, Hb, Z.pow2_bits_true, Z.bits_0 in H0 by lia. done.
  - apply Z.eqb_eq. apply Z.bits_inj'. intros j Hj. rewrite Z.land_spec, Z.bits_0.
    destruct (decide (j = k)) as [->|]; [by rewrite Hb|].
    rewrite Z.pow2_bits_false by lia. by rewrite andb_false_r.
Qed.

(** The bit of block [bi] in a bitmap block. *)
Definition bit_at (d : bytes) (bi : Z) : bool := Z.testbit (d !!! Z.to_nat (bi / 8)) (bi `mod` 8).

Lemma bit_clear_at d bi : bit_clear d bi = negb (bit_at d bi).
Proof. apply land_bit. apply Z.mod_pos_bound. lia. Qed.

Lemma byte_bits_high x j : is_byte x -> 8 <= j -> Z.testbit x j = false.
Proof.
  intros [H0 H1] Hj. destruct (decide (x = 0)) as [->|]; [apply Z.bits_0|].
  apply Z.bits_above_log2; [done|]. apply Z.lt_le_trans with 8; [|done].
  apply Z.log2_lt_pow2; [lia|done].
Qed.

Lemma u8_testbit x j : 0 <= j < 8 -> Z.testbit (u8 x) j = Z.testbit x j.
Proof. intros. unfold u8. by rewrite Z.mod_pow2_bits_low by lia. Qed.

Lemma u8_byte x : is_byte (u8 x).
Proof. unfold is_byte. pose proof (u8_bound x). lia. Qed.

Section bits.
Context (d : bytes) (bi : Z) (Hd : block_ok d) (Hbi : 0 <= bi < BPB).

Lemma bit_index : (Z.to_nat (bi / 8) < length d)%nat.
Proof.
  destruct Hd as [-> _]. pose proof (Z.div_lt_upper_bound bi 8 1024). klia.
Qed.

Lemma update_bit (g : Z -> Z) (v : bool) bj :
  (forall x j, 0 <= j < 8 -> Z.testbit (g x) j = if decide (j = bi `mod` 8) then v else Z.testbit x j) ->
  0 <= bj < BPB ->
  bit_at (<[Z.to_nat (bi / 8) := u8 (g (d !!! Z.to_nat (bi / 8)))]> d) bj =
    if decide (bj = bi) then v else bit_at d bj.
Proof.
  intros Hg Hbj. unfold bit_at. pose proof bit_index as Hidx.
  pose proof (Z.mod_pos_bound bj 8). pose proof (Z.mod_pos_bound bi 8).
  pose proof (Z_div_mod_eq_full bj 8). pose proof (Z_div_mod_eq_full bi 8).
  assert (0 <= bi / 8 /\ 0 <= bj / 8) as [??] by (split; apply Z.div_pos; lia).
  destruct (decide (bj / 8 = bi / 8)) as [He|He].
  - rewrite He, list_lookup_total_insert_eq by done. rewrite u8_testbit, Hg by lia.
    destruct (decide (bj = bi)) as [->|]; [by rewrite decide_True|]. rewrite decide_False by lia.
    done.
  - rewrite list_lookup_total_insert_ne by lia. rewrite decide_False; [done|]. by intros ->.
Qed.

Lemma set_bit_at bj : 0 <= bj < BPB ->
  bit_at (set_bit d bi) bj = if decide (bj = bi) then true else bit_at d bj.
Proof.
  apply (update_bit (fun x => Z.lor x (bit_mask bi))). intros x j Hj.
  unfold bit_mask. rewrite Z.shiftl_1_l, Z.lor_spec. pose proof (Z.mod_pos_bound bi 8).
  case_decide as He; [by rewrite He, Z.pow2_bits_true, orb_true_r by lia|].
  by rewrite Z.pow2_bits_false, orb_false_r by lia.
Qed.

Lemma clear_bit_at bj : 0 <= bj < BPB ->
  bit_at (clear_bit d bi) bj = if decide (bj = bi) then false else bit_at d bj.
Proof.
  apply (update_bit (fun x => Z.land x (Z.lnot (bit_mask bi)))). intros x j Hj.
  unfold bit_mask. rewrite Z.shiftl_1_l, Z.land_spec, Z.lnot_spec by lia. pose proof (Z.mod_pos_bound bi 8).
  case_decide as He; [by rewrite He, Z.pow2_bits_true, andb_false_r by lia|].
  by rewrite Z.pow2_bits_false, andb_true_r by lia.
Qed.

Lemma insert_block_ok i x : is_byte x -> block_ok (<[i := x]> d).
Proof.
  destruct Hd as [Hl Hb]. intros Hx. split; [by rewrite length_insert|]. by apply Forall_insert.
Qed.

Lemma set_bit_ok : block_ok (set_bit d bi).
Proof. apply insert_block_ok, u8_byte. Qed.
Lemma clear_bit_ok : block_ok (clear_bit d bi).
Proof. apply insert_block_ok, u8_byte. Qed.
End bits.

Lemma find_clear_spec d n bi :
  match find_clear d n bi with
  | Some k => bi <= k < bi + Z.of_nat n /\ bit_at d k = false /\
              forall j, bi <= j < k -> bit_at d j = true
  | None => forall j, bi <= j < bi + Z.of_nat n -> bit_at d j = true
  end.
Proof.
  revert bi. induction n as [|n IH]; intros bi; cbn [find_clear]; [lia|].
  rewrite bit_clear_at. destruct (bit_at d bi) eqn:Hb; cbn [negb].
  - specialize (IH (bi + 1)). destruct (find_clear d n (bi + 1)) as [k|].
    + destruct IH as (Hk & Hc & Hpre). split; [lia|]. split; [done|].
      intros j Hj. destruct (decide (j = bi)) as [->|]; [done|]. apply Hpre. lia.
    + intros j Hj. destruct (decide (j = bi)) as [->|]; [done|]. apply IH. lia.
  - split; [lia|]. split; [done|]. lia.
Qed.

(** ** Block updates *)

Section blocks.
Context {D U : Type} `{BlockLaws D} `{UserMem U}.
Implicit Types (d : D) (s : @fstate D U).

(** A block was read into the free buffer [h]. *)
Definition got d d1 (h : nat) (b : Z) : Prop :=
  bl_same d d1 /\ (forall b', bl_view d1 b' = bl_view d b') /\
  bl_held d !! h = None /\ bl_held d1 = <[h := b]> (bl_held d) /\ bl_txn d1 = bl_txn d /\
  (b ∉ bl_txn d -> bl_clean d1 b) /\ (forall b', bl_clean d b' -> bl_clean d1 b').

(** Nothing changed but the cache. *)
Definition ro_post d d' : Prop :=
  bl_same d d' /\ (forall b', bl_view d' b' = bl_view d b') /\
  bl_held d' = bl_held d /\ bl_txn d' = bl_txn d /\ (forall b', bl_clean d b' -> bl_clean d' b').

(** Block [b] now holds [x], as part of the transaction. *)
Definition upd_post d d' (b : Z) (x : bytes) : Prop :=
  bl_same d d' /\ (forall b', bl_view d' b' = if decide (b' = b) then x else bl_view d b') /\
  bl_held d' = bl_held d /\ bl_txn d' = {[b]} ∪ bl_txn d /\
  (forall b', b' <> b -> bl_clean d b' -> bl_clean d' b').

Lemma same_trans d1 d2 d3 : bl_same d1 d2 -> bl_same d2 d3 -> bl_same d1 d3.
Proof.
  intros (? & Hh1 & ? & ?) (? & Hh2 & ? & ?). split_and!; [done| |tauto|tauto].
  intros b. by rewrite Hh1.
Qed.

Lemma same_home d d' b : bl_same d d' -> bl_home d b -> bl_home d' b.
Proof. intros (_ & Hh & _) Hb. by apply Hh. Qed.

Lemma same_wf d d' : bl_same d d' -> bl_wf d'.
Proof. by intros (? & _). Qed.

Lemma same_open d d' : bl_same d d' -> bl_open d -> bl_open d'.
Proof. intros (_ & _ & Ho & _). apply Ho. Qed.

Lemma got_held d d1 h b : got d d1 h b -> bl_held d1 !! h = Some b.
Proof. intros (_ & _ & _ & -> & _). apply lookup_insert_eq. Qed.

Lemma wp_blk {A} (m : M D A) s (P : A -> D -> Prop) (Q : A -> fstate -> Prop) :
  wp m (f_blk s) P -> (forall a d, P a d -> Q a (set_blk d s)) -> wp (blk m) s Q.
Proof. intros Hm HQ. apply wp_zoom. eapply wp_mono; [exact Hm|]. exact HQ. Qed.

Lemma set_blk_set_blk d1 d2 s : set_blk d1 (set_blk d2 s) = set_blk d1 s.
Proof. done. Qed.
Lemma set_blk_id s : set_blk (f_blk s) s = s.
Proof. by destruct s. Qed.

(** Reading a block. *)
Definition can_read d (b : Z) : Prop :=
  bl_wf d /\ bl_home d b /\ b ∉ (map_img (bl_held d) : gset Z) /\
  (size (bl_txn d) + size (bl_held d) < NBUF)%nat.

Lemma with_block {A} s b (K : nat -> bytes -> M fstate A) Q :
  can_read (f_blk s) b ->
  (forall h d1, got (f_blk s) d1 h b -> wp (K h (bl_view (f_blk s) b)) (set_blk d1 s) Q) ->
  wp (let! bp := blk (bl_bread ROOTDEV b) in let! x := blk (bl_data bp) in K bp x) s Q.
Proof.
  intros (Hwf & Hh & Hnh & Hroom) HK. apply wp_bind.
  eapply wp_blk; [by apply bl_bread_law|]. intros h d1 Hgot. apply wp_bind.
  pose proof (got_held _ _ _ _ Hgot) as Hheld. pose proof (same_wf _ _ (proj1 Hgot)) as Hwf1.
  eapply wp_blk; [by apply bl_data_law|]. intros x d2 [-> ->]. cbn beta.
  rewrite set_blk_set_blk. change (f_blk (set_blk d1 s)) with d1.
  destruct Hgot as (Hs & Hv & Hrest). rewrite Hv. by apply HK.
Qed.

(** Releasing it unmodified. *)
Lemma put_clean s d d1 h b :
  got d d1 h b ->
  wp (blk (bl_brelse h)) (set_blk d1 s) (fun _ s' => exists d', s' = set_blk d' s /\ ro_post d d').
Proof.
  intros Hgot. pose proof (got_held _ _ _ _ Hgot) as Hheld.
  destruct Hgot as (Hsame & Hv & Hnone & Hh & Ht & Hc & Hcm).
  eapply wp_blk; [apply (bl_brelse_law d1 h b); [by eapply same_wf|done|]|].
  { destruct (decide (b ∈ bl_txn d)); [left; by rewrite Ht|right; auto]. }
  intros ? d2 (Hs2 & Hv2 & Hh2 & Ht2 & Hc2). exists d2. split; [done|]. split_and!.
  - by eapply same_trans.
  - intros b'. by rewrite Hv2.
  - rewrite Hh2, Hh. by apply delete_insert_id.
  - by rewrite Ht2.
  - auto.
Qed.

(** Writing it back with new contents. *)
Definition put_block (h : nat) (x : bytes) : M (@fstate D U) unit :=
  blk (bl_set_data h x) ;;; blk (bl_log_write h) ;;; blk (bl_brelse h).

Lemma put_update s d d1 h b x :
  got d d1 h b -> bl_home d b -> bl_open d -> block_ok x -> Z.of_nat (size (bl_txn d)) < LOGBLOCKS ->
  wp (put_block h x) (set_blk d1 s) (fun _ s' => exists d', s' = set_blk d' s /\ upd_post d d' b x).
Proof.
  intros Hgot Hhome Hopen Hx Hroom. pose proof (got_held _ _ _ _ Hgot) as Hheld.
  destruct Hgot as (Hsame & Hv & Hnone & Hh & Ht & _ & Hcm). unfold put_block. apply wp_bind.
  eapply wp_blk; [apply (bl_set_data_law d1 h b x); [by eapply same_wf|done|done]|].
  intros ? d2 (Hs2 & Hv2 & Hh2 & Ht2 & Hc2). apply wp_bind.
  assert (bl_same d d2) as Hsd2 by (by eapply same_trans).
  eapply wp_blk; [apply (bl_log_write_law d2 h b)|].
  { by eapply same_wf. } { by rewrite Hh2. } { by eapply same_home. } { by eapply same_open. }
  { by rewrite Ht2, Ht. }
  intros ? d3 (Hs3 & Hv3 & Hh3 & Ht3 & Hc3).
  eapply wp_blk; [apply (bl_brelse_law d3 h b)|].
  { by eapply same_wf. } { by rewrite Hh3, Hh2. } { left. rewrite Ht3. set_solver. }
  intros ? d4 (Hs4 & Hv4 & Hh4 & Ht4 & Hc4). exists d4. split; [done|]. split_and!.
  - eauto using same_trans.
  - intros b'. rewrite Hv4, Hv3, Hv2. case_decide; [done|]. apply Hv.
  - rewrite Hh4, Hh3, Hh2, Hh. by apply delete_insert_id.
  - by rewrite Ht4, Ht3, Ht2, Ht.
  - auto.
Qed.

Lemma put_then {A} h x s (K : M fstate A) P Q :
  wp (put_block h x) s (fun _ s' => P s') -> (forall s', P s' -> wp K s' Q) ->
  wp (blk (bl_set_data h x) ;;; blk (bl_log_write h) ;;; blk (bl_brelse h) ;;; K) s Q.
Proof.
  intros Hput HK. apply wp_bind. apply wp_bind_inv in Hput. eapply wp_mono; [exact Hput|].
  intros ? s1 Hs1. apply wp_bind. apply wp_bind_inv in Hs1. eapply wp_mono; [exact Hs1|].
  intros ? s2 Hs2. apply wp_bind. eapply wp_mono; [exact Hs2|]. intros ? s3 Hs3. by apply HK.
Qed.

Lemma can_read_ro d d' b : can_read d b -> ro_post d d' -> can_read d' b.
Proof.
  intros (Hwf & Hh & Hnh & Hr) (Hs & Hv & Hhe & Ht & _). split_and!.
  - by eapply same_wf.
  - by eapply same_home.
  - by rewrite Hhe.
  - by rewrite Ht, Hhe.
Qed.

Lemma ro_refl d : bl_wf d -> ro_post d d.
Proof. intros. by split_and!. Qed.

Lemma ro_trans d1 d2 d3 : ro_post d1 d2 -> ro_post d2 d3 -> ro_post d1 d3.
Proof.
  intros (Hs1 & Hv1 & Hh1 & Ht1 & Hc1) (Hs2 & Hv2 & Hh2 & Ht2 & Hc2). split_and!; try congruence.
  - by eapply same_trans.
  - auto.
Qed.

Lemma ro_upd d1 d2 d3 b x : ro_post d1 d2 -> upd_post d2 d3 b x -> upd_post d1 d3 b x.
Proof.
  intros (Hs1 & Hv1 & Hh1 & Ht1 & Hc1) (Hs2 & Hv2 & Hh2 & Ht2 & Hc2). split_and!; try congruence.
  - by eapply same_trans.
  - intros b'. rewrite Hv2. case_decide; [done|apply Hv1].
  - auto.
Qed.

(** ** The allocator *)

(** Block b is marked in use in the free map. *)
Definition block_used d (sb : superblock) (b : Z) : bool :=
  bit_at (bl_view d (BBLOCK b sb)) (b `mod` BPB).

(** The layout: the free map covers the disk, and a free block is a usable
    block outside it. *)
Record alloc_geom d (sb : superblock) : Prop := {
  ag_size : 0 <= sb_size sb < 2^31;
  ag_start : 0 <= sb_bmapstart sb < 2^31;
  ag_bitmap : forall b, 0 <= b < sb_size sb ->
    bl_home d (BBLOCK b sb) /\ BBLOCK b sb ∉ (map_img (bl_held d) : gset Z);
  ag_free : forall b, 0 <= b < sb_size sb -> block_used d sb b = false ->
    bl_home d b /\ b ∉ (map_img (bl_held d) : gset Z) /\
    forall b', 0 <= b' < sb_size sb -> b <> BBLOCK b' sb }.

Lemma BBLOCK_eq (sb : superblock) b : 0 <= b < 2^31 -> 0 <= sb_bmapstart sb < 2^31 ->
  BBLOCK b sb = b / BPB + sb_bmapstart sb.
Proof.
  intros Hb Hs. unfold BBLOCK. apply u32_id. pose proof (Z.div_pos b BPB).
  pose proof (Z.div_le_upper_bound b BPB b). klia.
Qed.

Lemma BBLOCK_split (sb : superblock) k bi : 0 <= bi < BPB -> 0 <= k * BPB + bi < 2^31 -> 0 <= k ->
  0 <= sb_bmapstart sb < 2^31 ->
  BBLOCK (k * BPB + bi) sb = BBLOCK (k * BPB) sb /\ (k * BPB + bi) `mod` BPB = bi.
Proof.
  intros Hbi Hb Hk Hs. rewrite !BBLOCK_eq by klia.
  rewrite Z.div_add_l, Z.div_mul, Z.div_small by klia. split; [lia|].
  rewrite Z.add_comm, Z.mod_add, Z.mod_small by klia. done.
Qed.

Lemma same_used d d' sb b : (forall b', bl_view d' b' = bl_view d b') ->
  block_used d' sb b = block_used d sb b.
Proof. intros Hv. unfold block_used. by rewrite Hv. Qed.

(** The effect of allocating block r. *)
Definition alloc_post d d' (sb : superblock) (r : Z) : Prop :=
  bl_same d d' /\ bl_held d' = bl_held d /\
  bl_txn d' = {[r]} ∪ ({[BBLOCK r sb]} ∪ bl_txn d) /\
  bl_view d' r = zero_block /\
  (forall b, 0 <= b < sb_size sb ->
     block_used d' sb b = if decide (b = r) then true else block_used d sb b) /\
  (forall b, b <> r -> b <> BBLOCK r sb -> bl_view d' b = bl_view d b) /\
  (forall b, b <> r -> b <> BBLOCK r sb -> bl_clean d b -> bl_clean d' b).

Lemma bzero_spec s b :
  can_read (f_blk s) b -> bl_open (f_blk s) -> Z.of_nat (size (bl_txn (f_blk s))) < LOGBLOCKS ->
  wp (bzero ROOTDEV b) s (fun _ s' => exists d', s' = set_blk d' s /\ upd_post (f_blk s) d' b zero_block).
Proof.
  intros Hr Ho Hroom. unfold bzero. destruct Hr as (Hwf & Hh & Hnh & Hsz).
  rewrite u32_id by (pose proof (bl_home_range _ _ Hwf Hh); lia). apply wp_bind.
  eapply wp_blk; [by apply bl_bread_law|]. intros h d1 Hgot.
  eapply (put_update s); [exact Hgot|done|done|apply zero_block_ok|done].
Qed.

Lemma set_bit_used d d' sb r b :
  alloc_geom d sb -> bl_wf d -> 0 <= r < sb_size sb -> 0 <= b < sb_size sb ->
  bl_view d' (BBLOCK r sb) = set_bit (bl_view d (BBLOCK r sb)) (r `mod` BPB) ->
  (BBLOCK b sb <> BBLOCK r sb -> bl_view d' (BBLOCK b sb) = bl_view d (BBLOCK b sb)) ->
  block_used d' sb b = if decide (b = r) then true else block_used d sb b.
Proof.
  intros Hg Hwf Hr Hb Hv1 Hv2. pose proof (ag_size _ _ Hg). pose proof (ag_start _ _ Hg).
  assert (forall x, 0 <= x `mod` BPB < BPB) as Hm by (intros; apply Z.mod_pos_bound; klia).
  unfold block_used. destruct (decide (BBLOCK b sb = BBLOCK r sb)) as [He|He].
  - rewrite He, Hv1, set_bit_at; [|apply bl_view_ok; [done|by apply Hg]|done|done].
    rewrite !BBLOCK_eq in He by lia. pose proof (Z_div_mod_eq_full b BPB). pose proof (Z_div_mod_eq_full r BPB).
    destruct (decide (b = r)) as [->|]; [by rewrite decide_True|].
    rewrite decide_False by nia. done.
  - rewrite Hv2 by done. rewrite decide_False; [done|]. by intros ->.
Qed.

(** The end of [balloc]: mark block r and zero it. *)
Lemma balloc_take s d1 h r :
  let d := f_blk s in
  alloc_geom d (f_sb s) -> bl_wf d -> bl_open d ->
  (size (bl_txn d) + size (bl_held d) + 1 < NBUF)%nat ->
  0 <= r < sb_size (f_sb s) -> block_used d (f_sb s) r = false ->
  got d d1 h (BBLOCK r (f_sb s)) ->
  wp (blk (bl_set_data h (set_bit (bl_view d (BBLOCK r (f_sb s))) (r `mod` BPB))) ;;;
      blk (bl_log_write h) ;;; blk (bl_brelse h) ;;;
      bzero ROOTDEV r ;;; ret (Some r)) (set_blk d1 s)
    (fun x s' => x = Some r /\ exists d', s' = set_blk d' s /\ alloc_post d d' (f_sb s) r).
Proof.
  intros d Hg Hwf Ho Hroom Hr Hfree Hgot. set (sb := f_sb s) in *. set (B := BBLOCK r sb) in *.
  destruct (ag_bitmap _ _ Hg r Hr) as [HB HBh]. destruct (ag_free _ _ Hg r Hr Hfree) as (Hrh & Hrn & HrB).
  assert (0 <= r `mod` BPB < BPB) as Hm by (apply Z.mod_pos_bound; klia).
  eapply put_then.
  { apply (put_update s d d1 h B); [done|done|done|by apply set_bit_ok, bl_view_ok|klia]. }
  intros s1 (d2 & -> & Hs2 & Hv2 & Hh2 & Ht2 & Hc2).
  assert (size (bl_txn d2) <= 1 + size (bl_txn d))%nat as Hsz.
  { rewrite Ht2, size_union_alt, size_singleton.
    enough (size (bl_txn d ∖ {[B]}) <= size (bl_txn d))%nat by lia. apply subseteq_size. set_solver. }
  apply wp_bind. eapply wp_mono; [apply bzero_spec; cbn [f_blk set_blk]|].
  { split_and!; [by eapply same_wf|by eapply same_home|by rewrite Hh2|rewrite Hh2; lia]. }
  { by eapply same_open. } { klia. }
  intros ? s2 (d3 & -> & Hs3 & Hv3 & Hh3 & Ht3 & Hc3). cbn [f_blk set_blk] in *. apply wp_ret.
  split; [done|]. exists d3. split; [done|]. specialize (HrB r Hr) as Hne. fold B in Hne. split_and!.
  - by eapply same_trans.
  - by rewrite Hh3.
  - by rewrite Ht3, Ht2.
  - by rewrite Hv3, decide_True.
  - intros b Hb. apply set_bit_used; try done.
    + fold B. rewrite Hv3, decide_False, Hv2, decide_True by done. done.
    + intros HbB. rewrite Hv3, decide_False, Hv2, decide_False; [done|done|].
      intros Heq. by apply (HrB b Hb).
  - intros b Hb1 Hb2. by rewrite Hv3, decide_False, Hv2, decide_False.
  - intros b Hb1 Hb2 Hc. apply Hc3; [done|]. by apply Hc2.
Qed.

Lemma alloc_geom_ro d d' sb : alloc_geom d sb -> ro_post d d' -> alloc_geom d' sb.
Proof.
  intros [Hg1 Hg2 Hg3 Hg4] (Hs & Hv & Hh & _). split; [done|done|..].
  - intros b Hb. rewrite Hh. destruct (Hg3 b Hb). split; [by eapply same_home|done].
  - intros b Hb Hu. rewrite (same_used d d') in Hu by done. rewrite Hh.
    destruct (Hg4 b Hb Hu) as (? & ? & ?). split_and!; [by eapply same_home|done..].
Qed.

Lemma ro_alloc d d1 d' sb r : ro_post d d1 -> alloc_post d1 d' sb r -> alloc_post d d' sb r.
Proof.
  intros (Hs1 & Hv1 & Hh1 & Ht1 & Hc1) (Hs & Hh & Ht & Hz & Hu & Hv & Hc). split_and!; try congruence.
  - by eapply same_trans.
  - intros b Hb. rewrite Hu by done. by rewrite (same_used d d1).
  - intros b Hb1 Hb2. by rewrite Hv.
  - auto.
Qed.

(** One bitmap block of [balloc]'s scan. *)
Lemma balloc_body s k :
  let d := f_blk s in let sb := f_sb s in
  alloc_geom d sb -> bl_wf d -> bl_open d ->
  (size (bl_txn d) + size (bl_held d) + 1 < NBUF)%nat -> 0 <= k -> k * BPB < sb_size sb ->
  wp (let! bp := blk (bl_bread ROOTDEV (BBLOCK (k * BPB) sb)) in
      let! x := blk (bl_data bp) in
      match find_clear x (Z.to_nat (Z.min BPB (sb_size sb - k * BPB))) 0 with
      | Some bi =>
          blk (bl_set_data bp (set_bit x bi)) ;;;
          blk (bl_log_write bp) ;;;
          blk (bl_brelse bp) ;;;
          bzero ROOTDEV (k * BPB + bi) ;;;
          ret (Some (k * BPB + bi))
      | None => blk (bl_brelse bp) ;;; ret None
      end) s (fun x s' => match x with
        | Some r => k * BPB <= r < sb_size sb /\ block_used d sb r = false /\
            (forall b, k * BPB <= b < r -> block_used d sb b = true) /\
            exists d', s' = set_blk d' s /\ alloc_post d d' sb r
        | None => (forall b, k * BPB <= b < Z.min ((k + 1) * BPB) (sb_size sb) -> block_used d sb b = true) /\
            exists d', s' = set_blk d' s /\ ro_post d d' end).
Proof.
  intros d sb Hg Hwf Ho Hroom Hk Hsz. pose proof (ag_size _ _ Hg) as Hsize.
  pose proof (ag_start _ _ Hg) as Hst. fold sb.
  assert (0 <= k * BPB < sb_size sb) as Hb0 by klia.
  destruct (ag_bitmap _ _ Hg _ Hb0) as [HB HBh].
  assert (forall b, k * BPB <= b < Z.min ((k + 1) * BPB) (sb_size sb) ->
    block_used d sb b = bit_at (bl_view d (BBLOCK (k * BPB) sb)) (b - k * BPB)) as Hused.
  { intros b Hb. unfold block_used. destruct (BBLOCK_split sb k (b - k * BPB)) as [He Hm]; [klia..|].
    replace (k * BPB + (b - k * BPB)) with b in He, Hm by lia. by rewrite He, Hm. }
  apply with_block; [split_and!; (done || fold d; lia)|]. intros h d1 Hgot. fold d in Hgot |- *.
  set (n := Z.to_nat (Z.min BPB (sb_size sb - k * BPB))).
  pose proof (find_clear_spec (bl_view d (BBLOCK (k * BPB) sb)) n 0) as Hfind.
  destruct (find_clear _ _ _) as [bi|].
  - destruct Hfind as (Hbi & Hclear & Hpre).
    assert (0 <= bi < BPB /\ k * BPB + bi < sb_size sb) as [Hbi' Hr] by (unfold n in Hbi; klia).
    destruct (BBLOCK_split sb k bi) as [HBk Hmod]; [klia..|].
    pose proof (balloc_take s d1 h (k * BPB + bi)) as Htake. cbv zeta in Htake. fold d sb in Htake.
    rewrite HBk, Hmod in Htake.
    eapply wp_mono; [apply Htake; try done; [klia|]|].
    { rewrite Hused by klia. by replace (k * BPB + bi - k * BPB) with bi by lia. }
    intros x s' [-> Hpost]. split_and!; [klia|klia| | |done].
    + rewrite Hused by klia. by replace (k * BPB + bi - k * BPB) with bi by lia.
    + intros b Hb. rewrite Hused by klia. apply Hpre. lia.
  - apply wp_bind. eapply wp_mono; [by apply (put_clean s d d1 h (BBLOCK (k * BPB) sb))|].
    intros ? s' Hs'. apply wp_ret. split; [|done]. intros b Hb. rewrite Hused by done.
    apply Hfind. unfold n. klia.
Qed.

Lemma balloc_wp s :
  let d := f_blk s in let sb := f_sb s in
  alloc_geom d sb -> bl_wf d -> bl_open d ->
  (size (bl_txn d) + size (bl_held d) + 1 < NBUF)%nat ->
  wp (balloc ROOTDEV) s (fun r s' => exists d', s' = set_blk d' s /\
    ((0 <= r < sb_size sb /\ block_used d sb r = false /\
      (forall b, 0 <= b < r -> block_used d sb b = true) /\ alloc_post d d' sb r) \/
     (r = 0 /\ (forall b, 0 <= b < sb_size sb -> block_used d sb b = true) /\ ro_post d d'))).
Proof.
  intros d sb Hg Hwf Ho Hroom. pose proof (ag_size _ _ Hg) as Hsize.
  unfold balloc. apply wp_bind, wp_gets. fold sb. apply wp_bind.
  set (nb := (sb_size sb + BPB - 1) / BPB).
  assert (nb * BPB < sb_size sb + BPB /\ sb_size sb <= nb * BPB /\ 0 <= nb) as (Hnb1 & Hnb2 & Hnb0).
  { unfold nb. pose proof (Z_div_mod_eq_full (sb_size sb + BPB - 1) BPB).
    pose proof (Z.mod_pos_bound (sb_size sb + BPB - 1) BPB). klia. }
  eapply (wp_for_from (fun k s1 => exists d1, s1 = set_blk d1 s /\ ro_post d d1 /\
    forall b, 0 <= b < Z.min (k * BPB) (sb_size sb) -> block_used d sb b = true)).
  - exists d. split; [symmetry; apply set_blk_id|]. split; [by apply ro_refl|]. lia.
  - intros k s1 Hk (d1 & -> & Hro & Hpre). cbn beta.
    assert (k * BPB < sb_size sb) as Hkb by (klia).
    pose proof Hro as (Hs1 & Hv1 & Hh1 & Ht1 & _).
    eapply wp_mono; [apply (balloc_body (set_blk d1 s) k); cbn [f_blk set_blk f_sb]|].
    { by eapply alloc_geom_ro. } { by eapply same_wf. } { by eapply same_open. }
    { by rewrite Hh1, Ht1. } { lia. } { done. }
    cbn [f_blk set_blk f_sb]. fold sb. intros [r|] s2.
    + intros (Hr & Hfree & Hbefore & d' & -> & Hpost). apply wp_ret. exists d'. split; [done|]. left.
      rewrite (same_used d d1) in Hfree by done. split_and!; [klia|lia|done| |by eapply ro_alloc].
      intros b Hb. destruct (decide (b < k * BPB)); [apply Hpre; lia|].
      rewrite <- (same_used d d1) by done. apply Hbefore. lia.
    + intros (Hall & d' & -> & Hro'). exists d'. split; [done|]. split; [by eapply ro_trans|].
      intros b Hb. destruct (decide (b < k * BPB)); [apply Hpre; lia|].
      rewrite <- (same_used d d1) by done. apply Hall. lia.
  - intros s1 (d1 & -> & Hro & Hall). apply wp_bind, wp_emit, wp_ret. exists d1. split; [done|]. right.
    split_and!; [done| |done]. intros b Hb. apply Hall. klia.
Qed.

(** Freeing a block clears exactly its bit. *)
Definition free_post d d' (sb : superblock) (b : Z) : Prop :=
  bl_same d d' /\ bl_held d' = bl_held d /\ bl_txn d' = {[BBLOCK b sb]} ∪ bl_txn d /\
  (forall b', 0 <= b' < sb_size sb ->
     block_used d' sb b' = if decide (b' = b) then false else block_used d sb b') /\
  (forall b', b' <> BBLOCK b sb -> bl_view d' b' = bl_view d b') /\
  (forall b', b' <> BBLOCK b sb -> bl_clean d b' -> bl_clean d' b').

Lemma clear_bit_used d d' sb r b :
  bl_wf d -> bl_home d (BBLOCK r sb) -> 0 <= sb_bmapstart sb < 2^31 -> sb_size sb < 2^31 ->
  0 <= r < sb_size sb -> 0 <= b < sb_size sb ->
  bl_view d' (BBLOCK r sb) = clear_bit (bl_view d (BBLOCK r sb)) (r `mod` BPB) ->
  (BBLOCK b sb <> BBLOCK r sb -> bl_view d' (BBLOCK b sb) = bl_view d (BBLOCK b sb)) ->
  block_used d' sb b = if decide (b = r) then false else block_used d sb b.
Proof.
  intros Hwf Hh Hst Hsz Hr Hb Hv1 Hv2.
  assert (forall x, 0 <= x `mod` BPB < BPB) as Hm by (intros; apply Z.mod_pos_bound; klia).
  unfold block_used. destruct (decide (BBLOCK b sb = BBLOCK r sb)) as [He|He].
  - rewrite He, Hv1, clear_bit_at; [|by apply bl_view_ok|done|done].
    rewrite !BBLOCK_eq in He by lia. pose proof (Z_div_mod_eq_full b BPB). pose proof (Z_div_mod_eq_full r BPB).
    destruct (decide (b = r)) as [->|]; [by rewrite decide_True|].
    rewrite decide_False by nia. done.
  - rewrite Hv2 by done. rewrite decide_False; [done|]. by intros ->.
Qed.

Lemma bfree_wp s b :
  let d := f_blk s in let sb := f_sb s in
  can_read d (BBLOCK b sb) -> bl_open d -> Z.of_nat (size (bl_txn d)) < LOGBLOCKS ->
  0 <= sb_bmapstart sb < 2^31 -> sb_size sb < 2^31 -> 0 <= b < sb_size sb ->
  block_used d sb b = true ->
  wp (bfree ROOTDEV b) s (fun _ s' => exists d', s' = set_blk d' s /\ free_post d d' sb b).
Proof.
  intros d sb Hr Ho Hroom Hst Hsz Hb Hu. unfold bfree. apply wp_bind, wp_gets. fold sb.
  assert (0 <= b `mod` BPB < BPB) as Hm by (apply Z.mod_pos_bound; klia).
  apply with_block; [done|]. intros h d1 Hgot. fold d in Hgot |- *. rewrite bit_clear_at.
  unfold block_used in Hu. rewrite Hu. cbn [negb]. destruct Hr as (Hwf & Hh & _).
  eapply wp_mono; [apply (put_update s d d1 h (BBLOCK b sb)); try done|].
  { by apply clear_bit_ok, bl_view_ok. }
  intros ? s' (d' & -> & Hs & Hv & Hhe & Ht & Hc). exists d'. split; [done|]. split_and!; try done.
  - intros b' Hb'. apply clear_bit_used; try done.
    + by rewrite Hv, decide_True.
    + intros Hne. by rewrite Hv, decide_False.
  - intros b' Hne. by rewrite Hv, decide_False.
Qed.

(** Freeing a free block panics. *)
Lemma bfree_panics s b :
  let d := f_blk s in let sb := f_sb s in
  can_read d (BBLOCK b sb) -> block_used d sb b = false ->
  exists t, bfree ROOTDEV b s = Panic "freeing free block" t.
Proof.
  intros d sb (Hwf & Hh & Hnh & Hsz) Hu.
  destruct (wp_elim _ _ _ (bl_bread_law d (BBLOCK b sb) Hwf Hh Hnh Hsz)) as (h & d1 & t1 & Hrun & Hgot).
  pose proof (got_held _ _ _ _ Hgot) as Hheld. destruct Hgot as (Hs1 & Hv1 & _).
  destruct (wp_elim _ _ _ (bl_data_law d1 h (BBLOCK b sb) (same_wf _ _ Hs1) Hheld))
    as (x & d2 & t2 & Hrun2 & -> & ->).
  unfold bfree, bind, gets, blk, zoom. fold sb d. rewrite Hrun. cbn -[bit_clear panic].
  rewrite Hrun2. cbn -[bit_clear panic]. rewrite bit_clear_at, Hv1. unfold block_used in Hu. rewrite Hu.
  eexists. done.
Qed.
End blocks.
