(* ===== verification/FsInode.v ===== *)
(** * Inodes: encoding, the in-memory table and its operations

    The on-disk inode is a 64-byte record; [iupdate] and [ilock] are inverse
    on it.  The specifications of [iget], [idup], [ilock], [iunlock] and
    [iupdate] are against [BlockLaws]. *)
From S2P Require Import Prelude Params Sleeplock CString Interfaces Fs FsBlocks.

(** ** The dinode record *)

Lemma splice_splice_app {A} (l x y : list A) a : (a + length x + length y <= length l)%nat ->
  splice (splice l a x) (a + length x) y = splice l a (x ++ y).
Proof.
  intros Hlen. apply list_eq. intros i.
  rewrite !lookup_splice by (rewrite ?length_splice, ?length_app; lia).
  rewrite length_app. repeat case_decide; try lia; try done.
  - rewrite lookup_app_r by lia. f_equal. lia.
  - by rewrite lookup_app_l by lia.
Qed.

Lemma slice_splice_in {A} (l x : list A) a k n :
  (a + length x <= length l)%nat -> (k + n <= length x)%nat ->
  slice (splice l a x) (a + k) n = slice x k n.
Proof.
  intros H1 H2. apply list_eq. intros i. rewrite !lookup_slice. case_decide; [|done].
  rewrite lookup_splice, decide_True by lia. f_equal. lia.
Qed.

Definition encode_addrs (addrs : list Z) : bytes := mjoin (to_le 4 <$> addrs).
Definition encode_inode (i : inode) : bytes :=
  to_le 2 (i_type i) ++ to_le 2 (i_major i) ++ to_le 2 (i_minor i) ++ to_le 2 (i_nlink i) ++
  to_le 4 (i_size i) ++ encode_addrs (i_addrs i).

Lemma length_encode_addrs l : length (encode_addrs l) = (4 * length l)%nat.
Proof.
  induction l as [|a l IH]; [done|]. change (encode_addrs (a :: l)) with (to_le 4 a ++ encode_addrs l).
  rewrite length_app, length_to_le, IH. simpl. lia.
Qed.

Lemma encode_addrs_app l1 l2 : encode_addrs (l1 ++ l2) = encode_addrs l1 ++ encode_addrs l2.
Proof. unfold encode_addrs. by rewrite fmap_app, join_app. Qed.

Lemma slice_encode_addrs l k : (k < length l)%nat -> slice (encode_addrs l) (4 * k) 4 = to_le 4 (l !!! k).
Proof.
  intros Hk. rewrite <- (take_drop_middle l k (l !!! k)) at 1 by (by apply list_lookup_lookup_total_lt).
  rewrite encode_addrs_app. unfold slice.
  assert (length (encode_addrs (take k l)) = 4 * k)%nat as Hlen
    by (rewrite length_encode_addrs, length_take; lia).
  rewrite drop_app_ge by lia. rewrite Hlen. replace (4 * k - 4 * k)%nat with 0%nat by lia. done.
Qed.

Lemma put_addrs_inv addrs d off (m : nat) :
  0 <= off -> (Z.to_nat off + 12 + 4 * m <= length d)%nat -> (m <= length addrs)%nat ->
  foldl (fun d k => put_u32 d (off + 12 + 4 * Z.of_nat k) (addrs !!! k)) d (seq 0 m) =
    splice d (Z.to_nat off + 12) (encode_addrs (take m addrs)).
Proof.
  intros Hoff. induction m as [|m IH]; intros Hlen Hm.
  - simpl. unfold splice. simpl. rewrite Nat.add_0_r. by rewrite take_drop.
  - rewrite seq_S, foldl_app. cbn [foldl]. rewrite IH by lia. unfold put_u32.
    assert (length (encode_addrs (take m addrs)) = 4 * m)%nat as Hl
      by (rewrite length_encode_addrs, length_take; lia).
    replace (Z.to_nat (off + 12 + 4 * Z.of_nat (0 + m)))
      with (Z.to_nat off + 12 + length (encode_addrs (take m addrs)))%nat by lia.
    rewrite splice_splice_app by (rewrite length_to_le; lia).
    rewrite (take_S_r _ _ (addrs !!! m)) by (apply list_lookup_lookup_total_lt; lia).
    rewrite encode_addrs_app. do 3 f_equal.
Qed.

Definition inode_ok (i : inode) : Prop := length (i_addrs i) = Z.to_nat (NDIRECT + 1).

Lemma length_encode_inode i : inode_ok i -> length (encode_inode i) = Z.to_nat DINODE_SIZE.
Proof.
  intros Hi. unfold encode_inode. rewrite !length_app, !length_to_le, length_encode_addrs, Hi. done.
Qed.

Lemma store_dinode_splice i off d :
  inode_ok i -> 0 <= off -> (Z.to_nat off + Z.to_nat DINODE_SIZE <= length d)%nat ->
  store_dinode i off d = splice d (Z.to_nat off) (encode_inode i).
Proof.
  intros Hi Hoff Hlen. change (Z.to_nat DINODE_SIZE) with 64%nat in Hlen.
  unfold inode_ok in Hi. change (Z.to_nat (NDIRECT + 1)) with 13%nat in Hi.
  unfold store_dinode, put_addrs. change (Z.to_nat (NDIRECT + 1)) with 13%nat.
  unfold put_u16, put_u32 at 2.
  replace (Z.to_nat (off + 2)) with (Z.to_nat off + length (to_le 2 (i_type i)))%nat by (simpl; lia).
  rewrite splice_splice_app by (simpl; lia).
  replace (Z.to_nat (off + 4)) with (Z.to_nat off + length (to_le 2 (i_type i) ++ to_le 2 (i_major i)))%nat by (simpl; lia).
  rewrite splice_splice_app by (simpl; lia).
  replace (Z.to_nat (off + 6)) with (Z.to_nat off +
    length ((to_le 2 (i_type i) ++ to_le 2 (i_major i)) ++ to_le 2 (i_minor i)))%nat by (simpl; lia).
  rewrite splice_splice_app by (simpl; lia).
  set (h := ((to_le 2 (i_type i) ++ to_le 2 (i_major i)) ++ to_le 2 (i_minor i)) ++ to_le 2 (i_nlink i)).
  assert (length h = 8%nat) as Hh by done.
  replace (Z.to_nat (off + 8)) with (Z.to_nat off + length h)%nat by lia.
  rewrite splice_splice_app by (rewrite length_to_le; lia).
  rewrite put_addrs_inv; [|done|rewrite length_splice; rewrite ?length_app, ?length_to_le; lia|lia].
  rewrite take_ge by lia.
  replace (Z.to_nat off + 12)%nat with (Z.to_nat off + length (h ++ to_le 4 (i_size i)))%nat
    by (rewrite length_app, length_to_le; lia).
  rewrite splice_splice_app by (rewrite length_app, length_to_le, length_encode_addrs; lia).
  unfold h, encode_inode. by rewrite <- !app_assoc.
Qed.

(** The values a C [struct inode] can hold. *)
Definition inode_range (i : inode) : Prop :=
  inode_ok i /\ -2^15 <= i_type i < 2^15 /\ -2^15 <= i_major i < 2^15 /\
  -2^15 <= i_minor i < 2^15 /\ -2^15 <= i_nlink i < 2^15 /\ 0 <= i_size i < 2^32 /\
  Forall (fun a => 0 <= a < 2^32) (i_addrs i).

Lemma i16_of_le x : -2^15 <= x < 2^15 -> i16 (of_le (to_le 2 x)) = x.
Proof. intros. rewrite of_to_le. change (2 ^ (8 * Z.of_nat 2)) with (2^16). rewrite i16_u16. by apply i16_id. Qed.
Lemma u32_of_le x : 0 <= x < 2^32 -> of_le (to_le 4 x) = x.
Proof. intros. rewrite of_to_le. change (2 ^ (8 * Z.of_nat 4)) with (2^32). by apply Z.mod_small. Qed.

(** The part of an in-memory inode that lives on disk. *)
Definition same_dinode (i j : inode) : Prop :=
  i_type i = i_type j /\ i_major i = i_major j /\ i_minor i = i_minor j /\
  i_nlink i = i_nlink j /\ i_size i = i_size j /\ i_addrs i = i_addrs j.

Lemma load_store_dinode i j off d :
  inode_range i -> 0 <= off -> off + DINODE_SIZE <= Z.of_nat (length d) ->
  same_dinode (load_dinode (store_dinode i off d) off j) i.
Proof.
  intros (Hi & Ht & Hma & Hmi & Hn & Hs & Ha) Hoff Hlen.
  pose proof (length_encode_inode i Hi) as Hle. rewrite store_dinode_splice by (klia || done).
  change (Z.to_nat DINODE_SIZE) with 64%nat in Hle. change DINODE_SIZE with 64 in Hlen.
  assert (forall k n, 0 <= k -> (Z.to_nat k + n <= 64)%nat ->
    slice (splice d (Z.to_nat off) (encode_inode i)) (Z.to_nat (off + k)) n = slice (encode_inode i) (Z.to_nat k) n) as Hsl.
  { intros k n Hk0 Hk. replace (Z.to_nat (off + k)) with (Z.to_nat off + Z.to_nat k)%nat by lia.
    apply slice_splice_in; lia. }
  unfold same_dinode, load_dinode, di_type, di_major, di_minor, di_nlink, di_size, di_addr,
    get_i16, get_u16, get_u32. cbn [i_type i_major i_minor i_nlink i_size i_addrs].
  pose proof (Hsl 0 2%nat ltac:(lia) ltac:(simpl; lia)) as H0. rewrite Z.add_0_r in H0. rewrite H0.
  rewrite (Hsl 2 2%nat), (Hsl 4 2%nat), (Hsl 6 2%nat), (Hsl 8 4%nat) by lia.
  split; [by apply i16_of_le|]. split; [by apply i16_of_le|]. split; [by apply i16_of_le|].
  split; [by apply i16_of_le|]. split; [by apply u32_of_le|].
  unfold inode_ok in Hi. apply list_eq_same_length with 13%nat; [done|by rewrite length_fmap, length_seqZ|].
  intros k a b Hk Hka Hkb. rewrite list_lookup_fmap, lookup_seqZ_lt in Hka by klia. simpl in Hka.
  injection Hka as <-. rewrite Z.add_0_l.
  replace (off + 12 + 4 * Z.of_nat k) with (off + Z.of_nat (12 + 4 * k)) by lia.
  rewrite Hsl, Nat2Z.id by lia. replace (slice (encode_inode i) (12 + 4 * k) 4) with (slice (encode_addrs (i_addrs i)) (4 * k) 4) by done.
  rewrite slice_encode_addrs by (rewrite Hi; done).
  rewrite (list_lookup_total_correct _ _ _ Hkb). apply u32_of_le.
  rewrite Forall_forall in Ha. by apply Ha, (list_elem_of_lookup_2 _ k).
Qed.

(** Other inodes in the block keep their bytes. *)
Lemma store_dinode_other i off off' d n :
  inode_ok i -> 0 <= off -> off + DINODE_SIZE <= Z.of_nat (length d) -> 0 <= off' ->
  off' + Z.of_nat n <= off \/ off + DINODE_SIZE <= off' ->
  slice (store_dinode i off d) (Z.to_nat off') n = slice d (Z.to_nat off') n.
Proof.
  intros Hi H0 H1 H2 H3. rewrite store_dinode_splice by (klia || done).
  pose proof (length_encode_inode i Hi) as Hle. apply slice_splice_ne; rewrite Hle; klia.
Qed.

Lemma encode_inode_bytes i : Forall is_byte (encode_inode i).
Proof.
  unfold encode_inode, encode_addrs. repeat apply Forall_app_2; try apply to_le_bytes.
  induction (i_addrs i) as [|a l IH]; [constructor|]. change (to_le 4 <$> a :: l) with (to_le 4 a :: (to_le 4 <$> l)).
  simpl mjoin. apply (Forall_app_2 is_byte (to_le 4 a)); [apply to_le_bytes|done].
Qed.

Lemma store_dinode_ok i off d : inode_ok i -> 0 <= off -> off + DINODE_SIZE <= BSIZE -> block_ok d ->
  block_ok (store_dinode i off d).
Proof.
  intros Hi H0 H1 [Hl Hb]. rewrite store_dinode_splice; [|done|done|rewrite Hl; klia]. split.
  - rewrite length_splice; [done|]. rewrite length_encode_inode, Hl by done. klia.
  - apply Forall_splice; [done|apply encode_inode_bytes].
Qed.

Lemma dinode_off_range inum : 0 <= inum ->
  0 <= dinode_off inum /\ dinode_off inum + DINODE_SIZE <= BSIZE.
Proof.
  intros. unfold dinode_off. change IPB with 16. pose proof (Z.mod_pos_bound inum 16). klia.
Qed.

(** ** The inode table *)

(** References are non-negative and an inode has at most one live entry. *)
Record itable_ok (t : list inode) : Prop := {
  it_len : length t = Z.to_nat NINODE;
  it_ref : forall k i, t !! k = Some i -> 0 <= i_ref i;
  it_uniq : forall k k' i i', t !! k = Some i -> t !! k' = Some i' ->
    0 < i_ref i -> 0 < i_ref i' -> i_dev i = i_dev i' -> i_inum i = i_inum i' -> k = k';
  it_addrs : forall k i, t !! k = Some i -> inode_ok i }.

Lemma list_lookup_alter_Some {A} (f : A -> A) (l : list A) i j y : alter f i l !! j = Some y ->
  (j = i /\ exists x, l !! i = Some x /\ y = f x) \/ (j <> i /\ l !! j = Some y).
Proof.
  destruct (decide (j = i)) as [->|Hne].
  - rewrite list_lookup_alter_eq. intros (x & ? & ?)%fmap_Some. eauto.
  - rewrite list_lookup_alter_ne by done. eauto.
Qed.

Lemma itable_alter t ip f i :
  itable_ok t -> t !! ip = Some i -> 0 <= i_ref (f i) -> inode_ok (f i) ->
  (0 < i_ref (f i) -> forall k j, k <> ip -> t !! k = Some j -> 0 < i_ref j ->
     ~ (i_dev j = i_dev (f i) /\ i_inum j = i_inum (f i))) ->
  itable_ok (alter f ip t).
Proof.
  intros [Hlen Href Huniq Hok] Hi Hr Ho Hf. split.
  - by rewrite length_alter.
  - intros k j [[-> (x & Hx & ->)]|[Hne Hj]]%list_lookup_alter_Some; [by simplify_eq|by eapply Href].
  - intros k k' j j' Hj Hj' H1 H2 Hd Hn.
    apply list_lookup_alter_Some in Hj as [[-> (x & Hx & ->)]|[Hne Hj]];
    apply list_lookup_alter_Some in Hj' as [[-> (x' & Hx' & ->)]|[Hne' Hj']]; simplify_eq; [done|..].
    + exfalso. by eapply (Hf H1 k' j').
    + exfalso. by eapply (Hf H2 k j).
    + by eapply Huniq.
  - intros k j [[-> (x & Hx & ->)]|[Hne Hj]]%list_lookup_alter_Some; [by simplify_eq|by eapply Hok].
Qed.

Lemma iget_hit_spec dev inum i :
  Is_true (iget_hit dev inum i) <-> 0 < i_ref i /\ i_dev i = dev /\ i_inum i = inum.
Proof.
  unfold iget_hit. rewrite Is_true_true, !andb_true_iff, Z.ltb_lt, !Z.eqb_eq. tauto.
Qed.

Section itable.
Context {D U : Type} `{BlockOps D} `{UserMem U}.
Implicit Types (s : @fstate D U).

Lemma inode_lookup s ip : (ip < length (f_itable s))%nat -> f_itable s !! ip = Some (inode_at ip s).
Proof. apply list_lookup_lookup_total_lt. Qed.

Lemma inode_at_alter s ip jp f : (ip < length (f_itable s))%nat ->
  inode_at jp (set_itable (alter f ip (f_itable s)) s) = if decide (jp = ip) then f (inode_at ip s) else inode_at jp s.
Proof.
  intros Hip. unfold inode_at. simpl. destruct (decide (jp = ip)) as [->|Hne].
  - by apply list_lookup_total_alter_eq.
  - by apply list_lookup_total_alter_ne.
Qed.

(** [iget] returns the live entry of the inode, or a recycled one that is not valid. *)
Definition iget_post s (dev inum : Z) (ip : nat) s' : Prop :=
  (exists f, s' = set_itable (alter f ip (f_itable s)) s /\ itable_ok (f_itable s') /\
   (ip < length (f_itable s))%nat /\
   i_dev (inode_at ip s') = dev /\ i_inum (inode_at ip s') = inum /\
   i_lock (inode_at ip s') = i_lock (inode_at ip s) /\
   i_ref (inode_at ip s') = i_ref (inode_at ip s) + 1 /\
   (if decide (i_ref (inode_at ip s) = 0) then i_valid (inode_at ip s') = false
    else i_dev (inode_at ip s) = dev /\ i_inum (inode_at ip s) = inum /\
         i_valid (inode_at ip s') = i_valid (inode_at ip s) /\
         same_dinode (inode_at ip s') (inode_at ip s))).

Lemma iget_wp s dev inum :
  itable_ok (f_itable s) -> (exists k i, f_itable s !! k = Some i /\ i_ref i = 0) ->
  wp (iget dev inum) s (iget_post s dev inum).
Proof.
  intros Hok (k0 & i0 & Hk0 & Hr0). unfold iget. apply wp_bind, wp_gets.
  destruct (list_find (fun i => iget_hit dev inum i) (f_itable s)) as [[ip i]|] eqn:Hf.
  - apply list_find_Some in Hf as (Hi & Hhit & _). apply iget_hit_spec in Hhit as (Hr & <- & <-).
    apply wp_bind, wp_modify, wp_ret. pose proof (lookup_lt_Some _ _ _ Hi) as Hlt.
    assert (inode_at ip s = i) as Hat by (by apply list_lookup_total_correct).
    eexists. split; [done|]. rewrite inode_at_alter, decide_True, Hat by done. cbn [f_itable set_itable].
    rewrite decide_False by lia. split_and!; try done.
    eapply itable_alter; [done|exact Hi|simpl; lia|exact (it_addrs _ Hok _ _ Hi)|].
    simpl. intros _ k j Hne Hj Hrj [Hd Hn]. apply Hne. by eapply (it_uniq _ Hok).
  - destruct (list_find (fun i => i_ref i = 0) (f_itable s)) as [[ip i]|] eqn:Hf'.
    + apply list_find_Some in Hf' as (Hi & Hr & _). apply wp_bind, wp_modify, wp_ret.
      pose proof (lookup_lt_Some _ _ _ Hi) as Hlt.
      assert (inode_at ip s = i) as Hat by (by apply list_lookup_total_correct).
      eexists. split; [done|]. rewrite inode_at_alter, decide_True, Hat by done. cbn [f_itable set_itable].
      rewrite decide_True by done. split_and!; try done; [|simpl; lia].
      eapply itable_alter; [done|exact Hi|simpl; lia|exact (it_addrs _ Hok _ _ Hi)|].
      simpl. intros _ k j Hne Hj Hrj [Hd Hn]. apply list_find_None in Hf.
      rewrite Forall_lookup in Hf. apply (Hf k j Hj). by apply iget_hit_spec.
    + apply list_find_None in Hf'. rewrite Forall_lookup in Hf'. by destruct (Hf' k0 i0 Hk0).
Qed.

(** The panic of [iget]. *)
Lemma iget_full s dev inum :
  (forall k i, f_itable s !! k = Some i -> 0 < i_ref i /\ ~ (i_dev i = dev /\ i_inum i = inum)) ->
  iget dev inum s = Panic "iget: no inodes" [].
Proof.
  intros Hfull. unfold iget, bind, gets.
  destruct (list_find (fun i => iget_hit dev inum i) (f_itable s)) as [[ip i]|] eqn:Hf.
  - apply list_find_Some in Hf as (Hi & Hhit & _). apply iget_hit_spec in Hhit as (_ & Hd & Hn).
    by destruct (Hfull _ _ Hi) as [_ []].
  - destruct (list_find (fun i => i_ref i = 0) (f_itable s)) as [[ip i]|] eqn:Hf'; [|done].
    apply list_find_Some in Hf' as (Hi & Hr & _). destruct (Hfull _ _ Hi). lia.
Qed.

(** [iput] when the inode is not to be freed: one reference less. *)
Lemma iput_drop s ip : i_ref (inode_at ip s) <> 1 \/ i_valid (inode_at ip s) = false \/ i_nlink (inode_at ip s) <> 0 ->
  wp (iput ip) s (fun _ s' =>
    s' = set_itable (alter (fun i => set_iref (i_ref i - 1) i) ip (f_itable s)) s).
Proof.
  intros Hkeep. unfold iput. apply wp_bind, wp_gets. apply wp_bind, wp_gets.
  replace ((i_ref (inode_at ip s) =? 1) && i_valid (inode_at ip s) && (i_nlink (inode_at ip s) =? 0)) with false.
  - apply wp_bind, wp_ret. by apply wp_modify.
  - symmetry. destruct Hkeep as [Hr|[Hv|Hn]]; [|by rewrite Hv, andb_false_r|].
    + by rewrite (proj2 (Z.eqb_neq _ _) Hr).
    + by rewrite (proj2 (Z.eqb_neq _ _) Hn), andb_false_r.
Qed.

Lemma iunlock_wp s ip : (ip < length (f_itable s))%nat -> 1 <= i_ref (inode_at ip s) ->
  holdingsleep (f_pid s) (i_lock (inode_at ip s)) = true ->
  wp (iunlock (Some ip)) s (fun _ s' =>
    s' = set_itable (alter (set_ilock (mkSleeplock false 0)) ip (f_itable s)) s).
Proof.
  intros Hip Hr Hh. unfold iunlock. apply wp_bind, wp_gets. apply wp_bind, wp_gets. rewrite Hh.
  destruct (Z.ltb_spec (i_ref (inode_at ip s)) 1); [lia|]. simpl orb. cbv iota.
  apply wp_zoom. unfold releasesleep. by apply wp_bind, wp_modify, wp_emit.
Qed.
End itable.

Section inode_io.
Context {D U : Type} `{BlockLaws D} `{UserMem U}.
Implicit Types (s : @fstate D U).

(** The block holding inode [inum] can be read and written in the transaction. *)
Definition inode_block_ok s (inum : Z) : Prop :=
  can_read (f_blk s) (IBLOCK inum (f_sb s)) /\ 0 <= inum.

Lemma iupdate_wp s ip :
  let i := inode_at ip s in
  inode_block_ok s (i_inum i) -> i_dev i = ROOTDEV -> inode_ok i -> bl_open (f_blk s) ->
  Z.of_nat (size (bl_txn (f_blk s))) < LOGBLOCKS ->
  wp (iupdate ip) s (fun _ s' => exists d', s' = set_blk d' s /\
    upd_post (f_blk s) d' (IBLOCK (i_inum i) (f_sb s))
      (store_dinode i (dinode_off (i_inum i)) (bl_view (f_blk s) (IBLOCK (i_inum i) (f_sb s))))).
Proof.
  intros i [Hr Hn] Hdev Hi Ho Hroom. unfold iupdate. apply wp_bind, wp_gets. fold i.
  apply wp_bind, wp_gets. rewrite Hdev. apply with_block; [done|]. intros h d1 Hgot.
  destruct (dinode_off_range _ Hn). destruct Hr as (Hwf & Hh & _).
  apply put_update; try done. apply store_dinode_ok; try done. by apply bl_view_ok.
Qed.

Lemma with_ilock_acquire s ip :
  (ip < length (f_itable s))%nat -> sl_locked (i_lock (inode_at ip s)) = false ->
  wp (with_ilock ip (acquiresleep (ChSleeplock "inode" ip) (f_pid s))) s (fun _ s' =>
    s' = set_itable (alter (set_ilock (mkSleeplock true (f_pid s))) ip (f_itable s)) s).
Proof.
  intros Hip Hl. apply wp_zoom. unfold acquiresleep. apply wp_bind, wp_gets. rewrite Hl. by apply wp_modify.
Qed.

(** [ilock] on a valid entry only takes the lock. *)
Lemma ilock_valid s ip :
  (ip < length (f_itable s))%nat -> 1 <= i_ref (inode_at ip s) ->
  sl_locked (i_lock (inode_at ip s)) = false -> i_valid (inode_at ip s) = true ->
  wp (ilock (Some ip)) s (fun _ s' =>
    s' = set_itable (alter (set_ilock (mkSleeplock true (f_pid s))) ip (f_itable s)) s).
Proof.
  intros Hip Hr Hl Hv. unfold ilock. apply wp_bind, wp_gets.
  destruct (Z.ltb_spec (i_ref (inode_at ip s)) 1); [lia|]. apply wp_bind, wp_gets. apply wp_bind.
  eapply wp_mono; [by apply with_ilock_acquire|]. intros ? s1 ->. rewrite Hv. by apply wp_ret.
Qed.

(** The entry after [ilock] read it from disk. *)
Definition locked_inode (pid : Z) (x : bytes) (i : inode) : inode :=
  set_ivalid true (load_dinode x (dinode_off (i_inum i)) (set_ilock (mkSleeplock true pid) i)).

Lemma ilock_load s ip :
  let i := inode_at ip s in
  let x := bl_view (f_blk s) (IBLOCK (i_inum i) (f_sb s)) in
  (ip < length (f_itable s))%nat -> 1 <= i_ref i -> sl_locked (i_lock i) = false ->
  i_valid i = false -> inode_block_ok s (i_inum i) -> i_dev i = ROOTDEV ->
  di_type x (dinode_off (i_inum i)) <> 0 ->
  wp (ilock (Some ip)) s (fun _ s' => exists d',
    s' = set_blk d' (set_itable (alter (locked_inode (f_pid s) x) ip (f_itable s)) s) /\
    ro_post (f_blk s) d').
Proof.
  intros i x Hip Hr Hl Hv [Hcr Hn] Hdev Ht. unfold ilock. apply wp_bind, wp_gets. fold i.
  destruct (Z.ltb_spec (i_ref i) 1); [lia|]. apply wp_bind, wp_gets. apply wp_bind.
  eapply wp_mono; [by apply with_ilock_acquire|]. intros ? s1 ->. rewrite Hv. cbn [negb when].
  apply wp_bind, wp_gets. cbn [f_sb set_itable]. rewrite Hdev. apply with_block; [done|].
  cbn [f_blk set_itable]. fold x. intros h d1 Hgot. apply wp_bind, wp_modify. apply wp_bind.
  set (t1 := alter _ ip _).
  eapply wp_mono; [by apply (put_clean (set_itable t1 s) _ _ _ _ Hgot)|].
  intros ? s2 (d2 & -> & Hro). apply wp_bind, wp_modify. apply wp_bind, wp_gets.
  set (t2 := alter _ ip _).
  assert (t2 = alter (locked_inode (f_pid s) x) ip (f_itable s)) as Ht2.
  { unfold t2, t1. cbn [f_itable set_itable set_blk]. rewrite !list_alter_alter_eq.
    apply list_alter_ext; [|done]. intros y Hy. rewrite inode_lookup in Hy by done.
    injection Hy as <-. done. }
  assert (i_type (inode_at ip (set_itable t2 (set_blk d2 (set_itable t1 s)))) = di_type x (dinode_off (i_inum i))) as Hty.
  { unfold inode_at at 1. cbn [f_itable set_itable]. rewrite Ht2, list_lookup_total_alter_eq by done. done. }
  rewrite Hty, (proj2 (Z.eqb_neq _ _) Ht). apply wp_ret. exists d2. split; [|done]. by rewrite Ht2.
Qed.
End inode_io.
