(* ===== verification/FsData.v ===== *)
(** * File contents: [bmap], [readi] and directory lookup

    [bmap_at] is the block a file offset maps to; [readi] returns exactly the
    bytes of the file and [dirlookup] the first matching entry. *)
From S2P Require Import Prelude Params Sleeplock CString Interfaces Fs FsBlocks FsInode.

Section data.
Context {D U : Type} `{BlockLaws D} `{UserMem U}.
Implicit Types (d : D) (s : @fstate D U).

(** Block [bn] of the file, 0 if it has none. *)
Definition bmap_at d (i : inode) (bn : Z) : Z :=
  if bn <? NDIRECT then i_addr i bn
  else if i_addr i NDIRECT =? 0 then 0
  else ind_get (bl_view d (i_addr i NDIRECT)) (bn - NDIRECT).

Definition file_byte d (i : inode) (k : Z) : Z :=
  bl_view d (bmap_at d i (k / BSIZE)) !!! Z.to_nat (k `mod` BSIZE).
Definition file_bytes d (i : inode) (off n : Z) : bytes := file_byte d i <$> seqZ off n.

Lemma file_bytes_app d i off n m : 0 <= n -> 0 <= m ->
  file_bytes d i off (n + m) = file_bytes d i off n ++ file_bytes d i (off + n) m.
Proof. intros. unfold file_bytes. rewrite seqZ_app, fmap_app by lia. done. Qed.

Lemma length_file_bytes d i off n : length (file_bytes d i off n) = Z.to_nat n.
Proof. unfold file_bytes. by rewrite length_fmap, length_seqZ. Qed.

(** Block [bn] is mapped and everything on the way to it can be read. *)
Definition mapped d (i : inode) (bn : Z) : Prop :=
  0 <= bn < MAXFILE /\ bmap_at d i bn <> 0 /\ can_read d (bmap_at d i bn) /\
  (NDIRECT <= bn -> can_read d (i_addr i NDIRECT)).

Lemma ro_bmap_at d d' i bn : ro_post d d' -> bmap_at d' i bn = bmap_at d i bn.
Proof. intros (_ & Hv & _). unfold bmap_at. by rewrite Hv. Qed.

Lemma ro_file_bytes d d' i off n : ro_post d d' -> file_bytes d' i off n = file_bytes d i off n.
Proof.
  intros Hro. unfold file_bytes. apply list_fmap_ext. intros k x _. unfold file_byte.
  rewrite (ro_bmap_at d d') by done. destruct Hro as (_ & Hv & _). by rewrite Hv.
Qed.

Lemma ro_mapped d d' i bn : ro_post d d' -> mapped d i bn -> mapped d' i bn.
Proof.
  intros Hro (Hbn & Hnz & Hr & Hind). unfold mapped. rewrite (ro_bmap_at d d') by done.
  split_and!; try done; try lia; [by eapply can_read_ro|]. intros ?. eapply can_read_ro; [by apply Hind|done].
Qed.

Lemma bmap_mapped s ip bn :
  i_dev (inode_at ip s) = ROOTDEV -> mapped (f_blk s) (inode_at ip s) bn ->
  wp (bmap ip bn) s (fun r s' => r = bmap_at (f_blk s) (inode_at ip s) bn /\
    exists d', s' = set_blk d' s /\ ro_post (f_blk s) d').
Proof.
  intros Hdev (Hbn & Hnz & Hr & Hind). unfold bmap. apply wp_bind, wp_gets.
  set (i := inode_at ip s) in *. set (d := f_blk s) in *. unfold bmap_at in Hnz |- *.
  destruct (Z.ltb_spec bn NDIRECT) as [Hlt|Hge].
  - rewrite (proj2 (Z.eqb_neq _ _) Hnz). apply wp_ret. split; [done|].
    exists d. split; [symmetry; apply set_blk_id|]. by apply ro_refl, (proj1 Hr).
  - destruct (Z.ltb_spec (bn - NDIRECT) NINDIRECT) as [Hlt2|]; [|klia].
    destruct (Z.eqb_spec (i_addr i NDIRECT) 0) as [|Hnz2]; [done|].
    apply wp_bind, wp_ret. rewrite (proj2 (Z.eqb_neq _ _) Hnz2), Hdev.
    apply with_block; [by apply Hind|]. intros h d1 Hgot. fold d in Hgot |- *.
    rewrite (proj2 (Z.eqb_neq _ _) Hnz). apply wp_bind, wp_ret. apply wp_bind.
    eapply wp_mono; [by apply (put_clean s d d1 h (i_addr i NDIRECT))|]. intros ? s' (d' & -> & Hro). apply wp_ret. eauto.
Qed.

(** The bytes of a chunk inside one block. *)
Lemma chunk_bytes d i off m : 0 <= off -> 0 <= m -> off `mod` BSIZE + m <= BSIZE ->
  length (bl_view d (bmap_at d i (off / BSIZE))) = Z.to_nat BSIZE ->
  slice (bl_view d (bmap_at d i (off / BSIZE))) (Z.to_nat (off `mod` BSIZE)) (Z.to_nat m) =
    file_bytes d i off m.
Proof.
  intros Hoff Hm Hfit Hlen. pose proof (Z.mod_pos_bound off BSIZE ltac:(klia)) as Hmod.
  apply list_eq_same_length with (Z.to_nat m); [apply length_file_bytes|rewrite length_slice; klia|].
  intros k x y Hk Hx Hy. rewrite lookup_slice, decide_True in Hx by done.
  unfold file_bytes in Hy. rewrite list_lookup_fmap, lookup_seqZ_lt in Hy by lia. injection Hy as <-.
  unfold file_byte.
  replace ((off + Z.of_nat k) / BSIZE) with (off / BSIZE).
  - replace ((off + Z.of_nat k) `mod` BSIZE) with (off `mod` BSIZE + Z.of_nat k).
    + replace (Z.to_nat (off `mod` BSIZE + Z.of_nat k)) with (Z.to_nat (off `mod` BSIZE) + k)%nat by klia.
      symmetry. by apply list_lookup_total_correct.
    + rewrite <- Z.add_mod_idemp_l by klia. symmetry. apply Z.mod_small. lia.
  - apply Z.div_unique with (off `mod` BSIZE + Z.of_nat k); [lia|].
    pose proof (Z_div_mod_eq_full off BSIZE). lia.
Qed.

Section read.
Context (s : @fstate D U) (ip : nat) (off0 n : Z).
Let i := inode_at ip s.
Let d := f_blk s.
Context (Hdev : i_dev i = ROOTDEV) (Hoff0 : 0 <= off0) (Hn : 0 <= n) (Hwrap : off0 + n < 2^32).
Context (Hwf : bl_wf d).
Context (Hmap : forall k, off0 <= k < off0 + n -> mapped d i (k / BSIZE)).

Lemma readi_loop_wp fuel tot d1 acc :
  ro_post d d1 -> 0 <= tot <= n ->
  (tot < n -> (off0 + tot) `mod` BSIZE + (n - tot) <= Z.of_nat fuel * BSIZE) ->
  wp (readi_loop fuel ip KernDst (off0 + tot) n tot acc) (set_blk d1 s) (fun r s' =>
    r = (n, acc ++ file_bytes d i (off0 + tot) (n - tot)) /\ exists d', s' = set_blk d' s /\ ro_post d d').
Proof.
  revert tot d1 acc. induction fuel as [|fuel IH]; intros tot d1 acc Hro Htot Hfuel;
    pose proof (Z.mod_pos_bound (off0 + tot) BSIZE ltac:(klia)) as Hmod; cbn [readi_loop];
    (destruct (Z.ltb_spec tot n) as [Hlt|Hge];
     [|replace (n - tot) with 0 by lia; rewrite app_nil_r; apply wp_ret;
       replace tot with n by lia; eauto]).
  - exfalso. lia.
  - assert (off0 <= off0 + tot < off0 + n) as Hin by lia.
    pose proof (ro_mapped _ _ _ _ Hro (Hmap _ Hin)) as Hm1.
    apply wp_bind. eapply wp_mono; [by apply (bmap_mapped (set_blk d1 s))|].
    intros addr s2 (-> & d2 & -> & Hro2). cbn [f_blk set_blk] in *. change (inode_at ip (set_blk d1 s)) with i in *.
    pose proof (ro_trans _ _ _ Hro Hro2) as Hro02. destruct Hm1 as (Hbn & Hnz & Hcr & _).
    rewrite (proj2 (Z.eqb_neq _ _) Hnz). apply wp_bind, wp_gets.
    change (inode_at ip (set_blk d2 (set_blk d1 s))) with i. rewrite Hdev, (ro_bmap_at d d1) by done.
    rewrite (ro_bmap_at d d1) in Hcr by done.
    set (m := chunk n tot (off0 + tot)).
    assert (0 < m <= n - tot /\ (off0 + tot) `mod` BSIZE + m <= BSIZE) as [Hm1 Hm2] by (unfold m, chunk; lia).
    apply with_block; [by eapply can_read_ro|]. cbn [f_blk set_blk]. intros h d3 Hgot.
    assert (slice (bl_view d2 (bmap_at d i ((off0 + tot) / BSIZE))) (Z.to_nat ((off0 + tot) `mod` BSIZE))
      (Z.to_nat m) = file_bytes d i (off0 + tot) m) as Hbytes.
    { rewrite <- (ro_bmap_at d d2) by done. rewrite <- (ro_file_bytes d d2) by done.
      apply chunk_bytes; [lia..|]. rewrite (ro_bmap_at d d2) by done.
      destruct (can_read_ro _ _ _ Hcr Hro2) as (Hwf2 & Hh2 & _). by apply (bl_view_ok d2). }
    rewrite Hbytes. cbn [either_copyout]. apply wp_bind, wp_ret. change (0 =? -1) with false. cbv iota.
    apply wp_bind. eapply wp_mono; [by eapply (put_clean s d2 d3)|]. intros ? s4 (d4 & -> & Hro4).
    rewrite u32_id by lia. replace (off0 + tot + m) with (off0 + (tot + m)) by lia.
    eapply wp_mono; [apply IH; [by eapply ro_trans|lia|]|].
    + intros Hmore. assert (m = BSIZE - (off0 + tot) `mod` BSIZE) as Hmeq by (unfold m, chunk in *; lia).
      assert ((off0 + (tot + m)) `mod` BSIZE = 0) as ->.
      { pose proof (Z_div_mod_eq_full (off0 + tot) BSIZE) as Hdm.
        replace (off0 + (tot + m)) with (((off0 + tot) / BSIZE + 1) * BSIZE) by lia. apply Z.mod_mul. klia. }
      specialize (Hfuel Hlt). lia.
    + intros r s5 (-> & d5 & -> & Hro5). split; [|eauto]. f_equal. rewrite <- app_assoc. f_equal.
      replace (n - tot) with (m + (n - (tot + m))) by lia. rewrite file_bytes_app by lia.
      do 2 f_equal. lia.
Qed.

(** [readi] into a kernel buffer: the bytes of the file, cut at its size. *)
Lemma readi_wp : off0 + n <= i_size i ->
  wp (readi ip KernDst off0 n) s (fun r s' =>
    r = (n, file_bytes d i off0 n) /\ exists d', s' = set_blk d' s /\ ro_post d d').
Proof.
  intros Hsize. unfold readi. apply wp_bind, wp_gets. fold i. rewrite u32_id by lia.
  replace ((i_size i <? off0) || (off0 + n <? off0)) with false by (symmetry; apply orb_false_iff; lia).
  replace (i_size i <? off0 + n) with false by lia.
  rewrite <- (set_blk_id s) at 1. replace off0 with (off0 + 0) at 1 by lia.
  eapply wp_mono; [apply readi_loop_wp; [by apply ro_refl|lia|]|].
  - intros _. unfold copy_fuel. pose proof (Z.mod_pos_bound (off0 + 0) BSIZE ltac:(klia)).
    pose proof (Z_div_mod_eq_full n BSIZE). pose proof (Z.mod_pos_bound n BSIZE ltac:(klia)).
    assert (0 <= n / BSIZE) by (apply Z.div_pos; klia). rewrite Z2Nat.id by lia. lia.
  - intros r s' (-> & Hs'). split; [|done]. rewrite Z.sub_0_r, Z.add_0_r. done.
Qed.
End read.

(** ** Directories *)

Definition dirent_at d (i : inode) (k : Z) : bytes := file_bytes d i (k * DIRENT_SIZE) DIRENT_SIZE.
Definition entry_matches d (i : inode) (name : bytes) (k : Z) : bool :=
  negb (de_inum (dirent_at d i k) =? 0) && (namecmp name (de_name (dirent_at d i k)) =? 0).

(** A directory whose entries can all be read. *)
Record dir_ok d (i : inode) : Prop := {
  do_type : i_type i = T_DIR;
  do_dev : i_dev i = ROOTDEV;
  do_size : 0 <= i_size i < 2^32;
  do_mult : i_size i `mod` DIRENT_SIZE = 0;
  do_wf : bl_wf d;
  do_map : forall k, 0 <= k < i_size i -> mapped d i (k / BSIZE) }.

Lemma ro_dir_ok d d' i : ro_post d d' -> dir_ok d i -> dir_ok d' i.
Proof.
  intros Hro [Ht Hd Hs Hm Hw Hmap]. split; try done; [by eapply same_wf, Hro|].
  intros k Hk. eapply ro_mapped; [done|by apply Hmap].
Qed.

Lemma ro_dirent d d' i k : ro_post d d' -> dirent_at d' i k = dirent_at d i k.
Proof. intros. by apply ro_file_bytes. Qed.

Lemma dirents_size d i : dir_ok d i -> Z.of_nat (dirents (i_size i)) * DIRENT_SIZE = i_size i.
Proof.
  intros Hd. pose proof (do_mult _ _ Hd) as Hm. pose proof (do_size _ _ Hd) as Hs. unfold dirents.
  pose proof (Z_div_mod_eq_full (i_size i) DIRENT_SIZE) as Heq. rewrite Hm in Heq.
  set (q := i_size i / DIRENT_SIZE) in *.
  assert (i_size i + DIRENT_SIZE - 1 = q * DIRENT_SIZE + (DIRENT_SIZE - 1)) as -> by lia.
  rewrite Z.div_add_l, (Z.div_small (DIRENT_SIZE - 1)) by klia. rewrite Z2Nat.id by klia. lia.
Qed.

Lemma read_dirent s dp k : let i := inode_at dp s in
  dir_ok (f_blk s) i -> 0 <= k < Z.of_nat (dirents (i_size i)) ->
  wp (readi dp KernDst (k * DIRENT_SIZE) DIRENT_SIZE) s (fun r s' =>
    r = (DIRENT_SIZE, dirent_at (f_blk s) i k) /\ exists d', s' = set_blk d' s /\ ro_post (f_blk s) d').
Proof.
  intros i Hd Hk. pose proof (dirents_size _ _ Hd) as Hsz. pose proof (do_size _ _ Hd) as Hs. fold i.
  apply readi_wp; fold i; try (apply Hd); try klia.
  intros k' Hk'. apply Hd. klia.
Qed.

Lemma dirlookup_wp s dp name : let i := inode_at dp s in
  dir_ok (f_blk s) i -> itable_ok (f_itable s) ->
  (exists k j, f_itable s !! k = Some j /\ i_ref j = 0) ->
  wp (dirlookup dp name) s (fun r s' => exists d1, ro_post (f_blk s) d1 /\
    match r with
    | None => s' = set_blk d1 s /\
        forall k, 0 <= k < Z.of_nat (dirents (i_size i)) -> entry_matches (f_blk s) i name k = false
    | Some (ip, off) => exists k, 0 <= k < Z.of_nat (dirents (i_size i)) /\ off = k * DIRENT_SIZE /\
        entry_matches (f_blk s) i name k = true /\
        (forall j, 0 <= j < k -> entry_matches (f_blk s) i name j = false) /\
        iget_post (set_blk d1 s) ROOTDEV (de_inum (dirent_at (f_blk s) i k)) ip s'
    end).
Proof.
  intros i Hd Hit Hfree. unfold dirlookup. apply wp_bind, wp_gets. fold i.
  rewrite (do_type _ _ Hd), Z.eqb_refl. cbn [negb].
  eapply (wp_for_from (fun k s1 => exists d1, s1 = set_blk d1 s /\ ro_post (f_blk s) d1 /\
    forall j, 0 <= j < k -> entry_matches (f_blk s) i name j = false)).
  - exists (f_blk s). split; [symmetry; apply set_blk_id|]. split; [apply ro_refl, Hd|]. lia.
  - intros k s1 Hk (d1 & -> & Hro & Hpre). rewrite Z.add_0_l in Hk. apply wp_bind.
    eapply wp_mono; [apply (read_dirent (set_blk d1 s)); [by eapply ro_dir_ok|done]|].
    cbn [f_blk set_blk]. change (inode_at dp (set_blk d1 s)) with i.
    intros r s2 (-> & d2 & -> & Hro2). rewrite (ro_dirent _ _ _ _ Hro). cbn [fst snd].
    rewrite Z.eqb_refl. cbn [negb]. pose proof (ro_trans _ _ _ Hro Hro2) as Hro02.
    set (de := dirent_at (f_blk s) i k).
    assert (entry_matches (f_blk s) i name k = negb (de_inum de =? 0) && (namecmp name (de_name de) =? 0)) as Hm by done.
    destruct (de_inum de =? 0); [|destruct (namecmp name (de_name de) =? 0)].
    + apply wp_ret. exists d2. split_and!; [done|done|]. intros j Hj.
      destruct (decide (j = k)) as [->|]; [done|]. apply Hpre. lia.
    + rewrite (do_dev _ _ Hd). apply wp_bind. eapply wp_mono; [by apply iget_wp|].
      intros ip s3 Hget. apply wp_ret. exists d2. split; [done|]. exists k. by split_and!; try lia.
    + apply wp_ret. exists d2. split_and!; [done|done|]. intros j Hj.
      destruct (decide (j = k)) as [->|]; [done|]. apply Hpre. lia.
  - intros s1 (d1 & -> & Hro & Hpre). exists d1. split; [done|]. split; [done|]. intros k Hk. apply Hpre. lia.
Qed.
End data.

(** ** Path elements *)

(** Reference definition: the non-empty components between slashes. *)
Fixpoint split_at_slash (cur path : bytes) : list bytes :=
  match path with
  | [] => if cur is [] then [] else [cur]
  | c :: rest =>
      if c =? SLASH then (if cur is [] then [] else [cur]) ++ split_at_slash [] rest
      else split_at_slash (cur ++ [c]) rest
  end.
Definition path_elems (path : bytes) : list bytes := split_at_slash [] path.

Lemma split_skip path : path_elems (skip_slashes path) = path_elems path.
Proof.
  unfold path_elems. induction path as [|c path IH]; [done|]. simpl.
  destruct (c =? SLASH) eqn:Hc; [done|]. simpl. by rewrite Hc.
Qed.

Lemma split_elem cur path : cur <> [] \/ (exists c rest, path = c :: rest /\ (c =? SLASH) = false) ->
  split_at_slash cur path = (cur ++ (elem_of_path path).1) :: path_elems (elem_of_path path).2.
Proof.
  revert cur. induction path as [|c path IH]; intros cur Hcur; simpl.
  - destruct Hcur as [Hcur|(c & rest & ? & _)]; [|done]. rewrite app_nil_r. by destruct cur.
  - destruct (c =? SLASH) eqn:Hc.
    + destruct Hcur as [Hcur|(c' & rest & [= -> ->] & Hc')]; [|congruence]. simpl.
      rewrite app_nil_r. unfold path_elems. simpl. rewrite Hc. by destruct cur.
    + rewrite IH by (left; by destruct cur). destruct (elem_of_path path) as [e r]. simpl.
      by rewrite <- app_assoc.
Qed.

Lemma skip_slashes_head path c rest : skip_slashes path = c :: rest -> (c =? SLASH) = false.
Proof.
  induction path as [|x path IH]; [done|]. simpl. destruct (x =? SLASH) eqn:Hx; [done|]. by intros [= -> ->].
Qed.

Lemma elem_of_path_shorter path : (length (elem_of_path path).2 <= length path)%nat.
Proof.
  induction path as [|c path IH]; simpl; [done|]. destruct (c =? SLASH); [done|].
  destruct (elem_of_path path) as [e r]. simpl in *. lia.
Qed.

Lemma skip_slashes_shorter path : (length (skip_slashes path) <= length path)%nat.
Proof. induction path as [|c path IH]; simpl; [done|]. destruct (c =? SLASH); simpl; lia. Qed.

(** The name buffer after [skipelem] stored element [e] in it. *)
Definition named (e name : bytes) : Prop :=
  forall k, (k < Z.to_nat DIRSIZ)%nat -> (k <= length e)%nat -> str_at name k = str_at e k.

Lemma skipelem_elems path name : length name = Z.to_nat DIRSIZ ->
  match skipelem path name with
  | None => path_elems path = []
  | Some (path', name') => exists e, e <> [] /\ path_elems path = e :: path_elems path' /\
      named e name' /\ length name' = Z.to_nat DIRSIZ /\ (length path' < length path)%nat
  end.
Proof.
  intros Hname. unfold skipelem. rewrite <- split_skip. pose proof (skip_slashes_shorter path) as Hsh.
  destruct (skip_slashes path) as [|c rest] eqn:Hs; [done|].
  apply skip_slashes_head in Hs as Hc. destruct (elem_of_path (c :: rest)) as [e r] eqn:He.
  pose proof (split_elem [] (c :: rest) ltac:(right; eauto)) as Hsplit. rewrite He in Hsplit. simpl in Hsplit.
  assert (e <> []) as Hne by (simpl in He; rewrite Hc in He; destruct (elem_of_path rest); by injection He as <- _).
  assert (length r <= length rest)%nat as Hr.
  { simpl in He. rewrite Hc in He. pose proof (elem_of_path_shorter rest) as Hle.
    destruct (elem_of_path rest) as [e' r']. injection He as <- <-. done. }
  pose proof (skip_slashes_shorter r). exists e. split; [done|]. split.
  { rewrite split_skip. unfold path_elems at 1. by rewrite <- Hsplit. }
  unfold named. change (Z.to_nat DIRSIZ) with 14%nat in *. unfold DIRSIZ.
  destruct (Z.leb_spec 14 (Z.of_nat (length e))) as [Hl|Hl]; split_and!; try (simpl in Hsh; lia).
  - intros k Hk _. unfold str_at. rewrite lookup_splice by (rewrite length_take; lia).
    rewrite length_take, decide_True by lia. rewrite Nat.sub_0_r. by rewrite lookup_take_lt by lia.
  - rewrite length_splice; [done|rewrite length_take; lia].
  - intros k Hk Hke. unfold str_at. rewrite lookup_splice by (rewrite length_app; simpl; lia).
    rewrite length_app. simpl length. rewrite decide_True by lia. rewrite Nat.sub_0_r.
    destruct (decide (k = length e)) as [->|].
    + rewrite lookup_app_r, Nat.sub_diag by lia. rewrite (lookup_ge_None_2 e) by lia. done.
    + by rewrite lookup_app_l by lia.
  - rewrite length_splice; [done|rewrite length_app; simpl; lia].
Qed.
