(* ===== verification/FsWrite.v ===== *)
(** * Growing and writing files: [bmap] with allocation, [writei]

    A file is its data blocks and its indirect block, all distinct, in use and
    outside the free map; [bmap] adds one block to it, [writei] changes exactly
    the bytes written.  The transaction must have room for the blocks
    modified: at most five per block of the file that is written, and the
    inode. *)
From S2P Require Import Prelude Params Sleeplock CString Interfaces Fs FsBlocks FsInode FsData.

(** ** Slots: where the blocks of a file are

    Slot -1 is the indirect block, slot k >= 0 block k, given the contents v of
    the blocks. *)

Definition is_slot (k : Z) : Prop := -1 <= k < MAXFILE.
Definition slot_in (v : Z -> bytes) (i : inode) (k : Z) : Z :=
  if k =? -1 then i_addr i NDIRECT
  else if k <? NDIRECT then i_addr i k
  else if i_addr i NDIRECT =? 0 then 0
  else ind_get (v (i_addr i NDIRECT)) (k - NDIRECT).

Lemma set_iaddr_addr i k j a : inode_ok i -> 0 <= k <= NDIRECT -> 0 <= j ->
  i_addr (set_iaddr k a i) j = if decide (j = k) then a else i_addr i j.
Proof.
  intros Hok Hk Hj. unfold i_addr, set_iaddr. cbn [i_addrs]. unfold inode_ok in Hok. case_decide as E.
  - subst j. apply list_lookup_total_insert_eq. klia.
  - apply list_lookup_total_insert_ne. lia.
Qed.

Lemma set_iaddr_ok k a i : inode_ok i -> inode_ok (set_iaddr k a i).
Proof. unfold inode_ok, set_iaddr. cbn [i_addrs]. by rewrite length_insert. Qed.

(** A direct block, and a fresh indirect block. *)
Lemma slot_in_direct v i bn r k : inode_ok i -> 0 <= bn < NDIRECT -> is_slot k ->
  slot_in v (set_iaddr bn r i) k = if decide (k = bn) then r else slot_in v i k.
Proof.
  intros Hok Hbn Hk. unfold slot_in, is_slot in *. rewrite (set_iaddr_addr i bn NDIRECT) by (done || klia).
  rewrite decide_False by lia. destruct (Z.eqb_spec k (-1)) as [->|Hn]; [by rewrite decide_False by lia|].
  destruct (Z.ltb_spec k NDIRECT); [apply set_iaddr_addr; (done || klia)|]. by rewrite decide_False by lia.
Qed.

Lemma ind_get_zero j : 0 <= j < NINDIRECT -> ind_get zero_block j = 0.
Proof.
  intros Hj. unfold ind_get, get_u32, zero_block, slice.
  rewrite drop_replicate, take_replicate. generalize (Nat.min 4 (Z.to_nat BSIZE - Z.to_nat (4 * j))). intros n.
  induction n as [|n IH]; cbn; [done|]. by rewrite IH.
Qed.

Lemma slot_in_ind v i r k : inode_ok i -> i_addr i NDIRECT = 0 -> v r = zero_block -> is_slot k ->
  slot_in v (set_iaddr NDIRECT r i) k = if decide (k = -1) then r else slot_in v i k.
Proof.
  intros Hok Hz Hv Hk. unfold slot_in, is_slot in *. rewrite (set_iaddr_addr i NDIRECT NDIRECT) by (done || klia).
  rewrite (decide_True (P:=NDIRECT = NDIRECT)) by done. destruct (Z.eqb_spec k (-1)) as [->|Hn]; [by rewrite decide_True|].
  rewrite (decide_False (P:=k = -1)) by lia.
  destruct (Z.ltb_spec k NDIRECT); [rewrite set_iaddr_addr, decide_False by (done || klia); done|]. rewrite Hz, Hv. cbn [Z.eqb].
  destruct (r =? 0); [done|]. apply ind_get_zero. klia.
Qed.

(** An entry of the indirect block. *)
Lemma slot_in_put v v' i bn r k : i_addr i NDIRECT <> 0 -> 0 <= r < 2^32 ->
  length (v (i_addr i NDIRECT)) = Z.to_nat BSIZE -> NDIRECT <= bn < MAXFILE ->
  v' (i_addr i NDIRECT) = ind_put (v (i_addr i NDIRECT)) (bn - NDIRECT) r -> is_slot k ->
  slot_in v' i k = if decide (k = bn) then r else slot_in v i k.
Proof.
  intros Hnz Hr Hlen Hbn Hv Hk. unfold slot_in, is_slot in *. destruct (Z.eqb_spec k (-1)) as [->|Hn];
    [by rewrite decide_False by klia|].
  destruct (Z.ltb_spec k NDIRECT); [by rewrite decide_False by lia|]. rewrite (proj2 (Z.eqb_neq _ _) Hnz), Hv.
  unfold ind_get, ind_put. case_decide as E.
  - subst k. rewrite get_put_u32_same by klia. by apply u32_id.
  - apply get_put_u32_ne; klia.
Qed.

Section write.
Context {D U : Type} `{BlockLaws D} `{UserMem U}.
Context (sb : superblock).
Implicit Types (d : D) (s : @fstate D U) (i : inode).

Definition slot d i (k : Z) : Z := if k =? -1 then i_addr i NDIRECT else bmap_at d i k.

(** A block in use for data. *)
Definition good_block d (b : Z) : Prop :=
  0 < b < sb_size sb /\ block_used d sb b = true /\ bl_home d b /\ b ∉ (map_img (bl_held d) : gset Z) /\
  forall b', 0 <= b' < sb_size sb -> b <> BBLOCK b' sb.

Record file_ok d i : Prop := {
  fk_inode : inode_ok i;
  fk_dev : i_dev i = ROOTDEV;
  fk_good : forall k, is_slot k -> slot d i k <> 0 -> good_block d (slot d i k);
  fk_inj : forall k k', is_slot k -> is_slot k' -> slot d i k = slot d i k' -> slot d i k <> 0 -> k = k' }.

(** Inside a transaction with room for n more blocks. *)
Record fs_ok d (n : nat) : Prop := {
  fw_geom : alloc_geom d sb;
  fw_wf : bl_wf d;
  fw_open : bl_open d;
  fw_zero : 0 < sb_size sb /\ block_used d sb 0 = true;
  fw_room : (size (bl_txn d) + size (bl_held d) + n < NBUF)%nat }.

Lemma fs_ok_le d n m : (m <= n)%nat -> fs_ok d n -> fs_ok d m.
Proof. intros Hle [? ? ? ? ?]. split; try done. lia. Qed.

Lemma good_can_read d b n : fs_ok d n -> good_block d b -> can_read d b.
Proof. intros Hfs (? & ? & ? & ? & ?). split_and!; try done; [apply Hfs|]. pose proof (fw_room _ _ Hfs). lia. Qed.

(** ** Effects *)

(** The file grows from (d, i) to (d', i'): its blocks stay, new ones were
    free, and blocks in use elsewhere keep their contents. *)
Record grows d i d' i' : Prop := {
  gr_same : bl_same d d';
  gr_held : bl_held d' = bl_held d;
  gr_used : forall b, 0 <= b < sb_size sb -> block_used d sb b = true -> block_used d' sb b = true;
  gr_slots : forall k, is_slot k -> slot d i k <> 0 -> slot d' i' k = slot d i k;
  gr_new : forall k, is_slot k -> slot d i k = 0 -> slot d' i' k <> 0 -> block_used d sb (slot d' i' k) = false;
  gr_frame : forall b, 0 < b < sb_size sb -> block_used d sb b = true ->
    (forall b', 0 <= b' < sb_size sb -> b <> BBLOCK b' sb) -> (forall k, is_slot k -> slot d i k <> b) ->
    bl_view d' b = bl_view d b;
  gr_inode : exists addrs, i' = mkInode (i_dev i) (i_inum i) (i_ref i) (i_lock i) (i_valid i) (i_type i)
    (i_major i) (i_minor i) (i_nlink i) (i_size i) addrs }.

Lemma grows_refl d i : bl_wf d -> grows d i d i.
Proof. intros Hwf. split; try done. exists (i_addrs i). by destruct i. Qed.

Lemma grows_trans d i d1 i1 d2 i2 : file_ok d2 i2 -> grows d i d1 i1 -> grows d1 i1 d2 i2 -> grows d i d2 i2.
Proof.
  intros Hf2 G1 G2. split.
  - by eapply same_trans; [apply G1|apply G2].
  - rewrite (gr_held _ _ _ _ G2). apply G1.
  - intros b Hb Hu. by apply G2, G1.
  - intros k Hk Hnz. rewrite (gr_slots _ _ _ _ G2); [by apply G1|done|]. by rewrite (gr_slots _ _ _ _ G1).
  - intros k Hk Hz Hnz. destruct (decide (slot d1 i1 k = 0)) as [Hz1|Hz1].
    + pose proof (gr_new _ _ _ _ G2 k Hk Hz1 Hnz) as Hu. destruct (fk_good _ _ Hf2 k Hk Hnz) as (Hr & _).
      destruct (block_used d sb (slot d2 i2 k)) eqn:E; [|done]. apply (gr_used _ _ _ _ G1) in E; [congruence|lia].
    + rewrite (gr_slots _ _ _ _ G2) by done. by apply (gr_new _ _ _ _ G1).
  - intros b Hb Hu Hnb Hns. rewrite (gr_frame _ _ _ _ G2); [by apply G1|done|apply G1; [lia|done]|done|].
    intros k Hk <-. destruct (decide (slot d i k = 0)) as [Hz|Hz].
    + rewrite (gr_new _ _ _ _ G1 k Hk Hz) in Hu; [done|lia].
    + apply (Hns k Hk). symmetry. by apply (gr_slots _ _ _ _ G1).
  - destruct (gr_inode _ _ _ _ G1) as (a1 & ->). destruct (gr_inode _ _ _ _ G2) as (a2 & ->). by exists a2.
Qed.

(** ** One allocated block *)

Lemma alloc_geom_alloc d d' r : alloc_geom d sb -> alloc_post d d' sb r -> alloc_geom d' sb.
Proof.
  intros [Hg1 Hg2 Hg3 Hg4] (Hs & Hh & _ & _ & Hu & _). split; [done|done|..].
  - intros b Hb. rewrite Hh. destruct (Hg3 b Hb). split; [by eapply same_home|done].
  - intros b Hb Hf. rewrite Hu in Hf by done. destruct (decide (b = r)); [done|]. rewrite Hh.
    destruct (Hg4 b Hb Hf) as (? & ? & ?). split_and!; [by eapply same_home|done..].
Qed.

Lemma size_union_one (X : gset Z) (a : Z) : (size ({[a]} ∪ X) <= size X + 1)%nat.
Proof.
  rewrite size_union_alt, size_singleton. assert (size (X ∖ {[a]}) <= size X)%nat by (apply subseteq_size; set_solver). lia.
Qed.
Lemma size_union_two (X : gset Z) (a b : Z) : (size ({[a]} ∪ ({[b]} ∪ X)) <= size X + 2)%nat.
Proof. pose proof (size_union_one ({[b]} ∪ X) a). pose proof (size_union_one X b). lia. Qed.

Lemma fs_ok_alloc d d' r n : fs_ok d (n + 2) -> 0 <= r < sb_size sb -> alloc_post d d' sb r -> fs_ok d' n.
Proof.
  intros [Hg Hwf Ho [Hz Hzu] Hr] Hrr Hp. pose proof (alloc_geom_alloc d d' r Hg Hp) as Hg'.
  destruct Hp as (Hs & Hh & Ht & _ & Hu & _). split; [done|by eapply same_wf|by eapply same_open| |].
  - split; [done|]. rewrite Hu by lia. by destruct (decide (0 = r)).
  - rewrite Hh, Ht. pose proof (size_union_two (bl_txn d) r (BBLOCK r sb)). lia.
Qed.

(** What an allocation leaves alone: every used block outside the free map. *)
Lemma alloc_view d d' r b : alloc_post d d' sb r -> 0 <= r < sb_size sb -> block_used d sb r = false ->
  block_used d sb b = true -> (forall b', 0 <= b' < sb_size sb -> b <> BBLOCK b' sb) -> bl_view d' b = bl_view d b.
Proof.
  intros (_ & _ & _ & _ & _ & Hv & _) Hr Hf Hu Hb. apply Hv; [|by apply Hb]. intros ->. congruence.
Qed.

(** The slots of a file only depend on its inode and its indirect block. *)
Lemma slot_view d d' i k : bl_view d' (i_addr i NDIRECT) = bl_view d (i_addr i NDIRECT) \/ i_addr i NDIRECT = 0 ->
  slot d' i k = slot d i k.
Proof. intros Hv. unfold slot, bmap_at. destruct Hv as [-> | ->]; done. Qed.

Lemma slot_ind d i : slot d i (-1) = i_addr i NDIRECT.
Proof. done. Qed.

Lemma alloc_slot d d' r i k : file_ok d i -> alloc_post d d' sb r -> 0 <= r < sb_size sb -> block_used d sb r = false ->
  slot d' i k = slot d i k.
Proof.
  intros Hf Hp Hr Hfree. apply slot_view. destruct (decide (i_addr i NDIRECT = 0)) as [|Hnz]; [by right|left].
  destruct (fk_good _ _ Hf (-1)) as (_ & Hu & _ & _ & Hb); [unfold is_slot; klia|done|].
  by eapply alloc_view.
Qed.

(** ** Read-only steps *)

Lemma good_ro d d' b : ro_post d d' -> good_block d b -> good_block d' b.
Proof.
  intros (Hs & Hv & Hh & _) (Hr & Hub & Hhome & Hheld & Hb). split_and!; try lia; try done.
  - by rewrite (same_used d d').
  - by eapply same_home.
  - by rewrite Hh.
Qed.
Lemma slot_ro d d' i k : ro_post d d' -> slot d' i k = slot d i k.
Proof. intros (_ & Hv & _). apply slot_view. by left. Qed.
Lemma file_ok_ro d d' i : ro_post d d' -> file_ok d i -> file_ok d' i.
Proof.
  intros Hro Hf. split; [apply Hf|apply Hf|..].
  - intros k Hk. rewrite (slot_ro d d') by done. intros Hnz. eapply good_ro; [done|]. by apply Hf.
  - intros k k' Hk Hk'. rewrite !(slot_ro d d') by done. apply Hf; done.
Qed.
Lemma fs_ok_ro d d' n : ro_post d d' -> fs_ok d n -> fs_ok d' n.
Proof.
  intros Hro [Hg Hwf Ho [Hz Hzu] Hr]. pose proof Hro as (Hs & Hv & Hh & Ht & _).
  split; [by eapply alloc_geom_ro|by eapply same_wf|by eapply same_open| |by rewrite Ht, Hh].
  split; [done|]. by rewrite (same_used d d').
Qed.
Lemma grows_ro d d' i : ro_post d d' -> grows d i d' i.
Proof.
  intros Hro. pose proof Hro as (Hs & Hv & Hh & Ht & _). split; try done.
  - intros b Hb Hu. by rewrite (same_used d d').
  - intros k Hk _. by apply slot_ro.
  - intros k Hk Hz. by rewrite (slot_ro d d') by done.
  - exists (i_addrs i). by destruct i.
Qed.

(** ** Adding a block to a file *)

Lemma add_slot_file d1 d2 i i2 bn r : file_ok d1 i -> (forall b, good_block d1 b -> good_block d2 b) ->
  good_block d2 r -> (forall k, is_slot k -> slot d1 i k <> r) -> is_slot bn -> slot d1 i bn = 0 ->
  (forall k, is_slot k -> slot d2 i2 k = if decide (k = bn) then r else slot d1 i k) ->
  inode_ok i2 -> i_dev i2 = ROOTDEV -> file_ok d2 i2.
Proof.
  intros Hf Hgood Hr Hnew Hbn Hz Hslots Hok Hdev. split; [done|done|..].
  - intros k Hk. rewrite Hslots by done. case_decide; [done|]. intros Hnz. by apply Hgood, Hf.
  - intros k k' Hk Hk'. rewrite !Hslots by done. repeat case_decide; subst; try done.
    + intros E. by destruct (Hnew k' Hk').
    + intros E. by destruct (Hnew k Hk).
    + apply Hf; done.
Qed.

Lemma slot_set_direct d i bn r k : inode_ok i -> 0 <= bn < NDIRECT -> is_slot k ->
  slot d (set_iaddr bn r i) k = if decide (k = bn) then r else slot d i k.
Proof. apply slot_in_direct. Qed.
Lemma slot_set_ind d i r k : inode_ok i -> i_addr i NDIRECT = 0 -> bl_view d r = zero_block -> is_slot k ->
  slot d (set_iaddr NDIRECT r i) k = if decide (k = -1) then r else slot d i k.
Proof. apply slot_in_ind. Qed.
Lemma slot_put_ind d d' i bn r k : i_addr i NDIRECT <> 0 -> 0 <= r < 2^32 ->
  length (bl_view d (i_addr i NDIRECT)) = Z.to_nat BSIZE -> NDIRECT <= bn < MAXFILE ->
  bl_view d' (i_addr i NDIRECT) = ind_put (bl_view d (i_addr i NDIRECT)) (bn - NDIRECT) r -> is_slot k ->
  slot d' i k = if decide (k = bn) then r else slot d i k.
Proof. apply slot_in_put. Qed.

(** ** [bmap] *)

Record mapping (n : nat) d i d' i' (bn r : Z) : Prop := {
  mt_grows : grows d i d' i';
  mt_file : file_ok d' i';
  mt_fs : fs_ok d' n;
  mt_slot : slot d' i' bn = r;
  mt_other : forall k, 0 <= k < MAXFILE -> k <> bn -> slot d' i' k = slot d i k;
  mt_data : forall k, 0 <= k < MAXFILE -> slot d i k <> 0 -> bl_view d' (slot d i k) = bl_view d (slot d i k);
  mt_zero : slot d i bn = 0 -> r <> 0 -> bl_view d' r = zero_block;
  mt_full : r = 0 -> forall b, 0 <= b < sb_size sb -> block_used d' sb b = true }.

Lemma mapping_ro n d i d' bn : fs_ok d n -> file_ok d i -> ro_post d d' ->
  (slot d i bn = 0 -> forall b, 0 <= b < sb_size sb -> block_used d sb b = true) -> mapping n d i d' i bn (slot d i bn).
Proof.
  intros Hfs Hf Hro Hfull. pose proof Hro as (_ & Hv & _). split; try done.
  - by apply grows_ro.
  - by eapply file_ok_ro.
  - by eapply fs_ok_ro.
  - by apply slot_ro.
  - intros k _ _. by apply slot_ro.
  - intros Hz b Hb. rewrite (same_used d d') by done. by apply Hfull.
Qed.

(** The free block r becomes slot bn; blocks in use other than the indirect one
    are as before. *)
Lemma mapping_add n d i d2 i2 bn r : file_ok d i -> alloc_geom d sb -> 0 < r < sb_size sb ->
  block_used d sb r = false -> is_slot bn -> slot d i bn = 0 ->
  bl_same d d2 -> bl_held d2 = bl_held d ->
  (forall b, 0 <= b < sb_size sb -> block_used d2 sb b = if decide (b = r) then true else block_used d sb b) ->
  bl_view d2 r = zero_block ->
  (forall b, block_used d sb b = true -> (forall b', 0 <= b' < sb_size sb -> b <> BBLOCK b' sb) ->
     b <> i_addr i NDIRECT \/ i_addr i NDIRECT = 0 -> bl_view d2 b = bl_view d b) ->
  fs_ok d2 n -> (forall k, is_slot k -> slot d2 i2 k = if decide (k = bn) then r else slot d i k) ->
  inode_ok i2 -> (exists addrs, i2 = mkInode (i_dev i) (i_inum i) (i_ref i) (i_lock i) (i_valid i) (i_type i)
    (i_major i) (i_minor i) (i_nlink i) (i_size i) addrs) -> mapping n d i d2 i2 bn r.
Proof.
  intros Hf Hg Hr Hfree Hbn Hz Hs Hh Hu Hzr Hv Hfs2 Hslots Hok Haddrs.
  assert (forall k, is_slot k -> slot d i k <> r) as Hnew.
  { intros k Hk <-. destruct (decide (slot d i k = 0)); [lia|]. destruct (fk_good _ _ Hf k) as (_ & ? & _); congruence. }
  assert (file_ok d2 i2) as Hf2.
  { apply (add_slot_file d d2 i i2 bn r); try done.
    - intros b (? & ? & ? & ? & ?). split_and!; try lia; try done; [|by eapply same_home|by rewrite Hh].
      rewrite Hu by lia. by case_decide.
    - destruct (ag_free _ _ Hg r ltac:(lia) Hfree) as (? & ? & ?).
      split_and!; try lia; try done; [by rewrite Hu, decide_True by lia|by eapply same_home|by rewrite Hh].
    - destruct Haddrs as (? & ->). apply Hf. }
  split; try done.
  - split; try done.
    + intros b Hb Hub. rewrite Hu by done. by case_decide.
    + intros k Hk Hnz. rewrite Hslots by done. case_decide; [congruence|done].
    + intros k Hk Hzk. rewrite Hslots by done. case_decide; [done|congruence].
    + intros b Hb Hub Hnb Hns. apply Hv; [done|done|]. left. intros ->. apply (Hns (-1)); [unfold is_slot; klia|done].
  - rewrite Hslots by done. by rewrite decide_True.
  - intros k Hk Hkb. rewrite Hslots by (unfold is_slot; lia). by rewrite decide_False.
  - intros k Hk Hnz. destruct (fk_good _ _ Hf k ltac:(unfold is_slot; lia) Hnz) as (_ & Hub & _ & _ & Hnb).
    apply Hv; [done|done|]. destruct (decide (i_addr i NDIRECT = 0)); [by right|left]. intros E.
    assert (k = -1); [|lia]. apply (fk_inj _ _ Hf); [unfold is_slot; lia|unfold is_slot; klia|done|done].
  - lia.
Qed.

(** The same after [balloc]. *)
Lemma mapping_alloc n d i d' i2 bn r : file_ok d i -> fs_ok d (n + 2) -> 0 < r < sb_size sb ->
  block_used d sb r = false -> alloc_post d d' sb r -> is_slot bn -> slot d i bn = 0 ->
  (forall k, is_slot k -> slot d' i2 k = if decide (k = bn) then r else slot d' i k) ->
  inode_ok i2 -> (exists addrs, i2 = mkInode (i_dev i) (i_inum i) (i_ref i) (i_lock i) (i_valid i) (i_type i)
    (i_major i) (i_minor i) (i_nlink i) (i_size i) addrs) -> mapping n d i d' i2 bn r.
Proof.
  intros Hf Hfs Hr Hfree Hp Hbn Hz Hslots Hok Haddrs. pose proof Hp as (Hs & Hh & _ & Hzr & Hu & _).
  apply mapping_add; try done.
  - apply Hfs.
  - intros b Hub Hnb _. apply (alloc_view d d' r); (done || lia).
  - apply (fs_ok_alloc d d' r); (done || lia).
  - intros k Hk. rewrite Hslots by done. case_decide; [done|]. apply (alloc_slot d d' r); (done || lia).
Qed.

(** ** Writing a data block of the file *)

Lemma upd_slot d d' i bn x k : file_ok d i -> 0 <= bn < MAXFILE -> slot d i bn <> 0 ->
  upd_post d d' (slot d i bn) x -> slot d' i k = slot d i k.
Proof.
  intros Hf Hbn Hnz (_ & Hv & _). apply slot_view. destruct (decide (i_addr i NDIRECT = 0)); [by right|left].
  rewrite Hv, decide_False; [done|]. intros E. assert (bn = -1); [|lia].
  apply (fk_inj _ _ Hf); [unfold is_slot; lia|unfold is_slot; klia|by rewrite <- E|done].
Qed.

Lemma upd_used d d' b x b' : good_block d b -> upd_post d d' b x -> 0 <= b' < sb_size sb ->
  block_used d' sb b' = block_used d sb b'.
Proof.
  intros (_ & _ & _ & _ & Hb) (_ & Hv & _) Hr. unfold block_used. rewrite Hv, decide_False; [done|].
  intros E. by apply (Hb b').
Qed.

Lemma upd_file d d' i bn x : file_ok d i -> 0 <= bn < MAXFILE -> slot d i bn <> 0 ->
  upd_post d d' (slot d i bn) x -> file_ok d' i /\ grows d i d' i.
Proof.
  intros Hf Hbn Hnz Hp. pose proof Hp as (Hs & Hv & Hh & Ht & _).
  assert (is_slot bn) as Hsl by (unfold is_slot; lia). pose proof (fk_good _ _ Hf bn Hsl Hnz) as Hgb.
  split; [split; [apply Hf|apply Hf|..]|split; try done].
  - intros k Hk. rewrite (upd_slot d d' i bn x) by done. intros Hkz.
    destruct (fk_good _ _ Hf k Hk Hkz) as (? & ? & ? & ? & ?).
    split_and!; try lia; try done; [rewrite (upd_used d d' (slot d i bn) x) by (done || lia); done|by eapply same_home|by rewrite Hh].
  - intros k k' Hk Hk'. rewrite !(upd_slot d d' i bn x) by done. apply Hf; done.
  - intros b Hb Hu. by rewrite (upd_used d d' (slot d i bn) x).
  - intros k Hk _. by apply (upd_slot d d' i bn x).
  - intros k Hk Hz. by rewrite (upd_slot d d' i bn x).
  - intros b Hb Hu Hnb Hns. rewrite Hv, decide_False; [done|]. intros ->. by apply (Hns bn Hsl).
  - exists (i_addrs i). by destruct i.
Qed.

Lemma upd_fs d d' b x n : fs_ok d (n + 1) -> good_block d b -> upd_post d d' b x -> fs_ok d' n.
Proof.
  intros [[Hg1 Hg2 Hg3 Hg4] Hwf Ho [Hz Hzu] Hr] Hgb Hp. pose proof Hp as (Hs & Hv & Hh & Ht & _).
  split; [split|by eapply same_wf|by eapply same_open| |].
  - done.
  - done.
  - intros b' Hb. rewrite Hh. destruct (Hg3 b' Hb). split; [by eapply same_home|done].
  - intros b' Hb Hu. rewrite (upd_used d d' b x) in Hu by done. rewrite Hh. destruct (Hg4 b' Hb Hu) as (? & ? & ?).
    split_and!; [by eapply same_home|done..].
  - split; [done|]. rewrite (upd_used d d' b x) by (done || lia). done.
  - rewrite Hh, Ht. pose proof (size_union_one (bl_txn d) b). lia.
Qed.

(** ** Bytes of the file *)

Section bytes.
Context (d0 : D) (i0 : inode) (bs : bytes) (off0 : Z).

(** Byte k after the first tot bytes of bs were written at off0: blocks the
    file did not have read as zeros. *)
Definition written_byte (tot k : Z) : Z :=
  if decide (off0 <= k < off0 + tot) then bs !!! Z.to_nat (k - off0)
  else if decide (slot d0 i0 (k / BSIZE) = 0) then 0 else file_byte d0 i0 k.

Definition written (tot : Z) d i : Prop :=
  (forall k, 0 <= k < MAXFILE * BSIZE -> slot d i (k / BSIZE) <> 0 -> file_byte d i k = written_byte tot k) /\
  (forall k, off0 <= k < off0 + tot -> slot d i (k / BSIZE) <> 0).

Lemma bmap_slot d i k : 0 <= k -> bmap_at d i (k / BSIZE) = slot d i (k / BSIZE).
Proof.
  intros Hk. unfold slot. pose proof (Z.div_pos k BSIZE Hk ltac:(klia)). by replace (k / BSIZE =? -1) with false by lia.
Qed.

Lemma block_of k : 0 <= k < MAXFILE * BSIZE -> 0 <= k / BSIZE < MAXFILE.
Proof.
  intros Hk. split; [apply Z.div_pos; klia|]. apply Z.div_lt_upper_bound; klia.
Qed.

Lemma zero_block_at k : zero_block !!! Z.to_nat (k `mod` BSIZE) = 0.
Proof.
  apply list_lookup_total_correct, lookup_replicate. pose proof (Z.mod_pos_bound k BSIZE ltac:(klia)). split; [done|klia].
Qed.

(** A block is mapped. *)
Lemma written_mapping n tot d i d' i' bn r : 0 <= off0 -> off0 + tot <= MAXFILE * BSIZE -> 0 <= bn < MAXFILE ->
  grows d0 i0 d i -> written tot d i -> mapping n d i d' i' bn r -> written tot d' i'.
Proof.
  intros Hoff Hmax Hbn G [Hb Hm] M. split.
  - intros k Hk Hnz. destruct (block_of k Hk) as [Hk1 Hk2]. unfold file_byte. rewrite bmap_slot by lia.
    destruct (decide (slot d i (k / BSIZE) = 0)) as [Hz|Hold].
    + assert (k / BSIZE = bn) as Ek.
      { destruct (decide (k / BSIZE = bn)) as [|Hne]; [done|]. rewrite (mt_other _ _ _ _ _ _ _ M) in Hnz by (lia || done). done. }
      rewrite Ek, (mt_slot _ _ _ _ _ _ _ M) in *. rewrite (mt_zero _ _ _ _ _ _ _ M) by done. rewrite zero_block_at.
      unfold written_byte. rewrite decide_False.
      2:{ intros Hin. apply (Hm k Hin). by rewrite Ek. }
      rewrite decide_True; [done|]. rewrite Ek. destruct (decide (slot d0 i0 bn = 0)) as [|Hnz0]; [done|].
      rewrite (gr_slots _ _ _ _ G) in Hz; [done|unfold is_slot; lia|done].
    + rewrite (gr_slots _ _ _ _ (mt_grows _ _ _ _ _ _ _ M)) by (unfold is_slot; lia || done).
      rewrite (mt_data _ _ _ _ _ _ _ M) by (lia || done). rewrite <- Hb by done. unfold file_byte. by rewrite bmap_slot by lia.
  - intros k Hk. assert (0 <= k / BSIZE < MAXFILE) by (apply block_of; lia).
    rewrite (gr_slots _ _ _ _ (mt_grows _ _ _ _ _ _ _ M)); [by apply Hm|unfold is_slot; lia|by apply Hm].
Qed.

Lemma written_byte_more tot m k : 0 <= tot -> 0 <= m -> ~ (off0 + tot <= k < off0 + tot + m) ->
  written_byte (tot + m) k = written_byte tot k.
Proof.
  intros Ht Hm Hk. unfold written_byte. destruct (decide (off0 <= k < off0 + tot)).
  - by rewrite decide_True by lia.
  - by rewrite decide_False by lia.
Qed.

(** A byte of a block with a chunk of bs in it. *)
Lemma splice_byte (x : bytes) a m tot j : length x = Z.to_nat BSIZE -> 0 <= a -> 0 <= m -> a + m <= BSIZE ->
  0 <= tot -> tot + m <= Z.of_nat (length bs) -> 0 <= j < BSIZE ->
  splice x (Z.to_nat a) (slice bs (Z.to_nat tot) (Z.to_nat m)) !!! Z.to_nat j =
    if decide (a <= j < a + m) then bs !!! Z.to_nat (tot + (j - a)) else x !!! Z.to_nat j.
Proof.
  intros Hx Ha Hm Hfit Ht Hbs Hj. rewrite !list_lookup_total_alt.
  assert (length (slice bs (Z.to_nat tot) (Z.to_nat m)) = Z.to_nat m) as Hl by (apply length_slice; lia).
  rewrite lookup_splice by klia. rewrite Hl. destruct (decide (a <= j < a + m)).
  - rewrite decide_True, lookup_slice, decide_True by lia. do 2 f_equal. lia.
  - by rewrite decide_False by lia.
Qed.

(** A chunk is stored. *)
Lemma written_upd d d' i tot m : let off := off0 + tot in let b := slot d i (off / BSIZE) in
  file_ok d i -> bl_wf d -> 0 <= off0 -> 0 <= tot -> 0 < m -> off `mod` BSIZE + m <= BSIZE ->
  off + m <= MAXFILE * BSIZE -> tot + m <= Z.of_nat (length bs) -> b <> 0 -> written tot d i ->
  upd_post d d' b (splice (bl_view d b) (Z.to_nat (off `mod` BSIZE)) (slice bs (Z.to_nat tot) (Z.to_nat m))) ->
  written (tot + m) d' i.
Proof.
  intros off b Hf Hwf Hoff Ht Hm Hfit Hmax Hbs Hnz [Hb Hmp] Hp.
  assert (0 <= off / BSIZE < MAXFILE) as Hbn by (apply block_of; lia).
  assert (forall k, slot d' i k = slot d i k) as Hsl by (intros k; eapply (upd_slot d d' i (off / BSIZE)); done).
  assert (good_block d b) as (_ & _ & Hhome & _) by (apply (fk_good _ _ Hf); [unfold is_slot; lia|done]).
  destruct (bl_view_ok d b Hwf Hhome) as [Hlen _].
  pose proof (Z.mod_pos_bound off BSIZE ltac:(klia)) as Hmod. pose proof (Z_div_mod_eq_full off BSIZE) as Hdm.
  destruct Hp as (_ & Hv & _). split.
  - intros k Hk. rewrite Hsl. intros Hkz. specialize (Hb k Hk Hkz). unfold file_byte in *. rewrite bmap_slot in * by lia.
    rewrite Hsl. destruct (block_of k Hk) as [Hk1 Hk2].
    pose proof (Z.mod_pos_bound k BSIZE ltac:(klia)) as Hkm. pose proof (Z_div_mod_eq_full k BSIZE) as Hkdm.
    destruct (decide (k / BSIZE = off / BSIZE)) as [E|Hne].
    + rewrite E in *. fold b in Hb |- *. rewrite Hv, decide_True by done. rewrite splice_byte by lia. case_decide as Hin.
      * unfold written_byte. rewrite decide_True by lia. do 2 f_equal. lia.
      * rewrite Hb. symmetry. apply written_byte_more; lia.
    + rewrite Hv, decide_False.
      * rewrite Hb. symmetry. apply written_byte_more; [lia|lia|]. intros Hin. apply Hne. symmetry.
        apply Z.div_unique with (k - off + off `mod` BSIZE); [left; lia|lia].
      * intros E. apply Hne. apply (fk_inj _ _ Hf); [unfold is_slot; lia|unfold is_slot; lia|done|by rewrite E].
  - intros k Hk. rewrite Hsl. destruct (decide (k < off)); [apply Hmp; lia|].
    assert (k / BSIZE = off / BSIZE) as ->; [|done].
    symmetry. apply Z.div_unique with (k - off + off `mod` BSIZE); [left; lia|lia].
Qed.
End bytes.

Section on_file.
Context (s : @fstate D U) (ip : nat) (Hsb : f_sb s = sb) (Hip : (ip < length (f_itable s))%nat).

(** The file system state with disk d and inode i in entry ip. *)
Definition fput d i : @fstate D U := set_blk d (set_itable (<[ip := i]> (f_itable s)) s).

Lemma inode_at_fput d i : inode_at ip (fput d i) = i.
Proof. unfold inode_at, fput. cbn. by apply list_lookup_total_insert_eq. Qed.

Lemma modify_fput d i f (Q : unit -> fstate -> Prop) : Q tt (fput d (f i)) -> wp (modify_inode ip f) (fput d i) Q.
Proof.
  intros HQ. apply wp_modify.
  assert (alter f ip (<[ip := i]> (f_itable s)) = <[ip := f i]> (f_itable s)) as Ha.
  { rewrite !list_insert_alter, list_alter_alter_eq. done. }
  unfold fput in *. cbn in *. unfold set_itable in *. cbn in *. by rewrite Ha.
Qed.

Lemma balloc_fput d i n : fs_ok d (n + 2) ->
  wp (balloc ROOTDEV) (fput d i) (fun r s' => exists d', s' = fput d' i /\
    (r = 0 /\ ro_post d d' /\ (forall b, 0 <= b < sb_size sb -> block_used d sb b = true) \/
     0 < r < sb_size sb /\ block_used d sb r = false /\ alloc_post d d' sb r)).
Proof.
  intros [Hg Hwf Ho [Hz Hzu] Hr]. pose proof (balloc_wp (fput d i)) as Hb. cbn in Hb. rewrite Hsb in Hb.
  eapply wp_mono; [apply Hb; try done; lia|]. intros r s' (d' & -> & [(Hr1 & Hf & _ & Hp)|(-> & Hall & Hro)]);
    exists d'; (split; [done|]).
  - right. split_and!; try done; try lia. destruct (decide (r = 0)) as [->|]; [congruence|lia].
  - left. done.
Qed.

Lemma bmap_direct d i bn n : file_ok d i -> fs_ok d (n + 2) -> 0 <= bn < NDIRECT ->
  wp (bmap ip bn) (fput d i) (fun r s' => exists d' i', s' = fput d' i' /\ mapping n d i d' i' bn r).
Proof.
  intros Hf Hfs Hbn. unfold bmap. apply wp_bind, wp_gets. rewrite inode_at_fput.
  replace (bn <? NDIRECT) with true by lia.
  assert (slot d i bn = i_addr i bn) as Hslot.
  { unfold slot, bmap_at. by replace (bn =? -1) with false by lia; replace (bn <? NDIRECT) with true by lia. }
  destruct (Z.eqb_spec (i_addr i bn) 0) as [Hz|Hnz].
  - rewrite (fk_dev _ _ Hf). apply wp_bind. eapply wp_mono; [by apply (balloc_fput d i n)|].
    intros r s' (d' & -> & [(-> & Hro & Hfull)|(Hr & Hfree & Hp)]).
    + cbn [Z.eqb]. apply wp_ret. exists d', i. split; [done|]. rewrite <- Hz, <- Hslot.
      apply mapping_ro; [eapply fs_ok_le; [|done]; lia|done|done|done].
    + rewrite (proj2 (Z.eqb_neq r 0)) by lia. apply wp_bind, modify_fput, wp_ret. eexists _, _. split; [done|].
      pose proof (fk_inode _ _ Hf) as Hok.
      apply mapping_alloc; try done.
      * unfold is_slot. klia.
      * by rewrite Hslot.
      * intros k Hk. by apply slot_set_direct.
      * by apply set_iaddr_ok.
      * by eexists.
  - apply wp_ret. exists d, i. split; [done|]. rewrite <- Hslot.
    apply mapping_ro; [eapply fs_ok_le; [|done]; lia|done|apply ro_refl, Hfs|]. intros E. congruence.
Qed.

(** With the indirect block A in hand. *)
Lemma fs_ok_got d d1 h A n : fs_ok d (n + 1) -> good_block d A -> got d d1 h A -> fs_ok d1 n.
Proof.
  intros [[Hg1 Hg2 Hg3 Hg4] Hwf Ho [Hz Hzu] Hr] (_ & HuA & _ & _ & HbA) (Hs & Hv & Hnone & Hh & Ht & _).
  assert (forall b, b ∈ (map_img (bl_held d1) : gset Z) -> b = A \/ b ∈ (map_img (bl_held d) : gset Z)) as Himg.
  { intros b (k & Hk)%elem_of_map_img. rewrite Hh in Hk. apply lookup_insert_Some in Hk as [[_ <-]|[_ Hk]]; [by left|right].
    apply elem_of_map_img. eauto. }
  split; [split|by eapply same_wf|by eapply same_open| |].
  - done.
  - done.
  - intros b Hb. destruct (Hg3 b Hb). split; [by eapply same_home|]. intros [E|?]%Himg; [|done]. by apply (HbA b).
  - intros b Hb Hu. rewrite (same_used d d1) in Hu by done. destruct (Hg4 b Hb Hu) as (? & ? & ?).
    split_and!; [by eapply same_home| |done]. intros [->|?]%Himg; [congruence|done].
  - split; [done|]. by rewrite (same_used d d1).
  - rewrite Hh, Ht, map_size_insert_None by done. lia.
Qed.

Lemma got_ro d d1 d2 h A : got d d1 h A -> ro_post d1 d2 -> got d d2 h A.
Proof.
  intros (Hs & Hv & Hn & Hh & Ht & Hc & Hcm) (Hs2 & Hv2 & Hh2 & Ht2 & Hc2). split_and!; try congruence; try done; auto.
  by eapply same_trans.
Qed.

(** Storing the new entry in the held indirect block and releasing it. *)
Lemma put_entry d d1 d2 h A r x i : got d d1 h A -> alloc_post d1 d2 sb r -> r <> A -> BBLOCK r sb <> A -> bl_wf d ->
  bl_home d A -> bl_open d -> block_ok x -> Z.of_nat (size (bl_txn d2)) < LOGBLOCKS ->
  wp (blk (bl_set_data h x) ;;; blk (bl_log_write h)) (fput d2 i) (fun _ s3 =>
    exists d3, s3 = fput d3 i /\ wp (blk (bl_brelse h)) s3 (fun _ s4 => exists d4, s4 = fput d4 i /\ bl_same d d4 /\
      bl_held d4 = bl_held d /\ bl_txn d4 = {[A]} ∪ bl_txn d2 /\
      (forall b, bl_view d4 b = if decide (b = A) then x else bl_view d2 b))).
Proof.
  intros (Hs & Hv & Hn & Hh & Ht & _) (Hs2 & Hh2 & Ht2 & _) HrA HBA Hwf Hhome Hopen Hx Hroom.
  assert (bl_same d d2) as Hsd2 by by eapply same_trans.
  assert (bl_held d2 !! h = Some A) as Hheld by (rewrite Hh2, Hh; apply lookup_insert_eq).
  apply wp_bind. eapply wp_blk; [apply (bl_set_data_law d2 h A x); [by eapply same_wf|done|done]|].
  intros ? d3 (Hs3 & Hv3 & Hh3 & Ht3 & _). assert (bl_same d d3) as Hsd3 by by eapply same_trans.
  eapply wp_blk; [apply (bl_log_write_law d3 h A); [by eapply same_wf|by rewrite Hh3|by eapply same_home|by eapply same_open|by rewrite Ht3]|].
  intros ? d4 (Hs4 & Hv4 & Hh4 & Ht4 & _). assert (bl_same d d4) as Hsd4 by by eapply same_trans.
  exists d4. split; [done|].
  eapply wp_blk; [apply (bl_brelse_law d4 h A); [by eapply same_wf|by rewrite Hh4, Hh3|left; rewrite Ht4; set_solver]|].
  intros ? d5 (Hs5 & Hv5 & Hh5 & Ht5 & _). exists d5. split; [done|]. split_and!.
  - by eapply same_trans.
  - rewrite Hh5, Hh4, Hh3, Hh2, Hh. by apply delete_insert_id.
  - by rewrite Ht5, Ht4, Ht3.
  - intros b. by rewrite Hv5, Hv4, Hv3.
Qed.

(** The effect of a new entry of the indirect block, as a mapping. *)
Lemma entry_mapping n d i d2 d4 bn r : let A := i_addr i NDIRECT in
  file_ok d i -> fs_ok d n -> NDIRECT <= bn < MAXFILE -> A <> 0 -> slot d i bn = 0 -> 0 < r < sb_size sb ->
  block_used d sb r = false -> bl_same d d4 -> bl_held d4 = bl_held d ->
  (forall b, 0 <= b < sb_size sb -> block_used d2 sb b = if decide (b = r) then true else block_used d sb b) ->
  bl_view d2 r = zero_block -> (forall b, b <> r -> b <> BBLOCK r sb -> bl_view d2 b = bl_view d b) ->
  (forall b, bl_view d4 b = if decide (b = A) then ind_put (bl_view d A) (bn - NDIRECT) r else bl_view d2 b) ->
  (size (bl_txn d4) + size (bl_held d4) + n < NBUF)%nat -> mapping n d i d4 i bn r.
Proof.
  intros A Hf Hfs Hbn HA Hz Hr Hfree Hs Hh Hu2 Hz2 Hv2 Hv4 Hroom.
  destruct (fk_good _ _ Hf (-1)) as (HrA & HuA & HhA & _ & HbA); [unfold is_slot; klia|done|].
  change (slot d i (-1)) with A in *. assert (r <> A) as HrneA by congruence.
  assert (forall b, 0 <= b < sb_size sb -> block_used d4 sb b = if decide (b = r) then true else block_used d sb b) as Hu4.
  { intros b Hb. rewrite <- Hu2 by done. unfold block_used. rewrite Hv4, decide_False; [done|]. intros E. by apply (HbA b). }
  assert (alloc_geom d4 sb) as Hg4.
  { destruct (fw_geom _ _ Hfs) as [Hg1 Hg2 Hg3 Hg4]. split; [done|done|..].
    - intros b Hb. rewrite Hh. destruct (Hg3 b Hb). split; [by eapply same_home|done].
    - intros b Hb Hfb. rewrite Hu4 in Hfb by done. case_decide; [done|]. rewrite Hh.
      destruct (Hg4 b Hb Hfb) as (? & ? & ?). split_and!; [by eapply same_home|done..]. }
  apply mapping_add; try done.
  - apply Hfs.
  - unfold is_slot. klia.
  - by rewrite Hv4, decide_False.
  - intros b Hub Hnb [HbneA|]; [|done]. rewrite Hv4, decide_False by done. apply Hv2; [congruence|]. apply Hnb. lia.
  - split; [done|by eapply same_wf|by eapply same_open, Hfs| |done]. destruct (fw_zero _ _ Hfs) as [Hz0 Hzu].
    split; [done|]. rewrite Hu4 by lia. by case_decide.
  - intros k Hk. pose proof (ag_size _ _ (fw_geom _ _ Hfs)). apply slot_put_ind; try done; try lia.
    + by apply (bl_view_ok d A (fw_wf _ _ Hfs) HhA).
    + by rewrite Hv4, decide_True.
  - apply Hf.
  - exists (i_addrs i). by destruct i.
Qed.

Lemma ind_entry d i bn n : file_ok d i -> fs_ok d (n + 4) -> NDIRECT <= bn < MAXFILE -> i_addr i NDIRECT <> 0 ->
  wp (let! bp := blk (bl_bread ROOTDEV (i_addr i NDIRECT)) in
      let! x := blk (bl_data bp) in
      let! addr :=
        if ind_get x (bn - NDIRECT) =? 0 then
          let! addr := balloc ROOTDEV in
          when (negb (addr =? 0))
            (let! y := blk (bl_data bp) in
             blk (bl_set_data bp (ind_put y (bn - NDIRECT) addr)) ;;;
             blk (bl_log_write bp)) ;;;
          ret addr
        else ret (ind_get x (bn - NDIRECT)) in
      blk (bl_brelse bp) ;;;
      ret addr) (fput d i) (fun r s' => exists d', s' = fput d' i /\ mapping n d i d' i bn r).
Proof.
  intros Hf Hfs Hbn HA. set (A := i_addr i NDIRECT) in *.
  assert (slot d i bn = ind_get (bl_view d A) (bn - NDIRECT)) as Hslot.
  { unfold slot, bmap_at. replace (bn =? -1) with false by klia. replace (bn <? NDIRECT) with false by lia.
    fold A. by rewrite (proj2 (Z.eqb_neq _ _) HA). }
  assert (good_block d A) as HgA by (apply (fk_good _ _ Hf (-1)); [unfold is_slot; klia|done]).
  pose proof HgA as (HrA & HuA & HhA & _ & HbA). pose proof (fw_wf _ _ Hfs) as Hwf.
  pose proof (bl_view_ok d A Hwf HhA) as HxA.
  apply with_block; [cbn [fput f_blk set_blk]; by eapply good_can_read|]. intros h d1 Hgot. cbn [fput f_blk set_blk] in *.
  assert (fs_ok d1 (n + 1 + 2)) as Hfs1 by (eapply (fs_ok_got d d1 h A); [eapply fs_ok_le; [|done]; lia|done|done]).
  destruct (Z.eqb_spec (ind_get (bl_view d A) (bn - NDIRECT)) 0) as [Hz|Hnz].
  - apply wp_bind, wp_bind. eapply wp_mono; [by apply (balloc_fput d1 i (n + 1))|].
    intros r s' (d2 & -> & [(-> & Hro & Hfull)|(Hr & Hfree & Hp)]).
    + cbn [Z.eqb negb when]. apply wp_bind, wp_ret, wp_ret. apply wp_bind.
      eapply wp_mono; [eapply (put_clean (fput d i) d d2 h A), got_ro; done|]. intros ? s' (d3 & -> & Hro3). apply wp_ret.
      exists d3. split; [done|]. rewrite <- Hz, <- Hslot. apply mapping_ro; [eapply fs_ok_le; [|done]; lia|done|done|].
      intros _ b Hb. destruct Hgot as (_ & Hv & _). rewrite <- (same_used d d1) by done. by apply Hfull.
    + rewrite (proj2 (Z.eqb_neq r 0)) by lia. cbn [negb when]. pose proof Hgot as (Hs1 & Hv1 & _ & Hh1 & Ht1 & _).
      rewrite (same_used d d1) in Hfree by done. pose proof Hp as (Hs2 & Hh2 & Ht2 & Hz2 & Hu2 & Hv2 & _).
      assert (r <> A) as HrneA by congruence. pose proof (HbA r ltac:(lia)) as HBA.
      assert (bl_view d2 A = bl_view d A) as HvA by (rewrite Hv2 by congruence; apply Hv1).
      assert (block_ok (ind_put (bl_view d A) (bn - NDIRECT) r)) as Hx.
      { destruct HxA as [Hl Hb]. split; [unfold ind_put; rewrite length_put_u32; klia|by apply put_u32_bytes]. }
      pose proof (size_union_two (bl_txn d1) r (BBLOCK r sb)) as Hsz2. rewrite <- Ht2 in Hsz2.
      pose proof (fw_room _ _ Hfs1) as Hroom1. apply wp_bind, wp_bind.
      eapply wp_blk; [apply (bl_data_law d2 h A); [by eapply same_wf|rewrite Hh2; by apply (got_held d d1)]|].
      intros x d2' [-> ->]. rewrite HvA.
      eapply wp_mono; [apply (put_entry d d1 d2 h A r _ i); try done; [apply Hfs|klia]|].
      intros ? s3 (d3 & -> & Hrel). apply wp_ret, wp_bind. eapply wp_mono; [exact Hrel|].
      intros ? s4 (d4 & -> & Hs4 & Hh4 & Ht4 & Hv4). apply wp_ret. exists d4. split; [done|].
      pose proof (size_union_one (bl_txn d2) A) as Hsz4. rewrite <- Ht4 in Hsz4.
      assert (size (bl_held d1) = S (size (bl_held d))) as Hszh.
      { destruct Hgot as (_ & _ & Hnone & _). by rewrite Hh1, map_size_insert_None. }
      apply (entry_mapping n d i d2 d4); try done.
      * eapply fs_ok_le; [|done]. lia.
      * by rewrite Hslot.
      * intros b Hb. rewrite Hu2 by done. by rewrite (same_used d d1).
      * intros b Hb1 Hb2. by rewrite Hv2.
      * rewrite Hh4. lia.
  - apply wp_bind, wp_ret, wp_bind. eapply wp_mono; [by apply (put_clean (fput d i) d d1 h A)|].
    intros ? s' (d2 & -> & Hro). apply wp_ret. exists d2. split; [done|]. rewrite <- Hslot.
    apply mapping_ro; [eapply fs_ok_le; [|done]; lia|done|done|]. intros E. congruence.
Qed.

(** First the indirect block, then the entry. *)
Lemma mapping_trans n m d i d1 i1 d2 i2 A bn r : 0 <= bn < MAXFILE -> mapping m d i d1 i1 (-1) A ->
  mapping n d1 i1 d2 i2 bn r -> mapping n d i d2 i2 bn r.
Proof.
  intros Hbn M1 M2.
  assert (forall k, 0 <= k < MAXFILE -> slot d1 i1 k = slot d i k) as Hk by (intros k ?; apply (mt_other _ _ _ _ _ _ _ M1); lia).
  split.
  - eapply grows_trans; [apply M2|apply M1|apply M2].
  - exact (mt_file _ _ _ _ _ _ _ M2).
  - exact (mt_fs _ _ _ _ _ _ _ M2).
  - exact (mt_slot _ _ _ _ _ _ _ M2).
  - intros k Hkr Hne. rewrite (mt_other _ _ _ _ _ _ _ M2) by done. by apply Hk.
  - intros k Hkr Hnz. rewrite <- (mt_data _ _ _ _ _ _ _ M1 k Hkr Hnz), <- (Hk k Hkr).
    apply (mt_data _ _ _ _ _ _ _ M2 k Hkr). by rewrite Hk.
  - intros Hz. apply (mt_zero _ _ _ _ _ _ _ M2). by rewrite Hk.
  - exact (mt_full _ _ _ _ _ _ _ M2).
Qed.

(** [bmap] on any block of the file. *)
Lemma bmap_wp d i bn n : file_ok d i -> fs_ok d (n + 6) -> 0 <= bn < MAXFILE ->
  wp (bmap ip bn) (fput d i) (fun r s' => exists d' i', s' = fput d' i' /\ mapping n d i d' i' bn r).
Proof.
  intros Hf Hfs Hbn. destruct (decide (bn < NDIRECT)) as [Hlt|Hge].
  { apply bmap_direct; [done|eapply fs_ok_le; [|done]; lia|lia]. }
  unfold bmap. apply wp_bind, wp_gets. rewrite inode_at_fput, (fk_dev _ _ Hf).
  replace (bn <? NDIRECT) with false by lia. replace (bn - NDIRECT <? NINDIRECT) with true by klia.
  assert (forall d1 i1 A, mapping (n + 4) d i d1 i1 (-1) A -> A <> 0 ->
    wp (let! bp := blk (bl_bread ROOTDEV A) in
        let! x := blk (bl_data bp) in
        let! addr :=
          if ind_get x (bn - NDIRECT) =? 0 then
            let! addr := balloc ROOTDEV in
            when (negb (addr =? 0))
              (let! y := blk (bl_data bp) in
               blk (bl_set_data bp (ind_put y (bn - NDIRECT) addr)) ;;;
               blk (bl_log_write bp)) ;;;
            ret addr
          else ret (ind_get x (bn - NDIRECT)) in
        blk (bl_brelse bp) ;;;
        ret addr) (fput d1 i1) (fun r s' => exists d' i', s' = fput d' i' /\ mapping n d i d' i' bn r)) as Hrest.
  { intros d1 i1 A M1 HA. pose proof (mt_slot _ _ _ _ _ _ _ M1) as HA1. cbn in HA1. subst A.
    eapply wp_mono; [apply (ind_entry d1 i1 bn n); [apply M1|apply M1|lia|done]|].
    intros r s' (d2 & -> & M2). exists d2, i1. split; [done|]. by eapply mapping_trans. }
  destruct (Z.eqb_spec (i_addr i NDIRECT) 0) as [Hz|Hnz].
  - apply wp_bind, wp_bind. eapply wp_mono; [apply (balloc_fput d i (n + 4)); eapply fs_ok_le; [|done]; lia|].
    intros A s' (d1 & -> & [(-> & Hro & Hfull)|(HA & Hfree & Hp)]).
    + cbn [Z.eqb negb when]. apply wp_bind, wp_ret, wp_ret. cbv iota beta. apply wp_ret. exists d1, i. split; [done|].
      assert (slot d i bn = 0) as E.
      { unfold slot, bmap_at. replace (bn =? -1) with false by lia. replace (bn <? NDIRECT) with false by lia. by rewrite Hz. }
      rewrite <- E. apply mapping_ro; [eapply fs_ok_le; [|done]; lia|done|done|done].
    + rewrite (proj2 (Z.eqb_neq A 0)) by lia. cbn [negb when]. apply wp_bind, modify_fput, wp_ret.
      rewrite (proj2 (Z.eqb_neq A 0)) by lia. apply Hrest; [|lia]. pose proof (fk_inode _ _ Hf) as Hok.
      apply mapping_alloc; try done; [eapply fs_ok_le; [|done]; lia| |by apply set_iaddr_ok|by eexists].
      intros k Hk. apply slot_set_ind; try done. by destruct Hp as (_ & _ & _ & ? & _).
  - apply wp_bind, wp_ret. rewrite (proj2 (Z.eqb_neq _ _) Hnz). apply Hrest; [|done].
    change (i_addr i NDIRECT) with (slot d i (-1)). apply mapping_ro; [eapply fs_ok_le; [|done]; lia|done|apply ro_refl, Hfs|].
    intros E. by destruct Hnz.
Qed.

(** ** [writei] *)

Section writei.
Context (d i : _) (bs : bytes) (off0 : Z).
Let n := Z.of_nat (length bs).
Context (Hbs : Forall is_byte bs) (Hoff0 : 0 <= off0) (Hmax : off0 + n <= MAXFILE * BSIZE).

(** How many blocks the rest of the write touches. *)
Definition blocks_left (tot : Z) : Z :=
  if decide (tot < n) then (off0 + n - 1) / BSIZE - (off0 + tot) / BSIZE + 1 else 0.

Record writing (tot : Z) d1 i1 : Prop := {
  wr_range : 0 <= tot <= n;
  wr_file : file_ok d1 i1;
  wr_grows : grows d i d1 i1;
  wr_bytes : written d i bs off0 tot d1 i1;
  wr_whole : tot = 0 \/ tot = n \/ (off0 + tot) `mod` BSIZE = 0 }.

Lemma blocks_left_step tot m : 0 <= tot < n -> m = chunk n tot (off0 + tot) ->
  0 < m <= n - tot /\ (off0 + tot) `mod` BSIZE + m <= BSIZE /\ 0 <= blocks_left (tot + m) /\ blocks_left tot = blocks_left (tot + m) + 1.
Proof.
  intros Ht Hm. pose proof (Z.mod_pos_bound (off0 + tot) BSIZE ltac:(klia)) as Hmod.
  pose proof (Z_div_mod_eq_full (off0 + tot) BSIZE) as Hdm. unfold chunk in Hm.
  assert (0 < m <= n - tot /\ (off0 + tot) `mod` BSIZE + m <= BSIZE) as [Hm1 Hm2] by lia. split; [done|]. split; [done|].
  unfold blocks_left. rewrite (decide_True (P:=tot < n)) by lia. case_decide as Hmore.
  - assert (m = BSIZE - (off0 + tot) `mod` BSIZE) as Em by lia.
    assert ((off0 + (tot + m)) / BSIZE = (off0 + tot) / BSIZE + 1) as ->.
    { symmetry. apply Z.div_unique with 0; [left; klia|]. lia. }
    assert ((off0 + tot) / BSIZE + 1 <= (off0 + n - 1) / BSIZE); [|lia].
    apply Z.div_le_lower_bound; [klia|]. lia.
  - assert (m = n - tot) as Em by lia. split; [lia|].
    assert ((off0 + n - 1) / BSIZE = (off0 + tot) / BSIZE); [|lia]. symmetry.
    apply Z.div_unique with ((off0 + tot) `mod` BSIZE + m - 1); [left; lia|lia].
Qed.

(** A chunk ends the write or a block. *)
Lemma chunk_whole tot m : 0 <= tot < n -> m = chunk n tot (off0 + tot) -> tot + m = n \/ (off0 + (tot + m)) `mod` BSIZE = 0.
Proof.
  intros Ht Hm. unfold chunk in Hm. destruct (decide (tot + m = n)) as [|Hne]; [by left|right].
  pose proof (Z_div_mod_eq_full (off0 + tot) BSIZE) as Hdm.
  replace (off0 + (tot + m)) with (((off0 + tot) / BSIZE + 1) * BSIZE) by lia. apply Z.mod_mul. klia.
Qed.

Lemma copy_fuel_enough : blocks_left 0 <= Z.of_nat (copy_fuel n).
Proof.
  unfold blocks_left, copy_fuel. assert (0 <= n / BSIZE) by (apply Z.div_pos; klia). rewrite Z2Nat.id by lia.
  case_decide; [|lia]. rewrite Z.add_0_r.
  pose proof (Z_div_mod_eq_full (off0 + n - 1) BSIZE). pose proof (Z_div_mod_eq_full off0 BSIZE). pose proof (Z_div_mod_eq_full n BSIZE).
  pose proof (Z.mod_pos_bound (off0 + n - 1) BSIZE ltac:(klia)). pose proof (Z.mod_pos_bound off0 BSIZE ltac:(klia)).
  pose proof (Z.mod_pos_bound n BSIZE ltac:(klia)). klia.
Qed.

Lemma written_none : written d i bs off0 0 d i.
Proof.
  split; [|lia]. intros k Hk Hnz. unfold written_byte. rewrite decide_False by lia. by rewrite decide_False.
Qed.

Lemma writei_loop_wp c fuel tot d1 i1 : writing tot d1 i1 -> blocks_left tot <= Z.of_nat fuel ->
  fs_ok d1 (7 * Z.to_nat (blocks_left tot) + c) ->
  wp (writei_loop fuel ip (KernSrc bs) (off0 + tot) n tot) (fput d1 i1) (fun r s' => exists tot' d2 i2,
    r = (tot', off0 + tot') /\ s' = fput d2 i2 /\ writing tot' d2 i2 /\ fs_ok d2 c /\
    (tot' < n -> slot d2 i2 ((off0 + tot') / BSIZE) = 0 /\ forall b, 0 <= b < sb_size sb -> block_used d2 sb b = true)).
Proof.
  revert tot d1 i1. induction fuel as [|fuel IH]; intros tot d1 i1 W Hfuel Hfs; cbn [writei_loop];
    pose proof (wr_range _ _ _ W) as Ht; destruct (Z.ltb_spec tot n) as [Hlt|Hge].
  1: { destruct (blocks_left_step tot _ ltac:(lia) eq_refl). lia. }
  1,3: apply wp_ret; exists tot, d1, i1; split_and!; try done; [eapply fs_ok_le; [|done]; lia|lia].
  set (m := chunk n tot (off0 + tot)). destruct (blocks_left_step tot m ltac:(lia) eq_refl) as (Hm & Hfit & Hl & Hl').
  assert (0 <= (off0 + tot) / BSIZE < MAXFILE) as Hbn by (apply block_of; lia).
  apply wp_bind. eapply wp_mono.
  { apply (bmap_wp d1 i1 ((off0 + tot) / BSIZE) (7 * Z.to_nat (blocks_left (tot + m)) + c + 1)); [apply W| |done].
    eapply fs_ok_le; [|exact Hfs]. lia. }
  intros addr s' (d2 & i2 & -> & M). pose proof (mt_slot _ _ _ _ _ _ _ M) as Haddr.
  assert (writing tot d2 i2) as W2.
  { split; [lia|apply M|eapply grows_trans; [apply M|apply W|apply M]| |apply W].
    eapply (written_mapping d i bs off0); try done; [lia|apply W|apply W]. }
  pose proof (mt_fs _ _ _ _ _ _ _ M) as Hfs2. destruct (Z.eqb_spec addr 0) as [Hz|Hnz].
  { apply wp_ret. exists tot, d2, i2. split_and!; try done; [eapply fs_ok_le; [|exact Hfs2]; lia|].
    intros _. split; [congruence|]. by apply (mt_full _ _ _ _ _ _ _ M). }
  apply wp_bind, wp_gets. rewrite inode_at_fput, (fk_dev _ _ (wr_file _ _ _ W2)).
  assert (good_block d2 addr) as Hgood by (rewrite <- Haddr in *; apply (wr_file _ _ _ W2); [unfold is_slot; lia|done]).
  pose proof Hgood as (_ & _ & Hhome & _). pose proof (fw_wf _ _ Hfs2) as Hwf2. pose proof (bl_view_ok d2 addr Hwf2 Hhome) as Hx.
  destruct (good_can_read d2 addr _ Hfs2 Hgood) as (_ & _ & Hnh & Hroom).
  apply wp_bind. eapply wp_blk; [exact (bl_bread_law d2 addr Hwf2 Hhome Hnh Hroom)|]. intros h d3 Hgot.
  apply wp_bind, wp_ret. change (set_blk d3 (fput d2 i2)) with (fput d3 i2). apply wp_bind.
  eapply wp_blk; [apply (bl_data_law d3 h addr); [destruct Hgot as (Hs & _); by eapply same_wf|exact (got_held _ _ _ _ Hgot)]|].
  intros x d3' [-> ->]. cbn [fst snd]. change (0 =? -1) with false. cbv iota.
  change (set_blk d3 (fput d3 i2)) with (set_blk d3 (fput d2 i2)).
  assert (bl_view d3 addr = bl_view d2 addr) as -> by by destruct Hgot as (_ & Hv & _).
  eapply put_then.
  { eapply (put_update (fput d2 i2)); [exact Hgot|done|apply Hfs2| |pose proof (fw_room _ _ Hfs2); klia].
    pose proof (eq_refl : n = Z.of_nat (length bs)) as Hn. pose proof (Z.mod_pos_bound (off0 + tot) BSIZE ltac:(klia)) as Hmod.
    destruct Hx as [Hxl Hxb]. split; [rewrite length_splice; [done|rewrite length_slice, Hxl; lia]|].
    apply Forall_splice; [done|]. by apply Forall_take, Forall_drop. }
  intros s' (d4 & -> & Hupd). change (set_blk d4 (fput d2 i2)) with (fput d4 i2). rewrite <- Haddr in Hupd, Hnz, Hgood.
  destruct (upd_file d2 d4 i2 _ _ (wr_file _ _ _ W2) Hbn Hnz Hupd) as [Hf4 G4].
  rewrite u32_id by klia. replace (off0 + tot + m) with (off0 + (tot + m)) by lia. apply IH.
  - split; [lia|done|eapply grows_trans; [done|apply W2|done]| |right; apply chunk_whole; (done || lia)].
    eapply (written_upd d i bs off0 d2 d4 i2 tot m); try done; try lia; [apply W2|apply W2].
  - lia.
  - eapply (upd_fs d2 d4); [|exact Hgood|exact Hupd]. eapply fs_ok_le; [|exact Hfs2]. lia.
Qed.

Definition wrote_inode i (sz : Z) (addrs : list Z) : inode :=
  mkInode (i_dev i) (i_inum i) (i_ref i) (i_lock i) (i_valid i) (i_type i) (i_major i) (i_minor i) (i_nlink i) sz addrs.

(** What r bytes written leave: the file has grown to cover them, holds them,
    and keeps the rest; its inode is on disk; no other block in use changed. *)
Record wrote (r : Z) d' i' : Prop := {
  wo_range : 0 <= r <= n;
  wo_file : file_ok d' i';
  wo_inode : exists addrs, i' = wrote_inode i (Z.max (i_size i) (off0 + r)) addrs;
  wo_slots : forall k, is_slot k -> slot d i k <> 0 -> slot d' i' k = slot d i k;
  wo_bytes : written d i bs off0 r d' i';
  wo_disk : let B := IBLOCK (i_inum i) sb in
    bl_view d' B = store_dinode i' (dinode_off (i_inum i)) (bl_view d B);
  wo_frame : forall b, 0 < b < sb_size sb -> block_used d sb b = true ->
    (forall b', 0 <= b' < sb_size sb -> b <> BBLOCK b' sb) -> (forall k, is_slot k -> slot d i k <> b) ->
    b <> IBLOCK (i_inum i) sb -> bl_view d' b = bl_view d b /\ block_used d' sb b = true;
  wo_short : r < n -> slot d' i' ((off0 + r) / BSIZE) = 0 /\ forall b, 0 <= b < sb_size sb -> block_used d' sb b = true;
  wo_whole : r = 0 \/ r = n \/ (off0 + r) `mod` BSIZE = 0;
  wo_same : bl_same d d';
  wo_held : bl_held d' = bl_held d;
  wo_used : forall b, 0 <= b < sb_size sb -> block_used d sb b = true -> block_used d' sb b = true;
  wo_new : forall k, is_slot k -> slot d i k = 0 -> slot d' i' k <> 0 -> block_used d sb (slot d' i' k) = false }.

(** The inode is written to a block that is not part of the file. *)
Lemma wrote_intro tot d2 i2 d3 : let i3 := wrote_inode i (Z.max (i_size i) (off0 + tot)) (i_addrs i2) in
  let B := IBLOCK (i_inum i) sb in
  writing tot d2 i2 -> good_block d B -> good_block d2 B -> (forall k, is_slot k -> slot d i k <> B) ->
  (tot < n -> slot d2 i2 ((off0 + tot) / BSIZE) = 0 /\ forall b, 0 <= b < sb_size sb -> block_used d2 sb b = true) ->
  upd_post d2 d3 B (store_dinode i3 (dinode_off (i_inum i)) (bl_view d2 B)) -> wrote tot d3 i3.
Proof.
  intros i3 B [Hr Hf G [Wb Wm] Hwhole] HB HB2 Hns Hfull Hp. pose proof Hp as (Hs & Hv & Hh & Ht & _).
  destruct HB as (HBr & HBu & _ & _ & HBb).
  assert (forall k, is_slot k -> slot d2 i2 k <> B) as Hns2.
  { intros k Hk E. destruct (decide (slot d i k = 0)) as [Hz|Hz].
    - rewrite <- E, (gr_new _ _ _ _ G) in HBu; [done|done|done|lia].
    - apply (Hns k Hk). by rewrite <- (gr_slots _ _ _ _ G). }
  assert (forall k, slot d3 i3 k = slot d2 i2 k) as Hsl.
  { intros k. change (slot d3 i2 k = slot d2 i2 k). apply slot_view. left. rewrite Hv, decide_False; [done|].
    apply (Hns2 (-1)). unfold is_slot. klia. }
  assert (forall b, 0 <= b < sb_size sb -> block_used d3 sb b = block_used d2 sb b) as Hu
    by (intros b Hb; by apply (upd_used d2 d3 B _ b HB2 Hp)).
  split; [done| |by exists (i_addrs i2)|..].
  - split; [apply (fk_inode _ _ Hf)| | |].
    + destruct (gr_inode _ _ _ _ G) as (? & E). pose proof (fk_dev _ _ Hf) as Hdev. rewrite E in Hdev. exact Hdev.
    + intros k Hk. rewrite Hsl. intros Hnz. destruct (fk_good _ _ Hf k Hk Hnz) as (? & ? & ? & ? & ?).
      split_and!; try lia; try done; [rewrite Hu by lia; done|by eapply same_home|by rewrite Hh].
    + intros k k' Hk Hk'. rewrite !Hsl. by apply Hf.
  - intros k Hk Hnz. rewrite Hsl. by apply G.
  - split; [|intros k Hk; rewrite Hsl; by apply Wm]. intros k Hk. rewrite Hsl. intros Hnz.
    rewrite <- Wb by done. unfold file_byte. rewrite !bmap_slot, Hsl by lia.
    rewrite Hv, decide_False; [done|]. apply Hns2. pose proof (block_of k Hk). unfold is_slot. lia.
  - cbv zeta. fold B. rewrite Hv, decide_True by done. f_equal. by apply (gr_frame _ _ _ _ G).
  - intros b Hb Hbu Hbb Hbns Hne. split.
    + rewrite Hv, decide_False by done. by apply (gr_frame _ _ _ _ G).
    + rewrite Hu by lia. apply (gr_used _ _ _ _ G); [lia|done].
  - intros Hlt. destruct (Hfull Hlt) as [Hz Hall]. rewrite Hsl. split; [done|]. intros b Hb. rewrite Hu by done. by apply Hall.
  - done.
  - eapply same_trans; [apply G|done].
  - rewrite Hh. apply G.
  - intros b Hb Hbu. rewrite Hu by done. by apply G.
  - intros k Hk. rewrite Hsl. by apply G.
Qed.

Lemma good_grows b d1 i1 : good_block d b -> grows d i d1 i1 -> good_block d1 b.
Proof.
  intros (? & ? & ? & ? & ?) G. split_and!; try lia; try done; [apply G; [lia|done]|eapply same_home; [apply G|done]|].
  by rewrite (gr_held _ _ _ _ G).
Qed.

Lemma writei_wp c : let B := IBLOCK (i_inum i) sb in
  file_ok d i -> 0 <= i_inum i -> good_block d B -> (forall k, is_slot k -> slot d i k <> B) ->
  off0 <= i_size i -> fs_ok d (7 * Z.to_nat (blocks_left 0) + (c + 1)) ->
  wp (writei ip (KernSrc bs) off0 n) (fput d i) (fun r s' => exists d' i', s' = fput d' i' /\ wrote r d' i' /\ fs_ok d' c).
Proof.
  intros B Hf Hnum HB Hns Hsz Hfs. unfold writei. apply wp_bind, wp_gets. rewrite inode_at_fput, u32_id by klia.
  replace ((i_size i <? off0) || (off0 + n <? off0)) with false by lia.
  replace (MAXFILE * BSIZE <? off0 + n) with false by lia.
  apply wp_bind. rewrite <- (Z.add_0_r off0) at 1. eapply wp_mono.
  { apply (writei_loop_wp (c + 1) (copy_fuel n) 0 d i); [|apply copy_fuel_enough|exact Hfs].
    split; [lia|done|by apply grows_refl, Hfs|apply written_none|by left]. }
  intros ? s' (tot & d2 & i2 & -> & -> & W & Hfs2 & Hfull). cbn [fst snd]. pose proof W as [Hr Hf2 G _ _].
  pose proof (good_grows B d2 i2 HB G) as HB2. destruct (gr_inode _ _ _ _ G) as (addrs & Ei2).
  apply wp_bind, wp_gets. rewrite inode_at_fput. set (i3 := wrote_inode i (Z.max (i_size i) (off0 + tot)) (i_addrs i2)).
  apply wp_bind. eapply (wp_mono _ _ (fun _ s' => s' = fput d2 i3)).
  { replace (i_size i2) with (i_size i) by by rewrite Ei2. destruct (Z.ltb_spec (i_size i) (off0 + tot)); cbn [when].
    - apply modify_fput. f_equal. unfold i3, wrote_inode. rewrite Z.max_r by lia. by rewrite Ei2.
    - apply wp_ret. f_equal. unfold i3, wrote_inode. rewrite Z.max_l by lia. by rewrite Ei2. }
  intros ? ? ->. apply wp_bind.
  assert (inode_at ip (fput d2 i3) = i3) as Hat by apply inode_at_fput.
  pose proof (iupdate_wp (fput d2 i3) ip) as Hup. cbv zeta in Hup. rewrite Hat in Hup.
  change (f_sb (fput d2 i3)) with (f_sb s) in Hup. change (f_blk (fput d2 i3)) with d2 in Hup. rewrite Hsb in Hup.
  eapply wp_mono; [apply Hup|].
  - split; [|exact Hnum]. change (f_sb (fput d2 i3)) with (f_sb s). rewrite Hsb. by eapply (good_can_read d2).
  - apply (fk_dev _ _ Hf).
  - apply (fk_inode _ _ Hf2).
  - apply Hfs2.
  - pose proof (fw_room _ _ Hfs2). klia.
  - intros ? s' (d3 & -> & Hp). apply wp_ret.
    exists d3, i3. split; [done|]. split; [by eapply wrote_intro|]. by eapply (upd_fs d2 d3 B).
Qed.

(** *** Reading back *)

Lemma file_mapped c d1 i1 k : file_ok d1 i1 -> fs_ok d1 c -> 0 <= k < MAXFILE * BSIZE -> slot d1 i1 (k / BSIZE) <> 0 ->
  mapped d1 i1 (k / BSIZE).
Proof.
  intros Hf Hfs Hk Hnz. pose proof (block_of k Hk) as Hbn. unfold mapped. rewrite bmap_slot by lia.
  split; [done|]. split; [done|]. split; [eapply good_can_read, Hf; [done|unfold is_slot; lia|done]|].
  intros Hge. change (i_addr i1 NDIRECT) with (slot d1 i1 (-1)). eapply good_can_read, Hf; [done|unfold is_slot; klia|].
  intros E. apply Hnz. unfold slot, bmap_at. replace (k / BSIZE =? -1) with false by lia.
  replace (k / BSIZE <? NDIRECT) with false by lia. change (i_addr i1 NDIRECT) with (slot d1 i1 (-1)). by rewrite E.
Qed.

Lemma written_bytes r d' i' : wrote r d' i' -> file_bytes d' i' off0 r = take (Z.to_nat r) bs.
Proof.
  intros [Hr _ _ _ [Wb Wm] _ _ _ _ _ _ _ _]. pose proof (eq_refl : n = Z.of_nat (length bs)) as Hn.
  apply list_eq_same_length with (Z.to_nat r); [rewrite length_take; lia|apply length_file_bytes|].
  intros k x y Hk. unfold file_bytes. rewrite list_lookup_fmap_Some. intros (z & -> & [-> Hz]%lookup_seqZ).
  rewrite lookup_take_lt by lia. intros Hy. rewrite Wb; [|lia|apply Wm; lia].
  unfold written_byte. rewrite decide_True by lia. replace (Z.to_nat (off0 + Z.of_nat k - off0)) with k by lia.
  by apply list_lookup_total_correct.
Qed.

Lemma read_back c r d' i' : wrote r d' i' -> fs_ok d' c ->
  wp (readi ip KernDst off0 r) (fput d' i') (fun x s' =>
    x = (r, take (Z.to_nat r) bs) /\ exists d2, s' = fput d2 i' /\ ro_post d' d2).
Proof.
  intros W Hfs. pose proof W as [Hr Hf [addrs Hi'] _ [_ Wm] _ _ _ _ _ _ _ _].
  pose proof (readi_wp (fput d' i') ip off0 r) as Hrd. rewrite inode_at_fput in Hrd.
  change (f_blk (fput d' i')) with d' in Hrd. eapply wp_mono; [apply Hrd|].
  - apply (fk_dev _ _ Hf).
  - done.
  - lia.
  - klia.
  - apply Hfs.
  - intros k Hk. eapply file_mapped; [done|done|lia|by apply Wm].
  - rewrite Hi'. simpl. lia.
  - intros x s' (-> & d2 & -> & Hro). rewrite (written_bytes r d' i' W). split; [done|]. by exists d2.
Qed.
End writei.
End on_file.
End write.
