(* ===== verification/Fsinfo.v ===== *)
(** * The [fsinfo] system call ([sys_fsinfo] of [kernel/sysproc.c])

    The call scans the inode blocks and the free bitmap through the buffer
    cache and copies four counters to user space.  The theorem says that the
    counters are exactly the numbers of allocated inodes, files, directories
    and free blocks. *)
From S2P Require Import Prelude Params Sleeplock CString Interfaces Fs FsBlocks FsInode.

(** [struct fsinfo] of [kernel/stat.h]. *)
Record fsinfo : Set := mkFsinfo {
  total_files : Z; total_dirs : Z; total_inodes : Z; free_blocks : Z }.

Definition fsinfo_bytes (i : fsinfo) : bytes :=
  to_le 4 (total_files i) ++ to_le 4 (total_dirs i) ++ to_le 4 (total_inodes i) ++ to_le 4 (free_blocks i).

(** One inode slot of the scan. *)
Definition count_inode (type : Z) (i : fsinfo) : fsinfo :=
  if type =? 0 then i
  else
    let i := mkFsinfo (total_files i) (total_dirs i) (total_inodes i + 1) (free_blocks i) in
    if type =? T_FILE then mkFsinfo (total_files i + 1) (total_dirs i) (total_inodes i) (free_blocks i)
    else if type =? T_DIR then mkFsinfo (total_files i) (total_dirs i + 1) (total_inodes i) (free_blocks i)
    else i.

(** The inner loops: n slots of an inode block, n bits of a bitmap block. *)
Fixpoint scan_inodes (d : bytes) (n : nat) (i : Z) (info : fsinfo) : fsinfo :=
  match n with
  | O => info
  | S n => scan_inodes d n (i + 1) (count_inode (di_type d (i * DINODE_SIZE)) info)
  end.
Fixpoint scan_bits (d : bytes) (n : nat) (i : Z) (info : fsinfo) : fsinfo :=
  match n with
  | O => info
  | S n => scan_bits d n (i + 1)
      (if bit_clear d i
       then mkFsinfo (total_files info) (total_dirs info) (total_inodes info) (free_blocks info + 1)
       else info)
  end.

Section sys_fsinfo.
Context {D U : Type} `{BlockOps D} `{UserMem U}.

(** [for] loops that thread [info]. *)
Fixpoint scan_blocks (n : nat) (k : Z) (block : Z -> Z) (scan : Z -> bytes -> fsinfo -> fsinfo)
    (info : fsinfo) : M (@fstate D U) fsinfo :=
  match n with
  | O => ret info
  | S n =>
      let! bp := blk (bl_bread ROOTDEV (block k)) in
      let! d := blk (bl_data bp) in
      blk (bl_brelse bp) ;;;
      scan_blocks n (k + 1) block scan (scan k d info)
  end.

Definition sys_fsinfo (addr : Z) : M (@fstate D U) Z :=
  let! sb := gets f_sb in
  let ninodeblocks := (sb_ninodes sb + IPB - 1) / IPB in
  let info := mkFsinfo 0 0 0 0 in
  let! info := scan_blocks (Z.to_nat ninodeblocks) 0
    (fun b => u32 (sb_inodestart sb + b))
    (fun b d => scan_inodes d (Z.to_nat (Z.min IPB (sb_ninodes sb - b * IPB))) 0) info in
  let! info := scan_blocks (Z.to_nat ((sb_size sb + BPB - 1) / BPB)) 0
    (fun k => BBLOCK (k * BPB) sb)
    (fun k d => scan_bits d (Z.to_nat (Z.min BPB (sb_size sb - k * BPB))) 0) info in
  let! r := user (um_copyout addr (fsinfo_bytes info)) in
  if r <? 0 then ret (-1) else ret 0.
End sys_fsinfo.

(** ** Counting *)

Definition countb (p : Z -> bool) (lo n : Z) : Z := Z.of_nat (length (filter (fun k => p k = true) (seqZ lo n))).

Lemma countb_app p lo n m : 0 <= n -> 0 <= m -> countb p lo (n + m) = countb p lo n + countb p (lo + n) m.
Proof. intros. unfold countb. rewrite seqZ_app, filter_app, length_app by lia. lia. Qed.

Lemma countb_0 p lo : countb p lo 0 = 0.
Proof. done. Qed.

Lemma countb_1 p lo : countb p lo 1 = if p lo then 1 else 0.
Proof.
  unfold countb. replace (seqZ lo 1) with [lo] by (unfold seqZ; simpl; f_equal; lia).
  rewrite filter_cons, filter_nil. destruct (p lo); [by rewrite decide_True|by rewrite decide_False].
Qed.

Lemma countb_ext p q lo lo' n :
  (forall k, 0 <= k < n -> p (lo + k) = q (lo' + k)) -> countb p lo n = countb q lo' n.
Proof.
  destruct (decide (0 <= n)) as [Hn|Hn].
  - revert lo lo'. pattern n. apply natlike_ind; [done| |done]. clear n Hn.
    intros n Hn IH lo lo' Hpq. replace (Z.succ n) with (1 + n) by lia.
    rewrite !countb_app, !countb_1 by lia. f_equal.
    + specialize (Hpq 0 ltac:(lia)). rewrite !Z.add_0_r in Hpq. by rewrite Hpq.
    + apply IH. intros k Hk. specialize (Hpq (1 + k) ltac:(lia)). by rewrite !Z.add_assoc in Hpq.
  - intros _. unfold countb. by rewrite !seqZ_nil by lia.
Qed.

(** Adding the counts of two disjoint ranges. *)
Definition add_info (a b : fsinfo) : fsinfo :=
  mkFsinfo (total_files a + total_files b) (total_dirs a + total_dirs b)
    (total_inodes a + total_inodes b) (free_blocks a + free_blocks b).

Definition inode_counts (ty : Z -> Z) (lo n : Z) : fsinfo :=
  mkFsinfo (countb (fun k => ty k =? T_FILE) lo n) (countb (fun k => ty k =? T_DIR) lo n)
    (countb (fun k => negb (ty k =? 0)) lo n) 0.
Definition free_counts (used : Z -> bool) (lo n : Z) : fsinfo :=
  mkFsinfo 0 0 0 (countb (fun k => negb (used k)) lo n).

Lemma fsinfo_eq a b : total_files a = total_files b -> total_dirs a = total_dirs b ->
  total_inodes a = total_inodes b -> free_blocks a = free_blocks b -> a = b.
Proof. destruct a, b; simpl. congruence. Qed.

Lemma count_inode_add ty lo info : count_inode (ty lo) info = add_info info (inode_counts ty lo 1).
Proof.
  unfold count_inode, add_info, inode_counts. rewrite !countb_1. unfold T_FILE, T_DIR.
  destruct (Z.eqb_spec (ty lo) 0) as [->|]; [apply fsinfo_eq; simpl; lia|].
  destruct (Z.eqb_spec (ty lo) 2) as [->|]; [apply fsinfo_eq; simpl; lia|].
  destruct (Z.eqb_spec (ty lo) 1); apply fsinfo_eq; simpl; lia.
Qed.

Lemma add_info_assoc a b c : add_info (add_info a b) c = add_info a (add_info b c).
Proof. apply fsinfo_eq; simpl; lia. Qed.

Lemma inode_counts_app ty lo n m : 0 <= n -> 0 <= m ->
  inode_counts ty lo (n + m) = add_info (inode_counts ty lo n) (inode_counts ty (lo + n) m).
Proof. intros. apply fsinfo_eq; simpl; rewrite ?countb_app by lia; lia. Qed.

Lemma free_counts_app u lo n m : 0 <= n -> 0 <= m ->
  free_counts u lo (n + m) = add_info (free_counts u lo n) (free_counts u (lo + n) m).
Proof. intros. apply fsinfo_eq; simpl; rewrite ?countb_app by lia; lia. Qed.

Lemma scan_inodes_counts d n i info : 0 <= i ->
  scan_inodes d n i info =
    add_info info (inode_counts (fun k => di_type d (k * DINODE_SIZE)) i (Z.of_nat n)).
Proof.
  revert i info. induction n as [|n IH]; intros i info Hi; cbn [scan_inodes].
  - apply fsinfo_eq; simpl; rewrite ?countb_0; lia.
  - rewrite IH by lia. rewrite (count_inode_add (fun k => di_type d (k * DINODE_SIZE)) i), add_info_assoc.
    f_equal. rewrite <- inode_counts_app by lia. f_equal. lia.
Qed.

Lemma scan_bits_counts d n i info : 0 <= i ->
  scan_bits d n i info = add_info info (free_counts (bit_at d) i (Z.of_nat n)).
Proof.
  revert i info. induction n as [|n IH]; intros i info Hi; cbn [scan_bits].
  - apply fsinfo_eq; simpl; rewrite ?countb_0; lia.
  - rewrite IH by lia. replace (Z.of_nat (S n)) with (1 + Z.of_nat n) by lia.
    rewrite free_counts_app by lia. rewrite <- add_info_assoc. f_equal.
    rewrite bit_clear_at. unfold free_counts. rewrite countb_1.
    destruct (bit_at d i); apply fsinfo_eq; simpl; lia.
Qed.

Section spec.
Context {D U : Type} `{BlockLaws D} `{UserMem U}.
Implicit Types (d : D) (s : @fstate D U).

(** The type of inode [inum] on disk. *)
Definition inode_type d (sb : superblock) (inum : Z) : Z :=
  di_type (bl_view d (IBLOCK inum sb)) (dinode_off inum).

(** The counters as they should be. *)
Definition fsinfo_of d (sb : superblock) : fsinfo :=
  add_info (inode_counts (inode_type d sb) 0 (sb_ninodes sb))
    (free_counts (block_used d sb) 0 (sb_size sb)).

Lemma scan_blocks_wp s n k block scan info (acc : Z -> fsinfo) d0 :
  ro_post d0 (f_blk s) -> info = acc k ->
  (forall j, k <= j < k + Z.of_nat n -> can_read d0 (block j) /\
     scan j (bl_view d0 (block j)) (acc j) = acc (j + 1)) ->
  wp (scan_blocks n k block scan info) s (fun r s' =>
    r = acc (k + Z.of_nat n) /\ exists d', s' = set_blk d' s /\ ro_post d0 d').
Proof.
  revert s k info. induction n as [|n IH]; intros s k info Hro -> Hblk; cbn [scan_blocks].
  - apply wp_ret. replace (k + Z.of_nat 0) with k by lia. split; [done|].
    exists (f_blk s). split; [symmetry; apply set_blk_id|done].
  - destruct (Hblk k ltac:(lia)) as [Hr Hstep].
    apply with_block; [by eapply can_read_ro|]. intros h d1 Hgot.
    apply wp_bind. eapply wp_mono; [by eapply (put_clean s)|]. intros ? s1 (d2 & -> & Hro2).
    destruct Hro as (Hs0 & Hv0 & Hrest) eqn:E. rewrite Hv0, Hstep.
    eapply wp_mono; [apply IH; [cbn [f_blk set_blk]; by eapply ro_trans|done|intros j Hj; apply Hblk; lia]|].
    intros r s' (-> & d' & -> & Hro'). split; [f_equal; lia|]. by exists d'.
Qed.

Definition fsinfo_geom d (sb : superblock) : Prop :=
  0 <= sb_ninodes sb < 2^31 /\ 0 <= sb_size sb < 2^31 /\
  0 <= sb_inodestart sb < 2^31 /\ 0 <= sb_bmapstart sb < 2^31 /\
  (forall k, 0 <= k < (sb_ninodes sb + IPB - 1) / IPB -> can_read d (sb_inodestart sb + k)) /\
  (forall k, 0 <= k < (sb_size sb + BPB - 1) / BPB -> can_read d (sb_bmapstart sb + k)).

Lemma ceil_div a n : 0 < n -> 0 <= a -> (forall k, 0 <= k < (a + n - 1) / n -> k * n < a) /\
  a <= (a + n - 1) / n * n /\ 0 <= (a + n - 1) / n.
Proof.
  intros Hn Ha. pose proof (Z_div_mod_eq_full (a + n - 1) n) as He.
  pose proof (Z.mod_pos_bound (a + n - 1) n Hn) as Hm. split; [|split; [lia|apply Z.div_pos; lia]].
  intros k Hk. nia.
Qed.

Lemma inode_scan_step d sb b : fsinfo_geom d sb -> 0 <= b < (sb_ninodes sb + IPB - 1) / IPB ->
  scan_inodes (bl_view d (sb_inodestart sb + b)) (Z.to_nat (Z.min IPB (sb_ninodes sb - b * IPB))) 0
      (inode_counts (inode_type d sb) 0 (Z.min (b * IPB) (sb_ninodes sb))) =
    inode_counts (inode_type d sb) 0 (Z.min ((b + 1) * IPB) (sb_ninodes sb)).
Proof.
  intros (Hn & _ & Hst & _ & Hrd & _) Hb. destruct (ceil_div (sb_ninodes sb) IPB) as (Hlt & _ & _); [klia|lia|].
  specialize (Hlt b Hb). rewrite scan_inodes_counts by lia.
  change IPB with 16 in *. rewrite Z2Nat.id by lia.
  set (m := Z.min 16 (sb_ninodes sb - b * 16)).
  replace (Z.min ((b + 1) * 16) (sb_ninodes sb)) with (b * 16 + m) by lia.
  replace (Z.min (b * 16) (sb_ninodes sb)) with (b * 16) by lia.
  rewrite inode_counts_app by lia. f_equal.
  assert (forall k, 0 <= k < m -> di_type (bl_view d (sb_inodestart sb + b)) ((0 + k) * DINODE_SIZE) =
    inode_type d sb (0 + b * 16 + k)) as Hty.
  { intros k Hk. unfold inode_type, IBLOCK, dinode_off. change IPB with 16.
    replace ((0 + b * 16 + k) / 16) with b by (apply Z.div_unique with k; lia).
    replace ((0 + b * 16 + k) `mod` 16) with k by (apply Z.mod_unique with b; lia).
    rewrite u32_id by lia. by rewrite (Z.add_comm b), Z.add_0_l. }
  unfold inode_counts. f_equal; apply countb_ext; intros k Hk; by rewrite Hty.
Qed.

Lemma bits_scan_step d sb k A : fsinfo_geom d sb -> 0 <= k < (sb_size sb + BPB - 1) / BPB ->
  scan_bits (bl_view d (sb_bmapstart sb + k)) (Z.to_nat (Z.min BPB (sb_size sb - k * BPB))) 0
      (add_info A (free_counts (block_used d sb) 0 (Z.min (k * BPB) (sb_size sb)))) =
    add_info A (free_counts (block_used d sb) 0 (Z.min ((k + 1) * BPB) (sb_size sb))).
Proof.
  intros (_ & Hn & _ & Hst & _ & Hrd) Hb. destruct (ceil_div (sb_size sb) BPB) as (Hlt & _ & _); [klia|lia|].
  specialize (Hlt k Hb). rewrite scan_bits_counts, add_info_assoc by lia. f_equal.
  rewrite Z2Nat.id by klia. set (m := Z.min BPB (sb_size sb - k * BPB)).
  assert (0 < m <= BPB) as Hm by (unfold m; klia).
  replace (Z.min ((k + 1) * BPB) (sb_size sb)) with (k * BPB + m) by (unfold m; lia).
  replace (Z.min (k * BPB) (sb_size sb)) with (k * BPB) by lia.
  rewrite free_counts_app by klia. f_equal. unfold free_counts. f_equal. apply countb_ext.
  intros j Hj. f_equal. unfold block_used.
  destruct (BBLOCK_split sb k j) as [HB Hmod]; [klia..|]. rewrite !Z.add_0_l, HB, Hmod.
  rewrite BBLOCK_eq, Z.div_mul by klia. do 2 f_equal. lia.
Qed.

Lemma sys_fsinfo_wp s addr `{!UserMemLaws U} :
  bl_wf (f_blk s) -> fsinfo_geom (f_blk s) (f_sb s) ->
  wp (sys_fsinfo addr) s (fun r s' => exists d' u' t c,
    um_copyout addr (fsinfo_bytes (fsinfo_of (f_blk s) (f_sb s))) (f_user s) = Ret c u' t /\
    (r = 0 /\ c = 0 \/ r = -1 /\ c = -1) /\
    s' = set_user u' (set_blk d' s) /\ ro_post (f_blk s) d').
Proof.
  intros Hwf Hg. set (d := f_blk s) in *. set (sb := f_sb s) in *.
  pose proof Hg as (Hn & Hsz & Hi & Hb & Hri & Hrb).
  destruct (ceil_div (sb_ninodes sb) IPB) as (Hlt1 & Hle1 & Hpos1); [klia|lia|].
  destruct (ceil_div (sb_size sb) BPB) as (Hlt2 & Hle2 & Hpos2); [klia|lia|].
  unfold sys_fsinfo. apply wp_bind, wp_gets. fold sb. apply wp_bind.
  eapply wp_mono; [eapply (scan_blocks_wp s _ _ _ _ _
    (fun b => inode_counts (inode_type d sb) 0 (Z.min (b * IPB) (sb_ninodes sb))) d)|].
  { by apply ro_refl. }
  { replace (Z.min (0 * IPB) (sb_ninodes sb)) with 0 by lia. done. }
  { intros b Hb'. rewrite Z2Nat.id in Hb' by done. specialize (Hlt1 b ltac:(lia)).
    rewrite u32_id by klia. split; [apply Hri; lia|]. by apply inode_scan_step; [|lia]. }
  intros info1 s1 (-> & d1 & -> & Hro1). rewrite Z2Nat.id, Z.add_0_l by done.
  rewrite (Z.min_r _ (sb_ninodes sb)) by done. apply wp_bind.
  set (A := inode_counts (inode_type d sb) 0 (sb_ninodes sb)).
  eapply wp_mono; [eapply (scan_blocks_wp (set_blk d1 s) _ _ _ _ _
    (fun k => add_info A (free_counts (block_used d sb) 0 (Z.min (k * BPB) (sb_size sb)))) d)|].
  { done. }
  { replace (Z.min (0 * BPB) (sb_size sb)) with 0 by lia. apply fsinfo_eq; simpl; rewrite ?countb_0; lia. }
  { intros k Hk. rewrite Z2Nat.id in Hk by done. specialize (Hlt2 k ltac:(lia)).
    rewrite BBLOCK_eq, Z.div_mul, (Z.add_comm k) by klia. split; [apply Hrb; lia|].
    by apply bits_scan_step; [|lia]. }
  intros info2 s2 (-> & d2 & -> & Hro2). rewrite Z2Nat.id, Z.add_0_l by done.
  rewrite (Z.min_r _ (sb_size sb)) by done. change (add_info A _) with (fsinfo_of d sb). apply wp_bind, wp_zoom.
  destruct (wp_elim _ _ _ (um_copyout_law addr (fsinfo_bytes (fsinfo_of d sb)) (f_user s)))
    as (c & u' & t & Hrun & Hc).
  unfold wp at 1, wpt at 1. cbn [f_user set_blk]. rewrite Hrun.
  destruct Hc as [-> | ->]; [change (0 <? 0) with false|change (-1 <? 0) with true]; cbv iota; apply wp_ret;
    exists d2, u', t; [exists 0|exists (-1)]; split_and!; try done; auto.
Qed.
End spec.
