(* ===== verification/FsProps.v ===== *)
(** * The file system on top of the log: properties

    The theorems of [FsBlocks], [FsInode], [FsData] and [Fsinfo] instantiated
    with the log and the buffer cache of [LogTxn], and a small file system
    image on which they are applied. *)
From S2P Require Import Prelude Params Sleeplock Bio BioInv Log LogInv LogCrash LogTxn CString Interfaces BlockInst Fs FsBlocks FsInode FsData Fsinfo.

(** ** A small image *)

(** 80 blocks: log at 2..32, inodes at 33, bitmap at 35, data from 36. *)
Definition demo_sb : superblock := mkSb FSMAGIC 80 44 16 31 2 33 35.

Definition demo_dir : inode := mkInode 1 1 0 initsleeplock false T_DIR 0 0 1 32 ([36] ++ replicate 12 0).
Definition demo_file : inode := mkInode 1 2 0 initsleeplock false T_FILE 0 0 1 5 ([37] ++ replicate 12 0).

Definition demo_inodes : bytes :=
  store_dinode demo_file (dinode_off 2) (store_dinode demo_dir (dinode_off 1) zero_block).
(** Blocks 0..37 are in use. *)
Definition demo_bitmap : bytes := [255; 255; 255; 255; 63] ++ replicate (Z.to_nat (BSIZE - 5)) 0.
Definition demo_dirents : bytes :=
  mk_dirent 1 [46] ++ mk_dirent 2 [97] ++ replicate (Z.to_nat (BSIZE - 32)) 0.
Definition demo_content : bytes := [104; 101; 108; 108; 111] ++ replicate (Z.to_nat (BSIZE - 5)) 0.

Definition demo_fs_disk : gmap Z bytes :=
  <[33 := demo_inodes]> (<[35 := demo_bitmap]> (<[36 := demo_dirents]> (<[37 := demo_content]> demo_disk))).

Definition block_okb (d : bytes) : bool :=
  bool_decide (length d = Z.to_nat BSIZE) && forallb (fun x => (0 <=? x) && (x <? 256)) d.
Lemma block_okb_ok d : block_okb d = true -> block_ok d.
Proof.
  unfold block_okb. rewrite andb_true_iff, bool_decide_eq_true, forallb_forall. intros [Hl Hb].
  split; [done|]. apply Forall_forall. intros x Hx. apply list_elem_of_In in Hx. specialize (Hb x Hx).
  unfold is_byte. lia.
Qed.

Lemma demo_fs_lookup b : 0 <= b < 80 -> is_Some (demo_fs_disk !! b).
Proof.
  intros Hb. unfold demo_fs_disk. rewrite !lookup_insert_is_Some.
  destruct (decide (33 = b)); [by left|right; split; [done|]].
  destruct (decide (35 = b)); [by left|right; split; [done|]].
  destruct (decide (36 = b)); [by left|right; split; [done|]].
  destruct (decide (37 = b)); [by left|right; split; [done|]]. by rewrite demo_lookup.
Qed.

Lemma demo_fs_log_disk : log_disk 2 demo_fs_disk.
Proof.
  apply log_disk_empty; [|lia| |].
  - intros b x. unfold demo_fs_disk. rewrite !lookup_insert_Some.
    intros [[<- <-]|[_ [[<- <-]|[_ [[<- <-]|[_ [[<- <-]|[_ Hx]]]]]]]];
      try (split; [lia|apply block_okb_ok; vm_compute; done]).
    by apply (ld_ok _ _ demo_log_disk).
  - intros b Hb. apply demo_fs_lookup. klia.
  - unfold demo_fs_disk. rewrite !lookup_total_insert_ne by done.
    rewrite (lookup_total_correct _ _ _ (demo_lookup 2 ltac:(lia))). by vm_compute.
Qed.

(** The image after recovery, inside a transaction that has written nothing. *)
Lemma demo_fs_booted : exists s : lst,
  log_wf s /\ held (l_bio s) = ∅ /\ txn_open s /\ txn s = ∅ /\
  (forall b, 0 <= b < 80 -> ~ (2 <= b <= 32) -> home s b /\ bview (l_bio s) b = demo_fs_disk !!! b).
Proof.
  destruct (wpt_elim _ _ _ (initlog_run 2 demo_fs_disk 1 demo_fs_log_disk))
    as ([] & s & t & Hrun & Hwf & Hh & Hn & Hs & Ho & Hc & _ & Hd & Hv). clear Hrun.
  assert (recovered 2 demo_fs_disk = demo_fs_disk) as Hrec.
  { unfold recovered. rewrite install_list_nil; [done|]. unfold demo_fs_disk.
    rewrite !lookup_total_insert_ne by done.
    rewrite (lookup_total_correct _ _ _ (demo_lookup 2 ltac:(lia))). by vm_compute. }
  exists (set_committing false (set_outstanding 1 s)). split; [by apply log_wf_flags|].
  split; [exact Hh|]. split; [split; reflexivity|]. split; [unfold txn, logged; simpl; by rewrite Hn|].
  intros b Hb Hnl. assert (~ (2 <= b <= 2 + LOGBLOCKS)) as Hnl' by klia. split.
  - split; [|unfold in_log; simpl; by rewrite Hs]. simpl. rewrite Hd, Hrec by done. by apply demo_fs_lookup.
  - simpl. rewrite Hv, !lookup_total_alt, Hd, Hrec by done. done.
Qed.

#[export] Instance no_user : UserMem unit := {
  um_copyout _ _ := ret 0;
  um_copyin _ n := ret (0, replicate (Z.to_nat n) 0) }.

#[export] Instance no_user_laws : UserMemLaws unit.
Proof.
  split.
  - intros. apply wp_ret. by left.
  - intros va n u Hn. apply wp_ret. simpl. rewrite length_replicate. split; [left; lia|].
    apply Forall_replicate. unfold is_byte. lia.
Qed.

Definition demo_itable : list inode := replicate (Z.to_nat NINODE) inode0.

(** The state of the small file system. *)
Definition demo_fs (s : lst) : @fstate lst unit := mkFs s tt demo_sb demo_itable 0 1.

Lemma demo_can_read (s : lst) b : log_wf s -> held (l_bio s) = ∅ -> txn s = ∅ -> home s b ->
  can_read (f_blk (demo_fs s)) b.
Proof.
  intros Hwf Hh Ht Hb. split; [exact Hwf|]. split; [exact Hb|].
  change (bl_held (f_blk (demo_fs s))) with (held (l_bio s)).
  change (bl_txn (f_blk (demo_fs s))) with (txn s). rewrite Hh, Ht. split.
  - rewrite map_img_empty_L. set_solver.
  - rewrite size_empty, map_size_empty. unfold NBUF. lia.
Qed.

Lemma demo_used (s : lst) b : bview (l_bio s) 35 = demo_fs_disk !!! 35 -> 0 <= b < 80 ->
  block_used (f_blk (demo_fs s)) demo_sb b = (b <? 38).
Proof.
  intros Hv Hb. unfold block_used. rewrite BBLOCK_eq by (simpl; lia).
  rewrite Z.div_small, Z.mod_small by klia. change (bl_view (f_blk (demo_fs s)) (0 + sb_bmapstart demo_sb))
    with (bview (l_bio s) 35). rewrite Hv.
  assert (forallb (fun b => Bool.eqb (bit_at (demo_fs_disk !!! 35) b) (b <? 38)) (seqZ 0 80) = true) as Hall
    by (by vm_compute).
  rewrite forallb_forall in Hall. apply Bool.eqb_prop, Hall, list_elem_of_In, elem_of_seqZ. lia.
Qed.

Lemma demo_alloc_geom (s : lst) : log_wf s -> held (l_bio s) = ∅ ->
  (forall b, 0 <= b < 80 -> ~ (2 <= b <= 32) -> home s b /\ bview (l_bio s) b = demo_fs_disk !!! b) ->
  alloc_geom (f_blk (demo_fs s)) demo_sb.
Proof.
  intros Hwf Hh Hdemo.
  assert (forall b : Z, 0 <= b < 80 -> BBLOCK b demo_sb = 35) as HB.
  { intros b Hb. rewrite BBLOCK_eq by (simpl; lia). rewrite Z.div_small by klia. done. }
  assert ((map_img (bl_held (f_blk (demo_fs s))) : gset Z) = ∅) as Himg.
  { change (bl_held (f_blk (demo_fs s))) with (held (l_bio s)). rewrite Hh. apply map_img_empty_L. }
  split; simpl sb_size; simpl sb_bmapstart; [lia|lia|..]; rewrite Himg.
  - intros b Hb. rewrite HB by done. split; [apply (Hdemo 35); lia|set_solver].
  - intros b Hb Hu. rewrite demo_used in Hu by (done || apply (Hdemo 35); lia).
    split_and!; [apply (Hdemo b); lia|set_solver|]. intros b' Hb'. rewrite HB by done. lia.
Qed.

(** ** Blocks *)

(** C6.  [balloc] finds the first free block: it returns the lowest block
    number whose bit is clear, marks exactly that block in use, fills it with
    zeros and changes no other block; when every block is in use it returns 0
    and leaves all blocks as they are.  Its writes are part of the running
    transaction. *)
Theorem balloc_correct {U} `{UserMem U} (s : @fstate lst U) :
  alloc_geom (f_blk s) (f_sb s) -> log_wf (f_blk s) -> txn_open (f_blk s) ->
  (size (txn (f_blk s)) + size (held (l_bio (f_blk s))) + 1 < NBUF)%nat ->
  wp (balloc ROOTDEV) s (fun r s' => exists d', s' = set_blk d' s /\
    ((0 <= r < sb_size (f_sb s) /\ block_used (f_blk s) (f_sb s) r = false /\
      (forall b, 0 <= b < r -> block_used (f_blk s) (f_sb s) b = true) /\
      alloc_post (f_blk s) d' (f_sb s) r) \/
     (r = 0 /\ (forall b, 0 <= b < sb_size (f_sb s) -> block_used (f_blk s) (f_sb s) b = true) /\
      ro_post (f_blk s) d'))).
Proof. intros Hg Hwf Ho Hroom. by apply balloc_wp. Qed.

(** On the small image the first free block is 38. *)
Lemma balloc_correct_witness : exists s : lst, alloc_geom (f_blk (demo_fs s)) demo_sb /\
  wp (balloc ROOTDEV) (demo_fs s) (fun r _ => r = 38).
Proof.
  destruct demo_fs_booted as (s & Hwf & Hh & Ho & Ht & Hdemo). exists s.
  pose proof (demo_alloc_geom s Hwf Hh Hdemo) as Hg. split; [exact Hg|].
  destruct (Hdemo 35 ltac:(lia) ltac:(lia)) as [_ Hv].
  assert (size (txn (f_blk (demo_fs s))) + size (held (l_bio (f_blk (demo_fs s)))) + 1 < NBUF)%nat as Hroom.
  { change (f_blk (demo_fs s)) with s. rewrite Ht, Hh, size_empty, map_size_empty. unfold NBUF. lia. }
  eapply wp_mono; [exact (balloc_correct (demo_fs s) Hg Hwf Ho Hroom)|].
  change (f_sb (demo_fs s)) with demo_sb. intros r s' (d' & _ & [(Hr & Hf & Hpre & _)|(_ & Hall & _)]).
  - simpl sb_size in Hr. rewrite demo_used in Hf by done.
    destruct (decide (r = 38)); [done|]. specialize (Hpre 38 ltac:(lia)). rewrite demo_used in Hpre by (done || lia).
    done.
  - specialize (Hall 38 ltac:(simpl; lia)). rewrite demo_used in Hall by (done || lia). done.
Defined.

(** [bfree] clears the bit of the block it is given and changes nothing
    else; freeing a block that is already free panics. *)
Theorem bfree_correct {U} `{UserMem U} (s : @fstate lst U) b :
  can_read (f_blk s) (BBLOCK b (f_sb s)) -> txn_open (f_blk s) ->
  Z.of_nat (size (txn (f_blk s))) < LOGBLOCKS ->
  0 <= sb_bmapstart (f_sb s) < 2^31 -> sb_size (f_sb s) < 2^31 -> 0 <= b < sb_size (f_sb s) ->
  if block_used (f_blk s) (f_sb s) b
  then wp (bfree ROOTDEV b) s (fun _ s' => exists d', s' = set_blk d' s /\
         free_post (f_blk s) d' (f_sb s) b)
  else exists t, bfree ROOTDEV b s = Panic "freeing free block" t.
Proof.
  intros Hr Ho Hroom Hst Hsz Hb. destruct (block_used _ _ b) eqn:Hu; [by apply bfree_wp|by apply bfree_panics].
Qed.

Lemma bfree_correct_witness : exists s : lst,
  wp (bfree ROOTDEV 37) (demo_fs s) (fun _ _ => True) /\
  exists t, bfree ROOTDEV 38 (demo_fs s) = Panic "freeing free block" t.
Proof.
  destruct demo_fs_booted as (s & Hwf & Hh & Ho & Ht & Hdemo). exists s.
  destruct (Hdemo 35 ltac:(lia) ltac:(lia)) as [Hhome Hv].
  pose proof (demo_can_read s 35 Hwf Hh Ht Hhome) as Hcr.
  assert (Z.of_nat (size (txn (f_blk (demo_fs s)))) < LOGBLOCKS) as Hroom.
  { change (f_blk (demo_fs s)) with s. rewrite Ht, size_empty. klia. }
  assert (forall b, 0 <= b < 80 -> can_read (f_blk (demo_fs s)) (BBLOCK b (f_sb (demo_fs s)))) as HB.
  { intros b Hb. change (f_sb (demo_fs s)) with demo_sb. rewrite BBLOCK_eq by (simpl; lia).
    rewrite Z.div_small by klia. exact Hcr. }
  pose proof (bfree_correct (demo_fs s) 37 (HB 37 ltac:(lia)) Ho Hroom ltac:(simpl; lia) ltac:(simpl; lia) ltac:(simpl; lia)) as H1.
  pose proof (bfree_correct (demo_fs s) 38 (HB 38 ltac:(lia)) Ho Hroom ltac:(simpl; lia) ltac:(simpl; lia) ltac:(simpl; lia)) as H2.
  change (f_sb (demo_fs s)) with demo_sb in H1, H2.
  rewrite demo_used in H1 by (done || lia). rewrite demo_used in H2 by (done || lia).
  split; [|exact H2]. eapply wp_mono; [exact H1|]. done.
Defined.

(** ** Inodes *)

Lemma can_read_upd {D} `{BlockLaws D} (d d' : D) b b' x :
  upd_post d d' b x -> can_read d b' -> (size (bl_txn d) + size (bl_held d) + 1 < NBUF)%nat ->
  can_read d' b'.
Proof.
  intros (Hs & _ & Hh & Ht & _) (Hwf & Hho & Hn & _) Hroom. split_and!.
  - by eapply same_wf.
  - by eapply same_home.
  - by rewrite Hh.
  - rewrite Hh, Ht, size_union_alt, size_singleton.
    enough (size (bl_txn d ∖ {[b]}) <= size (bl_txn d))%nat by lia. apply subseteq_size. set_solver.
Qed.

Lemma load_dinode_same x off j j' : same_dinode (load_dinode x off j) (load_dinode x off j').
Proof. done. Qed.

(** After an inode was written back and its last reference dropped, getting
    and locking it again finds the bytes [iupdate] stored. *)
Lemma iupdate_ilock {U} `{UserMem U} (s : @fstate lst U) jp (i : inode) s0 :
  inode_block_ok s (i_inum i) -> inode_range i -> i_type i <> 0 ->
  (jp < length (f_itable s))%nat -> i_ref (inode_at jp s) = 1 -> i_valid (inode_at jp s) = false ->
  sl_locked (i_lock (inode_at jp s)) = false -> i_dev (inode_at jp s) = ROOTDEV ->
  i_inum (inode_at jp s) = i_inum i ->
  bview (l_bio (f_blk s)) (IBLOCK (i_inum i) (f_sb s)) =
    store_dinode i (dinode_off (i_inum i)) s0 -> length s0 = Z.to_nat BSIZE ->
  wp (ilock (Some jp)) s (fun _ s' =>
    same_dinode (inode_at jp s') i /\ i_valid (inode_at jp s') = true /\
    i_inum (inode_at jp s') = i_inum i /\ i_ref (inode_at jp s') = 1).
Proof.
  intros Hblk Hi Ht Hjp Hr Hv Hl Hdev Hinum Hview Hlen. pose proof Hblk as [_ Hn].
  destruct (dinode_off_range _ Hn) as [Ho1 Ho2].
  assert (forall j, same_dinode (load_dinode (store_dinode i (dinode_off (i_inum i)) s0) (dinode_off (i_inum i)) j) i)
    as Hsame by (intros j; apply load_store_dinode; [done|done|rewrite Hlen; klia]).
  eapply wp_mono; [apply ilock_load; rewrite ?Hinum; try done; [lia|]|].
  { change (bl_view (f_blk s)) with (bview (l_bio (f_blk s))). rewrite Hview.
    pose proof (proj1 (Hsame i)) as Hty. simpl in Hty. by rewrite Hty. }
  rewrite Hinum. change (bl_view (f_blk s)) with (bview (l_bio (f_blk s))). rewrite Hview.
  intros ? s' (d' & -> & _). unfold inode_at. cbn [f_itable set_itable set_blk].
  rewrite list_lookup_total_alter_eq by done. fold (inode_at jp s). unfold locked_inode.
  rewrite Hinum. split_and!; [apply Hsame|done|done|done].
Qed.

(** C8.  Inode write-back: [iupdate], then dropping the last reference, then
    [iget] and [ilock] again give an in-memory inode with the same type,
    device numbers, link count, size and block addresses. *)
Theorem inode_writeback {U} `{UserMem U} (s : @fstate lst U) ip :
  let i := inode_at ip s in
  itable_ok (f_itable s) -> (ip < length (f_itable s))%nat ->
  (forall k j, f_itable s !! k = Some j -> i_ref j = 0 -> sl_locked (i_lock j) = false) ->
  i_ref i = 1 -> i_nlink i <> 0 -> i_type i <> 0 -> inode_range i -> i_dev i = ROOTDEV ->
  holdingsleep (f_pid s) (i_lock i) = true -> inode_block_ok s (i_inum i) -> txn_open (f_blk s) ->
  (size (txn (f_blk s)) + size (held (l_bio (f_blk s))) + 1 < NBUF)%nat ->
  wp (iupdate ip ;;; iunlock (Some ip) ;;; iput ip ;;;
      let! jp := iget ROOTDEV (i_inum i) in
      ilock (Some jp) ;;; ret jp) s (fun jp s' =>
    same_dinode (inode_at jp s') i /\ i_valid (inode_at jp s') = true /\
    i_inum (inode_at jp s') = i_inum i /\ i_ref (inode_at jp s') = 1).
Proof.
  intros i Hit Hip Hunl Hr Hnl Hty Hi Hdev Hhold Hblk Ho Hroom.
  apply wp_bind. eapply wp_mono; [apply iupdate_wp; fold i; try done|].
  { apply Hi. } { change (bl_txn (f_blk s)) with (txn (f_blk s)). klia. }
  fold i. intros ? s1 (d1 & -> & Hupd). set (B := IBLOCK (i_inum i) (f_sb s)) in *.
  apply wp_bind. eapply wp_mono; [apply iunlock_wp; cbn [f_itable set_blk f_pid]; [done|change (1 <= i_ref i); lia|done]|].
  intros ? s2 ->. cbn [f_itable set_blk]. set (t2 := alter _ ip _). apply wp_bind.
  assert (inode_at ip (set_itable t2 (set_blk d1 s)) = set_ilock (mkSleeplock false 0) i) as Hat2.
  { unfold inode_at, t2. cbn [f_itable set_itable]. by rewrite list_lookup_total_alter_eq. }
  eapply wp_mono; [apply iput_drop; rewrite Hat2; right; right; done|]. intros ? s3 ->.
  cbn [f_itable set_itable]. set (t3 := alter _ ip t2).
  set (rel := fun j : inode => set_iref (i_ref j - 1) (set_ilock (mkSleeplock false 0) j)).
  assert (t3 = alter rel ip (f_itable s)) as Ht3 by (unfold t3, t2; by rewrite list_alter_alter_eq).
  assert (f_itable s !! ip = Some i) as Hlk by (by apply inode_lookup).
  assert (itable_ok t3) as Hit3.
  { rewrite Ht3. eapply itable_alter; [done|exact Hlk|simpl; lia|exact (proj1 Hi)|simpl; lia]. }
  assert (forall k, i_ref (t3 !!! k) = 0 -> (k < length t3)%nat -> sl_locked (i_lock (t3 !!! k)) = false) as Hunl3.
  { intros k Hk0 Hk. rewrite Ht3 in *. rewrite length_alter in Hk. destruct (decide (k = ip)) as [->|Hne].
    - by rewrite list_lookup_total_alter_eq.
    - rewrite list_lookup_total_alter_ne in * by done. eapply Hunl; [|exact Hk0].
      by apply list_lookup_lookup_total_lt. }
  apply wp_bind. eapply wp_mono; [apply iget_wp; [exact Hit3|]|].
  { exists ip, (rel i). cbn [f_itable set_itable]. rewrite Ht3, list_lookup_alter_eq, Hlk. simpl. split; [done|lia]. }
  intros jp s4 (f & -> & Hit4 & Hjp & Hd4 & Hn4 & Hl4 & Hr4 & Hcase). cbn [f_itable set_itable] in *.
  set (s3 := set_itable t3 _) in *.
  assert (i_ref (inode_at jp s3) = 0) as Hr3.
  { destruct (decide (i_ref (inode_at jp s3) = 0)) as [|Hne]; [done|]. exfalso.
    destruct Hcase as (Hd3 & Hn3 & _). unfold inode_at, s3 in Hd3, Hn3, Hne. cbn [f_itable set_itable] in *.
    rewrite Ht3 in Hd3, Hn3, Hne, Hjp. rewrite length_alter in Hjp. destruct (decide (jp = ip)) as [->|Hji].
    - rewrite list_lookup_total_alter_eq in Hne by done. fold (inode_at ip s) in Hne. simpl in Hne. fold i in Hne. lia.
    - rewrite list_lookup_total_alter_ne in Hd3, Hn3, Hne by done. apply Hji.
      pose proof (list_lookup_lookup_total_lt _ _ Hjp) as Hj. pose proof (it_ref _ Hit _ _ Hj).
      eapply (it_uniq _ Hit); [exact Hj|exact Hlk|lia|lia|congruence|done]. }
  rewrite decide_True in Hcase by done. apply wp_bind.
  destruct Hupd as (Hs & Hv & Hrest) eqn:E. clear E.
  eapply wp_mono; [apply (iupdate_ilock _ jp i (bview (l_bio (f_blk s)) B)); try done|].
  - split; [|apply Hblk]. cbn [f_blk set_itable set_blk f_sb].
    eapply can_read_upd; [split; [exact Hs|split; [exact Hv|exact Hrest]]|apply Hblk|exact Hroom].
  - cbn [f_itable set_itable]. by rewrite length_alter.
  - lia.
  - rewrite Hl4. apply Hunl3; done.
  - unfold s3. cbn [f_blk set_itable set_blk f_sb]. change (bview (l_bio d1)) with (bl_view d1).
    fold B. rewrite Hv, decide_True by done. done.
  - destruct Hblk as [(Hwf & Hh & _) _]. apply (bl_view_ok (f_blk s) B Hwf Hh).
  - intros ? s' Hs'. by apply wp_ret.
Qed.

(** The small file system with the file's inode open and locked. *)
Definition demo_open : inode :=
  mkInode ROOTDEV 2 1 (mkSleeplock true 1) true T_FILE 0 0 1 5 ([37] ++ replicate 12 0).
Definition demo_opened (s : lst) : @fstate lst unit :=
  set_itable (demo_open :: replicate (Z.to_nat (NINODE - 1)) inode0) (demo_fs s).

Lemma demo_opened_itable (s : lst) k j : f_itable (demo_opened s) !! k = Some j ->
  (k = 0%nat /\ j = demo_open) \/ (k <> 0%nat /\ j = inode0).
Proof.
  unfold demo_opened. cbn [f_itable set_itable]. destruct k as [|k].
  - intros [= <-]. by left.
  - rewrite lookup_cons_ne_0 by done. intros [-> _]%lookup_replicate. by right.
Qed.

Lemma demo_opened_ok (s : lst) : itable_ok (f_itable (demo_opened s)).
Proof.
  split; [done|..].
  - intros k j [[-> ->]|[_ ->]]%demo_opened_itable; simpl; lia.
  - intros k k' j j' [[-> ->]|[_ ->]]%demo_opened_itable [[-> ->]|[_ ->]]%demo_opened_itable; simpl; try done; lia.
  - intros k j [[-> ->]|[_ ->]]%demo_opened_itable; done.
Qed.

Lemma demo_opened_blk (s : lst) inum : log_wf s -> held (l_bio s) = ∅ -> txn s = ∅ -> home s 33 -> 0 <= inum < 16 ->
  inode_block_ok (demo_opened s) inum.
Proof.
  intros Hwf Hh Ht Hhome Hi. split; [|lia].
  change (f_sb (demo_opened s)) with demo_sb. unfold IBLOCK. rewrite Z.div_small by klia.
  by apply (demo_can_read s).
Qed.

Lemma demo_open_range : inode_range demo_open.
Proof.
  unfold inode_range, demo_open. cbn [i_type i_major i_minor i_nlink i_size i_addrs].
  split; [done|]. do 5 (split; [klia|]). apply Forall_forall. intros a Ha.
  apply elem_of_app in Ha as [->%list_elem_of_singleton|Ha]; [lia|].
  apply elem_of_replicate in Ha as [-> _]. lia.
Qed.

Lemma inode_writeback_witness : exists s : lst, wp
  (iupdate 0 ;;; iunlock (Some 0%nat) ;;; iput 0 ;;;
   let! jp := iget ROOTDEV 2 in ilock (Some jp) ;;; ret jp) (demo_opened s)
  (fun jp s' => i_size (inode_at jp s') = 5).
Proof.
  destruct demo_fs_booted as (s & Hwf & Hh & Ho & Ht & Hdemo). exists s.
  eapply wp_mono; [apply (inode_writeback (demo_opened s) 0)|].
  - apply demo_opened_ok.
  - vm_compute. lia.
  - intros k j [[-> ->]|[_ ->]]%demo_opened_itable; done.
  - reflexivity.
  - done.
  - done.
  - exact demo_open_range.
  - reflexivity.
  - reflexivity.
  - apply demo_opened_blk; [exact Hwf|exact Hh|exact Ht|apply (Hdemo 33); lia|change (0 <= 2 < 16); lia].
  - exact Ho.
  - change (f_blk (demo_opened s)) with s. rewrite Ht, Hh, size_empty, map_size_empty. unfold NBUF. lia.
  - intros jp s' ((_ & _ & _ & _ & Hs & _) & _). rewrite Hs. done.
Defined.

(** C9.  The inode table keeps one entry per inode: [iget], [idup] and an
    [iput] that does not free preserve the invariant; [iget] returns an entry
    for the requested inode, reusing the live one if there is one and counting
    the reference; with all entries in use it panics. *)
Theorem inode_table {U} `{UserMem U} (s : @fstate lst U) dev inum :
  itable_ok (f_itable s) ->
  ((exists k i, f_itable s !! k = Some i /\ i_ref i = 0) -> wp (iget dev inum) s (iget_post s dev inum)) /\
  ((forall k i, f_itable s !! k = Some i -> 0 < i_ref i /\ ~ (i_dev i = dev /\ i_inum i = inum)) ->
     iget dev inum s = Panic "iget: no inodes" []) /\
  (forall ip, (ip < length (f_itable s))%nat -> 1 <= i_ref (inode_at ip s) ->
     wp (idup ip) s (fun r s' => r = ip /\ itable_ok (f_itable s') /\
       i_ref (inode_at ip s') = i_ref (inode_at ip s) + 1) /\
     (i_ref (inode_at ip s) <> 1 \/ i_valid (inode_at ip s) = false \/ i_nlink (inode_at ip s) <> 0 ->
      wp (iput ip) s (fun _ s' => itable_ok (f_itable s') /\
       i_ref (inode_at ip s') = i_ref (inode_at ip s) - 1))).
Proof.
  intros Hok. split; [by apply iget_wp|]. split; [apply iget_full|]. intros ip Hip Hr.
  pose proof (inode_lookup s ip Hip) as Hlk.
  assert (forall r, 0 <= r -> r <= 1 + i_ref (inode_at ip s) ->
    itable_ok (alter (set_iref r) ip (f_itable s))) as Halt.
  { intros r Hr0 _. eapply itable_alter; [done|exact Hlk|done|exact (it_addrs _ Hok _ _ Hlk)|].
    simpl. intros _ k j Hne Hj Hrj [Hd Hn]. apply Hne. eapply (it_uniq _ Hok); [exact Hj|exact Hlk|lia..|done|done]. }
  assert (forall g, alter (fun i => set_iref (g (i_ref i)) i) ip (f_itable s) =
    alter (set_iref (g (i_ref (inode_at ip s)))) ip (f_itable s)) as Hext.
  { intros g. apply list_alter_ext; [|done]. intros x Hx. rewrite Hlk in Hx. by injection Hx as <-. }
  split.
  - unfold idup. apply wp_bind, wp_modify, wp_ret. cbn [f_itable set_itable].
    rewrite (Hext (fun r => r + 1)). split; [done|]. split; [apply Halt; lia|].
    unfold inode_at at 1. cbn [f_itable set_itable]. by rewrite list_lookup_total_alter_eq.
  - intros Hkeep. eapply wp_mono; [by apply iput_drop|]. intros ? s' ->. cbn [f_itable set_itable].
    rewrite (Hext (fun r => r - 1)). split; [apply Halt; lia|].
    unfold inode_at at 1. cbn [f_itable set_itable]. by rewrite list_lookup_total_alter_eq.
Qed.

Lemma inode_table_witness : exists s : lst,
  itable_ok (f_itable (demo_opened s)) /\ wp (iget ROOTDEV 2) (demo_opened s) (fun ip s' => i_inum (inode_at ip s') = 2).
Proof.
  destruct demo_fs_booted as (s & _). exists s. pose proof (demo_opened_ok s) as Hok. split; [exact Hok|].
  destruct (inode_table (demo_opened s) ROOTDEV 2 Hok) as [Hget _].
  eapply wp_mono; [apply Hget; exists 1%nat, inode0; done|].
  intros ip s' (f & _ & _ & _ & _ & Hn & _). exact Hn.
Defined.

(** ** File contents and directories *)



(** The root directory of the small file system, locked. *)
Definition demo_root : inode :=
  mkInode ROOTDEV 1 1 (mkSleeplock true 1) true T_DIR 0 0 1 32 ([36] ++ replicate 12 0).
Definition demo_rooted (s : lst) : @fstate lst unit :=
  set_itable (demo_root :: replicate (Z.to_nat (NINODE - 1)) inode0) (demo_fs s).

(** Entries of the root directory, as read from its block. *)
Lemma demo_dirent (s : lst) k : bview (l_bio s) 36 = demo_fs_disk !!! 36 -> 0 <= k < 2 ->
  dirent_at (f_blk (demo_rooted s)) demo_root k = slice (demo_fs_disk !!! 36) (Z.to_nat (k * 16)) 16.
Proof.
  intros Hv Hk. unfold dirent_at. assert (0 <= k * 16 < 32) as Hr by lia.
  assert (bl_view (f_blk (demo_rooted s)) (bmap_at (f_blk (demo_rooted s)) demo_root 0) = demo_fs_disk !!! 36) as Hb.
  { change (bmap_at (f_blk (demo_rooted s)) demo_root 0) with 36. exact Hv. }
  rewrite <- (chunk_bytes (f_blk (demo_rooted s)) demo_root (k * DIRENT_SIZE) DIRENT_SIZE).
  - change DIRENT_SIZE with 16. rewrite Z.div_small, Z.mod_small by klia. rewrite Hb. done.
  - klia.
  - klia.
  - rewrite Z.mod_small by klia. klia.
  - rewrite Z.div_small by klia. rewrite Hb. vm_compute. done.
Qed.

(** Path parsing: [skipelem] splits off exactly the first component of
    the path (the maximal runs of non-slash bytes), stores it truncated to
    DIRSIZ bytes and NUL-terminated if shorter, and what it returns is the
    path of the remaining components; it fails exactly on a path without
    components.  Each step shortens the path, so [namex] terminates. *)
Theorem skipelem_correct path name : length name = Z.to_nat DIRSIZ ->
  match skipelem path name with
  | None => path_elems path = []
  | Some (path', name') => exists e, e <> [] /\ path_elems path = e :: path_elems path' /\
      named e name' /\ length name' = Z.to_nat DIRSIZ /\ (length path' < length path)%nat
  end.
Proof. apply skipelem_elems. Qed.

(** ["//a/bb"] *)
Lemma skipelem_correct_witness : length name0 = Z.to_nat DIRSIZ /\
  exists e, path_elems [47; 47; 97; 47; 98; 98] = e :: path_elems [98; 98] /\ named e (97 :: 0 :: replicate 12 0).
Proof.
  split; [reflexivity|]. pose proof (skipelem_correct [47; 47; 97; 47; 98; 98] name0 eq_refl) as H.
  vm_compute (skipelem _ _) in H. destruct H as (e & _ & He & Hn & _). exists e. split; [exact He|exact Hn].
Defined.

(** C13.  [sys_fsinfo] reports exactly the state of the file system: the four
    integers it copies to user space are the numbers of regular files, of
    directories and of allocated inodes among the superblock's inodes, and of
    clear bits among the superblock's blocks; it returns 0 or, if the copy
    fails, -1, and changes no block. *)
Theorem fsinfo_exact {U} `{UserMemLaws U} (s : @fstate lst U) addr :
  log_wf (f_blk s) -> fsinfo_geom (f_blk s) (f_sb s) ->
  wp (sys_fsinfo addr) s (fun r s' => exists d' u' t c,
    um_copyout addr (fsinfo_bytes (fsinfo_of (f_blk s) (f_sb s))) (f_user s) = Ret c u' t /\
    (r = 0 /\ c = 0 \/ r = -1 /\ c = -1) /\
    s' = set_user u' (set_blk d' s) /\ ro_post (f_blk s) d').
Proof. intros Hwf Hg. by apply sys_fsinfo_wp. Qed.

(** On the small image: one file, one directory, two inodes, 42 free blocks. *)
Lemma fsinfo_exact_witness : exists s : lst,
  fsinfo_of (f_blk (demo_fs s)) demo_sb = mkFsinfo 1 1 2 42 /\
  wp (sys_fsinfo 4096) (demo_fs s) (fun r _ => r = 0).
Proof.
  destruct demo_fs_booted as (s & Hwf & Hh & Ho & Ht & Hdemo). exists s.
  destruct (Hdemo 35 ltac:(lia) ltac:(lia)) as [Hh35 Hv35]. destruct (Hdemo 33 ltac:(lia) ltac:(lia)) as [Hh33 Hv33].
  split.
  - unfold fsinfo_of. simpl sb_ninodes. simpl sb_size.
    assert (inode_counts (inode_type (f_blk (demo_fs s)) demo_sb) 0 16 =
      inode_counts (fun inum => di_type (demo_fs_disk !!! 33) (dinode_off inum)) 0 16) as ->.
    { unfold inode_counts. f_equal; apply countb_ext; intros k Hk; unfold inode_type, IBLOCK;
        rewrite Z.div_small by klia; change (bl_view (f_blk (demo_fs s)) (u32 (0 + sb_inodestart demo_sb)))
          with (bview (l_bio s) 33); by rewrite Hv33. }
    assert (free_counts (block_used (f_blk (demo_fs s)) demo_sb) 0 80 = free_counts (fun b => b <? 38) 0 80) as ->.
    { unfold free_counts. f_equal. apply countb_ext. intros k Hk. rewrite demo_used by (done || lia). done. }
    vm_compute. done.
  - eapply wp_mono; [apply (fsinfo_exact (demo_fs s) 4096)|].
    + exact Hwf.
    + split_and!; try (simpl; lia); intros k Hk.
      * change (0 <= k < 1) in Hk. replace k with 0 by lia. exact (demo_can_read s 33 Hwf Hh Ht Hh33).
      * change (0 <= k < 1) in Hk. replace k with 0 by lia. exact (demo_can_read s 35 Hwf Hh Ht Hh35).
    + intros r s' (d' & u' & t & c & Hrun & [[-> _]|[-> ->]] & _); [done|]. exfalso.
      unfold um_copyout, no_user, ret in Hrun. congruence.
Defined.
