(* ===== verification/FsWriteProps.v ===== *)
(** * Writing files on top of the log: properties

    The theorems of [FsWrite] instantiated with the log and the buffer cache,
    and applied to the file of the small image of [FsProps]. *)
From S2P Require Import Prelude Params Sleeplock Bio BioInv Log LogInv LogCrash LogTxn CString Interfaces BlockInst Fs FsBlocks FsInode FsData FsWrite FsProps.

(** The inode is open in entry ip, its file is well formed, its dinode is in a
    block of its own, and the transaction has room for the write. *)
Record can_write {U} (s : @fstate lst U) (ip : nat) (bs : bytes) (off : Z) : Prop := {
  cw_ip : (ip < length (f_itable s))%nat;
  cw_bytes : Forall is_byte bs;
  cw_file : file_ok (f_sb s) (f_blk s) (inode_at ip s);
  cw_inum : 0 <= i_inum (inode_at ip s);
  cw_iblock : good_block (f_sb s) (f_blk s) (IBLOCK (i_inum (inode_at ip s)) (f_sb s));
  cw_apart : forall k, is_slot k -> slot (f_blk s) (inode_at ip s) k <> IBLOCK (i_inum (inode_at ip s)) (f_sb s);
  cw_room : fs_ok (f_sb s) (f_blk s) (7 * Z.to_nat (blocks_left bs off 0) + 1) }.

Lemma fput_id {U} (s : @fstate lst U) ip : (ip < length (f_itable s))%nat -> fput s ip (f_blk s) (inode_at ip s) = s.
Proof.
  intros Hip. unfold fput. rewrite list_insert_id by by apply inode_lookup. by destruct s.
Qed.


(** What [writei] wrote, [readi] reads back. *)
Theorem write_read_back {U} `{UserMem U} (s : @fstate lst U) ip bs off :
  let i := inode_at ip s in let n := Z.of_nat (length bs) in
  can_write s ip bs off -> 0 <= off <= i_size i -> off + n <= MAXFILE * BSIZE ->
  wp (let! r := writei ip (KernSrc bs) off n in let! x := readi ip KernDst off r in ret (r, x)) s (fun y s' =>
    0 <= y.1 <= n /\ y.2 = (y.1, take (Z.to_nat y.1) bs) /\
    (y.1 < n -> forall b, 0 <= b < sb_size (f_sb s) -> block_used (f_blk s') (f_sb s) b = true)).
Proof.
  intros i n [Hip Hbs Hf Hnum HB Hns Hfs] Hoff Hmax. rewrite <- (fput_id s ip) at 1 by done.
  apply wp_bind. eapply wp_mono; [apply (writei_wp (f_sb s) s ip eq_refl Hip (f_blk s) i bs off Hbs ltac:(lia) Hmax 0); (done || lia)|].
  intros r s' (d' & i' & -> & W & Hfs'). apply wp_bind.
  eapply wp_mono; [eapply (read_back (f_sb s) s ip Hip (f_blk s) i bs off); (done || lia)|].
  intros x s' (-> & d2 & -> & Hro). apply wp_ret. split; [apply W|]. split; [done|]. cbn [fst snd]. intros Hlt b Hb.
  change (f_blk (fput s ip d2 i')) with d2. destruct W as [_ _ _ _ _ _ _ Hfull _ _ _ _ _].
  rewrite (same_used d' d2); [by apply Hfull|]. by destruct Hro as (_ & Hv & _).
Qed.

(** ** The file of the small image *)

Lemma demo_slot (s : lst) k : is_slot k -> slot s demo_open k = if decide (k = 0) then 37 else 0.
Proof.
  intros Hk. unfold is_slot in Hk. unfold slot, bmap_at. change (i_addr demo_open NDIRECT) with 0.
  destruct (Z.eqb_spec k (-1)) as [->|]; [done|]. destruct (Z.ltb_spec k NDIRECT) as [Hlt|]; [|case_decide; [klia|done]].
  assert (forallb (fun k => i_addr demo_open k =? if decide (k = 0) then 37 else 0) (seqZ 0 NDIRECT) = true) as Hall by (by vm_compute).
  rewrite forallb_forall in Hall. apply Z.eqb_eq, Hall, list_elem_of_In, elem_of_seqZ. lia.
Qed.

(** The data blocks of the image, and room in its transaction. *)
Definition demo_ready (s : lst) : Prop := log_wf s /\ held (l_bio s) = ∅ /\ txn_open s /\ txn s = ∅ /\
  forall b, 0 <= b < 80 -> ~ (2 <= b <= 32) -> home s b /\ bview (l_bio s) b = demo_fs_disk !!! b.

Lemma demo_good_block (s : lst) b : demo_ready s -> 33 <= b < 38 -> b <> 35 -> good_block demo_sb s b.
Proof.
  intros (Hwf & Hh & Ho & Ht & Hdemo) Hb Hne. pose proof (proj2 (Hdemo 35 ltac:(lia) ltac:(lia))) as H35.
  split; [change (sb_size demo_sb) with 80; lia|]. split; [rewrite (demo_used s) by (done || lia); lia|].
  split; [apply (Hdemo b); lia|]. change (bl_held s) with (held (l_bio s)). rewrite Hh, map_img_empty_L. split; [apply not_elem_of_empty|].
  intros b' Hb'. change (sb_size demo_sb) with 80 in Hb'. rewrite BBLOCK_eq by (change (sb_bmapstart demo_sb) with 35; lia).
  rewrite Z.div_small by klia. change (sb_bmapstart demo_sb) with 35. lia.
Qed.

Lemma demo_fs_ok (s : lst) n : demo_ready s -> (n < NBUF)%nat -> fs_ok demo_sb s n.
Proof.
  intros (Hwf & Hh & Ho & Ht & Hdemo) Hn. pose proof (proj2 (Hdemo 35 ltac:(lia) ltac:(lia))) as H35.
  split; [by apply (demo_alloc_geom s)|done|done| |].
  - split; [done|]. rewrite (demo_used s) by (done || lia). done.
  - change (bl_txn s) with (txn s). change (bl_held s) with (held (l_bio s)). rewrite Ht, Hh, size_empty, map_size_empty. lia.
Qed.

Lemma demo_file_ok (s : lst) : demo_ready s -> file_ok demo_sb s demo_open.
Proof.
  intros Hr. split; [done|done|..].
  - intros k Hk. rewrite (demo_slot s k Hk). case_decide; [intros _; apply demo_good_block; (done || lia)|done].
  - intros k k' Hk Hk'. rewrite !demo_slot by done. repeat case_decide; lia.
Qed.

Lemma demo_can_write (s : lst) bs off : demo_ready s ->
  Forall is_byte bs -> (7 * Z.to_nat (blocks_left bs off 0) + 1 < NBUF)%nat -> can_write (demo_opened s) 0 bs off.
Proof.
  intros Hr Hbs Hroom.
  assert (IBLOCK 2 demo_sb = 33) as HB by (by vm_compute).
  assert (inode_at 0 (demo_opened s) = demo_open) as Hat by done.
  split; rewrite ?Hat; change (f_sb (demo_opened s)) with demo_sb; change (f_blk (demo_opened s)) with s.
  - cbn. lia.
  - exact Hbs.
  - by apply demo_file_ok.
  - change (i_inum demo_open) with 2. lia.
  - change (i_inum demo_open) with 2. rewrite HB. apply demo_good_block; (done || lia).
  - intros k Hk. rewrite (demo_slot s k Hk). change (i_inum demo_open) with 2. rewrite HB. case_decide; lia.
  - by apply demo_fs_ok.
Qed.

(** 2000 bytes at offset 5: the write fills the file's block and maps one more. *)
Definition demo_bytes : bytes := replicate 2000 7.

Lemma demo_bytes_ok : Forall is_byte demo_bytes.
Proof. apply Forall_replicate. unfold is_byte. lia. Qed.
Lemma demo_bytes_room : (7 * Z.to_nat (blocks_left demo_bytes 5 0) + 1 < NBUF)%nat.
Proof. vm_compute. lia. Qed.


Lemma write_read_back_witness : exists s : lst,
  wp (let! r := writei 0 (KernSrc demo_bytes) 5 2000 in let! x := readi 0 KernDst 5 r in ret (r, x)) (demo_opened s)
    (fun y _ => y.2 = (y.1, take (Z.to_nat y.1) demo_bytes)).
Proof.
  destruct demo_fs_booted as (s & Hready). exists s. pose proof Hready as (Hwf & Hh & Ho & Ht & Hdemo).
  assert (can_write (demo_opened s) 0 demo_bytes 5) as Hcw by (apply demo_can_write; auto using demo_bytes_ok, demo_bytes_room).
  eapply wp_mono; [apply (write_read_back (demo_opened s) 0 demo_bytes 5 Hcw); vm_compute; (done || split; done)|].
  intros y s' (_ & E & _). exact E.
Defined.
