(* ===== verification/FsTrunc.v ===== *)
(** * Truncating files: [itrunc]

    [itrunc] frees the blocks of a file one after the other.  [freed d F d']:
    exactly the blocks of F went back to the free map, which is all that
    changed.  The transaction needs room for the blocks of the free map and for
    the inode. *)
From S2P Require Import Prelude Params Sleeplock CString Interfaces Fs FsBlocks FsInode FsData FsWrite.

Section trunc.
Context {D U : Type} `{BlockLaws D} `{UserMem U}.
Context (sb : superblock).
Implicit Types (d : D) (s : @fstate D U) (i : inode) (F : Z -> Prop).

(** The blocks of the free map. *)
Definition bitmap : gset Z := list_to_set ((fun k => BBLOCK (k * BPB) sb) <$> seqZ 0 (sb_size sb / BPB + 1)).
Definition in_bitmap (b : Z) : Prop := exists b', 0 <= b' < sb_size sb /\ b = BBLOCK b' sb.

(** What [bfree] needs, with room for the whole free map and c more blocks. *)
Record freeing d (c : nat) : Prop := {
  fr_size : 0 <= sb_size sb < 2^31;
  fr_start : 0 <= sb_bmapstart sb < 2^31;
  fr_wf : bl_wf d;
  fr_open : bl_open d;
  fr_bitmap : forall b, 0 <= b < sb_size sb -> bl_home d (BBLOCK b sb) /\ BBLOCK b sb ∉ (map_img (bl_held d) : gset Z);
  fr_room : (size (bl_txn d ∪ bitmap) + size (bl_held d) + c < NBUF)%nat }.

Record freed d F d' : Prop := {
  fd_same : bl_same d d';
  fd_held : bl_held d' = bl_held d;
  fd_txn : bl_txn d ⊆ bl_txn d' /\ bl_txn d' ⊆ bl_txn d ∪ bitmap;
  fd_free : forall b, 0 <= b < sb_size sb -> F b -> block_used d' sb b = false;
  fd_keep : forall b, 0 <= b < sb_size sb -> ~ F b -> block_used d' sb b = block_used d sb b;
  fd_view : forall b, ~ in_bitmap b -> bl_view d' b = bl_view d b;
  fd_clean : forall b, ~ in_bitmap b -> bl_clean d b -> bl_clean d' b }.

Lemma BBLOCK_bitmap b : 0 <= sb_bmapstart sb < 2^31 -> sb_size sb < 2^31 -> 0 <= b < sb_size sb -> BBLOCK b sb ∈ bitmap.
Proof.
  intros Hs Hz Hb. unfold bitmap. apply elem_of_list_to_set, list_elem_of_fmap. exists (b / BPB).
  pose proof (Z.mod_pos_bound b BPB ltac:(klia)). pose proof (Z_div_mod_eq_full b BPB). pose proof (Z.div_pos b BPB ltac:(lia) ltac:(klia)).
  split.
  - destruct (BBLOCK_split sb (b / BPB) (b `mod` BPB)) as [E _]; [done|klia|done|done|]. rewrite <- E. f_equal. klia.
  - apply elem_of_seqZ. pose proof (Z.div_le_mono b (sb_size sb) BPB ltac:(klia) ltac:(lia)). lia.
Qed.

Lemma freed_refl d F : bl_wf d -> (forall b, ~ F b) -> freed d F d.
Proof. intros Hwf HF. split; try done; [set_solver|]. intros b Hb Hfb. by apply HF in Hfb. Qed.

Lemma freed_iff d F G d' : freed d F d' -> (forall b, F b <-> G b) -> freed d G d'.
Proof. intros [? ? ? Hf Hk ? ?] E. split; try done; intros b Hb Hg; [apply Hf|apply Hk]; try done; by rewrite E. Qed.

Lemma freed_trans d F d1 G d2 : (forall b, Decision (G b)) -> freed d F d1 -> freed d1 G d2 -> freed d (fun b => F b \/ G b) d2.
Proof.
  intros Hdec [S1 He1 T1 F1 K1 V1 C1] [S2 He2 T2 F2 K2 V2 C2]. split.
  - by eapply same_trans.
  - congruence.
  - set_solver.
  - intros b Hb HFG. destruct (Hdec b) as [HG|HG]; [by apply F2|]. rewrite K2 by done. apply F1; tauto.
  - intros b Hb HFG. rewrite K2, K1 by tauto. done.
  - intros b Hb. rewrite V2, V1 by done. done.
  - auto.
Qed.

Lemma freed_freeing d F d' c : freeing d c -> freed d F d' -> freeing d' c.
Proof.
  intros [? ? Hwf Ho Hb Hr] [Hs Hh Ht _ _ _ _]. split; [done|done|by eapply same_wf|by eapply same_open| |].
  - intros b Hb'. rewrite Hh. destruct (Hb b Hb'). split; [by eapply same_home|done].
  - rewrite Hh. assert (bl_txn d' ∪ bitmap = bl_txn d ∪ bitmap) as -> by set_solver. done.
Qed.

Section on_file.
Context (s : @fstate D U) (ip : nat) (Hsb : f_sb s = sb) (Hip : (ip < length (f_itable s))%nat).

Lemma bfree_fput d i b : freeing d 0 -> 0 <= b < sb_size sb -> block_used d sb b = true ->
  wp (bfree ROOTDEV b) (fput s ip d i) (fun _ s' => exists d', s' = fput s ip d' i /\ freed d (eq b) d').
Proof.
  intros [Hsz Hst Hwf Ho Hbm Hroom] Hb Hu. destruct (Hbm b Hb) as [Hh Hnh].
  pose proof (subseteq_size (bl_txn d) (bl_txn d ∪ bitmap) ltac:(set_solver)) as Hle.
  pose proof (bfree_wp (fput s ip d i) b) as Hw. cbn in Hw. rewrite Hsb in Hw.
  eapply wp_mono; [apply Hw; try done; [split_and!; [done|done|done|lia]|klia|lia]|].
  intros ? s' (d' & -> & Hs & Hhe & Ht & Hus & Hv & Hc). exists d'. split; [done|].
  pose proof (BBLOCK_bitmap b Hst ltac:(lia) Hb) as Hin. split; [done|done|rewrite Ht; set_solver|..].
  - intros b' Hb' <-. rewrite Hus, decide_True; done.
  - intros b' Hb' Hne. rewrite Hus, decide_False; [done|done|congruence].
  - intros b' Hb'. apply Hv. intros ->. apply Hb'. by exists b.
  - intros b' Hb'. apply Hc. intros ->. apply Hb'. by exists b.
Qed.

(** The inode with its first k addresses cleared. *)
Definition cleared (k : Z) i : inode := wrote_inode i (i_size i) (replicate (Z.to_nat k) 0 ++ drop (Z.to_nat k) (i_addrs i)).

Lemma cleared_next i k : inode_ok i -> 0 <= k <= NDIRECT -> set_iaddr k 0 (cleared k i) = cleared (k + 1) i.
Proof.
  intros Hok Hk. unfold set_iaddr, cleared, wrote_inode. cbn. f_equal. unfold inode_ok in Hok.
  rewrite insert_app_r_alt, length_replicate, Nat.sub_diag by (rewrite length_replicate; lia).
  destruct (drop (Z.to_nat k) (i_addrs i)) as [|a l] eqn:E; [apply (f_equal length) in E; rewrite length_drop in E; cbn in E; klia|].
  replace (Z.to_nat (k + 1)) with (S (Z.to_nat k)) by lia. rewrite replicate_S_end, <- app_assoc. cbn. do 2 f_equal.
  rewrite <- Nat.add_1_r, <- drop_drop, E. done.
Qed.
Lemma cleared_addr i k j : inode_ok i -> 0 <= k <= NDIRECT + 1 -> 0 <= j <= NDIRECT -> i_addr (cleared k i) j = if decide (j < k) then 0 else i_addr i j.
Proof.
  intros Hok Hk Hj. unfold i_addr, cleared, wrote_inode. cbn [i_addrs]. case_decide.
  - rewrite lookup_total_app_l by (rewrite length_replicate; lia). apply lookup_total_replicate_2. lia.
  - rewrite lookup_total_app_r, length_replicate by (rewrite length_replicate; lia). rewrite !list_lookup_total_alt, lookup_drop. do 2 f_equal. lia.
Qed.
Lemma cleared_zero i k : inode_ok i -> 0 <= k <= NDIRECT -> i_addr i k = 0 -> cleared (k + 1) i = cleared k i.
Proof.
  intros Hok Hk Hz. rewrite <- cleared_next by done. unfold set_iaddr. replace (<[Z.to_nat k:=0]> (i_addrs (cleared k i))) with (i_addrs (cleared k i)); [done|].
  symmetry. apply list_insert_id. pose proof (cleared_addr i k k Hok ltac:(lia) ltac:(lia)) as E. rewrite decide_False, Hz in E by lia.
  rewrite <- E. unfold i_addr. apply list_lookup_lookup_total_lt. unfold cleared, wrote_inode. cbn. unfold inode_ok in Hok.
  rewrite length_app, length_replicate, length_drop. klia.
Qed.

Definition direct_upto i (k b : Z) : Prop := b <> 0 /\ exists j, 0 <= j < k /\ i_addr i j = b.

Lemma slot_direct d i k : 0 <= k < NDIRECT -> slot d i k = i_addr i k.
Proof. intros Hk. unfold slot, bmap_at. replace (k =? -1) with false by lia. by replace (k <? NDIRECT) with true by lia. Qed.

Lemma free_direct d i : file_ok sb d i -> freeing d 0 ->
  wp (iter NDIRECT (fun k => let! i := gets (inode_at ip) in
        when (negb (i_addr i k =? 0)) (bfree (i_dev i) (i_addr i k) ;;; modify_inode ip (set_iaddr k 0)))) (fput s ip d i)
    (fun _ s' => exists d', s' = fput s ip d' (cleared NDIRECT i) /\ freed d (direct_upto i NDIRECT) d').
Proof.
  intros Hf Hfr. pose proof (fk_inode _ _ _ Hf) as Hok.
  apply (wp_iter (fun k s' => exists d', s' = fput s ip d' (cleared k i) /\ freed d (direct_upto i k) d')); [klia| | |done].
  - exists d. split; [by destruct i|]. apply freed_refl; [apply Hfr|]. intros b (_ & j & ? & _). lia.
  - intros k ? Hk (d1 & -> & Hd1). apply wp_bind, wp_gets. rewrite inode_at_fput by done.
    rewrite (cleared_addr i k k), decide_False by (done || lia). change (i_dev (cleared k i)) with (i_dev i). rewrite (fk_dev _ _ _ Hf).
    apply wp_when; intros Hz.
    + assert (slot d i k <> 0) as Hnz by (rewrite slot_direct by done; lia).
      assert (is_slot k) as Hsl by (unfold is_slot; klia). pose proof (fk_good _ _ _ Hf k Hsl Hnz) as (Hr & Hu & _).
      rewrite slot_direct in Hr, Hu by done.
      assert (~ direct_upto i k (i_addr i k)) as Hnew.
      { intros (_ & j & Hj & E). enough (j = k) by lia. apply (fk_inj _ _ _ Hf j k); [unfold is_slot; klia|done|by rewrite !slot_direct by lia|].
        rewrite slot_direct, E by lia. lia. }
      apply wp_bind. eapply wp_mono; [apply bfree_fput; [by eapply freed_freeing|lia|rewrite (fd_keep _ _ _ Hd1) by (done || lia); done]|].
      intros ? ? (d2 & -> & Hd2). apply modify_fput. exists d2. rewrite cleared_next by (done || lia). split; [done|].
      eapply freed_iff; [eapply (freed_trans _ _ _ _ _ (fun b => decide (i_addr i k = b))); done|]. intros b. unfold direct_upto. split.
      * intros [(? & j & ? & ?)|<-]; (split; [lia|]); [exists j|exists k]; split; (done || lia).
      * intros (? & j & ? & <-). destruct (decide (j = k)) as [->|]; [by right|left]. split; [done|]. exists j. split; [lia|done].
    + exists d1. rewrite cleared_zero by (done || lia). split; [done|]. eapply freed_iff; [done|]. intros b. unfold direct_upto. split.
      * intros (? & j & ? & ?). split; [done|]. exists j. split; [lia|done].
      * intros (? & j & ? & E). split; [done|]. exists j. split; [|done]. destruct (decide (j = k)) as [->|]; lia.
Qed.

(** *** The indirect block, held while its entries are freed *)

Lemma got_freeing d d1 h A c : freeing d (c + 1) -> ~ in_bitmap A -> got d d1 h A -> freeing d1 c.
Proof.
  intros [? ? Hwf Ho Hb Hr] HA (Hs & Hv & Hn & Hh & Ht & _). split; [done|done|by eapply same_wf|by eapply same_open| |].
  - intros b Hb'. destruct (Hb b Hb') as [Hhome Hnh]. split; [by eapply same_home|]. rewrite Hh. intros (k & Hk)%elem_of_map_img.
    apply lookup_insert_Some in Hk as [[_ E]|[_ Hk]]; [apply HA; by exists b|]. apply Hnh, elem_of_map_img. eauto.
  - rewrite Ht, Hh, map_size_insert_None by done. lia.
Qed.

Lemma freed_around d d1 d2 d3 h A F : ~ in_bitmap A -> got d d1 h A -> freed d1 F d2 -> bl_same d2 d3 -> (forall b, bl_view d3 b = bl_view d2 b) ->
  bl_held d3 = delete h (bl_held d2) -> bl_txn d3 = bl_txn d2 -> (forall b, bl_clean d2 b -> bl_clean d3 b) -> freed d F d3.
Proof.
  intros HA (S1 & V1 & N1 & He1 & T1 & _ & C1) [S2 He2 T2 F2 K2 V2 C2] S3 V3 He3 T3 C3. split.
  - eauto using same_trans.
  - rewrite He3, He2, He1. by apply delete_insert_id.
  - by rewrite T3, <- T1.
  - intros b Hb HF. rewrite (same_used d2 d3) by done. auto.
  - intros b Hb HF. rewrite (same_used d2 d3), K2 by done. by apply same_used.
  - intros b Hb. by rewrite V3, V2.
  - auto.
Qed.

Definition ind_upto d i (k b : Z) : Prop := b <> 0 /\ exists j, 0 <= j < k /\ ind_get (bl_view d (i_addr i NDIRECT)) j = b.

#[local] Instance ind_upto_dec d i b : Decision (ind_upto d i NINDIRECT b).
Proof.
  unfold ind_upto. apply and_dec; [apply _|].
  destruct (decide (Exists (fun j => ind_get (bl_view d (i_addr i NDIRECT)) j = b) (seqZ 0 NINDIRECT))) as [E|E]; [left|right].
  - apply Exists_exists in E as (j & Hj & E). exists j. apply elem_of_seqZ in Hj. split; [lia|done].
  - intros (j & Hj & Ej). apply E, Exists_exists. exists j. split; [|done]. apply elem_of_seqZ. lia.
Defined.

Lemma slot_indirect d i j : i_addr i NDIRECT <> 0 -> 0 <= j -> slot d i (NDIRECT + j) = ind_get (bl_view d (i_addr i NDIRECT)) j.
Proof.
  intros HA Hj. unfold slot, bmap_at. replace (NDIRECT + j =? -1) with false by klia. replace (NDIRECT + j <? NDIRECT) with false by lia.
  rewrite (proj2 (Z.eqb_neq _ 0)) by done. f_equal. lia.
Qed.

Lemma good_not_bitmap d b : good_block sb d b -> ~ in_bitmap b.
Proof. intros (_ & _ & _ & _ & Hb) (b' & Hb' & E). by apply (Hb b'). Qed.

(** A block of the indirect part is still in use after the direct blocks are freed. *)
Lemma ind_fresh d d1 i j : file_ok sb d i -> i_addr i NDIRECT <> 0 -> freed d (direct_upto i NDIRECT) d1 -> 0 <= j < NINDIRECT ->
  let b := ind_get (bl_view d (i_addr i NDIRECT)) j in b <> 0 ->
  0 <= b < sb_size sb /\ block_used d1 sb b = true /\ ~ ind_upto d i j b.
Proof.
  intros Hf HA Hd1 Hj b Hb. pose proof (slot_indirect d i j HA ltac:(lia)) as Es. fold b in Es.
  assert (is_slot (NDIRECT + j)) as Hsl by (unfold is_slot; klia).
  destruct (fk_good _ _ _ Hf _ Hsl ltac:(congruence)) as (Hr & Hu & _). rewrite Es in Hr, Hu. split; [lia|]. split.
  - rewrite (fd_keep _ _ _ Hd1); [done|lia|]. intros (_ & k & Hk & E).
    assert (k = NDIRECT + j); [|lia]. apply (fk_inj _ _ _ Hf); [unfold is_slot; klia|done| |]; rewrite slot_direct by done; congruence.
  - intros (_ & k & Hk & E). pose proof (slot_indirect d i k HA ltac:(lia)) as Ek.
    assert (NDIRECT + k = NDIRECT + j); [|lia]. apply (fk_inj _ _ _ Hf); [unfold is_slot; klia|done|congruence|congruence].
Qed.

Lemma free_entries d d1 dg i i1 h : let A := i_addr i NDIRECT in
  file_ok sb d i -> A <> 0 -> ~ in_bitmap A -> freed d (direct_upto i NDIRECT) d1 -> got d1 dg h A -> freeing dg 0 ->
  wp (iter NINDIRECT (fun j => let! x := blk (bl_data h) in when (negb (ind_get x j =? 0)) (bfree ROOTDEV (ind_get x j)))) (fput s ip dg i1)
    (fun _ s' => exists d', s' = fput s ip d' i1 /\ freed dg (ind_upto d i NINDIRECT) d').
Proof.
  intros A Hf HA HnA Hd1 Hgot Hfr. pose proof (got_held _ _ _ _ Hgot) as Hheld. pose proof Hgot as (_ & Hvg & _).
  apply (wp_iter (fun k s' => exists d', s' = fput s ip d' i1 /\ freed dg (ind_upto d i k) d')); [klia| | |done].
  - exists dg. split; [done|]. apply freed_refl; [apply Hfr|]. intros b (_ & j & ? & _). lia.
  - intros k ? Hk (d2 & -> & Hd2). apply wp_bind.
    eapply wp_blk; [apply (bl_data_law d2 h A); [by eapply same_wf, (fd_same _ _ _ Hd2)|by rewrite (fd_held _ _ _ Hd2)]|].
    intros x d2' [-> ->]. change (set_blk _ (fput s ip d2 i1)) with (fput s ip d2 i1).
    rewrite (fd_view _ _ _ Hd2), Hvg, (fd_view _ _ _ Hd1) by done. apply wp_when; intros Hz.
    + assert (ind_get (bl_view d A) k <> 0) as Hnz by lia. destruct (ind_fresh d d1 i k Hf HA Hd1 Hk Hnz) as (Hr & Hu & Hnew). fold A in Hr, Hu, Hnew.
      eapply wp_mono; [apply bfree_fput; [by eapply freed_freeing|done|]|].
      { rewrite (fd_keep _ _ _ Hd2) by done. by rewrite (same_used d1 dg). }
      intros ? ? (d3 & -> & Hd3). exists d3. split; [done|].
      eapply freed_iff; [eapply (freed_trans _ _ _ _ _ (fun b => decide (_ = b))); done|]. intros b. unfold ind_upto. fold A. split.
      * intros [(? & j & ? & ?)|<-]; (split; [lia|]); [exists j|exists k]; split; (done || lia).
      * intros (? & j & ? & <-). destruct (decide (j = k)) as [->|]; [by right|left]. split; [done|]. exists j. split; [lia|done].
    + exists d2. split; [done|]. eapply freed_iff; [done|]. intros b. unfold ind_upto. fold A. split.
      * intros (? & j & ? & ?). split; [done|]. exists j. split; [lia|done].
      * intros (? & j & ? & E). split; [done|]. exists j. split; [|done]. destruct (decide (j = k)) as [->|]; lia.
Qed.

Lemma free_indirect d d1 i i1 : let A := i_addr i NDIRECT in
  file_ok sb d i -> A <> 0 -> freeing d 1 -> freed d (direct_upto i NDIRECT) d1 ->
  wp (let! bp := blk (bl_bread ROOTDEV A) in
      iter NINDIRECT (fun j => let! x := blk (bl_data bp) in when (negb (ind_get x j =? 0)) (bfree ROOTDEV (ind_get x j))) ;;;
      blk (bl_brelse bp)) (fput s ip d1 i1)
    (fun _ s' => exists d', s' = fput s ip d' i1 /\ freed d1 (ind_upto d i NINDIRECT) d').
Proof.
  intros A Hf HA Hfr Hd1. pose proof (fk_good _ _ _ Hf (-1) ltac:(unfold is_slot; klia) HA) as HgA.
  change (slot d i (-1)) with A in HgA. pose proof (good_not_bitmap _ _ HgA) as HnA. destruct HgA as (_ & _ & HhA & HnhA & _).
  pose proof (freed_freeing _ _ _ _ Hfr Hd1) as Hfr1. pose proof (fr_room _ _ Hfr1) as Hroom.
  pose proof (subseteq_size (bl_txn d1) (bl_txn d1 ∪ bitmap) ltac:(set_solver)) as Hle.
  apply wp_bind. eapply wp_blk; [apply (bl_bread_law d1 A); [apply Hfr1|eapply same_home; [apply Hd1|done]|by rewrite (fd_held _ _ _ Hd1)|lia]|].
  intros h dg Hgot. fold (got d1 dg h A) in Hgot. change (set_blk dg (fput s ip d1 i1)) with (fput s ip dg i1). apply wp_bind.
  eapply wp_mono; [apply (free_entries d d1 dg); try done; by apply (got_freeing d1 dg h A 0)|]. intros ? ? (d2 & -> & Hd2).
  pose proof (got_held _ _ _ _ Hgot) as Hheld. pose proof Hgot as (_ & _ & _ & _ & Htg & Hcg & _).
  eapply wp_blk; [apply (bl_brelse_law d2 h A); [by eapply same_wf, (fd_same _ _ _ Hd2)|by rewrite (fd_held _ _ _ Hd2)|]|].
  { destruct (decide (A ∈ bl_txn d1)) as [Hin|Hin]; [left; apply (fd_txn _ _ _ Hd2); by rewrite Htg|right]. apply (fd_clean _ _ _ Hd2); auto. }
  intros ? d3 (S3 & V3 & He3 & T3 & C3). exists d3. split; [done|]. by eapply (freed_around d1 dg d2 d3 h A).
Qed.

(** *** The whole file *)

Definition in_file d i (b : Z) : Prop := b <> 0 /\ exists k, is_slot k /\ slot d i k = b.

Record truncated d i d' i' : Prop := {
  tr_inode : i' = wrote_inode i 0 (replicate (Z.to_nat (NDIRECT + 1)) 0);
  tr_free : forall b, 0 <= b < sb_size sb -> in_file d i b -> block_used d' sb b = false;
  tr_used : forall b, 0 <= b < sb_size sb -> ~ in_file d i b -> block_used d' sb b = block_used d sb b;
  tr_disk : let B := IBLOCK (i_inum i) sb in bl_view d' B = store_dinode i' (dinode_off (i_inum i)) (bl_view d B);
  tr_frame : forall b, ~ in_bitmap b -> b <> IBLOCK (i_inum i) sb -> bl_view d' b = bl_view d b;
  tr_file : file_ok sb d' i';
  tr_fs : fs_ok sb d' 0;
  tr_held : bl_held d' = bl_held d;
  tr_same : bl_same d d';
  tr_txn : IBLOCK (i_inum i) sb ∈ bl_txn d' }.

(** Everything is freed once the indirect block is, too. *)
Lemma in_file_split d i b : file_ok sb d i -> in_file d i b <->
  direct_upto i NDIRECT b \/ (i_addr i NDIRECT <> 0 /\ (ind_upto d i NINDIRECT b \/ i_addr i NDIRECT = b)).
Proof.
  intros Hf. split.
  - intros (Hb & k & Hk & <-). unfold is_slot in Hk. destruct (decide (k = -1)) as [->|]; [right; split; [done|by right]|].
    destruct (decide (k < NDIRECT)); [left; split; [done|]; exists k; split; [lia|]; by rewrite slot_direct by lia|right].
    assert (i_addr i NDIRECT <> 0) as HA.
    { intros E. apply Hb. unfold slot, bmap_at. replace (k =? -1) with false by lia. replace (k <? NDIRECT) with false by lia. by rewrite E. }
    split; [done|left]. split; [done|]. exists (k - NDIRECT). split; [klia|]. rewrite <- (slot_indirect d i) by (done || lia). f_equal. lia.
  - intros [(Hb & j & Hj & <-)|(HA & [(Hb & j & Hj & <-)|<-])]; (split; [done|]).
    + exists j. split; [unfold is_slot; klia|]. by rewrite slot_direct.
    + exists (NDIRECT + j). split; [unfold is_slot; klia|]. by rewrite slot_indirect by (done || lia).
    + exists (-1). split; [unfold is_slot; klia|done].
Qed.

Lemma wp_then {A B} (m : M (@fstate D U) A) (f : A -> M fstate B) (g : A -> M fstate unit) (K : M fstate unit) P Q s0 :
  wp (let! a := m in f a ;;; g a) s0 (fun _ s' => P s') -> (forall s', P s' -> wp K s' Q) -> wp (let! a := m in f a ;;; g a ;;; K) s0 Q.
Proof.
  intros Hm HK. apply wp_bind_inv in Hm. apply wp_bind. eapply wp_mono; [exact Hm|]. intros a s1 H2. apply wp_bind_inv in H2. apply wp_bind.
  eapply wp_mono; [exact H2|]. intros b s2 H3. apply wp_bind. eapply wp_mono; [exact H3|]. intros ? s3. apply HK.
Qed.

Lemma wp_assoc {A B} (m : M (@fstate D U) A) (g : M fstate B) (w : B -> M fstate unit) (K : M fstate unit) Q s0 :
  wp (m ;;; let! b := g in w b) s0 (fun _ s' => wp K s' Q) -> wp (m ;;; let! b := g in w b ;;; K) s0 Q.
Proof.
  intros Hm. apply wp_bind_inv in Hm. apply wp_bind. eapply wp_mono; [exact Hm|]. intros a s1 H2. apply wp_bind_inv in H2. apply wp_bind.
  eapply wp_mono; [exact H2|]. intros b s2 H3. by apply wp_bind.
Qed.

(** All blocks of the file go back. *)
Lemma free_all d i : file_ok sb d i -> freeing d 1 ->
  wp (iter NDIRECT (fun k => let! i := gets (inode_at ip) in
        when (negb (i_addr i k =? 0)) (bfree (i_dev i) (i_addr i k) ;;; modify_inode ip (set_iaddr k 0))) ;;;
      let! i := gets (inode_at ip) in
      when (negb (i_addr i NDIRECT =? 0))
        (let! bp := blk (bl_bread (i_dev i) (i_addr i NDIRECT)) in
         iter NINDIRECT (fun j => let! x := blk (bl_data bp) in when (negb (ind_get x j =? 0)) (bfree (i_dev i) (ind_get x j))) ;;;
         blk (bl_brelse bp) ;;;
         bfree (i_dev i) (i_addr i NDIRECT) ;;;
         modify_inode ip (set_iaddr NDIRECT 0))) (fput s ip d i)
    (fun _ s' => exists d', s' = fput s ip d' (cleared (NDIRECT + 1) i) /\ freed d (in_file d i) d').
Proof.
  intros Hf Hfr. pose proof (fk_inode _ _ _ Hf) as Hok.
  assert (freeing d 0) as Hfr0 by (destruct Hfr; split; try done; lia).
  apply wp_bind. eapply wp_mono; [by apply free_direct|]. intros ? ? (d1 & -> & Hd1).
  apply wp_bind, wp_gets. rewrite inode_at_fput by done. rewrite (cleared_addr i NDIRECT NDIRECT), decide_False by (done || klia).
  change (i_dev (cleared NDIRECT i)) with (i_dev i). rewrite (fk_dev _ _ _ Hf). set (A := i_addr i NDIRECT). apply wp_when; intros Hz.
  - assert (A <> 0) as HA by lia. apply (wp_then _ _ _ _ (fun s' => exists d', s' = fput s ip d' (cleared NDIRECT i) /\ freed d1 (ind_upto d i NINDIRECT) d'));
      [by apply (free_indirect d)|]. intros ? (d2 & -> & Hd2). apply wp_bind.
    destruct (fk_good _ _ _ Hf (-1) ltac:(unfold is_slot; klia) HA) as (HrA & HuA & _). change (slot d i (-1)) with A in HrA, HuA.
    eapply wp_mono; [apply (bfree_fput d2 _ A); [by eapply freed_freeing, Hd2; eapply freed_freeing|lia|]|].
    { rewrite (fd_keep _ _ _ Hd2), (fd_keep _ _ _ Hd1); [done|lia| |lia|].
      - intros (_ & k & Hk & E). assert (k = -1); [|lia]. apply (fk_inj _ _ _ Hf); [unfold is_slot; klia..| |]; rewrite slot_direct by done; [by rewrite E|lia].
      - intros (_ & k & Hk & E). pose proof (slot_indirect d i k HA ltac:(lia)) as Ek. assert (NDIRECT + k = -1); [|klia].
        apply (fk_inj _ _ _ Hf); [unfold is_slot; klia..|by rewrite Ek, E|rewrite Ek, E; done]. }
    intros ? ? (d3 & -> & Hd3). apply modify_fput. exists d3. rewrite cleared_next by (done || klia). split; [done|].
    eapply freed_iff; [eapply (freed_trans _ _ _ _ _ (fun b => decide (A = b))); [|exact Hd3]; eapply (freed_trans _ _ _ _ _ (ind_upto_dec d i)); done|].
    intros b. rewrite (in_file_split d i b Hf). fold A. tauto.
  - exists d1. rewrite cleared_zero by (done || klia || (fold A; lia)). split; [done|]. eapply freed_iff; [done|]. intros b. rewrite (in_file_split d i b Hf). fold A.
    split; [tauto|]. intros [?|[? _]]; [done|lia].
Qed.

Lemma freeing_fs d c : fs_ok sb d 0 -> (size (bl_txn d ∪ bitmap) + size (bl_held d) + c < NBUF)%nat -> freeing d c.
Proof. intros [[Hsz Hst Hbm Hfree] Hwf Ho Hz _] Hr. by split. Qed.

Lemma good_freed d d' i b : freed d (in_file d i) d' -> ~ in_file d i b -> good_block sb d b -> good_block sb d' b.
Proof.
  intros Hd Hn (Hr & Hu & Hh & Hnh & Hb). split_and!; try lia; try done.
  - rewrite (fd_keep _ _ _ Hd) by (done || lia). done.
  - eapply same_home; [apply Hd|done].
  - by rewrite (fd_held _ _ _ Hd).
Qed.

Lemma fs_freed d d' i c : file_ok sb d i -> fs_ok sb d 0 -> freeing d c -> freed d (in_file d i) d' -> fs_ok sb d' c.
Proof.
  intros Hf [[Hsz Hst Hbm Hfree] Hwf Ho [Hz Hzu] _] Hfr Hd. pose proof (freed_freeing _ _ _ _ Hfr Hd) as [_ _ Hwf' Ho' Hbm' Hr'].
  split; [split|done|done| |]; try done.
  - intros b Hb Hu. rewrite (fd_held _ _ _ Hd). destruct (decide (block_used d sb b = true)) as [Hub|Hub].
    + assert (in_file d i b \/ ~ in_file d i b) as [(Hb0 & k & Hk & <-)|Hn].
      { destruct (decide (Exists (fun k => slot d i k = b) (seqZ (-1) (MAXFILE + 1)) /\ b <> 0)) as [[E Hb0]|E].
        - left. split; [done|]. apply Exists_exists in E as (k & Hk & E). apply elem_of_seqZ in Hk. exists k. split; [unfold is_slot; lia|done].
        - right. intros (Hb0 & k & Hk & Ek). apply E. split; [|done]. apply Exists_exists. exists k. split; [|done]. apply elem_of_seqZ. unfold is_slot in Hk. lia. }
      * destruct (fk_good _ _ _ Hf k Hk Hb0) as (_ & _ & Hh & Hnh & Hnb). split_and!; [eapply same_home; [apply Hd|done]|done|done].
      * rewrite (fd_keep _ _ _ Hd) in Hu by done. congruence.
    + destruct (Hfree b Hb) as (? & ? & ?); [by destruct (block_used d sb b)|]. split_and!; [eapply same_home; [apply Hd|done]|done|done].
  - split; [done|]. rewrite (fd_keep _ _ _ Hd); [done|lia|]. by intros (? & _).
  - pose proof (subseteq_size (bl_txn d') (bl_txn d' ∪ bitmap) ltac:(set_solver)). lia.
Qed.

(** An inode without blocks. *)
Lemma empty_file d i' : inode_ok i' -> i_dev i' = ROOTDEV -> (forall k, 0 <= k <= NDIRECT -> i_addr i' k = 0) -> file_ok sb d i'.
Proof.
  intros Hok Hdev Hz. assert (forall k, is_slot k -> slot d i' k = 0) as Hs.
  { intros k Hk. unfold is_slot in Hk. unfold slot, bmap_at. destruct (k =? -1) eqn:E; [apply Hz; klia|]. destruct (k <? NDIRECT) eqn:E'; [apply Hz; klia|].
    by rewrite (Hz NDIRECT) by klia. }
  split; [done|done|..]; intros k; [intros Hk; by rewrite Hs|intros k' Hk Hk' _; by rewrite Hs].
Qed.

Definition emptied i : inode := wrote_inode i 0 (replicate (Z.to_nat (NDIRECT + 1)) 0).
Lemma emptied_ok d i : i_dev i = ROOTDEV -> file_ok sb d (emptied i).
Proof.
  intros Hd. apply empty_file; [|done|].
  - unfold inode_ok, emptied, wrote_inode. cbn [i_addrs]. by rewrite length_replicate.
  - intros k Hk. unfold i_addr, emptied, wrote_inode. cbn [i_addrs]. apply lookup_total_replicate_2. klia.
Qed.
Lemma cleared_emptied i : inode_ok i -> set_isize 0 (cleared (NDIRECT + 1) i) = emptied i.
Proof.
  intros Hok. unfold set_isize, cleared, emptied, wrote_inode. cbn -[replicate drop]. unfold inode_ok in Hok. by rewrite drop_ge, app_nil_r by lia.
Qed.

Lemma itrunc_wp d i : let B := IBLOCK (i_inum i) sb in
  file_ok sb d i -> fs_ok sb d 0 -> (size (bl_txn d ∪ bitmap) + size (bl_held d) + 1 < NBUF)%nat ->
  0 <= i_inum i -> good_block sb d B -> (forall k, is_slot k -> slot d i k <> B) ->
  wp (itrunc ip) (fput s ip d i) (fun _ s' => exists d', s' = fput s ip d' (emptied i) /\ truncated d i d' (emptied i)).
Proof.
  intros B Hf Hfs Hroom Hnum HB Hns. pose proof (freeing_fs d 1 Hfs Hroom) as Hfr. pose proof (fk_inode _ _ _ Hf) as Hok.
  assert (~ in_file d i B) as HnB by (intros (_ & k & Hk & E); by apply (Hns k)).
  unfold itrunc. apply wp_assoc. eapply wp_mono; [by apply free_all|]. intros ? ? (d1 & -> & Hd1).
  apply wp_bind, modify_fput. rewrite cleared_emptied by done.
  pose proof (fs_freed d d1 i 1 Hf Hfs Hfr Hd1) as Hfs1. pose proof (good_freed d d1 i B Hd1 HnB HB) as HB1.
  assert (inode_at ip (fput s ip d1 (emptied i)) = emptied i) as Hat by by apply inode_at_fput.
  pose proof (iupdate_wp (fput s ip d1 (emptied i)) ip) as Hup. cbv zeta in Hup. rewrite Hat in Hup.
  change (f_sb (fput s ip d1 (emptied i))) with (f_sb s) in Hup. change (f_blk (fput s ip d1 (emptied i))) with d1 in Hup. rewrite Hsb in Hup.
  eapply wp_mono; [apply Hup|].
  - split; [|exact Hnum]. change (f_sb (fput s ip d1 (emptied i))) with (f_sb s). rewrite Hsb. by eapply (good_can_read sb d1).
  - apply (fk_dev _ _ _ Hf).
  - apply (emptied_ok d1 i (fk_dev _ _ _ Hf)).
  - apply Hfs1.
  - pose proof (fw_room _ _ _ Hfs1). klia.
  - intros ? ? (d2 & -> & Hp). exists d2. split; [done|]. pose proof Hp as (Hs & Hv & Hh & _).
    assert (forall b, 0 <= b < sb_size sb -> block_used d2 sb b = block_used d1 sb b) as Hu by (intros b Hb; by apply (upd_used sb d1 d2 B _ b HB1 Hp)).
    split; [done|..].
    + intros b Hb Hin. rewrite Hu by done. by apply Hd1.
    + intros b Hb Hin. rewrite Hu by done. by apply Hd1.
    + cbv zeta. fold B. rewrite Hv, decide_True by done. f_equal. apply (fd_view _ _ _ Hd1). by eapply good_not_bitmap.
    + intros b Hb Hne. rewrite Hv, decide_False by done. by apply Hd1.
    + apply emptied_ok, (fk_dev _ _ _ Hf).
    + by eapply (upd_fs sb d1 d2 B).
    + rewrite Hh. apply Hd1.
    + eapply same_trans; [apply Hd1|done].
    + destruct Hp as (_ & _ & _ & Ht & _). fold B. rewrite Ht. set_solver.
Qed.
End on_file.
End trunc.
