(* ===== verification/FsDir.v ===== *)
(** * Directories as maps: [dirlink] and [dirlookup]

    [dir_find] is the map from names to inode numbers that a directory stands
    for.  [dirlink] inserts into it, and leaves the directory as it was when it
    fails. *)
From S2P Require Import Prelude Params Sleeplock CString Interfaces Fs FsBlocks FsInode FsData FsWrite.

(** ** Names: equal as [strncmp] over DIRSIZ bytes sees them *)

Lemma str_eq_sym n p q : str_eq_n n p q -> str_eq_n n q p.
Proof.
  intros He i Hi Hpre. symmetry. apply He; [done|]. intros j Hj. revert Hpre.
  induction (lt_wf j) as [j _ IH]. intros Hpre. rewrite (He j); [by apply Hpre|lia|]. intros j' Hj'. apply IH; [done|lia|done].
Qed.
Lemma str_eq_trans n p q r : str_eq_n n p q -> str_eq_n n q r -> str_eq_n n p r.
Proof.
  intros H1 H2 i Hi Hpre. rewrite (H1 i Hi Hpre). apply H2; [done|]. intros j Hj. rewrite <- (H1 j); [by apply Hpre|lia|]. intros j' Hj'. apply Hpre. lia.
Qed.

Definition same_name (a b : bytes) : bool := namecmp a b =? 0.
Lemma same_name_spec a b : same_name a b = true <-> str_eq_n (Z.to_nat DIRSIZ) (str_at a) (str_at b).
Proof. unfold same_name, namecmp. rewrite Z.eqb_eq. apply strncmp_zero. Qed.
Lemma same_name_refl a : same_name a a = true.
Proof. apply same_name_spec. by intros i _ _. Qed.

(** The entry that [dirlink] writes. *)
Lemma mk_dirent_inum inum name : 0 <= inum < 2^16 -> de_inum (mk_dirent inum name) = inum.
Proof.
  intros Hi. unfold de_inum, mk_dirent, get_u16, slice. change (Z.to_nat 0) with 0%nat. rewrite drop_0, take_app_length' by by rewrite length_to_le. rewrite of_to_le. by apply Z.mod_small.
Qed.
Lemma mk_dirent_name inum name name' : same_name name' (de_name (mk_dirent inum name)) = same_name name' name.
Proof.
  assert (same_name name (de_name (mk_dirent inum name)) = true) as Hs by (unfold same_name, namecmp; apply Z.eqb_eq, strncpy_strncmp).
  apply eq_iff_eq_true. rewrite !same_name_spec in *. split; intros He; eapply str_eq_trans; eauto using str_eq_sym.
Qed.
Lemma mk_dirent_bytes inum name : Forall is_byte name -> Forall is_byte (mk_dirent inum name).
Proof.
  intros Hn. apply Forall_app. split; [apply to_le_bytes|]. apply strncpy_bytes. intros k. unfold str_at.
  destruct (name !! k) eqn:E; cbn; [|unfold is_byte; lia]. rewrite Forall_lookup in Hn. by eapply Hn.
Qed.
Lemma length_mk_dirent inum name : length (mk_dirent inum name) = Z.to_nat DIRENT_SIZE.
Proof. unfold mk_dirent. rewrite length_app, length_strncpy. done. Qed.

(** ** Entries as a list *)

Definition entry_is (name e : bytes) : bool := negb (de_inum e =? 0) && same_name name (de_name e).
Definition find_entry (name : bytes) (l : list bytes) : option Z := de_inum <$> find (entry_is name) l.

Lemma find_all_false {A} (f : A -> bool) l : (forall x, x ∈ l -> f x = false) -> find f l = None.
Proof. induction l as [|x l IH]; intros Hl; [done|]. cbn. rewrite (Hl x) by by left. apply IH. intros y Hy. apply Hl. by right. Qed.
Lemma find_app {A} (f : A -> bool) l l' : find f (l ++ l') = match find f l with Some x => Some x | None => find f l' end.
Proof. induction l as [|x l IH]; [done|]. cbn. by destruct (f x). Qed.
Lemma find_insert {A} (f : A -> bool) l k x e : l !! k = Some x -> f x = false -> f e = false -> find f (<[k := e]> l) = find f l.
Proof.
  revert k. induction l as [|y l IH]; intros [|k] Hk Hx He; [done|done|..]; cbn in *.
  - injection Hk as ->. by rewrite Hx, He.
  - destruct (f y); [done|]. by apply IH.
Qed.
Lemma find_at {A} (f : A -> bool) l k x : l !! k = Some x -> f x = true -> (forall k' y, (k' < k)%nat -> l !! k' = Some y -> f y = false) -> find f l = Some x.
Proof.
  revert k. induction l as [|y l IH]; intros [|k] Hk Hx Hpre; try done; cbn [find].
  - injection Hk as ->. by rewrite Hx.
  - rewrite (Hpre 0%nat y ltac:(lia) eq_refl). apply (IH k); try done. intros k' z Hk'. apply (Hpre (S k') z). lia.
Qed.
Lemma find_inserted {A} (f : A -> bool) l k e : (k < length l)%nat -> (forall x, x ∈ l -> f x = false) -> f e = true -> find f (<[k := e]> l) = Some e.
Proof.
  revert k. induction l as [|y l IH]; intros [|k] Hk Hl He; cbn in *; [lia|lia|by rewrite He|].
  rewrite (Hl y) by by left. apply IH; [lia| |done]. intros x Hx. apply Hl. by right.
Qed.

Section dir.
Context {D U : Type} `{BlockLaws D} `{UserMem U}.
Context (sb : superblock).
Implicit Types (d : D) (s : @fstate D U) (i : inode).

Definition count i : Z := Z.of_nat (dirents (i_size i)).
Definition entries d i : list bytes := dirent_at d i <$> seqZ 0 (count i).
Definition dir_find d i (name : bytes) : option Z := find_entry name (entries d i).

(** A directory without holes. *)
Record is_dir d i : Prop := {
  id_type : i_type i = T_DIR;
  id_size : 0 <= i_size i <= MAXFILE * BSIZE;
  id_mult : i_size i `mod` DIRENT_SIZE = 0;
  id_full : forall k, 0 <= k < i_size i -> slot d i (k / BSIZE) <> 0 }.

Lemma count_size d i : is_dir d i -> count i * DIRENT_SIZE = i_size i.
Proof.
  intros [_ Hs Hm _]. unfold count, dirents. pose proof (Z_div_mod_eq_full (i_size i) DIRENT_SIZE) as Heq. rewrite Hm in Heq.
  assert (0 <= i_size i / DIRENT_SIZE) by (apply Z.div_pos; klia). set (q := i_size i / DIRENT_SIZE) in *.
  assert (i_size i + DIRENT_SIZE - 1 = q * DIRENT_SIZE + (DIRENT_SIZE - 1)) as -> by lia.
  rewrite Z.div_add_l, (Z.div_small (DIRENT_SIZE - 1)) by klia. rewrite Z2Nat.id by lia. lia.
Qed.

Lemma entries_lookup d i k : 0 <= k < count i -> entries d i !! Z.to_nat k = Some (dirent_at d i k).
Proof. intros Hk. unfold entries. rewrite list_lookup_fmap, (lookup_seqZ_lt 0) by lia. cbn. do 2 f_equal. lia. Qed.
Lemma length_entries d i : length (entries d i) = Z.to_nat (count i).
Proof. unfold entries. by rewrite length_fmap, length_seqZ. Qed.
Lemma entries_elem d i e : e ∈ entries d i -> exists k, 0 <= k < count i /\ e = dirent_at d i k.
Proof. intros (k & -> & Hk)%list_elem_of_fmap. apply elem_of_seqZ in Hk. exists k. split; [lia|done]. Qed.
Lemma entries_ro d d' i : ro_post d d' -> entries d' i = entries d i.
Proof. intros Hro. unfold entries. apply list_fmap_ext. intros ? k _. by apply ro_dirent. Qed.

Section on_dir.
Context (s : @fstate D U) (dp : nat) (Hsb : f_sb s = sb) (Hdp : (dp < length (f_itable s))%nat).

Lemma dir_is_ok d i c : file_ok sb d i -> fs_ok sb d c -> is_dir d i -> dir_ok d i.
Proof.
  intros Hf Hfs [Ht Hs Hm Hfull]. split; [done|apply Hf|klia|done|apply Hfs|].
  intros k Hk. eapply (file_mapped sb s dp Hdp [] c); [done|done|lia|by apply Hfull].
Qed.

(** Bytes outside the write keep their values. *)
Lemma wrote_old d i bs off r d' i' x n : is_dir d i -> wrote sb d i bs off r d' i' -> 0 <= x -> 0 <= n -> x + n <= i_size i ->
  (forall k, x <= k < x + n -> ~ (off <= k < off + r)) -> file_bytes d' i' x n = file_bytes d i x n.
Proof.
  intros [_ Hs _ Hfull] W Hx Hn Hle Hout. unfold file_bytes. apply list_fmap_ext. intros ? k Hk. apply list_elem_of_lookup_2, elem_of_seqZ in Hk.
  destruct (wo_bytes _ _ _ _ _ _ _ _ W) as [Hb _]. pose proof (Hfull k ltac:(lia)) as Hnz.
  rewrite Hb; [|lia|]. 
  - unfold written_byte. rewrite decide_False by (apply Hout; lia). by rewrite decide_False.
  - rewrite (wo_slots _ _ _ _ _ _ _ _ W); [done| |done]. pose proof (block_of k ltac:(lia)). unfold is_slot. lia.
Qed.

Lemma wrote_size d i bs off r d' i' : wrote sb d i bs off r d' i' -> i_size i' = Z.max (i_size i) (off + r).
Proof. intros W. by destruct (wo_inode _ _ _ _ _ _ _ _ W) as (addrs & ->). Qed.

Lemma wrote_is_dir d i bs off r d' i' : is_dir d i -> wrote sb d i bs off r d' i' -> 0 <= off <= i_size i -> off + r <= MAXFILE * BSIZE ->
  (off + r) `mod` DIRENT_SIZE = 0 -> is_dir d' i'.
Proof.
  intros [Ht Hs Hm Hfull] W Hoff Hmax Hmult. pose proof (wrote_size _ _ _ _ _ _ _ W) as Hsz. pose proof (wo_range _ _ _ _ _ _ _ _ W) as Hr. split.
  - by destruct (wo_inode _ _ _ _ _ _ _ _ W) as (addrs & ->).
  - lia.
  - rewrite Hsz. destruct (Z.max_dec (i_size i) (off + r)) as [-> | ->]; done.
  - intros k Hk. rewrite Hsz in Hk. destruct (decide (k < i_size i)).
    + rewrite (wo_slots _ _ _ _ _ _ _ _ W); [by apply Hfull; lia| |by apply Hfull; lia]. pose proof (block_of k ltac:(lia)). unfold is_slot. lia.
    + destruct (wo_bytes _ _ _ _ _ _ _ _ W) as [_ Hm']. apply Hm'. lia.
Qed.

(** One entry written at index k, or nothing. *)
Lemma wrote_entry d i e k d' i' : is_dir d i -> length e = Z.to_nat DIRENT_SIZE -> 0 <= k <= count i -> (k + 1) * DIRENT_SIZE <= MAXFILE * BSIZE ->
  wrote sb d i e (k * DIRENT_SIZE) DIRENT_SIZE d' i' ->
  entries d' i' = if decide (k < count i) then <[Z.to_nat k := e]> (entries d i) else entries d i ++ [e].
Proof.
  intros Hd He Hk Hmax W. pose proof (count_size _ _ Hd) as Hc. pose proof (wrote_size _ _ _ _ _ _ _ W) as Hsz.
  assert (is_dir d' i') as Hd' by (eapply wrote_is_dir; [done|done|klia|klia|replace (k * DIRENT_SIZE + DIRENT_SIZE) with ((k + 1) * DIRENT_SIZE) by lia; apply Z.mod_mul; klia]).
  pose proof (count_size _ _ Hd') as Hc'. assert (dirent_at d' i' k = e) as Hnew.
  { unfold dirent_at. rewrite (written_bytes sb s dp Hdp d i e (k * DIRENT_SIZE)); [by rewrite take_ge by lia|klia|rewrite He; klia|done]. }
  assert (forall j, 0 <= j < count i -> j <> k -> dirent_at d' i' j = dirent_at d i j) as Hold.
  { intros j Hj Hne. eapply wrote_old; [done|done|klia|klia|klia|]. intros x Hx. klia. }
  assert (count i' = Z.max (count i) (k + 1)) as Hcnt by klia.
  apply list_eq. intros j. destruct (decide (j < Z.to_nat (count i'))%nat) as [Hj|Hj].
  - rewrite <- (Nat2Z.id j), entries_lookup by lia. case_decide as Hlt.
    + destruct (decide (j = Z.to_nat k)) as [->|Hne]; [rewrite Nat2Z.id, list_lookup_insert_eq by (rewrite length_entries; lia); f_equal; rewrite Z2Nat.id by lia; done|].
      rewrite Nat2Z.id, list_lookup_insert_ne by done. rewrite <- (Nat2Z.id j) at 2. rewrite entries_lookup by lia. f_equal. apply Hold; lia.
    + destruct (decide (Z.of_nat j < count i)); [rewrite lookup_app_l by (rewrite length_entries; lia); rewrite entries_lookup by lia; f_equal; apply Hold; lia|].
      assert (Z.of_nat j = k) as -> by lia. rewrite lookup_app_r by (rewrite length_entries; lia). rewrite length_entries.
      replace (Z.to_nat k - Z.to_nat (count i))%nat with 0%nat by lia. cbn. by f_equal.
  - rewrite lookup_ge_None_2 by (rewrite length_entries; lia). symmetry. apply lookup_ge_None_2. case_decide; rewrite ?length_insert, ?length_app, length_entries; cbn; lia.
Qed.

Lemma wrote_nothing d i e k d' i' : is_dir d i -> 0 <= k <= count i -> wrote sb d i e (k * DIRENT_SIZE) 0 d' i' ->
  entries d' i' = entries d i /\ is_dir d' i'.
Proof.
  intros Hd Hk W. pose proof (count_size _ _ Hd) as Hc. pose proof (wrote_size _ _ _ _ _ _ _ W) as Hsz. rewrite Z.max_l in Hsz by klia. split.
  - unfold entries, count. rewrite Hsz. apply list_fmap_ext. intros ? j Hj. apply list_elem_of_lookup_2, elem_of_seqZ in Hj. fold (count i) in Hj.
    eapply wrote_old; [done|done|klia|klia|klia|]. lia.
  - eapply wrote_is_dir; [done|done|klia|destruct Hd; klia|]. rewrite Z.add_0_r. apply Z.mod_mul. klia.
Qed.

(** ** [dirlink] *)

(** The scan for a free entry. *)
Lemma free_scan d i c : file_ok sb d i -> fs_ok sb d c -> is_dir d i ->
  wp (for_from (dirents (i_size i)) 0 (fun k =>
        let! r := readi dp KernDst (k * DIRENT_SIZE) DIRENT_SIZE in
        if negb (r.1 =? DIRENT_SIZE) then panic "dirlink read"
        else if de_inum r.2 =? 0 then ret (Some (k * DIRENT_SIZE)) else ret None)) (fput s dp d i)
    (fun r s' => exists d', s' = fput s dp d' i /\ ro_post d d' /\
      exists k, 0 <= k <= count i /\ match r with Some off => off | None => count i * DIRENT_SIZE end = k * DIRENT_SIZE /\
        (k < count i -> de_inum (dirent_at d i k) = 0)).
Proof.
  intros Hf Hfs Hd. pose proof (dir_is_ok d i c Hf Hfs Hd) as Hok.
  apply (wp_for_from (fun k s' => exists d', s' = fput s dp d' i /\ ro_post d d')).
  - exists d. split; [done|]. apply ro_refl, Hfs.
  - intros k ? Hk (d1 & -> & Hro). apply wp_bind.
    pose proof (read_dirent (fput s dp d1 i) dp k) as Hrd. rewrite inode_at_fput in Hrd by done.
    eapply wp_mono; [apply Hrd; [by eapply ro_dir_ok|lia]|]. intros r ? (-> & d2 & -> & Hro2). cbn [fst snd].
    rewrite Z.eqb_refl. cbn [negb]. change (f_blk (fput s dp d1 i)) with d1 in *. rewrite (ro_dirent d d1) by done.
    destruct (Z.eqb_spec (de_inum (dirent_at d i k)) 0) as [Hz|Hz]; apply wp_ret; exists d2; (split; [done|]); [|by eapply ro_trans].
    split; [by eapply ro_trans|]. exists k. split; [unfold count; lia|done].
  - intros ? (d1 & -> & Hro). exists d1. split; [done|]. split; [done|]. exists (count i). split; [unfold count; lia|]. split; [done|]. lia.
Qed.

Lemma one_block e k : length e = Z.to_nat DIRENT_SIZE -> 0 <= k -> blocks_left e (k * DIRENT_SIZE) 0 = 1.
Proof.
  intros He Hk. unfold blocks_left. rewrite He, decide_True by klia. rewrite Z.add_0_r. rewrite Z2Nat.id by klia.
  pose proof (Z_div_mod_eq_full k 64) as E. pose proof (Z.mod_pos_bound k 64 ltac:(lia)).
  assert (k * DIRENT_SIZE / BSIZE = k / 64) as ->. { symmetry. apply Z.div_unique with (k `mod` 64 * 16); [left; klia|klia]. }
  assert ((k * DIRENT_SIZE + DIRENT_SIZE - 1) / BSIZE = k / 64) as ->; [|lia].
  symmetry. apply Z.div_unique with (k `mod` 64 * 16 + 15); [left; klia|klia].
Qed.

Lemma whole_entry k r : 0 <= k -> 0 <= r <= DIRENT_SIZE -> r = 0 \/ r = DIRENT_SIZE \/ (k * DIRENT_SIZE + r) `mod` BSIZE = 0 -> r = 0 \/ r = DIRENT_SIZE.
Proof.
  intros Hk Hr [?|[?|Hm]]; [by left|by right|]. pose proof (Z_div_mod_eq_full (k * DIRENT_SIZE + r) BSIZE) as E. rewrite Hm in E. klia.
Qed.

(** The directory after [dirlink] returned r. *)
Record linked d i (name : bytes) (inum r : Z) d' i' : Prop := {
  lk_dir : is_dir d' i';
  lk_file : file_ok sb d' i';
  lk_map : if decide (r = 0)
    then dir_find d' i' name = Some inum /\ forall name', same_name name' name = false -> dir_find d' i' name' = dir_find d i name'
    else r = -1 /\ (forall name', dir_find d' i' name' = dir_find d i name') /\ forall b, 0 <= b < sb_size sb -> block_used d' sb b = true;
  lk_frame : forall b, good_block sb d b -> (forall k, is_slot k -> slot d i k <> b) -> b <> IBLOCK (i_inum i) sb ->
    bl_view d' b = bl_view d b /\ block_used d' sb b = true;
  lk_wrote : exists d1 k, ro_post d d1 /\ 0 <= k <= count i /\ (k + 1) * DIRENT_SIZE <= MAXFILE * BSIZE /\
    wrote sb d1 i (mk_dirent inum name) (k * DIRENT_SIZE) (if decide (r = 0) then DIRENT_SIZE else 0) d' i' }.

(** The map after the write. *)
Lemma linked_map d i name inum k d' i' : is_dir d i -> dir_find d i name = None -> 0 < inum < 2^16 -> 0 <= k <= count i ->
  (k < count i -> de_inum (dirent_at d i k) = 0) -> (k + 1) * DIRENT_SIZE <= MAXFILE * BSIZE ->
  wrote sb d i (mk_dirent inum name) (k * DIRENT_SIZE) DIRENT_SIZE d' i' ->
  dir_find d' i' name = Some inum /\ forall name', same_name name' name = false -> dir_find d' i' name' = dir_find d i name'.
Proof.
  intros Hd Hnone Hinum Hk Hfree Hmax W. unfold dir_find in *. rewrite (wrote_entry d i _ k d' i' Hd (length_mk_dirent _ _) Hk Hmax W).
  assert (forall n', entry_is n' (mk_dirent inum name) = same_name n' name) as Hnew.
  { intros n'. unfold entry_is. rewrite mk_dirent_inum, mk_dirent_name by lia. by replace (inum =? 0) with false by lia. }
  assert (forall x, x ∈ entries d i -> entry_is name x = false) as Hno.
  { intros x Hx. unfold find_entry in Hnone. destruct (find (entry_is name) (entries d i)) eqn:E; [done|]. apply list_elem_of_In in Hx. by eapply List.find_none in E. }
  unfold find_entry. split.
  - replace (find (entry_is name) _) with (Some (mk_dirent inum name)); [cbn [fmap option_fmap option_map]; by rewrite mk_dirent_inum by lia|]. symmetry. case_decide.
    + apply find_inserted; [rewrite length_entries; lia|done|]. by rewrite Hnew, same_name_refl.
    + rewrite find_app, find_all_false by done. cbn. by rewrite Hnew, same_name_refl.
  - intros n' Hn'. f_equal. case_decide.
    + eapply find_insert; [apply entries_lookup; lia|unfold entry_is; rewrite Hfree by lia; done|by rewrite Hnew].
    + rewrite find_app. cbn. rewrite Hnew, Hn'. by destruct (find _ _).
Qed.

(** What [dirlookup] says of the map. *)
Lemma lookup_find d i name k : 0 <= k < count i -> entry_matches d i name k = true -> dir_find d i name <> None.
Proof.
  intros Hk Hm. unfold dir_find, find_entry. destruct (find (entry_is name) (entries d i)) eqn:E; [done|].
  eapply List.find_none in E; [|apply list_elem_of_In; eapply list_elem_of_lookup_2, (entries_lookup d i k Hk)]. unfold entry_matches in Hm. unfold entry_is, same_name in E. congruence.
Qed.
Lemma lookup_none d i name : (forall k, 0 <= k < count i -> entry_matches d i name k = false) -> dir_find d i name = None.
Proof. intros Hm. unfold dir_find, find_entry. rewrite find_all_false; [done|]. intros x (k & Hk & ->)%entries_elem. by apply Hm. Qed.

Lemma dirlink_new d i name inum c : let B := IBLOCK (i_inum i) sb in
  file_ok sb d i -> fs_ok sb d (c + 8) -> is_dir d i -> 0 <= i_inum i -> good_block sb d B -> (forall k, is_slot k -> slot d i k <> B) ->
  i_size i + DIRENT_SIZE <= MAXFILE * BSIZE -> Forall is_byte name -> 0 < inum < 2^16 -> dir_find d i name = None ->
  wp (let! i := gets (inode_at dp) in
      let! empty := for_from (dirents (i_size i)) 0 (fun k =>
        let! r := readi dp KernDst (k * DIRENT_SIZE) DIRENT_SIZE in
        if negb (r.1 =? DIRENT_SIZE) then panic "dirlink read"
        else if de_inum r.2 =? 0 then ret (Some (k * DIRENT_SIZE)) else ret None) in
      let! w := writei dp (KernSrc (mk_dirent inum name)) match empty with Some off => off | None => Z.of_nat (dirents (i_size i)) * DIRENT_SIZE end DIRENT_SIZE in
      if negb (w =? DIRENT_SIZE) then ret (-1) else ret 0) (fput s dp d i)
    (fun r s' => exists d' i', s' = fput s dp d' i' /\ linked d i name inum r d' i' /\ fs_ok sb d' c).
Proof.
  intros B Hf Hfs Hd Hnum HB Hns Hsize Hname Hinum Hnone. apply wp_bind, wp_gets. rewrite inode_at_fput by done.
  apply wp_bind. eapply wp_mono; [by eapply free_scan|]. intros r0 ? (d1 & -> & Hro & k & Hk & Eoff & Hfree). fold (count i). rewrite Eoff.
  pose proof (count_size _ _ Hd) as Hc. set (e := mk_dirent inum name). pose proof (length_mk_dirent inum name) as He. fold e in He.
  assert (is_dir d1 i) as Hd1 by (destruct Hd; split; try done; intros x Hx; rewrite (slot_ro d d1); auto).
  assert (Z.of_nat (length e) = DIRENT_SIZE) as HeZ by (rewrite He; klia).
  pose proof (writei_wp sb s dp Hsb Hdp d1 i e (k * DIRENT_SIZE) (mk_dirent_bytes _ _ Hname) ltac:(klia) ltac:(klia) c) as Hwr.
  rewrite HeZ in Hwr. apply wp_bind. eapply wp_mono.
  { apply Hwr.
    - by eapply file_ok_ro.
    - done.
    - by eapply good_ro.
    - intros x Hx. rewrite (slot_ro d d1) by done. by apply Hns.
    - klia.
    - rewrite one_block by (done || lia). eapply fs_ok_ro; [done|]. eapply fs_ok_le; [|exact Hfs]. lia. }
  intros w ? (d' & i' & -> & W & Hfs'). pose proof (wo_range _ _ _ _ _ _ _ _ W) as Hw. rewrite HeZ in Hw.
  assert (forall n', dir_find d1 i n' = dir_find d i n') as Hro_find by (intros n'; unfold dir_find; by rewrite (entries_ro d d1)).
  assert (forall b, good_block sb d b -> (forall k, is_slot k -> slot d i k <> b) -> b <> B -> bl_view d' b = bl_view d b /\ block_used d' sb b = true) as Hframe.
  { intros b Hb Hbs HbB. pose proof (good_ro _ _ _ _ Hro Hb) as (Hr & Hu & _ & _ & Hnb). pose proof Hro as (_ & Hv & _). rewrite <- Hv.
    apply (wo_frame _ _ _ _ _ _ _ _ W); try done. intros x Hx. rewrite (slot_ro d d1) by done. by apply Hbs. }
  pose proof (wo_whole _ _ _ _ _ _ _ _ W) as Hwhole. rewrite HeZ in Hwhole. destruct (whole_entry k w ltac:(lia) Hw Hwhole) as [-> | ->].
  - change (0 =? DIRENT_SIZE) with false. apply wp_ret. exists d', i'. split; [done|]. split; [|done].
    destruct (wrote_nothing d1 i e k d' i' Hd1 Hk W) as [He' Hd']. split; [done|apply W| |done|].
    + rewrite decide_False by done. split; [done|].
      split; [intros n'; rewrite <- Hro_find; unfold dir_find; by rewrite He'|]. apply (wo_short _ _ _ _ _ _ _ _ W). klia.
    + exists d1, k. rewrite decide_False by done. split_and!; (done || lia || klia).
  - rewrite Z.eqb_refl. apply wp_ret. exists d', i'. split; [done|]. split; [|done]. split; [|apply W| |done|exists d1, k; rewrite decide_True by done; split_and!; (done || lia || klia)].
    + eapply wrote_is_dir; [done|done|klia|klia|]. replace (k * DIRENT_SIZE + DIRENT_SIZE) with ((k + 1) * DIRENT_SIZE) by lia. apply Z.mod_mul. klia.
    + rewrite decide_True by done. destruct (linked_map d1 i name inum k d' i') as [Hf1 Hf2]; try done; [by rewrite Hro_find| |klia|].
      * intros Hlt. rewrite (ro_dirent d d1) by done. by apply Hfree.
      * split; [done|]. intros n' Hn'. rewrite Hf2 by done. apply Hro_find.
Qed.

(** Looking up a name and dropping what was found leaves the reference counts as they were. *)
Lemma drop_found s1 dev num ip s2 : itable_ok (f_itable s1) -> iget_post s1 dev num ip s2 ->
  wp (iput ip) s2 (fun _ s' => f_blk s' = f_blk s1 /\ forall k, i_ref (inode_at k s') = i_ref (inode_at k s1)).
Proof.
  intros Hit (f & Es2 & Hit2 & Hlt & Hdev & Hnum' & Hlock & Href & Hval).
  assert (0 <= i_ref (inode_at ip s1)) as Hpos by (eapply (it_ref _ Hit), inode_lookup; done).
  eapply wp_mono; [apply iput_drop; case_decide; [right; by left|left; lia]|]. intros ? ? ->. rewrite Es2 in Href |- *. split; [done|]. intros k.
  set (s3 := set_itable (alter f ip (f_itable s1)) s1) in *. cbn [f_itable set_itable]. fold s3.
  assert ((ip < length (f_itable s3))%nat) as Hlt3 by (unfold s3; cbn; by rewrite length_alter).
  pose proof (inode_at_alter s3 ip k (fun i => set_iref (i_ref i - 1) i) Hlt3) as E. rewrite E. clear E. destruct (decide (k = ip)) as [->|Hne].
  - cbn [i_ref set_iref]. lia.
  - unfold s3. pose proof (inode_at_alter s1 ip k f Hlt) as E. rewrite E, decide_False by done. done.
Qed.

Lemma dirlink_wp d i name inum c : let B := IBLOCK (i_inum i) sb in let s0 := fput s dp d i in
  file_ok sb d i -> fs_ok sb d (c + 8) -> is_dir d i -> 0 <= i_inum i -> good_block sb d B -> (forall k, is_slot k -> slot d i k <> B) ->
  i_size i + DIRENT_SIZE <= MAXFILE * BSIZE -> Forall is_byte name -> 0 < inum < 2^16 ->
  itable_ok (f_itable s0) -> (exists k j, f_itable s0 !! k = Some j /\ i_ref j = 0) ->
  wp (dirlink dp name inum) s0 (fun r s' =>
    match dir_find d i name with
    | Some _ => r = -1 /\ ro_post d (f_blk s') /\ forall k, i_ref (inode_at k s') = i_ref (inode_at k s0)
    | None => exists d' i', s' = fput s dp d' i' /\ linked d i name inum r d' i' /\ fs_ok sb d' c
    end).
Proof.
  intros B s0 Hf Hfs Hd Hnum HB Hns Hsize Hname Hinum Hit Hslot. unfold dirlink. apply wp_bind.
  pose proof (dirlookup_wp s0 dp name) as Hl. cbv zeta in Hl. assert (inode_at dp s0 = i) as Hat by by apply inode_at_fput. rewrite Hat in Hl. change (f_blk s0) with d in Hl.
  eapply wp_mono; [apply Hl; [by eapply dir_is_ok|done|done]|]. fold (count i).
  intros [[ip off]|] s1 (d1 & Hro & Hr).
  - destruct Hr as (k & Hk & _ & Hm & _ & Hget). pose proof (lookup_find d i name k Hk Hm) as Hfnd.
    destruct (dir_find d i name) as [x|]; [|done]. apply wp_bind. eapply wp_mono; [exact (drop_found (set_blk d1 s0) _ _ ip s1 Hit Hget)|]. intros ? s2 [Eb Er]. apply wp_ret.
    split; [done|]. rewrite Eb. split; [done|]. done.
  - destruct Hr as [-> Hnone]. rewrite (lookup_none d i name Hnone). change (set_blk d1 s0) with (fput s dp d1 i).
    eapply wp_mono; [apply (dirlink_new d1 i name inum c)|]; try done.
    + by eapply file_ok_ro.
    + by eapply fs_ok_ro.
    + destruct Hd. split; try done. intros x Hx. rewrite (slot_ro d d1); auto.
    + by eapply good_ro.
    + intros x Hx. rewrite (slot_ro d d1) by done. by apply Hns.
    + unfold dir_find. rewrite (entries_ro d d1) by done. by apply lookup_none.
    + intros r s2 (d' & i' & -> & [L1 L2 L3 L4 L5] & Hfs'). exists d', i'. split; [done|]. split; [|done]. split; [done|done| | |].
      * assert (forall n', dir_find d1 i n' = dir_find d i n') as E by (intros n'; unfold dir_find; by rewrite (entries_ro d d1)).
        case_decide; [destruct L3 as [L3 L3']; split; [done|]; intros n' Hn'; by rewrite L3', E|].
        destruct L3 as (-> & L3 & ?). split; [done|]. split; [|done]. intros n'. by rewrite L3, E.
      * intros b Hb Hbs HbB. pose proof Hro as (_ & Hv & _). rewrite <- Hv. apply L4; [by eapply good_ro| |done].
        intros k Hk. rewrite (slot_ro d d1) by done. by apply Hbs.
      * destruct L5 as (d2 & k & Hro2 & Hk). exists d2, k. split; [by eapply ro_trans|done].
Qed.
End on_dir.
End dir.
