(* ===== verification/FsPath.v ===== *)
(** * Path lookup: [namex]

    [walk] follows the elements of a path through the maps that the
    directories on disk stand for.  [namex] computes it, returns a reference to
    the inode it reaches and leaves every other reference, lock and block as it
    was. *)
From S2P Require Import Prelude Params Sleeplock CString Interfaces Fs FsBlocks FsInode FsData FsWrite FsDir.

(** ** Names *)

Lemma named_same e name : 0 ∉ e -> named e name -> same_name name e = true.
Proof.
  intros H0 Hn. apply same_name_spec. intros k Hk Hpre. destruct (decide (k <= length e)%nat) as [Hle|Hgt]; [by apply Hn|].
  exfalso. apply (Hpre (length e) ltac:(lia)). rewrite (Hn (length e)) by lia. unfold str_at. by rewrite lookup_ge_None_2.
Qed.
Lemma same_name_eq a b x : same_name a b = true -> same_name a x = same_name b x.
Proof. intros Hab. apply eq_iff_eq_true. rewrite !same_name_spec in *. split; intros He; eapply str_eq_trans; eauto using str_eq_sym. Qed.

(** ** Path elements *)

Lemma split_last x (cur e : bytes) : e ∈ (if cur is [] then [] else [cur]) -> x ∈ e -> x ∈ cur.
Proof. destruct cur as [|c cur]; intros He Hx; [by apply elem_of_nil in He|]. apply list_elem_of_singleton in He. by subst. Qed.
Lemma split_sub x path : forall cur e, e ∈ split_at_slash cur path -> x ∈ e -> x ∈ cur \/ x ∈ path.
Proof.
  induction path as [|c path IH]; intros cur e He Hx; cbn [split_at_slash] in He.
  - left. by apply (split_last x cur e).
  - destruct (c =? SLASH).
    + apply elem_of_app in He as [He|He]; [left; by apply (split_last x cur e)|]. destruct (IH _ _ He Hx); set_solver.
    + destruct (IH _ _ He Hx); set_solver.
Qed.
Lemma skip_slashes_sub x path : x ∈ skip_slashes path -> x ∈ path.
Proof. induction path as [|c path IH]; [done|]. cbn. destruct (c =? SLASH); set_solver. Qed.
Lemma elem_of_path_sub x path : x ∈ (elem_of_path path).2 -> x ∈ path.
Proof. induction path as [|c path IH]; [done|]. cbn. destruct (c =? SLASH); [done|]. destruct (elem_of_path path). cbn in *. set_solver. Qed.

(** One [skipelem]: the element it takes, and the rest. *)
Lemma skipelem_step path name : length name = Z.to_nat DIRSIZ -> 0 ∉ path ->
  match skipelem path name with
  | None => path_elems path = []
  | Some (path', name') => exists e, path_elems path = e :: path_elems path' /\ same_name name' e = true /\ length name' = Z.to_nat DIRSIZ /\
      (length path' < length path)%nat /\ 0 ∉ path' /\ (path' = [] <-> path_elems path' = [])
  end.
Proof.
  intros Hn H0. pose proof (skipelem_elems path name Hn) as Hs. destruct (skipelem path name) as [[path' name']|] eqn:E; [|done].
  destruct Hs as (e & _ & Hes & Hnm & Hl & Hlt). exists e. split; [done|]. split; [apply named_same; [|done]; intros He; destruct (split_sub 0 path [] e); [unfold path_elems in Hes; rewrite Hes; by left|done|by apply elem_of_nil in H|done]|].
  split; [done|]. split; [done|]. unfold skipelem in E. destruct (skip_slashes path) as [|c rest] eqn:Es; [done|]. destruct (elem_of_path (c :: rest)) as [e' r] eqn:Er. injection E as <- _. split.
  - intros Hin. apply H0. apply skip_slashes_sub. rewrite Es. apply elem_of_path_sub. rewrite Er. by apply skip_slashes_sub.
  - split; [by intros ->|]. intros Hp. destruct (skip_slashes r) as [|c' rest'] eqn:Esr; [done|]. apply skip_slashes_head in Esr. unfold path_elems in Hp. rewrite split_elem in Hp; [done|]. right. eauto.
Qed.

Section path.
Context {D U : Type} `{BlockLaws D} `{UserMem U}.
Context (sb : superblock).
Implicit Types (d : D) (s : @fstate D U) (i : inode).

(** Inode n as it is on disk. *)
Definition idisk d (n : Z) : inode :=
  load_dinode (bl_view d (IBLOCK n sb)) (dinode_off n) (mkInode ROOTDEV n 0 initsleeplock false 0 0 0 0 0 []).

Fixpoint walk d (n : Z) (es : list bytes) : option Z :=
  match es with
  | [] => Some n
  | e :: es =>
      if i_type (idisk d n) =? T_DIR then
        match dir_find d (idisk d n) e with Some m => walk d m es | None => None end
      else None
  end.

(** The inodes in use: readable, linked, and closed under the entries of
    directories. *)
Record tree_ok d (live : Z -> Prop) : Prop := {
  tk_root : live ROOTINO;
  tk_block : forall n, live n -> 0 <= n /\ can_read d (IBLOCK n sb);
  tk_used : forall n, live n -> i_type (idisk d n) <> 0 /\ i_nlink (idisk d n) <> 0;
  tk_dir : forall n, live n -> i_type (idisk d n) = T_DIR -> dir_ok d (idisk d n);
  tk_closed : forall n name m, live n -> i_type (idisk d n) = T_DIR -> dir_find d (idisk d n) name = Some m -> live m }.

Lemma idisk_ro d d' n : ro_post d d' -> idisk d' n = idisk d n.
Proof. intros (_ & Hv & _). unfold idisk. by rewrite Hv. Qed.
Lemma dir_find_ro d d' i name : ro_post d d' -> dir_find d' i name = dir_find d i name.
Proof. intros Hro. unfold dir_find. by rewrite (entries_ro d d'). Qed.
Lemma walk_ro d d' es : ro_post d d' -> forall n, walk d' n es = walk d n es.
Proof.
  intros Hro. induction es as [|e es IH]; intros n; [done|]. cbn [walk]. rewrite (idisk_ro d d') by done. rewrite (dir_find_ro d d') by done.
  destruct (_ =? _); [|done]. destruct (dir_find _ _ _); [by apply IH|done].
Qed.
Lemma tree_ok_ro d d' live : ro_post d d' -> tree_ok d live -> tree_ok d' live.
Proof.
  intros Hro [T1 T2 T3 T4 T5]. split; [done|..].
  - intros n Hn. destruct (T2 n Hn) as [? ?]. split; [done|]. by eapply can_read_ro.
  - intros n Hn. rewrite (idisk_ro d d') by done. by apply T3.
  - intros n Hn. rewrite (idisk_ro d d') by done. intros Ht. eapply ro_dir_ok; [done|by apply T4].
  - intros n name m Hn. rewrite (idisk_ro d d'), (dir_find_ro d d') by done. by apply T5.
Qed.

(** What a directory means depends on the inode's fields on disk only. *)
Lemma file_byte_addrs d i j x : i_addrs i = i_addrs j -> file_byte d i x = file_byte d j x.
Proof. intros E. unfold file_byte, bmap_at, i_addr. by rewrite E. Qed.
Lemma dirent_same d i j k : same_dinode i j -> dirent_at d i k = dirent_at d j k.
Proof. intros (_ & _ & _ & _ & _ & E). unfold dirent_at, file_bytes. apply list_fmap_ext. intros ? x _. by apply file_byte_addrs. Qed.
Lemma dir_find_same d i j name : same_dinode i j -> dir_find d i name = dir_find d j name.
Proof.
  intros Hs. unfold dir_find, entries, count. assert (i_size i = i_size j) as -> by apply Hs. f_equal. apply list_fmap_ext. intros ? k _. by apply dirent_same.
Qed.
Lemma dir_ok_same d i j : same_dinode i j -> i_dev i = ROOTDEV -> dir_ok d j -> dir_ok d i.
Proof.
  intros (Et & _ & _ & _ & Es & Ea) Hd [T1 T2 T3 T4 T5 T6]. split; try congruence. rewrite Es. intros k Hk. specialize (T6 k Hk).
  unfold mapped, bmap_at, i_addr in *. by rewrite Ea.
Qed.

Lemma find_name d i a b : same_name a b = true -> dir_find d i a = dir_find d i b.
Proof.
  intros Hab. unfold dir_find, find_entry. f_equal. induction (entries d i) as [|e l IH]; [done|]. cbn [find]. rewrite IH.
  replace (entry_is a e) with (entry_is b e); [done|]. unfold entry_is. by rewrite (same_name_eq a b).
Qed.
Lemma find_first d i name k : 0 <= k < count i -> entry_matches d i name k = true -> (forall j, 0 <= j < k -> entry_matches d i name j = false) ->
  dir_find d i name = Some (de_inum (dirent_at d i k)).
Proof.
  intros Hk Hm Hpre. unfold dir_find, find_entry. rewrite (find_at _ _ (Z.to_nat k) (dirent_at d i k)); [done|by apply entries_lookup|done|].
  intros k' y Hk' Hy. assert (0 <= Z.of_nat k' < k) as Hr by lia. rewrite <- (Nat2Z.id k') in Hy. rewrite entries_lookup in Hy by lia. injection Hy as <-. by apply Hpre.
Qed.

(** ** The inode table while a path is followed *)

Section walking.
Context (s0 : @fstate D U) (live : Z -> Prop).
Implicit Types (e : nat -> Z) (lk : gset nat).

Definition lock_ok lk (k : nat) (l : sleeplock) : Prop := if decide (k ∈ lk) then l = mkSleeplock true (f_pid s0) else sl_locked l = false.
Definition in_table (k : nat) : Prop := (k < Z.to_nat NINODE)%nat.

(** s differs from s0 by e k more references to entry k and the lock lk; entries
    in use agree with the disk. *)
Record kept s e lk : Prop := {
  kp_blk : ro_post (f_blk s0) (f_blk s);
  kp_rest : f_sb s = f_sb s0 /\ f_pid s = f_pid s0 /\ f_cwd s = f_cwd s0 /\ f_user s = f_user s0;
  kp_it : itable_ok (f_itable s);
  kp_ref : forall k, in_table k -> i_ref (inode_at k s) = i_ref (inode_at k s0) + e k;
  kp_id : forall k, in_table k -> 0 < i_ref (inode_at k s0) -> i_inum (inode_at k s) = i_inum (inode_at k s0);
  kp_dev : forall k, in_table k -> 0 < i_ref (inode_at k s) -> i_dev (inode_at k s) = ROOTDEV;
  kp_disk : forall k, in_table k -> 0 < i_ref (inode_at k s) -> i_valid (inode_at k s) = true -> same_dinode (inode_at k s) (idisk (f_blk s0) (i_inum (inode_at k s)));
  kp_lock : forall k, in_table k -> lock_ok lk k (i_lock (inode_at k s)) }.

Lemma kept_len s e lk k : kept s e lk -> in_table k <-> (k < length (f_itable s))%nat.
Proof. intros Hk. unfold in_table. by rewrite (it_len _ (kp_it _ _ _ Hk)). Qed.

Lemma kept_blk s e lk d' : kept s e lk -> ro_post (f_blk s) d' -> kept (set_blk d' s) e lk.
Proof. intros [K1 K2 K3 K4 K5 K6 K7 K8] Hro. split; try done. by eapply ro_trans. Qed.

(** Changing one entry. *)
Lemma kept_alter s e lk k0 f e' lk' : let i' := f (inode_at k0 s) in
  kept s e lk -> in_table k0 -> itable_ok (alter f k0 (f_itable s)) ->
  (forall k, k <> k0 -> e' k = e k) -> i_ref i' = i_ref (inode_at k0 s0) + e' k0 ->
  (0 < i_ref (inode_at k0 s0) -> i_inum i' = i_inum (inode_at k0 s)) -> (0 < i_ref i' -> i_dev i' = ROOTDEV) ->
  (0 < i_ref i' -> i_valid i' = true -> same_dinode i' (idisk (f_blk s0) (i_inum i'))) ->
  (forall k, k <> k0 -> k ∈ lk <-> k ∈ lk') -> lock_ok lk' k0 (i_lock i') ->
  kept (set_itable (alter f k0 (f_itable s)) s) e' lk'.
Proof.
  intros i' Hk Hk0 Hit He Hr Hi Hd Hs Hlk Hl. pose proof (proj1 (kept_len _ _ _ k0 Hk) Hk0) as Hlt. pose proof (inode_at_alter s k0) as Hat.
  destruct Hk as [K1 K2 K3 K4 K5 K6 K7 K8]. split; try done; intros k Hin; rewrite (Hat k f Hlt); fold i'; case_decide as E; try subst k; auto.
  - rewrite He by done. by apply K4.
  - intros Hpos. rewrite Hi by done. by apply K5.
  - unfold lock_ok in *. specialize (K8 k Hin). destruct (decide (k ∈ lk)) as [E1|E1], (decide (k ∈ lk')) as [E2|E2]; try done; apply (Hlk k E) in E1 || apply (Hlk k E) in E2; done.
Qed.

(** ** [ilock] *)

Definition on_disk s (ip : nat) (n : Z) : Prop := in_table ip /\ 1 <= i_ref (inode_at ip s) /\ i_inum (inode_at ip s) = n.

Lemma ilock_kept s e lk ip n : kept s e lk -> ip ∉ lk -> tree_ok (f_blk s0) live -> f_sb s0 = sb -> live n -> on_disk s ip n ->
  wp (ilock (Some ip)) s (fun _ s' => kept s' e ({[ip]} ∪ lk) /\ on_disk s' ip n /\ same_dinode (inode_at ip s') (idisk (f_blk s0) n) /\ i_valid (inode_at ip s') = true /\
    forall k, k <> ip -> inode_at k s' = inode_at k s).
Proof.
  intros Hk Hni Ht Hsb Hn (Hin & Hr & Hi). pose proof (proj1 (kept_len _ _ _ ip Hk) Hin) as Hlt. pose proof (kp_lock _ _ _ Hk ip Hin) as Hl. unfold lock_ok in Hl. rewrite decide_False in Hl by done.
  pose proof (kp_dev _ _ _ Hk ip Hin ltac:(lia)) as Hdev. destruct (kp_rest _ _ _ Hk) as (Esb & Epid & _). pose proof (inode_lookup s ip Hlt) as Hlk. pose proof (kp_it _ _ _ Hk) as Hit.
  assert (forall k j, k <> ip -> f_itable s !! k = Some j -> 0 < i_ref j -> ~ (i_dev j = i_dev (inode_at ip s) /\ i_inum j = i_inum (inode_at ip s))) as Huniq.
  { intros k j Hne Hj Hrj [E1 E2]. apply Hne. apply (it_uniq _ Hit k ip j (inode_at ip s)); (done || lia). }
  destruct (i_valid (inode_at ip s)) eqn:Hv.
  - eapply wp_mono; [by apply ilock_valid|]. intros [] ? ->. pose proof (kp_disk _ _ _ Hk ip Hin ltac:(lia) Hv) as Hs. rewrite Hi in Hs. split; [|].
    + apply (kept_alter s e lk); try done; cbn [i_ref i_dev i_inum i_valid i_lock set_ilock].
      * apply (itable_alter _ _ _ (inode_at ip s)); [done|done|cbn; lia|exact (it_addrs _ Hit ip _ Hlk)|intros _; exact Huniq].
      * by apply (kp_ref _ _ _ Hk).
      * intros _ _. by rewrite Hi.
      * set_solver.
      * unfold lock_ok. rewrite decide_True by set_solver. by rewrite Epid.
    + rewrite inode_at_alter by done. split; [unfold on_disk; rewrite inode_at_alter by done|]; rewrite decide_True by done; [done|]. split; [done|]. split; [done|].
      intros k Hne. by rewrite inode_at_alter, decide_False by done.
  - set (x := bl_view (f_blk s) (IBLOCK (i_inum (inode_at ip s)) (f_sb s))). pose proof (kp_blk _ _ _ Hk) as Hro. destruct (tk_block _ _ Ht n Hn) as [Hn0 Hcr].
    assert (x = bl_view (f_blk s0) (IBLOCK n sb)) as Ex by (unfold x; rewrite Hi, Esb, Hsb; apply Hro). destruct (tk_used _ _ Ht n Hn) as [Hty _].
    eapply wp_mono; [apply ilock_load; try done; [split; rewrite Hi; [rewrite Esb, Hsb; by eapply can_read_ro|done]|fold x; rewrite Ex, Hi; exact Hty]|]. fold x.
    intros [] ? (d' & -> & Hro'). set (f := locked_inode (f_pid s) x). assert (same_dinode (f (inode_at ip s)) (idisk (f_blk s0) n)) as Hs.
    { unfold f, locked_inode, idisk. cbn. rewrite Ex, Hi. by repeat split. }
    split; [|split].
    + apply (kept_blk _ _ _ d'); [|done]. apply (kept_alter s e lk); try done.
      * apply (itable_alter _ _ _ (inode_at ip s)); [done|done|cbn; lia| |intros _; exact Huniq]. unfold inode_ok, f. cbn. by rewrite length_fmap, length_seqZ.
      * by apply (kp_ref _ _ _ Hk).
      * intros _ _. change (i_inum (f (inode_at ip s))) with (i_inum (inode_at ip s)). by rewrite Hi.
      * set_solver.
      * unfold lock_ok. rewrite decide_True by set_solver. unfold f, locked_inode. cbn. by rewrite Epid.
    + unfold on_disk. change (inode_at ip (set_blk d' ?z)) with (inode_at ip z). rewrite inode_at_alter, decide_True by done. done.
    + change (inode_at ?k (set_blk d' ?z)) with (inode_at k z). rewrite inode_at_alter, decide_True by done. split; [done|]. split; [done|].
      intros k Hne. change (inode_at k (set_blk d' ?z)) with (inode_at k z). by rewrite inode_at_alter, decide_False by done.
Qed.

(** ** [iunlock], [iput] and [iget] *)

Lemma iunlock_kept s e lk ip n : kept s e lk -> ip ∈ lk -> on_disk s ip n ->
  wp (iunlock (Some ip)) s (fun _ s' => kept s' e (lk ∖ {[ip]}) /\ forall k m, on_disk s k m -> on_disk s' k m).
Proof.
  intros Hk Hni (Hin & Hr & Hi). pose proof (proj1 (kept_len _ _ _ ip Hk) Hin) as Hlt. pose proof (kp_lock _ _ _ Hk ip Hin) as Hl. unfold lock_ok in Hl. rewrite decide_True in Hl by done.
  destruct (kp_rest _ _ _ Hk) as (_ & Epid & _). pose proof (inode_lookup s ip Hlt) as Hlk. pose proof (kp_it _ _ _ Hk) as Hit.
  eapply wp_mono; [apply iunlock_wp; try done; rewrite Hl, Epid; unfold holdingsleep; cbn; by rewrite Z.eqb_refl|]. intros [] ? ->. split.
  - apply (kept_alter s e lk); try done; cbn [i_ref i_dev i_inum i_valid i_lock set_ilock].
    + apply (itable_alter _ _ _ (inode_at ip s)); [done|done|cbn; lia|exact (it_addrs _ Hit ip _ Hlk)|]. intros _ k j Hne Hj Hrj [E1 E2]. apply Hne. apply (it_uniq _ Hit k ip j (inode_at ip s)); (done || lia).
    + by apply (kp_ref _ _ _ Hk).
    + by apply (kp_dev _ _ _ Hk).
    + by apply (kp_disk _ _ _ Hk).
    + set_solver.
    + unfold lock_ok. by rewrite decide_False by set_solver.
  - intros k m (Hkin & Hkr & Hki). unfold on_disk. rewrite inode_at_alter by done. case_decide as E; [subst k|]; done.
Qed.

Definition drop_ref e (ip : nat) (k : nat) : Z := if decide (k = ip) then e k - 1 else e k.

Lemma iput_kept s e lk ip n : kept s e lk -> tree_ok (f_blk s0) live -> live n -> on_disk s ip n ->
  wp (iput ip) s (fun _ s' => kept s' (drop_ref e ip) lk /\ forall k m, on_disk s k m -> 1 <= i_ref (inode_at k s) - (if decide (k = ip) then 1 else 0) -> on_disk s' k m).
Proof.
  intros Hk Ht Hn (Hin & Hr & Hi). pose proof (proj1 (kept_len _ _ _ ip Hk) Hin) as Hlt. pose proof (inode_lookup s ip Hlt) as Hlk. pose proof (kp_it _ _ _ Hk) as Hit.
  assert (i_valid (inode_at ip s) = false \/ i_nlink (inode_at ip s) <> 0) as Hkeep.
  { destruct (i_valid (inode_at ip s)) eqn:Hv; [right|by left]. destruct (kp_disk _ _ _ Hk ip Hin ltac:(lia) Hv) as (_ & _ & _ & E & _). rewrite E, Hi. by apply (tk_used _ _ Ht). }
  eapply wp_mono; [apply iput_drop; by right|]. intros [] ? ->. split.
  - apply (kept_alter s e lk); try done; cbn [i_ref i_dev i_inum i_valid i_lock set_iref].
    + apply (itable_alter _ _ _ (inode_at ip s)); [done|done|cbn; lia|exact (it_addrs _ Hit ip _ Hlk)|]. intros _ k j Hne Hj Hrj [E1 E2]. apply Hne. apply (it_uniq _ Hit k ip j (inode_at ip s)); (done || lia).
    + intros k Hne. unfold drop_ref. by rewrite decide_False.
    + rewrite (kp_ref _ _ _ Hk) by done. unfold drop_ref. rewrite decide_True by done. lia.
    + intros _. apply (kp_dev _ _ _ Hk); (done || lia).
    + intros _ Hv. apply (kp_disk _ _ _ Hk); (done || lia).
    + by apply (kp_lock _ _ _ Hk).
  - intros k m (Hkin & Hkr & Hki) Hge. unfold on_disk. rewrite inode_at_alter by done. case_decide as E; [subst k; cbn [i_ref set_iref i_inum]; split_and!; (done || lia)|done].
Qed.

Definition add_ref e (ip : nat) (k : nat) : Z := if decide (k = ip) then e k + 1 else e k.

Lemma iget_kept s e lk m ip s' : kept s e lk -> (forall k, 0 <= e k) -> (forall k, in_table k -> 0 <= i_ref (inode_at k s0)) -> iget_post s ROOTDEV m ip s' ->
  kept s' (add_ref e ip) lk /\ on_disk s' ip m /\ (forall k, k <> ip -> inode_at k s' = inode_at k s) /\ (forall k n, on_disk s k n -> on_disk s' k n).
Proof.
  intros Hk He Hr0 (f & -> & Hit' & Hlt & Hdev & Hi & Hl & Hr & Hc). pose proof (inode_at_alter s ip ip f Hlt) as Eat. rewrite decide_True in Eat by done.
  rewrite Eat in Hdev, Hi, Hl, Hr, Hc. cbn [f_itable set_itable] in Hit'.
  pose proof (proj2 (kept_len _ _ _ ip Hk) Hlt) as Hin. pose proof (kp_ref _ _ _ Hk ip Hin) as Eref. specialize (He ip). specialize (Hr0 ip Hin).
  split; [|split; [|split]].
  - apply (kept_alter s e lk); try done.
    + intros k Hne. unfold add_ref. by rewrite decide_False.
    + unfold add_ref. rewrite decide_True by done. lia.
    + intros Hpos. rewrite decide_False in Hc by lia. destruct Hc as (_ & E & _). congruence.
    + intros _ Hv. destruct (decide (i_ref (inode_at ip s) = 0)) as [E|E]; [congruence|]. destruct Hc as (_ & Ei & Ev & Hs). rewrite Hi, <- Ei.
      pose proof (kp_disk _ _ _ Hk ip Hin ltac:(lia) ltac:(by rewrite <- Ev)) as Hd. destruct Hs as (S1 & S2 & S3 & S4 & S5 & S6), Hd as (D1 & D2 & D3 & D4 & D5 & D6). split_and!; congruence.
    + rewrite Hl. by apply (kp_lock _ _ _ Hk).
  - unfold on_disk. rewrite Eat. split_and!; (done || lia).
  - intros k Hne. by rewrite inode_at_alter, decide_False by done.
  - intros k n (Hkin & Hkr & Hki). unfold on_disk. rewrite inode_at_alter by done. destruct (decide (k = ip)) as [->|]; [|done]. rewrite decide_False in Hc by lia.
    destruct Hc as (_ & Ei & _). split_and!; (done || lia || congruence).
Qed.

(** ** [namex] *)

Definition single (ip : nat) (k : nat) : Z := if decide (k = ip) then 1 else 0.
Definition none (k : nat) : Z := 0.

Lemma kept_ext s e e' lk : (forall k, e k = e' k) -> kept s e lk -> kept s e' lk.
Proof. intros E [K1 K2 K3 K4 K5 K6 K7 K8]. split; try done. intros k Hk. rewrite <- E. by apply K4. Qed.

(** What [namex] is to find: the inode the path leads to, or with parent set
    the directory of its last element. *)
Definition target d (parent : bool) (n : Z) (es : list bytes) : option Z :=
  if parent then
    match es with
    | [] => None
    | _ => match walk d n (removelast es) with Some m => if i_type (idisk d m) =? T_DIR then Some m else None | None => None end
    end
  else walk d n es.

Definition outcome (t : option Z) (r : option nat) s : Prop :=
  match t with
  | Some m => exists ip, r = Some ip /\ kept s (single ip) ∅ /\ on_disk s ip m
  | None => r = None /\ kept s none ∅
  end.

Lemma target_cons d parent n (x : bytes) es : (parent = true -> es <> []) -> target d parent n (x :: es) =
  if i_type (idisk d n) =? T_DIR then match dir_find d (idisk d n) x with Some m => target d parent m es | None => None end else None.
Proof.
  intros Hp. destruct parent; [|done]. specialize (Hp eq_refl). destruct es as [|e' es]; [done|]. unfold target. cbn [removelast walk].
  destruct (_ =? _); [|done]. by destruct (dir_find _ _ _).
Qed.

Context (Hsb : f_sb s0 = sb) (Ht : tree_ok (f_blk s0) live).
Context (Hr0 : forall k, in_table k -> 0 <= i_ref (inode_at k s0)).
Context (Hfree : exists k1 k2, in_table k1 /\ in_table k2 /\ k1 <> k2 /\ i_ref (inode_at k1 s0) = 0 /\ i_ref (inode_at k2 s0) = 0).

Lemma spare_entry s ip lk : kept s (single ip) lk -> exists k j, f_itable s !! k = Some j /\ i_ref j = 0.
Proof.
  intros Hk. destruct Hfree as (k1 & k2 & Hi1 & Hi2 & Hne & E1 & E2). assert (forall k, in_table k -> k <> ip -> i_ref (inode_at k s0) = 0 -> exists k j, f_itable s !! k = Some j /\ i_ref j = 0) as Hx.
  { intros k Hin Hnip E. exists k, (inode_at k s). split; [apply inode_lookup; by apply (kept_len _ _ _ k Hk)|]. rewrite (kp_ref _ _ _ Hk) by done. unfold single. rewrite decide_False by done. lia. }
  destruct (decide (k1 = ip)) as [->|H1n]; [apply (Hx k2); (done || congruence)|by apply (Hx k1)].
Qed.

(** Giving up the entry. *)
Lemma iunlockput_kept s ip n : kept s (single ip) {[ip]} -> live n -> on_disk s ip n -> wp (iunlockput ip) s (fun _ s' => kept s' none ∅).
Proof.
  intros Hk Hn Hd. unfold iunlockput. apply wp_bind. eapply wp_mono; [exact (iunlock_kept s _ _ ip n Hk ltac:(set_solver) Hd)|]. intros [] s1 [Hk1 Hd1]. rewrite difference_diag_L in Hk1.
  eapply wp_mono; [exact (iput_kept s1 _ _ ip n Hk1 Ht Hn (Hd1 _ _ Hd))|]. intros [] s2 [Hk2 _]. eapply kept_ext; [|exact Hk2].
  intros k. unfold drop_ref, single, none. by case_decide.
Qed.

(** [dirlookup] in the locked directory. *)
Lemma dirlookup_kept s ip n name : kept s (single ip) {[ip]} -> live n -> on_disk s ip n -> same_dinode (inode_at ip s) (idisk (f_blk s0) n) ->
  i_type (idisk (f_blk s0) n) = T_DIR ->
  wp (dirlookup ip name) s (fun r s' => match dir_find (f_blk s0) (idisk (f_blk s0) n) name with
    | None => r = None /\ kept s' (single ip) {[ip]} /\ on_disk s' ip n
    | Some m => exists next k, r = Some (next, k * DIRENT_SIZE) /\ kept s' (add_ref (single ip) next) {[ip]} /\ on_disk s' ip n /\ on_disk s' next m /\
        0 <= k < count (idisk (f_blk s0) n) /\ entry_matches (f_blk s0) (idisk (f_blk s0) n) name k = true /\
        forall j, j <> next -> inode_at j s' = inode_at j s
    end).
Proof.
  intros Hk Hn Hd Hsame Hty. pose proof (kp_blk _ _ _ Hk) as Hro. set (i := inode_at ip s) in *. destruct Hd as (Hin & Hrf & Hi). pose proof (kp_dev _ _ _ Hk ip Hin ltac:(lia)) as Hdev.
  assert (dir_ok (f_blk s) i) as Hdir by (eapply ro_dir_ok; [done|]; eapply dir_ok_same; [done|done|by apply (tk_dir _ _ Ht)]).
  assert (dir_find (f_blk s0) (idisk (f_blk s0) n) name = dir_find (f_blk s) i name) as Efind by (by rewrite (dir_find_ro (f_blk s0) (f_blk s)), (dir_find_same _ i (idisk (f_blk s0) n))).
  rewrite Efind. eapply wp_mono; [apply (dirlookup_wp s ip name Hdir (kp_it _ _ _ Hk) (spare_entry s ip _ Hk))|]. fold i. fold (count i). intros [[next off]|] s' (d1 & Hro1 & Hres).
  - destruct Hres as (k & Hkc & -> & Hmt & Hpre & Hget). rewrite (find_first _ _ _ k Hkc Hmt Hpre). set (m := de_inum (dirent_at (f_blk s) i k)) in *.
    destruct (iget_kept (set_blk d1 s) (single ip) {[ip]} m next s') as (Hk' & Hd' & Hoth & Hpres); [by apply kept_blk|intros x; unfold single; case_decide; lia|done|done|].
    assert (dirent_at (f_blk s0) (idisk (f_blk s0) n) k = dirent_at (f_blk s) i k) as Ede by (by rewrite (ro_dirent (f_blk s0) (f_blk s)), (dirent_same _ i (idisk (f_blk s0) n))).
    exists next, k. split; [done|]. split; [done|]. split; [by apply Hpres|]. split; [done|]. split; [unfold count in *; by replace (i_size (idisk _ n)) with (i_size i) by apply Hsame|].
    split; [unfold entry_matches; by rewrite Ede|done].
  - destruct Hres as [-> Hnone]. rewrite (lookup_none _ _ _ Hnone). split; [done|]. split; [by apply kept_blk|done].
Qed.

Definition found (path : bytes) (parent : bool) (n : Z) (r : option nat * bytes) s : Prop :=
  outcome (target (f_blk s0) parent n (path_elems path)) r.1 s /\
  (parent = true -> r.1 <> None -> exists x, last (path_elems path) = Some x /\ same_name r.2 x = true).

(** No element is left. *)
Lemma namex_end s ip n path (parent : bool) name : kept s (single ip) ∅ -> on_disk s ip n -> live n -> path_elems path = [] ->
  wp (if parent then iput ip ;;; ret (None, name) else ret (Some ip, name)) s (found path parent n).
Proof.
  intros Hk Hd Hn E. unfold found. rewrite E. destruct parent; [|apply wp_ret; split; [by exists ip|done]].
  apply wp_bind. eapply wp_mono; [exact (iput_kept s _ _ ip n Hk Ht Hn Hd)|]. intros [] s' [Hk' _]. apply wp_ret. split; [|done]. split; [done|].
  eapply kept_ext; [|exact Hk']. intros k. unfold drop_ref, single, none. by case_decide.
Qed.

(** The element is missing, or this is no directory. *)
Lemma namex_miss s ip n path parent name : kept s (single ip) {[ip]} -> on_disk s ip n -> live n -> target (f_blk s0) parent n (path_elems path) = None ->
  wp (iunlockput ip ;;; ret (None, name)) s (found path parent n).
Proof.
  intros Hk Hd Hn E. apply wp_bind. eapply wp_mono; [exact (iunlockput_kept s ip n Hk Hn Hd)|]. intros [] s' Hk'. apply wp_ret. unfold found. rewrite E. by split.
Qed.

(** From the directory to the entry that was found in it. *)
Lemma namex_next s ip n next m : kept s (add_ref (single ip) next) {[ip]} -> on_disk s ip n -> live n -> on_disk s next m ->
  wp (iunlockput ip) s (fun _ s' => kept s' (single next) ∅ /\ on_disk s' next m).
Proof.
  intros Hk Hd Hn Hdm. unfold iunlockput. apply wp_bind. eapply wp_mono; [exact (iunlock_kept s _ _ ip n Hk ltac:(set_solver) Hd)|]. intros [] s1 [Hk1 Hd1]. rewrite difference_diag_L in Hk1.
  eapply wp_mono; [exact (iput_kept s1 _ _ ip n Hk1 Ht Hn (Hd1 _ _ Hd))|]. intros [] s2 [Hk2 Hd2]. split.
  - eapply kept_ext; [|exact Hk2]. intros k. unfold drop_ref, add_ref, single. repeat case_decide; lia.
  - apply Hd2; [by apply Hd1|]. destruct Hdm as (Hin & _). rewrite (kp_ref _ _ _ Hk1) by done. specialize (Hr0 next Hin). unfold add_ref, single. repeat case_decide; lia.
Qed.

Lemma namex_loop_wp fuel : forall s ip n path parent name, kept s (single ip) ∅ -> on_disk s ip n -> live n ->
  (length path <= fuel)%nat -> length name = Z.to_nat DIRSIZ -> 0 ∉ path -> wp (namex_loop fuel ip path parent name) s (found path parent n).
Proof.
  induction fuel as [|fuel IH]; intros s ip n path parent name Hk Hd Hn Hf Hnm Hz.
  { assert (path = []) as -> by (destruct path; [done|cbn in Hf; lia]). cbn [namex_loop skipelem skip_slashes]. by apply namex_end. }
  cbn [namex_loop]. pose proof (skipelem_step path name Hnm Hz) as Hstep. destruct (skipelem path name) as [[path' name']|]; [|by apply namex_end].
  destruct Hstep as (x & Ees & Hsn & Hnm' & Hlt & Hz' & Hend). apply wp_bind. eapply wp_mono; [exact (ilock_kept s _ _ ip n Hk ltac:(set_solver) Ht Hsb Hn Hd)|].
  intros [] s1 (Hk1 & Hd1 & Hs1 & _). rewrite union_empty_r_L in Hk1. apply wp_bind, wp_gets. assert (i_type (inode_at ip s1) = i_type (idisk (f_blk s0) n)) as -> by apply Hs1.
  destruct (Z.eqb_spec (i_type (idisk (f_blk s0) n)) T_DIR) as [Hty|Hty]; cbn [negb].
  2: { apply (namex_miss s1 ip n); try done. rewrite Ees. destruct parent; cbn [target walk].
    - destruct (path_elems path') as [|y l]; cbn [removelast walk]; by rewrite (proj2 (Z.eqb_neq _ _) Hty).
    - by rewrite (proj2 (Z.eqb_neq _ _) Hty). }
  destruct (parent && bool_decide (path' = [])) eqn:Elast.
  - apply andb_true_iff in Elast as [-> Ep%bool_decide_eq_true]. apply Hend in Ep. apply wp_bind. eapply wp_mono; [exact (iunlock_kept s1 _ _ ip n Hk1 ltac:(set_solver) Hd1)|]. intros [] s2 [Hk2 Hd2].
    rewrite difference_diag_L in Hk2. apply wp_ret. unfold found. rewrite Ees, Ep. cbn [target removelast walk]. rewrite (proj2 (Z.eqb_eq _ _) Hty). split; [|by exists x]. exists ip. split; [done|]. split; [done|]. by apply Hd2.
  - assert (parent = true -> path_elems path' <> []) as Hp by (intros -> E; apply Hend in E; by rewrite bool_decide_eq_true_2 in Elast).
    apply wp_bind. eapply wp_mono; [exact (dirlookup_kept s1 ip n name' Hk1 Hn Hd1 Hs1 Hty)|]. intros r s2. rewrite (find_name _ _ name' x) by done.
    pose proof (target_cons (f_blk s0) parent n x (path_elems path') Hp) as Et. rewrite (proj2 (Z.eqb_eq _ _) Hty) in Et. destruct (dir_find _ _ x) as [m|] eqn:Efind.
    + intros (next & off & -> & Hk2 & Hd2 & Hdm & _). apply wp_bind. eapply wp_mono; [exact (namex_next s2 ip n next m Hk2 Hd2 Hn Hdm)|]. intros [] s3 [Hk3 Hd3].
      eapply wp_mono; [apply (IH s3 next m path' parent name' Hk3 Hd3); [by eapply (tk_closed _ _ Ht)|lia|done|done]|]. intros r s4 [Ho Hl]. unfold found. rewrite Ees, Et. split; [done|].
      intros Hpt Hr. destruct (Hl Hpt Hr) as (y & Ey & Hy). exists y. split; [|done]. specialize (Hp Hpt). by destruct (path_elems path').
    + intros (-> & Hk2 & Hd2). apply (namex_miss s2 ip n); try done. by rewrite Ees.
Qed.

(** The inode a path starts from. *)
Definition start_of (path : bytes) : Z :=
  match path with
  | c :: _ => if c =? SLASH then ROOTINO else i_inum (inode_at (f_cwd s0) s0)
  | [] => i_inum (inode_at (f_cwd s0) s0)
  end.

Lemma iget_start s : kept s none ∅ -> wp (iget ROOTDEV ROOTINO) s (fun ip s' => kept s' (single ip) ∅ /\ on_disk s' ip ROOTINO).
Proof.
  intros Hk. destruct Hfree as (k1 & _ & Hi1 & _ & _ & E1 & _). eapply wp_mono; [apply iget_wp; [apply Hk|]|].
  - exists k1, (inode_at k1 s). split; [apply inode_lookup; by apply (kept_len _ _ _ k1 Hk)|]. rewrite (kp_ref _ _ _ Hk) by done. unfold none. lia.
  - intros ip s' Hget. destruct (iget_kept s none ∅ ROOTINO ip s') as (Hk' & Hd' & _); [done|done|done|done|]. split; [|done]. eapply kept_ext; [|exact Hk']. intros k. unfold add_ref, single, none. by case_decide.
Qed.

Lemma idup_start s ip n : kept s none ∅ -> on_disk s ip n -> wp (idup ip) s (fun r s' => r = ip /\ kept s' (single ip) ∅ /\ on_disk s' ip n).
Proof.
  intros Hk (Hin & Hr & Hi). pose proof (proj1 (kept_len _ _ _ ip Hk) Hin) as Hlt. pose proof (inode_lookup s ip Hlt) as Hlk. pose proof (kp_it _ _ _ Hk) as Hit.
  unfold idup. apply wp_bind, wp_modify, wp_ret. split; [done|]. split.
  - apply (kept_alter s none ∅); try done; cbn [i_ref i_dev i_inum i_valid i_lock set_iref].
    + apply (itable_alter _ _ _ (inode_at ip s)); [done|done|cbn; lia|exact (it_addrs _ Hit ip _ Hlk)|]. intros _ k j Hne Hj Hrj [E1 E2]. apply Hne. apply (it_uniq _ Hit k ip j (inode_at ip s)); (done || lia).
    + intros k Hne. unfold single, none. by rewrite decide_False.
    + rewrite (kp_ref _ _ _ Hk) by done. unfold single, none. rewrite decide_True by done. lia.
    + intros _. apply (kp_dev _ _ _ Hk); (done || lia).
    + intros _. apply (kp_disk _ _ _ Hk); (done || lia).
    + by apply (kp_lock _ _ _ Hk).
  - unfold on_disk. rewrite inode_at_alter, decide_True by done. cbn [i_ref i_inum set_iref]. split_and!; (done || lia).
Qed.

Lemma namex_wp path parent name : kept s0 none ∅ -> (head path = Some SLASH \/ on_disk s0 (f_cwd s0) (start_of path) /\ live (start_of path)) ->
  length name = Z.to_nat DIRSIZ -> 0 ∉ path -> wp (namex path parent name) s0 (found path parent (start_of path)).
Proof.
  intros Hk Hst Hnm Hz. unfold namex. assert (forall c l, path = c :: l -> (c =? SLASH) = true ->
    wp (let! ip := iget ROOTDEV ROOTINO in namex_loop (length path) ip path parent name) s0 (found path parent (start_of path))) as Hroot.
  { intros c l -> Ec. unfold start_of. rewrite Ec. apply wp_bind. eapply wp_mono; [by apply iget_start|]. intros ip s' [Hk' Hd']. apply namex_loop_wp; (done || apply (tk_root _ _ Ht)). }
  assert (on_disk s0 (f_cwd s0) (start_of path) /\ live (start_of path) ->
    wp (let! ip := (let! cwd := gets f_cwd in idup cwd) in namex_loop (length path) ip path parent name) s0 (found path parent (start_of path))) as Hcwd.
  { intros [Hd Hl]. apply wp_bind, wp_bind, wp_gets. eapply wp_mono; [by apply idup_start|]. intros ip s' (-> & Hk' & Hd'). by apply namex_loop_wp. }
  destruct path as [|c l]; [apply Hcwd; by destruct Hst|]. destruct (c =? SLASH) eqn:Ec; [by apply (Hroot c l)|]. apply Hcwd. destruct Hst as [[= ->]|Hst]; [done|done].
Qed.
End walking.
End path.
