(* ===== verification/FsUnlink.v ===== *)
(** * Removing a name: [iput] on the last reference, and the cleared entry

    [iput_wp]: the last reference to an inode without links gives back its
    blocks and the inode.  [clear_wp]: writing a zero entry removes one name
    from the map that a directory stands for.  The lemmas on [idisk] say what
    an update of one inode leaves of the others. *)
From S2P Require Import Prelude Params Sleeplock CString Interfaces Fs FsBlocks FsInode FsData FsWrite FsTrunc FsDir FsPath.

(** ** Dinodes *)

Lemma splice_splice {A} (l x y : list A) a : length x = length y -> (a + length x <= length l)%nat -> splice (splice l a x) a y = splice l a y.
Proof.
  intros Hxy Hl. apply list_eq. intros i. rewrite !lookup_splice by (rewrite ?length_splice; lia). rewrite Hxy. by repeat case_decide.
Qed.

Lemma store_store i j off x : inode_ok i -> inode_ok j -> 0 <= off -> off + DINODE_SIZE <= Z.of_nat (length x) ->
  store_dinode j off (store_dinode i off x) = store_dinode j off x.
Proof.
  intros Hi Hj H0 H1. pose proof (length_encode_inode i Hi) as Li. pose proof (length_encode_inode j Hj) as Lj.
  rewrite (store_dinode_splice i) by (klia || done). rewrite !(store_dinode_splice j); [|done|done|klia|done|done|rewrite length_splice; klia].
  apply splice_splice; [congruence|klia].
Qed.

(** What is read from disk fits the fields. *)
Lemma of_le_range l : Forall is_byte l -> 0 <= of_le l < 256 ^ Z.of_nat (length l).
Proof.
  induction 1 as [|b l Hb Hl IH]; [cbn; lia|]. cbn [of_le length]. rewrite Nat2Z.inj_succ, Z.pow_succ_r by lia. unfold is_byte in Hb. lia.
Qed.
Lemma get_u32_range x off : Forall is_byte x -> 0 <= get_u32 x off < 2^32.
Proof.
  intros Hx. unfold get_u32. pose proof (of_le_range (slice x (Z.to_nat off) 4) ltac:(by apply Forall_take, Forall_drop)) as Hr.
  assert (256 ^ Z.of_nat (length (slice x (Z.to_nat off) 4)) <= 256 ^ 4); [|lia]. apply Z.pow_le_mono_r; [lia|]. unfold slice. rewrite length_take. lia.
Qed.
Lemma i16_range x : -2^15 <= i16 x < 2^15.
Proof. unfold i16. pose proof (Z.mod_pos_bound (x + 2^15) (2^16)). lia. Qed.

Lemma load_range x off i : Forall is_byte x -> inode_range (load_dinode x off i).
Proof.
  intros Hx. unfold inode_range, inode_ok, load_dinode, di_type, di_major, di_minor, di_nlink, di_size, di_addr, get_i16. cbn [i_type i_major i_minor i_nlink i_size i_addrs].
  split_and!; try apply i16_range; try by apply get_u32_range.
  - by rewrite length_fmap, length_seqZ.
  - apply Forall_forall. intros a (k & -> & _)%list_elem_of_fmap. by apply get_u32_range.
Qed.

Lemma slice_store_other i n m x k len : inode_ok i -> 0 <= n -> 0 <= m -> length x = Z.to_nat BSIZE -> dinode_off m <> dinode_off n -> 0 <= k -> k + Z.of_nat len <= DINODE_SIZE ->
  slice (store_dinode i (dinode_off n) x) (Z.to_nat (dinode_off m + k)) len = slice x (Z.to_nat (dinode_off m + k)) len.
Proof.
  intros Hi Hn Hm Hx Hne Hk Hlen. destruct (dinode_off_range n Hn), (dinode_off_range m Hm). apply store_dinode_other; try done; [klia|klia|].
  assert (dinode_off m + DINODE_SIZE <= dinode_off n \/ dinode_off n + DINODE_SIZE <= dinode_off m); [|lia]. unfold dinode_off in *. klia.
Qed.

Lemma load_other i n m x j : inode_ok i -> 0 <= n -> 0 <= m -> length x = Z.to_nat BSIZE -> dinode_off m <> dinode_off n ->
  load_dinode (store_dinode i (dinode_off n) x) (dinode_off m) j = load_dinode x (dinode_off m) j.
Proof.
  intros Hi Hn Hm Hx Hne.
  assert (forall k len, 0 <= k -> k + Z.of_nat len <= DINODE_SIZE -> slice (store_dinode i (dinode_off n) x) (Z.to_nat (dinode_off m + k)) len = slice x (Z.to_nat (dinode_off m + k)) len) as Hsl
    by (intros; by apply slice_store_other).
  unfold load_dinode, di_type, di_major, di_minor, di_nlink, di_size, di_addr, get_i16, get_u16, get_u32.
  rewrite <- (Z.add_0_r (dinode_off m)) at 1. rewrite !Hsl by klia. rewrite Z.add_0_r. f_equal. apply list_fmap_ext. intros ? k Hk.
  apply list_elem_of_lookup_2, elem_of_seqZ in Hk. rewrite <- Z.add_assoc. by rewrite Hsl by klia.
Qed.

(** ** The last reference *)

Section unlink.
Context {D U : Type} `{BlockLaws D} `{UserMem U}.
Context (sb : superblock).
Implicit Types (d : D) (s : @fstate D U) (i : inode).

Lemma alter_fput s ip d i f : (ip < length (f_itable s))%nat ->
  set_itable (alter f ip (f_itable (fput s ip d i))) (fput s ip d i) = fput s ip d (f i).
Proof.
  intros Hip. unfold fput. cbn. unfold set_itable. cbn. by rewrite !list_insert_alter, list_alter_alter_eq.
Qed.

(** The in-memory inode after its last reference is gone. *)
Definition reclaimed_inode i : inode :=
  set_iref (i_ref i - 1) (set_ilock (mkSleeplock false 0) (set_ivalid false (set_itype 0 (emptied i)))).

(** The disk after inode i went back: its blocks and the inode are free. *)
Record reclaimed d i d' : Prop := {
  rc_free : forall b, 0 <= b < sb_size sb -> in_file d i b -> block_used d' sb b = false;
  rc_used : forall b, 0 <= b < sb_size sb -> ~ in_file d i b -> block_used d' sb b = block_used d sb b;
  rc_disk : let B := IBLOCK (i_inum i) sb in bl_view d' B = store_dinode (set_itype 0 (emptied i)) (dinode_off (i_inum i)) (bl_view d B);
  rc_frame : forall b, ~ in_bitmap sb b -> b <> IBLOCK (i_inum i) sb -> bl_view d' b = bl_view d b;
  rc_fs : fs_ok sb d' 0;
  rc_held : bl_held d' = bl_held d;
  rc_same : bl_same d d' }.

Lemma good_truncated d i d' i' b : truncated sb d i d' i' -> ~ in_file d i b -> good_block sb d b -> good_block sb d' b.
Proof.
  intros T Hn (Hr & Hu & Hh & Hnh & Hb). split_and!; try lia; try done.
  - rewrite (tr_used _ _ _ _ _ T) by (done || lia). done.
  - eapply same_home; [apply T|done].
  - by rewrite (tr_held _ _ _ _ _ T).
Qed.

Lemma upd_fs_in d d' b x n : fs_ok sb d n -> good_block sb d b -> b ∈ bl_txn d -> upd_post d d' b x -> fs_ok sb d' n.
Proof.
  intros [[G1 G2 G3 G4] Hwf Ho [Hz Hzu] Hr] Hb Hin Hp. pose proof Hp as (Hs & _ & Hh & Ht & _).
  assert (forall b', 0 <= b' < sb_size sb -> block_used d' sb b' = block_used d sb b') as Hu by (intros b' Hb'; by apply (upd_used sb d d' b x)).
  split; [split|by eapply same_wf|by eapply same_open| |]; try done.
  - intros b' Hb'. rewrite Hh. destruct (G3 b' Hb'). split; [by eapply same_home|done].
  - intros b' Hb' Hu'. rewrite Hu in Hu' by done. rewrite Hh. destruct (G4 b' Hb' Hu') as (? & ? & ?). split_and!; [by eapply same_home|done..].
  - split; [done|]. by rewrite Hu by lia.
  - rewrite Hh, Ht. replace ({[b]} ∪ bl_txn d) with (bl_txn d) by set_solver. done.
Qed.

Section on_file.
Context (s : @fstate D U) (ip : nat) (Hsb : f_sb s = sb) (Hip : (ip < length (f_itable s))%nat).

(** [iupdate] of the entry. *)
Lemma iupdate_fput d i c : fs_ok sb d c -> file_ok sb d i -> 0 <= i_inum i -> good_block sb d (IBLOCK (i_inum i) sb) ->
  wp (iupdate ip) (fput s ip d i) (fun _ s' => exists d', s' = fput s ip d' i /\
    upd_post d d' (IBLOCK (i_inum i) sb) (store_dinode i (dinode_off (i_inum i)) (bl_view d (IBLOCK (i_inum i) sb)))).
Proof.
  intros Hfs Hf Hnum HB. pose proof (iupdate_wp (fput s ip d i) ip) as Hup. cbv zeta in Hup. rewrite inode_at_fput in Hup by done.
  change (f_sb (fput s ip d i)) with (f_sb s) in Hup. change (f_blk (fput s ip d i)) with d in Hup. rewrite Hsb in Hup.
  eapply wp_mono; [apply Hup|].
  - split; [|exact Hnum]. change (f_sb (fput s ip d i)) with (f_sb s). rewrite Hsb. by eapply (good_can_read sb d).
  - apply (fk_dev _ _ _ Hf).
  - apply (fk_inode _ _ _ Hf).
  - apply Hfs.
  - pose proof (fw_room _ _ _ Hfs). klia.
  - intros ? ? (d' & -> & Hp). by exists d'.
Qed.

Lemma lock_fput d i : sl_locked (i_lock i) = false ->
  wp (with_ilock ip (acquiresleep (ChSleeplock "inode" ip) (f_pid s))) (fput s ip d i) (fun _ s' => s' = fput s ip d (set_ilock (mkSleeplock true (f_pid s)) i)).
Proof.
  intros Hl. pose proof (with_ilock_acquire (fput s ip d i) ip) as Hw. rewrite inode_at_fput in Hw by done. change (f_pid (fput s ip d i)) with (f_pid s) in Hw.
  eapply wp_mono; [apply Hw; [unfold fput; cbn; by rewrite length_insert|done]|]. intros ? ? ->. by apply alter_fput.
Qed.

Lemma release_fput d i : wp (with_ilock ip (releasesleep (ChSleeplock "inode" ip))) (fput s ip d i) (fun _ s' => s' = fput s ip d (set_ilock (mkSleeplock false 0) i)).
Proof. apply wp_zoom. unfold releasesleep. apply wp_bind, wp_modify, wp_emit. by apply alter_fput. Qed.

Lemma iput_wp d i : let B := IBLOCK (i_inum i) sb in
  file_ok sb d i -> fs_ok sb d 0 -> (size (bl_txn d ∪ bitmap sb) + size (bl_held d) + 1 < NBUF)%nat ->
  0 <= i_inum i -> good_block sb d B -> (forall k, is_slot k -> slot d i k <> B) -> sl_locked (i_lock i) = false ->
  wp (iput ip) (fput s ip d i) (fun _ s' =>
    if (i_ref i =? 1) && i_valid i && (i_nlink i =? 0) then exists d', s' = fput s ip d' (reclaimed_inode i) /\ reclaimed d i d'
    else s' = fput s ip d (set_iref (i_ref i - 1) i)).
Proof.
  intros B Hf Hfs Hroom Hnum HB Hns Hl. unfold iput. apply wp_bind, wp_gets. rewrite inode_at_fput by done. apply wp_bind, wp_gets. apply wp_bind.
  change (f_pid (fput s ip d i)) with (f_pid s). destruct (_ && _ && _); cbn [when]; [|apply wp_ret, modify_fput; done].
  set (i1 := set_ilock (mkSleeplock true (f_pid s)) i). assert (file_ok sb d i1) as Hf1 by (destruct Hf; by split).
  apply wp_bind. eapply wp_mono; [by apply lock_fput|]. intros ? ? ->. fold i1.
  apply wp_bind. eapply wp_mono; [by apply (itrunc_wp sb s ip Hsb Hip d i1)|]. intros ? ? (d1 & -> & T).
  assert (~ in_file d i1 B) as HnB by (intros (_ & k & Hk & E); by apply (Hns k)).
  pose proof (good_truncated _ _ _ _ _ T HnB HB) as HB1. set (i2 := set_itype 0 (emptied i1)).
  assert (file_ok sb d1 i2) as Hf2 by (destruct (tr_file _ _ _ _ _ T); by split).
  apply wp_bind, modify_fput. fold i2. apply wp_bind. eapply wp_mono; [apply (iupdate_fput d1 i2 0 (tr_fs _ _ _ _ _ T) Hf2 Hnum HB1)|].
  intros ? ? (d2 & -> & Hp). apply wp_bind, modify_fput. eapply wp_mono; [apply release_fput|]. intros ? ? ->. apply modify_fput.
  change (i_inum i2) with (i_inum i) in Hp. fold B in Hp. exists d2. split; [done|]. pose proof Hp as (Hs & Hv & Hh & _).
  assert (forall b, 0 <= b < sb_size sb -> block_used d2 sb b = block_used d1 sb b) as Hu by (intros b Hb; by apply (upd_used sb d1 d2 B _ b HB1 Hp)).
  assert (length (bl_view d B) = Z.to_nat BSIZE) as Hlen by (destruct (bl_view_ok d B (fw_wf _ _ _ Hfs)) as [Hlen _]; [apply HB|exact Hlen]). split.
  - intros b Hb Hin. rewrite Hu by done. by apply (tr_free _ _ _ _ _ T).
  - intros b Hb Hin. rewrite Hu by done. by apply (tr_used _ _ _ _ _ T).
  - cbv zeta. fold B. rewrite Hv, decide_True by done. pose proof (tr_disk _ _ _ _ _ T) as E. cbv zeta in E. change (i_inum i1) with (i_inum i) in E. fold B in E. rewrite E.
    destruct (dinode_off_range (i_inum i) Hnum). rewrite store_store; [done| |done|done|rewrite Hlen; klia]. apply (fk_inode _ _ _ (tr_file _ _ _ _ _ T)).
  - intros b Hb Hne. rewrite Hv, decide_False by done. by apply (tr_frame _ _ _ _ _ T).
  - by eapply upd_fs_in; [apply (tr_fs _ _ _ _ _ T)|exact HB1|apply (tr_txn _ _ _ _ _ T)|].
  - rewrite Hh. apply (tr_held _ _ _ _ _ T).
  - eapply same_trans; [apply (tr_same _ _ _ _ _ T)|done].
Qed.

(** ** Clearing an entry *)

Definition zero_dirent : bytes := replicate (Z.to_nat DIRENT_SIZE) 0.

Lemma zero_dirent_is name : entry_is name zero_dirent = false.
Proof. by vm_compute. Qed.

Definition names_once d i : Prop :=
  forall name k k', 0 <= k < count i -> 0 <= k' < count i -> entry_matches d i name k = true -> entry_matches d i name k' = true -> k = k'.

Lemma wrote_names d i name k d' i' : is_dir d i -> names_once d i -> 0 <= k < count i -> entry_matches d i name k = true ->
  wrote sb d i zero_dirent (k * DIRENT_SIZE) DIRENT_SIZE d' i' ->
  is_dir d' i' /\ dir_find d' i' name = None /\ forall name', same_name name' name = false -> dir_find d' i' name' = dir_find d i name'.
Proof.
  intros Hd Hu Hk Hm W. pose proof (count_size _ _ Hd) as Hc. pose proof (id_size _ _ Hd) as Hs.
  pose proof (wrote_entry sb s ip Hip d i zero_dirent k d' i' Hd eq_refl ltac:(lia) ltac:(klia) W) as He. rewrite decide_True in He by lia.
  split; [|split].
  - apply (wrote_is_dir sb s ip Hip d i zero_dirent (k * DIRENT_SIZE) DIRENT_SIZE); [done|done|klia|klia|]. replace (k * DIRENT_SIZE + DIRENT_SIZE) with ((k + 1) * DIRENT_SIZE) by lia. apply Z.mod_mul. klia.
  - unfold dir_find, find_entry. rewrite find_all_false; [done|]. intros x (j & Hj)%list_elem_of_lookup. rewrite He in Hj.
    destruct (decide (j = Z.to_nat k)) as [->|Hne]; [rewrite list_lookup_insert_eq in Hj by (rewrite length_entries; lia); injection Hj as <-; apply zero_dirent_is|].
    rewrite list_lookup_insert_ne in Hj by done. pose proof (lookup_lt_Some _ _ _ Hj) as Hlt. rewrite length_entries in Hlt.
    rewrite <- (Nat2Z.id j), entries_lookup in Hj by lia. injection Hj as <-. destruct (entry_is name (dirent_at d i (Z.of_nat j))) eqn:E; [|done].
    assert (Z.of_nat j = k); [|lia]. apply (Hu name); try done. lia.
  - intros name' Hn. unfold dir_find, find_entry. rewrite He. f_equal. eapply find_insert; [by apply entries_lookup| |apply zero_dirent_is].
    unfold entry_matches in Hm. apply andb_true_iff in Hm as [_ Hm]. apply andb_false_intro2. apply not_true_is_false. intros E.
    fold (same_name name (de_name (dirent_at d i k))) in Hm. rewrite (same_name_eq name' _ name) in Hn by done. apply same_name_spec in Hm.
    assert (same_name (de_name (dirent_at d i k)) name = true); [|congruence]. apply same_name_spec. by apply str_eq_sym.
Qed.

Lemma clear_wp d i name k c : let B := IBLOCK (i_inum i) sb in
  file_ok sb d i -> fs_ok sb d (c + 8) -> is_dir d i -> names_once d i -> 0 <= i_inum i -> good_block sb d B -> (forall k, is_slot k -> slot d i k <> B) ->
  0 <= k < count i -> entry_matches d i name k = true ->
  wp (writei ip (KernSrc zero_dirent) (k * DIRENT_SIZE) DIRENT_SIZE) (fput s ip d i) (fun r s' => r = DIRENT_SIZE /\
    exists d' i', s' = fput s ip d' i' /\ wrote sb d i zero_dirent (k * DIRENT_SIZE) DIRENT_SIZE d' i' /\ fs_ok sb d' c).
Proof.
  intros B Hf Hfs Hd Hu Hnum HB Hns Hk Hm. pose proof (count_size _ _ Hd) as Hc. pose proof (id_size _ _ Hd) as Hs.
  pose proof (writei_wp sb s ip Hsb Hip d i zero_dirent (k * DIRENT_SIZE) ltac:(by repeat constructor) ltac:(klia) ltac:(change (Z.of_nat (length zero_dirent)) with DIRENT_SIZE; klia) c) as Hw.
  change (Z.of_nat (length zero_dirent)) with DIRENT_SIZE in Hw. eapply wp_mono; [apply Hw; try done; [klia|]|].
  - rewrite (one_block s ip Hip) by (done || lia). eapply fs_ok_le; [|exact Hfs]. lia.
  - intros r ? (d' & i' & -> & W & Hfs'). assert (r = DIRENT_SIZE) as ->; [|split; [done|]; by exists d', i'].
    pose proof (wo_range _ _ _ _ _ _ _ _ W) as Hr. change (Z.of_nat (length zero_dirent)) with DIRENT_SIZE in Hr.
    pose proof (wo_whole _ _ _ _ _ _ _ _ W) as Hw'. change (Z.of_nat (length zero_dirent)) with DIRENT_SIZE in Hw'.
    destruct (whole_entry s ip Hip k r ltac:(lia) Hr Hw') as [-> | ->]; [|done]. exfalso.
    destruct (wo_short _ _ _ _ _ _ _ _ W) as [Hz _]; [done|]. rewrite Z.add_0_r in Hz.
    assert (slot d i (k * DIRENT_SIZE / BSIZE) <> 0) as Hnz by (apply (id_full _ _ Hd); klia).
    rewrite (wo_slots _ _ _ _ _ _ _ _ W) in Hz; [done| |done]. pose proof (block_of (k * DIRENT_SIZE) ltac:(klia)). unfold is_slot. lia.
Qed.
End on_file.

(** ** What a change of some blocks leaves *)

Lemma file_same d i j : same_dinode i j -> i_dev i = ROOTDEV -> file_ok sb d j -> file_ok sb d i.
Proof.
  intros (_ & _ & _ & _ & _ & Ea) Hdev [F1 F2 F3 F4]. assert (forall k, slot d i k = slot d j k) as Hs by (intros k; unfold slot, bmap_at, i_addr; by rewrite Ea).
  split; [unfold inode_ok; by rewrite Ea|done|..].
  - intros k Hk. rewrite Hs. by apply F3.
  - intros k k' Hk Hk'. rewrite !Hs. by apply F4.
Qed.
Lemma slot_same d i j k : same_dinode i j -> slot d i k = slot d j k.
Proof. intros (_ & _ & _ & _ & _ & Ea). unfold slot, bmap_at, i_addr. by rewrite Ea. Qed.

(** The blocks of file i are as before. *)
Definition file_kept d d' i : Prop := forall k, is_slot k -> slot d i k <> 0 -> bl_view d' (slot d i k) = bl_view d (slot d i k).

Lemma kept_slot d d' i k : file_kept d d' i -> slot d' i k = slot d i k.
Proof.
  intros Hk. apply slot_view. destruct (decide (i_addr i NDIRECT = 0)) as [E|E]; [by right|left]. apply (Hk (-1)); [unfold is_slot; klia|done].
Qed.
Lemma kept_byte d d' i x : file_kept d d' i -> 0 <= x < MAXFILE * BSIZE -> slot d i (x / BSIZE) <> 0 -> file_byte d' i x = file_byte d i x.
Proof.
  intros Hk Hx Hnz. unfold file_byte. rewrite !bmap_slot, (kept_slot d d' i) by (done || lia). rewrite Hk; [done| |done].
  pose proof (block_of x Hx). unfold is_slot. lia.
Qed.
Lemma kept_file_home d d' i : file_kept d d' i -> (forall b, bl_home d b -> bl_home d' b) -> bl_held d' = bl_held d ->
  (forall k, is_slot k -> slot d i k <> 0 -> block_used d' sb (slot d i k) = true) -> file_ok sb d i -> file_ok sb d' i.
Proof.
  intros Hk Hs Hh Hu [F1 F2 F3 F4]. split; [done|done|..].
  - intros k Hsl. rewrite (kept_slot d d' i k) by done. intros Hnz. destruct (F3 k Hsl Hnz) as (Hr & _ & Hhome & Hnh & Hb).
    split_and!; try lia; try done; [by apply Hu|by apply Hs|by rewrite Hh].
  - intros k k' Hsl Hsl'. rewrite !(kept_slot d d' i) by done. by apply F4.
Qed.
Lemma kept_file d d' i : file_kept d d' i -> bl_same d d' -> bl_held d' = bl_held d ->
  (forall k, is_slot k -> slot d i k <> 0 -> block_used d' sb (slot d i k) = true) -> file_ok sb d i -> file_ok sb d' i.
Proof. intros Hk Hs. apply kept_file_home; [done|]. intros b. by apply same_home. Qed.
Lemma kept_entries d d' i : file_kept d d' i -> is_dir d i -> entries d' i = entries d i.
Proof.
  intros Hk Hd. pose proof (count_size _ _ Hd) as Hc. unfold entries. apply list_fmap_ext. intros ? j Hj. apply list_elem_of_lookup_2, elem_of_seqZ in Hj.
  unfold dirent_at, file_bytes. apply list_fmap_ext. intros ? x Hx. apply list_elem_of_lookup_2, elem_of_seqZ in Hx. pose proof (id_size _ _ Hd).
  apply kept_byte; [done|klia|]. apply (id_full _ _ Hd). klia.
Qed.
Lemma kept_dir d d' i : file_kept d d' i -> is_dir d i -> is_dir d' i.
Proof. intros Hk [D1 D2 D3 D4]. split; try done. intros k Hkk. rewrite (kept_slot d d' i) by done. by apply D4. Qed.
Lemma file_kept_trans d1 d2 d3 i : file_kept d1 d2 i -> file_kept d2 d3 i -> file_kept d1 d3 i.
Proof. intros K1 K2 k Hk Hnz. rewrite <- K1 by done. rewrite <- (kept_slot d1 d2 i k) by done. apply K2; [done|]. by rewrite (kept_slot d1 d2 i k). Qed.

Lemma good_kept d d' b : bl_same d d' -> bl_held d' = bl_held d -> (block_used d sb b = true -> block_used d' sb b = true) -> good_block sb d b -> good_block sb d' b.
Proof. intros Hs Hh Hu (Hr & Hub & Hhome & Hnh & Hb). split_and!; try lia; try done; [by apply Hu|by eapply same_home|by rewrite Hh]. Qed.

(** Inodes by number. *)
Definition inum_ok (n : Z) : Prop := 0 <= n < sb_ninodes sb.
Definition inodes_fit : Prop := sb_ninodes sb <= 2^16 /\ 0 <= sb_inodestart sb < 2^31.

Lemma IBLOCK_split n m : inodes_fit -> inum_ok n -> inum_ok m -> n <> m -> IBLOCK m sb = IBLOCK n sb -> dinode_off m <> dinode_off n.
Proof.
  intros [Hs H0'] Hn Hm Hne. unfold inum_ok in *. unfold IBLOCK, dinode_off. change IPB with 16. change DINODE_SIZE with 64.
  pose proof (Z_div_mod_eq_full n 16). pose proof (Z_div_mod_eq_full m 16). pose proof (Z.div_pos n 16). pose proof (Z.div_pos m 16).
  rewrite !u32_id; [lia|..]; (split; [lia|]); assert (n / 16 <= n) by (apply Z.div_le_upper_bound; lia); assert (m / 16 <= m) by (apply Z.div_le_upper_bound; lia); lia.
Qed.

(** One inode was written. *)
Definition stored d d' (n : Z) i : Prop :=
  bl_view d' (IBLOCK n sb) = store_dinode i (dinode_off n) (bl_view d (IBLOCK n sb)) /\
  forall l, inum_ok l -> IBLOCK l sb <> IBLOCK n sb -> bl_view d' (IBLOCK l sb) = bl_view d (IBLOCK l sb).

Lemma stored_self d d' n i : stored d d' n i -> 0 <= n -> block_ok (bl_view d (IBLOCK n sb)) -> inode_range i -> same_dinode (idisk sb d' n) i.
Proof.
  intros [Hv _] Hn [Hl _] Hr. destruct (dinode_off_range n Hn). unfold idisk. rewrite Hv. apply load_store_dinode; [done|done|rewrite Hl; klia].
Qed.
Lemma stored_other d d' n i l : stored d d' n i -> inodes_fit -> inum_ok n -> inum_ok l -> l <> n -> block_ok (bl_view d (IBLOCK n sb)) -> inode_ok i ->
  idisk sb d' l = idisk sb d l.
Proof.
  intros [Hv Ho] Hfit Hn Hl Hne [Hlen _] Hok. unfold idisk. destruct (decide (IBLOCK l sb = IBLOCK n sb)) as [E|E]; [|by rewrite Ho].
  rewrite E, Hv. unfold inum_ok in *. apply load_other; try lia; try done. by apply IBLOCK_split.
Qed.

(** ** Steps on one entry of the table *)

Lemma fput_self s p : (p < length (f_itable s))%nat -> fput s p (f_blk s) (inode_at p s) = s.
Proof. intros Hp. unfold fput. rewrite list_insert_id by by apply inode_lookup. by destruct s. Qed.
Lemma fput_other s p q d i : p <> q -> inode_at q (fput s p d i) = inode_at q s.
Proof. intros Hne. unfold inode_at, fput. cbn. by apply list_lookup_total_insert_ne. Qed.
Lemma length_fput s p d i : length (f_itable (fput s p d i)) = length (f_itable s).
Proof. unfold fput. cbn. apply length_insert. Qed.

(** [iunlockput] of an inode that is not to be freed. *)
Lemma iunlockput_keep s p d i : (p < length (f_itable s))%nat -> 1 <= i_ref i -> i_nlink i <> 0 -> i_lock i = mkSleeplock true (f_pid s) ->
  wp (iunlockput p) (fput s p d i) (fun _ s' => s' = fput s p d (set_iref (i_ref i - 1) (set_ilock (mkSleeplock false 0) i))).
Proof.
  intros Hp Hr Hl Hlk. unfold iunlockput. apply wp_bind. assert (inode_at p (fput s p d i) = i) as Hat by by apply inode_at_fput.
  eapply wp_mono; [apply iunlock_wp; rewrite ?Hat; [by rewrite length_fput|done|rewrite Hlk; unfold holdingsleep; cbn; by rewrite Z.eqb_refl]|].
  intros ? ? ->. rewrite alter_fput by done. eapply wp_mono; [apply iput_drop; right; right; by rewrite inode_at_fput|]. intros ? ? ->. by rewrite alter_fput.
Qed.

(** The last two steps on the target: its inode with one link less is written, and given up. *)
Lemma target_written s ip d i c : (ip < length (f_itable s))%nat -> f_sb s = sb -> fs_ok sb d (c + 2) -> file_ok sb d i -> inum_ok (i_inum i) ->
  good_block sb d (IBLOCK (i_inum i) sb) -> (forall j, is_slot j -> slot d i j <> IBLOCK (i_inum i) sb) ->
  wp (iupdate ip) (fput s ip d i) (fun _ s' => exists d1, s' = fput s ip d1 i /\
    upd_post d d1 (IBLOCK (i_inum i) sb) (store_dinode i (dinode_off (i_inum i)) (bl_view d (IBLOCK (i_inum i) sb))) /\
    fs_ok sb d1 (c + 1) /\ file_ok sb d1 i /\ good_block sb d1 (IBLOCK (i_inum i) sb) /\ forall j, is_slot j -> slot d1 i j <> IBLOCK (i_inum i) sb).
Proof.
  intros Hip Esb Hfs Hf Hno HB Hns. unfold inum_ok in Hno. eapply wp_mono; [apply (iupdate_fput s ip Esb Hip d i (c + 2)); [done|done|apply Hno|done]|].
  intros ? ? (d1 & -> & Hp). exists d1. split; [done|]. split; [exact Hp|]. pose proof Hp as (Hs & Hv & Hh & _).
  assert (forall b, 0 <= b < sb_size sb -> block_used d1 sb b = block_used d sb b) as Hu by (intros b Hb; by apply (upd_used sb d d1 _ _ b HB Hp)).
  assert (file_kept d d1 i) as Hkp by (intros j Hj _; rewrite Hv, decide_False; [done|by apply Hns]). split_and!.
  - eapply (upd_fs sb d d1); [|exact HB|exact Hp]. eapply fs_ok_le; [|exact Hfs]. lia.
  - apply (kept_file d d1 i); try done. intros j Hj Hnz. destruct (fk_good _ _ _ Hf j Hj Hnz) as (Hrg & Hub & _). by rewrite Hu by lia.
  - eapply good_kept; [exact Hs|done| |exact HB]. destruct HB as (HBr & _). by rewrite Hu by lia.
  - intros j Hj. rewrite (kept_slot d d1 i) by done. by apply Hns.
Qed.

Lemma target_put s ip d i c : (ip < length (f_itable s))%nat -> f_sb s = sb -> fs_ok sb d (c + 1) -> (size (bitmap sb) <= c)%nat -> file_ok sb d i -> inum_ok (i_inum i) ->
  good_block sb d (IBLOCK (i_inum i) sb) -> (forall j, is_slot j -> slot d i j <> IBLOCK (i_inum i) sb) -> i_lock i = mkSleeplock true (f_pid s) -> 1 <= i_ref i ->
  let i2 := set_ilock (mkSleeplock false 0) i in
  wp (iunlockput ip) (fput s ip d i) (fun _ s' =>
    if (i_ref i =? 1) && i_valid i && (i_nlink i =? 0) then exists d', s' = fput s ip d' (reclaimed_inode i2) /\ reclaimed d i2 d'
    else s' = fput s ip d (set_iref (i_ref i - 1) i2)).
Proof.
  intros Hip Esb Hfs Hbm Hf Hno HB Hns Hlk Hr i2. unfold inum_ok in Hno. assert (file_ok sb d i2) as Hf2 by (destruct Hf; by split).
  unfold iunlockput. apply wp_bind. assert (inode_at ip (fput s ip d i) = i) as Hat by by apply inode_at_fput.
  eapply wp_mono; [apply iunlock_wp; rewrite ?Hat; [by rewrite length_fput|done|rewrite Hlk; unfold holdingsleep; cbn; by rewrite Z.eqb_refl]|].
  intros ? ? ->. rewrite alter_fput by done. fold i2. apply (iput_wp s ip Esb Hip d i2); try done.
  - eapply fs_ok_le; [|exact Hfs]. lia.
  - pose proof (fw_room _ _ _ Hfs). pose proof (size_union_alt (bl_txn d) (bitmap sb)). pose proof (subseteq_size (bitmap sb ∖ bl_txn d) (bitmap sb) ltac:(set_solver)). lia.
  - apply Hno.
Qed.
End unlink.
