(* ===== verification/FsTree.v ===== *)
(** * The file system as a tree, and removing a name from it

    [fs_tree]: the inodes in use, their files apart from each other and from
    the inodes, directories without holes and with every name once.
    [unlinked]: what removing a name leaves of it.  The lemmas follow the steps
    of the handler, from both inodes locked to the end of the transaction. *)
From S2P Require Import Prelude Params Sleeplock CString Interfaces Fs FsBlocks FsInode FsData FsWrite FsTrunc FsDir FsPath FsUnlink.

Section tree.
Context {D U : Type} `{BlockLaws D} `{UserMem U}.
Context (sb : superblock).
Implicit Types (d : D) (s : @fstate D U) (i : inode).
#[local] Notation inum_ok := (inum_ok sb).
#[local] Notation inodes_fit := (inodes_fit sb).
#[local] Notation stored := (stored sb).
#[local] Notation reclaimed := (reclaimed sb).

(** The names "." and "..". *)
Definition dots (name : bytes) : bool := same_name name [46; 0] || same_name name [46; 46; 0].

Record fs_tree d (live : Z -> Prop) : Prop := {
  ft_tree : tree_ok sb d live;
  ft_fit : inodes_fit;
  ft_inum : forall n, live n -> inum_ok n;
  ft_links : forall n, live n -> 1 <= i_nlink (idisk sb d n);
  ft_geom : alloc_geom d sb;
  ft_zero : 0 < sb_size sb /\ block_used d sb 0 = true;
  ft_file : forall n, live n -> file_ok sb d (idisk sb d n);
  ft_iblock : forall l, inum_ok l -> good_block sb d (IBLOCK l sb);
  ft_apart : forall n l k, live n -> inum_ok l -> is_slot k -> slot d (idisk sb d n) k <> IBLOCK l sb;
  ft_disjoint : forall n m k k', live n -> live m -> n <> m -> is_slot k -> is_slot k' ->
    slot d (idisk sb d n) k = slot d (idisk sb d m) k' -> slot d (idisk sb d n) k = 0;
  ft_dir : forall n, live n -> i_type (idisk sb d n) = T_DIR -> is_dir d (idisk sb d n) /\ names_once d (idisk sb d n);
  ft_subdir : forall n name m, live n -> i_type (idisk sb d n) = T_DIR -> dir_find d (idisk sb d n) name = Some m -> dots name = false ->
    i_type (idisk sb d m) = T_DIR -> n <> m /\ 2 <= i_nlink (idisk sb d n) }.

(** The same blocks, inside or outside a transaction. *)
Record alike d d' : Prop := {
  al_wf : bl_wf d';
  al_home : forall b, bl_home d b <-> bl_home d' b;
  al_view : forall b, bl_view d' b = bl_view d b;
  al_held : bl_held d' = bl_held d;
  al_txn : bl_txn d' = bl_txn d }.

Lemma alike_idisk d d' n : (forall b, bl_view d' b = bl_view d b) -> idisk sb d' n = idisk sb d n.
Proof. intros Hv. unfold idisk. by rewrite Hv. Qed.
Lemma alike_slot d d' i k : (forall b, bl_view d' b = bl_view d b) -> slot d' i k = slot d i k.
Proof. intros Hv. unfold slot, bmap_at. by rewrite Hv. Qed.
Lemma alike_used d d' b : (forall b, bl_view d' b = bl_view d b) -> block_used d' sb b = block_used d sb b.
Proof. intros Hv. unfold block_used. by rewrite Hv. Qed.
Lemma alike_dirent d d' i k : (forall b, bl_view d' b = bl_view d b) -> dirent_at d' i k = dirent_at d i k.
Proof. intros Hv. unfold dirent_at, file_bytes. apply list_fmap_ext. intros ? x _. unfold file_byte, bmap_at. by rewrite !Hv. Qed.
Lemma alike_entries d d' i : (forall b, bl_view d' b = bl_view d b) -> entries d' i = entries d i.
Proof. intros Hv. unfold entries. apply list_fmap_ext. intros ? k _. by apply alike_dirent. Qed.
Lemma alike_find d d' i name : (forall b, bl_view d' b = bl_view d b) -> dir_find d' i name = dir_find d i name.
Proof. intros Hv. unfold dir_find. by rewrite (alike_entries d d'). Qed.
Lemma alike_walk d d' es : (forall b, bl_view d' b = bl_view d b) -> forall n, walk sb d' n es = walk sb d n es.
Proof.
  intros Hv. induction es as [|e es IH]; intros n; [done|]. cbn [walk]. rewrite (alike_idisk d d'), (alike_find d d') by done.
  destruct (_ =? _); [|done]. by destruct (dir_find _ _ _).
Qed.
Lemma alike_target d d' parent n es : (forall b, bl_view d' b = bl_view d b) -> target sb d' parent n es = target sb d parent n es.
Proof.
  intros Hv. unfold target. destruct parent; [|by apply alike_walk]. destruct es as [|e es]; [done|]. rewrite (alike_walk d d') by done.
  destruct (walk _ _ _ _); [|done]. by rewrite (alike_idisk d d').
Qed.
(** Paths lead from inodes in use to inodes in use. *)
Lemma walk_live d live es : tree_ok sb d live -> forall n m, live n -> walk sb d n es = Some m -> live m.
Proof.
  intros Ht. induction es as [|e es IH]; intros n m Hn; cbn [walk]; [by intros [= <-]|].
  destruct (Z.eqb_spec (i_type (idisk sb d n)) T_DIR) as [Hty|]; [|done]. destruct (dir_find d (idisk sb d n) e) as [m'|] eqn:E; [|done].
  apply IH. by eapply (tk_closed _ _ _ Ht).
Qed.
Lemma parent_live d live n es m : tree_ok sb d live -> live n -> target sb d true n es = Some m -> live m /\ i_type (idisk sb d m) = T_DIR.
Proof.
  intros Ht Hn. unfold target. destruct es as [|e es]; [done|]. destruct (walk sb d n _) as [m'|] eqn:E; [|done].
  destruct (Z.eqb_spec (i_type (idisk sb d m')) T_DIR) as [Hty|]; [|done]. intros [= <-]. split; [by eapply walk_live|done].
Qed.
Lemma alike_read d d' b : alike d d' -> can_read d b -> can_read d' b.
Proof. intros [Hw Hh _ He Htx] (_ & Hb & Hn & Hr). split_and!; [done|by apply Hh|by rewrite He|by rewrite He, Htx]. Qed.
Lemma alike_good d d' b : alike d d' -> good_block sb d b -> good_block sb d' b.
Proof. intros [Hw Hh Hv He _] (Hr & Hu & Hb & Hn & Hnb). split_and!; try lia; try done; [by rewrite (alike_used d d')|by apply Hh|by rewrite He]. Qed.
Lemma alike_file d d' i : alike d d' -> file_ok sb d i -> file_ok sb d' i.
Proof.
  intros Ha [F1 F2 F3 F4]. pose proof (fun k => alike_slot d d' i k (al_view _ _ Ha)) as Hs. split; [done|done|..].
  - intros k Hk. rewrite Hs. intros Hnz. eapply alike_good; [done|]. by apply F3.
  - intros k k' Hk Hk'. rewrite !Hs. by apply F4.
Qed.
Lemma alike_dir_ok d d' i : alike d d' -> dir_ok d i -> dir_ok d' i.
Proof.
  intros Ha [T1 T2 T3 T4 T5 T6]. split; try done; [apply Ha|]. intros k Hk. destruct (T6 k Hk) as (M1 & M2 & M3 & M4).
  assert (forall j, bmap_at d' i j = bmap_at d i j) as E by (intros j; unfold bmap_at; by rewrite (al_view _ _ Ha)).
  split; [done|]. rewrite E. split; [done|]. split; [by eapply alike_read|]. intros Hge. eapply alike_read; [done|by apply M4].
Qed.

Lemma alike_tree d d' live : alike d d' -> fs_tree d live -> fs_tree d' live.
Proof.
  intros Ha [[T1 T2 T3 T4 T5] F2 F3 F4 [G1 G2 G3 G4] [Z1 Z2] F7 F8 F9 F10 F11 F12]. pose proof (al_view _ _ Ha) as Hv.
  pose proof (fun n => alike_idisk d d' n Hv) as Ei. pose proof (fun i k => alike_slot d d' i k Hv) as Es. split; try done; try setoid_rewrite Ei; try setoid_rewrite Es; try done.
  - split; try setoid_rewrite Ei; try done.
    + intros n Hn. destruct (T2 n Hn) as [? ?]. split; [done|]. by eapply alike_read.
    + intros n Hn Hty. eapply alike_dir_ok; [done|by apply T4].
    + intros n name m Hn Hty. rewrite (alike_find d d') by done. by apply T5.
  - split; try done.
    + intros b Hb. rewrite (al_held _ _ Ha). destruct (G3 b Hb). split; [by apply (al_home _ _ Ha)|done].
    + intros b Hb. rewrite (alike_used d d'), (al_held _ _ Ha) by done. intros Hu. destruct (G4 b Hb Hu) as (? & ? & ?). split_and!; [by apply (al_home _ _ Ha)|done..].
  - split; [done|]. by rewrite (alike_used d d').
  - intros n Hn. eapply alike_file; [done|by apply F7].
  - intros l Hl. eapply alike_good; [done|by apply F8].
  - intros n Hn Hty. destruct (F11 n Hn Hty) as [[D1 D2 D3 D4] Hu]. split.
    + split; try done. intros k Hk. rewrite Es. by apply D4.
    + intros name k k'. unfold entry_matches. rewrite !(alike_dirent d d') by done. apply Hu.
  - intros n name m Hn Hty. rewrite (alike_find d d') by done. by apply F12.
Qed.

(** The disk after name was removed from directory n, where it stood for m.
    last: it was the last link of m and nobody had m open. *)
Record unlinked d live (n m : Z) (name : bytes) (last : bool) d' : Prop := {
  ul_dir : is_dir d' (idisk sb d' n) /\ file_ok sb d' (idisk sb d' n);
  ul_name : dir_find d' (idisk sb d' n) name = None;
  ul_names : forall name', same_name name' name = false -> dir_find d' (idisk sb d' n) name' = dir_find d (idisk sb d n) name';
  ul_parent : i_nlink (idisk sb d' n) = i_nlink (idisk sb d n) - (if i_type (idisk sb d m) =? T_DIR then 1 else 0);
  ul_target : if last
    then i_type (idisk sb d' m) = 0 /\ forall b, 0 <= b < sb_size sb -> in_file d (idisk sb d m) b -> block_used d' sb b = false
    else same_dinode (idisk sb d' m) (set_inlink (i_nlink (idisk sb d m) - 1) (idisk sb d m)) /\ file_kept d d' (idisk sb d m);
  ul_used : forall b, 0 <= b < sb_size sb -> block_used d sb b = true -> ~ (last = true /\ in_file d (idisk sb d m) b) -> block_used d' sb b = true;
  ul_inodes : forall l, inum_ok l -> l <> n -> l <> m -> idisk sb d' l = idisk sb d l;
  ul_files : forall l, live l -> l <> n -> l <> m -> file_kept d d' (idisk sb d l) }.

(** The same removal, as seen before the transaction and after its end. *)
Lemma unlinked_commit d d1 d8 d9 live n m name last : alike d d1 -> fs_tree d1 live -> live n -> live m -> bl_same d1 d8 -> bl_held d9 = bl_held d8 ->
  (forall b, bl_home d8 b <-> bl_home d9 b) -> (forall b, bl_home d8 b -> bl_view d9 b = bl_view d8 b) ->
  unlinked d1 live n m name last d8 -> unlinked d live n m name last d9.
Proof.
  intros Ha Ht Hn Hm Hs Hh Hho Hv [[U1 U1'] U2 U3 Up U4 U5 U6 U7]. pose proof (al_view _ _ Ha) as Hv1.
  assert (forall l, inum_ok l -> idisk sb d9 l = idisk sb d8 l) as Ei.
  { intros l Hl. unfold idisk. rewrite Hv; [done|]. eapply same_home; [done|]. by apply (ft_iblock _ _ Ht). }
  assert (forall b, 0 <= b < sb_size sb -> block_used d9 sb b = block_used d8 sb b) as Eu.
  { intros b Hb. unfold block_used. rewrite Hv; [done|]. eapply same_home; [done|]. by apply (ag_bitmap _ _ (ft_geom _ _ Ht)). }
  assert (forall l, live l -> file_kept d1 d8 (idisk sb d1 l) -> file_kept d d9 (idisk sb d l)) as Ek.
  { intros l Hl Hk k Hsl. rewrite <- (alike_idisk d d1) by done. rewrite <- (alike_slot d d1) by done. intros Hnz. rewrite Hv; [rewrite Hk by done; apply Hv1|].
    eapply same_home; [done|]. by apply (fk_good _ _ _ (ft_file _ _ Ht l Hl)). }
  assert (file_kept d8 d9 (idisk sb d8 n)) as Kn by (intros k Hk Hnz; apply Hv; by apply (fk_good _ _ _ U1')).
  pose proof (ft_inum _ _ Ht n Hn) as Hno. pose proof (ft_inum _ _ Ht m Hm) as Hmo.
  assert (forall a, dir_find d9 (idisk sb d9 n) a = dir_find d8 (idisk sb d8 n) a) as Ef by (intros a; rewrite Ei by done; unfold dir_find; by rewrite (kept_entries d8 d9)).
  assert (forall b, in_file d (idisk sb d m) b <-> in_file d1 (idisk sb d1 m) b) as Ein.
  { intros b. unfold in_file. rewrite (alike_idisk d d1) by done. by setoid_rewrite (alike_slot d d1). }
  split.
  - rewrite Ei by done. split; [by eapply kept_dir|]. eapply kept_file_home; [exact Kn|intros b; apply Hho|done| |done]. intros k Hk Hnz.
    destruct (fk_good _ _ _ U1' k Hk Hnz) as (Hr & Hu & _). by rewrite Eu by lia.
  - by rewrite Ef.
  - intros a Hna. rewrite Ef, U3 by done. by rewrite (alike_find d d1), (alike_idisk d d1).
  - rewrite Ei, Up by done. by rewrite !(alike_idisk d d1).
  - destruct last; destruct U4 as [A1 A2]; rewrite Ei by done.
    + split; [done|]. intros b Hb Hin. rewrite Eu by done. apply A2; [done|]. by apply Ein.
    + rewrite <- (alike_idisk d d1) by done. split; [done|]. rewrite (alike_idisk d d1) by done. by apply Ek.
  - intros b Hb Hu Hl. rewrite Eu by done. apply U5; [done|by rewrite (alike_used d d1)|by rewrite <- Ein].
  - intros l Hl N1 N2. by rewrite Ei, U6, (alike_idisk d d1).
  - intros l Hl N1 N2. apply Ek; [done|]. by apply U7.
Qed.

Section steps.
Context (s0 : @fstate D U) (live : Z -> Prop) (Hsb : f_sb s0 = sb) (Ht : fs_tree (f_blk s0) live).
Context (n m : Z) (Hn : live n) (Hm : live m) (Hnm : n <> m) (dp ip : nat) (name : bytes) (k : Z).
Let d0 := f_blk s0.
Context (Hty : i_type (idisk sb d0 n) = T_DIR) (Hk : 0 <= k < count (idisk sb d0 n)) (Hmatch : entry_matches d0 (idisk sb d0 n) name k = true).

(** Both inodes are locked and in memory. *)
Record both_locked s : Prop := {
  bk_kept : kept sb s0 s (add_ref (single dp) ip) {[ip; dp]};
  bk_dp : on_disk s dp n;
  bk_ip : on_disk s ip m;
  bk_dir : same_dinode (inode_at dp s) (idisk sb d0 n);
  bk_file : same_dinode (inode_at ip s) (idisk sb d0 m);
  bk_valid : i_valid (inode_at dp s) = true /\ i_valid (inode_at ip s) = true }.

Lemma both_apart s : both_locked s -> dp <> ip.
Proof. intros [_ (_ & _ & E1) (_ & _ & E2) _ _ _] ->. congruence. Qed.

Lemma kept_dir_ok s p l e lk : kept sb s0 s e lk -> live l -> on_disk s p l -> same_dinode (inode_at p s) (idisk sb d0 l) ->
  file_ok sb (f_blk s) (inode_at p s) /\ good_block sb (f_blk s) (IBLOCK l sb) /\ (forall j, is_slot j -> slot (f_blk s) (inode_at p s) j <> IBLOCK l sb) /\
  (p < length (f_itable s))%nat.
Proof.
  intros Hkp Hl (Hin & Hr & Hi) Hs. pose proof (kp_blk _ _ _ _ _ Hkp) as Hro. pose proof (kp_dev _ _ _ _ _ Hkp p Hin ltac:(lia)) as Hdev.
  pose proof (ft_inum _ _ Ht l Hl) as Hlo. split_and!.
  - eapply file_ok_ro; [exact Hro|]. eapply file_same; [done|done|]. by apply (ft_file _ _ Ht).
  - eapply good_ro; [exact Hro|]. by apply (ft_iblock _ _ Ht).
  - intros j Hj. rewrite (slot_ro d0 (f_blk s)) by done. rewrite (slot_same _ _ _ _ Hs). by apply (ft_apart _ _ Ht).
  - by apply (kept_len _ _ _ _ _ _ Hkp).
Qed.

(** What the directory means, in the state s. *)
Lemma dir_in_memory s i : ro_post d0 (f_blk s) -> same_dinode i (idisk sb d0 n) ->
  is_dir (f_blk s) i /\ names_once (f_blk s) i /\ 0 <= k < count i /\ entry_matches (f_blk s) i name k = true /\
  forall name', dir_find (f_blk s) i name' = dir_find d0 (idisk sb d0 n) name'.
Proof.
  intros Hro Hs. destruct (ft_dir _ _ Ht n Hn Hty) as [[D1 D2 D3 D4] Hu].
  assert (forall j, dirent_at (f_blk s) i j = dirent_at d0 (idisk sb d0 n) j) as Ed by (intros j; by rewrite (ro_dirent d0 (f_blk s)), (dirent_same _ _ _ _ Hs)).
  assert (forall a j, entry_matches (f_blk s) i a j = entry_matches d0 (idisk sb d0 n) a j) as Em by (intros a j; unfold entry_matches; by rewrite Ed).
  assert (i_size i = i_size (idisk sb d0 n)) as Esz by apply Hs. assert (count i = count (idisk sb d0 n)) as Ec by (unfold count; by rewrite Esz).
  split_and!.
  - split; rewrite ?Esz; try done; [by replace (i_type i) with (i_type (idisk sb d0 n)) by (symmetry; apply Hs)|].
    intros x Hx. rewrite (slot_ro d0 (f_blk s)), (slot_same _ _ _ _ Hs) by done. by apply D4.
  - intros a j j'. rewrite Ec, !Em. apply Hu.
  - lia.
  - lia.
  - by rewrite Em.
  - intros a. unfold dir_find, entries. rewrite Ec. f_equal. apply list_fmap_ext. intros ? j _. apply Ed.
Qed.

Lemma clear_step s c : both_locked s -> fs_ok sb (f_blk s) (c + 8) ->
  wp (writei dp (KernSrc zero_dirent) (k * DIRENT_SIZE) DIRENT_SIZE) s (fun r s' => r = DIRENT_SIZE /\ exists d' i', s' = fput s dp d' i' /\
    wrote sb (f_blk s) (inode_at dp s) zero_dirent (k * DIRENT_SIZE) DIRENT_SIZE d' i' /\ fs_ok sb d' c).
Proof.
  intros [Hkp Hdp _ Hsd _ _] Hfs. destruct (kept_dir_ok s dp n _ _ Hkp Hn Hdp Hsd) as (Hf & HB & Hns & Hlt). destruct Hdp as (Hin & Hr & Hi).
  destruct (dir_in_memory s _ (kp_blk _ _ _ _ _ Hkp) Hsd) as (Hd & Hu & Hkc & Hme & _). destruct (kp_rest _ _ _ _ _ Hkp) as (Esb & _).
  pose proof (ft_inum _ _ Ht n Hn) as Hno. unfold inum_ok in Hno. rewrite <- (fput_self s dp) at 1 by done. rewrite <- Hi in HB, Hns, Hno.
  apply (clear_wp sb s dp (eq_trans Esb Hsb) Hlt (f_blk s) (inode_at dp s) name k c); (done || lia).
Qed.

(** *** The disk after each step *)

Lemma range_same i j : same_dinode i j -> inode_range j -> inode_range i.
Proof. intros (E1 & E2 & E3 & E4 & E5 & E6). unfold inode_range, inode_ok. by rewrite E1, E2, E3, E4, E5, E6. Qed.
Lemma idisk_range d l : bl_wf d -> bl_home d (IBLOCK l sb) -> inode_range (idisk sb d l).
Proof. intros Hwf Hh. apply load_range, (bl_view_ok d _ Hwf Hh). Qed.

Lemma wrote_range d i bs off r d' i' : sb_size sb < 2^31 -> inode_range i -> wrote sb d i bs off r d' i' -> off + r < 2^32 -> inode_range i'.
Proof.
  intros Hsz (_ & R2 & R3 & R4 & R5 & R6 & _) W Hle. destruct (wo_inode _ _ _ _ _ _ _ _ W) as (addrs & ->). pose proof (wo_file _ _ _ _ _ _ _ _ W) as Hf.
  set (i' := wrote_inode i _ addrs) in *. pose proof (fk_inode _ _ _ Hf) as Hok. split; [exact Hok|]. split; [exact R2|]. split; [exact R3|]. split; [exact R4|]. split; [exact R5|].
  split; [unfold i', wrote_inode; cbn [i_size]; lia|]. apply Forall_lookup. intros j a Ha. pose proof (lookup_lt_Some _ _ _ Ha) as Hlt. unfold inode_ok in Hok. rewrite Hok in Hlt.
  assert (exists q, is_slot q /\ slot d' i' q = a) as (q & Hq & Eq).
  { assert (i_addr i' (Z.of_nat j) = a) as E by (unfold i_addr; rewrite Nat2Z.id; by apply list_lookup_total_correct).
    destruct (decide (Z.of_nat j = NDIRECT)) as [Ej|Ej]; [exists (-1); split; [unfold is_slot; klia|]; by rewrite <- E, Ej|].
    exists (Z.of_nat j). split; [unfold is_slot; klia|]. unfold slot, bmap_at. replace (Z.of_nat j =? -1) with false by lia. by replace (Z.of_nat j <? NDIRECT) with true by klia. }
  destruct (decide (a = 0)) as [->|Hnz]; [lia|]. rewrite <- Eq in Hnz |- *. destruct (fk_good _ _ _ Hf q Hq Hnz) as (Hr & _). lia.
Qed.

Lemma upd_stored d d' l x i : upd_post d d' (IBLOCK l sb) x -> x = store_dinode i (dinode_off l) (bl_view d (IBLOCK l sb)) -> stored d d' l i.
Proof.
  intros (_ & Hv & _) ->. split; [by rewrite Hv, decide_True|]. intros l' _ Hne. by rewrite Hv, decide_False.
Qed.
(** The disk once the entry is cleared; i' is the directory's inode, with
    that many links. *)
Record removed (links : Z) d' i' : Prop := {
  rm_same : bl_same d0 d';
  rm_held : bl_held d' = bl_held d0;
  rm_used : forall b, 0 <= b < sb_size sb -> block_used d0 sb b = true -> block_used d' sb b = true;
  rm_stored : stored d0 d' n i';
  rm_range : inode_range i';
  rm_files : forall l, live l -> l <> n -> file_kept d0 d' (idisk sb d0 l);
  rm_file : file_ok sb d' i';
  rm_apart : forall l j, inum_ok l -> is_slot j -> slot d' i' j <> IBLOCK l sb;
  rm_fresh : forall l j j', live l -> l <> n -> is_slot j -> is_slot j' -> slot d' i' j <> 0 -> slot d0 (idisk sb d0 l) j' <> slot d' i' j;
  rm_links : i_nlink i' = links;
  rm_dir : is_dir d' i';
  rm_name : dir_find d' i' name = None;
  rm_names : forall name', same_name name' name = false -> dir_find d' i' name' = dir_find d0 (idisk sb d0 n) name' }.

Lemma clear_removed s d' i' : both_locked s -> wrote sb (f_blk s) (inode_at dp s) zero_dirent (k * DIRENT_SIZE) DIRENT_SIZE d' i' ->
  removed (i_nlink (idisk sb d0 n)) d' i'.
Proof.
  intros [Hkp Hdp _ Hsd _ _] W. pose proof (kp_blk _ _ _ _ _ Hkp) as Hro. pose proof Hro as (Hs0 & Hv0 & Hh0 & _).
  destruct (kept_dir_ok s dp n _ _ Hkp Hn Hdp Hsd) as (Hf & HB & Hns & Hlt). destruct Hdp as (Hin & Hr & Hi). set (i := inode_at dp s) in *. set (d := f_blk s) in *.
  destruct (dir_in_memory s i Hro Hsd) as (Hd & Hu & Hkc & Hme & Hfind). fold d in Hd, Hu, Hme, Hfind.
  assert (forall j, slot d i j = slot d0 (idisk sb d0 n) j) as Hsl by (intros j; by rewrite (slot_ro d0 d), (slot_same _ _ _ _ Hsd)).
  assert (forall b, block_used d sb b = block_used d0 sb b) as Hus by (intros b; unfold block_used; by rewrite Hv0).
  assert (forall b, good_block sb d0 b -> (forall j, is_slot j -> slot d0 (idisk sb d0 n) j <> b) -> b <> IBLOCK n sb -> bl_view d' b = bl_view d0 b) as Hframe.
  { intros b (Hb & Hbu & _ & _ & Hbb) Hbs Hne. rewrite <- Hv0. apply (wo_frame _ _ _ _ _ _ _ _ W); try done; [by rewrite Hus|intros j Hj; rewrite Hsl; by apply Hbs|by rewrite Hi]. }
  destruct (wrote_names sb s dp Hlt d i name k d' i' Hd Hu Hkc Hme W) as (N1 & N2 & N3). pose proof (count_size _ _ Hd) as Hc. split.
  - eapply same_trans; [exact Hs0|apply W].
  - rewrite (wo_held _ _ _ _ _ _ _ _ W). apply Hh0.
  - intros b Hb. rewrite <- Hus. by apply (wo_used _ _ _ _ _ _ _ _ W).
  - split; [pose proof (wo_disk _ _ _ _ _ _ _ _ W) as E; cbv zeta in E; by rewrite Hi, Hv0 in E|]. intros l Hl Hne.
    apply Hframe; [by apply (ft_iblock _ _ Ht)| |done]. intros j Hj. by apply (ft_apart _ _ Ht).
  - eapply wrote_range; [apply (ft_geom _ _ Ht)| |exact W|pose proof (id_size _ _ Hd); klia]. eapply range_same; [exact Hsd|]. apply idisk_range; [apply (tk_block _ _ _ (ft_tree _ _ Ht) n Hn)|].
    apply (ft_iblock _ _ Ht). by apply (ft_inum _ _ Ht).
  - intros l Hl Hne j Hj Hnz. apply Hframe.
    + by apply (ft_file _ _ Ht).
    + intros q Hq E. symmetry in E. by apply (ft_disjoint _ _ Ht l n j q) in E.
    + apply (ft_apart _ _ Ht); [done|by apply (ft_inum _ _ Ht)|done].
  - apply W.
  - intros l j Hl Hj E. destruct (ft_iblock _ _ Ht l Hl) as (Hbr & Hbu & _). destruct (decide (slot d i j = 0)) as [Hz|Hz].
    + pose proof (wo_new _ _ _ _ _ _ _ _ W j Hj Hz) as Hnew. rewrite E, Hus in Hnew. specialize (Hnew ltac:(lia)). unfold d0 in Hnew. congruence.
    + rewrite (wo_slots _ _ _ _ _ _ _ _ W j Hj Hz), Hsl in E. by apply (ft_apart _ _ Ht n l j).
  - intros l j j' Hl Hne Hj Hj' Hnz E. destruct (decide (slot d i j = 0)) as [Hz|Hz].
    + pose proof (wo_new _ _ _ _ _ _ _ _ W j Hj Hz Hnz) as Hnew. rewrite <- E in Hnz. pose proof (fk_good sb d0 _ (ft_file _ _ Ht l Hl) j' Hj' Hnz) as (_ & Hbu & _).
      rewrite <- E, Hus in Hnew. exact (eq_true_false_abs _ Hbu Hnew).
    + rewrite (wo_slots _ _ _ _ _ _ _ _ W j Hj Hz), Hsl in E, Hnz. rewrite <- E in Hnz. by apply Hnz, (ft_disjoint _ _ Ht l n j' j).
  - destruct (wo_inode _ _ _ _ _ _ _ _ W) as (addrs & ->). apply Hsd.
  - done.
  - done.
  - intros a Ha. rewrite N3 by done. apply Hfind.
Qed.

(** The directory loses a link, too, when the target is a directory. *)
Lemma parent_links links d6 i6 d7 : let i7 := set_inlink (i16 (i_nlink i6 - 1)) i6 in removed links d6 i6 -> 1 <= links ->
  upd_post d6 d7 (IBLOCK n sb) (store_dinode i7 (dinode_off n) (bl_view d6 (IBLOCK n sb))) -> removed (links - 1) d7 i7.
Proof.
  intros i7 R Hl P. pose proof (ft_inum _ _ Ht n Hn) as Hno. pose proof P as (Hs & Hv & Hh & _). pose proof (rm_range _ _ _ R) as (R1 & R2 & R3 & R4 & R5 & R6 & R7).
  pose proof (ft_iblock _ _ Ht n Hno) as HB0. assert (good_block sb d6 (IBLOCK n sb)) as HB by (eapply good_kept; [apply R|apply R| |exact HB0]; destruct HB0 as (Hr & _); apply R; lia).
  assert (forall b, 0 <= b < sb_size sb -> block_used d7 sb b = block_used d6 sb b) as Hu by (intros b Hb; by apply (upd_used sb d6 d7 _ _ b HB P)).
  assert (file_kept d6 d7 i6) as Hk6 by (intros j Hj _; rewrite Hv, decide_False; [done|by apply R]).
  assert (forall j, slot d7 i7 j = slot d6 i6 j) as Hsl by (intros j; exact (kept_slot d6 d7 i6 j Hk6)).
  assert (file_ok sb d7 i6) as Hf7.
  { eapply kept_file; [exact Hk6|done|done| |apply R]. intros j Hj Hnz. destruct (fk_good _ _ _ (rm_file _ _ _ R) j Hj Hnz) as (Hr & Hub & _). by rewrite Hu by lia. }
  assert (forall a, dir_find d7 i7 a = dir_find d6 i6 a) as Hfind by (intros a; unfold dir_find; f_equal; exact (kept_entries d6 d7 i6 Hk6 (rm_dir _ _ _ R))). split.
  - eapply same_trans; [apply R|exact Hs].
  - rewrite Hh. apply R.
  - intros b Hb Hub. rewrite Hu by done. by apply R.
  - destruct (rm_stored _ _ _ R) as [V0 V1]. split.
    + rewrite Hv, decide_True, V0 by done. destruct (dinode_off_range n (proj1 Hno)). apply store_store; [exact R1|exact R1|done|].
      assert (block_ok (bl_view d0 (IBLOCK n sb))) as [Hlen _] by (apply bl_view_ok; [apply (tk_block _ _ _ (ft_tree _ _ Ht) n Hn)|apply HB0]). rewrite Hlen. klia.
    + intros l Hlo Hne. rewrite Hv, decide_False by done. by apply V1.
  - split; [exact R1|]. split; [exact R2|]. split; [exact R3|]. split; [exact R4|]. split; [apply i16_range|]. by split.
  - intros l Hlv Hne j Hj Hnz. rewrite Hv, decide_False; [by apply R|]. by apply (ft_apart _ _ Ht).
  - destruct Hf7. by split.
  - intros l j Hlo Hj. rewrite Hsl. by apply R.
  - intros l j j' Hlv Hne Hj Hj'. rewrite Hsl. by apply R.
  - change (i16 (i_nlink i6 - 1) = links - 1). rewrite (rm_links _ _ _ R) in *. apply i16_id. lia.
  - destruct (kept_dir d6 d7 i6 Hk6 (rm_dir _ _ _ R)). by split.
  - rewrite Hfind. apply R.
  - intros a Hna. rewrite Hfind. by apply R.
Qed.

Lemma is_dir_same d i j : same_dinode i j -> is_dir d j -> is_dir d i.
Proof.
  intros Hs [D1 D2 D3 D4]. pose proof Hs as (Et & _ & _ & _ & Es & _). split; rewrite ?Et, ?Es; try done. intros x Hx. rewrite (slot_same _ _ _ _ Hs). by apply D4.
Qed.

(** From the cleared entry to the end: what later steps must leave. *)
Lemma removed_unlinked links d6 i6 d' (last : bool) : removed links d6 i6 -> links = i_nlink (idisk sb d0 n) - (if i_type (idisk sb d0 m) =? T_DIR then 1 else 0) -> same_dinode (idisk sb d' n) i6 -> file_kept d6 d' i6 -> file_ok sb d' i6 ->
  (if last
   then i_type (idisk sb d' m) = 0 /\ forall b, 0 <= b < sb_size sb -> in_file d0 (idisk sb d0 m) b -> block_used d' sb b = false
   else same_dinode (idisk sb d' m) (set_inlink (i_nlink (idisk sb d0 m) - 1) (idisk sb d0 m)) /\ file_kept d0 d' (idisk sb d0 m)) ->
  (forall b, 0 <= b < sb_size sb -> block_used d6 sb b = true -> ~ (last = true /\ in_file d0 (idisk sb d0 m) b) -> block_used d' sb b = true) ->
  (forall l, inum_ok l -> l <> n -> l <> m -> idisk sb d' l = idisk sb d6 l) -> (forall l, live l -> l <> n -> l <> m -> file_kept d6 d' (idisk sb d0 l)) ->
  unlinked d0 live n m name last d'.
Proof.
  intros R Hlinks Hs Hk6 Hf6 Htg Hus Hin Hfl. assert (forall a, dir_find d' (idisk sb d' n) a = dir_find d6 i6 a) as Hfind.
  { intros a. rewrite (dir_find_same _ _ _ _ Hs). unfold dir_find. by rewrite (kept_entries d6 d' i6 Hk6 (rm_dir _ _ _ R)). }
  assert (forall l, inum_ok l -> l <> n -> idisk sb d6 l = idisk sb d0 l) as Hother.
  { intros l Hl Hne. pose proof (ft_inum _ _ Ht n Hn) as Hno. eapply stored_other; [apply (rm_stored _ _ _ R)|apply Ht|done|done|done| |apply (rm_range _ _ _ R)].
    apply bl_view_ok; [apply (tk_block _ _ _ (ft_tree _ _ Ht) n Hn)|by apply (ft_iblock _ _ Ht)]. }
  split.
  - split; [eapply is_dir_same; [exact Hs|]; eapply kept_dir; [exact Hk6|apply R]|]. eapply file_same; [exact Hs|done|exact Hf6].
  - rewrite Hfind. apply R.
  - intros a Ha. rewrite Hfind. by apply R.
  - rewrite <- Hlinks, <- (rm_links _ _ _ R). apply Hs.
  - exact Htg.
  - intros b Hb Hu Hno. apply Hus; [done|by apply R|done].
  - intros l Hl H1n H2n. rewrite Hin, Hother; done.
  - intros l Hl H1n H2n. eapply file_kept_trans; [by apply (rm_files _ _ _ R)|]. by apply Hfl.
Qed.

(** *** The inode table at the end *)

Lemma itable_insert t p j j' : itable_ok t -> t !! p = Some j -> i_dev j' = i_dev j -> i_inum j' = i_inum j -> 0 <= i_ref j' <= i_ref j -> inode_ok j' -> itable_ok (<[p := j']> t).
Proof.
  intros Ht' Hj Ed Ei Hr Hok. rewrite list_insert_alter. apply (itable_alter t p (fun _ => j') j); try done; [lia|].
  intros Hpos q x Hne Hx Hrx [E1 E2]. apply Hne. apply (it_uniq _ Ht' q p x j); (done || lia || congruence).
Qed.

(** References, locks and the rest of the state are as they were in s0, and the
    table agrees with the disk. *)
Record restored s' : Prop := {
  rs_rest : f_sb s' = f_sb s0 /\ f_pid s' = f_pid s0 /\ f_cwd s' = f_cwd s0 /\ f_user s' = f_user s0;
  rs_ref : forall q, in_table q -> i_ref (inode_at q s') = i_ref (inode_at q s0);
  rs_id : forall q, in_table q -> 0 < i_ref (inode_at q s0) -> i_inum (inode_at q s') = i_inum (inode_at q s0);
  rs_kept : kept sb s' s' none ∅ }.

Context (Htab : forall q, in_table q -> 0 < i_ref (inode_at q s0) -> inum_ok (i_inum (inode_at q s0))).
Context (Hr0 : forall q, in_table q -> 0 <= i_ref (inode_at q s0)).

Lemma table_after s d6 i8 d8 j8 : both_locked s -> bl_wf d8 ->
  i_dev i8 = ROOTDEV -> i_inum i8 = n -> i_ref i8 = i_ref (inode_at dp s) - 1 -> inode_ok i8 -> sl_locked (i_lock i8) = false -> same_dinode i8 (idisk sb d8 n) ->
  i_dev j8 = ROOTDEV -> i_inum j8 = m -> i_ref j8 = i_ref (inode_at ip s) - 1 -> inode_ok j8 -> sl_locked (i_lock j8) = false ->
  (i_valid j8 = true -> same_dinode j8 (idisk sb d8 m)) -> (forall l, inum_ok l -> l <> n -> l <> m -> idisk sb d8 l = idisk sb d0 l) ->
  restored (fput (fput s dp d6 i8) ip d8 j8).
Proof.
  intros Hb Hwf A1 A2 A3 A4 A5 A6 B1 B2 B3 B4 B5 B6 Hoth. pose proof (both_apart s Hb) as Hne. destruct Hb as [Hkp (Hdin & Hdr & Hdi) (Hiin & Hir & Hinum) _ _ _].
  set (s' := fput (fput s dp d6 i8) ip d8 j8). pose proof Hkp as [_ K2 K3 K4 K5 K6 K7 K8]. pose proof (fun q => kept_len _ _ _ _ _ q Hkp) as Hlen.
  pose proof (proj1 (Hlen dp) Hdin) as Hdl. pose proof (proj1 (Hlen ip) Hiin) as Hil.
  assert (forall q, inode_at q s' = if decide (q = ip) then j8 else if decide (q = dp) then i8 else inode_at q s) as Hat.
  { intros q. unfold s'. destruct (decide (q = ip)) as [->|N1]; [apply inode_at_fput; by rewrite length_fput|]. rewrite fput_other by done.
    destruct (decide (q = dp)) as [->|N2]; [by apply inode_at_fput|by rewrite fput_other]. }
  assert (itable_ok (f_itable s')) as Hit.
  { unfold s', fput. cbn [f_itable set_blk set_itable]. eapply itable_insert; [eapply itable_insert; [exact K3|by apply inode_lookup|..]| |..].
    - rewrite A1. symmetry. by apply K6; [|lia].
    - congruence.
    - lia.
    - done.
    - rewrite list_lookup_insert_ne by done. by apply inode_lookup.
    - rewrite B1. symmetry. by apply K6; [|lia].
    - congruence.
    - lia.
    - done. }
  assert (forall q, in_table q -> q <> ip -> q <> dp -> i_ref (inode_at q s) = i_ref (inode_at q s0)) as Hrq.
  { intros q Hq N1 N2. rewrite K4 by done. unfold add_ref, single. rewrite !decide_False by done. lia. }
  split; [done| | |split].
  - intros q Hq. rewrite Hat. repeat (case_decide; [subst q|]); [rewrite B3, K4 by done|rewrite A3, K4 by done|by apply Hrq]; unfold add_ref, single.
    + rewrite decide_True, decide_False by done. lia.
    + rewrite decide_False, decide_True by done. lia.
  - intros q Hq Hpos. rewrite Hat. repeat (case_decide; [subst q|]); [rewrite B2, <- Hinum|rewrite A2, <- Hdi|]; by apply K5.
  - by apply ro_refl.
  - done.
  - exact Hit.
  - intros q Hq. unfold none. lia.
  - done.
  - intros q Hq. rewrite Hat. repeat (case_decide; [subst q|]); [done|done|]. by apply K6.
  - intros q Hq. rewrite Hat. change (f_blk s') with d8. repeat (case_decide; [subst q|]); [intros _; rewrite B2; exact B6|intros _ _; by rewrite A2|].
    intros Hpos Hv. assert (i_inum (inode_at q s) <> n /\ i_inum (inode_at q s) <> m) as [N1 N2].
    { assert (forall p, in_table p -> 1 <= i_ref (inode_at p s) -> q <> p -> i_inum (inode_at q s) <> i_inum (inode_at p s)) as Hu.
      { intros p Hp Hrp Hqp E. apply Hqp. eapply (it_uniq _ K3 q p); [by apply inode_lookup, Hlen|by apply inode_lookup, Hlen|lia|lia| |done]. rewrite !K6; (done || lia). }
      rewrite <- Hdi, <- Hinum. split; apply Hu; done. }
    pose proof (Hrq q Hq ltac:(done) ltac:(done)) as Er. rewrite Hoth; [by apply K7| |done|done]. rewrite K5 by (done || lia). apply Htab; (done || lia).
  - intros q Hq. unfold lock_ok. rewrite decide_False by set_solver. rewrite Hat. repeat (case_decide; [subst q|]); [done|done|]. specialize (K8 q Hq). unfold lock_ok in K8. rewrite decide_False in K8 by set_solver. done.
Qed.
(** The target's inode, in the entry i of the table. *)
Context (i : inode) (Hsi : same_dinode i (idisk sb d0 m)) (Hii : i_inum i = m).
Let i1 := set_inlink (i16 (i_nlink i - 1)) i.
Let i2 := set_ilock (mkSleeplock false 0) i1.

Lemma target_range : inode_range i1.
Proof.
  assert (inode_range i) as (R1 & R2 & R3 & R4 & R5 & R6 & R7).
  { eapply range_same; [exact Hsi|]. apply idisk_range; [apply (tk_block _ _ _ (ft_tree _ _ Ht) n Hn)|]. apply (ft_iblock _ _ Ht). by apply (ft_inum _ _ Ht). }
  split; [exact R1|]. split; [exact R2|]. split; [exact R3|]. split; [exact R4|]. split; [apply i16_range|]. by split.
Qed.

Lemma target_links : same_dinode i1 (set_inlink (i_nlink (idisk sb d0 m) - 1) (idisk sb d0 m)).
Proof.
  pose proof (ft_links _ _ Ht m Hm) as Hl. destruct Hsi as (E1 & E2 & E3 & E4 & E5 & E6).
  assert (inode_range (idisk sb d0 m)) as (_ & _ & _ & _ & R5 & _).
  { apply idisk_range; [apply (tk_block _ _ _ (ft_tree _ _ Ht) n Hn)|]. apply (ft_iblock _ _ Ht). by apply (ft_inum _ _ Ht). }
  repeat split; try done. change (i16 (i_nlink i - 1) = i_nlink (idisk sb d0 m) - 1). rewrite E4. apply i16_id. fold d0 in Hl. lia.
Qed.

Section written.
Context (links : Z) (d6 d7 : D) (i6 : inode) (R : removed links d6 i6) (Hlinks : links = i_nlink (idisk sb d0 n) - (if i_type (idisk sb d0 m) =? T_DIR then 1 else 0)).
Context (P : upd_post d6 d7 (IBLOCK m sb) (store_dinode i1 (dinode_off m) (bl_view d6 (IBLOCK m sb)))).

Lemma removed_good l : inum_ok l -> good_block sb d6 (IBLOCK l sb).
Proof.
  intros Hl. pose proof (ft_iblock _ _ Ht l Hl) as HB. eapply good_kept; [apply R|apply R| |exact HB]. destruct HB as (Hb & _). apply R. lia.
Qed.

Lemma written_used b : 0 <= b < sb_size sb -> block_used d7 sb b = block_used d6 sb b.
Proof. intros Hb. eapply upd_used; [apply (removed_good m); by apply (ft_inum _ _ Ht)|exact P|done]. Qed.

Lemma written_facts : stored d6 d7 m i1 /\ same_dinode (idisk sb d7 m) i1 /\ same_dinode (idisk sb d7 n) i6 /\
  (forall l, inum_ok l -> l <> m -> idisk sb d7 l = idisk sb d6 l) /\ file_kept d6 d7 i6 /\ (forall l, live l -> l <> n -> file_kept d6 d7 (idisk sb d0 l)).
Proof.
  assert (stored d6 d7 m i1) as St by by eapply upd_stored. pose proof (ft_inum _ _ Ht m Hm) as Hmo. pose proof (ft_inum _ _ Ht n Hn) as Hno.
  assert (forall l, inum_ok l -> block_ok (bl_view d6 (IBLOCK l sb))) as Hbk.
  { intros l Hl. apply bl_view_ok; [eapply same_wf; apply R|by apply removed_good]. }
  assert (forall l, inum_ok l -> l <> m -> idisk sb d7 l = idisk sb d6 l) as Ho.
  { intros l Hl Hne. eapply stored_other; [exact St|apply Ht|done|done|done|by apply Hbk|apply target_range]. }
  split; [done|]. split; [eapply stored_self; [exact St|apply Hmo|by apply Hbk|apply target_range]|]. split.
  { rewrite Ho by done. eapply stored_self; [apply (rm_stored _ _ _ R)|apply Hno| |apply R].
    apply bl_view_ok; [apply (tk_block _ _ _ (ft_tree _ _ Ht) n Hn)|by apply (ft_iblock _ _ Ht)]. }
  split; [done|]. destruct P as (_ & Hv & _). split.
  - intros j Hj Hnz. rewrite Hv, decide_False; [done|]. by apply R.
  - intros l Hl Hne j Hj. rewrite (kept_slot d0 d6) by by apply R. intros Hnz. rewrite Hv, decide_False; [done|]. by apply (ft_apart _ _ Ht).
Qed.

(** Other links, or other references, remain. *)
Lemma unlinked_kept : unlinked d0 live n m name false d7.
Proof.
  destruct written_facts as (_ & Sm & Sn & Ho & K6 & Kl). assert (file_ok sb d7 i6) as Hf7.
  { destruct P as (Hs & _ & Hh & _). eapply kept_file; [exact K6|done|done| |apply R]. intros j Hj Hnz. destruct (fk_good _ _ _ (rm_file _ _ _ R) j Hj Hnz) as (Hr & Hu & _). by rewrite written_used by lia. }
  eapply removed_unlinked; try done.
  - split.
    + destruct Sm as (A1 & A2 & A3 & A4 & A5 & A6), target_links as (B1 & B2 & B3 & B4 & B5 & B6). split_and!; etransitivity; eassumption.
    + eapply file_kept_trans; [apply (rm_files _ _ _ R)|apply Kl]; done.
  - intros b Hb Hu _. by rewrite written_used.
  - intros l Hl _ Hne. by apply Ho.
  - intros l Hl Hne _. by apply Kl.
Qed.

Lemma target_in_file b : in_file d7 i2 b <-> in_file d0 (idisk sb d0 m) b.
Proof.
  destruct written_facts as (_ & _ & _ & _ & _ & Kl). assert (forall j, slot d7 i2 j = slot d0 (idisk sb d0 m) j) as E.
  { intros j. change (slot d7 i j = slot d0 (idisk sb d0 m) j). rewrite (slot_same _ _ _ _ Hsi). apply kept_slot. eapply file_kept_trans; [apply (rm_files _ _ _ R)|apply Kl]; done. }
  unfold in_file. split; intros (Hb & j & Hj & Ej); (split; [done|]; exists j; split; [done|]); [by rewrite <- E|by rewrite E].
Qed.

Lemma bad_bitmap d b : good_block sb d b -> ~ in_bitmap sb b.
Proof. intros (_ & _ & _ & _ & Hb) (b' & Hb' & E). by apply (Hb b'). Qed.

(** The inode and its blocks went back. *)
Lemma unlinked_last d8 : reclaimed d7 i2 d8 -> unlinked d0 live n m name true d8 /\ same_dinode (idisk sb d8 n) i6.
Proof.
  intros C. destruct written_facts as (St & Sm & Sn & Ho & K6 & Kl). pose proof (ft_inum _ _ Ht m Hm) as Hmo. pose proof (ft_inum _ _ Ht n Hn) as Hno.
  assert (forall l, inum_ok l -> good_block sb d7 (IBLOCK l sb)) as HB7.
  { intros l Hl. pose proof (removed_good l Hl) as HB. destruct P as (Hs & _ & Hh & _). eapply good_kept; [exact Hs|exact Hh| |exact HB]. destruct HB as (Hb & _). by rewrite written_used by lia. }
  assert (forall f, file_ok sb d7 f -> (forall j, is_slot j -> slot d7 f j <> IBLOCK m sb) -> file_kept d7 d8 f) as Hkeep.
  { intros f Hf Hns j Hj Hnz. apply (rc_frame _ _ _ _ C); [eapply bad_bitmap; by apply (fk_good _ _ _ Hf)|]. change (i_inum i2) with (i_inum i). rewrite Hii. by apply Hns. }
  assert (forall f d, file_kept d d7 f -> file_ok sb d f -> bl_same d d7 -> bl_held d7 = bl_held d -> (forall b, 0 <= b < sb_size sb -> block_used d sb b = true -> block_used d7 sb b = true) -> file_ok sb d7 f) as Hfile.
  { intros f d Hk1 Hf Hs Hh Hu. eapply kept_file; [exact Hk1|done|done| |done]. intros j Hj Hnz. destruct (fk_good _ _ _ Hf j Hj Hnz) as (Hr & Hub & _). apply Hu; [lia|done]. }
  pose proof P as (Hs67 & _ & Hh67 & _). assert (stored d7 d8 m (set_itype 0 (emptied i2))) as St8.
  { split; [pose proof (rc_disk _ _ _ _ C) as E; cbv zeta in E; change (i_inum i2) with (i_inum i) in E; by rewrite Hii in E|]. intros l Hl Hne.
    apply (rc_frame _ _ _ _ C); [by eapply bad_bitmap, HB7|]. change (i_inum i2) with (i_inum i). by rewrite Hii. }
  assert (block_ok (bl_view d7 (IBLOCK m sb))) as Hbk by (apply bl_view_ok; [eapply same_wf; exact Hs67|by apply HB7]).
  assert (inode_range (set_itype 0 (emptied i2))) as Hrg.
  { destruct target_range as (R1 & _ & R3 & R4 & R5 & _ & _). split; [done|]. split; [cbn; lia|]. split; [exact R3|]. split; [exact R4|]. split; [exact R5|]. split; [cbn; lia|].
    unfold emptied, wrote_inode, set_itype. cbn [i_addrs]. apply Forall_replicate. lia. }
  assert (forall l, inum_ok l -> l <> m -> idisk sb d8 l = idisk sb d7 l) as Ho8 by (intros l Hl Hne; eapply stored_other; [exact St8|apply Ht|done|done|done|done|apply Hrg]).
  assert (file_ok sb d7 i6) as Hf7 by (apply (Hfile i6 d6); try done; [apply R|intros b Hb; by rewrite written_used]).
  assert (file_kept d7 d8 i6) as K68 by (apply Hkeep; [done|]; intros j Hj; rewrite (kept_slot d6 d7) by done; by apply R).
  split; [|by rewrite Ho8]. eapply removed_unlinked; [exact R|exact Hlinks|..].
  - by rewrite Ho8.
  - by eapply file_kept_trans.
  - eapply kept_file; [exact K68|apply C|apply C| |exact Hf7]. intros j Hj Hnz. destruct (fk_good _ _ _ Hf7 j Hj Hnz) as (Hr & Hu & _). rewrite (rc_used _ _ _ _ C); [done|lia|].
    rewrite target_in_file. intros (_ & j' & Hj' & E). rewrite (kept_slot d6 d7) in E, Hnz by done. by apply (rm_fresh _ _ _ R m j j') in E.
  - split; [by destruct (stored_self sb d7 d8 m _ St8 (proj1 Hmo) Hbk Hrg)|]. intros b Hb Hin. apply (rc_free _ _ _ _ C); [done|]. by apply target_in_file.
  - intros b Hb Hu Hno'. rewrite (rc_used _ _ _ _ C), written_used; [done|done|done|]. rewrite target_in_file. tauto.
  - intros l Hl _ Hne. by rewrite Ho8, Ho.
  - intros l Hl Hne Hnm'. eapply file_kept_trans; [by apply Kl|]. assert (file_kept d0 d7 (idisk sb d0 l)) as K07 by (eapply file_kept_trans; [by apply (rm_files _ _ _ R)|by apply Kl]).
    apply Hkeep; [apply (Hfile _ d0); try done|].
    + by apply (ft_file _ _ Ht).
    + eapply same_trans; [apply R|done].
    + rewrite Hh67. apply R.
    + intros b Hb Hu. rewrite written_used by done. by apply R.
    + intros j Hj. rewrite (kept_slot d0 d7) by done. by apply (ft_apart _ _ Ht).
Qed.
End written.

End steps.

(** Inode m is open in some entry of the table. *)
Definition in_use s (m : Z) : bool := existsb (fun i => (0 <? i_ref i) && (i_inum i =? m)) (f_itable s).

Section finish.
Context (s0 : @fstate D U) (live : Z -> Prop) (Hsb : f_sb s0 = sb) (Ht : fs_tree (f_blk s0) live).
Context (Htab : forall q, in_table q -> 0 < i_ref (inode_at q s0) -> inum_ok (i_inum (inode_at q s0))).
Context (Hr0 : forall q, in_table q -> 0 <= i_ref (inode_at q s0)) (Hit0 : itable_ok (f_itable s0)).
Context (n m : Z) (Hn : live n) (Hm : live m) (Hnm : n <> m) (dp ip : nat) (name : bytes) (k : Z).
Let d0 := f_blk s0.
Context (Hty : i_type (idisk sb d0 n) = T_DIR) (Hk : 0 <= k < count (idisk sb d0 n)) (Hmatch : entry_matches d0 (idisk sb d0 n) name k = true).
Context (s : @fstate D U) (Hb : both_locked s0 n m dp ip s).

Lemma ref_in_use : (i_ref (inode_at ip s) =? 1) = negb (in_use s0 m).
Proof.
  pose proof (both_apart _ _ _ Hnm _ _ _ Hb) as Hne. destruct Hb as [Hkp _ (Hin & Hr & Hi) _ _ _]. pose proof Hkp as [_ _ K3 K4 K5 K6 _ _].
  pose proof (K4 ip Hin) as Er. unfold add_ref, single in Er. rewrite decide_True, decide_False in Er by done. specialize (Hr0 ip Hin).
  pose proof (it_len _ Hit0) as Hlen0. destruct (Z.eqb_spec (i_ref (inode_at ip s)) 1) as [E|E]; symmetry.
  - apply negb_true_iff. apply not_true_is_false. intros (x & Hx & Hc)%existsb_exists. apply list_elem_of_In, list_elem_of_lookup in Hx as (q & Hq).
    apply andb_true_iff in Hc as [Hpos%Z.ltb_lt Em%Z.eqb_eq]. pose proof (lookup_lt_Some _ _ _ Hq) as Hql. assert (in_table q) as Hqin by (unfold in_table; lia).
    assert (inode_at q s0 = x) as Ex by by apply list_lookup_total_correct. subst x. destruct (decide (q = ip)) as [->|Hqi]; [lia|].
    assert (i_ref (inode_at q s0) <= i_ref (inode_at q s)) as Hge by (rewrite K4 by done; unfold add_ref, single; repeat case_decide; lia).
    apply Hqi. eapply (it_uniq _ K3 q ip); [apply inode_lookup; by apply (kept_len _ _ _ _ _ _ Hkp)|apply inode_lookup; by apply (kept_len _ _ _ _ _ _ Hkp)|lia|lia|rewrite !K6; (done || lia)|].
    rewrite K5 by done. congruence.
  - apply negb_false_iff, existsb_exists. exists (inode_at ip s0). split; [apply list_elem_of_In, (list_elem_of_lookup_2 _ ip), inode_lookup; unfold in_table in Hin; lia|].
    apply andb_true_iff. split; [apply Z.ltb_lt; lia|]. apply Z.eqb_eq. rewrite <- Hi. symmetry. apply K5; [done|lia].
Qed.

(** The state at the end of the transaction. *)
Record finished (last : bool) s' : Prop := {
  fi_table : restored s0 s';
  fi_disk : unlinked d0 live n m name last (f_blk s');
  fi_same : bl_same d0 (f_blk s');
  fi_held : bl_held (f_blk s') = bl_held d0;
  fi_fs : fs_ok sb (f_blk s') 0 }.

(** The directory's entry in the table, its disk fields aside. *)
Record dir_entry i6 : Prop := {
  dn_inum : i_inum i6 = n;
  dn_ref : i_ref i6 = i_ref (inode_at dp s);
  dn_lock : i_lock i6 = i_lock (inode_at dp s) }.

Lemma clear_entry d6 i6 : wrote sb (f_blk s) (inode_at dp s) zero_dirent (k * DIRENT_SIZE) DIRENT_SIZE d6 i6 -> dir_entry i6.
Proof. intros W. destruct (wo_inode _ _ _ _ _ _ _ _ W) as (addrs & ->). destruct Hb as [_ (_ & _ & E) _ _ _ _]. by split. Qed.

Context (links : Z) (d6 : D) (i6 : inode) (R : removed s0 live n name links d6 i6) (De : dir_entry i6).
Context (Hlinks : links = i_nlink (idisk sb d0 n) - (if i_type (idisk sb d0 m) =? T_DIR then 1 else 0)) (Hl1 : links <> 0).
Let i := inode_at ip s.
Let i1 := set_inlink (i16 (i_nlink i - 1)) i.
Let i8 := set_iref (i_ref i6 - 1) (set_ilock (mkSleeplock false 0) i6).
Let s7 := fput s dp d6 i8.

Lemma locked_both : i_lock (inode_at dp s) = mkSleeplock true (f_pid s) /\ i_lock i = mkSleeplock true (f_pid s).
Proof.
  destruct Hb as [Hkp (Hd & _) (Hi & _) _ _ _]. destruct (kp_rest _ _ _ _ _ Hkp) as (_ & Ep & _). pose proof (kp_lock _ _ _ _ _ Hkp) as Hl. unfold lock_ok in Hl.
  split; [specialize (Hl dp Hd)|specialize (Hl ip Hi)]; rewrite decide_True in Hl by set_solver; by rewrite Ep.
Qed.

Lemma dir_put : wp (iunlockput dp) (fput s dp d6 i6) (fun _ s' => s' = s7).
Proof.
  destruct locked_both as [Hl _]. destruct De as [_ Er El]. destruct Hb as [Hkp (Hd & Hr & _) _ _ _ _].
  apply iunlockput_keep; [by apply (kept_len _ _ _ _ _ _ Hkp)|by rewrite Er|by rewrite (rm_links _ _ _ _ _ _ _ R)|by rewrite El].
Qed.

Lemma target_entry : s7 = fput s7 ip d6 i /\ (ip < length (f_itable s7))%nat /\ f_sb s7 = sb.
Proof.
  pose proof (both_apart _ _ _ Hnm _ _ _ Hb) as Hne. destruct Hb as [Hkp _ (Hi & _) _ _ _]. assert ((ip < length (f_itable s7))%nat) as Hlt by (unfold s7; rewrite length_fput; by apply (kept_len _ _ _ _ _ _ Hkp)).
  split; [|split; [done|]].
  - rewrite <- (fput_self s7 ip) at 1 by done. f_equal. unfold s7. by rewrite fput_other.
  - destruct (kp_rest _ _ _ _ _ Hkp) as (E & _). change (f_sb s7) with (f_sb s). congruence.
Qed.

Lemma target_facts : file_ok sb d6 i1 /\ i_inum i = m /\ inum_ok m /\ good_block sb d6 (IBLOCK m sb) /\
  forall j, is_slot j -> slot d6 i1 j <> IBLOCK m sb.
Proof.
  pose proof (ft_inum _ _ Ht m Hm) as Hmo.
  destruct Hb as [Hkp _ (Hi & Hr & Ei) _ Hs _]. assert (file_kept d0 d6 (idisk sb d0 m)) as Kp by (apply (rm_files _ _ _ _ _ _ _ R); [done|congruence]).
  assert (i_dev i = ROOTDEV) as Hdev by exact (kp_dev _ _ _ _ _ Hkp ip Hi (Z.lt_le_trans 0 1 _ eq_refl Hr)).
  assert (forall j, slot d6 i1 j = slot d0 (idisk sb d0 m) j) as Hsl by (intros j; change (slot d6 i j = slot d0 (idisk sb d0 m) j); by rewrite (slot_same _ _ _ _ Hs), (kept_slot d0 d6)).
  split; [|split_and!; try done].
  - assert (file_ok sb d6 i) as Hfi.
    { eapply file_same; [exact Hs|done|]. eapply kept_file; [exact Kp|apply R|apply R| |by apply (ft_file _ _ Ht)].
      intros j Hj Hnz. pose proof (fk_good sb d0 _ (ft_file _ _ Ht m Hm) j Hj Hnz) as (Hrg & Hu & _). apply (rm_used _ _ _ _ _ _ _ R); [split; [apply Z.lt_le_incl, Hrg|apply Hrg]|exact Hu]. }
    destruct Hfi. by split.
  - eapply (removed_good s0 live Ht n name links d6 i6 R m Hmo).
  - intros j Hj. rewrite Hsl. by apply (ft_apart _ _ Ht).
Qed.

Definition was_last : bool := (i_nlink (idisk sb d0 m) =? 1) && negb (in_use s0 m).

(** The inode with one link less is on disk. *)
Record relinked (c : nat) d7 : Prop := {
  rl_disk : upd_post d6 d7 (IBLOCK m sb) (store_dinode i1 (dinode_off m) (bl_view d6 (IBLOCK m sb)));
  rl_fs : fs_ok sb d7 (c + 1);
  rl_file : file_ok sb d7 i1;
  rl_good : good_block sb d7 (IBLOCK m sb);
  rl_apart : forall j, is_slot j -> slot d7 i1 j <> IBLOCK m sb }.

Lemma target_update c : fs_ok sb d6 (c + 2) -> wp (iupdate ip) (fput s7 ip d6 i1) (fun _ s' => exists d7, s' = fput s7 ip d7 i1 /\ relinked c d7).
Proof.
  intros Hfs. destruct target_facts as (Hf & Hi & Hmo & HB & Hns). destruct target_entry as (_ & Hlt & Esb).
  assert (i_inum i1 = m) as Hi1 by exact Hi. pose proof (target_written sb s7 ip d6 i1 c Hlt Esb Hfs Hf) as Hw. rewrite Hi1 in Hw.
  eapply wp_mono; [by apply Hw|]. intros ? ? (d7 & -> & H1' & H2' & H3' & H4' & H5'). exists d7. split; [done|]. by split.
Qed.

Lemma same_dinode_sym a b : same_dinode a b -> same_dinode b a.
Proof. intros (E1 & E2 & E3 & E4 & E5 & E6). by repeat split. Qed.

Lemma table_end d8 j8 : bl_wf d8 -> same_dinode (idisk sb d8 n) i6 -> i_dev j8 = ROOTDEV -> i_inum j8 = m -> i_ref j8 = i_ref i - 1 -> inode_ok j8 ->
  sl_locked (i_lock j8) = false -> (i_valid j8 = true -> same_dinode j8 (idisk sb d8 m)) ->
  (forall l, inum_ok l -> l <> n -> l <> m -> idisk sb d8 l = idisk sb d0 l) -> restored s0 (fput s7 ip d8 j8).
Proof.
  intros Hwf Hs Hd Hi Hr Hok Hl Hv Ho. pose proof (rm_file _ _ _ _ _ _ _ R) as Hf. destruct De as [En Er El].
  apply (table_after s0 live Hsb Ht n m Hn Hm Hnm dp ip name k Hty Hk Hmatch Htab Hr0 s d6 i8 d8 j8); try done.
  - apply (fk_dev _ _ _ Hf).
  - change (i_ref i6 - 1 = i_ref (inode_at dp s) - 1). by rewrite Er.
  - apply (fk_inode _ _ _ Hf).
  - by apply same_dinode_sym in Hs.
Qed.

Lemma target_gone c d7 : relinked c d7 -> (size (bitmap sb) <= c)%nat -> wp (iunlockput ip) (fput s7 ip d7 i1) (fun _ s' => finished was_last s').
Proof.
  intros [P Hfs Hf HB Hns] Hbm. destruct target_facts as (_ & Hi & Hmo & _ & _). destruct target_entry as (_ & Hlt & Esb). destruct locked_both as [_ Hl].
  pose proof Hb as [Hkp _ (Hin & Hr & _) _ Hsi [_ Hv]]. pose proof ref_in_use as Hlast. assert (i_inum i1 = m) as Hi1 by exact Hi.
  pose proof (target_put sb s7 ip d7 i1 c Hlt Esb Hfs Hbm Hf) as Hw. rewrite Hi1 in Hw. eapply wp_mono; [apply (Hw Hmo HB Hns); [exact Hl|exact Hr]|].
  pose proof (target_links s0 live Ht n m Hn Hm i Hsi) as Hlk. assert (i_nlink i1 = i_nlink (idisk sb d0 m) - 1) as En by apply Hlk.
  change (i_ref i1) with (i_ref (inode_at ip s)). change (i_valid i1) with (i_valid (inode_at ip s)). rewrite Hlast, Hv, En, andb_true_r.
  replace (i_nlink (idisk sb d0 m) - 1 =? 0) with (i_nlink (idisk sb d0 m) =? 1) by (apply eq_iff_eq_true; rewrite !Z.eqb_eq; lia).
  rewrite andb_comm. fold was_last. intros ? s' Hres.
  destruct (written_facts s0 live Ht n m Hn Hm Hnm name i Hsi links d6 d7 i6 R P) as (_ & Sm & Sn & _).
  pose proof P as (Hs67 & _ & Hh67 & _). assert (bl_same d0 d7) as Hs07 by (eapply same_trans; [apply R|exact Hs67]).
  assert (bl_held d7 = bl_held d0) as Hh07 by (rewrite Hh67; apply R). destruct was_last.
  - destruct Hres as (d8 & -> & C). destruct (unlinked_last s0 live Ht n m Hn Hm Hnm name k Hk i Hsi Hi links d6 d7 i6 R Hlinks P d8 C) as [Ul Sn8]. split.
    + apply table_end; try done; [eapply same_wf, C|apply (fk_dev _ _ _ Hf)|apply (ul_inodes _ _ _ _ _ _ _ Ul)].
    + exact Ul.
    + eapply same_trans; [exact Hs07|apply C].
    + etransitivity; [apply (rc_held _ _ _ _ C)|done].
    + apply C.
  - subst s'. pose proof (unlinked_kept s0 live Ht n m Hn Hm Hnm name i Hsi links d6 d7 i6 R Hlinks P) as Ul. split; try done.
    + apply table_end; try done; [apply Hfs|apply (fk_dev _ _ _ Hf)|apply (fk_inode _ _ _ Hf)|intros _; by apply same_dinode_sym in Sm|apply (ul_inodes _ _ _ _ _ _ _ Ul)].
    + eapply fs_ok_le; [|exact Hfs]. lia.
Qed.
End finish.
End tree.
