(* ===== verification/FsLink.v ===== *)
(** * Adding a name to the tree

    [tree_step]: the tree after one inode was rewritten.  [relinked]: after the
    links of a file were counted; [entered]: after a directory got a new entry.
    The inode table is followed from one such state to the next. *)
From S2P Require Import Prelude Params Sleeplock CString Interfaces Fs FsBlocks FsInode FsData FsWrite FsTrunc FsDir FsPath FsUnlink FsTree.

Section link.
Context {D U : Type} `{BlockLaws D} `{UserMem U}.
Context (sb : superblock).
Implicit Types (d : D) (s : @fstate D U) (i : inode).
#[local] Notation inum_ok := (inum_ok sb).
#[local] Notation fs_tree := (fs_tree sb).

(** ** The tree after one inode was rewritten *)

Lemma dir_readable d i : (forall b, good_block sb d b -> can_read d b) -> bl_wf d -> file_ok sb d i -> is_dir d i -> dir_ok d i.
Proof.
  intros Hcr Hwf Hf [Ht Hs Hm Hfull]. split; [done|apply Hf|klia|done|done|]. intros k Hk. pose proof (block_of k ltac:(lia)) as Hb. specialize (Hfull k Hk).
  assert (is_slot (k / BSIZE)) as Hsl by (unfold is_slot; lia). split; [lia|]. rewrite bmap_slot by lia. split; [done|]. split; [by apply Hcr, (fk_good _ _ _ Hf)|].
  intros Hge. apply Hcr. change (good_block sb d (slot d i (-1))). apply (fk_good _ _ _ Hf); [unfold is_slot; klia|]. intros E. apply Hfull.
  change (i_addr i NDIRECT = 0) in E. unfold slot, bmap_at. replace (k / BSIZE =? -1) with false by lia. replace (k / BSIZE <? NDIRECT) with false by lia. by rewrite E.
Qed.

(** Everything but inode n, which is now i', is as in the tree d. *)
Record rewritten d live (n : Z) d' i' : Prop := {
  rw_home : forall b, bl_home d b -> bl_home d' b;
  rw_held : bl_held d' = bl_held d;
  rw_used : forall b, 0 <= b < sb_size sb -> block_used d sb b = true -> block_used d' sb b = true;
  rw_inodes : forall l, inum_ok l -> l <> n -> idisk sb d' l = idisk sb d l;
  rw_files : forall l, live l -> l <> n -> file_kept d d' (idisk sb d l);
  rw_self : same_dinode (idisk sb d' n) i';
  rw_file : file_ok sb d' i';
  rw_apart : forall l j, inum_ok l -> is_slot j -> slot d' i' j <> IBLOCK l sb;
  rw_fresh : forall l j j', live l -> l <> n -> is_slot j -> is_slot j' -> slot d' i' j <> 0 -> slot d (idisk sb d l) j' <> slot d' i' j }.

Section step.
Context (d d' : D) (live : Z -> Prop) (n : Z) (i' : inode) (Ht : fs_tree d live) (R : rewritten d live n d' i').
Context (Hwf : bl_wf d') (Hroom : (size (bl_txn d') + size (bl_held d') < NBUF)%nat).
Context (Hty : i_type i' = i_type (idisk sb d n)) (Hlk : 1 <= i_nlink i') (Hdl : i_type i' = T_DIR -> i_nlink (idisk sb d n) <= i_nlink i').
Context (Hdir : i_type i' = T_DIR -> is_dir d' i' /\ names_once d' i' /\
  forall name m, dir_find d' i' name = Some m -> dir_find d (idisk sb d n) name = Some m \/ live m /\ i_type (idisk sb d m) <> T_DIR).

Lemma step_good b : good_block sb d b -> good_block sb d' b.
Proof. intros (Hr & Hu & Hh & Hnh & Hb). split_and!; try lia; try done; [by apply R; [lia|]|by apply R|by rewrite (rw_held _ _ _ _ _ R)]. Qed.
Lemma step_read b : good_block sb d' b -> can_read d' b.
Proof. intros (_ & _ & Hh & Hnh & _). by split_and!. Qed.

Lemma step_file l : live l -> file_ok sb d' (idisk sb d' l).
Proof.
  intros Hl. destruct (decide (l = n)) as [->|Hne]; [by eapply file_same; [apply R| |apply R]|]. rewrite (rw_inodes _ _ _ _ _ R) by (done || by apply (ft_inum _ _ _ Ht)).
  eapply kept_file_home; [by apply (rw_files _ _ _ _ _ R)|apply R|apply R| |by apply (ft_file _ _ _ Ht)].
  intros k Hk Hnz. destruct (fk_good _ _ _ (ft_file _ _ _ Ht l Hl) k Hk Hnz) as (Hr & Hu & _). apply R; [lia|done].
Qed.

Lemma step_slot l k : live l -> l <> n -> slot d' (idisk sb d' l) k = slot d (idisk sb d l) k.
Proof. intros Hl Hne. rewrite (rw_inodes _ _ _ _ _ R) by (done || by apply (ft_inum _ _ _ Ht)). by apply kept_slot, R. Qed.
Lemma step_slot_n k : slot d' (idisk sb d' n) k = slot d' i' k.
Proof. apply slot_same, R. Qed.

(** Types stay; links of directories do not become fewer. *)
Lemma step_type l : live l -> i_type (idisk sb d' l) = i_type (idisk sb d l).
Proof.
  intros Hl. destruct (decide (l = n)) as [->|Hne]; [|by rewrite (rw_inodes _ _ _ _ _ R) by (done || by apply (ft_inum _ _ _ Ht))].
  rewrite <- Hty. apply (rw_self _ _ _ _ _ R).
Qed.
Lemma step_links l : live l -> 1 <= i_nlink (idisk sb d' l).
Proof.
  intros Hl. destruct (decide (l = n)) as [->|Hne]; [by replace (i_nlink (idisk sb d' n)) with (i_nlink i') by (symmetry; apply R)|].
  rewrite (rw_inodes _ _ _ _ _ R) by (done || by apply (ft_inum _ _ _ Ht)). by apply (ft_links _ _ _ Ht).
Qed.

Lemma step_dir l : live l -> i_type (idisk sb d' l) = T_DIR -> is_dir d' (idisk sb d' l) /\ names_once d' (idisk sb d' l).
Proof.
  intros Hl Hd. destruct (decide (l = n)) as [->|Hne].
  - pose proof (rw_self _ _ _ _ _ R) as Hs. assert (i_type i' = T_DIR) as Hi by (rewrite <- Hd; symmetry; apply Hs). destruct (Hdir Hi) as (D1 & D2 & _).
    split; [by eapply is_dir_same|]. intros a k k'. assert (count (idisk sb d' n) = count i') as -> by (unfold count; by replace (i_size (idisk sb d' n)) with (i_size i') by (symmetry; apply Hs)).
    unfold entry_matches. rewrite !(dirent_same _ _ _ _ Hs). apply D2.
  - rewrite step_type in Hd by done. rewrite (rw_inodes _ _ _ _ _ R) by (done || by apply (ft_inum _ _ _ Ht)). destruct (ft_dir _ _ _ Ht l Hl Hd) as [D1 D2].
    pose proof (rw_files _ _ _ _ _ R l Hl Hne) as Hk. split; [by eapply kept_dir|]. pose proof (kept_entries d d' _ Hk D1) as E.
    intros a k k' Hkc Hkc'. assert (forall j, 0 <= j < count (idisk sb d l) -> dirent_at d' (idisk sb d l) j = dirent_at d (idisk sb d l) j) as Ed.
    { intros j Hj. pose proof (entries_lookup d' (idisk sb d l) j Hj) as E1. rewrite E, entries_lookup in E1 by done. congruence. }
    unfold entry_matches. rewrite !Ed by done. by apply D2.
Qed.

Lemma step_find l name m : live l -> i_type (idisk sb d' l) = T_DIR -> dir_find d' (idisk sb d' l) name = Some m ->
  dir_find d (idisk sb d l) name = Some m \/ live m /\ i_type (idisk sb d m) <> T_DIR.
Proof.
  intros Hl Hd. destruct (decide (l = n)) as [->|Hne].
  - rewrite (dir_find_same _ _ _ _ (rw_self _ _ _ _ _ R)). apply Hdir. rewrite <- Hd. symmetry. apply (rw_self _ _ _ _ _ R).
  - rewrite step_type in Hd by done. rewrite (rw_inodes _ _ _ _ _ R) by (done || by apply (ft_inum _ _ _ Ht)). destruct (ft_dir _ _ _ Ht l Hl Hd) as [D1 D2].
    unfold dir_find. rewrite (kept_entries d d') by (done || by apply (rw_files _ _ _ _ _ R)). by left.
Qed.

Lemma tree_step : fs_tree d' live.
Proof.
  destruct (ft_geom _ _ _ Ht) as [G1 G2 G3 G4]. split.
  - split; [apply (ft_tree _ _ _ Ht)|..].
    + intros l Hl. pose proof (ft_inum _ _ _ Ht l Hl) as Hlo. split; [apply Hlo|]. by apply step_read, step_good, (ft_iblock _ _ _ Ht).
    + intros l Hl. rewrite step_type by done. pose proof (step_links l Hl). split; [by apply (tk_used _ _ _ (ft_tree _ _ _ Ht))|lia].
    + intros l Hl Hd. apply dir_readable; [apply step_read|done|by apply step_file|by apply step_dir].
    + intros l name m Hl Hd Hf. destruct (step_find l name m Hl Hd Hf) as [Hf'|[Hm _]]; [|done]. rewrite step_type in Hd by done. by eapply (tk_closed _ _ _ (ft_tree _ _ _ Ht)).
  - apply Ht.
  - apply Ht.
  - exact step_links.
  - split; [done|done|..].
    + intros b Hb. rewrite (rw_held _ _ _ _ _ R). destruct (G3 b Hb). split; [by apply R|done].
    + intros b Hb Hu. rewrite (rw_held _ _ _ _ _ R). assert (block_used d sb b = false) as Hu0 by (destruct (block_used d sb b) eqn:E; [by rewrite (rw_used _ _ _ _ _ R) in Hu|done]).
      destruct (G4 b Hb Hu0) as (A1 & A2 & A3). split_and!; [by apply R|done|done].
  - destruct (ft_zero _ _ _ Ht) as [Z1 Z2]. split; [done|]. apply R; [lia|done].
  - exact step_file.
  - intros l Hl. by apply step_good, (ft_iblock _ _ _ Ht).
  - intros l l' k Hl Hl' Hk. destruct (decide (l = n)) as [->|Hne]; [rewrite step_slot_n; by apply R|]. rewrite step_slot by done. by apply (ft_apart _ _ _ Ht).
  - intros l l' k k' Hl Hl' Hne Hk Hk'. destruct (decide (l = n)) as [->|N1], (decide (l' = n)) as [->|N2]; [done|..].
    + rewrite step_slot_n, step_slot by done. intros E. destruct (decide (slot d' i' k = 0)) as [|Hnz]; [done|]. by destruct (rw_fresh _ _ _ _ _ R l' k k' Hl' N2 Hk Hk' Hnz).
    + rewrite step_slot_n, step_slot by done. intros E. destruct (decide (slot d' i' k' = 0)) as [Hz|Hnz]; [by rewrite E|]. by destruct (rw_fresh _ _ _ _ _ R l k' k Hl N1 Hk' Hk Hnz).
    + rewrite !step_slot by done. by apply (ft_disjoint _ _ _ Ht).
  - exact step_dir.
  - intros l name m Hl Hd Hf Hdots Hdm. assert (live m) as Hm.
    { destruct (step_find l name m Hl Hd Hf) as [Hf'|[? _]]; [|done]. rewrite step_type in Hd by done. by eapply (tk_closed _ _ _ (ft_tree _ _ _ Ht)). }
    rewrite step_type in Hdm by done. destruct (step_find l name m Hl Hd Hf) as [Hf'|[_ ?]]; [|done]. pose proof Hd as Hd0. rewrite step_type in Hd0 by done.
    destruct (ft_subdir _ _ _ Ht l name m Hl Hd0 Hf' Hdots Hdm) as [Hlm Hl2]. split; [done|]. destruct (decide (l = n)) as [->|Hne].
    + pose proof (rw_self _ _ _ _ _ R) as Hs. assert (i_type i' = T_DIR) as Hi by (rewrite <- Hd; symmetry; apply Hs). specialize (Hdl Hi).
      replace (i_nlink (idisk sb d' n)) with (i_nlink i') by (symmetry; apply Hs). lia.
    + by rewrite (rw_inodes _ _ _ _ _ R) by (done || by apply (ft_inum _ _ _ Ht)).
Qed.
End step.

(** ** The links of a file *)

Section relink.
Context (d d' : D) (live : Z -> Prop) (m L : Z) (i1 : inode) (Ht : fs_tree d live) (Hm : live m).
Context (Hs : same_dinode i1 (set_inlink L (idisk sb d m))) (Hdev : i_dev i1 = ROOTDEV) (Hr : inode_range i1).
Context (P : upd_post d d' (IBLOCK m sb) (store_dinode i1 (dinode_off m) (bl_view d (IBLOCK m sb)))).

Lemma relink_kept l : live l -> file_kept d d' (idisk sb d l).
Proof. intros Hl k Hk _. destruct P as (_ & Hv & _). rewrite Hv, decide_False; [done|]. apply (ft_apart _ _ _ Ht); [done|by apply (ft_inum _ _ _ Ht)|done]. Qed.

Lemma relink_used b : 0 <= b < sb_size sb -> block_used d' sb b = block_used d sb b.
Proof. intros Hb. eapply upd_used; [apply (ft_iblock _ _ _ Ht); by apply (ft_inum _ _ _ Ht)|exact P|done]. Qed.

Lemma relink_slot j : slot d' i1 j = slot d (idisk sb d m) j.
Proof. rewrite (slot_same _ _ _ _ Hs). exact (kept_slot d d' (idisk sb d m) j (relink_kept m Hm)). Qed.

Lemma relink_rewritten : rewritten d live m d' i1.
Proof.
  pose proof (ft_inum _ _ _ Ht m Hm) as Hmo. pose proof (ft_iblock _ _ _ Ht m Hmo) as HB. pose proof P as (Hsm & _ & Hh & _).
  assert (block_ok (bl_view d (IBLOCK m sb))) as Hbk by (apply bl_view_ok; [apply (tk_block _ _ _ (ft_tree _ _ _ Ht) m Hm)|apply HB]).
  assert (stored sb d d' m i1) as St by by eapply upd_stored. split.
  - intros b. by apply same_home.
  - done.
  - intros b Hb. by rewrite relink_used.
  - intros l Hl Hne. eapply stored_other; [exact St|apply Ht|done|done|done|done|apply Hr].
  - intros l Hl _. by apply relink_kept.
  - eapply stored_self; [exact St|apply Hmo|done|done].
  - eapply file_same; [exact Hs|done|]. assert (file_ok sb d' (idisk sb d m)) as [F1 F2 F3 F4]; [|by split].
    eapply kept_file; [by apply relink_kept|done|done| |by apply (ft_file _ _ _ Ht)]. intros k Hk Hnz.
    destruct (fk_good _ _ _ (ft_file _ _ _ Ht m Hm) k Hk Hnz) as (Hb & Hu & _). by rewrite relink_used by lia.
  - intros l j Hl Hj. rewrite relink_slot. by apply (ft_apart _ _ _ Ht).
  - intros l j j' Hl Hne Hj Hj'. rewrite relink_slot. intros Hnz E. apply Hnz. rewrite <- E. by apply (ft_disjoint _ _ _ Ht l m j' j).
Qed.

Lemma relink_tree : i_type (idisk sb d m) <> T_DIR -> 1 <= L -> (size (bl_txn d') + size (bl_held d') < NBUF)%nat -> fs_tree d' live.
Proof.
  intros Hty HL Hroom. assert (i_type i1 = i_type (idisk sb d m)) as Et by apply Hs. assert (i_nlink i1 = L) as El by apply Hs.
  apply (tree_step d d' live m i1 Ht relink_rewritten); try done; [by eapply same_wf; apply P|lia|congruence|congruence].
Qed.
End relink.

(** What each step leaves of the disk. *)

(** Nothing that means anything. *)
Record unmoved d (live : Z -> Prop) d' : Prop := {
  um_inodes : forall l, inum_ok l -> idisk sb d' l = idisk sb d l;
  um_files : forall l, live l -> file_kept d d' (idisk sb d l);
  um_used : forall b, 0 <= b < sb_size sb -> block_used d' sb b = block_used d sb b }.

(** Only the number of links of m. *)
Record relinked d (live : Z -> Prop) (m L : Z) d' : Prop := {
  rl_inodes : forall l, inum_ok l -> l <> m -> idisk sb d' l = idisk sb d l;
  rl_self : same_dinode (idisk sb d' m) (set_inlink L (idisk sb d m));
  rl_files : forall l, live l -> file_kept d d' (idisk sb d l);
  rl_used : forall b, 0 <= b < sb_size sb -> block_used d' sb b = block_used d sb b }.

(** Only the directory n, which has the new entry when r is 0. *)
Record entered d (live : Z -> Prop) (n : Z) (name : bytes) (m r : Z) d' : Prop := {
  en_inodes : forall l, inum_ok l -> l <> n -> idisk sb d' l = idisk sb d l;
  en_files : forall l, live l -> l <> n -> file_kept d d' (idisk sb d l);
  en_used : forall b, 0 <= b < sb_size sb -> block_used d sb b = true -> block_used d' sb b = true;
  en_links : i_nlink (idisk sb d' n) = i_nlink (idisk sb d n);
  en_dir : is_dir d' (idisk sb d' n);
  en_map : if decide (r = 0)
    then dir_find d' (idisk sb d' n) name = Some m /\ forall a, same_name a name = false -> dir_find d' (idisk sb d' n) a = dir_find d (idisk sb d n) a
    else r = -1 /\ (forall a, dir_find d' (idisk sb d' n) a = dir_find d (idisk sb d n) a) /\ forall b, 0 <= b < sb_size sb -> block_used d' sb b = true }.

Lemma view_unmoved d d' live : (forall b, bl_view d' b = bl_view d b) -> unmoved d live d'.
Proof. intros Hv. split; [intros l _; by apply alike_idisk|intros l _ k _ _; by apply Hv|intros b _; by apply alike_used]. Qed.
Lemma commit_unmoved d d' live : fs_tree d live -> (forall b, bl_home d b -> bl_view d' b = bl_view d b) -> unmoved d live d'.
Proof.
  intros Ht Hv. split.
  - intros l Hl. unfold idisk. rewrite Hv; [done|]. by apply (ft_iblock _ _ _ Ht).
  - intros l Hl k Hk Hnz. apply Hv. by apply (fk_good _ _ _ (ft_file _ _ _ Ht l Hl)).
  - intros b Hb. unfold block_used. rewrite Hv; [done|]. by apply (ag_bitmap _ _ (ft_geom _ _ _ Ht)).
Qed.
Lemma relink_relinked d d' live m L i1 : fs_tree d live -> live m -> same_dinode i1 (set_inlink L (idisk sb d m)) -> i_dev i1 = ROOTDEV -> inode_range i1 ->
  upd_post d d' (IBLOCK m sb) (store_dinode i1 (dinode_off m) (bl_view d (IBLOCK m sb))) -> relinked d live m L d'.
Proof.
  intros Ht Hm Hs Hdev Hr P. pose proof (relink_rewritten d d' live m L i1 Ht Hm Hs Hdev Hr P) as R. split.
  - apply R.
  - destruct (rw_self _ _ _ _ _ R) as (?&?&?&?&?&?), Hs as (?&?&?&?&?&?). repeat split; congruence.
  - intros l Hl. by apply (relink_kept d d' live m i1).
  - intros b Hb. by apply (relink_used d d' live m i1).
Qed.

Lemma kept_addrs d d' i j : i_addrs i = i_addrs j -> file_kept d d' i -> file_kept d d' j.
Proof. intros E Hk k Hsl. assert (slot d i k = slot d j k) as Es by (unfold slot, bmap_at, i_addr; by rewrite E). rewrite <- Es. by apply Hk. Qed.

Section compose.
Context (d d1 d2 : D) (live : Z -> Prop) (Ht : fs_tree d live).

Lemma unmoved_trans : unmoved d live d1 -> unmoved d1 live d2 -> unmoved d live d2.
Proof.
  intros [A1 A2 A3] [B1 B2 B3]. split; [intros l Hl; by rewrite B1, A1| |intros b Hb; by rewrite B3, A3].
  intros l Hl. eapply file_kept_trans; [by apply A2|]. rewrite <- A1 by by apply (ft_inum _ _ _ Ht). by apply B2.
Qed.
Lemma unmoved_relinked m L : live m -> unmoved d live d1 -> relinked d1 live m L d2 -> relinked d live m L d2.
Proof.
  intros Hm [A1 A2 A3] [B1 B2 B3 B4]. pose proof (ft_inum _ _ _ Ht m Hm). split.
  - intros l Hl Hne. by rewrite B1, A1.
  - by rewrite <- A1.
  - intros l Hl. eapply file_kept_trans; [by apply A2|]. rewrite <- A1 by by apply (ft_inum _ _ _ Ht). by apply B3.
  - intros b Hb. by rewrite B4, A3.
Qed.
Lemma relinked_unmoved m L : live m -> relinked d live m L d1 -> unmoved d1 live d2 -> relinked d live m L d2.
Proof.
  intros Hm [A1 A2 A3 A4] [B1 B2 B3]. pose proof (ft_inum _ _ _ Ht m Hm). split.
  - intros l Hl Hne. by rewrite B1, A1.
  - by rewrite B1.
  - intros l Hl. eapply file_kept_trans; [by apply A3|]. apply (kept_addrs _ _ (idisk sb d1 l)); [|by apply B2]. destruct (decide (l = m)) as [->|Hne]; [apply A2|].
    by rewrite A1 by (done || by apply (ft_inum _ _ _ Ht)).
  - intros b Hb. by rewrite B3, A4.
Qed.

(** Directories mean what they did. *)
Lemma kept_find n a : live n -> i_type (idisk sb d n) = T_DIR -> idisk sb d1 n = idisk sb d n -> file_kept d d1 (idisk sb d n) ->
  dir_find d1 (idisk sb d1 n) a = dir_find d (idisk sb d n) a.
Proof. intros Hn Hty -> Hk. destruct (ft_dir _ _ _ Ht n Hn Hty) as [D1 _]. unfold dir_find. by rewrite (kept_entries d d1). Qed.

Lemma unmoved_entered n name m r : live n -> i_type (idisk sb d n) = T_DIR -> unmoved d live d1 -> entered d1 live n name m r d2 -> entered d live n name m r d2.
Proof.
  intros Hn Hty [A1 A2 A3] [B1 B2 B3 B4 BD B5]. pose proof (ft_inum _ _ _ Ht n Hn) as Hno. assert (forall a, dir_find d1 (idisk sb d1 n) a = dir_find d (idisk sb d n) a) as Ef.
  { intros a. apply kept_find; [done|done|by apply A1|by apply A2]. }
  split.
  - intros l Hl Hne. by rewrite B1, A1.
  - intros l Hl Hne. eapply file_kept_trans; [by apply A2|]. rewrite <- A1 by by apply (ft_inum _ _ _ Ht). by apply B2.
  - intros b Hb. rewrite <- A3 by done. by apply B3.
  - by rewrite B4, A1.
  - done.
  - case_decide; [destruct B5 as [M1 M2]; split; [done|]; intros a Ha; by rewrite M2, Ef|]. destruct B5 as (M1 & M2 & M3). split; [done|]. split; [|done]. intros a. by rewrite M2, Ef.
Qed.
End compose.

Lemma entered_unmoved d d1 d2 live n name m r : fs_tree d live -> fs_tree d1 live -> live n -> i_type (idisk sb d1 n) = T_DIR ->
  entered d live n name m r d1 -> unmoved d1 live d2 -> entered d live n name m r d2.
Proof.
  intros Ht Ht1 Hn Hty [A1 A2 A3 A4 AD A5] [B1 B2 B3]. pose proof (ft_inum _ _ _ Ht n Hn) as Hno. assert (forall a, dir_find d2 (idisk sb d2 n) a = dir_find d1 (idisk sb d1 n) a) as Ef.
  { intros a. eapply kept_find; [done|done|done|by apply B1|by apply B2]. }
  split.
  - intros l Hl Hne. by rewrite B1, A1.
  - intros l Hl Hne. eapply file_kept_trans; [by apply A2|]. rewrite <- A1 by (done || by apply (ft_inum _ _ _ Ht)). by apply B2.
  - intros b Hb Hu. rewrite B3 by done. by apply A3.
  - by rewrite B1, A4.
  - rewrite B1 by done. eapply kept_dir; [by apply B2|done].
  - case_decide; [destruct A5 as [M1 M2]; split; [by rewrite Ef|]; intros a Ha; by rewrite Ef, M2|]. destruct A5 as (M1 & M2 & M3). split; [done|]. split; [intros a; by rewrite Ef, M2|].
    intros b Hb. rewrite B3 by done. by apply M3.
Qed.

(** ** What [link] does to the tree *)

(** Name stands for the file m in directory n, and m has one link more. *)
Record name_added d (live : Z -> Prop) (n m : Z) (name : bytes) d' : Prop := {
  na_name : dir_find d' (idisk sb d' n) name = Some m;
  na_names : forall a, same_name a name = false -> dir_find d' (idisk sb d' n) a = dir_find d (idisk sb d n) a;
  na_parent : i_nlink (idisk sb d' n) = i_nlink (idisk sb d n);
  na_target : same_dinode (idisk sb d' m) (set_inlink (i_nlink (idisk sb d m) + 1) (idisk sb d m)) /\ file_kept d d' (idisk sb d m);
  na_used : forall b, 0 <= b < sb_size sb -> block_used d sb b = true -> block_used d' sb b = true;
  na_inodes : forall l, inum_ok l -> l <> n -> l <> m -> idisk sb d' l = idisk sb d l;
  na_files : forall l, live l -> l <> n -> l <> m -> file_kept d d' (idisk sb d l) }.

(** All files, inodes and directories are what they were; when no block was left
    for the entry, directory n may have got an indirect block. *)
Record link_undone d (live : Z -> Prop) (n : option Z) d' : Prop := {
  lu_inodes : forall l, inum_ok l -> n <> Some l -> same_dinode (idisk sb d' l) (idisk sb d l);
  lu_files : forall l, live l -> n <> Some l -> file_kept d d' (idisk sb d l);
  lu_used : forall b, 0 <= b < sb_size sb -> block_used d sb b = true -> block_used d' sb b = true;
  lu_dir : forall l, n = Some l -> i_nlink (idisk sb d' l) = i_nlink (idisk sb d l) /\ (forall a, dir_find d' (idisk sb d' l) a = dir_find d (idisk sb d l) a) /\
    forall b, 0 <= b < sb_size sb -> block_used d' sb b = true }.

Section result.
Context (d d1 d2 d3 : D) (live : Z -> Prop) (n m : Z) (name : bytes) (Ht : fs_tree d live) (Hn : live n) (Hm : live m) (Hnm : n <> m) (Hty : i_type (idisk sb d n) = T_DIR).
Context (R1 : relinked d live m (i_nlink (idisk sb d m) + 1) d1).

Lemma relinked_find a : dir_find d1 (idisk sb d1 n) a = dir_find d (idisk sb d n) a.
Proof. eapply kept_find; [done|done|done|apply R1; [by apply (ft_inum _ _ _ Ht)|done]|by apply R1]. Qed.
Lemma relinked_file d' : file_kept d1 d' (idisk sb d1 m) -> file_kept d d' (idisk sb d m).
Proof. intros Hk. eapply file_kept_trans; [by apply R1|]. eapply kept_addrs; [|exact Hk]. apply R1. Qed.

Lemma link_added : entered d1 live n name m 0 d2 -> name_added d live n m name d2.
Proof.
  intros [E1 E2 E3 E4 _ [E5 E6]]. pose proof (ft_inum _ _ _ Ht n Hn) as Hno. pose proof (ft_inum _ _ _ Ht m Hm) as Hmo. split.
  - done.
  - intros a Ha. by rewrite E6, relinked_find.
  - rewrite E4. by rewrite (rl_inodes _ _ _ _ _ R1).
  - rewrite E1 by done. split; [apply R1|]. apply relinked_file, E2; done.
  - intros b Hb Hu. apply E3; [done|]. by rewrite (rl_used _ _ _ _ _ R1).
  - intros l Hl N1 N2. by rewrite E1, (rl_inodes _ _ _ _ _ R1).
  - intros l Hl N1 N2. eapply file_kept_trans; [by apply R1|]. rewrite <- (rl_inodes _ _ _ _ _ R1) by (done || by apply (ft_inum _ _ _ Ht)). by apply E2.
Qed.

Lemma links_back dx dy L : L = i_nlink (idisk sb dx m) - 1 -> idisk sb dx m = idisk sb d1 m -> relinked dx live m L dy -> same_dinode (idisk sb dy m) (idisk sb d m).
Proof.
  intros -> E R3. destruct (rl_self _ _ _ _ _ R3) as (A1 & A2 & A3 & A4 & A5 & A6), (rl_self _ _ _ _ _ R1) as (B1 & B2 & B3 & B4 & B5 & B6). rewrite E in A1, A2, A3, A4, A5, A6.
  split_and!; [exact (eq_trans A1 B1)|exact (eq_trans A2 B2)|exact (eq_trans A3 B3)| |exact (eq_trans A5 B5)|exact (eq_trans A6 B6)].
  rewrite (A4 : _ = i_nlink (idisk sb d1 m) - 1), (B4 : _ = i_nlink (idisk sb d m) + 1). lia.
Qed.

Lemma link_not_added L : fs_tree d1 live -> L = i_nlink (idisk sb d1 m) - 1 -> relinked d1 live m L d2 -> link_undone d live None d2.
Proof.
  intros Ht1 HL R3. split; [|intros l Hl _|intros b Hb; by rewrite (rl_used _ _ _ _ _ R3), (rl_used _ _ _ _ _ R1)|done].
  - intros l Hl _. destruct (decide (l = m)) as [->|Hne]; [by eapply links_back|]. by rewrite (rl_inodes _ _ _ _ _ R3), (rl_inodes _ _ _ _ _ R1).
  - eapply file_kept_trans; [by apply R1|]. apply (kept_addrs _ _ (idisk sb d1 l)); [|by apply R3]. destruct (decide (l = m)) as [->|Hne]; [apply R1|].
    by rewrite (rl_inodes _ _ _ _ _ R1) by (done || by apply (ft_inum _ _ _ Ht)).
Qed.

Lemma link_no_room L : fs_tree d2 live -> entered d1 live n name m (-1) d2 -> L = i_nlink (idisk sb d2 m) - 1 -> relinked d2 live m L d3 -> link_undone d live (Some n) d3.
Proof.
  intros Ht2 [E1 E2 E3 E4 ED (_ & E5 & E6)] HL R3. pose proof (ft_inum _ _ _ Ht n Hn) as Hno. pose proof (ft_inum _ _ _ Ht m Hm) as Hmo. split.
  - intros l Hl Hne. assert (l <> n) by congruence. destruct (decide (l = m)) as [->|Hlm]; [eapply links_back; [exact HL|by apply E1|exact R3]|].
    by rewrite (rl_inodes _ _ _ _ _ R3), E1, (rl_inodes _ _ _ _ _ R1).
  - intros l Hl Hne. assert (l <> n) as Hln by congruence. pose proof (ft_inum _ _ _ Ht l Hl) as Hlo. eapply file_kept_trans; [by apply R1|].
    assert (i_addrs (idisk sb d1 l) = i_addrs (idisk sb d l)) as Ea by (destruct (decide (l = m)) as [->|Hlm]; [apply R1|by rewrite (rl_inodes _ _ _ _ _ R1)]).
    eapply kept_addrs; [exact Ea|]. eapply file_kept_trans; [by apply E2|]. rewrite <- E1 by done. by apply R3.
  - intros b Hb Hu. rewrite (rl_used _ _ _ _ _ R3) by done. apply E3; [done|]. by rewrite (rl_used _ _ _ _ _ R1).
  - intros ? [= <-]. assert (idisk sb d3 n = idisk sb d2 n) as E by by apply R3. split; [by rewrite E, E4, (rl_inodes _ _ _ _ _ R1)|]. split.
    + intros a. rewrite (kept_find d2 d3 live Ht2 n a Hn (id_type _ _ ED) E) by by apply R3. by rewrite E5, relinked_find.
    + intros b Hb. rewrite (rl_used _ _ _ _ _ R3) by done. by apply E6.
Qed.
End result.

(** ** The inode table from state to state *)

(** A state between two steps: the table agrees with the disk, which is a tree. *)
Record quiet (live : Z -> Prop) (lk : gset nat) s : Prop := {
  qt_sb : f_sb s = sb;
  qt_tree : fs_tree (f_blk s) live;
  qt_kept : kept sb s s none lk;
  qt_refs : forall q, in_table q -> 0 <= i_ref (inode_at q s);
  qt_inums : forall q, in_table q -> 0 < i_ref (inode_at q s) -> inum_ok (i_inum (inode_at q s)) }.

(** s has e more references than s0. *)
Record follows s0 s (e : nat -> Z) : Prop := {
  fo_rest : f_sb s = f_sb s0 /\ f_pid s = f_pid s0 /\ f_cwd s = f_cwd s0 /\ f_user s = f_user s0;
  fo_same : bl_same (f_blk s0) (f_blk s);
  fo_held : bl_held (f_blk s) = bl_held (f_blk s0);
  fo_ref : forall q, in_table q -> i_ref (inode_at q s) = i_ref (inode_at q s0) + e q;
  fo_id : forall q, in_table q -> 0 < i_ref (inode_at q s0) -> i_inum (inode_at q s) = i_inum (inode_at q s0) }.

Lemma kept_follows s0 s e lk : kept sb s0 s e lk -> follows s0 s e.
Proof. intros [K1 K2 K3 K4 K5 K6 K7 K8]. split; try done; apply K1. Qed.
Lemma follows_trans s0 s1 s2 e1 e2 : follows s0 s1 e1 -> follows s1 s2 e2 -> (forall q, 0 <= e1 q) -> follows s0 s2 (fun q => e1 q + e2 q).
Proof.
  intros [(A1 & A2 & A3 & A4) AS AH A5 A6] [(B1 & B2 & B3 & B4) BS BH B5 B6] He. split; [by repeat split; congruence|by eapply same_trans|congruence|..].
  - intros q Hq. rewrite B5, A5 by done. lia.
  - intros q Hq Hpos. rewrite B6; [by apply A6|done|]. rewrite A5 by done. specialize (He q). lia.
Qed.
Lemma follows_ext s0 s e e' : (forall q, e q = e' q) -> follows s0 s e -> follows s0 s e'.
Proof. intros E [A1 AS AH A2 A3]. split; try done. intros q Hq. rewrite <- E. by apply A2. Qed.

Lemma ro_alike d d' : ro_post d d' -> alike d d'.
Proof. intros (Hs & Hv & Hh & Ht & _). split; try done; [by eapply same_wf|apply Hs]. Qed.

(** The state reached is itself a state to start from. *)
Lemma kept_quiet live s0 s e lk : quiet live ∅ s0 -> kept sb s0 s e lk ->
  (forall q, in_table q -> 0 < e q -> inum_ok (i_inum (inode_at q s))) -> quiet live lk s.
Proof.
  intros [Q1 Q2 Q3 Q4 Q5] Hk Hi. pose proof Hk as [K1 K2 K3 K4 K5 K6 K7 K8]. destruct K2 as (E1 & E2 & E3 & E4). split.
  - congruence.
  - eapply alike_tree; [by apply ro_alike|done].
  - split; try done; [apply ro_refl; eapply same_wf; apply K1|intros q Hq; unfold none; lia| |].
    + intros q Hq Hpos Hv. rewrite (idisk_ro sb (f_blk s0) (f_blk s)) by done. by apply K7.
    + intros q Hq. specialize (K8 q Hq). unfold lock_ok in *. by rewrite E2.
  - intros q Hq. eapply (it_ref _ K3), inode_lookup. by apply (kept_len _ _ _ _ _ q Hk).
  - intros q Hq Hpos. destruct (decide (0 < e q)) as [|Hn]; [by apply Hi|]. rewrite K4 in Hpos by done. rewrite K5 by (done || lia). apply Q5; (done || lia).
Qed.

(** One entry of the table and the inode it stands for were written. *)
Lemma table_put live lk s p d' i' : let j := inode_at p s in let s1 := fput s p d' i' in
  quiet live lk s -> in_table p -> 1 <= i_ref j -> bl_same (f_blk s) d' -> bl_held d' = bl_held (f_blk s) -> fs_tree d' live ->
  i_dev i' = i_dev j -> i_inum i' = i_inum j -> 0 <= i_ref i' <= i_ref j -> inode_ok i' -> sl_locked (i_lock i') = false ->
  (i_valid i' = true -> same_dinode i' (idisk sb d' (i_inum i'))) ->
  (forall l, inum_ok l -> l <> i_inum j -> idisk sb d' l = idisk sb (f_blk s) l) ->
  quiet live (lk ∖ {[p]}) s1 /\ follows s s1 (fun q => if decide (q = p) then i_ref i' - i_ref j else 0).
Proof.
  intros j s1 [Q1 Q2 Q3 Q4 Q5] Hp Hrp Hsm Hhd Ht A1 A2 A3 A4 A5 A6 Hoth. pose proof Q3 as [_ K2 K3 K4 K5 K6 K7 K8]. pose proof (fun q => kept_len _ _ _ _ _ q Q3) as Hlen.
  pose proof (proj1 (Hlen p) Hp) as Hpl. assert (forall q, inode_at q s1 = if decide (q = p) then i' else inode_at q s) as Hat.
  { intros q. case_decide as E; [subst q; by apply inode_at_fput|by apply fput_other]. }
  assert (itable_ok (f_itable s1)) as Hit by (unfold s1, fput; cbn; eapply itable_insert; [exact K3|by apply inode_lookup|done..]).
  split; [split; [done|exact Ht| | |]|split; [done|done|done|..]].
  - split; try done; try (by apply ro_refl, (same_wf _ _ Hsm)); try (intros q Hq; unfold none; lia).
    + intros q Hq. rewrite Hat. case_decide; [subst q; rewrite A1; intros _; apply K6; [done|unfold j in *; lia]|by apply K6].
    + intros q Hq. rewrite Hat. change (f_blk s1) with d'. case_decide as E; [done|]. intros Hpos Hv. rewrite Hoth; [by apply K7|by apply Q5|].
      intros En. apply E. eapply (it_uniq _ K3 q p); [by apply inode_lookup, Hlen|by apply inode_lookup, Hlen|done|unfold j in *; lia| |done]. rewrite !K6; (done || unfold j in *; lia).
    + intros q Hq. unfold lock_ok. rewrite Hat. case_decide as E; case_decide as E1; try done; [subst q; set_solver|..];
        specialize (K8 q Hq); unfold lock_ok in K8; [rewrite decide_True in K8 by set_solver|rewrite decide_False in K8 by set_solver]; done.
  - intros q Hq. rewrite Hat. case_decide; [lia|by apply Q4].
  - intros q Hq. rewrite Hat. case_decide; [subst q; rewrite A2; intros _; apply Q5; [done|unfold j in *; lia]|by apply Q5].
  - intros q Hq. rewrite Hat. case_decide; [subst q; unfold j; lia|lia].
  - intros q Hq _. rewrite Hat. by case_decide; [subst q|].
Qed.

(** The locked file ip with L links, written and unlocked. *)
Lemma relink_state live s ip m L d' c : let i1 := set_inlink L (inode_at ip s) in let s1 := fput s ip d' (set_ilock (mkSleeplock false 0) i1) in
  quiet live {[ip]} s -> live m -> on_disk s ip m -> i_valid (inode_at ip s) = true -> i_type (idisk sb (f_blk s) m) <> T_DIR -> 1 <= L < 2^15 ->
  fs_ok sb (f_blk s) (c + 1) -> upd_post (f_blk s) d' (IBLOCK m sb) (store_dinode i1 (dinode_off m) (bl_view (f_blk s) (IBLOCK m sb))) ->
  quiet live ∅ s1 /\ follows s s1 none /\ relinked (f_blk s) live m L d' /\ fs_ok sb d' c.
Proof.
  intros i1 s1 Hq Hm (Hin & Hr & Hi) Hv Hty HL Hfs P. pose proof Hq as [Q1 Q2 Q3 Q4 Q5]. pose proof (kp_disk _ _ _ _ _ Q3 ip Hin ltac:(lia) Hv) as Hs. rewrite Hi in Hs.
  pose proof (ft_inum _ _ _ Q2 m Hm) as Hmo. pose proof (ft_iblock _ _ _ Q2 m Hmo) as HB. assert (same_dinode i1 (set_inlink L (idisk sb (f_blk s) m))) as Hs1 by (destruct Hs as (?&?&?&?&?&?); by repeat split).
  assert (inode_range i1) as Hr1.
  { assert (inode_range (inode_at ip s)) as (R1 & R2 & R3 & R4 & R5 & R6 & R7) by (eapply range_same; [exact Hs|]; apply idisk_range; [apply Hfs|apply HB]).
    split; [exact R1|]. split; [exact R2|]. split; [exact R3|]. split; [exact R4|]. split; [cbn; lia|]. by split. }
  assert (i_dev i1 = ROOTDEV) as Hdev by (apply (kp_dev _ _ _ _ _ Q3 ip Hin); lia). pose proof (relink_rewritten _ _ _ _ _ _ Q2 Hm Hs1 Hdev Hr1 P) as R.
  assert (fs_ok sb d' c) as Hfs' by by eapply (upd_fs sb (f_blk s)). pose proof (fw_room _ _ _ Hfs') as Hroom.
  pose proof (relink_tree _ _ _ _ _ _ Q2 Hm Hs1 Hdev Hr1 P Hty ltac:(lia) ltac:(lia)) as T.
  destruct (table_put live {[ip]} s ip d' (set_ilock (mkSleeplock false 0) i1)) as [Hq1 Hf1]; try done.
  - apply P.
  - apply P.
  - cbn. lia.
  - exact (proj1 Hr1).
  - intros _. change (i_inum (set_ilock (mkSleeplock false 0) i1)) with (i_inum (inode_at ip s)). rewrite Hi. destruct (rw_self _ _ _ _ _ R) as (?&?&?&?&?&?). by repeat split.
  - rewrite Hi. apply R.
  - rewrite difference_diag_L in Hq1. split; [done|]. split; [|split; [by eapply relink_relinked|done]]. eapply follows_ext; [|exact Hf1]. intros q. unfold none. case_decide; [cbn; lia|done].
Qed.

(** ** A new entry *)

Lemma rewritten_ro d d1 live n d' i' : ro_post d d1 -> rewritten d1 live n d' i' -> rewritten d live n d' i'.
Proof.
  intros Hro [R1 R2 R3 R4 R5 R6 R7 R8 R9]. pose proof Hro as (Hs & Hv & Hh & _). pose proof (fun l => idisk_ro sb d d1 l Hro) as Ei. split; try done.
  - intros b Hb. apply R1. by eapply same_home.
  - congruence.
  - intros b Hb. rewrite <- (alike_used sb d d1) by done. by apply R3.
  - intros l Hl Hne. by rewrite R4, Ei.
  - intros l Hl Hne k Hk. rewrite <- Hv, <- Ei, <- (alike_slot d d1) by done. by apply R5.
  - intros l j j' Hl Hne Hj Hj'. rewrite <- Ei, <- (alike_slot d d1) by done. by apply R9.
Qed.

(** A write to the file of inode n rewrites that inode only. *)
Lemma wrote_rewritten d live n i bs off w d' i' : fs_tree d live -> live n -> same_dinode i (idisk sb d n) -> i_inum i = n -> i_dev i = ROOTDEV ->
  off + w < 2^32 -> wrote sb d i bs off w d' i' -> rewritten d live n d' i'.
Proof.
  intros Ht Hn Hs Hi Hdev Hoff W. pose proof (ft_inum _ _ _ Ht n Hn) as Hno. pose proof (ft_iblock _ _ _ Ht n Hno) as HB.
  assert (forall j, slot d i j = slot d (idisk sb d n) j) as Es by (intros j; by apply slot_same).
  assert (forall b, good_block sb d b -> (forall j, is_slot j -> slot d (idisk sb d n) j <> b) -> b <> IBLOCK n sb -> bl_view d' b = bl_view d b) as Hframe.
  { intros b (Hb & Hbu & _ & _ & Hbb) Hbs Hne. apply (wo_frame _ _ _ _ _ _ _ _ W); try done; [intros j Hj; rewrite Es; by apply Hbs|by rewrite Hi]. }
  assert (stored sb d d' n i') as St.
  { split; [pose proof (wo_disk _ _ _ _ _ _ _ _ W) as E; cbv zeta in E; by rewrite Hi in E|]. intros l Hl Hne.
    apply Hframe; [by apply (ft_iblock _ _ _ Ht)| |done]. intros j Hj. by apply (ft_apart _ _ _ Ht). }
  assert (bl_wf d) as Hwf by apply (tk_block _ _ _ (ft_tree _ _ _ Ht) n Hn). assert (block_ok (bl_view d (IBLOCK n sb))) as Hbk by (apply bl_view_ok; [done|apply HB]).
  assert (inode_range i') as Hr by (eapply wrote_range; [apply (ft_geom _ _ _ Ht)| |exact W|done]; eapply range_same; [exact Hs|]; by apply idisk_range; [|apply HB]).
  split.
  - intros b. apply same_home, W.
  - apply W.
  - apply W.
  - intros l Hl Hne. eapply stored_other; [exact St|apply Ht|done|done|done|done|apply Hr].
  - intros l Hl Hne j Hj Hnz. apply Hframe; [by apply (ft_file _ _ _ Ht)| |by apply (ft_apart _ _ _ Ht)].
    intros q Hq E. symmetry in E. by apply (ft_disjoint _ _ _ Ht l n j q) in E.
  - eapply stored_self; [exact St|apply Hno|done|done].
  - apply W.
  - intros l j Hl Hj E. destruct (ft_iblock _ _ _ Ht l Hl) as (Hbr & Hbu & _). destruct (decide (slot d i j = 0)) as [Hz|Hz].
    + pose proof (wo_new _ _ _ _ _ _ _ _ W j Hj Hz) as Hnew. rewrite E in Hnew. specialize (Hnew ltac:(lia)). congruence.
    + rewrite (wo_slots _ _ _ _ _ _ _ _ W j Hj Hz), Es in E. by apply (ft_apart _ _ _ Ht n l j).
  - intros l j j' Hl Hne Hj Hj' Hnz E. destruct (decide (slot d i j = 0)) as [Hz|Hz].
    + pose proof (wo_new _ _ _ _ _ _ _ _ W j Hj Hz Hnz) as Hnew. rewrite <- E in Hnz. destruct (fk_good sb d _ (ft_file _ _ _ Ht l Hl) j' Hj' Hnz) as (_ & Hbu & _). congruence.
    + rewrite (wo_slots _ _ _ _ _ _ _ _ W j Hj Hz), Es in E, Hnz. rewrite <- E in Hnz. by apply Hnz, (ft_disjoint _ _ _ Ht l n j' j).
Qed.

(** Names are unique by what they match. *)
Lemma entries_once d i d' i' : entries d' i' = entries d i -> names_once d i -> names_once d' i'.
Proof.
  intros E Hu. assert (count i' = count i) as Ec by (pose proof (length_entries d' i') as L1; rewrite E, length_entries in L1; unfold count in *; lia).
  intros a k k' Hk Hk'. rewrite Ec in Hk, Hk'. assert (forall j, 0 <= j < count i -> dirent_at d' i' j = dirent_at d i j) as Ed.
  { intros j Hj. pose proof (entries_lookup d i j Hj) as E1. rewrite <- E, entries_lookup in E1 by lia. congruence. }
  unfold entry_matches. rewrite !Ed by done. by apply Hu.
Qed.
Lemma added_once d i name e k d' i' : names_once d i -> dir_find d i name = None -> 0 <= k <= count i -> (forall a, entry_is a e = true -> same_name a name = true) ->
  entries d' i' = (if decide (k < count i) then <[Z.to_nat k := e]> (entries d i) else entries d i ++ [e]) -> names_once d' i'.
Proof.
  intros Hu Hnone Hk He E.
  assert (forall j, 0 <= j < count i' -> j <> k -> 0 <= j < count i /\ dirent_at d' i' j = dirent_at d i j) as Hold.
  { intros j Hj Hne. pose proof (entries_lookup d' i' j Hj) as E1. pose proof (length_entries d' i') as Hl. rewrite E in E1, Hl. case_decide as Hlt.
    - rewrite length_insert, length_entries in Hl. rewrite list_lookup_insert_ne, entries_lookup in E1 by lia. split; [unfold count in *; lia|congruence].
    - rewrite length_app, length_entries in Hl. cbn in Hl. assert (0 <= j < count i) as Hjc by (unfold count in *; lia).
      rewrite lookup_app_l, entries_lookup in E1 by (rewrite ?length_entries; lia). split; [done|congruence]. }
  assert (0 <= k < count i' -> dirent_at d' i' k = e) as Hnew.
  { intros Hkc. pose proof (entries_lookup d' i' k Hkc) as E1. rewrite E in E1. case_decide as Hlt.
    - rewrite list_lookup_insert_eq in E1 by (rewrite length_entries; lia). congruence.
    - rewrite list_lookup_middle in E1 by (rewrite length_entries; lia). congruence. }
  assert (forall a j, 0 <= k < count i' -> 0 <= j < count i' -> j <> k -> entry_matches d' i' a k = true -> entry_matches d' i' a j = true -> False) as Hclash.
  { intros a j Hkc Hj Hne Mk Mj. destruct (Hold j Hj Hne) as [Hjc Ej]. unfold entry_matches in Mk, Mj. rewrite Hnew in Mk by done. rewrite Ej in Mj. apply He in Mk.
    apply (lookup_find d i name j Hjc); [|done]. unfold entry_matches. apply andb_true_iff in Mj as [M1 M2]. apply andb_true_iff. split; [done|].
    change (same_name name (de_name (dirent_at d i j)) = true). by rewrite <- (same_name_eq a name). }
  intros a q q' Hq Hq' Mq Mq'. destruct (decide (q = k)) as [->|N1], (decide (q' = k)) as [->|N2]; [done|by destruct (Hclash a q')|by destruct (Hclash a q)|].
  destruct (Hold q Hq N1) as [C1 E1], (Hold q' Hq' N2) as [C2 E2]. unfold entry_matches in *. rewrite E1 in Mq. rewrite E2 in Mq'. by apply (Hu a).
Qed.

Section entry.
Context (live : Z -> Prop) (s : @fstate D U) (dp : nat) (n m r : Z) (nm : bytes) (d' : D) (i' : inode).
Let i := inode_at dp s.
Context (Hq : quiet live {[dp]} s) (Hn : live n) (Hd : on_disk s dp n) (Hv : i_valid i = true) (Hty : i_type (idisk sb (f_blk s) n) = T_DIR).
Context (Hm : live m) (Hmt : i_type (idisk sb (f_blk s) m) <> T_DIR) (Hm0 : 0 < m < 2^16) (Hnone : dir_find (f_blk s) i nm = None).
Context (Hl : linked sb (f_blk s) i nm m r d' i') (c : nat) (Hfs : fs_ok sb d' c).

Lemma dir_cached : same_dinode i (idisk sb (f_blk s) n).
Proof. destruct Hd as (Hin & Hr & Hi). rewrite <- Hi. apply (kp_disk _ _ _ _ _ (qt_kept _ _ _ Hq) dp Hin); [lia|done]. Qed.
Lemma dir_dev : i_dev i = ROOTDEV.
Proof. destruct Hd as (Hin & Hr & Hi). apply (kp_dev _ _ _ _ _ (qt_kept _ _ _ Hq) dp Hin). lia. Qed.

Lemma dir_is : is_dir (f_blk s) i /\ names_once (f_blk s) i.
Proof.
  destruct (ft_dir _ _ _ (qt_tree _ _ _ Hq) n Hn Hty) as [D1 D2]. pose proof dir_cached as Hs. split; [by eapply is_dir_same|].
  eapply entries_once; [|exact D2]. unfold entries, count. assert (i_size i = i_size (idisk sb (f_blk s) n)) as -> by apply Hs. apply list_fmap_ext. intros ? k _. by apply dirent_same.
Qed.

Lemma entry_rewritten : rewritten (f_blk s) live n d' i' /\ names_once d' i' /\ exists addrs sz, i' = wrote_inode i sz addrs.
Proof.
  destruct (lk_wrote _ _ _ _ _ _ _ _ Hl) as (d1 & k & Hro & Hk & Hmax & W). destruct dir_is as [D1 D2]. pose proof dir_cached as Hs. destruct Hd as (Hin & Hr & Hi).
  assert (is_dir d1 i) as D1' by (destruct D1; split; try done; intros x Hx; rewrite (slot_ro (f_blk s) d1); auto).
  assert (entries d1 i = entries (f_blk s) i) as Ee by by apply entries_ro. pose proof (conj Hk Hmax) as Hb. split; [|split].
  - eapply rewritten_ro; [exact Hro|]. eapply wrote_rewritten; [eapply alike_tree; [by apply ro_alike|apply Hq]|done|by rewrite (idisk_ro sb (f_blk s) d1)|exact Hi|apply dir_dev| |exact W].
    case_decide; klia.
  - assert (names_once d1 i) as D2' by by eapply entries_once. case_decide.
    + eapply (added_once d1 i nm (mk_dirent m nm) k); [done|unfold dir_find; by rewrite Ee|done| |eapply (wrote_entry sb s dp); [by apply (kept_len _ _ _ _ _ dp (qt_kept _ _ _ Hq))|done|apply length_mk_dirent|done|done|exact W]].
      intros a. unfold entry_is. rewrite mk_dirent_inum, mk_dirent_name by lia. by intros [_ ?]%andb_true_iff.
    + eapply (entries_once d1 i); [|exact D2']. eapply (wrote_nothing sb s dp); [by apply (kept_len _ _ _ _ _ dp (qt_kept _ _ _ Hq))|done|done|exact W].
  - destruct (wo_inode _ _ _ _ _ _ _ _ W) as (addrs & E). eauto.
Qed.

Lemma entry_tree : fs_tree d' live.
Proof.
  destruct entry_rewritten as (R & D2 & addrs & sz & E). pose proof dir_cached as Hs. destruct Hs as (Et & _ & _ & El & _). pose proof (ft_links _ _ _ (qt_tree _ _ _ Hq) n Hn).
  pose proof (fw_room _ _ _ Hfs). apply (tree_step (f_blk s) d' live n i' (qt_tree _ _ _ Hq) R); [apply Hfs|lia|rewrite E; exact Et|rewrite E; change (1 <= i_nlink i); rewrite El; lia|rewrite E; intros _; change (i_nlink (idisk sb (f_blk s) n) <= i_nlink i); rewrite El; lia|].
  intros _. split; [apply Hl|]. split; [done|]. intros a x Hf. pose proof (lk_map _ _ _ _ _ _ _ _ Hl) as Hmap. rewrite <- (dir_find_same _ _ _ a dir_cached).
  case_decide; [|left; rewrite <- Hf; symmetry; apply Hmap]. destruct Hmap as [M1 M2]. destruct (same_name a nm) eqn:Ea; [|left; by rewrite <- M2].
  right. rewrite (find_name d' i' a nm) in Hf by done. assert (x = m) as -> by congruence. done.
Qed.

(** The entry is written, and the directory unlocked and given back. *)
Lemma entry_state : let s1 := fput s dp d' (set_iref (i_ref i' - 1) (set_ilock (mkSleeplock false 0) i')) in
  quiet live ∅ s1 /\ follows s s1 (drop_ref none dp).
Proof.
  destruct entry_rewritten as (R & _ & addrs & sz & E). destruct (lk_wrote _ _ _ _ _ _ _ _ Hl) as (d1 & k & Hro & _ & _ & W). pose proof Hd as (Hin & Hr & Hi). fold i in Hr, Hi. cbv zeta.
  destruct (table_put live {[dp]} s dp d' (set_iref (i_ref i' - 1) (set_ilock (mkSleeplock false 0) i'))) as [Q F]; try done.
  - eapply same_trans; [apply Hro|apply W].
  - rewrite (wo_held _ _ _ _ _ _ _ _ W). apply Hro.
  - apply entry_tree.
  - by rewrite E.
  - by rewrite E.
  - rewrite E. cbn. fold i. lia.
  - exact (fk_inode _ _ _ (rw_file _ _ _ _ _ R)).
  - intros _. change (i_inum (set_iref _ (set_ilock _ i'))) with (i_inum i'). assert (i_inum i' = n) as -> by (by rewrite E). destruct (rw_self _ _ _ _ _ R) as (?&?&?&?&?&?). by repeat split.
  - fold i. rewrite Hi. apply R.
  - rewrite difference_diag_L in Q. split; [done|]. eapply follows_ext; [|exact F]. intros q. unfold drop_ref, none. destruct (decide (q = dp)); [|done]. rewrite E. cbn. fold i. lia.
Qed.

Lemma entry_entered : entered (f_blk s) live n nm m r d'.
Proof.
  destruct entry_rewritten as (R & _ & addrs & sz & E). pose proof (rw_self _ _ _ _ _ R) as Hs. pose proof dir_cached as Hc. pose proof (lk_map _ _ _ _ _ _ _ _ Hl) as Hmap. split.
  - apply R.
  - apply R.
  - apply R.
  - replace (i_nlink (idisk sb d' n)) with (i_nlink i') by (symmetry; apply Hs). rewrite E. apply Hc.
  - eapply is_dir_same; [exact Hs|apply Hl].
  - case_decide; rewrite ?(dir_find_same _ _ _ _ Hs).
    + destruct Hmap as [M1 M2]. split; [done|]. intros a Ha. rewrite (dir_find_same _ _ _ a Hs), M2 by done. by apply dir_find_same.
    + destruct Hmap as (M1 & M2 & M3). split; [done|]. split; [|done]. intros a. rewrite (dir_find_same _ _ _ a Hs), M2. by apply dir_find_same.
Qed.
End entry.

(** ** Between transactions *)

Lemma commit_tree d d' live : fs_tree d live -> bl_wf d' -> (size (bl_txn d') + size (bl_held d') < NBUF)%nat -> bl_held d' = bl_held d ->
  (forall b, bl_home d b -> bl_home d' b) -> (forall b, bl_home d b -> bl_view d' b = bl_view d b) -> fs_tree d' live.
Proof.
  intros Ht Hwf Hroom Hh Hho Hv. pose proof (commit_unmoved d d' live Ht Hv) as [U1 U2 U3]. set (n := ROOTINO). assert (live n) as Hn by apply (ft_tree _ _ _ Ht).
  pose proof (ft_inum _ _ _ Ht n Hn) as Hno. assert (forall j, slot d' (idisk sb d n) j = slot d (idisk sb d n) j) as Es by (intros j; by apply kept_slot, U2).
  apply (tree_step d d' live n (idisk sb d n) Ht); try done; [|by apply (ft_links _ _ _ Ht)|].
  - split; try done.
    + intros b Hb Hu. by rewrite U3.
    + by intros l Hl _; apply U1.
    + by intros l Hl _; apply U2.
    + rewrite U1 by done. by repeat split.
    + eapply kept_file_home; [by apply U2|done|done| |by apply (ft_file _ _ _ Ht)]. intros k Hk Hnz. destruct (fk_good _ _ _ (ft_file _ _ _ Ht n Hn) k Hk Hnz) as (Hr & Hu & _). by rewrite U3 by lia.
    + intros l j Hl Hj. rewrite Es. by apply (ft_apart _ _ _ Ht).
    + intros l j j' Hl Hne Hj Hj'. rewrite Es. intros Hnz E. apply Hnz. rewrite <- E. by apply (ft_disjoint _ _ _ Ht l n j' j).
  - intros Hty. destruct (ft_dir _ _ _ Ht n Hn Hty) as [D1 D2]. pose proof (kept_entries d d' _ (U2 n Hn) D1) as Ee. split; [by eapply kept_dir; [apply U2|]|].
    split; [by eapply entries_once|]. intros a x. unfold dir_find. rewrite Ee. by left.
Qed.

(** Paths do not notice the number of links. *)
Lemma relinked_walk d live m L d1 es : fs_tree d live -> live m -> i_type (idisk sb d m) <> T_DIR -> relinked d live m L d1 -> forall n, live n -> walk sb d1 n es = walk sb d n es.
Proof.
  intros Ht Hm Hty R. induction es as [|e es IH]; intros n Hn; [done|]. cbn [walk]. destruct (decide (n = m)) as [->|Hne].
  - assert (i_type (idisk sb d1 m) = i_type (idisk sb d m)) as -> by apply R. by rewrite (proj2 (Z.eqb_neq _ _) Hty).
  - pose proof (rl_inodes _ _ _ _ _ R n (ft_inum _ _ _ Ht n Hn) Hne) as E. rewrite E. destruct (Z.eqb_spec (i_type (idisk sb d n)) T_DIR) as [Hd|]; [|done].
    rewrite <- E at 1. rewrite (kept_find d d1 live Ht n e Hn Hd E) by by apply R. destruct (dir_find d (idisk sb d n) e) as [x|] eqn:Ef; [|done].
    apply IH. by eapply (tk_closed _ _ _ (ft_tree _ _ _ Ht)).
Qed.
Lemma relinked_target d live m L d1 es n : fs_tree d live -> live m -> i_type (idisk sb d m) <> T_DIR -> relinked d live m L d1 -> live n ->
  target sb d1 true n es = target sb d true n es.
Proof.
  intros Ht Hm Hty R Hn. unfold target. destruct es as [|e es]; [done|]. rewrite (relinked_walk d live m L d1 _ Ht Hm Hty R n Hn). destruct (walk sb d n _) as [x|] eqn:E; [|done].
  assert (live x) as Hx by by eapply walk_live; [apply Ht| |exact E]. assert (i_type (idisk sb d1 x) = i_type (idisk sb d x)) as ->; [|done].
  destruct (decide (x = m)) as [->|Hne]; [apply R|]. by rewrite (rl_inodes _ _ _ _ _ R) by (done || by apply (ft_inum _ _ _ Ht)).
Qed.

(** The name [namex] copies is made of the bytes of the path. *)
Lemma skipelem_bytes path name path' name' : Forall is_byte path -> Forall is_byte name -> skipelem path name = Some (path', name') -> Forall is_byte path' /\ Forall is_byte name'.
Proof.
  intros Hp Hn. assert (forall p, Forall is_byte p -> Forall is_byte (skip_slashes p)) as Hskip.
  { intros p. rewrite !Forall_forall. intros Hp' x Hx. apply Hp'. by apply skip_slashes_sub. }
  assert (forall p, Forall is_byte p -> Forall is_byte (elem_of_path p).1 /\ Forall is_byte (elem_of_path p).2) as Helem.
  { induction p as [|c p IH]; [done|]. intros [Hc Hp']%Forall_cons. specialize (IH Hp'). cbn. destruct (c =? SLASH); [by split; [|constructor]|]. destruct (elem_of_path p). cbn in *. destruct IH. by split; [constructor|]. }
  unfold skipelem. specialize (Hskip path Hp) as Hs. destruct (skip_slashes path) as [|c rest]; [done|]. destruct (Helem _ Hs) as [H1' H2']. destruct (elem_of_path (c :: rest)) as [e q]. cbn [fst snd] in *.
  intros [= <- <-]. split; [by apply Hskip|]. unfold splice. destruct (_ <=? _); repeat apply Forall_app_2; try apply Forall_take; try apply Forall_drop; try done. constructor; [unfold is_byte; lia|done].
Qed.

Lemma wlp_skip {S A B} (m : M S A) (f : A -> M S B) x (Q : B -> S -> Prop) : (forall a x', wlp (f a) x' Q) -> wlp (bind m f) x Q.
Proof. intros Hf. apply wlp_bind. intros a x' t _. apply Hf. Qed.
Lemma namex_loop_bytes fuel : forall ip path parent name s, Forall is_byte path -> Forall is_byte name -> wlp (namex_loop fuel ip path parent name) s (fun r _ => Forall is_byte r.2).
Proof.
  induction fuel as [|fuel IH]; intros ip path parent name s Hp Hn; cbn [namex_loop]; destruct (skipelem path name) as [[path' name']|] eqn:E;
    try (destruct parent; [apply wlp_skip; intros; by apply wlp_ret|by apply wlp_ret]); [done|]. destruct (skipelem_bytes _ _ _ _ Hp Hn E) as [Hp' Hn'].
  apply wlp_skip. intros _ s1. apply wlp_skip. intros i s2. destruct (negb _); [apply wlp_skip; intros; by apply wlp_ret|]. destruct (_ && _); [apply wlp_skip; intros; by apply wlp_ret|].
  apply wlp_skip. intros [[next off]|] s3; apply wlp_skip; intros; [by apply IH|by apply wlp_ret].
Qed.
Lemma namex_bytes path parent s : Forall is_byte path -> wlp (namex path parent name0) s (fun r _ => Forall is_byte r.2).
Proof. intros Hp. apply wlp_skip. intros ip s1. apply namex_loop_bytes; [done|]. apply Forall_replicate. unfold is_byte. lia. Qed.

(** Total and partial facts together. *)
Lemma wp_wlp {S A} (m : M S A) x (P Q : A -> S -> Prop) : wp m x P -> wlp m x Q -> wp m x (fun a x' => P a x' /\ Q a x').
Proof. unfold wp, wpt, wlp. destruct (m x) as [a x' t| |]; intros Hp Hq; [|done|done]. split; [done|]. by eapply Hq. Qed.
End link.
