(* ===== verification/FsDirProps.v ===== *)
(** * Truncation, directories and paths on top of the log: properties

    The theorems of [FsTrunc], [FsDir] and [FsPath] instantiated with the log and the
    buffer cache, and applied to the small image of [FsProps]. *)
From S2P Require Import Prelude Params Sleeplock Bio BioInv Log LogInv LogCrash LogTxn CString Interfaces BlockInst Fs FsBlocks FsInode FsData FsWrite FsProps FsWriteProps FsTrunc FsDir FsPath FsUnlink.

(** The inode of entry ip is open, its file is well formed and its dinode is in
    a block of its own. *)
Record file_open {U} (s : @fstate lst U) (ip : nat) : Prop := {
  fo_ip : (ip < length (f_itable s))%nat;
  fo_file : file_ok (f_sb s) (f_blk s) (inode_at ip s);
  fo_inum : 0 <= i_inum (inode_at ip s);
  fo_iblock : good_block (f_sb s) (f_blk s) (IBLOCK (i_inum (inode_at ip s)) (f_sb s));
  fo_apart : forall k, is_slot k -> slot (f_blk s) (inode_at ip s) k <> IBLOCK (i_inum (inode_at ip s)) (f_sb s) }.

(** C7.  [itrunc] gives back exactly the blocks of the file: afterwards the
    direct blocks, the blocks the indirect block lists and the indirect block
    itself are free, every other block is in use or free as before, the inode
    has size 0 and no blocks, in memory and on disk, and no block outside the
    free map and the inode's own changed.  The transaction needs room for the
    free map and one more block, whatever the size of the file.  [iput] drops one
    reference and changes nothing else, unless it was the last one to an inode
    without links: then the file's blocks are freed in this way and the inode's
    type on disk is 0. *)
Theorem itrunc_correct {U} `{UserMem U} (s : @fstate lst U) ip :
  let i := inode_at ip s in
  file_open s ip -> fs_ok (f_sb s) (f_blk s) 0 ->
  (size (txn (f_blk s) ∪ bitmap (f_sb s)) + size (held (l_bio (f_blk s))) + 1 < NBUF)%nat ->
  wp (itrunc ip) s (fun _ s' => exists d', s' = fput s ip d' (emptied i) /\ truncated (f_sb s) (f_blk s) i d' (emptied i)) /\
  (sl_locked (i_lock i) = false -> wp (iput ip) s (fun _ s' =>
     if (i_ref i =? 1) && i_valid i && (i_nlink i =? 0)
     then exists d', s' = fput s ip d' (reclaimed_inode i) /\ reclaimed (f_sb s) (f_blk s) i d'
     else s' = fput s ip (f_blk s) (set_iref (i_ref i - 1) i))).
Proof.
  intros i [Hip Hf Hnum HB Hns] Hfs Hroom. split.
  - rewrite <- (fput_id s ip) at 1 by done. by apply (itrunc_wp (f_sb s) s ip eq_refl Hip).
  - intros Hl. rewrite <- (fput_id s ip) at 1 by done. by apply (iput_wp (f_sb s) s ip eq_refl Hip).
Qed.

(** The inode table is consistent with the disk and nothing in it is locked;
    two entries are free. *)
Record table_quiet {U} (s : @fstate lst U) : Prop := {
  tq_kept : kept (f_sb s) s s none ∅;
  tq_refs : forall k, in_table k -> 0 <= i_ref (inode_at k s);
  tq_spare : exists k1 k2, in_table k1 /\ in_table k2 /\ k1 <> k2 /\ i_ref (inode_at k1 s) = 0 /\ i_ref (inode_at k2 s) = 0 }.

(** C12.  [namex], and with it [namei] and [nameiparent], follows a path through
    the directories on disk, from the root or the current directory.  When every
    element names an entry of a directory it returns an entry of the inode table
    for the inode that is reached (the directory of the last element if the
    parent is asked for, and that element's name, cut to DIRSIZ bytes), with one
    new reference; otherwise it returns nothing.  Either way all other
    references and all locks are as before, no block has changed, and what the
    table holds still agrees with the disk. *)
Theorem namex_correct {U} `{UserMem U} (s : @fstate lst U) (live : Z -> Prop) path parent name :
  tree_ok (f_sb s) (f_blk s) live -> table_quiet s ->
  (head path = Some SLASH \/ on_disk s (f_cwd s) (start_of s path) /\ live (start_of s path)) ->
  length name = Z.to_nat DIRSIZ -> 0 ∉ path ->
  wp (namex path parent name) s (found (f_sb s) s path parent (start_of s path)).
Proof. intros Ht [Hk Hr Hf] Hst Hnm Hz. by apply (namex_wp (f_sb s) s live eq_refl Ht Hr Hf). Qed.

(** An inode table with no entry in use. *)
Lemma fresh_quiet {U} (s : lst) (u : U) sb cwd pid : log_wf s -> table_quiet (mkFs s u sb demo_itable cwd pid).
Proof.
  intros Hwf. set (f := mkFs s u sb demo_itable cwd pid). assert (forall k, in_table k -> inode_at k f = inode0) as Hat.
  { intros k Hk. unfold inode_at. cbn. by apply lookup_total_replicate_2. }
  assert (itable_ok demo_itable) as Hit.
  { split; [done|..]; unfold demo_itable.
    - by intros k i [-> _]%lookup_replicate.
    - intros k k' i i' [-> _]%lookup_replicate. done.
    - by intros k i [-> _]%lookup_replicate. }
  split; [split|..].
  - by apply (ro_refl s).
  - done.
  - exact Hit.
  - intros k Hk. unfold none. lia.
  - done.
  - intros k Hk Hpos. by rewrite Hat in Hpos.
  - intros k Hk Hpos. by rewrite Hat in Hpos.
  - intros k Hk. by rewrite Hat.
  - intros k Hk. by rewrite Hat.
  - exists 0%nat, 1%nat. rewrite !Hat by (unfold in_table; klia). split_and!; try done; unfold in_table; klia.
Qed.

(** ** On the small image *)

Lemma demo_file_open (s : lst) : demo_ready s -> file_open (demo_opened s) 0.
Proof.
  intros Hr. assert (IBLOCK 2 demo_sb = 33) as HB by (by vm_compute). assert (inode_at 0 (demo_opened s) = demo_open) as Hat by done.
  split; rewrite ?Hat; change (f_sb (demo_opened s)) with demo_sb; change (f_blk (demo_opened s)) with s; change (i_inum demo_open) with 2; rewrite ?HB.
  - cbn. lia.
  - by apply demo_file_ok.
  - lia.
  - apply demo_good_block; (done || lia).
  - intros k Hk. rewrite (demo_slot s k Hk). case_decide; lia.
Qed.

Lemma demo_bitmap_room (s : lst) : demo_ready s -> (size (txn s ∪ bitmap demo_sb) + size (held (l_bio s)) + 1 < NBUF)%nat.
Proof.
  intros (_ & Hh & _ & Ht & _). rewrite Hh, Ht, map_size_empty, union_empty_l_L. vm_compute. lia.
Qed.

Lemma itrunc_correct_witness : exists s : lst,
  wp (itrunc 0) (demo_opened s) (fun _ s' =>
    block_used s demo_sb 37 = true /\ block_used (f_blk s') demo_sb 37 = false /\ block_used (f_blk s') demo_sb 36 = true /\ i_size (inode_at 0 s') = 0).
Proof.
  destruct demo_fs_booted as (s & Hready). exists s. pose proof (demo_file_open s Hready) as Ho.
  eapply wp_mono; [apply (proj1 (itrunc_correct (demo_opened s) 0 Ho (demo_fs_ok s 0 Hready ltac:(vm_compute; lia)) (demo_bitmap_room s Hready)))|].
  intros ? ? (d' & -> & [_ Hfree Hkeep _ _ _ _ _ _ _]). change (f_blk (fput (demo_opened s) 0 d' _)) with d'. change (f_sb (demo_opened s)) with demo_sb in *.
  change (f_blk (demo_opened s)) with s in *. change (inode_at 0 (demo_opened s)) with demo_open in *.
  destruct (demo_good_block s 37 Hready ltac:(lia) ltac:(lia)) as (_ & Hu37 & _). destruct (demo_good_block s 36 Hready ltac:(lia) ltac:(lia)) as (_ & Hu36 & _).
  assert (slot s demo_open 0 = 37) as H0 by (rewrite demo_slot by (unfold is_slot; klia); done).
  split; [done|]. split; [|split].
  - apply Hfree; [change (sb_size demo_sb) with 80; lia|]. split; [lia|]. exists 0. split; [unfold is_slot; klia|done].
  - rewrite Hkeep; [done|change (sb_size demo_sb) with 80; lia|]. intros (_ & k & Hk & E). rewrite demo_slot in E by done. case_decide; lia.
  - rewrite inode_at_fput; [done|cbn; lia].
Defined.

(** The root directory holds "." and "a". *)
Lemma demo_root_slot (s : lst) k : is_slot k -> slot s demo_root k = if decide (k = 0) then 36 else 0.
Proof.
  intros Hk. unfold is_slot in Hk. unfold slot, bmap_at. change (i_addr demo_root NDIRECT) with 0.
  destruct (Z.eqb_spec k (-1)) as [->|]; [done|]. destruct (Z.ltb_spec k NDIRECT) as [Hlt|]; [|case_decide; [klia|done]].
  assert (forallb (fun k => i_addr demo_root k =? if decide (k = 0) then 36 else 0) (seqZ 0 NDIRECT) = true) as Hall by (by vm_compute).
  rewrite forallb_forall in Hall. apply Z.eqb_eq, Hall, list_elem_of_In, elem_of_seqZ. lia.
Qed.

Lemma demo_root_find (s : lst) : demo_ready s -> dir_find s demo_root [98] = None /\ dir_find s demo_root [97] = Some 2.
Proof.
  intros (_ & _ & _ & _ & Hdemo). pose proof (proj2 (Hdemo 36 ltac:(lia) ltac:(lia))) as Hv.
  pose proof (demo_dirent s 0 Hv ltac:(lia)) as He0. pose proof (demo_dirent s 1 Hv ltac:(lia)) as He1. change (f_blk (demo_rooted s)) with s in *.
  unfold dir_find, entries. change (seqZ 0 (count demo_root)) with [0; 1]. cbn [fmap list_fmap]. rewrite He0, He1. split; by vm_compute.
Qed.
