(* ===== verification/Mkfs.v ===== *)
(** * mkfs ([mkfs/mkfs.c])

    The host program that writes the first disk image.  The image is a map
    from sectors to their bytes; [rsect] past its end is [die("read")].  The
    files to put on it are given as their argument and the pieces that [read]
    returned, one after the other, for it.  The fields of a [struct dinode] are
    those of the kernel's inode record; [xint] and [xshort] store a number in
    the byte order [store_dinode], [to_le] and [encode_sb] use; the magic number
    is stored without [xint], in the host's byte order, here the same one. *)
From S2P Require Import Prelude Params Sleeplock CString Interfaces Fs.

Module Mkfs.

Definition NINODES : Z := 200.

Definition nbitmap : Z := FSSIZE / BPB + 1.
Definition ninodeblocks : Z := NINODES / IPB + 1.
Definition nlog : Z := LOGBLOCKS + 1.
Definition nmeta : Z := 2 + nlog + ninodeblocks + nbitmap.
Definition nblocks : Z := FSSIZE - nmeta.

Definition sb : superblock := mkSb FSMAGIC FSSIZE nblocks NINODES nlog 2 (2 + nlog) (2 + nlog + ninodeblocks).

Definition encode_sb (sb : superblock) : bytes :=
  mjoin (to_le 4 <$> [sb_magic sb; sb_size sb; sb_nblocks sb; sb_ninodes sb; sb_nlog sb; sb_logstart sb; sb_inodestart sb; sb_bmapstart sb]).

(** The image, [freeinode] and [freeblock]. *)
Record mkst : Type := mkMk { mk_img : gmap Z bytes; mk_freeinode : Z; mk_freeblock : Z }.

Definition rsect (sec : Z) : M mkst bytes :=
  let! img := gets mk_img in
  match img !! sec with
  | Some b => ret b
  | None => panic "read"
  end.
Definition wsect (sec : Z) (buf : bytes) : M mkst unit :=
  modify (fun s => mkMk (<[sec := buf]> (mk_img s)) (mk_freeinode s) (mk_freeblock s)).

Definition winode (inum : Z) (din : inode) : M mkst unit :=
  let bn := IBLOCK inum sb in
  let! buf := rsect bn in
  wsect bn (store_dinode din (dinode_off inum) buf).
Definition rinode (inum : Z) : M mkst inode :=
  let! buf := rsect (IBLOCK inum sb) in
  ret (load_dinode buf (dinode_off inum) inode0).

Definition new_inode : M mkst Z :=
  let! inum := gets mk_freeinode in
  modify (fun s => mkMk (mk_img s) (u32 (mk_freeinode s + 1)) (mk_freeblock s)) ;;;
  ret inum.
Definition ialloc (type : Z) : M mkst Z :=
  let! inum := new_inode in
  winode inum (set_inlink 1 (set_itype type inode0)) ;;;
  ret inum.

(** [freeblock++] *)
Definition new_block : M mkst Z :=
  let! b := gets mk_freeblock in
  modify (fun s => mkMk (mk_img s) (mk_freeinode s) (u32 (mk_freeblock s + 1))) ;;;
  ret b.

Definition balloc (used : Z) : M mkst unit :=
  if negb (used <? BPB) then panic "assert"
  else wsect (sb_bmapstart sb) (foldl set_bit zero_block (seqZ 0 used)).

(** The block of the file for block number fbn; allocates it if need be. *)
Definition append_block (din : inode) (fbn : Z) : M mkst (inode * Z) :=
  if fbn <? NDIRECT then
    let! din := if i_addr din fbn =? 0 then let! b := new_block in ret (set_iaddr fbn b din) else ret din in
    ret (din, i_addr din fbn)
  else
    let! din := if i_addr din NDIRECT =? 0 then let! b := new_block in ret (set_iaddr NDIRECT b din) else ret din in
    let! indirect := rsect (i_addr din NDIRECT) in
    if ind_get indirect (fbn - NDIRECT) =? 0 then
      let! b := new_block in
      wsect (i_addr din NDIRECT) (ind_put indirect (fbn - NDIRECT) b) ;;;
      ret (din, b)
    else ret (din, ind_get indirect (fbn - NDIRECT)).

(** The loop of [iappend]; every round copies at least one byte of p. *)
Fixpoint append_loop (fuel : nat) (din : inode) (off : Z) (p : bytes) : M mkst (inode * Z) :=
  match p with
  | [] => ret (din, off)
  | _ =>
      match fuel with
      | O => undefined_behaviour "iappend: fuel"
      | S fuel =>
          let fbn := off / BSIZE in
          if negb (fbn <? MAXFILE) then panic "assert"
          else
            let! r := append_block din fbn in
            let n1 := Z.min (Z.of_nat (length p)) ((fbn + 1) * BSIZE - off) in
            let! buf := rsect r.2 in
            wsect r.2 (splice buf (Z.to_nat (off - fbn * BSIZE)) (take (Z.to_nat n1) p)) ;;;
            append_loop fuel r.1 (u32 (off + n1)) (drop (Z.to_nat n1) p)
      end
  end.

Definition iappend (inum : Z) (p : bytes) : M mkst unit :=
  let! din := rinode inum in
  let! r := append_loop (length p) din (i_size din) p in
  winode inum (set_isize r.2 r.1).

(** *** main *)

Definition USER_ : bytes := [117; 115; 101; 114; 47].
Definition UNDERSCORE : Z := 95.

Definition strip_user (arg : bytes) : bytes := if bool_decide (take 5 arg = USER_) then drop 5 arg else arg.
Definition strip_underscore (name : bytes) : bytes :=
  match name with
  | c :: name' => if c =? UNDERSCORE then name' else name
  | [] => []
  end.

Fixpoint append_all (inum : Z) (pieces : list bytes) : M mkst unit :=
  match pieces with
  | [] => ret tt
  | p :: pieces => iappend inum p ;;; append_all inum pieces
  end.

(** One round of the loop over the arguments. *)
Definition add_file (rootino : Z) (arg : bytes) (pieces : list bytes) : M mkst unit :=
  let shortname := strip_user arg in
  if bool_decide (SLASH ∈ shortname) then panic "assert"
  else
    let shortname := strip_underscore shortname in
    if negb (Z.of_nat (length shortname) <=? DIRSIZ) then panic "assert"
    else
      let! inum := ialloc T_FILE in
      iappend rootino (mk_dirent inum shortname) ;;;
      append_all inum pieces.
Fixpoint add_files (rootino : Z) (files : list (bytes * list bytes)) : M mkst unit :=
  match files with
  | [] => ret tt
  | (arg, pieces) :: files => add_file rootino arg pieces ;;; add_files rootino files
  end.

Definition DOT : Z := 46.

Definition mkfs (files : list (bytes * list bytes)) : M mkst unit :=
  modify (fun s => mkMk (mk_img s) (mk_freeinode s) nmeta) ;;;
  iter FSSIZE (fun i => wsect i zero_block) ;;;
  wsect 1 (splice zero_block 0 (encode_sb sb)) ;;;
  let! rootino := ialloc T_DIR in
  if negb (rootino =? ROOTINO) then panic "assert"
  else
    iappend rootino (mk_dirent rootino [DOT]) ;;;
    iappend rootino (mk_dirent rootino [DOT; DOT]) ;;;
    add_files rootino files ;;;
    let! din := rinode rootino in
    let off := (i_size din / BSIZE + 1) * BSIZE in
    winode rootino (set_isize off din) ;;;
    let! used := gets mk_freeblock in
    balloc used.

(** The file is created empty; [freeinode] starts at 1. *)
Definition start : mkst := mkMk ∅ 1 0.

End Mkfs.
