(* ===== verification/MkfsInv.v ===== *)
(** * mkfs: invariant of the image

    [file_at img i c P fb]: the inode i of the image has blocks in the slots
    of P, all between the meta blocks and fb, and they hold the contents c
    followed by zeros.  [iappend] extends c and touches no other file. *)
From S2P Require Import Prelude Params Sleeplock CString Interfaces Fs FsBlocks FsInode FsData FsWrite Mkfs.
Import Mkfs.

Implicit Types (img : gmap Z bytes) (i : inode) (c : bytes).

Definition view img (b : Z) : bytes := img !!! b.
Definition vslot img i (k : Z) : Z := slot_in (view img) i k.
(** Byte x of c, and 0 past its end. *)
Definition cbyte c (x : Z) : Z := default 0 (c !! Z.to_nat x).

Record file_at img i c (P : Z -> Prop) (fb : Z) : Prop := {
  fa_inode : inode_ok i;
  fa_len : forall x, 0 <= x < Z.of_nat (length c) -> P (x / BSIZE) /\ x / BSIZE < MAXFILE;
  fa_slot : forall k, is_slot k -> vslot img i k <> 0 <-> P k;
  fa_range : forall k, is_slot k -> P k -> nmeta <= vslot img i k < fb;
  fa_inj : forall k k', is_slot k -> is_slot k' -> P k -> vslot img i k = vslot img i k' -> k = k';
  fa_byte : forall x, 0 <= x < MAXFILE * BSIZE -> P (x / BSIZE) -> (img !!! vslot img i (x / BSIZE)) !!! Z.to_nat (x `mod` BSIZE) = cbyte c x }.

(** The sectors are those below FSSIZE, and those from fb on are zero. *)
Record img_ok img (fb : Z) : Prop := {
  io_dom : forall b, 0 <= b < FSSIZE -> exists x, img !! b = Some x /\ block_ok x;
  io_disk : forall b x, img !! b = Some x -> 0 <= b < FSSIZE /\ block_ok x;
  io_fb : nmeta <= fb <= FSSIZE;
  io_zero : forall b, fb <= b < FSSIZE -> img !! b = Some zero_block }.

(** A step that works on the file of inode i: its slots stay, new ones are new
    blocks, sectors that were handed out to others keep their contents. *)
Record extends img i (fb : Z) img' i' (fb' : Z) : Prop := {
  ex_slots : forall k, is_slot k -> vslot img i k <> 0 -> vslot img' i' k = vslot img i k;
  ex_new : forall k, is_slot k -> vslot img i k = 0 -> vslot img' i' k <> 0 -> fb <= vslot img' i' k;
  ex_frame : forall b, b < fb -> (forall k, is_slot k -> vslot img i k <> b) -> img' !! b = img !! b;
  ex_fb : fb <= fb';
  ex_inode : exists addrs, i' = wrote_inode i (i_size i) addrs /\ inode_ok i' }.

Lemma extends_refl img i fb : inode_ok i -> extends img i fb img i fb.
Proof. intros Hi. split; try done. exists (i_addrs i). split; [by destruct i|done]. Qed.

Lemma extends_trans img i fb img1 i1 fb1 img2 i2 fb2 : extends img i fb img1 i1 fb1 -> extends img1 i1 fb1 img2 i2 fb2 -> extends img i fb img2 i2 fb2.
Proof.
  intros [S1 N1 F1 B1 (a1 & -> & O1)] [S2 N2 F2 B2 (a2 & -> & O2)]. split.
  - intros k Hk Hz. by rewrite S2, S1 by (rewrite ?S1; done).
  - intros k Hk Hz Hnz. destruct (decide (vslot img1 (wrote_inode i (i_size i) a1) k = 0)) as [Hz1|Hz1].
    + specialize (N2 k Hk Hz1 Hnz). lia.
    + rewrite S2 by done. by apply N1.
  - intros b Hb Hns. rewrite F2; [by apply F1|lia|]. intros k Hk E. destruct (decide (vslot img i k = 0)) as [Hz|Hz].
    + destruct (decide (b = 0)) as [->|Hb0]; [by apply (Hns k Hk)|]. specialize (N1 k Hk Hz). rewrite E in N1. specialize (N1 Hb0). lia.
    + apply (Hns k Hk). by rewrite <- S1.
  - lia.
  - exists a2. done.
Qed.

(** ** Slots of a changed file *)

Lemma vslot_frame img img' i k : (i_addr i NDIRECT <> 0 -> img' !! i_addr i NDIRECT = img !! i_addr i NDIRECT) -> vslot img' i k = vslot img i k.
Proof.
  intros He. unfold vslot, slot_in. destruct (k =? -1); [done|]. destruct (k <? NDIRECT); [done|]. destruct (Z.eqb_spec (i_addr i NDIRECT) 0); [done|].
  unfold view. rewrite !lookup_total_alt, He by done. done.
Qed.

(** A file of someone else. *)
Lemma file_at_frame img img' i c P fb fb' : file_at img i c P fb -> fb <= fb' ->
  (forall k, is_slot k -> P k -> img' !! vslot img i k = img !! vslot img i k) -> file_at img' i c P fb'.
Proof.
  intros [Hi Hl Hs Hr Hj Hb] Hfb Hf. assert (forall k, vslot img' i k = vslot img i k) as E.
  { intros k. apply vslot_frame. intros Hz. apply (Hf (-1)); [unfold is_slot; klia|]. apply Hs; [unfold is_slot; klia|done]. }
  split; try done.
  - intros k Hk. rewrite E. by apply Hs.
  - intros k Hk HP. rewrite E. specialize (Hr k Hk HP). lia.
  - intros k k' Hk Hk'. rewrite !E. by apply Hj.
  - intros x Hx HP. rewrite E, <- Hb by done. pose proof (block_of x Hx). rewrite !(lookup_total_alt (M:=gmap Z)), Hf; [done|unfold is_slot; lia|done].
Qed.

Lemma file_at_iff img i c P Q fb : file_at img i c P fb -> (forall k, is_slot k -> P k <-> Q k) -> file_at img i c Q fb.
Proof.
  intros [Hi Hl Hs Hr Hj Hb] E. assert (forall x, 0 <= x < MAXFILE * BSIZE -> is_slot (x / BSIZE)) as Hsl by (intros x Hx; pose proof (block_of x Hx); unfold is_slot; lia).
  split; try done.
  - intros x Hx. destruct (Hl x Hx) as [HP Hm]. assert (0 <= x / BSIZE) by (apply Z.div_pos; klia). split; [|done]. apply E; [unfold is_slot; lia|done].
  - intros k Hk. rewrite Hs by done. by apply E.
  - intros k Hk HQ. apply Hr; [done|]. by apply E.
  - intros k k' Hk Hk' HQ. apply Hj; try done. by apply E.
  - intros x Hx HQ. apply Hb; [done|]. apply E; [by apply Hsl|done].
Qed.

(** Slot j of the file becomes the fresh, zero block r. *)
Lemma file_at_grow img i c P fb img' i' j r fb' : file_at img i c P fb -> inode_ok i' -> is_slot j -> ~ P j -> nmeta <= fb -> fb <= r < fb' ->
  (forall k, is_slot k -> vslot img' i' k = if decide (k = j) then r else vslot img i k) ->
  (forall k, 0 <= k < MAXFILE -> P k -> img' !! vslot img i k = img !! vslot img i k) -> img' !! r = Some zero_block ->
  file_at img' i' c (fun k => P k \/ k = j) fb'.
Proof.
  intros [Hi Hl Hs Hr Hj Hb] Hi' Hjs HnP Hmeta Hrr Hsl Hfr Hz. assert (0 < nmeta) as Hm0 by (vm_compute; done).
  assert (forall k, is_slot k -> k <> j -> vslot img' i' k = vslot img i k) as Hold by (intros k Hk Hne; by rewrite Hsl, decide_False).
  assert (vslot img' i' j = r) as Hnew by (by rewrite Hsl, decide_True).
  split; [done|..].
  - intros x Hx. destruct (Hl x Hx). split; [by left|done].
  - intros k Hk. destruct (decide (k = j)) as [->|Hne]; [rewrite Hnew; split; [by right|lia]|]. rewrite Hold, Hs by done. tauto.
  - intros k Hk HP. destruct (decide (k = j)) as [->|Hne]; [rewrite Hnew; lia|]. rewrite Hold by done. destruct HP as [HP|]; [|done]. specialize (Hr k Hk HP). lia.
  - intros k k' Hk Hk' HP E. destruct (decide (k = j)) as [->|Hn], (decide (k' = j)) as [->|Hn']; [done|..].
    + rewrite Hnew, Hold in E by done. assert (P k') as HP' by (apply Hs; [done|lia]). specialize (Hr k' Hk' HP'). lia.
    + rewrite Hnew, Hold in E by done. destruct HP as [HP|]; [|done]. specialize (Hr k Hk HP). lia.
    + rewrite !Hold in E by done. destruct HP as [HP|]; [|done]. by apply Hj.
  - intros x Hx HP. pose proof (block_of x Hx) as Hq. destruct (decide (x / BSIZE = j)) as [E|Hne].
    + rewrite E, Hnew, (lookup_total_correct _ _ _ Hz), zero_block_at. unfold cbyte. rewrite lookup_ge_None_2; [done|].
      destruct (decide (x < Z.of_nat (length c))); [|lia]. exfalso. apply HnP. rewrite <- E. apply Hl. lia.
    + destruct HP as [HP|]; [|done]. rewrite Hold by (unfold is_slot; lia || done). rewrite <- Hb by done. by rewrite !(lookup_total_alt (M:=gmap Z)), Hfr.
Qed.

Lemma extends_one img i fb img' i' j r fb' : (exists addrs, i' = wrote_inode i (i_size i) addrs /\ inode_ok i') -> vslot img i j = 0 -> fb <= r -> fb <= fb' ->
  (forall k, is_slot k -> vslot img' i' k = if decide (k = j) then r else vslot img i k) ->
  (forall b, b < fb -> (forall k, is_slot k -> vslot img i k <> b) -> img' !! b = img !! b) -> extends img i fb img' i' fb'.
Proof.
  intros Hi Hj Hr Hfb Hsl Hfr. split; try done.
  - intros k Hk Hz. rewrite Hsl by done. case_decide; [congruence|done].
  - intros k Hk Hz. rewrite Hsl by done. case_decide; [lia|congruence].
Qed.

(** ** The next block of a file *)

(** The slots of a file of nb blocks, and how many blocks they take. *)
Definition full (nb k : Z) : Prop := 0 <= k < nb \/ k = -1 /\ NDIRECT < nb.
Definition cost (nb : Z) : Z := nb + if decide (NDIRECT < nb) then 1 else 0.

Lemma set_iaddr_shape k a i : inode_ok i -> exists addrs, set_iaddr k a i = wrote_inode i (i_size i) addrs /\ inode_ok (set_iaddr k a i).
Proof. intros Hi. eexists. split; [done|]. by apply set_iaddr_ok. Qed.

Lemma img_ok_block img fb b : img_ok img fb -> 0 <= b < FSSIZE -> exists x, img !! b = Some x /\ block_ok x /\ img !!! b = x.
Proof. intros Hok Hb. destruct (io_dom _ _ Hok b Hb) as (x & Hx & Hbk). exists x. split; [done|]. split; [done|]. by apply lookup_total_correct. Qed.

Lemma img_ok_more img fb fb' : img_ok img fb -> fb <= fb' <= FSSIZE -> img_ok img fb'.
Proof. intros [Hd Hx Hf Hz] Hle. split; [done|done|lia|]. intros b Hb. apply Hz. lia. Qed.

Lemma img_ok_insert img fb b x : img_ok img fb -> 0 <= b < fb -> block_ok x -> img_ok (<[b := x]> img) fb.
Proof.
  intros [Hd Ha Hf Hz] Hb Hx. split; [| |done|].
  - intros b' Hb'. destruct (decide (b' = b)) as [->|Hne]; [exists x; by rewrite lookup_insert_eq|]. rewrite lookup_insert_ne by done. by apply Hd.
  - intros b' y. rewrite lookup_insert_Some. intros [[<- <-]|[_ Hy]]; [split; [lia|done]|by apply Ha].
  - intros b' Hb'. rewrite lookup_insert_ne by lia. by apply Hz.
Qed.

Section append.
Context (fi : Z).

Lemma new_block_wp img fb (Q : Z -> mkst -> Prop) : 0 <= fb < FSSIZE -> Q fb (mkMk img fi (fb + 1)) -> wp new_block (mkMk img fi fb) Q.
Proof. intros Hfb HQ. apply wp_bind, wp_gets, wp_bind, wp_modify, wp_ret. cbn [mk_freeblock mk_img mk_freeinode]. rewrite u32_id; [done|]. klia. Qed.

Lemma rsect_wp img fb b (Q : bytes -> mkst -> Prop) : img_ok img fb -> 0 <= b < FSSIZE -> Q (img !!! b) (mkMk img fi fb) -> wp (rsect b) (mkMk img fi fb) Q.
Proof.
  intros Hok Hb HQ. destruct (img_ok_block _ _ _ Hok Hb) as (x & Hx & _ & E). unfold rsect. apply wp_bind, wp_gets. cbn [mk_img]. rewrite Hx. apply wp_ret. by rewrite <- E.
Qed.

(** The result of [append_block]. *)
Definition appended img i c (fb nb : Z) (fbn : Z) (r : inode * Z) (s' : mkst) : Prop := exists img' fb',
  s' = mkMk img' fi fb' /\ fb' = fb + cost (Z.max nb (fbn + 1)) - cost nb /\ img_ok img' fb' /\ file_at img' r.1 c (full (Z.max nb (fbn + 1))) fb' /\
  extends img i fb img' r.1 fb' /\ r.2 = vslot img' r.1 fbn.

Lemma append_direct img i c nb fb fbn : file_at img i c (full nb) fb -> img_ok img fb -> 0 <= fbn <= nb -> fbn < NDIRECT -> fb + cost (Z.max nb (fbn + 1)) - cost nb <= FSSIZE ->
  wp (append_block i fbn) (mkMk img fi fb) (appended img i c fb nb fbn).
Proof.
  intros Hf Hok Hb Hlt Hroom. pose proof (fa_inode _ _ _ _ _ Hf) as Hi. pose proof (io_fb _ _ Hok) as Hfb. assert (0 < nmeta) as Hm0 by (vm_compute; done).
  assert (is_slot fbn) as Hsl by (unfold is_slot; klia). assert (vslot img i fbn = i_addr i fbn) as Hv.
  { unfold vslot, slot_in. replace (fbn =? -1) with false by lia. by replace (fbn <? NDIRECT) with true by lia. }
  unfold append_block. replace (fbn <? NDIRECT) with true by lia. apply wp_bind. pose proof (fa_slot _ _ _ _ _ Hf fbn Hsl) as Hs. rewrite Hv in Hs.
  destruct (Z.eqb_spec (i_addr i fbn) 0) as [Hz|Hz].
  - assert (~ full nb fbn) as Hnf by (intros HP; by apply Hs in HP). assert (fbn = nb) as -> by (unfold full in Hnf; lia).
    rewrite Z.max_r in * by lia. assert (cost (nb + 1) = cost nb + 1) as Hc by (unfold cost; repeat case_decide; lia).
    apply wp_bind, new_block_wp; [lia|]. apply wp_ret, wp_ret. set (i' := set_iaddr nb fb i).
    assert (forall k, is_slot k -> vslot img i' k = if decide (k = nb) then fb else vslot img i k) as Hsl' by (intros k Hk; apply slot_in_direct; (done || lia)).
    unfold appended. rewrite (Z.max_r nb (nb + 1)) by lia. exists img, (fb + 1). cbn [fst snd]. split; [done|]. split; [lia|]. split; [apply (img_ok_more img fb); [done|lia]|]. split; [|split].
    + eapply file_at_iff; [eapply (file_at_grow img i c _ fb img i' nb fb (fb + 1)); try done; [by apply set_iaddr_ok|lia|lia|by apply (io_zero _ _ Hok); lia]|].
      intros k Hk. unfold full. lia.
    + apply (extends_one img i fb img i' nb fb); [by apply set_iaddr_shape|by rewrite Hv|lia|lia|done|done].
    + rewrite Hsl', decide_True by done. unfold i'. rewrite set_iaddr_addr by (done || lia). by rewrite decide_True.
  - assert (full nb fbn) as HP by (by apply Hs). apply wp_ret, wp_ret. unfold appended. rewrite Z.max_l in * by (unfold full in HP; lia). exists img, fb.
    cbn [fst snd]. split; [done|]. split; [lia|]. split; [done|]. split; [done|]. split; [by apply extends_refl|done].
Qed.

(** Through the indirect block, which i has. *)
Lemma append_entry img i c P fb fbn : file_at img i c P fb -> img_ok img fb -> NDIRECT <= fbn < MAXFILE -> i_addr i NDIRECT <> 0 ->
  (~ P fbn -> fb < FSSIZE) ->
  wp (let! indirect := rsect (i_addr i NDIRECT) in
      if ind_get indirect (fbn - NDIRECT) =? 0 then
        let! b := new_block in
        wsect (i_addr i NDIRECT) (ind_put indirect (fbn - NDIRECT) b) ;;;
        ret (i, b)
      else ret (i, ind_get indirect (fbn - NDIRECT))) (mkMk img fi fb)
    (fun r s' => exists img' fb', s' = mkMk img' fi fb' /\ img_ok img' fb' /\ file_at img' r.1 c (fun k => P k \/ k = fbn) fb' /\
      extends img i fb img' r.1 fb' /\ r.2 = vslot img' r.1 fbn /\ (P fbn /\ fb' = fb \/ ~ P fbn /\ fb' = fb + 1)).
Proof.
  intros Hf Hok Hb HA Hroom. set (A := i_addr i NDIRECT) in *. pose proof (fa_inode _ _ _ _ _ Hf) as Hi. pose proof (io_fb _ _ Hok) as Hfb.
  assert (0 < nmeta) as Hm0 by (vm_compute; done). assert (is_slot (-1)) as Hs1 by (unfold is_slot; klia). assert (is_slot fbn) as Hsl by (unfold is_slot; klia).
  assert (P (-1)) as HP1 by (by apply (fa_slot _ _ _ _ _ Hf)). pose proof (fa_range _ _ _ _ _ Hf (-1) Hs1 HP1) as HrA. change (vslot img i (-1)) with A in HrA.
  assert (vslot img i fbn = ind_get (img !!! A) (fbn - NDIRECT)) as Hv.
  { unfold vslot, slot_in. replace (fbn =? -1) with false by klia. replace (fbn <? NDIRECT) with false by lia. fold A. by rewrite (proj2 (Z.eqb_neq A 0)). }
  pose proof (fa_slot _ _ _ _ _ Hf fbn Hsl) as Hs. rewrite Hv in Hs. destruct (img_ok_block _ _ A Hok ltac:(lia)) as (x & Hx & Hbx & Ex).
  apply wp_bind, (rsect_wp img fb); [done|lia|]. destruct (Z.eqb_spec (ind_get (img !!! A) (fbn - NDIRECT)) 0) as [Hz|Hz].
  - assert (~ P fbn) as HnP by (intros HP; by apply Hs in HP). specialize (Hroom HnP). apply wp_bind, new_block_wp; [lia|].
    apply wp_bind, wp_modify, wp_ret. cbn [mk_img mk_freeinode mk_freeblock fst snd]. rewrite Ex in *. destruct Hbx as [Hlen Hbytes].
    set (img' := <[A := ind_put x (fbn - NDIRECT) fb]> img).
    assert (forall k, is_slot k -> vslot img' i k = if decide (k = fbn) then fb else vslot img i k) as Hsl'.
    { intros k Hk. apply slot_in_put; try done; [klia|by unfold view; fold A; rewrite Ex|]. unfold view, img'. fold A. by rewrite lookup_total_insert_eq, Ex. }
    assert (forall b, b <> A -> img' !! b = img !! b) as Hfr by (intros b Hne; by apply lookup_insert_ne).
    exists img', (fb + 1). split; [done|]. split.
    { apply (img_ok_more img' fb); [|lia]. apply img_ok_insert; [done|lia|]. split; [unfold ind_put; rewrite length_put_u32; klia|by apply put_u32_bytes]. }
    split; [|split; [|split; [by rewrite Hsl', decide_True by done|by right]]].
    + apply (file_at_grow img i c P fb img' i fbn fb (fb + 1)); try done; try lia; [|rewrite Hfr by lia; apply (io_zero _ _ Hok); lia].
      intros k Hk HP. apply Hfr. intros E. assert (k = -1); [|lia]. apply (fa_inj _ _ _ _ _ Hf); [unfold is_slot; lia|done|done|exact E].
    + apply (extends_one img i fb img' i fbn fb); [exists (i_addrs i); by destruct i|by rewrite Hv|lia|lia|done|].
      intros b Hb' Hns. apply Hfr. intros ->. by apply (Hns (-1)).
  - assert (P fbn) as HP by (by apply Hs). apply wp_ret. exists img, fb. cbn [fst snd]. split; [done|]. split; [done|].
    split; [eapply file_at_iff; [done|]; intros k Hk; split; [tauto|intros [?| ->]; done]|]. split; [by apply extends_refl|]. split; [done|by left].
Qed.

Lemma append_indirect img i c nb fb fbn : file_at img i c (full nb) fb -> img_ok img fb -> NDIRECT <= fbn <= nb -> fbn < MAXFILE ->
  fb + cost (Z.max nb (fbn + 1)) - cost nb <= FSSIZE -> wp (append_block i fbn) (mkMk img fi fb) (appended img i c fb nb fbn).
Proof.
  intros Hf Hok Hb Hmax Hroom. pose proof (fa_inode _ _ _ _ _ Hf) as Hi. pose proof (io_fb _ _ Hok) as Hfb. assert (0 < nmeta) as Hm0 by (vm_compute; done).
  assert (is_slot (-1)) as Hs1 by (unfold is_slot; klia). pose proof (fa_slot _ _ _ _ _ Hf (-1) Hs1) as Hs. change (vslot img i (-1)) with (i_addr i NDIRECT) in Hs.
  unfold append_block. replace (fbn <? NDIRECT) with false by lia. unfold appended. apply wp_bind. destruct (Z.eqb_spec (i_addr i NDIRECT) 0) as [Hz|Hz].
  - assert (~ full nb (-1)) as Hnf by (intros HP; by apply Hs in HP). assert (nb = NDIRECT /\ fbn = nb) as [Hnb Efbn] by (unfold full in Hnf; lia). subst fbn.
    rewrite Z.max_r in * by lia. assert (cost (nb + 1) = cost nb + 2) as Hc by (unfold cost; repeat case_decide; lia).
    apply wp_bind, new_block_wp; [lia|]. apply wp_ret. set (i1 := set_iaddr NDIRECT fb i). assert (img !! fb = Some zero_block) as Hzero by (apply (io_zero _ _ Hok); lia).
    assert (forall k, is_slot k -> vslot img i1 k = if decide (k = -1) then fb else vslot img i k) as Hsl1.
    { intros k Hk. apply slot_in_ind; try done. unfold view. by apply lookup_total_correct. }
    assert (file_at img i1 c (fun k => full nb k \/ k = -1) (fb + 1)) as Hf1.
    { apply (file_at_grow img i c _ fb img i1 (-1) fb (fb + 1)); try done; try lia. by apply set_iaddr_ok. }
    assert (i_addr i1 NDIRECT = fb) as HA1 by (exact (Hsl1 (-1) Hs1)).
    eapply wp_mono; [apply (append_entry img i1 c _ (fb + 1) nb Hf1); [apply (img_ok_more img fb); [done|lia]|lia|lia|lia]|].
    intros r s' (img' & fb' & -> & Hok' & Hf' & Hex & Hr & Hcase). exists img', fb'. split; [done|].
    assert (fb' = fb + 2) as -> by (unfold full in Hcase; klia). split; [lia|]. split; [done|].
    split; [eapply file_at_iff; [done|]; intros k Hk; unfold full; klia|]. split; [|done]. eapply extends_trans; [|exact Hex].
    apply (extends_one img i fb img i1 (-1) fb); [by apply set_iaddr_shape|done|lia|lia|done|done].
  - assert (full nb (-1)) as HP by (by apply Hs). assert (NDIRECT < nb) as Hnb by (unfold full in HP; lia). apply wp_ret.
    eapply wp_mono; [apply (append_entry img i c _ fb fbn Hf Hok); [lia|done|]|].
    { unfold full. intros Hn. assert (fbn = nb) as -> by klia. rewrite Z.max_r in Hroom by klia. unfold cost in Hroom. rewrite !decide_True in Hroom by klia. klia. }
    intros r s' (img' & fb' & -> & Hok' & Hf' & Hex & Hr & Hcase). exists img', fb'. split; [done|].
    split; [unfold full, cost in *; rewrite !decide_True by klia; klia|]. split; [done|]. split; [eapply file_at_iff; [done|]; intros k Hk; unfold full; klia|]. done.
Qed.

Lemma append_block_wp img i c nb fb fbn : file_at img i c (full nb) fb -> img_ok img fb -> 0 <= fbn <= nb -> fbn < MAXFILE ->
  fb + cost (Z.max nb (fbn + 1)) - cost nb <= FSSIZE -> wp (append_block i fbn) (mkMk img fi fb) (appended img i c fb nb fbn).
Proof. intros. destruct (decide (fbn < NDIRECT)); [by apply append_direct|]. apply append_indirect; (done || lia). Qed.

(** ** Bytes *)

Lemma cbyte_app c p x : 0 <= x -> cbyte (c ++ p) x = if decide (x < Z.of_nat (length c)) then cbyte c x else cbyte p (x - Z.of_nat (length c)).
Proof.
  intros Hx. unfold cbyte. case_decide; [by rewrite lookup_app_l by lia|]. rewrite lookup_app_r by lia. do 2 f_equal. lia.
Qed.

Lemma file_at_write img i c P fb q p : let off := Z.of_nat (length c) in let n1 := Z.of_nat (length p) in
  file_at img i c P fb -> 0 <= q < MAXFILE -> P q -> off / BSIZE = q -> off `mod` BSIZE + n1 <= BSIZE -> length (img !!! vslot img i q) = Z.to_nat BSIZE ->
  let img' := <[vslot img i q := splice (img !!! vslot img i q) (Z.to_nat (off `mod` BSIZE)) p]> img in
  file_at img' i (c ++ p) P fb /\ extends img i fb img' i fb.
Proof.
  intros off n1 Hf Hq HPq Eq Hfit Hlen img'. pose proof Hf as [Hi Hl Hs Hr Hj Hb]. set (b := vslot img i q) in *.
  assert (is_slot q) as Hsq by (unfold is_slot; lia). pose proof (Hr q Hsq HPq) as Hrb. fold b in Hrb. pose proof (Z_div_mod_eq_full off BSIZE) as Edm. rewrite Eq in Edm.
  pose proof (eq_refl : n1 = Z.of_nat (length p)) as En1. pose proof (eq_refl : off = Z.of_nat (length c)) as Eoff. clearbody off n1.
  assert (forall k, is_slot k -> k <> q -> vslot img i k <> b) as Hother by (intros k Hk Hne E; apply Hne; symmetry; apply Hj; [done|done|done|by rewrite E]).
  assert (forall k, vslot img' i k = vslot img i k) as E.
  { intros k. apply vslot_frame. intros Hz. apply lookup_insert_ne. intros E. apply (Hother (-1)); [unfold is_slot; klia|lia|done]. }
  split.
  - split; try done.
    + intros x Hx. rewrite length_app in Hx. destruct (decide (x < off)) as [|Hge]; [by apply Hl; lia|].
      assert (x / BSIZE = q) as ->; [|split; [done|lia]]. symmetry. apply Z.div_unique with (off `mod` BSIZE + (x - off)); [left; pose proof (Z.mod_pos_bound off BSIZE ltac:(klia)); lia|lia].
    + intros k Hk. rewrite E. by apply Hs.
    + intros k Hk. rewrite E. by apply Hr.
    + intros k k' Hk Hk'. rewrite !E. by apply Hj.
    + intros x Hx HP. rewrite E, cbyte_app by lia. rewrite <- Eoff. pose proof (block_of x Hx) as Hxq. destruct (decide (x / BSIZE = q)) as [Exq|Hne].
      * rewrite Exq. fold b. unfold img'. rewrite lookup_total_insert_eq. pose proof (Z_div_mod_eq_full x BSIZE) as Ex. pose proof (Z.mod_pos_bound x BSIZE ltac:(klia)).
        pose proof (Z.mod_pos_bound off BSIZE ltac:(klia)). rewrite list_lookup_total_alt, lookup_splice by klia. specialize (Hb x Hx HP). rewrite Exq in Hb. fold b in Hb.
        case_decide as Hin.
        -- rewrite decide_False by lia. unfold cbyte. replace (Z.to_nat (x - off)) with (Z.to_nat (x `mod` BSIZE) - Z.to_nat (off `mod` BSIZE))%nat by (rewrite Exq in Ex; lia).
           destruct (lookup_lt_is_Some_2 p (Z.to_nat (x `mod` BSIZE) - Z.to_nat (off `mod` BSIZE))%nat ltac:(lia)) as [y ->]. done.
        -- rewrite <- list_lookup_total_alt, Hb. case_decide; [done|]. unfold cbyte. rewrite !lookup_ge_None_2 by lia. done.
      * unfold img'. rewrite lookup_total_insert_ne by (intros Eb; by apply (Hother (x / BSIZE)); [unfold is_slot; lia|done|]).
        rewrite Hb by done. destruct (decide (x < off)) as [|Hge]; [done|]. unfold cbyte. rewrite !lookup_ge_None_2; [done|..]; [|lia].
        assert (q < x / BSIZE) by (assert (q <= x / BSIZE); [|lia]; rewrite <- Eq; apply Z.div_le_mono; klia).
        pose proof (Z_div_mod_eq_full x BSIZE). pose proof (Z.mod_pos_bound x BSIZE ltac:(klia)). klia.
  - split; [done|..].
    + intros k Hk Hz. rewrite E. done.
    + intros b' Hb' Hns. apply lookup_insert_ne. by apply Hns.
    + done.
    + exists (i_addrs i). by destruct i.
Qed.

(** ** [iappend] *)

Definition nblk (len : Z) : Z := (len + BSIZE - 1) / BSIZE.

Lemma nblk_unique len q : 0 <= q -> (q - 1) * BSIZE < len <= q * BSIZE -> nblk len = q.
Proof. intros Hq Hl. unfold nblk. symmetry. apply Z.div_unique with (len + BSIZE - 1 - BSIZE * q); [left; klia|lia]. Qed.
Lemma nblk_bounds len : 0 <= len -> 0 <= nblk len /\ (nblk len - 1) * BSIZE < len <= nblk len * BSIZE.
Proof.
  intros Hl. unfold nblk. pose proof (Z_div_mod_eq_full (len + BSIZE - 1) BSIZE). pose proof (Z.mod_pos_bound (len + BSIZE - 1) BSIZE ltac:(klia)).
  split; [apply Z.div_pos; klia|klia].
Qed.
Lemma cost_mono a b : a <= b -> cost a <= cost b.
Proof. unfold cost. repeat case_decide; lia. Qed.

(** A file with contents c. *)
Definition holds img i c (fb : Z) : Prop := file_at img i c (full (nblk (Z.of_nat (length c)))) fb.
(** What appending p to it costs. *)
Definition grow_cost (len n : Z) : Z := cost (nblk (len + n)) - cost (nblk len).

Lemma append_step img i c fb p : let off := Z.of_nat (length c) in let n1 := Z.min (Z.of_nat (length p)) ((off / BSIZE + 1) * BSIZE - off) in
  holds img i c fb -> img_ok img fb -> Forall is_byte p -> p <> [] -> off + n1 <= MAXFILE * BSIZE -> fb + grow_cost off n1 <= FSSIZE ->
  0 < n1 <= Z.of_nat (length p) /\ off / BSIZE < MAXFILE /\
  wp (let! r := append_block i (off / BSIZE) in
      let! buf := rsect r.2 in
      wsect r.2 (splice buf (Z.to_nat (off - off / BSIZE * BSIZE)) (take (Z.to_nat n1) p)) ;;; ret r.1) (mkMk img fi fb)
    (fun i' s' => exists img', s' = mkMk img' fi (fb + grow_cost off n1) /\ img_ok img' (fb + grow_cost off n1) /\
      holds img' i' (c ++ take (Z.to_nat n1) p) (fb + grow_cost off n1) /\ extends img i fb img' i' (fb + grow_cost off n1)).
Proof.
  intros off n1 Hf Hok Hp Hne Hmax Hroom. set (q := off / BSIZE) in *. assert (0 <= off) as Hoff by (unfold off; lia).
  pose proof (Z_div_mod_eq_full off BSIZE) as Edm. fold q in Edm. pose proof (Z.mod_pos_bound off BSIZE ltac:(klia)) as Hmod.
  assert (0 < Z.of_nat (length p)) as Hpl by (destruct p; [done|cbn; lia]). assert (0 <= q) as Hq0 by (apply Z.div_pos; klia).
  assert (0 < n1 <= Z.of_nat (length p)) as Hn1 by (unfold n1; klia). assert (q < MAXFILE) as Hqm by (unfold n1 in *; klia).
  split; [done|]. split; [done|]. assert (nblk (off + n1) = q + 1) as Enb by (apply nblk_unique; unfold n1; klia).
  destruct (nblk_bounds off Hoff) as [Hb0 Hb]. assert (0 <= q <= nblk off) as Hqnb by klia. assert (Z.max (nblk off) (q + 1) = q + 1) as Emax by klia.
  unfold holds in Hf. fold off in Hf. unfold grow_cost in *. rewrite Enb in *. apply wp_bind.
  eapply wp_mono; [apply (append_block_wp img i c (nblk off) fb q Hf Hok Hqnb Hqm); rewrite Emax; lia|].
  intros [i' b] s' (img1 & fb1 & -> & Efb1 & Hok1 & Hf1 & Hex & Eb). cbn [fst snd] in *. rewrite Emax in *. subst b. set (b := vslot img1 i' q).
  assert (full (q + 1) q) as HPq by (left; lia). assert (0 < nmeta) as Hm0 by (vm_compute; done).
  pose proof (fa_range _ _ _ _ _ Hf1 q ltac:(unfold is_slot; lia) HPq) as Hrb. fold b in Hrb. pose proof (io_fb _ _ Hok1) as Hfb1.
  destruct (img_ok_block img1 fb1 b Hok1 ltac:(lia)) as (x & _ & [Hxl Hxb] & Ex).
  apply wp_bind, (rsect_wp img1 fb1); [done|lia|]. apply wp_bind, wp_modify, wp_ret. cbn [mk_img mk_freeinode mk_freeblock].
  replace (off - q * BSIZE) with (off `mod` BSIZE) by lia.
  assert (length (take (Z.to_nat n1) p) = Z.to_nat n1) as Hlt by (rewrite length_take; lia).
  destruct (file_at_write img1 i' c _ fb1 q (take (Z.to_nat n1) p) Hf1 ltac:(lia) HPq eq_refl) as [Hf2 Hex2]; [rewrite Hlt; fold off; unfold n1; klia|fold b; by rewrite Ex|].
  fold b off in Hf2, Hex2. replace (fb + (cost (q + 1) - cost (nblk off))) with fb1 by lia. eexists. split; [done|]. split; [|split].
  - apply img_ok_insert; [done|lia|]. rewrite Ex. split; [rewrite length_splice; [done|]; rewrite Hlt, Hxl; unfold n1; klia|]. apply Forall_splice; [done|]. by apply Forall_take.
  - unfold holds. rewrite length_app, Hlt. replace (Z.of_nat (length c + Z.to_nat n1)) with (off + n1) by (unfold off; lia). by rewrite Enb.
  - by eapply extends_trans.
Qed.

Lemma wp_round {A} (m : M mkst (inode * Z)) (g : inode * Z -> M mkst bytes) (w : inode * Z -> bytes -> M mkst unit) (K : inode -> M mkst A) s P Q :
  wp (let! r := m in let! buf := g r in w r buf ;;; ret r.1) s P -> (forall i s', P i s' -> wp (K i) s' Q) ->
  wp (let! r := m in let! buf := g r in w r buf ;;; K r.1) s Q.
Proof.
  intros Hm HK. apply wp_bind_inv in Hm. apply wp_bind. eapply wp_mono; [exact Hm|]. intros r s1 H1. apply wp_bind_inv in H1. apply wp_bind.
  eapply wp_mono; [exact H1|]. intros b s2 H2. apply wp_bind_inv in H2. apply wp_bind. eapply wp_mono; [exact H2|]. intros ? s3 H3. by apply HK.
Qed.

Lemma append_loop_wp fuel : forall p img i c fb, let off := Z.of_nat (length c) in let n := Z.of_nat (length p) in
  (length p <= fuel)%nat -> holds img i c fb -> img_ok img fb -> Forall is_byte p -> off + n <= MAXFILE * BSIZE -> fb + grow_cost off n <= FSSIZE ->
  wp (append_loop fuel i off p) (mkMk img fi fb) (fun r s' => exists img', s' = mkMk img' fi (fb + grow_cost off n) /\ r.2 = off + n /\
    img_ok img' (fb + grow_cost off n) /\ holds img' r.1 (c ++ p) (fb + grow_cost off n) /\ extends img i fb img' r.1 (fb + grow_cost off n)).
Proof.
  induction fuel as [|fuel IH]; intros p img i c fb off n Hfuel Hf Hok Hp Hmax Hroom; (destruct (decide (p = [])) as [->|Hne]).
  1,3: assert (grow_cost off n = 0) as E0 by (unfold grow_cost, n; cbn; rewrite Z.add_0_r; lia); rewrite E0, Z.add_0_r in *;
    apply wp_ret; exists img; cbn [fst snd]; rewrite app_nil_r; split; [done|]; split; [unfold n; cbn; lia|]; split; [done|]; split; [done|]; apply extends_refl, Hf.
  1: destruct p; [done|cbn in Hfuel; lia].
  destruct p as [|a p']; [done|]. set (p := a :: p') in *. cbn [append_loop]. fold p. set (n1 := Z.min (Z.of_nat (length p)) ((off / BSIZE + 1) * BSIZE - off)).
  assert (n1 <= n) as Hn1n by (unfold n1, n; lia). assert (0 <= off) as Hoff by (unfold off; lia).
  assert (0 <= n1) as Hn10. { unfold n1. pose proof (Z_div_mod_eq_full off BSIZE). pose proof (Z.mod_pos_bound off BSIZE ltac:(klia)). klia. }
  assert (forall m, 0 <= m -> nblk off <= nblk (off + m)) as Hmono by (intros m Hm; apply Z.div_le_mono; klia).
  assert (nblk (off + n1) <= nblk (off + n)) as Hle by (apply Z.div_le_mono; klia). pose proof (cost_mono _ _ Hle) as Hcle.
  pose proof (append_step img i c fb p Hf Hok Hp Hne) as Hst. cbv zeta in Hst. fold off in Hst. fold n1 in Hst.
  destruct Hst as (Hn1 & Hq & Hstep); [lia|unfold grow_cost in *; lia|].
  replace (off / BSIZE <? MAXFILE) with true by lia. cbn [negb]. cbv iota.
  eapply (wp_round (append_block i (off / BSIZE)) (fun r => rsect r.2) (fun r buf => wsect r.2 (splice buf (Z.to_nat (off - off / BSIZE * BSIZE)) (take (Z.to_nat n1) p)))
    (fun i' => append_loop fuel i' (u32 (off + n1)) (drop (Z.to_nat n1) p))); [exact Hstep|].
  intros i' s' (img1 & -> & Hok1 & Hf1 & Hex1). rewrite u32_id by klia.
  set (c1 := c ++ take (Z.to_nat n1) p). assert (Z.of_nat (length c1) = off + n1) as Hc1 by (unfold c1, off; rewrite length_app, length_take; lia).
  pose proof (IH (drop (Z.to_nat n1) p) img1 i' c1 (fb + grow_cost off n1)) as Hrec. cbv zeta in Hrec. rewrite Hc1 in Hrec.
  assert (Z.of_nat (length (drop (Z.to_nat n1) p)) = n - n1) as Hdl by (rewrite length_drop; unfold n; lia). rewrite Hdl in Hrec.
  assert (fb + grow_cost off n1 + grow_cost (off + n1) (n - n1) = fb + grow_cost off n) as Ecost.
  { unfold grow_cost. replace (off + n1 + (n - n1)) with (off + n) by lia. lia. }
  rewrite Ecost in Hrec. eapply wp_mono; [apply Hrec; try done; [rewrite length_drop; unfold p in *; cbn in *; lia|by apply Forall_drop|lia]|].
  intros r s' (img' & -> & Er & Hok' & Hf' & Hex'). exists img'. split; [done|]. split; [lia|]. split; [done|].
  unfold c1 in Hf'. rewrite <- app_assoc, take_drop in Hf'. split; [done|]. by eapply extends_trans.
Qed.
End append.
