(* ===== verification/MkfsBuild.v ===== *)
(** * mkfs: building the image

    [built img fi fb fl]: the image holds the files of fl, a list of types and
    contents; file n is inode n + 1.  [ialloc] adds an empty file, [iappend]
    extends one. *)
From S2P Require Import Prelude Params Sleeplock CString Interfaces Fs FsBlocks FsInode FsData FsWrite Mkfs MkfsInv.
Import Mkfs.

Implicit Types (img : gmap Z bytes) (i : inode) (c : bytes).

(** ** Inodes of the image *)

Definition din img (inum : Z) : inode := load_dinode (img !!! IBLOCK inum sb) (dinode_off inum) inode0.

(** Inode records as mkfs has them: only the fields of a dinode are used. *)
Definition bare i : Prop := i_dev i = 0 /\ i_inum i = 0 /\ i_ref i = 0 /\ i_lock i = initsleeplock /\ i_valid i = false.

Lemma din_bare img inum : bare (din img inum).
Proof. done. Qed.
Lemma bare_eq i j : bare i -> bare j -> same_dinode i j -> i = j.
Proof.
  intros (A1 & A2 & A3 & A4 & A5) (B1 & B2 & B3 & B4 & B5) (C1 & C2 & C3 & C4 & C5 & C6). destruct i, j. cbn in *. congruence.
Qed.

Lemma nmeta_47 : nmeta = 47.
Proof. by vm_compute. Qed.

Definition is_inum (inum : Z) : Prop := 0 <= inum < NINODES.

Lemma IBLOCK_mkfs inum : is_inum inum -> IBLOCK inum sb = inum / IPB + 33 /\ 33 <= IBLOCK inum sb < 46.
Proof.
  intros Hn. unfold is_inum, NINODES in Hn. unfold IBLOCK. change (sb_inodestart sb) with 33.
  assert (0 <= inum / IPB) by (apply Z.div_pos; klia). assert (inum / IPB < 13) by (apply Z.div_lt_upper_bound; klia).
  rewrite u32_id by lia. lia.
Qed.

Lemma inum_apart inum inum' : is_inum inum -> is_inum inum' -> inum <> inum' -> IBLOCK inum sb = IBLOCK inum' sb ->
  dinode_off inum' + DINODE_SIZE <= dinode_off inum \/ dinode_off inum + DINODE_SIZE <= dinode_off inum'.
Proof.
  intros H1 H2 Hne E. destruct (IBLOCK_mkfs inum H1) as [E1 _], (IBLOCK_mkfs inum' H2) as [E2 _]. rewrite E1, E2 in E. unfold dinode_off.
  pose proof (Z_div_mod_eq_full inum IPB). pose proof (Z_div_mod_eq_full inum' IPB).
  pose proof (Z.mod_pos_bound inum IPB ltac:(klia)). pose proof (Z.mod_pos_bound inum' IPB ltac:(klia)). klia.
Qed.

(** The 64 bytes of an inode determine what [load_dinode] reads. *)
Lemma slice_slice {A} (l : list A) a n b m : (b + m <= n)%nat -> slice (slice l a n) b m = slice l (a + b) m.
Proof.
  intros Hb. apply list_eq. intros j. rewrite (lookup_slice _ b m), (lookup_slice _ (a + b)). case_decide; [|done].
  rewrite lookup_slice, decide_True by lia. f_equal. lia.
Qed.

Lemma load_dinode_ext d d' off j : 0 <= off -> slice d (Z.to_nat off) 64 = slice d' (Z.to_nat off) 64 -> load_dinode d off j = load_dinode d' off j.
Proof.
  intros Hoff E. assert (forall k n, 0 <= k -> (Z.to_nat k + n <= 64)%nat -> slice d (Z.to_nat (off + k)) n = slice d' (Z.to_nat (off + k)) n) as Hs.
  { intros k n Hk Hn. rewrite Z2Nat.inj_add by done. by rewrite <- !(slice_slice _ _ 64) by done; rewrite E. }
  unfold load_dinode, di_type, di_major, di_minor, di_nlink, di_size, di_addr, get_i16, get_u16, get_u32.
  pose proof (Hs 0 2%nat ltac:(lia) ltac:(lia)) as H0. rewrite Z.add_0_r in H0. rewrite H0, (Hs 2 2%nat), (Hs 4 2%nat), (Hs 6 2%nat), (Hs 8 4%nat) by lia. f_equal.
  apply list_fmap_ext. intros ? k Hk. apply list_elem_of_lookup_2, elem_of_seqZ in Hk. rewrite <- !Z.add_assoc. by rewrite Hs by klia.
Qed.

(** ** Writing an inode *)

Definition put_din img (inum : Z) i : gmap Z bytes := <[IBLOCK inum sb := store_dinode i (dinode_off inum) (img !!! IBLOCK inum sb)]> img.

Lemma put_din_frame img inum i b : is_inum inum -> ~ (33 <= b < 46) -> put_din img inum i !! b = img !! b.
Proof. intros Hn Hb. destruct (IBLOCK_mkfs inum Hn) as [_ ?]. apply lookup_insert_ne. lia. Qed.

Lemma iblock_ok img fb inum : img_ok img fb -> is_inum inum -> block_ok (img !!! IBLOCK inum sb).
Proof. intros Hok Hn. destruct (IBLOCK_mkfs inum Hn) as [_ ?]. destruct (img_ok_block _ _ (IBLOCK inum sb) Hok) as (x & _ & Hx & E); [klia|]. by rewrite E. Qed.

Lemma put_din_ok img fb inum i : img_ok img fb -> is_inum inum -> inode_ok i -> img_ok (put_din img inum i) fb.
Proof.
  intros Hok Hn Hi. destruct (IBLOCK_mkfs inum Hn) as [_ ?]. pose proof nmeta_47. pose proof (io_fb _ _ Hok).
  destruct (dinode_off_range inum (proj1 Hn)) as [? ?]. apply img_ok_insert; [done|lia|]. apply store_dinode_ok; try done. by apply (iblock_ok _ fb).
Qed.

Lemma din_put_same img fb inum i : img_ok img fb -> is_inum inum -> inode_range i -> bare i -> din (put_din img inum i) inum = i.
Proof.
  intros Hok Hn Hi Hb. destruct (iblock_ok _ _ _ Hok Hn) as [Hl _]. destruct (dinode_off_range inum (proj1 Hn)) as [? ?].
  apply bare_eq; [done|done|]. unfold din, put_din. rewrite lookup_total_insert_eq. apply load_store_dinode; [done|done|]. rewrite Hl. klia.
Qed.

Lemma din_put_other img fb inum inum' i : img_ok img fb -> is_inum inum -> is_inum inum' -> inum <> inum' -> inode_ok i -> din (put_din img inum i) inum' = din img inum'.
Proof.
  intros Hok Hn Hn' Hne Hi. unfold din, put_din. destruct (decide (IBLOCK inum sb = IBLOCK inum' sb)) as [E|E]; [|by rewrite lookup_total_insert_ne].
  rewrite E, lookup_total_insert_eq. destruct (iblock_ok _ _ _ Hok Hn') as [Hl _]. destruct (dinode_off_range inum (proj1 Hn)) as [? ?].
  destruct (dinode_off_range inum' (proj1 Hn')) as [? ?]. pose proof (inum_apart inum inum' Hn Hn' Hne E) as Ha.
  apply load_dinode_ext; [done|]. apply store_dinode_other; [done|done|rewrite Hl; klia|done|klia].
Qed.

Lemma din_frame img img' inum : is_inum inum -> (forall b, 33 <= b < 46 -> img' !! b = img !! b) -> din img' inum = din img inum.
Proof. intros Hn Hf. destruct (IBLOCK_mkfs inum Hn) as [_ ?]. unfold din. by rewrite !(lookup_total_alt (M:=gmap Z)), Hf. Qed.

Section inodes.
Context (fi : Z).

Lemma winode_wp img fb inum i (Q : unit -> mkst -> Prop) : img_ok img fb -> is_inum inum -> Q tt (mkMk (put_din img inum i) fi fb) -> wp (winode inum i) (mkMk img fi fb) Q.
Proof.
  intros Hok Hn HQ. destruct (IBLOCK_mkfs inum Hn) as [_ ?]. unfold winode. apply wp_bind, (rsect_wp fi img fb); [done|klia|]. by apply wp_modify.
Qed.
Lemma rinode_wp img fb inum (Q : inode -> mkst -> Prop) : img_ok img fb -> is_inum inum -> Q (din img inum) (mkMk img fi fb) -> wp (rinode inum) (mkMk img fi fb) Q.
Proof.
  intros Hok Hn HQ. destruct (IBLOCK_mkfs inum Hn) as [_ ?]. unfold rinode. apply wp_bind, (rsect_wp fi img fb); [done|klia|]. by apply wp_ret.
Qed.
End inodes.

(** ** The image with its files *)

Definition total (fl : list (Z * bytes)) : Z := foldr (fun f acc => cost (nblk (Z.of_nat (length f.2))) + acc) 0 fl.
Definition inum_of (n : nat) : Z := Z.of_nat n + 1.
Definition fslot img (n : nat) (k : Z) : Z := vslot img (din img (inum_of n)) k.
Definition sb_block : bytes := splice zero_block 0 (encode_sb sb).

(** Inode i describes a file of type t with contents c. *)
Record filed img i (t : Z) c (fb : Z) : Prop := {
  fd_type : i_type i = t;
  fd_nlink : i_nlink i = 1;
  fd_size : i_size i = Z.of_nat (length c);
  fd_range : inode_range i;
  fd_holds : holds img i c fb }.

Record built img (fi fb : Z) (fl : list (Z * bytes)) : Prop := {
  bu_img : img_ok img fb;
  bu_fi : fi = Z.of_nat (length fl) + 1;
  bu_inums : fi <= NINODES;
  bu_fb : fb = nmeta + total fl;
  bu_file : forall n t c, fl !! n = Some (t, c) -> filed img (din img (inum_of n)) t c fb;
  bu_apart : forall n n' k k', (n < length fl)%nat -> (n' < length fl)%nat -> n <> n' -> is_slot k -> is_slot k' -> fslot img n k <> 0 -> fslot img n k <> fslot img n' k';
  bu_free : forall inum, fi <= inum < NINODES -> i_type (din img inum) = 0;
  bu_sb : img !! 1 = Some sb_block;
  bu_log : forall b, 2 <= b < 33 -> img !! b = Some zero_block }.

Lemma built_inum img fi fb fl n : built img fi fb fl -> (n < length fl)%nat -> is_inum (inum_of n).
Proof. intros Hb Hn. pose proof (bu_fi _ _ _ _ Hb). pose proof (bu_inums _ _ _ _ Hb). unfold is_inum, inum_of. lia. Qed.

Lemma vslot_addrs img i i' k : i_addrs i = i_addrs i' -> vslot img i k = vslot img i' k.
Proof. intros E. unfold vslot, slot_in, i_addr. by rewrite E. Qed.

Lemma file_at_addrs img i i' c P fb : i_addrs i = i_addrs i' -> file_at img i c P fb -> file_at img i' c P fb.
Proof.
  intros E [Hi Hl Hs Hr Hj Hb]. assert (forall k, vslot img i' k = vslot img i k) as Ev by (intros k; by apply vslot_addrs).
  split; try done; [by unfold inode_ok in *; rewrite <- E|..]; intros; rewrite ?Ev in *; eauto.
Qed.

Lemma slot_addr img i k : 0 <= k <= NDIRECT -> exists k', is_slot k' /\ i_addr i k = vslot img i k'.
Proof.
  intros Hk. destruct (decide (k = NDIRECT)) as [->|Hne].
  - exists (-1). split; [unfold is_slot; klia|done].
  - exists k. split; [unfold is_slot; klia|]. unfold vslot, slot_in. replace (k =? -1) with false by lia. by replace (k <? NDIRECT) with true by lia.
Qed.

Lemma file_at_addr_range img i c P fb : file_at img i c P fb -> img_ok img fb -> Forall (fun a => 0 <= a < 2^32) (i_addrs i).
Proof.
  intros Hf Hok. apply Forall_lookup_2. intros k a Ha. pose proof (fa_inode _ _ _ _ _ Hf) as Hi. unfold inode_ok in Hi. pose proof (lookup_lt_Some _ _ _ Ha).
  destruct (slot_addr img i (Z.of_nat k)) as (k' & Hk' & E); [klia|]. unfold i_addr in E. rewrite Nat2Z.id, (list_lookup_total_correct _ _ _ Ha) in E. subst a.
  destruct (decide (vslot img i k' = 0)) as [->|Hz]; [lia|]. apply (fa_slot _ _ _ _ _ Hf k' Hk') in Hz. pose proof (fa_range _ _ _ _ _ Hf k' Hk' Hz).
  pose proof (io_fb _ _ Hok). assert (0 < nmeta) by (vm_compute; done). klia.
Qed.

Lemma holds_slot img i c fb k : holds img i c fb -> is_slot k -> vslot img i k = 0 \/ nmeta <= vslot img i k < fb.
Proof.
  intros Hf Hk. destruct (decide (vslot img i k = 0)) as [|Hz]; [by left|right]. apply (fa_range _ _ _ _ _ Hf k Hk). by apply (fa_slot _ _ _ _ _ Hf k Hk).
Qed.

(** The file of another inode: its slots and its bytes stay. *)
Lemma filed_frame img img' i t c fb fb' : filed img i t c fb -> fb <= fb' -> (forall k, is_slot k -> vslot img i k <> 0 -> img' !! vslot img i k = img !! vslot img i k) ->
  filed img' i t c fb' /\ forall k, vslot img' i k = vslot img i k.
Proof.
  intros [Ht Hn Hs Hr Hh] Hfb Hf. split.
  - split; try done. unfold holds in *. apply (file_at_frame img img' i c _ fb fb'); [done|done|]. intros k Hk HP. apply Hf; [done|]. by apply (fa_slot _ _ _ _ _ Hh).
  - intros k. apply vslot_frame. intros Hz. apply (Hf (-1)); [unfold is_slot; klia|done].
Qed.

Lemma total_insert fl n t c c' : fl !! n = Some (t, c) ->
  total (<[n := (t, c')]> fl) = total fl + cost (nblk (Z.of_nat (length c'))) - cost (nblk (Z.of_nat (length c))).
Proof.
  revert n. induction fl as [|f fl IH]; intros [|n] E; try done.
  - injection E as ->. cbn. lia.
  - change (total (f :: <[n := (t, c')]> fl) = total (f :: fl) + cost (nblk (Z.of_nat (length c'))) - cost (nblk (Z.of_nat (length c)))). cbn [total foldr]. fold (total fl).
    fold (total (<[n := (t, c')]> fl)). rewrite (IH n E). lia.
Qed.

Section update.
Context img (fi fb : Z) (fl : list (Z * bytes)) (n : nat) (t : Z) c.
Context (Hb : built img fi fb fl) (Hn : fl !! n = Some (t, c)).
Context img1 (i1 : inode) (fb' : Z) (c' : bytes).
Context (Hex : extends img (din img (inum_of n)) fb img1 i1 fb') (Hok1 : img_ok img1 fb') (Hf1 : holds img1 i1 c' fb').
Context (Hfb' : fb' = fb + cost (nblk (Z.of_nat (length c'))) - cost (nblk (Z.of_nat (length c)))) (Hmax : Z.of_nat (length c') <= MAXFILE * BSIZE).

Let i2 : inode := set_isize (Z.of_nat (length c')) i1.
Let img2 : gmap Z bytes := put_din img1 (inum_of n) i2.

Lemma update_len : (n < length fl)%nat.
Proof. by eapply lookup_lt_Some. Qed.
Lemma update_inum : is_inum (inum_of n).
Proof. eapply built_inum; [done|apply update_len]. Qed.
Lemma update_filed : filed img (din img (inum_of n)) t c fb.
Proof. by apply (bu_file _ _ _ _ Hb). Qed.

Lemma update_low b : 0 < b < 47 -> img1 !! b = img !! b.
Proof.
  pose proof update_inum as Hnum. pose proof nmeta_47 as Hmeta.
  intros Hlt. apply (ex_frame _ _ _ _ _ _ Hex); [pose proof (io_fb _ _ (bu_img _ _ _ _ Hb)); lia|].
  intros k Hk E. destruct (holds_slot _ _ _ _ k (fd_holds _ _ _ _ _ update_filed) Hk) as [Hz|Hr]; lia.
Qed.

Lemma update_din inum : is_inum inum -> din img2 inum = if decide (inum = inum_of n) then i2 else din img inum.
Proof.
  pose proof update_inum as Hnum. pose proof nmeta_47 as Hmeta.
  intros Hin. pose proof (ex_inode _ _ _ _ _ _ Hex) as (addrs & Ei & Hi1). assert (inode_range i2) as Hr.
  { destruct (fd_range _ _ _ _ _ update_filed) as (_ & R1 & R2 & R3 & R4 & R5 & _). unfold i2. pose proof (file_at_addr_range _ _ _ _ _ Hf1 Hok1) as Ha. rewrite Ei in Ha, Hi1 |- *.
    split; [done|]. cbn. repeat (split; [done|]). split; [klia|done]. }
  case_decide as E.
  - subst inum. apply (din_put_same img1 fb'); try done. unfold i2. rewrite Ei. apply din_bare.
  - unfold img2. rewrite (din_put_other img1 fb') by (done || apply Hr). apply din_frame; [done|]. intros b Hb'. apply update_low. lia.
Qed.

Lemma update_slots m k : (m < length fl)%nat -> is_slot k -> m <> n -> fslot img m k <> 0 -> img2 !! fslot img m k = img !! fslot img m k.
Proof.
  pose proof update_inum as Hnum. pose proof nmeta_47 as Hmeta.
  intros Hm Hk Hne Hz. destruct (lookup_lt_is_Some_2 fl m Hm) as [[t' c0] Hm']. pose proof (bu_file _ _ _ _ Hb _ _ _ Hm') as Hfm.
  destruct (holds_slot _ _ _ _ k (fd_holds _ _ _ _ _ Hfm) Hk) as [|Hr]; [done|]. fold (fslot img m k) in Hr. unfold img2. rewrite put_din_frame by (done || lia).
  apply (ex_frame _ _ _ _ _ _ Hex); [lia|]. intros k' Hk' E. by apply (bu_apart _ _ _ _ Hb m n k k' Hm update_len Hne Hk Hk' Hz).
Qed.

Lemma update_other m t' c0 : m <> n -> fl !! m = Some (t', c0) -> filed img2 (din img2 (inum_of m)) t' c0 fb' /\ forall k, fslot img2 m k = fslot img m k.
Proof.
  pose proof update_inum as Hnum. pose proof nmeta_47 as Hmeta.
  intros Hne Hm. pose proof (lookup_lt_Some _ _ _ Hm) as Hlm. pose proof (built_inum _ _ _ _ m Hb Hlm) as Hin. pose proof (bu_file _ _ _ _ Hb _ _ _ Hm) as Hfm.
  unfold fslot. rewrite update_din, decide_False by (done || unfold inum_of; lia). apply (filed_frame img img2 _ _ _ fb fb'); [done|apply Hex|].
  intros k Hk Hz. by apply (update_slots m k).
Qed.

Lemma update_slot k : vslot img2 i2 k = vslot img1 i1 k.
Proof.
  pose proof update_inum as Hnum. pose proof nmeta_47 as Hmeta.
  rewrite <- (vslot_addrs img2 i1 i2) by done. apply vslot_frame. intros Hz. unfold img2. rewrite put_din_frame; [done|done|].
  destruct (holds_slot _ _ _ _ (-1) Hf1 ltac:(unfold is_slot; klia)) as [E|Hr]; [done|]. change (vslot img1 i1 (-1)) with (i_addr i1 NDIRECT) in Hr. lia.
Qed.

Lemma update_this : filed img2 i2 t c' fb'.
Proof.
  pose proof update_inum as Hnum. pose proof nmeta_47 as Hmeta.
  pose proof (ex_inode _ _ _ _ _ _ Hex) as (addrs & Ei & Hi1). split.
  - unfold i2. rewrite Ei. apply update_filed.
  - unfold i2. rewrite Ei. apply update_filed.
  - done.
  - destruct (fd_range _ _ _ _ _ update_filed) as (_ & R1 & R2 & R3 & R4 & R5 & _). unfold i2. pose proof (file_at_addr_range _ _ _ _ _ Hf1 Hok1) as Ha. rewrite Ei in Ha, Hi1 |- *.
    split; [done|]. cbn. repeat (split; [done|]). split; [klia|done].
  - unfold holds. apply (file_at_addrs _ i1); [done|]. apply (file_at_frame img1 img2 i1 c' _ fb' fb'); [done|lia|].
    intros k Hk HP. unfold img2. apply put_din_frame; [done|]. pose proof (fa_range _ _ _ _ _ Hf1 k Hk HP). lia.
Qed.

Lemma update_apart m k k' : (m < length fl)%nat -> m <> n -> is_slot k -> is_slot k' -> fslot img m k <> 0 -> fslot img m k <> vslot img1 i1 k'.
Proof.
  pose proof update_inum as Hnum. pose proof nmeta_47 as Hmeta.
  intros Hm Hne Hk Hk' Hz. destruct (decide (vslot img (din img (inum_of n)) k' = 0)) as [Hz'|Hz'].
  - intros E. rewrite E in Hz. pose proof (ex_new _ _ _ _ _ _ Hex k' Hk' Hz' Hz) as Hnew. destruct (lookup_lt_is_Some_2 fl m Hm) as [[t' c0] Hm'].
    pose proof (bu_file _ _ _ _ Hb _ _ _ Hm') as Hfm. destruct (holds_slot _ _ _ _ k (fd_holds _ _ _ _ _ Hfm) Hk) as [E0|Hr]; unfold fslot in *; lia.
  - rewrite (ex_slots _ _ _ _ _ _ Hex k' Hk' Hz'). apply (bu_apart _ _ _ _ Hb m n k k'); (done || apply update_len).
Qed.

Lemma built_update : built img2 fi fb' (<[n := (t, c')]> fl).
Proof.
  pose proof update_inum as Hnum. pose proof nmeta_47 as Hmeta.
  assert (din img2 (inum_of n) = i2) as Hdn by (rewrite update_din, decide_True by done; done).
  assert (forall k, fslot img2 n k = vslot img1 i1 k) as Hsn by (intros k; unfold fslot; rewrite Hdn; apply update_slot).
  assert (forall m, (m < length fl)%nat -> m <> n -> forall k, fslot img2 m k = fslot img m k) as Hsm.
  { intros m Hm Hne. destruct (lookup_lt_is_Some_2 fl m Hm) as [[t' c0] Hm']. by apply (update_other m t' c0). }
  split.
  - apply put_din_ok; try done. pose proof (ex_inode _ _ _ _ _ _ Hex) as (addrs & Ei & Hi1). done.
  - rewrite length_insert. apply Hb.
  - apply Hb.
  - rewrite (total_insert _ _ _ c) by done. rewrite Hfb', (bu_fb _ _ _ _ Hb). lia.
  - intros m t' c0 Hm. destruct (decide (m = n)) as [->|Hne].
    + rewrite list_lookup_insert_eq in Hm by apply update_len. injection Hm as <- <-. rewrite Hdn. apply update_this.
    + rewrite list_lookup_insert_ne in Hm by done. by apply update_other.
  - rewrite length_insert. intros m m' k k' Hm Hm' Hne Hk Hk'. destruct (decide (m = n)) as [->|Hmn], (decide (m' = n)) as [->|Hmn']; [done|..].
    + rewrite Hsn, (Hsm m') by done. intros Hz E. apply (update_apart m' k' k); try done; congruence.
    + rewrite Hsn, (Hsm m) by done. by apply update_apart.
    + rewrite (Hsm m), (Hsm m') by done. by apply (bu_apart _ _ _ _ Hb).
  - intros inum Hin. pose proof (bu_fi _ _ _ _ Hb). pose proof update_len. rewrite update_din, decide_False by (unfold is_inum, inum_of; lia). by apply (bu_free _ _ _ _ Hb).
  - unfold img2. rewrite put_din_frame, update_low by (done || lia). apply Hb.
  - intros b Hlt. unfold img2. rewrite put_din_frame, update_low by (done || lia). by apply (bu_log _ _ _ _ Hb).
Qed.
End update.

(** ** [iappend] *)

Lemma total_nonneg fl : 0 <= total fl.
Proof. induction fl as [|f fl IH]; cbn; [done|]. fold (total fl). destruct (nblk_bounds (Z.of_nat (length f.2)) ltac:(lia)) as [? _]. unfold cost. case_decide; lia. Qed.

Lemma iappend_built img fi fb fl n t c p : built img fi fb fl -> fl !! n = Some (t, c) -> Forall is_byte p ->
  Z.of_nat (length (c ++ p)) <= MAXFILE * BSIZE -> nmeta + total (<[n := (t, c ++ p)]> fl) <= FSSIZE ->
  wp (iappend (inum_of n) p) (mkMk img fi fb) (fun _ s' => exists img' fb', s' = mkMk img' fi fb' /\ built img' fi fb' (<[n := (t, c ++ p)]> fl)).
Proof.
  intros Hb Hn Hp Hmax Hroom. pose proof (bu_file _ _ _ _ Hb _ _ _ Hn) as Hfd. pose proof (bu_img _ _ _ _ Hb) as Hok. pose proof (lookup_lt_Some _ _ _ Hn) as Hlen.
  pose proof (built_inum _ _ _ _ n Hb Hlen) as Hin. rewrite (total_insert _ _ _ c) in Hroom by done. pose proof (bu_fb _ _ _ _ Hb) as Efb.
  assert (grow_cost (Z.of_nat (length c)) (Z.of_nat (length p)) = cost (nblk (Z.of_nat (length (c ++ p)))) - cost (nblk (Z.of_nat (length c)))) as Eg.
  { unfold grow_cost. rewrite length_app, Nat2Z.inj_add. done. }
  unfold iappend. apply wp_bind, (rinode_wp fi img fb); [done|done|]. rewrite (fd_size _ _ _ _ _ Hfd). apply wp_bind.
  eapply wp_mono; [apply (append_loop_wp fi (length p) p img (din img (inum_of n)) c fb); [done|apply Hfd|done|done|rewrite length_app in Hmax; lia|lia]|].
  intros [i1 off] s' (img1 & -> & Eoff & Hok1 & Hf1 & Hex). cbn [fst snd] in *. apply (winode_wp fi img1 (fb + grow_cost (Z.of_nat (length c)) (Z.of_nat (length p)))); [done|done|].
  replace off with (Z.of_nat (length (c ++ p))) by (rewrite length_app; lia). eexists _, _. split; [done|].
  apply (built_update img fi fb fl n t c Hb Hn img1 i1 _ (c ++ p)); (done || lia).
Qed.

(** ** [ialloc] *)

Definition fresh_inode (t : Z) : inode := set_inlink 1 (set_itype t inode0).

Lemma fresh_slot img t k : is_slot k -> vslot img (fresh_inode t) k = 0.
Proof.
  intros Hk. unfold vslot, slot_in, i_addr. change (i_addrs (fresh_inode t)) with (replicate (Z.to_nat (NDIRECT + 1)) 0). unfold is_slot in Hk.
  destruct (k =? -1); [done|]. destruct (Z.ltb_spec k NDIRECT); [|done]. destruct (decide (k = -1)) as [->|]; [done|]. apply lookup_total_replicate_2. klia.
Qed.

Lemma fresh_filed img t fb : -2^15 <= t < 2^15 -> filed img (fresh_inode t) t [] fb.
Proof.
  intros Ht. assert (forall k, ~ full (nblk 0) k) as Hfull by (intros k; change (nblk 0) with 0; unfold full; klia). split; try done.
  - split; [done|]. split; [done|]. cbn. repeat (split; [lia|]). apply Forall_forall. intros x Hx. vm_compute in Hx. set_unfold in Hx. lia.
  - split; try done; cbn [length].
    + lia.
    + intros k Hk. rewrite fresh_slot by done. split; [done|]. intros HP. by destruct (Hfull k).
    + intros k Hk HP. by destruct (Hfull k).
    + intros k k' Hk Hk' HP. by destruct (Hfull k).
    + intros x Hx HP. by destruct (Hfull (x / BSIZE)).
Qed.

Lemma total_app fl fl' : total (fl ++ fl') = total fl + total fl'.
Proof. induction fl as [|f fl IH]; [done|]. cbn [app total foldr]. fold (total (fl ++ fl')). fold (total fl). rewrite IH. lia. Qed.

Lemma built_new img fi fb fl t : built img fi fb fl -> fi < NINODES -> -2^15 <= t < 2^15 -> built (put_din img fi (fresh_inode t)) (fi + 1) fb (fl ++ [(t, [])]).
Proof.
  intros Hb Hlt Ht. pose proof (bu_img _ _ _ _ Hb) as Hok. pose proof (bu_fi _ _ _ _ Hb) as Efi. set (img' := put_din img fi (fresh_inode t)). assert (is_inum fi) as Hin by (unfold is_inum; lia).
  pose proof (fresh_filed img' t fb Ht) as Hnew. pose proof nmeta_47. assert (din img' fi = fresh_inode t) as Hd by (apply (din_put_same _ fb); try done; apply Hnew).
  assert (forall m, is_inum m -> m <> fi -> din img' m = din img m) as Hdo by (intros m Hm Hne; apply (din_put_other img fb); done).
  assert (forall m t' c, fl !! m = Some (t', c) -> filed img' (din img' (inum_of m)) t' c fb /\ forall k, fslot img' m k = fslot img m k) as Hold.
  { intros m t' c Hm. pose proof (lookup_lt_Some _ _ _ Hm). unfold fslot. rewrite Hdo by (unfold is_inum, inum_of; lia). pose proof (bu_file _ _ _ _ Hb _ _ _ Hm) as Hf.
    apply (filed_frame img img' _ _ _ fb fb); [done|lia|]. intros k Hk Hz. apply put_din_frame; [done|]. destruct (holds_slot _ _ _ _ k (fd_holds _ _ _ _ _ Hf) Hk); lia. }
  assert (forall k, is_slot k -> fslot img' (length fl) k = 0) as Hz.
  { intros k Hk. unfold fslot, inum_of. replace (Z.of_nat (length fl) + 1) with fi by lia. rewrite Hd. by apply fresh_slot. }
  assert (forall m, (m < length fl)%nat -> forall k, fslot img' m k = fslot img m k) as Hs by (intros m Hm; destruct (lookup_lt_is_Some_2 fl m Hm) as [[t' c] Hm']; by apply (Hold m t' c)).
  split.
  - by apply put_din_ok.
  - rewrite length_app. cbn. lia.
  - lia.
  - rewrite total_app. cbn [total foldr length snd]. rewrite (bu_fb _ _ _ _ Hb). change (cost (nblk (Z.of_nat 0))) with 0. lia.
  - intros m t' c Hm. apply lookup_app_Some in Hm as [Hm|[Hm E]]; [by apply Hold|]. apply list_lookup_singleton_Some in E as [Em [= <- <-]].
    unfold inum_of. replace (Z.of_nat m + 1) with fi by lia. by rewrite Hd.
  - rewrite length_app. cbn [length]. intros m m' k k' Hm Hm' Hne Hk Hk' Hnz. destruct (decide (m = length fl)) as [->|]; [by rewrite Hz in Hnz|].
    destruct (decide (m' = length fl)) as [->|]; [by rewrite (Hz k')|]. rewrite !Hs in * by lia. apply (bu_apart _ _ _ _ Hb); (done || lia).
  - intros m Hm. rewrite Hdo by (unfold is_inum; lia). apply (bu_free _ _ _ _ Hb). lia.
  - unfold img'. rewrite put_din_frame by (done || lia). apply Hb.
  - intros b Hb'. unfold img'. rewrite put_din_frame by (done || lia). by apply (bu_log _ _ _ _ Hb).
Qed.

Lemma ialloc_built img fi fb fl t : built img fi fb fl -> fi < NINODES -> -2^15 <= t < 2^15 ->
  wp (ialloc t) (mkMk img fi fb) (fun r s' => r = fi /\ exists img', s' = mkMk img' (fi + 1) fb /\ built img' (fi + 1) fb (fl ++ [(t, [])])).
Proof.
  intros Hb Hlt Ht. pose proof (bu_fi _ _ _ _ Hb) as Efi. unfold ialloc, new_inode. apply wp_bind, wp_bind, wp_gets, wp_bind, wp_modify, wp_ret. cbn [mk_img mk_freeinode mk_freeblock].
  rewrite u32_id by (unfold NINODES in *; lia). apply wp_bind, (winode_wp (fi + 1) img fb); [apply Hb|unfold is_inum; lia|]. apply wp_ret. split; [done|].
  eexists. split; [done|]. by apply built_new.
Qed.
