(* ===== verification/MkfsMain.v ===== *)
(** * mkfs: the main program

    [add_files] turns the arguments into files and entries of the root
    directory; [mkfs_wp] is the image the whole program leaves. *)
From S2P Require Import Prelude Params Sleeplock CString Interfaces Fs FsBlocks FsInode FsData FsWrite FsDir Mkfs MkfsInv MkfsBuild.
Import Mkfs.

Implicit Types (img : gmap Z bytes) (i : inode) (c : bytes) (files : list (bytes * list bytes)).

Definition fname (arg : bytes) : bytes := strip_underscore (strip_user arg).
(** Directory entries for names, with inode numbers from k on. *)
Fixpoint links (k : Z) (names : list bytes) : list bytes :=
  match names with
  | [] => []
  | name :: names => mk_dirent k name :: links (k + 1) names
  end.
Definition contents files : list (Z * bytes) := (fun f : bytes * list bytes => (T_FILE, mjoin f.2)) <$> files.

(** An argument mkfs accepts, with what [read] returned for it. *)
Record file_arg (f : bytes * list bytes) : Prop := {
  ar_slash : SLASH ∉ strip_user f.1;
  ar_short : Z.of_nat (length (fname f.1)) <= DIRSIZ;
  ar_name : Forall is_byte (fname f.1);
  ar_data : Forall (Forall is_byte) f.2;
  ar_size : Z.of_nat (length (mjoin f.2)) <= MAXFILE * BSIZE }.

Lemma cost_len (c c' : bytes) : (length c <= length c')%nat -> cost (nblk (Z.of_nat (length c))) <= cost (nblk (Z.of_nat (length c'))).
Proof. intros Hle. apply cost_mono. apply Z.div_le_mono; klia. Qed.

Lemma append_all_built fi pieces : forall img fb fl n t c, built img fi fb fl -> fl !! n = Some (t, c) -> Forall (Forall is_byte) pieces ->
  Z.of_nat (length (c ++ mjoin pieces)) <= MAXFILE * BSIZE -> nmeta + total (<[n := (t, c ++ mjoin pieces)]> fl) <= FSSIZE ->
  wp (append_all (inum_of n) pieces) (mkMk img fi fb) (fun _ s' => exists img' fb', s' = mkMk img' fi fb' /\ built img' fi fb' (<[n := (t, c ++ mjoin pieces)]> fl)).
Proof.
  induction pieces as [|p ps IH]; intros img fb fl n t c Hb Hn Hp Hmax Hroom.
  - apply wp_ret. exists img, fb. split; [done|]. cbn. rewrite app_nil_r. by rewrite list_insert_id.
  - cbn [append_all]. change (mjoin (p :: ps)) with (p ++ mjoin ps) in *. rewrite app_assoc in *. rewrite (total_insert _ _ _ c) in Hroom by done.
    assert (length (c ++ p) <= length ((c ++ p) ++ mjoin ps))%nat as Hle by (rewrite (length_app (c ++ p)); lia). pose proof (cost_len _ _ Hle) as Hc.
    inversion Hp as [|? ? Hp1 Hp2]; subst. apply wp_bind. eapply wp_mono; [apply (iappend_built img fi fb fl n t c p); try done; [lia|rewrite (total_insert _ _ _ c) by done; lia]|].
    intros [] ? (img1 & fb1 & -> & Hb1). assert (<[n := (t, c ++ p)]> fl !! n = Some (t, c ++ p)) as Hn1 by (apply list_lookup_insert_eq; by eapply lookup_lt_Some).
    pose proof (IH img1 fb1 _ n t (c ++ p) Hb1 Hn1 Hp2 Hmax) as Hrec. rewrite list_insert_insert_eq in Hrec. apply Hrec. rewrite (total_insert _ _ _ c) by done. lia.
Qed.

Lemma add_file_built img fi fb r F f : built img fi fb ((T_DIR, r) :: F) -> file_arg f -> fi < NINODES ->
  let r' := r ++ mk_dirent fi (fname f.1) in let fl' := (T_DIR, r') :: F ++ [(T_FILE, mjoin f.2)] in
  Z.of_nat (length r') <= MAXFILE * BSIZE -> nmeta + total fl' <= FSSIZE ->
  wp (add_file ROOTINO f.1 f.2) (mkMk img fi fb) (fun _ s' => exists img' fb', s' = mkMk img' (fi + 1) fb' /\ built img' (fi + 1) fb' fl').
Proof.
  intros Hb [Hsl Hsh Hnm Hdt Hsz] Hfi r' fl' Hr' Hroom. pose proof (bu_fi _ _ _ _ Hb) as Efi. unfold add_file. rewrite bool_decide_eq_false_2 by done.
  fold (fname f.1). replace (Z.of_nat (length (fname f.1)) <=? DIRSIZ) with true by lia. cbn [negb]. cbv iota.
  apply wp_bind. eapply wp_mono; [apply (ialloc_built img fi fb _ T_FILE Hb Hfi); vm_compute; split; (discriminate || done)|].
  intros inum ? (-> & img1 & -> & Hb1). apply wp_bind. set (fl1 := ((T_DIR, r) :: F) ++ [(T_FILE, [])]) in *.
  assert (<[0%nat := (T_DIR, r')]> fl1 = (T_DIR, r') :: F ++ [(T_FILE, [])]) as E1 by done.
  assert (total (F ++ [(T_FILE, [])]) <= total (F ++ [(T_FILE, mjoin f.2)])) as Hle.
  { rewrite !total_app. cbn [total foldr snd]. pose proof (cost_len [] (mjoin f.2) ltac:(cbn; lia)). lia. }
  change ROOTINO with (inum_of 0). eapply wp_mono; [apply (iappend_built img1 (fi + 1) fb fl1 0 T_DIR r); try done; [by apply mk_dirent_bytes|fold r'; rewrite E1]|].
  { unfold fl' in Hroom. cbn [total foldr snd] in *. unfold total in Hle. lia. }
  fold r'. rewrite E1. intros [] ? (img2 & fb2 & -> & Hb2). set (n := S (length F)). assert (fi = inum_of n) as Hn by (unfold inum_of, n; cbn [length] in Efi; lia). rewrite Hn.
  set (fl2 := (T_DIR, r') :: F ++ [(T_FILE, [])]) in *. assert (fl2 !! n = Some (T_FILE, [])) as Hn2 by (unfold fl2, n; change ((F ++ [(T_FILE, [])]) !! length F = Some (T_FILE, [])); by apply list_lookup_middle).
  pose proof (append_all_built (inum_of n + 1) f.2 img2 fb2 fl2 n T_FILE []) as Ha. rewrite <- Hn in Ha. cbn [app] in Ha.
  assert (<[n := (T_FILE, mjoin f.2)]> fl2 = fl') as E2.
  { change ((T_DIR, r') :: <[length F := (T_FILE, mjoin f.2)]> (F ++ [(T_FILE, [])]) = fl'). by rewrite insert_app_r_alt, Nat.sub_diag by lia. }
  rewrite E2 in Ha. rewrite <- Hn. by apply Ha.
Qed.

Lemma total_cons t c fl : total ((t, c) :: fl) = cost (nblk (Z.of_nat (length c))) + total fl.
Proof. done. Qed.

Lemma add_files_built files : forall img fi fb r F, built img fi fb ((T_DIR, r) :: F) -> Forall file_arg files -> fi + Z.of_nat (length files) <= NINODES ->
  let r' := r ++ mjoin (links fi (fname <$> files.*1)) in let fl' := (T_DIR, r') :: F ++ contents files in
  Z.of_nat (length r') <= MAXFILE * BSIZE -> nmeta + total fl' <= FSSIZE ->
  wp (add_files ROOTINO files) (mkMk img fi fb) (fun _ s' => exists img' fi' fb', s' = mkMk img' fi' fb' /\ built img' fi' fb' fl').
Proof.
  induction files as [|[arg ps] files IH]; intros img fi fb r F Hb Hf Hfi r' fl' Hr' Hroom.
  - apply wp_ret. exists img, fi, fb. split; [done|]. unfold fl', r'. cbn. by rewrite !app_nil_r.
  - cbn [add_files]. inversion Hf as [|? ? Hf1 Hf2]; subst. cbn [length] in Hfi. set (e := mk_dirent fi (fname arg)).
    assert (r' = (r ++ e) ++ mjoin (links (fi + 1) (fname <$> files.*1))) as Er by (rewrite <- app_assoc; done).
    assert (fl' = (T_DIR, r') :: (F ++ [(T_FILE, mjoin ps)]) ++ contents files) as Efl by (unfold fl'; by rewrite <- app_assoc).
    assert (length (r ++ e) <= length r')%nat as Hle by (rewrite Er, (length_app (r ++ e)); lia). rewrite Efl, total_cons, total_app in Hroom.
    pose proof (cost_len _ _ Hle). pose proof (total_nonneg (contents files)). apply wp_bind.
    eapply wp_mono; [apply (add_file_built img fi fb r F (arg, ps) Hb Hf1); cbn [fst snd]; fold e; [lia|lia|rewrite total_cons; lia]|]. cbn [fst snd]. fold e.
    intros [] ? (img1 & fb1 & -> & Hb1). rewrite Efl. rewrite Er in *. apply (IH img1 (fi + 1) fb1 (r ++ e) (F ++ [(T_FILE, mjoin ps)])); try done; [lia|].
    rewrite total_cons, total_app. lia.
Qed.

(** ** The free map *)

Lemma set_bits l : forall d, block_ok d -> Forall (fun b => 0 <= b < BPB) l ->
  block_ok (foldl set_bit d l) /\ forall j, 0 <= j < BPB -> bit_at (foldl set_bit d l) j = bit_at d j || bool_decide (j ∈ l).
Proof.
  induction l as [|b l IH]; intros d Hd Hl; cbn [foldl].
  - split; [done|]. intros j Hj. by rewrite orb_false_r.
  - inversion Hl as [|? ? Hb Hl']; subst. destruct (IH (set_bit d b) ltac:(by apply set_bit_ok) Hl') as [Hok Hbit]. split; [done|].
    intros j Hj. rewrite Hbit, set_bit_at by done. case_decide as E.
    + rewrite (bool_decide_eq_true_2 (j ∈ b :: l)) by (subst; left). by rewrite orb_true_r.
    + f_equal. apply bool_decide_ext. set_solver.
Qed.

Definition used_map (used : Z) : bytes := foldl set_bit zero_block (seqZ 0 used).

Lemma used_map_spec used : 0 <= used < BPB -> block_ok (used_map used) /\ forall b, 0 <= b < BPB -> bit_at (used_map used) b = bool_decide (b < used).
Proof.
  intros Hu. destruct (set_bits (seqZ 0 used) zero_block zero_block_ok) as [Hok Hb].
  { apply Forall_forall. intros b Hb%elem_of_seqZ. lia. }
  split; [done|]. intros b Hb'. unfold used_map. rewrite Hb by done. assert (bit_at zero_block b = false) as ->.
  { unfold bit_at, zero_block. assert (0 <= b / 8) by (apply Z.div_pos; lia). pose proof (Z.div_lt_upper_bound b 8 1024).
    rewrite lookup_total_replicate_2 by klia. apply Z.bits_0. }
  cbn [orb]. apply bool_decide_ext. rewrite elem_of_seqZ. lia.
Qed.

(** ** The empty image *)

Definition blank img : Prop := forall b, img !! b = if decide (0 <= b < FSSIZE) then Some zero_block else None.

Lemma sb_block_ok : block_ok sb_block.
Proof.
  split; [by vm_compute|]. apply Forall_splice; [apply zero_block_ok|]. unfold encode_sb. cbn [fmap list_fmap].
  repeat (apply (Forall_app_2 is_byte (to_le 4 _)); [apply to_le_bytes|]). constructor.
Qed.

Lemma zero_dinode inum : is_inum inum -> i_type (load_dinode zero_block (dinode_off inum) inode0) = 0.
Proof.
  intros [Hi _]. destruct (dinode_off_range inum Hi) as [? ?]. cbn [load_dinode i_type]. unfold di_type, get_i16, get_u16, slice, zero_block.
  rewrite drop_replicate, take_replicate. by replace (2 `min` (Z.to_nat BSIZE - Z.to_nat (dinode_off inum)))%nat with 2%nat by klia.
Qed.

Lemma blank_built img : blank img -> built (<[1 := sb_block]> img) 1 nmeta [].
Proof.
  intros Hbl. pose proof nmeta_47 as Hm. assert (forall b, b <> 1 -> 0 <= b < FSSIZE -> <[1 := sb_block]> img !! b = Some zero_block) as Hz.
  { intros b Hne Hb. by rewrite lookup_insert_ne, Hbl, decide_True by done. }
  split; try done.
  - apply img_ok_insert; [|lia|apply sb_block_ok]. split.
    + intros b Hb. exists zero_block. rewrite Hbl, decide_True by done. split; [done|apply zero_block_ok].
    + intros b x. rewrite Hbl. case_decide; [|done]. intros [= <-]. split; [done|apply zero_block_ok].
    + klia.
    + intros b Hb. rewrite Hbl, decide_True by lia. done.
  - cbn [length]. lia.
  - intros inum Hin. assert (is_inum inum) as Hin' by (unfold is_inum; lia). destruct (IBLOCK_mkfs inum Hin') as [_ ?]. unfold din.
    rewrite (lookup_total_correct _ _ zero_block); [by apply zero_dinode|]. apply Hz; klia.
  - by rewrite lookup_insert_eq.
  - intros b Hb. apply Hz; klia.
Qed.

Lemma wipe_wp img0 fi fb (Q : unit -> mkst -> Prop) : img0 = ∅ -> (forall img, blank img -> Q tt (mkMk img fi fb)) -> wp (iter FSSIZE (fun j => wsect j zero_block)) (mkMk img0 fi fb) Q.
Proof.
  intros -> HQ. apply (wp_iter (fun j s => exists img, s = mkMk img fi fb /\ forall b, img !! b = if decide (0 <= b < j) then Some zero_block else None)).
  - klia.
  - exists ∅. split; [done|]. intros b. rewrite decide_False by lia. apply lookup_empty.
  - intros j s Hj (img & -> & Hi). apply wp_modify. eexists. split; [done|]. intros b. cbn [mk_img]. destruct (decide (b = j)) as [->|Hne].
    + rewrite lookup_insert_eq, decide_True by lia. done.
    + rewrite lookup_insert_ne, Hi by done. repeat case_decide; (done || lia).
  - intros s (img & -> & Hi). by apply HQ.
Qed.

(** ** The finished image *)

Definition root_entries files : list bytes := mk_dirent ROOTINO [DOT] :: mk_dirent ROOTINO [DOT; DOT] :: links 2 (fname <$> files.*1).
Definition tree files : list (Z * bytes) := (T_DIR, mjoin (root_entries files)) :: contents files.
Definition used_blocks files : Z := nmeta + total (tree files).
Definition rounded (len : Z) : Z := (len / BSIZE + 1) * BSIZE.

Record made img files : Prop := {
  md_disk : forall b, 0 <= b < FSSIZE -> is_Some (img !! b);
  md_ok : forall b x, img !! b = Some x -> 0 <= b < FSSIZE /\ block_ok x;
  md_sb : decode_sb (img !!! 1) = sb;
  md_log : forall b, 2 <= b < 33 -> img !! b = Some zero_block;
  md_map : forall b, 0 <= b < BPB -> bit_at (img !!! sb_bmapstart sb) b = bool_decide (b < used_blocks files);
  md_root : let i := din img ROOTINO in let r := mjoin (root_entries files) in
    i_size i = rounded (Z.of_nat (length r)) /\ filed img (set_isize (Z.of_nat (length r)) i) T_DIR r (used_blocks files);
  md_file : forall n c, contents files !! n = Some (T_FILE, c) -> filed img (din img (Z.of_nat n + 2)) T_FILE c (used_blocks files);
  md_apart : forall n n' k k', (n < length (tree files))%nat -> (n' < length (tree files))%nat -> n <> n' -> is_slot k -> is_slot k' ->
    fslot img n k <> 0 -> fslot img n k <> fslot img n' k';
  md_free : forall inum, Z.of_nat (length (tree files)) < inum < NINODES -> i_type (din img inum) = 0 }.

(** The last steps of main: the size of the root directory and the free map. *)
Lemma finish_made img fi files : built img fi (used_blocks files) (tree files) -> used_blocks files < BPB ->
  let i := din img ROOTINO in let off := rounded (i_size i) in off < 2^32 ->
  made (<[sb_bmapstart sb := used_map (used_blocks files)]> (put_din img ROOTINO (set_isize off i))) files.
Proof.
  intros Hb Hu i off Hoff. pose proof (bu_img _ _ _ _ Hb) as Hok. pose proof (bu_file _ _ _ _ Hb 0 _ _ eq_refl) as Hroot. pose proof (io_fb _ _ Hok) as Hfb. pose proof nmeta_47 as Hm.
  change (inum_of 0) with ROOTINO in Hroot. fold i in Hroot. assert (is_inum ROOTINO) as Hrin by (by vm_compute). change (sb_bmapstart sb) with 46.
  assert (inode_range (set_isize off i)) as Hri.
  { destruct (fd_range _ _ _ _ _ Hroot) as (R0 & R1 & R2 & R3 & R4 & R5 & R6). split; [done|]. cbn. repeat (split; [done|]). split; [|done].
    unfold off, rounded in *. assert (0 <= i_size i / BSIZE) by (apply Z.div_pos; klia). klia. }
  destruct (used_map_spec (used_blocks files) ltac:(lia)) as [Hmok Hmap]. set (um := used_map (used_blocks files)) in *.
  set (img1 := put_din img ROOTINO (set_isize off i)). pose proof (put_din_ok img _ ROOTINO _ Hok Hrin (proj1 Hri)) as Hok1. fold img1 in Hok1.
  pose proof (img_ok_insert img1 _ 46 um Hok1 ltac:(lia) Hmok) as Hok2. set (img2 := <[46 := um]> img1) in *.
  assert (forall b, 0 <= b < 33 \/ 47 <= b -> img2 !! b = img !! b) as Hfr.
  { intros b Hb'. unfold img2. rewrite lookup_insert_ne by lia. apply put_din_frame; [done|lia]. }
  assert (forall inum, is_inum inum -> din img2 inum = if decide (inum = ROOTINO) then set_isize off i else din img inum) as Hdin.
  { intros inum Hin. rewrite (din_frame img1 img2) by (done || intros b Hb'; apply lookup_insert_ne; lia). case_decide as E; [subst inum|].
    - apply (din_put_same img (used_blocks files)); done.
    - apply (din_put_other img (used_blocks files)); (done || apply Hri). }
  assert (forall j t c, filed img j t c (used_blocks files) -> filed img2 j t c (used_blocks files) /\ forall k, vslot img2 j k = vslot img j k) as Hfl.
  { intros j t c Hf. apply (filed_frame img img2 j t c (used_blocks files)); [done|lia|]. intros k Hk Hz. apply Hfr. destruct (holds_slot _ _ _ _ k (fd_holds _ _ _ _ _ Hf) Hk); lia. }
  assert (forall n k, (n < length (tree files))%nat -> fslot img2 n k = fslot img n k) as Hsl.
  { intros n k Hn. destruct (lookup_lt_is_Some_2 _ _ Hn) as [[t c] Hnth]. pose proof (bu_file _ _ _ _ Hb _ _ _ Hnth) as Hf. unfold fslot.
    rewrite Hdin by (by eapply built_inum). case_decide as E; [|by apply (Hfl _ t c)]. rewrite E. rewrite (vslot_addrs _ _ i) by done. by apply (Hfl _ _ _ Hroot). }
  pose proof (bu_fi _ _ _ _ Hb) as Efi. split.
  - intros b Hb'. destruct (io_dom _ _ Hok2 b Hb') as (x & Hx & _). by exists x.
  - apply Hok2.
  - rewrite (lookup_total_correct _ _ sb_block); [by vm_compute|]. rewrite Hfr by lia. apply Hb.
  - intros b Hb'. rewrite Hfr by lia. by apply (bu_log _ _ _ _ Hb).
  - intros b Hb'. change (sb_bmapstart sb) with 46. unfold img2. rewrite lookup_total_insert_eq. by apply Hmap.
  - cbv zeta. rewrite Hdin, decide_True by done. pose proof (fd_size _ _ _ _ _ Hroot) as Es. rewrite <- Es. split; [done|].
    assert (set_isize (i_size i) (set_isize off i) = i) as -> by (by destruct i). by apply Hfl.
  - intros n c Hn. pose proof (bu_file _ _ _ _ Hb (S n) _ _ Hn) as Hf. replace (Z.of_nat n + 2) with (inum_of (S n)) by (unfold inum_of; lia).
    rewrite Hdin, decide_False; [by apply Hfl|unfold inum_of; klia|]. eapply built_inum; [done|]. by eapply lookup_lt_Some.
  - intros n n' k k' Hn Hn'. rewrite !Hsl by done. by apply (bu_apart _ _ _ _ Hb).
  - intros inum Hin. cbn [tree length] in Hin, Efi. rewrite Hdin, decide_False by (unfold is_inum; klia). apply (bu_free _ _ _ _ Hb). lia.
Qed.

(** What mkfs can put on the disk: an inode for every file and the root, and
    blocks for their contents. *)
Record args_ok files : Prop := {
  ao_files : Forall file_arg files;
  ao_inodes : Z.of_nat (length files) + 1 < NINODES;
  ao_blocks : used_blocks files <= FSSIZE }.

Lemma length_links k names : length (mjoin (links k names)) = (16 * length names)%nat.
Proof.
  revert k. induction names as [|name names IH]; intros k; [done|]. cbn [links length]. change (mjoin (mk_dirent k name :: links (k + 1) names)) with (mk_dirent k name ++ mjoin (links (k + 1) names)).
  rewrite length_app, IH, length_mk_dirent. klia.
Qed.

Lemma mjoin_cons (x : bytes) l : mjoin (x :: l) = x ++ mjoin l.
Proof. done. Qed.

Lemma length_root files : length (mjoin (root_entries files)) = (16 * (length files + 2))%nat.
Proof. unfold root_entries. rewrite !mjoin_cons, !length_app, length_links, !length_mk_dirent, !length_fmap. klia. Qed.

(** Appending to the root directory before there are files. *)
Lemma root_append img fb c p files : built img 2 fb [(T_DIR, c)] -> args_ok files -> Forall is_byte p -> (length (c ++ p) <= length (mjoin (root_entries files)))%nat ->
  wp (iappend ROOTINO p) (mkMk img 2 fb) (fun _ s' => exists img' fb', s' = mkMk img' 2 fb' /\ built img' 2 fb' [(T_DIR, c ++ p)]).
Proof.
  intros Hb [_ Hn Hu] Hp Hle. change ROOTINO with (inum_of 0). apply (iappend_built img 2 fb _ 0 T_DIR c p Hb); [done|done|..].
  - rewrite length_root in Hle. unfold NINODES in Hn. klia.
  - pose proof (cost_len _ _ Hle). pose proof (total_nonneg (contents files)). unfold used_blocks, tree in Hu. rewrite total_cons in Hu.
    change (<[0%nat := (T_DIR, c ++ p)]> [(T_DIR, c)]) with [(T_DIR, c ++ p)]. rewrite total_cons. cbn [total foldr]. lia.
Qed.

Lemma mkfs_wp files : args_ok files -> wp (mkfs files) start (fun _ s' => made (mk_img s') files /\ mk_freeblock s' = used_blocks files).
Proof.
  intros Ha. pose proof (ao_inodes _ Ha) as Hin. pose proof (ao_blocks _ Ha) as Hu. pose proof (length_root files) as Hlr. unfold mkfs.
  apply wp_bind, wp_modify. cbn [mk_img mk_freeinode start]. apply wp_bind, (wipe_wp _ 1 nmeta); [done|]. intros img0 Hbl.
  apply wp_bind, wp_modify. cbn [mk_img mk_freeinode mk_freeblock]. fold sb_block. pose proof (blank_built img0 Hbl) as Hb0.
  apply wp_bind. eapply wp_mono; [apply (ialloc_built _ 1 nmeta [] T_DIR Hb0); vm_compute; split; (discriminate || done)|].
  intros ? ? (-> & img1 & -> & Hb1). replace (1 =? ROOTINO) with true by done. cbn [negb]. cbv iota. change (1 + 1) with 2 in *. change ([] ++ [(T_DIR, [])]) with [(T_DIR, [] : bytes)] in Hb1.
  set (e1 := mk_dirent 1 [DOT]). set (e2 := mk_dirent 1 [DOT; DOT]). assert (length e1 = 16%nat /\ length e2 = 16%nat) as [He1 He2] by done.
  apply wp_bind. eapply wp_mono; [apply (root_append _ _ _ e1 files Hb1 Ha); [apply mk_dirent_bytes; repeat constructor; by vm_compute|rewrite Hlr, length_app, He1; cbn; lia]|].
  intros [] ? (img2 & fb2 & -> & Hb2). cbn [app] in Hb2.
  apply wp_bind. eapply wp_mono; [apply (root_append _ _ _ e2 files Hb2 Ha); [apply mk_dirent_bytes; repeat constructor; by vm_compute|rewrite Hlr, length_app, He1, He2; cbn; lia]|].
  intros [] ? (img3 & fb3 & -> & Hb3). assert ((e1 ++ e2) ++ mjoin (links 2 (fname <$> files.*1)) = mjoin (root_entries files)) as Er by (by rewrite <- app_assoc).
  apply wp_bind. eapply wp_mono; [apply (add_files_built files img3 2 fb3 (e1 ++ e2) [] Hb3 (ao_files _ Ha)); [lia|rewrite Er, Hlr; unfold NINODES in Hin; klia|rewrite Er; exact Hu]|].
  rewrite Er. intros [] ? (img4 & fi4 & fb4 & -> & Hb4). change ((T_DIR, mjoin (root_entries files)) :: [] ++ contents files) with (tree files) in Hb4.
  pose proof (bu_fb _ _ _ _ Hb4) as Efb. fold (used_blocks files) in Efb. subst fb4. pose proof (bu_img _ _ _ _ Hb4) as Hok4. assert (is_inum 1) as Hr1 by (by vm_compute).
  apply wp_bind, (rinode_wp fi4 img4 (used_blocks files)); [done|done|]. apply wp_bind, (winode_wp fi4 img4 (used_blocks files)); [done|done|].
  apply wp_bind, wp_gets. cbn [mk_freeblock]. pose proof (io_fb _ _ Hok4). unfold balloc. replace (used_blocks files <? BPB) with true by klia. cbn [negb]. cbv iota.
  apply wp_modify. cbn [mk_img mk_freeinode mk_freeblock]. split; [|done]. apply (finish_made img4 fi4 files Hb4); [klia|].
  change ROOTINO with (inum_of 0). rewrite (fd_size _ _ _ _ _ (bu_file _ _ _ _ Hb4 0 _ _ eq_refl)), Hlr. unfold rounded, NINODES in *.
  assert (Z.of_nat (16 * (length files + 2)) / BSIZE <= 16) by (apply Z.div_le_upper_bound; klia). klia.
Qed.
