(* ===== verification/MkfsProps.v ===== *)
(** * mkfs and the kernel: properties

    The image mkfs writes, seen through the log and the buffer cache after a
    boot: the superblock, the free map, the files and the root directory are
    what the kernel's theorems ask for. *)
From S2P Require Import Prelude Params Sleeplock Bio BioInv Log LogInv LogCrash LogTxn CString Interfaces BlockInst Fs FsBlocks FsInode FsData FsWrite FsDir FsPath FsProps FsDirProps Mkfs MkfsInv MkfsBuild MkfsMain.
Import Mkfs.

Implicit Types (img : gmap Z bytes) (i : inode) (c : bytes) (files : list (bytes * list bytes)) (s : lst).

(** The kernel after recovery, in a transaction that has written nothing. *)
Record ready img s : Prop := {
  re_wf : log_wf s;
  re_held : held (l_bio s) = ∅;
  re_open : txn_open s;
  re_txn : txn s = ∅;
  re_view : forall b, 0 <= b < FSSIZE -> ~ (2 <= b <= 32) -> home s b /\ bview (l_bio s) b = img !!! b }.

Lemma boot_ready img files pid : made img files -> wp (initlog ROOTDEV (sb_logstart sb) ;;; begin_op) (boot_lst img pid) (fun _ s => ready img s).
Proof.
  intros Hm. change (sb_logstart sb) with 2. assert (hdr_n (img !!! 2) = 0) as Hn0 by (rewrite (lookup_total_correct _ _ zero_block); [by vm_compute|apply (md_log _ _ Hm); lia]).
  assert (log_disk 2 img) as Hld.
  { apply log_disk_empty; [|lia| |done].
    - intros b x Hx. destruct (md_ok _ _ Hm b x Hx). split; [klia|done].
    - intros b Hb. apply (md_disk _ _ Hm). klia. }
  apply wp_bind. eapply wpt_wp; [apply (initlog_run 2 img pid Hld)|]. intros [] s t (Hwf & Hh & Hn & Hs & Ho & Hc & _ & Hd & Hv).
  assert (recovered 2 img = img) as Hrec by (unfold recovered; by rewrite install_list_nil).
  eapply wpt_wp; [apply begin_op_spec; [done|rewrite Hn, Ho; vm_compute; done]|]. intros [] ? ? [-> _]. rewrite Ho. split.
  - by apply log_wf_flags.
  - done.
  - done.
  - unfold txn, logged. cbn. by rewrite Hn.
  - intros b Hb Hnl. assert (~ (2 <= b <= 2 + LOGBLOCKS)) as Hnl' by klia. split.
    + split; [|unfold in_log; cbn; by rewrite Hs]. cbn. rewrite Hd, Hrec by done. by apply (md_disk _ _ Hm).
    + cbn. rewrite Hv, !lookup_total_alt, Hd, Hrec by done. done.
Qed.

Section booted.
Context img files s (Hm : made img files) (Hr : ready img s) (Hu : used_blocks files <= FSSIZE).

Lemma BBLOCK_mkfs b : 0 <= b < FSSIZE -> BBLOCK b sb = 46 /\ b `mod` BPB = b.
Proof.
  intros Hb. rewrite BBLOCK_eq by (change (sb_bmapstart sb) with 46; klia). rewrite Z.div_small, Z.mod_small by klia. done.
Qed.

Lemma made_used b : 0 <= b < FSSIZE -> block_used s sb b = bool_decide (b < used_blocks files).
Proof.
  intros Hb. unfold block_used. destruct (BBLOCK_mkfs b Hb) as [-> ->]. change (bl_view s 46) with (bview (l_bio s) 46).
  rewrite (proj2 (re_view _ _ Hr 46 ltac:(klia) ltac:(lia))). apply (md_map _ _ Hm). klia.
Qed.

Lemma made_good b : 0 < b < used_blocks files -> ~ (2 <= b <= 32) -> b <> 46 -> good_block sb s b.
Proof.
  intros Hb Hl Hne. change (sb_size sb) with FSSIZE in *. split; [change (sb_size sb) with FSSIZE; lia|]. split; [rewrite made_used by lia; apply bool_decide_eq_true_2; lia|].
  split; [apply (re_view _ _ Hr); lia|]. change (bl_held s) with (held (l_bio s)). rewrite (re_held _ _ Hr), map_img_empty_L. split; [apply not_elem_of_empty|].
  intros b' Hb'. rewrite (proj1 (BBLOCK_mkfs b' Hb')). lia.
Qed.

Lemma used_meta : 47 <= used_blocks files.
Proof. unfold used_blocks. rewrite nmeta_47. pose proof (total_nonneg (tree files)). lia. Qed.

Lemma made_fs_ok n : (n < NBUF)%nat -> fs_ok sb s n.
Proof.
  intros Hn. pose proof used_meta as Hum. split; [|apply Hr|apply Hr| |].
  - change (sb_size sb) with FSSIZE. split; change (sb_size sb) with FSSIZE; change (bl_held s) with (held (l_bio s)); rewrite ?(re_held _ _ Hr), ?map_img_empty_L.
    + klia.
    + change (sb_bmapstart sb) with 46. lia.
    + intros b Hb. rewrite (proj1 (BBLOCK_mkfs b Hb)). split; [apply (re_view _ _ Hr); klia|apply not_elem_of_empty].
    + intros b Hb Hf. rewrite made_used in Hf by done. apply bool_decide_eq_false in Hf. split; [apply (re_view _ _ Hr); lia|]. split; [apply not_elem_of_empty|].
      intros b' Hb'. rewrite (proj1 (BBLOCK_mkfs b' Hb')). lia.
  - split; [done|]. rewrite made_used by klia. apply bool_decide_eq_true_2. lia.
  - change (bl_txn s) with (txn s). change (bl_held s) with (held (l_bio s)). rewrite (re_txn _ _ Hr), (re_held _ _ Hr), size_empty, map_size_empty. lia.
Qed.

(** ** Files *)

Definition disk_inode s (inum : Z) : inode := idisk sb s inum.

Lemma disk_inode_same inum : is_inum inum -> same_dinode (disk_inode s inum) (din img inum).
Proof.
  intros Hin. destruct (IBLOCK_mkfs inum Hin) as [_ Hb]. unfold disk_inode, idisk, din. change (bl_view s) with (bview (l_bio s)). rewrite (proj2 (re_view _ _ Hr (IBLOCK inum sb) ltac:(klia) ltac:(lia))).
  by repeat split.
Qed.

Lemma made_slot i j t c k : filed img j t c (used_blocks files) -> i_addrs i = i_addrs j -> slot s i k = vslot img j k.
Proof.
  intros Hf E. rewrite <- (vslot_addrs img i j) by done. unfold slot, bmap_at, vslot, slot_in. destruct (k =? -1); [done|]. destruct (k <? NDIRECT); [done|].
  destruct (Z.eqb_spec (i_addr i NDIRECT) 0) as [|Hz]; [done|]. assert (i_addr i NDIRECT = vslot img j (-1)) as Ea by (unfold vslot, slot_in, i_addr; by rewrite E).
  destruct (holds_slot _ _ _ _ (-1) (fd_holds _ _ _ _ _ Hf)) as [|Hrg]; [unfold is_slot; klia|congruence|]. rewrite <- Ea, nmeta_47 in Hrg.
  unfold view. change (bl_view s) with (bview (l_bio s)). by rewrite (proj2 (re_view _ _ Hr (i_addr i NDIRECT) ltac:(lia) ltac:(lia))).
Qed.

Lemma made_file_ok i j t c : filed img j t c (used_blocks files) -> i_addrs i = i_addrs j -> i_dev i = ROOTDEV -> file_ok sb s i.
Proof.
  intros Hf E Hd. pose proof (fd_holds _ _ _ _ _ Hf) as Hh. split; [unfold inode_ok; rewrite E; apply Hh|done|..].
  - intros k Hk. rewrite (made_slot i j t c) by done. intros Hz. destruct (holds_slot _ _ _ _ k Hh Hk) as [|Hrg]; [done|]. rewrite nmeta_47 in Hrg. apply made_good; lia.
  - intros k k' Hk Hk'. rewrite !(made_slot i j t c) by done. intros Ek Hz. apply (fa_inj _ _ _ _ _ Hh k k'); try done. by apply (fa_slot _ _ _ _ _ Hh).
Qed.

(** The bytes of the blocks a file has. *)
Lemma made_byte i j t c x : filed img j t c (used_blocks files) -> i_addrs i = i_addrs j -> 0 <= x < nblk (Z.of_nat (length c)) * BSIZE -> x < MAXFILE * BSIZE ->
  file_byte s i x = cbyte c x.
Proof.
  intros Hf E Hx Hmx. pose proof (fd_holds _ _ _ _ _ Hf) as Hh. pose proof (block_of x ltac:(lia)) as Hq. assert (x / BSIZE < nblk (Z.of_nat (length c))) as Hlt by (apply Z.div_lt_upper_bound; klia).
  assert (is_slot (x / BSIZE)) as Hsl by (unfold is_slot; lia). assert (full (nblk (Z.of_nat (length c))) (x / BSIZE)) as HP by (left; lia).
  rewrite <- (fa_byte _ _ _ _ _ Hh x ltac:(lia) HP). unfold file_byte. assert (bmap_at s i (x / BSIZE) = vslot img j (x / BSIZE)) as Eb.
  { rewrite <- (made_slot i j t c) by done. unfold slot. by replace (x / BSIZE =? -1) with false by lia. }
  rewrite Eb. pose proof (fa_range _ _ _ _ _ Hh _ Hsl HP) as Hrg. rewrite nmeta_47 in Hrg. change (bl_view s) with (bview (l_bio s)).
  by rewrite (proj2 (re_view _ _ Hr (vslot img j (x / BSIZE)) ltac:(lia) ltac:(lia))).
Qed.

Lemma made_bytes i j t c : filed img j t c (used_blocks files) -> i_addrs i = i_addrs j -> Z.of_nat (length c) <= MAXFILE * BSIZE ->
  file_bytes s i 0 (Z.of_nat (length c)) = c.
Proof.
  intros Hf E Hmx. destruct (nblk_bounds (Z.of_nat (length c)) ltac:(lia)) as [_ Hnb]. apply list_eq. intros k. unfold file_bytes. rewrite list_lookup_fmap.
  destruct (decide (k < length c)%nat) as [Hk|Hk].
  - rewrite lookup_seqZ_lt by lia. cbn [fmap option_fmap option_map]. rewrite (made_byte i j t c) by (done || lia). unfold cbyte. rewrite Z.add_0_l, Nat2Z.id.
    destruct (lookup_lt_is_Some_2 c k Hk) as [y ->]. done.
  - rewrite lookup_seqZ_ge by lia. cbn. symmetry. apply lookup_ge_None_2. lia.
Qed.

(** ** The root directory *)

Let root : inode := disk_inode s ROOTINO.
Let len : Z := Z.of_nat (length (mjoin (root_entries files))).
Context (Hnum : Z.of_nat (length files) + 1 < NINODES).

Lemma root_filed : exists j, i_size root = rounded len /\ i_addrs root = i_addrs j /\ (i_type root = T_DIR /\ i_nlink root = 1) /\ filed img j T_DIR (mjoin (root_entries files)) (used_blocks files).
Proof.
  destruct (disk_inode_same ROOTINO ltac:(by vm_compute)) as (Et & _ & _ & En & Es & Ea). destruct (md_root _ _ Hm) as [Hsz Hf]. exists (set_isize len (din img ROOTINO)). split; [unfold root; by rewrite Es|].
  split; [exact Ea|]. split; [|exact Hf]. unfold root. rewrite Et, En. split; [apply (fd_type _ _ _ _ _ Hf)|apply (fd_nlink _ _ _ _ _ Hf)].
Qed.

Lemma len_bounds : len = DIRENT_SIZE * (Z.of_nat (length files) + 2) /\ 0 < len <= 4 * BSIZE.
Proof. unfold len. rewrite length_root. unfold NINODES in Hnum. klia. Qed.

Lemma root_byte x : 0 <= x < nblk len * BSIZE -> file_byte s root x = cbyte (mjoin (root_entries files)) x.
Proof.
  intros Hx. destruct root_filed as (j & _ & Ea & _ & Hf). apply (made_byte root j T_DIR); try done. pose proof len_bounds as [_ Hl].
  destruct (nblk_bounds len ltac:(lia)) as [_ Hnb]. klia.
Qed.

Lemma join_chunk (l : list bytes) : Forall (fun e => length e = 16%nat) l -> forall k e x, l !! k = Some e -> (x < 16)%nat -> mjoin l !! (16 * k + x)%nat = e !! x.
Proof.
  induction 1 as [|e' l He Hl IH]; intros [|k] e x Hk Hx; try done; rewrite mjoin_cons.
  - injection Hk as ->. by rewrite lookup_app_l by lia.
  - rewrite lookup_app_r by lia. rewrite He. replace (16 * S k + x - 16)%nat with (16 * k + x)%nat by lia. by apply IH.
Qed.

Lemma links_len k names : Forall (fun e => length e = 16%nat) (links k names).
Proof. revert k. induction names as [|name names IH]; intros k; cbn; constructor; [apply length_mk_dirent|apply IH]. Qed.

Lemma root_entry_at k e : root_entries files !! k = Some e -> dirent_at s root (Z.of_nat k) = e.
Proof.
  intros Hk. assert (Forall (fun e => length e = 16%nat) (root_entries files)) as Hall by (repeat (constructor; [apply length_mk_dirent|]); apply links_len).
  assert (length e = 16%nat) as He by (rewrite Forall_lookup in Hall; by eapply Hall). pose proof len_bounds as [El Hl]. destruct (nblk_bounds len ltac:(lia)) as [_ Hnb].
  assert (16 * Z.of_nat k + 16 <= len) as Hkl.
  { destruct (lookup_lt_is_Some_2 e 15 ltac:(lia)) as [y Hy]. rewrite <- (join_chunk _ Hall k e 15 Hk ltac:(lia)) in Hy. apply lookup_lt_Some in Hy. unfold len. lia. }
  unfold dirent_at, file_bytes. change DIRENT_SIZE with 16. apply list_eq_same_length with 16%nat; [done|by rewrite length_fmap, length_seqZ|].
  intros x a b Hx Ha Hb. rewrite list_lookup_fmap, lookup_seqZ_lt in Ha by lia. injection Ha as <-. rewrite root_byte by lia. unfold cbyte.
  replace (Z.to_nat (Z.of_nat k * 16 + Z.of_nat x)) with (16 * k + x)%nat by lia. by rewrite (join_chunk _ Hall k e x Hk Hx), Hb.
Qed.

Definition root_names : list bytes := [DOT] :: [DOT; DOT] :: (fname <$> files.*1).

Lemma links_lookup m names k nm : names !! k = Some nm -> links m names !! k = Some (mk_dirent (m + Z.of_nat k) nm).
Proof.
  revert m k. induction names as [|name names IH]; intros m [|k] Hk; try done.
  - injection Hk as ->. by rewrite Z.add_0_r.
  - replace (m + Z.of_nat (S k)) with (m + 1 + Z.of_nat k) by lia. by apply IH.
Qed.

Lemma root_entry k nm : root_names !! k = Some nm -> root_entries files !! k = Some (mk_dirent (Z.max 1 (Z.of_nat k)) nm).
Proof.
  destruct k as [|[|k]]; intros Hk; [by injection Hk as <-|by injection Hk as <-|]. cbn in Hk. change (links 2 (fname <$> files.*1) !! k = Some (mk_dirent (Z.max 1 (Z.of_nat (S (S k)))) nm)).
  rewrite (links_lookup 2 _ k nm Hk). by replace (Z.max 1 (Z.of_nat (S (S k)))) with (2 + Z.of_nat k) by lia.
Qed.

Lemma length_root_names : length root_names = (length files + 2)%nat.
Proof. unfold root_names. cbn [length]. rewrite !length_fmap. lia. Qed.

Lemma root_count : Z.of_nat (length root_names) <= count root /\ count root * DIRENT_SIZE = rounded len.
Proof.
  destruct root_filed as (j & Es & _). pose proof len_bounds as [El Hl]. rewrite length_root_names. unfold count, dirents. rewrite Es. unfold rounded.
  pose proof (Z_div_mod_eq_full len BSIZE). pose proof (Z.mod_pos_bound len BSIZE ltac:(klia)). set (q := len / BSIZE) in *. change BSIZE with 1024 in *. change DIRENT_SIZE with 16 in *.
  assert (((q + 1) * 1024 + 16 - 1) / 16 = (q + 1) * 64) as E by (symmetry; apply Z.div_unique with 15; lia). rewrite E. lia.
Qed.

Lemma entry_is_made name m nm : 0 < m < 2^16 -> entry_is name (mk_dirent m nm) = same_name name nm.
Proof. intros Hm0. unfold entry_is. rewrite mk_dirent_inum, mk_dirent_name by lia. by replace (m =? 0) with false by lia. Qed.

(** The names are pairwise different for [namecmp]. *)
Definition names_apart : Prop := forall k k' a b, root_names !! k = Some a -> root_names !! k' = Some b -> same_name a b = true -> k = k'.

Lemma root_find k nm : names_apart -> root_names !! k = Some nm -> dir_find s root nm = Some (Z.max 1 (Z.of_nat k)).
Proof.
  intros Hap Hk. pose proof root_count as [Hc _]. pose proof (lookup_lt_Some _ _ _ Hk) as Hlk. rewrite length_root_names in *. unfold NINODES in Hnum.
  assert (forall k' b, root_names !! k' = Some b -> entries s root !! k' = Some (mk_dirent (Z.max 1 (Z.of_nat k')) b) /\ (k' < length files + 2)%nat) as He.
  { intros k' b Hk'. pose proof (lookup_lt_Some _ _ _ Hk') as Hlt. rewrite length_root_names in Hlt. split; [|done].
    rewrite <- (Nat2Z.id k') at 1. rewrite entries_lookup by lia. by rewrite (root_entry_at k' _ (root_entry k' b Hk')). }
  unfold dir_find, find_entry. rewrite (find_at _ _ k (mk_dirent (Z.max 1 (Z.of_nat k)) nm)); [|by apply He| |].
  - cbn [fmap option_fmap option_map]. by rewrite mk_dirent_inum by lia.
  - rewrite entry_is_made by lia. apply same_name_refl.
  - intros k' y Hk' Hy. destruct (lookup_lt_is_Some_2 root_names k') as [b Hb]; [rewrite length_root_names; lia|]. destruct (He k' b Hb) as [E _]. rewrite E in Hy. injection Hy as <-.
    rewrite entry_is_made by lia. destruct (same_name nm b) eqn:Es; [|done]. pose proof (Hap k k' nm b Hk Hb Es). lia.
Qed.

(** Unless the entries end exactly at a block boundary, the rest of the last
    block is empty entries. *)
Lemma rounded_nblk : len `mod` BSIZE <> 0 -> rounded len = nblk len * BSIZE.
Proof.
  intros Hne. pose proof len_bounds as [_ Hl]. pose proof (Z_div_mod_eq_full len BSIZE). pose proof (Z.mod_pos_bound len BSIZE ltac:(klia)).
  unfold rounded. rewrite (nblk_unique len (len / BSIZE + 1)); [done|assert (0 <= len / BSIZE) by (apply Z.div_pos; klia); lia|lia].
Qed.

Lemma root_is_dir : len `mod` BSIZE <> 0 -> is_dir s root.
Proof.
  intros Hne. pose proof (rounded_nblk Hne) as Er. destruct root_filed as (j & Es & Ea & Et & Hf). pose proof len_bounds as [_ Hl]. pose proof root_count as [_ Hc].
  assert (nblk len <= 4) as Hn4 by (destruct (nblk_bounds len ltac:(lia)); klia). split; [apply Et| | |].
  - rewrite Es, Er. destruct (nblk_bounds len ltac:(lia)). klia.
  - rewrite Es, <- Hc. apply Z.mod_mul. klia.
  - intros k Hk. rewrite Es, Er in Hk. assert (0 <= k / BSIZE < nblk len) as Hq by (split; [apply Z.div_pos; klia|apply Z.div_lt_upper_bound; klia]).
    assert (is_slot (k / BSIZE)) as Hsl by (unfold is_slot; klia). rewrite (made_slot root j T_DIR _ _ Hf Ea).
    apply (fa_slot _ _ _ _ _ (fd_holds _ _ _ _ _ Hf) _ Hsl). left. exact Hq.
Qed.

Lemma empty_entry k : len `mod` BSIZE <> 0 -> Z.of_nat (length root_names) <= k < count root -> de_inum (dirent_at s root k) = 0.
Proof.
  intros Hne Hk. pose proof (rounded_nblk Hne) as Er. pose proof root_count as [_ Hc]. pose proof len_bounds as [El Hl]. rewrite length_root_names in Hk. change DIRENT_SIZE with 16 in *.
  assert (forall x, 0 <= x < 16 -> file_byte s root (k * 16 + x) = 0) as Hz.
  { intros x Hx. rewrite root_byte by lia. unfold cbyte. rewrite lookup_ge_None_2; [done|]. unfold len in El. lia. }
  unfold dirent_at, file_bytes. change DIRENT_SIZE with 16. change 16 with (Z.of_nat 16) at 2.
  assert (file_byte s root <$> seqZ (k * 16) (Z.of_nat 16) = replicate 16 0) as ->; [|by vm_compute].
  apply list_eq_same_length with 16%nat; [done|by rewrite length_fmap, length_seqZ|]. intros x a b Hx Ha Hb. rewrite list_lookup_fmap, lookup_seqZ_lt in Ha by lia.
  injection Ha as <-. apply lookup_replicate in Hb as [-> _]. apply Hz. lia.
Qed.

(** When the entries do end at a block boundary, rounding up the size adds a
    block to the directory that it does not have. *)
Lemma root_hole : len `mod` BSIZE = 0 -> i_size root = len + BSIZE /\ slot s root (len / BSIZE) = 0.
Proof.
  intros Hz. destruct root_filed as (j & Es & Ea & _ & Hf). pose proof len_bounds as [_ Hl]. pose proof (Z_div_mod_eq_full len BSIZE) as Hdm.
  assert (nblk len = len / BSIZE) as Hq by (apply nblk_unique; klia). rewrite Es, (made_slot root j T_DIR _ _ Hf Ea). split; [unfold rounded; lia|].
  destruct (decide (vslot img j (len / BSIZE) = 0)) as [|Hnz]; [done|]. apply (fa_slot _ _ _ _ _ (fd_holds _ _ _ _ _ Hf)) in Hnz; [|unfold is_slot; klia].
  unfold full in Hnz. fold len in Hnz. rewrite Hq in Hnz. klia.
Qed.

Lemma root_absent name : len `mod` BSIZE <> 0 -> (forall nm, nm ∈ root_names -> same_name name nm = false) -> dir_find s root name = None.
Proof.
  intros Hne Hno. unfold dir_find, find_entry. rewrite find_all_false; [done|]. intros e (k & Hk & ->)%entries_elem.
  destruct (decide (k < Z.of_nat (length root_names))) as [Hlt|Hge]; [|unfold entry_is; by rewrite empty_entry by (done || lia)].
  destruct (lookup_lt_is_Some_2 root_names (Z.to_nat k) ltac:(lia)) as [b Hb]. rewrite <- (Z2Nat.id k) by lia. rewrite (root_entry_at _ _ (root_entry _ _ Hb)).
  rewrite length_root_names in Hlt. unfold NINODES in Hnum. rewrite entry_is_made by lia. apply Hno. by apply (list_elem_of_lookup_2 _ (Z.to_nat k)).
Qed.

(** Every entry names an inode that was made. *)
Lemma root_entries_made name m : len `mod` BSIZE <> 0 -> dir_find s root name = Some m -> 1 <= m <= Z.of_nat (length files) + 1.
Proof.
  intros Hne Hf. unfold dir_find, find_entry in Hf. apply fmap_Some in Hf as (e & He & ->). apply find_some in He as [Hin Hm']. apply list_elem_of_In, entries_elem in Hin as (k & Hk & ->).
  destruct (decide (k < Z.of_nat (length root_names))) as [Hlt|Hge]; [|unfold entry_is in Hm'; by rewrite empty_entry in Hm' by (done || lia)].
  destruct (lookup_lt_is_Some_2 root_names (Z.to_nat k) ltac:(lia)) as [b Hb]. rewrite <- (Z2Nat.id k) by lia. rewrite (root_entry_at _ _ (root_entry _ _ Hb)).
  rewrite length_root_names in Hlt. unfold NINODES in Hnum. rewrite mk_dirent_inum by lia. lia.
Qed.
End booted.

(** ** The disk after a boot *)

(** An open file with contents c. *)
Record file_in_place s i c : Prop := {
  ip_ok : file_ok sb s i;
  ip_type : i_type i = T_FILE;
  ip_nlink : i_nlink i = 1;
  ip_size : i_size i = Z.of_nat (length c);
  ip_bytes : file_bytes s i 0 (i_size i) = c }.

Definition root_inode s : inode := disk_inode s ROOTINO.

Record installed s files : Prop := {
  in_sb : decode_sb (bl_view s 1) = sb;
  in_fs : fs_ok sb s (Z.to_nat MAXOPBLOCKS);
  in_used : forall b, 0 <= b < sb_size sb -> block_used s sb b = bool_decide (b < used_blocks files);
  in_file : forall n arg pieces, files !! n = Some (arg, pieces) ->
    file_in_place s (disk_inode s (Z.of_nat n + 2)) (mjoin pieces) /\ dir_find s (root_inode s) (fname arg) = Some (Z.of_nat n + 2);
  in_apart : forall m n k k', 1 <= m <= Z.of_nat (length files) + 1 -> 1 <= n <= Z.of_nat (length files) + 1 -> m <> n -> is_slot k -> is_slot k' ->
    slot s (disk_inode s m) k <> 0 -> slot s (disk_inode s m) k <> slot s (disk_inode s n) k';
  in_free : forall inum, Z.of_nat (length files) + 1 < inum < NINODES -> i_type (disk_inode s inum) = 0;
  in_root : file_ok sb s (root_inode s) /\ i_type (root_inode s) = T_DIR /\ i_nlink (root_inode s) = 1;
  in_dots : dir_find s (root_inode s) [DOT] = Some ROOTINO /\ dir_find s (root_inode s) [DOT; DOT] = Some ROOTINO;
  in_dir : (DIRENT_SIZE * (Z.of_nat (length files) + 2)) `mod` BSIZE <> 0 ->
    is_dir s (root_inode s) /\ forall name, (forall nm, nm ∈ root_names files -> same_name name nm = false) -> dir_find s (root_inode s) name = None;
  in_tree : (DIRENT_SIZE * (Z.of_nat (length files) + 2)) `mod` BSIZE <> 0 -> tree_ok sb s (fun n => 1 <= n <= Z.of_nat (length files) + 1) }.

Section install.
Context img files s (Hm : made img files) (Hr : ready img s) (Ha : args_ok files) (Hap : names_apart files).

Lemma installed_file n arg pieces : files !! n = Some (arg, pieces) ->
  file_in_place s (disk_inode s (Z.of_nat n + 2)) (mjoin pieces) /\ dir_find s (root_inode s) (fname arg) = Some (Z.of_nat n + 2).
Proof.
  intros Hn. pose proof (ao_inodes _ Ha) as Hin. pose proof (lookup_lt_Some _ _ _ Hn) as Hlt. assert (is_inum (Z.of_nat n + 2)) as Hi by (unfold is_inum; lia).
  assert (contents files !! n = Some (T_FILE, mjoin pieces)) as Hc by (unfold contents; by rewrite list_lookup_fmap, Hn). pose proof (md_file _ _ Hm n _ Hc) as Hf.
  destruct (disk_inode_same img s Hr _ Hi) as (Et & _ & _ & El & Es & Eadd). pose proof (ao_files _ Ha) as Hfa. rewrite Forall_lookup in Hfa. pose proof (ar_size _ (Hfa _ _ Hn)) as Hsz.
  assert (root_names files !! S (S n) = Some (fname arg)) as Hnm by (change ((fname <$> files.*1) !! n = Some (fname arg)); by rewrite !list_lookup_fmap, Hn).
  split; [split|].
  - by apply (made_file_ok img files s Hm Hr (ao_blocks _ Ha) _ _ _ _ Hf Eadd).
  - rewrite Et. apply Hf.
  - rewrite El. apply Hf.
  - rewrite Es. apply Hf.
  - rewrite Es, (fd_size _ _ _ _ _ Hf). by apply (made_bytes img files s Hr (ao_blocks _ Ha) _ _ T_FILE _ Hf Eadd).
  - unfold root_inode. rewrite (root_find img files s Hm Hr (ao_blocks _ Ha) Hin (S (S n)) _ Hap Hnm). f_equal. lia.
Qed.

Lemma installed_slot m k : 1 <= m <= Z.of_nat (length files) + 1 -> slot s (disk_inode s m) k = fslot img (Z.to_nat (m - 1)) k.
Proof.
  intros Hm1. pose proof (ao_inodes _ Ha) as Hin. destruct (disk_inode_same img s Hr m) as (_ & _ & _ & _ & _ & Eadd); [unfold is_inum; lia|]. unfold fslot, inum_of.
  replace (Z.of_nat (Z.to_nat (m - 1)) + 1) with m by lia. destruct (decide (m = ROOTINO)) as [->|Hne].
  - destruct (md_root _ _ Hm) as [_ Hf]. rewrite (made_slot img files s Hr (ao_blocks _ Ha) _ _ _ _ k Hf Eadd). by apply vslot_addrs.
  - change ROOTINO with 1 in Hne. destruct (lookup_lt_is_Some_2 files (Z.to_nat (m - 2)) ltac:(lia)) as [[arg ps] Hn].
    assert (contents files !! Z.to_nat (m - 2) = Some (T_FILE, mjoin ps)) as Hc by (unfold contents; by rewrite list_lookup_fmap, Hn). pose proof (md_file _ _ Hm _ _ Hc) as Hf.
    replace (Z.of_nat (Z.to_nat (m - 2)) + 2) with m in Hf by lia. by apply (made_slot img files s Hr (ao_blocks _ Ha) _ _ _ _ k Hf Eadd).
Qed.

Lemma made_tree : (DIRENT_SIZE * (Z.of_nat (length files) + 2)) `mod` BSIZE <> 0 -> tree_ok sb s (fun n => 1 <= n <= Z.of_nat (length files) + 1).
Proof.
  intros Hne. pose proof (ao_inodes _ Ha) as Hin. pose proof (ao_blocks _ Ha) as Hu. assert (Z.of_nat (length (mjoin (root_entries files))) `mod` BSIZE <> 0) as Hne'.
  { rewrite length_root. change DIRENT_SIZE with 16 in Hne. by replace (Z.of_nat (16 * (length files + 2))) with (16 * (Z.of_nat (length files) + 2)) by lia. }
  destruct (root_filed img files s Hm Hr) as (j & _ & Ea & [Et En] & Hf). pose proof (made_fs_ok img files s Hm Hr 8 ltac:(vm_compute; lia)) as Hfs. pose proof (used_meta files) as Hum.
  assert (forall n, 2 <= n <= Z.of_nat (length files) + 1 -> i_type (idisk sb s n) = T_FILE /\ i_nlink (idisk sb s n) = 1) as Hfile.
  { intros n Hn. destruct (lookup_lt_is_Some_2 files (Z.to_nat (n - 2)) ltac:(lia)) as [[arg ps] Hnth]. destruct (installed_file _ _ _ Hnth) as [[_ Hty Hnl _ _] _].
    replace (Z.of_nat (Z.to_nat (n - 2)) + 2) with n in * by lia. done. }
  split.
  - change ROOTINO with 1. lia.
  - intros n Hn. split; [lia|]. destruct (IBLOCK_mkfs n) as [_ Hb]; [unfold is_inum; lia|]. apply (good_can_read sb s _ 8 Hfs). apply (made_good img files s Hm Hr Hu); lia.
  - intros n Hn. destruct (decide (n = 1)) as [->|]; [change (idisk sb s 1) with (disk_inode s ROOTINO); rewrite Et, En; done|]. destruct (Hfile n ltac:(lia)) as [-> ->]. done.
  - intros n Hn Hty. destruct (decide (n = 1)) as [->|]; [|destruct (Hfile n ltac:(lia)) as [E _]; by rewrite E in Hty].
    apply (dir_is_ok sb (mkFs s tt sb [inode0] 0 1) 0 ltac:(cbn; lia) s _ 8); [by apply (made_file_ok img files s Hm Hr Hu _ _ _ _ Hf Ea)|done|by apply (root_is_dir img files s Hm Hr Hu Hin)].
  - intros n name m Hn Hty. destruct (decide (n = 1)) as [->|]; [|destruct (Hfile n ltac:(lia)) as [E _]; by rewrite E in Hty]. by apply (root_entries_made img files s Hm Hr Hu Hin).
Qed.

Lemma made_installed : installed s files.
Proof.
  pose proof (ao_inodes _ Ha) as Hin. pose proof (ao_blocks _ Ha) as Hu. pose proof (length_root files) as Hlr. assert (length (tree files) = S (length files)) as Hlt by (unfold tree, contents; cbn; by rewrite length_fmap).
  split.
  - change (bl_view s 1) with (bview (l_bio s) 1). rewrite (proj2 (re_view _ _ Hr 1 ltac:(klia) ltac:(lia))). apply Hm.
  - apply (made_fs_ok img files s Hm Hr). vm_compute. lia.
  - by apply (made_used img files s Hm Hr).
  - apply installed_file.
  - intros m n k k' Hm1 Hn1 Hne Hk Hk'. rewrite !installed_slot by done. apply (md_apart _ _ Hm); try done; lia.
  - intros inum Hi. destruct (disk_inode_same img s Hr inum) as (Et & _); [unfold is_inum; lia|]. rewrite Et. apply (md_free _ _ Hm). lia.
  - destruct (root_filed img files s Hm Hr) as (j & _ & Ea & Et & Hf). split; [by apply (made_file_ok img files s Hm Hr Hu _ _ _ _ Hf Ea)|done].
  - split; [apply (root_find img files s Hm Hr Hu Hin 0 _ Hap); done|apply (root_find img files s Hm Hr Hu Hin 1 _ Hap); done].
  - intros Hne. assert (Z.of_nat (length (mjoin (root_entries files))) `mod` BSIZE <> 0) as Hne'.
    { rewrite Hlr. change DIRENT_SIZE with 16 in Hne. by replace (Z.of_nat (16 * (length files + 2))) with (16 * (Z.of_nat (length files) + 2)) by lia. }
    split; [by apply (root_is_dir img files s Hm Hr Hu Hin)|]. intros name. by apply (root_absent img files s Hm Hr Hu Hin).
  - apply made_tree.
Qed.
End install.

(** C17.  The image mkfs writes is one the kernel can run on.  For arguments
    with acceptable names that fit (fewer than NINODES files, at most FSSIZE
    blocks), mkfs returns; after recovery from its image the kernel reads the
    superblock mkfs meant, the free map marks exactly the blocks mkfs handed
    out, every file has the contents that were given for it under the inode
    number the root directory lists for its name, no two files share a block,
    and the other inodes are free.  Unless the root's entries fill their last
    block exactly, the root is a directory without holes that lists no other
    name, and the whole is a tree in which paths can be followed. *)
Theorem mkfs_boots files pid : args_ok files -> names_apart files ->
  wp (mkfs files) start (fun _ m => wp (initlog ROOTDEV (sb_logstart sb) ;;; begin_op) (boot_lst (mk_img m) pid) (fun _ s => installed s files)).
Proof.
  intros Ha Hap. eapply wp_mono; [exact (mkfs_wp files Ha)|]. intros [] m [Hm _].
  eapply wp_mono; [exact (boot_ready (mk_img m) files pid Hm)|]. intros ? s Hr. exact (made_installed (mk_img m) files s Hm Hr Ha Hap).
Qed.

(** [ialloc] does not check that the inode exists: past the inode blocks it
    writes into the block of the free map. *)
Lemma ialloc_unchecked img fb t : img_ok img fb -> wp (ialloc t) (mkMk img 208 fb) (fun r m => r = 208 /\
  mk_img m = <[sb_bmapstart sb := store_dinode (fresh_inode t) 0 (img !!! sb_bmapstart sb)]> img).
Proof.
  intros Hok. unfold ialloc, new_inode, winode. apply wp_bind, wp_bind, wp_gets, wp_bind, wp_modify, wp_ret. cbn [mk_img mk_freeinode mk_freeblock].
  change (IBLOCK 208 sb) with 46. change (sb_bmapstart sb) with 46. change (dinode_off 208) with 0. change (u32 (208 + 1)) with 209.
  apply wp_bind, wp_bind, (rsect_wp 209 img fb); [done|klia|]. apply wp_modify, wp_ret. done.
Qed.

(** "user/_cat" and "README". *)
Definition demo_args : list (bytes * list bytes) :=
  [([117; 115; 101; 114; 47; 95; 99; 97; 116], [replicate 1024 7; [1; 2; 3]]); ([82; 69; 65; 68; 77; 69], [[104; 105]])].

Lemma demo_args_ok : args_ok demo_args.
Proof.
  assert (forall l : bytes, forallb (fun x => (0 <=? x) && (x <? 256)) l = true -> Forall is_byte l) as Hby.
  { intros l Hl. rewrite forallb_forall in Hl. apply Forall_forall. intros x Hx%list_elem_of_In. specialize (Hl x Hx). unfold is_byte. lia. }
  assert (forall f, bool_decide (SLASH ∉ strip_user f.1) = true -> Z.of_nat (length (fname f.1)) <=? DIRSIZ = true -> forallb (fun l => forallb (fun x => (0 <=? x) && (x <? 256)) l) (fname f.1 :: f.2) = true ->
    Z.of_nat (length (mjoin f.2)) <=? MAXFILE * BSIZE = true -> file_arg f) as Hfile.
  { intros f H1 H2 H3 H4. cbn [forallb] in H3. apply andb_true_iff in H3 as [H3 H5]. split; [by apply bool_decide_eq_true in H1|lia|by apply Hby| |lia].
    apply Forall_forall. intros l Hl%list_elem_of_In. rewrite forallb_forall in H5. by apply Hby, H5. }
  split; [|by vm_compute|vm_compute; discriminate]. repeat (apply Forall_cons; split; [apply Hfile; by vm_compute|]). constructor.
Qed.

Lemma demo_names : names_apart demo_args.
Proof.
  intros k k' a b Hk Hk' E. assert (k < 4)%nat as H4 by (by apply lookup_lt_Some in Hk). assert (k' < 4)%nat as H4' by (by apply lookup_lt_Some in Hk').
  assert (forallb (fun k => forallb (fun k' => negb (same_name (root_names demo_args !!! k) (root_names demo_args !!! k')) || (k =? k')%nat) (seq 0 4)) (seq 0 4) = true) as Hall by (by vm_compute).
  rewrite forallb_forall in Hall. specialize (Hall k ltac:(apply in_seq; lia)). rewrite forallb_forall in Hall. specialize (Hall k' ltac:(apply in_seq; lia)).
  rewrite (list_lookup_total_correct _ _ _ Hk), (list_lookup_total_correct _ _ _ Hk'), E in Hall. by apply Nat.eqb_eq.
Qed.

Lemma mkfs_boots_witness : wp (mkfs demo_args) start (fun _ m =>
  wp (initlog ROOTDEV (sb_logstart sb) ;;; begin_op) (boot_lst (mk_img m) 1) (fun _ s =>
    dir_find s (root_inode s) [99; 97; 116] = Some 2 /\ i_size (disk_inode s 2) = 1027 /\ block_used s sb 49 = true /\ block_used s sb 51 = false)).
Proof.
  eapply wp_mono; [exact (mkfs_boots demo_args 1 demo_args_ok demo_names)|]. intros [] m Hm. eapply wp_mono; [exact Hm|]. intros ? s Hs. 
  destruct (in_file _ _ Hs 0 _ _ eq_refl) as [[_ _ _ Hsz _] Hf]. split; [exact Hf|]. split; [exact Hsz|].
  rewrite !(in_used _ _ Hs) by (change (sb_size sb) with 2000; lia). split; by vm_compute.
Defined.

(** ** Finding a file by its path *)

Lemma demo_installed : exists s, log_wf s /\ installed s demo_args.
Proof.
  destruct (wp_elim _ _ _ (mkfs_wp demo_args demo_args_ok)) as ([] & m & _ & _ & Hm & _).
  destruct (wp_elim _ _ _ (boot_ready (mk_img m) demo_args 1 Hm)) as ([] & s & _ & _ & Hr).
  exists s. split; [apply Hr|]. exact (made_installed (mk_img m) demo_args s Hm Hr demo_args_ok demo_names).
Qed.

(** "/cat" on the image of [demo_args]. *)
Lemma namex_correct_witness : exists s, installed s demo_args /\
  wp (namex [SLASH; 99; 97; 116] false name0) (mkFs s tt sb demo_itable 0 1) (fun r f => exists ip, r.1 = Some ip /\ i_inum (inode_at ip f) = 2 /\ i_ref (inode_at ip f) = 1).
Proof.
  destruct demo_installed as (s & Hwf & Hi). exists s. split; [exact Hi|]. set (f := mkFs s tt sb demo_itable 0 1).
  eapply wp_mono; [apply (namex_correct f (fun n => 1 <= n <= 3) [SLASH; 99; 97; 116] false name0)|].
  - apply (in_tree _ _ Hi). by vm_compute.
  - by apply fresh_quiet.
  - by left.
  - done.
  - by apply (bool_decide_unpack (0 ∉ _)); vm_compute.
  - intros r f' [Ho _]. change (path_elems [SLASH; 99; 97; 116]) with [[99; 97; 116]] in Ho. change (start_of f [SLASH; 99; 97; 116]) with ROOTINO in Ho.
    cbn [target walk] in Ho. change (f_blk f) with s in Ho. change (f_sb f) with sb in Ho. change (idisk sb s ROOTINO) with (root_inode s) in Ho.
    rewrite (proj1 (proj2 (in_root _ _ Hi))), Z.eqb_refl in Ho. destruct (in_file _ _ Hi 0 _ _ eq_refl) as [_ Hf]. change (fname _) with [99; 97; 116] in Hf. rewrite Hf in Ho.
    destruct Ho as (ip & Er & Hk & Hin & Hrf & Hnum). exists ip. split; [done|]. split; [done|]. rewrite (kp_ref _ _ _ _ _ Hk ip Hin). unfold inode_at, f. cbn [f_itable].
    unfold demo_itable. rewrite lookup_total_replicate_2 by done. unfold single. by rewrite decide_True.
Defined.
