(* ===== verification/Kalloc.v ===== *)
(** * Physical memory allocator ([kernel/kalloc.c])

    Physical memory is byte addressable; the free list is threaded through the
    free pages themselves ([struct run]).  [kend] is the linker symbol [end].
    The spinlock [kmem.lock] makes each operation one step. *)
From S2P Require Import Prelude Params CString.

Definition PGSIZE : Z := 4096.
Definition KERNBASE : Z := 0x80000000.
Definition PHYSTOP : Z := KERNBASE + 128 * 1024 * 1024.

Definition PGROUNDUP (sz : Z) : Z := Z.land (u64 (sz + PGSIZE - 1)) (Z.lnot (PGSIZE - 1)).
Definition PGROUNDDOWN (a : Z) : Z := Z.land a (Z.lnot (PGSIZE - 1)).

(** 64-bit words and byte strings in memory. *)
Definition load_bytes (m : mem) (a n : Z) : bytes := m <$> seqZ a n.
Definition load64 (m : mem) (a : Z) : Z := of_le (load_bytes m a 8).
Definition store_bytes (m : mem) (a : Z) (bs : bytes) : mem := fun x =>
  if (a <=? x) && (x <? a + Z.of_nat (length bs)) then bs !!! Z.to_nat (x - a) else m x.
Definition store64 (m : mem) (a v : Z) : mem := store_bytes m a (to_le 8 v).

Record kst : Type := mkKst { k_mem : mem; k_freelist : Z }.
Definition set_mem (f : mem -> mem) (s : kst) : kst := mkKst (f (k_mem s)) (k_freelist s).
Definition set_freelist (r : Z) (s : kst) : kst := mkKst (k_mem s) r.

Section kalloc.
Context (kend : Z).

Definition kfree (pa : Z) : M kst unit :=
  if negb (pa `mod` PGSIZE =? 0) || (pa <? kend) || (PHYSTOP <=? pa) then panic "kfree"
  else
    modify (set_mem (fun m => memset m pa 1 PGSIZE)) ;;;
    modify (fun s => set_mem (fun m => store64 m pa (k_freelist s)) s) ;;;
    modify (set_freelist pa).

Definition kalloc : M kst Z :=
  let! r := gets k_freelist in
  when (negb (r =? 0)) (modify (fun s => set_freelist (load64 (k_mem s) r) s)) ;;;
  when (negb (r =? 0)) (modify (set_mem (fun m => memset m r 5 PGSIZE))) ;;;
  ret r.

(** [for(; p + PGSIZE <= pa_end; p += PGSIZE) kfree(p)] *)
Definition freerange (pa_start pa_end : Z) : M kst unit :=
  let p := PGROUNDUP pa_start in
  iter ((pa_end - p) / PGSIZE) (fun k => kfree (p + k * PGSIZE)).

Definition kinit : M kst unit := freerange kend PHYSTOP.
End kalloc.

(** ** Memory *)

Lemma store_bytes_at m a bs x : 
  store_bytes m a bs x =
    if decide (a <= x < a + Z.of_nat (length bs)) then bs !!! Z.to_nat (x - a) else m x.
Proof.
  unfold store_bytes. destruct (decide (a <= x < a + Z.of_nat (length bs))).
  - by replace ((a <=? x) && (x <? a + Z.of_nat (length bs))) with true by lia.
  - by replace ((a <=? x) && (x <? a + Z.of_nat (length bs))) with false by lia.
Qed.

Lemma load_bytes_ext m m' a n : (forall x, a <= x < a + n -> m x = m' x) -> load_bytes m a n = load_bytes m' a n.
Proof.
  intros H. apply list_fmap_ext. intros k x [-> Hk]%lookup_seqZ. apply H. lia.
Qed.

Lemma load_store_bytes m a bs : load_bytes (store_bytes m a bs) a (Z.of_nat (length bs)) = bs.
Proof.
  unfold load_bytes. apply list_eq_same_length with (length bs); [done|by rewrite length_fmap, length_seqZ, Nat2Z.id|].
  intros k x y Hk Hx Hy. rewrite list_lookup_fmap, lookup_seqZ_lt in Hx by lia. injection Hx as <-.
  rewrite store_bytes_at, decide_True by lia. replace (Z.to_nat (a + Z.of_nat k - a)) with k by lia.
  by apply list_lookup_total_correct.
Qed.

Lemma load64_store_same m a v : load64 (store64 m a v) a = u64 v.
Proof.
  unfold load64, store64. pose proof (load_store_bytes m a (to_le 8 v)) as Hl.
  rewrite length_to_le in Hl. change (Z.of_nat 8) with 8 in Hl. rewrite Hl. apply of_to_le.
Qed.

Lemma load64_ext m m' a : (forall x, a <= x < a + 8 -> m x = m' x) -> load64 m a = load64 m' a.
Proof. intros H. unfold load64. by rewrite (load_bytes_ext m m'). Qed.

Lemma load64_store_ne m a b v : a + 8 <= b \/ b + 8 <= a -> load64 (store64 m a v) b = load64 m b.
Proof.
  intros H. apply load64_ext. intros x Hx. unfold store64.
  rewrite store_bytes_at, length_to_le, decide_False by lia. done.
Qed.

Lemma memset_at m dst c n a : 0 <= n ->
  memset m dst c n a = if decide (dst <= a < dst + n) then u8 c else m a.
Proof. intros. unfold memset. rewrite memset_loop_at, Z.add_0_r, Z2Nat.id by lia. done. Qed.

Lemma load64_memset_ne m dst c n a : 0 <= n -> a + 8 <= dst \/ dst + n <= a ->
  load64 (memset m dst c n) a = load64 m a.
Proof. intros Hn H. apply load64_ext. intros x Hx. by rewrite memset_at, decide_False by lia. Qed.

(** Rounding to pages. *)
Lemma land_lnot_page a : Z.land a (Z.lnot (PGSIZE - 1)) = a / PGSIZE * PGSIZE.
Proof.
  change (PGSIZE - 1) with (Z.ones 12). change PGSIZE with (2^12).
  rewrite <- Z.ldiff_land, Z.ldiff_ones_r, Z.shiftr_div_pow2, Z.shiftl_mul_pow2 by lia. done.
Qed.

Lemma PGROUNDDOWN_eq a : PGROUNDDOWN a = a / PGSIZE * PGSIZE.
Proof. apply land_lnot_page. Qed.

Lemma PGROUNDUP_eq sz : 0 <= sz < 2^64 - PGSIZE -> PGROUNDUP sz = (sz + PGSIZE - 1) / PGSIZE * PGSIZE.
Proof.
  intros H. unfold PGROUNDUP. rewrite land_lnot_page, u64_id; [done|]. unfold PGSIZE in *. lia.
Qed.

(** ** The free list *)

Definition page_ok (kend pa : Z) : Prop := pa `mod` PGSIZE = 0 /\ kend <= pa < PHYSTOP.

(** The list of free pages starting at pointer p. *)
Fixpoint chain (m : mem) (p : Z) (l : list Z) : Prop :=
  match l with
  | [] => p = 0
  | pa :: l => p = pa /\ chain m (load64 m pa) l
  end.

Record free_ok (kend : Z) (s : kst) (l : list Z) : Prop := {
  fo_chain : chain (k_mem s) (k_freelist s) l;
  fo_pages : Forall (page_ok kend) l;
  fo_nodup : NoDup l }.

Lemma pages_apart a b : a `mod` PGSIZE = 0 -> b `mod` PGSIZE = 0 -> a <> b ->
  a + PGSIZE <= b \/ b + PGSIZE <= a.
Proof.
  intros Ha Hb Hne. pose proof (Z_div_mod_eq_full a PGSIZE). pose proof (Z_div_mod_eq_full b PGSIZE).
  unfold PGSIZE in *. lia.
Qed.

Lemma chain_ext m m' p l : (forall a, a ∈ l -> load64 m' a = load64 m a) -> chain m p l -> chain m' p l.
Proof.
  revert p. induction l as [|a l IH]; intros p Hext; simpl; [done|].
  intros [-> Hc]. split; [done|]. rewrite Hext by set_solver. apply IH; [set_solver|done].
Qed.

(** Memory outside a page. *)
Definition same_outside (pa : Z) (m m' : mem) : Prop :=
  forall x, ~ (pa <= x < pa + PGSIZE) -> m' x = m x.

Lemma same_outside_load m m' pa a : a `mod` PGSIZE = 0 -> pa `mod` PGSIZE = 0 -> a <> pa ->
  same_outside pa m m' -> load64 m' a = load64 m a.
Proof.
  intros Ha Hp Hne Hs. destruct (pages_apart a pa Ha Hp Hne) as [H|H]; apply load64_ext; intros x Hx; apply Hs;
    unfold PGSIZE in *; lia.
Qed.

Section kalloc_proofs.
Context (kend : Z) (Hend : 0 < kend).

Lemma kfree_wp s l pa : free_ok kend s l -> page_ok kend pa -> pa ∉ l ->
  wp (kfree kend pa) s (fun _ s' => free_ok kend s' (pa :: l) /\ same_outside pa (k_mem s) (k_mem s')).
Proof.
  intros [Hc Hp Hn] [Hal Hr] Hni. unfold kfree. rewrite Hal, Z.eqb_refl.
  replace (pa <? kend) with false by lia. replace (PHYSTOP <=? pa) with false by lia. cbn [negb orb].
  wp_steps. cbn [k_mem k_freelist set_mem set_freelist].
  set (m' := store64 (memset (k_mem s) pa 1 PGSIZE) pa (k_freelist s)).
  assert (same_outside pa (k_mem s) m') as Hout.
  { intros x Hx. unfold m', store64. rewrite store_bytes_at, length_to_le, decide_False by (unfold PGSIZE in *; lia).
    by rewrite memset_at, decide_False by (unfold PGSIZE in *; lia). }
  split; [|exact Hout]. split; cbn [k_mem k_freelist set_mem set_freelist]; fold m'.
  - split; [done|]. assert (load64 m' pa = k_freelist s) as ->.
    { unfold m'. rewrite load64_store_same. apply u64_id. destruct l as [|a l]; simpl in Hc; [lia|]. destruct Hc as [-> _].
      apply Forall_cons in Hp as [[_ Hpa] _]. unfold PHYSTOP, KERNBASE in Hpa. lia. }
    eapply chain_ext; [|exact Hc]. intros a Ha. rewrite Forall_forall in Hp. destruct (Hp a Ha) as [Haa _].
    eapply same_outside_load; [done|exact Hal| |exact Hout]. by intros ->.
  - by constructor.
  - by constructor.
Qed.

Lemma kalloc_wp s l : free_ok kend s l ->
  wp kalloc s (fun r s' => match l with
    | [] => r = 0 /\ s' = s
    | pa :: l' => r = pa /\ free_ok kend s' l' /\ same_outside pa (k_mem s) (k_mem s') /\
        forall x, pa <= x < pa + PGSIZE -> k_mem s' x = 5
    end).
Proof.
  intros [Hc Hp Hn]. unfold kalloc. apply wp_bind, wp_gets. destruct l as [|pa l]; simpl in Hc.
  - rewrite Hc. change (negb (0 =? 0)) with false. by wp_steps.
  - destruct Hc as [-> Hc]. apply Forall_cons in Hp as [[Hal Hr] Hp]. apply NoDup_cons in Hn as [Hni Hn].
    replace (negb (pa =? 0)) with true by lia. cbn [when]. wp_steps. split; [done|].
    cbn [k_mem k_freelist set_mem set_freelist].
    assert (same_outside pa (k_mem s) (memset (k_mem s) pa 5 PGSIZE)) as Hout.
    { intros x Hx. by rewrite memset_at, decide_False by (unfold PGSIZE in *; lia). }
    split_and!; [split|exact Hout|]; cbn [k_mem k_freelist set_mem set_freelist]; try done.
    + eapply chain_ext; [|exact Hc]. intros a Ha. rewrite Forall_forall in Hp. destruct (Hp a Ha) as [Haa _].
      eapply same_outside_load; [done|exact Hal| |exact Hout]. by intros ->.
    + intros x Hx. by rewrite memset_at, decide_True by (unfold PGSIZE in *; lia).
Qed.

Lemma kfree_panics s pa : ~ page_ok kend pa -> kfree kend pa s = Panic "kfree" [].
Proof.
  intros H. unfold kfree. destruct (negb (pa `mod` PGSIZE =? 0) || (pa <? kend) || (PHYSTOP <=? pa)) eqn:He; [done|].
  destruct H. apply orb_false_iff in He as [[H1 H2]%orb_false_iff H3]. apply negb_false_iff in H1. unfold page_ok. lia.
Qed.

(** The pages [kinit] hands to the allocator, last freed first. *)
Definition all_pages : list Z :=
  reverse ((fun k => PGROUNDUP kend + k * PGSIZE) <$> seqZ 0 ((PHYSTOP - PGROUNDUP kend) / PGSIZE)).

Lemma kinit_wp s : kend <= PHYSTOP -> k_freelist s = 0 ->
  wp (kinit kend) s (fun _ s' => free_ok kend s' all_pages).
Proof.
  intros Hk Hf. unfold kinit, freerange. set (p := PGROUNDUP kend). set (n := (PHYSTOP - p) / PGSIZE).
  assert (p `mod` PGSIZE = 0 /\ kend <= p) as [Hal Hle].
  { unfold p. rewrite PGROUNDUP_eq by (unfold PHYSTOP, KERNBASE, PGSIZE in *; lia).
    rewrite Z.mod_mul by (unfold PGSIZE; lia). split; [done|].
    pose proof (Z_div_mod_eq_full (kend + PGSIZE - 1) PGSIZE).
    pose proof (Z.mod_pos_bound (kend + PGSIZE - 1) PGSIZE). unfold PGSIZE in *. lia. }
  assert (forall k, 0 <= k < n -> page_ok kend (p + k * PGSIZE)) as Hpages.
  { intros k Hkn. split; [rewrite Z.mod_add by (unfold PGSIZE; lia); done|].
    pose proof (Z_div_mod_eq_full (PHYSTOP - p) PGSIZE). pose proof (Z.mod_pos_bound (PHYSTOP - p) PGSIZE).
    fold n in H. unfold PGSIZE in *. nia. }
  destruct (decide (0 <= n)) as [Hn|Hn].
  - eapply (wpt_iter (fun j s1 _ => free_ok kend s1
      (reverse ((fun k => p + k * PGSIZE) <$> seqZ 0 j)))); [done| | |].
    + split; cbn; [done|constructor|constructor].
    + intros j s1 t1 Hj Hok. eapply wpt_mono; [eapply kfree_wp; [exact Hok|by apply Hpages|]|].
      * rewrite elem_of_reverse, list_elem_of_fmap. intros (k & Heq & Hin%elem_of_seqZ). unfold PGSIZE in *. lia.
      * intros _ s2 t2 [Hok2 _]. rewrite seqZ_app, fmap_app, reverse_app by lia. exact Hok2.
    + intros s1 t1 Hok. exact Hok.
  - unfold iter. replace (Z.to_nat n) with 0%nat by lia. apply wp_bind, wp_ret, wp_ret.
    unfold all_pages. fold p n. rewrite seqZ_nil by lia. split; cbn; [done|constructor|constructor].
Qed.
End kalloc_proofs.

(** C14.  The page allocator: [kinit] puts every whole page between the end of
    the kernel and PHYSTOP on the free list exactly once; [kalloc] then hands
    out a page that is on the list and removes it (0 when the list is empty);
    [kfree] puts a page back and refuses, by a panic, an address that is not
    the start of such a page.  Neither touches memory outside the page. *)
Theorem kalloc_correct kend s :
  0 < kend <= PHYSTOP ->
  (k_freelist s = 0 -> wp (kinit kend) s (fun _ s' => free_ok kend s' (all_pages kend))) /\
  (forall l, free_ok kend s l -> wp kalloc s (fun r s' => match l with
     | [] => r = 0 /\ s' = s
     | pa :: l' => r = pa /\ free_ok kend s' l' /\ same_outside pa (k_mem s) (k_mem s') /\
         forall x, pa <= x < pa + PGSIZE -> k_mem s' x = 5 end)) /\
  (forall l pa, free_ok kend s l -> page_ok kend pa -> pa ∉ l ->
     wp (kfree kend pa) s (fun _ s' => free_ok kend s' (pa :: l) /\ same_outside pa (k_mem s) (k_mem s'))) /\
  (forall pa, ~ page_ok kend pa -> kfree kend pa s = Panic "kfree" []).
Proof.
  intros [H0 H1]. split; [by apply kinit_wp|]. split; [by apply kalloc_wp|].
  split; [by apply kfree_wp|apply kfree_panics].
Qed.

(** Two pages below PHYSTOP: allocating gives the last one. *)
Lemma kalloc_correct_witness :
  let kend := PHYSTOP - 2 * PGSIZE in let s0 := mkKst (fun _ => 0) 0 in
  0 < kend <= PHYSTOP /\ wp (kinit kend) s0 (fun _ s' => free_ok kend s' [PHYSTOP - PGSIZE; PHYSTOP - 2 * PGSIZE]).
Proof.
  intros kend s0. assert (0 < kend <= PHYSTOP) as Hk by (vm_compute; split; [reflexivity|discriminate]).
  split; [exact Hk|]. destruct (kalloc_correct kend s0 Hk) as [Hinit _].
  eapply wp_mono; [exact (Hinit eq_refl)|]. intros ? s' Hok. exact Hok.
Defined.
