(* ===== verification/Vm.v ===== *)
(** * Virtual memory ([kernel/vm.c])

    Sv39 page tables in physical memory: a page-table entry is the 64-bit word
    at its address.  [v_sz] and [v_pagetable] are [myproc()->sz] and
    [myproc()->pagetable], which [vmfault] consults.  [kend], [etext] and
    [trampoline] are linker symbols. *)
From S2P Require Import Prelude Params CString Kalloc.

Definition PTE_V : Z := 1.
Definition PTE_R : Z := 2.
Definition PTE_W : Z := 4.
Definition PTE_X : Z := 8.
Definition PTE_U : Z := 16.
Definition PA2PTE (pa : Z) : Z := u64 (Z.shiftl (Z.shiftr pa 12) 10).
Definition PTE2PA (pte : Z) : Z := u64 (Z.shiftl (Z.shiftr pte 10) 12).
Definition PTE_FLAGS (pte : Z) : Z := Z.land pte 0x3FF.
Definition PXSHIFT (level : Z) : Z := 12 + 9 * level.
Definition PX (level va : Z) : Z := Z.land (Z.shiftr va (PXSHIFT level)) 0x1FF.
Definition MAXVA : Z := Z.shiftl 1 (9 + 9 + 9 + 12 - 1).
Definition UART0 : Z := 0x10000000.
Definition VIRTIO0 : Z := 0x10001000.
Definition PLIC : Z := 0x0c000000.
Definition TRAMPOLINE : Z := MAXVA - PGSIZE.
Definition KSTACK (p : Z) : Z := TRAMPOLINE - (p + 1) * 2 * PGSIZE.
Definition TRAPFRAME : Z := TRAMPOLINE - PGSIZE.

Definition has (pte flag : Z) : bool := negb (Z.land pte flag =? 0).

Record vst : Type := mkVst { v_k : kst; v_sz : Z; v_pagetable : Z }.
Definition set_k (k : kst) (s : vst) : vst := mkVst k (v_sz s) (v_pagetable s).
Definition kmem {A} (m : M kst A) : M vst A := zoom v_k set_k m.

Definition v_mem (s : vst) : mem := k_mem (v_k s).
Definition read_pte (a : Z) : M vst Z := gets (fun s => load64 (v_mem s) a).
Definition write_pte (a v : Z) : M vst unit :=
  kmem (modify (set_mem (fun m => store64 m a v))).
Definition zero_page (pa : Z) : M vst unit :=
  kmem (modify (set_mem (fun m => memset m pa 0 PGSIZE))).
(** [&pagetable[i]] *)
Definition pte_at (pagetable i : Z) : Z := pagetable + 8 * i.

Section vm.
Context (kend : Z).

(** One level of [walk]: the next page table, allocated if asked to. *)
Definition walk_level (pagetable va level : Z) (alloc : bool) : M vst (option Z) :=
  let a := pte_at pagetable (PX level va) in
  let! pte := read_pte a in
  if has pte PTE_V then ret (Some (PTE2PA pte))
  else if negb alloc then ret None
  else
    let! p := kmem kalloc in
    if p =? 0 then ret None
    else
      zero_page p ;;;
      write_pte a (Z.lor (PA2PTE p) PTE_V) ;;;
      ret (Some p).

Definition walk (pagetable va : Z) (alloc : bool) : M vst (option Z) :=
  if MAXVA <=? va then panic "walk"
  else
    let! p1 := walk_level pagetable va 2 alloc in
    match p1 with
    | None => ret None
    | Some p1 =>
        let! p0 := walk_level p1 va 1 alloc in
        match p0 with
        | None => ret None
        | Some p0 => ret (Some (pte_at p0 (PX 0 va)))
        end
    end.

Definition walkaddr (pagetable va : Z) : M vst Z :=
  if MAXVA <=? va then ret 0
  else
    let! a := walk pagetable va false in
    match a with
    | None => ret 0
    | Some a =>
        let! pte := read_pte a in
        if negb (has pte PTE_V) then ret 0
        else if negb (has pte PTE_U) then ret 0
        else ret (PTE2PA pte)
    end.

(** The loop of [mappages] stops when [a] reaches [last], after
    [size / PGSIZE] iterations. *)
Definition mappages (pagetable va size pa perm : Z) : M vst Z :=
  if negb (va `mod` PGSIZE =? 0) then panic "mappages: va not aligned"
  else if negb (size `mod` PGSIZE =? 0) then panic "mappages: size not aligned"
  else if size =? 0 then panic "mappages: size"
  else
    let! r := for_from (Z.to_nat (size / PGSIZE)) 0 (fun k =>
      let! a := walk pagetable (u64 (va + k * PGSIZE)) true in
      match a with
      | None => ret (Some (-1))
      | Some a =>
          let! pte := read_pte a in
          if has pte PTE_V then panic "mappages: remap"
          else
            write_pte a (Z.lor (Z.lor (PA2PTE (u64 (pa + k * PGSIZE))) perm) PTE_V) ;;;
            ret None
      end) in
    match r with Some r => ret r | None => ret 0 end.

Definition kvmmap (kpgtbl va pa sz perm : Z) : M vst unit :=
  let! r := mappages kpgtbl va sz pa perm in
  if negb (r =? 0) then panic "kvmmap" else ret tt.

(** [proc_mapstacks] of [kernel/proc.c]: a stack page for each process. *)
Definition proc_mapstacks (kpgtbl : Z) : M vst unit :=
  iter NPROC (fun i =>
    let! pa := kmem kalloc in
    if pa =? 0 then panic "kalloc"
    else kvmmap kpgtbl (KSTACK i) pa PGSIZE (Z.lor PTE_R PTE_W)).

Definition kvmmake (etext trampoline : Z) : M vst Z :=
  let! kpgtbl := kmem kalloc in
  zero_page kpgtbl ;;;
  kvmmap kpgtbl UART0 UART0 PGSIZE (Z.lor PTE_R PTE_W) ;;;
  kvmmap kpgtbl VIRTIO0 VIRTIO0 PGSIZE (Z.lor PTE_R PTE_W) ;;;
  kvmmap kpgtbl PLIC PLIC 0x4000000 (Z.lor PTE_R PTE_W) ;;;
  kvmmap kpgtbl KERNBASE KERNBASE (etext - KERNBASE) (Z.lor PTE_R PTE_X) ;;;
  kvmmap kpgtbl etext etext (PHYSTOP - etext) (Z.lor PTE_R PTE_W) ;;;
  kvmmap kpgtbl TRAMPOLINE trampoline PGSIZE (Z.lor PTE_R PTE_X) ;;;
  proc_mapstacks kpgtbl ;;;
  ret kpgtbl.

(** The result is kept in kernel_pagetable. *)
Definition kvminit (etext trampoline : Z) : M vst Z := kvmmake etext trampoline.

Definition uvmcreate : M vst Z :=
  let! pagetable := kmem kalloc in
  if pagetable =? 0 then ret 0
  else zero_page pagetable ;;; ret pagetable.

Definition uvmunmap (pagetable va npages : Z) (do_free : bool) : M vst unit :=
  if negb (va `mod` PGSIZE =? 0) then panic "uvmunmap: not aligned"
  else
    iter npages (fun k =>
      let! a := walk pagetable (va + k * PGSIZE) false in
      match a with
      | None => ret tt
      | Some a =>
          let! pte := read_pte a in
          if negb (has pte PTE_V) then ret tt
          else
            when do_free (kmem (kfree kend (PTE2PA pte))) ;;;
            write_pte a 0
      end).

Definition uvmdealloc (pagetable oldsz newsz : Z) : M vst Z :=
  if oldsz <=? newsz then ret oldsz
  else
    when (PGROUNDUP newsz <? PGROUNDUP oldsz)
      (uvmunmap pagetable (PGROUNDUP newsz)
         (i32 ((PGROUNDUP oldsz - PGROUNDUP newsz) / PGSIZE)) true) ;;;
    ret newsz.

Definition uvmalloc (pagetable oldsz newsz xperm : Z) : M vst Z :=
  if newsz <? oldsz then ret oldsz
  else
    let oldsz := PGROUNDUP oldsz in
    let! r := for_from (Z.to_nat ((newsz - oldsz + PGSIZE - 1) / PGSIZE)) 0 (fun k =>
      let a := oldsz + k * PGSIZE in
      let! p := kmem kalloc in
      if p =? 0 then uvmdealloc pagetable a oldsz ;;; ret (Some 0)
      else
        zero_page p ;;;
        let! r := mappages pagetable a PGSIZE p (Z.lor (Z.lor PTE_R PTE_U) xperm) in
        if negb (r =? 0) then
          kmem (kfree kend p) ;;;
          uvmdealloc pagetable a oldsz ;;;
          ret (Some 0)
        else ret None) in
    match r with Some r => ret r | None => ret newsz end.

(** [freewalk] recurses once per level; a user page table has three. *)
Fixpoint freewalk (depth : nat) (pagetable : Z) : M vst unit :=
  match depth with
  | O => undefined_behaviour "freewalk: depth"
  | S depth =>
      iter 512 (fun i =>
        let! pte := read_pte (pte_at pagetable i) in
        if has pte PTE_V && (Z.land pte (Z.lor (Z.lor PTE_R PTE_W) PTE_X) =? 0) then
          freewalk depth (PTE2PA pte) ;;;
          write_pte (pte_at pagetable i) 0
        else if has pte PTE_V then panic "freewalk: leaf"
        else ret tt) ;;;
      kmem (kfree kend pagetable)
  end.

Definition uvmfree (pagetable sz : Z) : M vst unit :=
  when (0 <? sz) (uvmunmap pagetable 0 (PGROUNDUP sz / PGSIZE) true) ;;;
  freewalk 3 pagetable.

Definition uvmcopy (old new sz : Z) : M vst Z :=
  let! r := for_from (Z.to_nat ((sz + PGSIZE - 1) / PGSIZE)) 0 (fun k =>
    let i := k * PGSIZE in
    let! a := walk old i false in
    match a with
    | None => ret None
    | Some a =>
        let! pte := read_pte a in
        if negb (has pte PTE_V) then ret None
        else
          let! p := kmem kalloc in
          if p =? 0 then ret (Some k)
          else
            kmem (modify (set_mem (fun m => memmove m p (PTE2PA pte) PGSIZE))) ;;;
            let! r := mappages new i PGSIZE p (PTE_FLAGS pte) in
            if negb (r =? 0) then kmem (kfree kend p) ;;; ret (Some k)
            else ret None
    end) in
  match r with
  | Some k => uvmunmap new 0 k true ;;; ret (-1)
  | None => ret 0
  end.

Definition uvmclear (pagetable va : Z) : M vst unit :=
  let! a := walk pagetable va false in
  match a with
  | None => panic "uvmclear"
  | Some a => let! pte := read_pte a in write_pte a (Z.land pte (Z.lnot PTE_U))
  end.

Definition ismapped (pagetable va : Z) : M vst bool :=
  let! a := walk pagetable va false in
  match a with
  | None => ret false
  | Some a => let! pte := read_pte a in ret (has pte PTE_V)
  end.

Definition vmfault (pagetable va : Z) : M vst Z :=
  let! sz := gets v_sz in
  if sz <=? va then ret 0
  else
    let va := PGROUNDDOWN va in
    let! m := ismapped pagetable va in
    if m then ret 0
    else
      let! p := kmem kalloc in
      if p =? 0 then ret 0
      else
        zero_page p ;;;
        let! pt := gets v_pagetable in
        let! r := mappages pt va PGSIZE p (Z.lor (Z.lor PTE_W PTE_U) PTE_R) in
        if negb (r =? 0) then kmem (kfree kend p) ;;; ret 0
        else ret p.

(** ** Copying.  Each iteration handles one page, so [len / PGSIZE + 2]
    iterations are enough. *)

Definition page_fuel (len : Z) : nat := Z.to_nat (len / PGSIZE + 2).

Fixpoint copyout_loop (fuel : nat) (pagetable dstva : Z) (src : bytes) : M vst Z :=
  match src with
  | [] => ret 0
  | _ =>
      match fuel with
      | O => undefined_behaviour "copyout: fuel"
      | S fuel =>
          let va0 := PGROUNDDOWN dstva in
          if MAXVA <=? va0 then ret (-1)
          else
            let! pa0 := walkaddr pagetable va0 in
            let! pa0 := if pa0 =? 0 then vmfault pagetable va0 else ret pa0 in
            if pa0 =? 0 then ret (-1)
            else
              let! a := walk pagetable va0 false in
              match a with
              | None => undefined_behaviour "copyout: null pte"
              | Some a =>
                  let! pte := read_pte a in
                  if negb (has pte PTE_W) then ret (-1)
                  else
                    let n := Z.min (PGSIZE - (dstva - va0)) (Z.of_nat (length src)) in
                    kmem (modify (set_mem (fun m =>
                      store_bytes m (pa0 + (dstva - va0)) (take (Z.to_nat n) src)))) ;;;
                    copyout_loop fuel pagetable (va0 + PGSIZE) (drop (Z.to_nat n) src)
              end
      end
  end.
Definition copyout (pagetable dstva : Z) (src : bytes) : M vst Z :=
  copyout_loop (page_fuel (Z.of_nat (length src))) pagetable dstva src.

(** The bytes stored at [dst] are returned with the status. *)
Fixpoint copyin_loop (fuel : nat) (pagetable srcva len : Z) (acc : bytes) : M vst (Z * bytes) :=
  if len <=? 0 then ret (0, acc)
  else
    match fuel with
    | O => undefined_behaviour "copyin: fuel"
    | S fuel =>
        let va0 := PGROUNDDOWN srcva in
        let! pa0 := walkaddr pagetable va0 in
        let! pa0 := if pa0 =? 0 then vmfault pagetable va0 else ret pa0 in
        if pa0 =? 0 then ret (-1, acc)
        else
          let n := Z.min (PGSIZE - (srcva - va0)) len in
          let! bs := gets (fun s => load_bytes (v_mem s) (pa0 + (srcva - va0)) n) in
          copyin_loop fuel pagetable (va0 + PGSIZE) (len - n) (acc ++ bs)
    end.
Definition copyin (pagetable srcva len : Z) : M vst (Z * bytes) :=
  copyin_loop (page_fuel len) pagetable srcva len [].

(** The inner loop of [copyinstr]: bytes up to a NUL (included). *)
Fixpoint take_str (bs : bytes) : bytes * bool :=
  match bs with
  | [] => ([], false)
  | b :: bs => if b =? 0 then ([0], true)
               else let '(l, z) := take_str bs in (b :: l, z)
  end.

Fixpoint copyinstr_loop (fuel : nat) (pagetable srcva max : Z) (acc : bytes) : M vst (Z * bytes) :=
  if max <=? 0 then ret (-1, acc)
  else
    match fuel with
    | O => undefined_behaviour "copyinstr: fuel"
    | S fuel =>
        let va0 := PGROUNDDOWN srcva in
        let! pa0 := walkaddr pagetable va0 in
        if pa0 =? 0 then ret (-1, acc)
        else
          let n := Z.min (PGSIZE - (srcva - va0)) max in
          let! bs := gets (fun s => load_bytes (v_mem s) (pa0 + (srcva - va0)) n) in
          let '(l, got_null) := take_str bs in
          if got_null : bool then ret (0, acc ++ l)
          else copyinstr_loop fuel pagetable (va0 + PGSIZE) (max - n) (acc ++ l)
    end.
Definition copyinstr (pagetable srcva max : Z) : M vst (Z * bytes) :=
  copyinstr_loop (page_fuel max) pagetable srcva max [].
End vm.
