(* ===== verification/VmInv.v ===== *)
(** * Page tables: invariant and specifications

    [pt_wf] describes a three-level page table in memory by the tables it is
    made of.  [pte_of] is the entry the hardware finds for a virtual address;
    [walk] returns its address, and [mappages] changes exactly that entry. *)
From S2P Require Import Prelude Params CString Kalloc Vm.

(** ** Address and entry arithmetic *)

Definition aligned (a : Z) : Prop := a `mod` PGSIZE = 0.

Lemma lor_low a b k : 0 <= k -> 0 <= b < 2^k -> Z.lor (a * 2^k) b = a * 2^k + b.
Proof.
  intros Hk Hb. rewrite <- Z.add_lor_land.
  assert (Z.land (a * 2^k) b = 0) as ->; [|lia].
  apply Z.bits_inj'. intros n Hn. rewrite Z.land_spec, Z.bits_0.
  destruct (decide (n < k)).
  - rewrite Z.mul_pow2_bits_low by lia. done.
  - destruct (decide (b = 0)) as [->|]; [by rewrite Z.bits_0, andb_false_r|].
    rewrite (Z.bits_above_log2 b); [by rewrite andb_false_r|lia|].
    apply Z.lt_le_trans with k; [|lia]. apply Z.log2_lt_pow2; lia.
Qed.

Lemma PA2PTE_eq pa : 0 <= pa < 2^56 -> PA2PTE pa = pa / 2^12 * 2^10.
Proof.
  intros H. unfold PA2PTE. rewrite Z.shiftr_div_pow2, Z.shiftl_mul_pow2 by lia. apply u64_id.
  assert (0 <= pa / 2^12 < 2^44) by (split; [apply Z.div_pos; lia|apply Z.div_lt_upper_bound; lia]). lia.
Qed.

Lemma pte_eq pa flags : 0 <= pa < 2^56 -> 0 <= flags < 2^10 ->
  Z.lor (PA2PTE pa) flags = pa / 2^12 * 2^10 + flags.
Proof. intros. rewrite PA2PTE_eq by done. by apply lor_low. Qed.

Lemma PTE2PA_pte pa flags : 0 <= pa < 2^56 -> aligned pa -> 0 <= flags < 2^10 ->
  PTE2PA (Z.lor (PA2PTE pa) flags) = pa.
Proof.
  intros Hpa Hal Hf. rewrite pte_eq by done. unfold PTE2PA.
  rewrite Z.shiftr_div_pow2, Z.shiftl_mul_pow2 by lia.
  rewrite Z.div_add_l, (Z.div_small flags), Z.add_0_r by lia.
  unfold aligned, PGSIZE in Hal. pose proof (Z_div_mod_eq_full pa 4096). change (2^12) with 4096.
  rewrite u64_id; lia.
Qed.

Lemma PTE_FLAGS_pte pa flags : 0 <= pa < 2^56 -> 0 <= flags < 2^10 ->
  PTE_FLAGS (Z.lor (PA2PTE pa) flags) = flags.
Proof.
  intros Hpa Hf. rewrite pte_eq by done. unfold PTE_FLAGS. change 0x3FF with (Z.ones 10).
  rewrite Z.land_ones by lia. rewrite Z.add_comm, Z.mod_add, Z.mod_small by lia. done.
Qed.

Lemma has_testbit pte k : 0 <= k -> has pte (2^k) = Z.testbit pte k.
Proof.
  intros Hk. unfold has. rewrite <- Z.shiftl_1_l.
  assert ((Z.land pte (Z.shiftl 1 k) =? 0) = negb (Z.testbit pte k)) as ->; [|by rewrite negb_involutive].
  rewrite Z.shiftl_1_l. destruct (Z.testbit pte k) eqn:Hb; simpl.
  - apply Z.eqb_neq. intros H0. apply (f_equal (fun z => Z.testbit z k)) in H0.
    rewrite Z.land_spec, Hb, Z.pow2_bits_true, Z.bits_0 in H0 by lia. done.
  - apply Z.eqb_eq, Z.bits_inj'. intros j Hj. rewrite Z.land_spec, Z.bits_0.
    destruct (decide (j = k)) as [->|]; [by rewrite Hb|].
    rewrite Z.pow2_bits_false by lia. by rewrite andb_false_r.
Qed.

Lemma has_lor_same pte flag : 0 < flag -> has (Z.lor pte flag) flag = true.
Proof.
  intros Hf. unfold has. replace (Z.land (Z.lor pte flag) flag) with flag.
  - lia.
  - apply Z.bits_inj'. intros j Hj. rewrite Z.land_spec, Z.lor_spec. by destruct (Z.testbit flag j), (Z.testbit pte j).
Qed.

Lemma PX_range level va : 0 <= PX level va < 512.
Proof.
  unfold PX. change 0x1FF with (Z.ones 9). rewrite Z.land_ones by lia.
  change 512 with (2^9). apply Z.mod_pos_bound. lia.
Qed.

Lemma PX_eq level va : 0 <= level -> PX level va = (va / 2^(12 + 9 * level)) `mod` 512.
Proof.
  intros. unfold PX, PXSHIFT. change 0x1FF with (Z.ones 9).
  rewrite Z.land_ones, Z.shiftr_div_pow2 by lia. done.
Qed.

(** Two addresses below MAXVA with the same three indices are on the same page. *)
Lemma PX_inj va va' : 0 <= va < MAXVA -> 0 <= va' < MAXVA ->
  PX 2 va = PX 2 va' -> PX 1 va = PX 1 va' -> PX 0 va = PX 0 va' -> va / PGSIZE = va' / PGSIZE.
Proof.
  intros Hv Hv'. rewrite !PX_eq by lia. change (12 + 9 * 2) with (12 + (9 + 9)). change (12 + 9 * 1) with (12 + 9).
  change (12 + 9 * 0) with 12. rewrite !Z.pow_add_r by lia. rewrite <- !Z.div_div by lia.
  change (2^12) with 4096. change (2^9) with 512. unfold PGSIZE in *. change MAXVA with (2^38) in *.
  assert (0 <= va / 4096 < 2^26) by (split; [apply Z.div_pos; lia|apply Z.div_lt_upper_bound; lia]).
  assert (0 <= va' / 4096 < 2^26) by (split; [apply Z.div_pos; lia|apply Z.div_lt_upper_bound; lia]).
  set (p := va / 4096) in *. set (p' := va' / 4096) in *. intros Hp2 Hp1 Hp0.
  Z.to_euclidean_division_equations. lia.
Qed.

(** ** The invariant *)

(** A page that may hold a table: any aligned non-null physical page. *)
Definition table_page (p : Z) : Prop := aligned p /\ 0 < p < 2^56.

(** [t1] gives the level-1 tables by their index in the root, [t0] the level-0
    tables by the two indices; [used] lists all of them. *)
Record pt_wf (m : mem) (root : Z) (t1 : gmap Z Z) (t0 : gmap (Z * Z) Z) : Prop := {
  pw_root : table_page root;
  pw_t1 : forall i, 0 <= i < 512 ->
    match t1 !! i with
    | Some p => table_page p /\ p <> root /\ load64 m (pte_at root i) = Z.lor (PA2PTE p) PTE_V
    | None => has (load64 m (pte_at root i)) PTE_V = false
    end;
  pw_t0 : forall i j p, t1 !! i = Some p -> 0 <= i < 512 -> 0 <= j < 512 ->
    match t0 !! (i, j) with
    | Some q => table_page q /\ q <> root /\ load64 m (pte_at p j) = Z.lor (PA2PTE q) PTE_V
    | None => has (load64 m (pte_at p j)) PTE_V = false
    end;
  pw_inj1 : forall i i' p, t1 !! i = Some p -> t1 !! i' = Some p -> i = i';
  pw_inj0 : forall x x' q, t0 !! x = Some q -> t0 !! x' = Some q -> x = x';
  pw_apart : forall i x p, t1 !! i = Some p -> t0 !! x = Some p -> False;
  pw_dom : forall i j q, t0 !! (i, j) = Some q -> is_Some (t1 !! i);
  pw_range1 : forall i, is_Some (t1 !! i) -> 0 <= i < 512;
  pw_range0 : forall i j, is_Some (t0 !! (i, j)) -> 0 <= j < 512 }.

(** The tables of the page table. *)
Definition is_table (root : Z) (t1 : gmap Z Z) (t0 : gmap (Z * Z) Z) (p : Z) : Prop :=
  p = root \/ (exists i, t1 !! i = Some p) \/ (exists x, t0 !! x = Some p).

(** The entry for a virtual address: its address and its value (0 if a table
    on the way is missing). *)
Definition leaf (t0 : gmap (Z * Z) Z) (va : Z) : option Z :=
  match t0 !! (PX 2 va, PX 1 va) with
  | Some q => Some (pte_at q (PX 0 va))
  | None => None
  end.
Definition pte_of (m : mem) (t0 : gmap (Z * Z) Z) (va : Z) : Z :=
  match leaf t0 va with Some a => load64 m a | None => 0 end.

Lemma table_of_valid p : table_page p ->
  has (Z.lor (PA2PTE p) PTE_V) PTE_V = true /\ PTE2PA (Z.lor (PA2PTE p) PTE_V) = p.
Proof.
  intros [Ha Hp]. split; [apply has_lor_same; by vm_compute|]. apply PTE2PA_pte; [lia|done|unfold PTE_V; lia].
Qed.

(** The two levels of [walk] without allocation. *)
Lemma walk_false_wp s root va t1 t0 :
  pt_wf (v_mem s) root t1 t0 -> 0 <= va < MAXVA ->
  wp (walk root va false) s (fun r s' => r = leaf t0 va /\ s' = s).
Proof.
  intros Hpt Hva. unfold walk. destruct (Z.leb_spec MAXVA va); [lia|].
  pose proof (PX_range 2 va) as H2. pose proof (PX_range 1 va) as H1. unfold leaf.
  pose proof (pw_t1 _ _ _ _ Hpt _ H2) as Ht1. unfold walk_level, read_pte. wp_steps.
  destruct (t1 !! PX 2 va) as [p|] eqn:E1.
  - destruct Ht1 as (Htp & _ & ->). destruct (table_of_valid p Htp) as [-> ->]. wp_steps.
    pose proof (pw_t0 _ _ _ _ Hpt _ _ _ E1 H2 H1) as Ht0.
    destruct (t0 !! (PX 2 va, PX 1 va)) as [q|] eqn:E0.
    + destruct Ht0 as (Htq & _ & ->). destruct (table_of_valid q Htq) as [-> ->]. by wp_steps.
    + rewrite Ht0. by wp_steps.
  - rewrite Ht1. cbn [negb]. wp_steps. destruct (t0 !! (PX 2 va, PX 1 va)) as [q|] eqn:E0; [|done].
    apply (pw_dom _ _ _ _ Hpt) in E0 as [p Hp]. congruence.
Qed.

Lemma pte_at_page p i : 0 <= i < 512 -> p <= pte_at p i /\ pte_at p i + 8 <= p + PGSIZE.
Proof. unfold pte_at, PGSIZE. lia. Qed.

Lemma pte_at_inj p p' i i' : aligned p -> aligned p' -> 0 <= i < 512 -> 0 <= i' < 512 ->
  pte_at p i = pte_at p' i' -> p = p' /\ i = i'.
Proof.
  unfold aligned, pte_at, PGSIZE. intros Hp Hp' Hi Hi' Heq.
  pose proof (Z_div_mod_eq_full p 4096). pose proof (Z_div_mod_eq_full p' 4096). lia.
Qed.

(** A store to one entry leaves every other entry alone. *)
Lemma store_pte_ne m p i p' i' v : aligned p -> aligned p' -> 0 <= i < 512 -> 0 <= i' < 512 ->
  (p, i) <> (p', i') -> load64 (store64 m (pte_at p i) v) (pte_at p' i') = load64 m (pte_at p' i').
Proof.
  intros Hp Hp' Hi Hi' Hne. apply load64_store_ne. unfold pte_at.
  unfold aligned, PGSIZE in *. pose proof (Z_div_mod_eq_full p 4096). pose proof (Z_div_mod_eq_full p' 4096).
  destruct (decide (p = p')) as [->|]; [|lia]. assert (i <> i') by congruence. lia.
Qed.

Lemma same_outside_pte m m' pa p i : aligned p -> aligned pa -> p <> pa -> 0 <= i < 512 ->
  same_outside pa m m' -> load64 m' (pte_at p i) = load64 m (pte_at p i).
Proof.
  intros Hp Hpa Hne Hi Hs. destruct (pages_apart p pa Hp Hpa Hne) as [H|H]; apply load64_ext; intros x Hx;
    apply Hs; unfold pte_at, PGSIZE in *; lia.
Qed.

(** Changing memory outside the tables. *)
Lemma pt_wf_ext m m' root t1 t0 :
  (forall p i, is_table root t1 t0 p -> 0 <= i < 512 -> load64 m' (pte_at p i) = load64 m (pte_at p i)) ->
  pt_wf m root t1 t0 -> pt_wf m' root t1 t0.
Proof.
  intros Hext [Hr H1 H0 Hi1 Hi0 Ha Hd Hr1 Hr0]. split; try done.
  - intros i Hi. rewrite Hext by (done || by left). by apply H1.
  - intros i j p Hp Hi Hj. rewrite Hext; [by apply (H0 i)| |done]. right. left. eauto.
Qed.

Lemma leaf_table m root t1 t0 va a : pt_wf m root t1 t0 -> leaf t0 va = Some a ->
  exists q, t0 !! (PX 2 va, PX 1 va) = Some q /\ a = pte_at q (PX 0 va) /\ table_page q.
Proof.
  intros Hpt. unfold leaf. destruct (t0 !! _) as [q|] eqn:E; [|done]. intros [= <-]. exists q.
  split_and!; [done..|]. destruct (pw_dom _ _ _ _ Hpt _ _ _ E) as [p Hp].
  pose proof (pw_t0 _ _ _ _ Hpt _ _ _ Hp (PX_range 2 va) (PX_range 1 va)) as Ht. rewrite E in Ht. tauto.
Qed.

(** Distinct pages have distinct entries. *)
Lemma leaf_inj m root t1 t0 va va' a : pt_wf m root t1 t0 -> 0 <= va < MAXVA -> 0 <= va' < MAXVA ->
  leaf t0 va = Some a -> leaf t0 va' = Some a -> va / PGSIZE = va' / PGSIZE.
Proof.
  intros Hpt Hva Hva' H1 H2. destruct (leaf_table _ _ _ _ _ _ Hpt H1) as (q & Hq & -> & [Hal _]).
  destruct (leaf_table _ _ _ _ _ _ Hpt H2) as (q' & Hq' & Heq & [Hal' _]).
  apply pte_at_inj in Heq as [<- H0]; [|done|done|apply PX_range..].
  pose proof (pw_inj0 _ _ _ _ Hpt _ _ _ Hq Hq') as Hx. injection Hx as Hx2 Hx1. by apply PX_inj.
Qed.

(** Writing the entry of [va] changes the translation of its page only. *)
Lemma write_leaf m root t1 t0 va a v : pt_wf m root t1 t0 -> 0 <= va < MAXVA -> leaf t0 va = Some a ->
  let m' := store64 m a v in
  pt_wf m' root t1 t0 /\ pte_of m' t0 va = u64 v /\
  forall va', 0 <= va' < MAXVA -> va' / PGSIZE <> va / PGSIZE -> pte_of m' t0 va' = pte_of m t0 va'.
Proof.
  intros Hpt Hva Hl m'. destruct (leaf_table _ _ _ _ _ _ Hpt Hl) as (q & Hq & -> & [Hal Hqr]). split_and!.
  - destruct Hpt as [Hr Ht1 Ht0 Hi1 Hi0 Hap Hd Hr1 Hr0]. destruct (Hd _ _ _ Hq) as [p2 Hp2].
    split; try done.
    + intros i Hi. specialize (Ht1 i Hi). unfold m'. rewrite store_pte_ne; [done|done|apply Hr|apply PX_range|done|].
      intros [= -> _]. specialize (Ht0 _ _ _ Hp2 (PX_range 2 va) (PX_range 1 va)). rewrite Hq in Ht0. tauto.
    + intros i j p Hp Hi Hj. specialize (Ht1 i Hi). rewrite Hp in Ht1. destruct Ht1 as ([Hpa _] & _).
      unfold m'. rewrite store_pte_ne; [by apply (Ht0 i)|done|done|apply PX_range|done|].
      intros [= -> _]. by eapply Hap.
  - unfold pte_of. rewrite Hl. apply load64_store_same.
  - intros va' Hva' Hne. unfold pte_of. destruct (leaf t0 va') as [a'|] eqn:Hl'; [|done].
    destruct (leaf_table _ _ _ _ _ _ Hpt Hl') as (q' & Hq' & -> & [Hal' _]).
    unfold m'. apply store_pte_ne; [done|done|apply PX_range|apply PX_range|]. intros [= Hqq H0].
    subst q'. apply Hne. pose proof (pw_inj0 _ _ _ _ Hpt _ _ _ Hq Hq') as Hx. injection Hx as Hx2 Hx1.
    symmetry. by apply PX_inj.
Qed.

(** ** Growing the page table *)

(** Memory [m1] is [m] but for page p, which [kalloc] returned; then [memset]
    cleared p and a pointer to it was stored in entry i of table tbl. *)
Definition linked_mem (m1 : mem) (p tbl i v : Z) : mem :=
  store64 (memset m1 p 0 PGSIZE) (pte_at tbl i) v.

Section link.
Context (m m1 : mem) (p tbl i v : Z).
Context (Hp : aligned p) (Ht : aligned tbl) (Hne : p <> tbl) (Hi : 0 <= i < 512).
Context (Hm1 : same_outside p m m1).
Let m' := linked_mem m1 p tbl i v.

Lemma linked_outside x : ~ (p <= x < p + PGSIZE) -> ~ (tbl <= x < tbl + PGSIZE) -> m' x = m x.
Proof.
  intros H1 H2. unfold m', linked_mem, store64. rewrite store_bytes_at, length_to_le.
  rewrite decide_False by (unfold pte_at, PGSIZE in *; lia).
  rewrite memset_at, decide_False by (unfold PGSIZE in *; lia). by apply Hm1.
Qed.

Lemma linked_other q j : aligned q -> q <> p -> (q, j) <> (tbl, i) -> 0 <= j < 512 ->
  load64 m' (pte_at q j) = load64 m (pte_at q j).
Proof.
  intros Hq Hqp Hqt Hj. unfold m', linked_mem.
  rewrite store_pte_ne; [|exact Ht|exact Hq|exact Hi|exact Hj|intros Heq; by apply Hqt].
  rewrite <- (same_outside_pte m m1 p q j) by done.
  destruct (pages_apart q p Hq Hp Hqp) as [H|H]; apply load64_memset_ne; unfold pte_at, PGSIZE in *; lia.
Qed.

Lemma linked_entry : load64 m' (pte_at tbl i) = u64 v.
Proof. apply load64_store_same. Qed.

Lemma linked_new j : 0 <= j < 512 -> load64 m' (pte_at p j) = 0.
Proof.
  intros Hj. unfold m', linked_mem.
  rewrite store_pte_ne; [|exact Ht|exact Hp|exact Hi|exact Hj|intros [= Heq _]; by apply Hne].
  rewrite (load64_ext _ (fun _ => 0)); [reflexivity|]. intros x Hx.
  rewrite memset_at, decide_True by (unfold pte_at, PGSIZE in *; lia). reflexivity.
Qed.
End link.

Record vm_ok (kend : Z) (s : vst) (root : Z) (t1 : gmap Z Z) (t0 : gmap (Z * Z) Z) (l : list Z) : Prop := {
  vo_free : free_ok kend (v_k s) l;
  vo_pt : pt_wf (v_mem s) root t1 t0;
  vo_apart : forall p, is_table root t1 t0 p -> p ∉ l }.

(** The page table gained tables taken from the free list; no translation and
    no memory outside changed. *)
Record grow (kend root : Z) (s s' : vst) (t1 t1' : gmap Z Z) (t0 t0' : gmap (Z * Z) Z) (l l' : list Z) : Prop := {
  gr_ok : vm_ok kend s' root t1' t0' l';
  gr_pte : forall va, 0 <= va < MAXVA -> pte_of (v_mem s') t0' va = pte_of (v_mem s) t0 va;
  gr_free : exists k, l' = drop k l;
  gr_sub : forall p, is_table root t1' t0' p -> is_table root t1 t0 p \/ p ∈ l;
  gr_frame : forall x, (forall p, is_table root t1 t0 p \/ p ∈ l -> ~ (p <= x < p + PGSIZE)) ->
    v_mem s' x = v_mem s x;
  gr_proc : v_sz s' = v_sz s /\ v_pagetable s' = v_pagetable s }.

Lemma grow_refl kend root s t1 t0 l : vm_ok kend s root t1 t0 l -> grow kend root s s t1 t1 t0 t0 l l.
Proof. intros H. split; try done; [by exists 0%nat|by left]. Qed.

Lemma grow_trans kend root s1 s2 s3 t1 t1' t1'' t0 t0' t0'' l l' l'' :
  grow kend root s1 s2 t1 t1' t0 t0' l l' -> grow kend root s2 s3 t1' t1'' t0' t0'' l' l'' ->
  grow kend root s1 s3 t1 t1'' t0 t0'' l l''.
Proof.
  intros [Ho1 Hp1 [k1 Hk1] Hs1 Hf1 [Ha1 Hb1]] [Ho2 Hp2 [k2 Hk2] Hs2 Hf2 [Ha2 Hb2]].
  assert (forall p, p ∈ l' -> p ∈ l) as Hsub by (intros p; subst l'; rewrite <- (take_drop k1 l) at 2; set_solver).
  split; [done|..].
  - intros va Hva. by rewrite Hp2, Hp1.
  - exists (k1 + k2)%nat. subst. by rewrite drop_drop.
  - intros p [H|H]%Hs2; [by apply Hs1|right; auto].
  - intros x Hx. rewrite Hf2, Hf1; [done|done|]. intros p [H|H]; apply Hx; [by apply Hs1|right; auto].
  - split; congruence.
Qed.

Lemma free_ok_ext kend k k' l : free_ok kend k l -> k_freelist k' = k_freelist k ->
  (forall a, a ∈ l -> load64 (k_mem k') a = load64 (k_mem k) a) -> free_ok kend k' l.
Proof. intros [Hc Hp Hn] Hf Hm. split; [rewrite Hf; by eapply chain_ext|done|done]. Qed.

Lemma free_page_table kend k l p : 0 < kend -> free_ok kend k l -> p ∈ l -> table_page p.
Proof.
  intros Hk [_ Hp _] Hin. rewrite Forall_forall in Hp. destruct (Hp p Hin) as [Hal Hr].
  split; [done|]. unfold PHYSTOP, KERNBASE in Hr. lia.
Qed.

Lemma table_is_page m root t1 t0 p : pt_wf m root t1 t0 -> is_table root t1 t0 p -> table_page p.
Proof.
  intros Hpt [->|[[i Hi]|[[i j] Hx]]].
  - apply Hpt.
  - pose proof (pw_t1 _ _ _ _ Hpt i (pw_range1 _ _ _ _ Hpt i ltac:(eauto))) as H. rewrite Hi in H. tauto.
  - pose proof (pw_range0 _ _ _ _ Hpt i j ltac:(eauto)) as Hj.
    destruct (pw_dom _ _ _ _ Hpt _ _ _ Hx) as [q Hq].
    pose proof (pw_t0 _ _ _ _ Hpt i j q Hq (pw_range1 _ _ _ _ Hpt i ltac:(eauto)) Hj) as H.
    rewrite Hx in H. tauto.
Qed.

Section walk.
Context (kend root : Z) (Hkend : 0 < kend).

(** The allocating part of [walk_level]. *)
Definition new_table (tbl i : Z) : M vst (option Z) :=
  let! p := kmem kalloc in
  if p =? 0 then ret None
  else
    zero_page p ;;;
    write_pte (pte_at tbl i) (Z.lor (PA2PTE p) PTE_V) ;;;
    ret (Some p).

Lemma new_table_wp s t1 t0 l tbl i :
  vm_ok kend s root t1 t0 l -> is_table root t1 t0 tbl -> 0 <= i < 512 ->
  wp (new_table tbl i) s (fun r s' => match l with
    | [] => r = None /\ s' = s
    | p :: l' => r = Some p /\ table_page p /\ ~ is_table root t1 t0 p /\ p ∉ l' /\
        free_ok kend (v_k s') l' /\ v_sz s' = v_sz s /\ v_pagetable s' = v_pagetable s /\
        exists m1, same_outside p (v_mem s) m1 /\
          v_mem s' = linked_mem m1 p tbl i (Z.lor (PA2PTE p) PTE_V)
    end).
Proof.
  intros [Hfree Hpt Hap] Htbl Hi. unfold new_table. apply wp_bind, wp_zoom.
  eapply wp_mono; [by apply (kalloc_wp kend Hkend (v_k s) l)|]. destruct l as [|p l'].
  { intros r k [-> ->]. change (0 =? 0) with true. cbv iota. apply wp_ret. split; [done|by destruct s]. }
  intros r k (-> & Hok & Hout & _).
  assert (table_page p) as Htp by (eapply free_page_table; [done|exact Hfree|set_solver]).
  pose proof Htp as [Hal Hr]. pose proof (table_is_page _ _ _ _ _ Hpt Htbl) as [Htal _].
  assert (p <> tbl) as Hne by (intros ->; apply (Hap tbl); [done|set_solver]).
  pose proof (fo_nodup _ _ _ Hfree) as Hnd. apply NoDup_cons in Hnd as [Hni _].
  replace (p =? 0) with false by lia. unfold zero_page, write_pte. apply wp_bind, wp_zoom, wp_modify.
  apply wp_bind, wp_zoom, wp_modify, wp_ret. split; [done|]. split; [done|].
  split; [intros Hp; apply (Hap p Hp); set_solver|]. split; [done|].
  split; [|split; [done|split; [done|by exists (k_mem k)]]].
  eapply free_ok_ext; [exact Hok|done|]. intros a Ha.
  pose proof (fo_pages _ _ _ Hok) as Hpg. rewrite Forall_forall in Hpg. destruct (Hpg a Ha) as [Haa _].
  assert (a <> p) by (by intros ->). assert (a <> tbl) by (intros ->; apply (Hap tbl); [done|set_solver]).
  replace a with (pte_at a 0) by (unfold pte_at; lia).
  change (load64 (linked_mem (k_mem k) p tbl i (Z.lor (PA2PTE p) PTE_V)) (pte_at a 0) = load64 (k_mem k) (pte_at a 0)).
  apply linked_other; try done; congruence.
Qed.

Lemma pte_word p : table_page p -> u64 (Z.lor (PA2PTE p) PTE_V) = Z.lor (PA2PTE p) PTE_V.
Proof.
  intros [Ha Hp]. rewrite pte_eq by (unfold PTE_V; lia). apply u64_id. unfold PTE_V.
  assert (0 <= p / 2^12 < 2^44) by (split; [apply Z.div_pos; lia|apply Z.div_lt_upper_bound; lia]). lia.
Qed.

Section grow_level.
Context (m m1 m' : mem) (t1 : gmap Z Z) (t0 : gmap (Z * Z) Z) (p : Z).
Context (Hpt : pt_wf m root t1 t0) (Htp : table_page p) (Hnt : ~ is_table root t1 t0 p).
Context (Hm1 : same_outside p m m1).

Lemma not_table : p <> root /\ (forall i, t1 !! i <> Some p) /\ (forall x, t0 !! x <> Some p).
Proof.
  split_and!; [intros ->; apply Hnt; by left|intros i Hi; apply Hnt; right; left; eauto|].
  intros x Hx. apply Hnt. right. right. eauto.
Qed.

Lemma grow_root i : 0 <= i < 512 -> t1 !! i = None ->
  m' = linked_mem m1 p root i (Z.lor (PA2PTE p) PTE_V) -> pt_wf m' root (<[i := p]> t1) t0.
Proof.
  intros Hi Hnone ->. destruct not_table as (Hpr & Hp1 & Hp0). pose proof Htp as [Hal _].
  pose proof Hpt as [[Hra Hrr] Ht1 Ht0 Hi1 Hi0 Hap Hd Hr1 Hr0]. split; try done.
  - intros i' Hi'. destruct (decide (i' = i)) as [->|Hne].
    + rewrite lookup_insert_eq, linked_entry, pte_word by done. done.
    + rewrite lookup_insert_ne by done. rewrite (linked_other m m1) by (done || congruence). by apply Ht1.
  - intros i' j p' Hp' Hi' Hj. apply lookup_insert_Some in Hp' as [[<- <-]|[Hne Hp']].
    + destruct (t0 !! (i, j)) as [q|] eqn:E; [destruct (Hd _ _ _ E); congruence|].
      rewrite (linked_new m1) by done. done.
    + pose proof (Ht1 i' Hi') as Htt. rewrite Hp' in Htt. destruct Htt as ([Hpa _] & Hpr' & _).
      rewrite (linked_other m m1); [by apply (Ht0 i')|done|done|done|done|done| |congruence|done].
      intros ->. by apply (Hp1 i').
  - intros i1 i2 q [[<- <-]|[_ H1]]%lookup_insert_Some [[<- Hq]|[_ H2]]%lookup_insert_Some; [done|..].
    + by apply Hp1 in H2.
    + subst. by apply Hp1 in H1.
    + by eapply Hi1.
  - intros i1 x q [[<- <-]|[_ H1]]%lookup_insert_Some Hx; [by apply Hp0 in Hx|by eapply Hap].
  - intros i1 j q Hq%Hd. by apply lookup_insert_is_Some'; right.
  - intros i1 [H1|H1]%lookup_insert_is_Some'; [by subst|by apply Hr1].
Qed.

Lemma grow_mid i j p1 : 0 <= i < 512 -> 0 <= j < 512 -> t1 !! i = Some p1 -> t0 !! (i, j) = None ->
  m' = linked_mem m1 p p1 j (Z.lor (PA2PTE p) PTE_V) -> pt_wf m' root t1 (<[(i, j) := p]> t0).
Proof.
  intros Hi Hj Hp1 Hnone ->. destruct not_table as (Hpr & Hpt1 & Hp0). pose proof Htp as [Hal _].
  pose proof Hpt as [[Hra Hrr] Ht1 Ht0 Hi1 Hi0 Hap Hd Hr1 Hr0].
  pose proof (Ht1 i Hi) as Hti. rewrite Hp1 in Hti. destruct Hti as ([H1a _] & H1r & _).
  assert (p <> p1) as Hpp1 by (intros ->; by apply (Hpt1 i)). split; try done.
  - intros i' Hi'. rewrite (linked_other m m1) by (done || congruence). by apply Ht1.
  - intros i' j' p' Hp' Hi' Hj'. destruct (decide ((i', j') = (i, j))) as [[= -> ->]|Hne].
    + rewrite lookup_insert_eq. rewrite Hp1 in Hp'. injection Hp' as <-.
      rewrite linked_entry, pte_word by done. done.
    + rewrite lookup_insert_ne by congruence.
      pose proof (Ht1 i' Hi') as Htt. rewrite Hp' in Htt. destruct Htt as ([Hpa _] & Hpr' & _).
      rewrite (linked_other m m1); [by apply (Ht0 i')|done|done|done|done|done| | |done].
      * intros ->. by apply (Hpt1 i').
      * intros [= -> ->]. apply Hne. f_equal. by eapply Hi1.
  - intros x1 x2 q [[<- <-]|[_ H1]]%lookup_insert_Some [[<- Hq]|[_ H2]]%lookup_insert_Some; [done|..].
    + by apply Hp0 in H2.
    + subst. by apply Hp0 in H1.
    + by eapply Hi0.
  - intros i1 x q H1 [[<- <-]|[_ Hx]]%lookup_insert_Some; [by apply Hpt1 in H1|by eapply Hap].
  - intros i1 j1 q [[[= <- <-] <-]|[_ Hq]]%lookup_insert_Some; [by eauto|by eapply Hd].
  - intros i1 j1 [[= <- <-]|H1]%lookup_insert_is_Some'; [done|by eapply Hr0].
Qed.
End grow_level.

Lemma is_table_cons_t1 t1 t0 i p q : is_table root (<[i := p]> t1) t0 q -> q = p \/ is_table root t1 t0 q.
Proof.
  intros [->|[[i' [[_ <-]|[_ Hi]]%lookup_insert_Some]|[x Hx]]]; [right; by left|by left| |];
    right; right; [left|right]; eauto.
Qed.

Lemma is_table_cons_t0 t1 t0 x p q : is_table root t1 (<[x := p]> t0) q -> q = p \/ is_table root t1 t0 q.
Proof.
  intros [->|[[i Hi]|[x' [[_ <-]|[_ Hx]]%lookup_insert_Some]]]; [right; by left| |by left|];
    right; right; [left|right]; eauto.
Qed.

Lemma walk_level2_wp s t1 t0 l va : vm_ok kend s root t1 t0 l ->
  wp (walk_level root va 2 true) s (fun r s' => match r with
    | Some p => exists t1' l', grow kend root s s' t1 t1' t0 t0 l l' /\ t1' !! PX 2 va = Some p /\
        (length l <= S (length l'))%nat
    | None => l = [] /\ s' = s end).
Proof.
  intros Hok. pose proof Hok as [Hfree Hpt Hap]. pose proof (PX_range 2 va) as H2.
  unfold walk_level, read_pte. apply wp_bind, wp_gets. pose proof (pw_t1 _ _ _ _ Hpt _ H2) as Ht.
  destruct (t1 !! PX 2 va) as [p|] eqn:E.
  - destruct Ht as (Htp & _ & ->). destruct (table_of_valid p Htp) as [-> ->]. apply wp_ret.
    exists t1, l. split; [by apply grow_refl|]. split; [done|lia].
  - rewrite Ht. cbn [negb]. eapply wp_mono; [apply (new_table_wp s t1 t0 l root (PX 2 va)); [done|by left|done]|].
    intros r s'. destruct l as [|p l']; [intros [-> ->]; done|].
    intros (-> & Htp & Hnt & Hni & Hfree' & Hsz & Hpg & m1 & Hm1 & Hm').
    exists (<[PX 2 va := p]> t1), l'. rewrite lookup_insert_eq. split; [|split; [done|simpl; lia]].
    assert (pt_wf (v_mem s') root (<[PX 2 va := p]> t1) t0) as Hpt' by (by eapply grow_root).
    destruct (pw_root _ _ _ _ Hpt) as [Hra _]. pose proof Htp as [Hal _].
    split; [split; [done|done|]|..].
    + intros q [->|Hq]%is_table_cons_t1; [done|]. intros Hin. apply (Hap q Hq), elem_of_cons. right. exact Hin.
    + intros va' Hva'. unfold pte_of. destruct (leaf t0 va') as [a|] eqn:Hl; [|done].
      destruct (leaf_table _ _ _ _ _ _ Hpt Hl) as (q & Hq & -> & [Hqa _]). rewrite Hm'.
      apply (linked_other (v_mem s) m1); [exact Hal|exact Hra|exact H2|exact Hm1|exact Hqa| | |apply PX_range].
      * intros ->. apply Hnt. right. right. eauto.
      * intros [= -> _]. pose proof (pw_dom _ _ _ _ Hpt _ _ _ Hq) as [p2 Hp2].
        pose proof (pw_t0 _ _ _ _ Hpt _ _ _ Hp2 (PX_range 2 va') (PX_range 1 va')) as Ht0. rewrite Hq in Ht0. tauto.
    + by exists 1%nat.
    + intros q [->|Hq]%is_table_cons_t1; [right; apply elem_of_cons; left; reflexivity|left; exact Hq].
    + intros x Hx. rewrite Hm'. apply (linked_outside (v_mem s) m1); [intros ->; apply Hnt; by left|exact H2|exact Hm1|..].
      * apply Hx. right. apply elem_of_cons. left. reflexivity.
      * apply Hx. left. by left.
    + split; [exact Hsz|exact Hpg].
Qed.

Lemma walk_level1_wp s t1 t0 l va p1 : vm_ok kend s root t1 t0 l -> t1 !! PX 2 va = Some p1 ->
  wp (walk_level p1 va 1 true) s (fun r s' => match r with
    | Some q => exists t0' l', grow kend root s s' t1 t1 t0 t0' l l' /\
        t0' !! (PX 2 va, PX 1 va) = Some q /\ (length l <= S (length l'))%nat
    | None => l = [] /\ s' = s end).
Proof.
  intros Hok Hp1. pose proof Hok as [Hfree Hpt Hap]. pose proof (PX_range 2 va) as H2. pose proof (PX_range 1 va) as H1.
  unfold walk_level, read_pte. apply wp_bind, wp_gets. pose proof (pw_t0 _ _ _ _ Hpt _ _ _ Hp1 H2 H1) as Ht.
  assert (is_table root t1 t0 p1) as Htbl by (right; left; eauto).
  destruct (table_is_page _ _ _ _ _ Hpt Htbl) as [Hp1a _].
  destruct (t0 !! (PX 2 va, PX 1 va)) as [q|] eqn:E.
  - destruct Ht as (Htp & _ & ->). destruct (table_of_valid q Htp) as [-> ->]. apply wp_ret.
    exists t0, l. split; [by apply grow_refl|]. split; [done|lia].
  - rewrite Ht. cbn [negb]. eapply wp_mono; [apply (new_table_wp s t1 t0 l p1 (PX 1 va)); done|].
    intros r s'. destruct l as [|p l']; [intros [-> ->]; done|].
    intros (-> & Htp & Hnt & Hni & Hfree' & Hsz & Hpg & m1 & Hm1 & Hm').
    exists (<[(PX 2 va, PX 1 va) := p]> t0), l'. rewrite lookup_insert_eq. split; [|split; [done|simpl; lia]].
    assert (pt_wf (v_mem s') root t1 (<[(PX 2 va, PX 1 va) := p]> t0)) as Hpt' by (by eapply grow_mid).
    pose proof Htp as [Hal _]. assert (p <> p1) as Hne by (by intros ->).
    split; [split; [done|done|]|..].
    + intros q [->|Hq]%is_table_cons_t0; [done|]. intros Hin. apply (Hap q Hq), elem_of_cons. right. exact Hin.
    + intros va' Hva'. unfold pte_of, leaf. rewrite Hm'.
      destruct (decide ((PX 2 va', PX 1 va') = (PX 2 va, PX 1 va))) as [He|He].
      * rewrite He, lookup_insert_eq, E. apply (linked_new m1); [exact Hal|exact Hp1a|exact Hne|exact H1|apply PX_range].
      * rewrite lookup_insert_ne by (apply not_eq_sym; exact He). destruct (t0 !! (PX 2 va', PX 1 va')) as [q|] eqn:Hq; [|reflexivity].
        assert (is_table root t1 t0 q) as Htq by (right; right; eauto).
        destruct (table_is_page _ _ _ _ _ Hpt Htq) as [Hqa _].
        apply (linked_other (v_mem s) m1); [exact Hal|exact Hp1a|exact H1|exact Hm1|exact Hqa|intros ->; exact (Hnt Htq)| |apply PX_range].
        intros [= -> _]. by eapply (pw_apart _ _ _ _ Hpt).
    + by exists 1%nat.
    + intros q [->|Hq]%is_table_cons_t0; [right; apply elem_of_cons; left; reflexivity|left; exact Hq].
    + intros x Hx. rewrite Hm'. apply (linked_outside (v_mem s) m1); [exact Hne|exact H1|exact Hm1|..].
      * apply Hx. right. apply elem_of_cons. left. reflexivity.
      * apply Hx. left. exact Htbl.
    + split; [exact Hsz|exact Hpg].
Qed.

(** [walk] with allocation finds or makes the entry; two free pages suffice. *)
Lemma walk_true_wp s t1 t0 l va : vm_ok kend s root t1 t0 l -> 0 <= va < MAXVA ->
  wp (walk root va true) s (fun r s' => exists t1' t0' l', grow kend root s s' t1 t1' t0 t0' l l' /\
    match r with
    | Some a => leaf t0' va = Some a /\ (length l <= 2 + length l')%nat
    | None => (length l < 2)%nat
    end).
Proof.
  intros Hok Hva. unfold walk. destruct (Z.leb_spec MAXVA va); [lia|]. apply wp_bind.
  eapply wp_mono; [by apply (walk_level2_wp s t1 t0 l)|]. intros [p1|] s1 Hs1.
  - destruct Hs1 as (t1' & l1 & Hg1 & Hp1 & Hl1). apply wp_bind.
    eapply wp_mono; [apply (walk_level1_wp s1 t1' t0 l1); [apply Hg1|done]|]. intros [q|] s2 Hs2; apply wp_ret.
    + destruct Hs2 as (t0' & l2 & Hg2 & Hq & Hl2). exists t1', t0', l2. split; [by eapply grow_trans|].
      unfold leaf. rewrite Hq. split; [done|lia].
    + destruct Hs2 as [-> ->]. exists t1', t0, []. split; [done|simpl in Hl1; lia].
  - destruct Hs1 as [-> ->]. apply wp_ret. exists t1, t0, []. split; [by apply grow_refl|simpl; lia].
Qed.

(** ** Mapping one page *)

Definition mapped_pte (pa perm : Z) : Z := Z.lor (Z.lor (PA2PTE pa) perm) PTE_V.

Lemma mapped_pte_word pa perm : 0 <= pa < 2^56 -> 0 <= perm < 2^10 ->
  u64 (mapped_pte pa perm) = mapped_pte pa perm /\ has (mapped_pte pa perm) PTE_V = true.
Proof.
  intros Hpa Hp. unfold mapped_pte. split; [|apply has_lor_same; unfold PTE_V; lia].
  rewrite <- Z.lor_assoc. assert (0 <= Z.lor perm PTE_V < 2^10) as Hf.
  { split; [apply Z.lor_nonneg; unfold PTE_V; lia|].
    destruct (decide (Z.lor perm PTE_V = 0)) as [->|]; [lia|].
    apply Z.log2_lt_pow2; [assert (0 <= Z.lor perm PTE_V) by (apply Z.lor_nonneg; unfold PTE_V; lia); lia|].
    rewrite Z.log2_lor by (unfold PTE_V; lia). change (Z.log2 PTE_V) with 0.
    destruct (decide (perm = 0)) as [->|]; [simpl; lia|].
    assert (Z.log2 perm < 10) by (apply Z.log2_lt_pow2; lia). lia. }
  rewrite pte_eq by done. apply u64_id.
  assert (0 <= pa / 2^12 < 2^44) by (split; [apply Z.div_pos; lia|apply Z.div_lt_upper_bound; lia]). lia.
Qed.

Lemma mappages_one_wp s t1 t0 l va pa perm :
  vm_ok kend s root t1 t0 l -> aligned va -> 0 <= va < MAXVA -> 0 <= pa < 2^56 -> 0 <= perm < 2^10 ->
  has (pte_of (v_mem s) t0 va) PTE_V = false ->
  wp (mappages root va PGSIZE pa perm) s (fun r s' => exists t1' t0' l', vm_ok kend s' root t1' t0' l' /\
    (exists k, l' = drop k l) /\
    (forall va', 0 <= va' < MAXVA -> va' / PGSIZE <> va / PGSIZE ->
       pte_of (v_mem s') t0' va' = pte_of (v_mem s) t0 va') /\
    ((r = 0 /\ pte_of (v_mem s') t0' va = mapped_pte pa perm /\ (length l <= 2 + length l')%nat) \/
     (r = -1 /\ pte_of (v_mem s') t0' va = pte_of (v_mem s) t0 va /\ (length l < 2)%nat)) /\
    (forall x, (forall p, is_table root t1 t0 p \/ p ∈ l -> ~ (p <= x < p + PGSIZE)) ->
       v_mem s' x = v_mem s x)).
Proof.
  intros Hok Hal Hva Hpa Hperm Hun. unfold mappages. unfold aligned in Hal. rewrite Hal, Z.eqb_refl.
  change (PGSIZE `mod` PGSIZE =? 0) with true. change (PGSIZE =? 0) with false.
  change (Z.to_nat (PGSIZE / PGSIZE)) with 1%nat. cbn [negb for_from]. rewrite Z.mul_0_l, !Z.add_0_r.
  rewrite !u64_id by (change MAXVA with (2^38) in *; lia). apply wp_bind, wp_bind, wp_bind.
  eapply wp_mono; [by apply (walk_true_wp s t1 t0 l)|]. intros [a|] s1 (t1' & t0' & l' & Hg & Hr).
  - destruct Hr as [Hleaf Hlen]. pose proof (gr_ok _ _ _ _ _ _ _ _ _ _ Hg) as [Hf1 Hpt1 Hap1].
    unfold read_pte. apply wp_bind, wp_gets.
    assert (load64 (v_mem s1) a = pte_of (v_mem s) t0 va) as ->.
    { rewrite <- (gr_pte _ _ _ _ _ _ _ _ _ _ Hg) by done. unfold pte_of. by rewrite Hleaf. }
    rewrite Hun. unfold write_pte. apply wp_bind, wp_zoom, wp_modify, wp_ret, wp_ret, wp_ret.
    fold (mapped_pte pa perm). destruct (mapped_pte_word pa perm Hpa Hperm) as [Hword _].
    destruct (write_leaf (v_mem s1) root t1' t0' va a (mapped_pte pa perm) Hpt1 Hva Hleaf) as (Hpt2 & Hpte & Hother).
    destruct (leaf_table _ _ _ _ _ _ Hpt1 Hleaf) as (q & Hq & -> & [Hqa _]).
    assert (is_table root t1' t0' q) as Htq by (right; right; eauto).
    exists t1', t0', l'. split_and!.
    + split; [|exact Hpt2|done]. eapply free_ok_ext; [exact Hf1|done|]. intros b Hb.
      pose proof (fo_pages _ _ _ Hf1) as Hpg. rewrite Forall_forall in Hpg. destruct (Hpg b Hb) as [Hba _].
      replace b with (pte_at b 0) by (unfold pte_at; lia).
      apply store_pte_ne; try done; [apply PX_range|]. intros [= -> _]. by apply (Hap1 b).
    + apply Hg.
    + intros va' Hva' Hne. rewrite <- (gr_pte _ _ _ _ _ _ _ _ _ _ Hg) by done. by apply Hother.
    + left. split; [reflexivity|split; [exact (eq_trans Hpte Hword)|exact Hlen]].
    + intros x Hx. rewrite <- (gr_frame _ _ _ _ _ _ _ _ _ _ Hg) by done.
      change (store64 (v_mem s1) (pte_at q (PX 0 va)) (mapped_pte pa perm) x = v_mem s1 x). unfold store64.
      rewrite store_bytes_at, length_to_le, decide_False; [done|].
      pose proof (PX_range 0 va). pose proof (Hx q (gr_sub _ _ _ _ _ _ _ _ _ _ Hg q Htq)). unfold pte_at, PGSIZE in *. lia.
  - apply wp_ret, wp_ret, wp_ret. exists t1', t0', l'. split_and!; [apply Hg|apply Hg| | |apply Hg].
    + intros va' Hva' _. by apply Hg.
    + right. split_and!; [done| |done]. by apply Hg.
Qed.
End walk.
