(* ===== verification/VmCopy.v ===== *)
(** * Copying between kernel and user memory

    [uaddr] is the physical address of a user virtual address.  [copyin] reads
    exactly the bytes found there and [copyout] writes exactly them, page by
    page, so what is copied out is what is copied in afterwards. *)
From S2P Require Import Prelude Params CString Kalloc Vm VmInv.

Definition user_ok (pte : Z) : bool := has pte PTE_V && has pte PTE_U.
Definition uaddr (m : mem) (t0 : gmap (Z * Z) Z) (va : Z) : Z :=
  PTE2PA (pte_of m t0 va) + va `mod` PGSIZE.

Lemma PX_page level va : 0 <= level -> PX level (va / PGSIZE * PGSIZE) = PX level va.
Proof.
  intros Hl. rewrite !PX_eq by done. change PGSIZE with (2^12). rewrite Z.pow_add_r by lia.
  rewrite <- !Z.div_div by (try apply Z.pow_nonzero; try apply Z.pow_pos_nonneg; lia).
  by rewrite Z.div_mul by lia.
Qed.

Lemma leaf_page t0 va : leaf t0 (va / PGSIZE * PGSIZE) = leaf t0 va.
Proof. unfold leaf. by rewrite !PX_page by lia. Qed.

Lemma pte_of_page m t0 va : pte_of m t0 (va / PGSIZE * PGSIZE) = pte_of m t0 va.
Proof. unfold pte_of. by rewrite leaf_page. Qed.

Lemma same_page x y : x / PGSIZE = y / PGSIZE -> forall m t0, pte_of m t0 x = pte_of m t0 y.
Proof. intros H m t0. by rewrite <- (pte_of_page m t0 x), <- (pte_of_page m t0 y), H. Qed.

Lemma has_0 f : has 0 f = false.
Proof. unfold has. by rewrite Z.land_0_l. Qed.

Lemma walkaddr_wp s root t1 t0 va : pt_wf (v_mem s) root t1 t0 -> 0 <= va < MAXVA ->
  wp (walkaddr root va) s (fun r s' => s' = s /\
    r = if user_ok (pte_of (v_mem s) t0 va) then PTE2PA (pte_of (v_mem s) t0 va) else 0).
Proof.
  intros Hpt Hva. unfold walkaddr. destruct (Z.leb_spec MAXVA va); [lia|]. apply wp_bind.
  eapply wp_mono; [by eapply walk_false_wp|]. intros r s' [-> ->]. unfold user_ok, pte_of.
  destruct (leaf t0 va) as [a|]; [|rewrite !has_0; by apply wp_ret].
  unfold read_pte. apply wp_bind, wp_gets. destruct (has (load64 (v_mem s) a) PTE_V); [|by apply wp_ret].
  by destruct (has (load64 (v_mem s) a) PTE_U); apply wp_ret.
Qed.

(** The n bytes at va are accessible to the user (for writing if w). *)
Record user_range (m : mem) (t0 : gmap (Z * Z) Z) (w : bool) (va n : Z) : Prop := {
  ur_bound : 0 <= va /\ va + n <= MAXVA;
  ur_ok : forall x, va <= x < va + n -> user_ok (pte_of m t0 x) = true;
  ur_write : w = true -> forall x, va <= x < va + n -> has (pte_of m t0 x) PTE_W = true;
  ur_phys : forall x, va <= x < va + n -> PTE2PA (pte_of m t0 x) <> 0 }.

(** The bytes of the range are stored apart, and outside the page table. *)
Record user_private (m : mem) (root : Z) (t1 : gmap Z Z) (t0 : gmap (Z * Z) Z) (va n : Z) : Prop := {
  up_inj : forall x y, va <= x < va + n -> va <= y < va + n -> uaddr m t0 x = uaddr m t0 y -> x = y;
  up_tables : forall x p, va <= x < va + n -> is_table root t1 t0 p ->
    ~ (p <= uaddr m t0 x < p + PGSIZE) }.

(** The first chunk of a range. *)
Lemma first_chunk va n : 0 < n -> let va0 := PGROUNDDOWN va in let k := Z.min (PGSIZE - (va - va0)) n in
  0 < k <= n /\ va0 = va / PGSIZE * PGSIZE /\ va - va0 = va `mod` PGSIZE /\
  (forall x, va <= x < va + k -> x / PGSIZE = va / PGSIZE /\ x `mod` PGSIZE = va `mod` PGSIZE + (x - va)) /\
  (k < n -> va + k = va0 + PGSIZE).
Proof.
  intros Hn va0 k. unfold k, va0. rewrite PGROUNDDOWN_eq. clear k va0.
  pose proof (Z_div_mod_eq_full va PGSIZE) as Hd. pose proof (Z.mod_pos_bound va PGSIZE ltac:(unfold PGSIZE; lia)) as Hm.
  replace (va - va / PGSIZE * PGSIZE) with (va `mod` PGSIZE) by lia.
  split; [lia|]. split; [done|]. split; [done|]. split; [|lia].
  intros x Hx. split; symmetry.
  - apply Z.div_unique with (va `mod` PGSIZE + (x - va)); unfold PGSIZE in *; lia.
  - apply Z.mod_unique with (va / PGSIZE); unfold PGSIZE in *; lia.
Qed.

Lemma user_range_tail m t0 w va n k : user_range m t0 w va n -> 0 <= k <= n ->
  user_range m t0 w (va + k) (n - k).
Proof. intros [Hb Ho Hw Hp] Hk. split; [lia|..]; intros; [apply Ho|apply Hw|apply Hp]; (done || lia). Qed.

Lemma uaddr_chunk m t0 va x k : (x / PGSIZE = va / PGSIZE /\ x `mod` PGSIZE = va `mod` PGSIZE + k) ->
  uaddr m t0 x = uaddr m t0 va + k.
Proof. intros [Hd Hm]. unfold uaddr. rewrite (same_page x va Hd), Hm. lia. Qed.

Lemma seqZ_app_min va n k : 0 <= k <= n -> seqZ va n = seqZ va k ++ seqZ (va + k) (n - k).
Proof. intros. rewrite <- seqZ_app by lia. f_equal. lia. Qed.

Lemma copyin_loop_wp kend s root t1 t0 fuel va n acc :
  pt_wf (v_mem s) root t1 t0 -> user_range (v_mem s) t0 false va n -> 0 <= n ->
  n + va `mod` PGSIZE <= Z.of_nat fuel * PGSIZE ->
  wp (copyin_loop kend fuel root va n acc) s (fun r s' => s' = s /\
    r = (0, acc ++ ((fun x => v_mem s (uaddr (v_mem s) t0 x)) <$> seqZ va n))).
Proof.
  intros Hpt. revert va n acc. induction fuel as [|fuel IH]; intros va n acc Hr Hn Hf;
    pose proof (Z.mod_pos_bound va PGSIZE ltac:(unfold PGSIZE; lia)) as Hm.
  - assert (n = 0) as -> by lia. apply wp_ret. rewrite seqZ_nil, fmap_nil, app_nil_r by lia. done.
  - cbn [copyin_loop]. destruct (Z.leb_spec n 0) as [H0|H0].
    { apply wp_ret. rewrite seqZ_nil, fmap_nil, app_nil_r by lia. done. }
    destruct (first_chunk va n H0) as (Hk & Hva0 & Hoff & Hch & Hlast). set (k := Z.min _ n) in *.
    pose proof (ur_bound _ _ _ _ _ Hr) as Hb. pose proof (ur_ok _ _ _ _ _ Hr va ltac:(lia)) as Hok.
    pose proof (ur_phys _ _ _ _ _ Hr va ltac:(lia)) as Hph.
    apply wp_bind. eapply wp_mono; [apply (walkaddr_wp s root t1 t0); [done|]|].
    { rewrite Hva0. unfold PGSIZE in *. lia. }
    intros r s' [-> ->]. rewrite Hva0, pte_of_page, Hok. apply Z.eqb_neq in Hph. rewrite Hph.
    apply wp_bind, wp_ret. rewrite Hph. apply wp_bind, wp_gets. rewrite <- Hva0, Hoff.
    assert (load_bytes (v_mem s) (PTE2PA (pte_of (v_mem s) t0 va) + va `mod` PGSIZE) k =
      (fun x => v_mem s (uaddr (v_mem s) t0 x)) <$> seqZ va k) as Hload.
    { unfold load_bytes. apply list_eq_same_length with (Z.to_nat k); [len..|].
      intros i a b Hi Ha Hb'. rewrite list_lookup_fmap, lookup_seqZ_lt in Ha, Hb' by lia.
      injection Ha as <-. injection Hb' as <-.
      rewrite (uaddr_chunk _ _ va _ (Z.of_nat i)); [unfold uaddr; f_equal; lia|].
      destruct (Hch (va + Z.of_nat i) ltac:(lia)) as [-> ->]. split; [done|lia]. }
    rewrite Hload. destruct (decide (k < n)) as [Hkn|Hkn].
    + rewrite <- (Hlast Hkn). eapply wp_mono; [apply IH; [apply user_range_tail; [done|lia]|lia|]|].
      * rewrite (Hlast Hkn), Hva0. replace (va / PGSIZE * PGSIZE + PGSIZE) with ((va / PGSIZE + 1) * PGSIZE) by lia.
        rewrite Z.mod_mul by (unfold PGSIZE; lia). unfold k, PGSIZE in *. lia.
      * intros r s' [-> ->]. split; [done|]. by rewrite <- app_assoc, <- fmap_app, <- seqZ_app_min by lia.
    + assert (k = n) as Hkn' by lia. rewrite Hkn'. replace (n - n) with 0 by lia.
      destruct fuel; cbn [copyin_loop Z.leb Z.compare]; by apply wp_ret.
Qed.

(** ** Writing *)

Definition with_mem (m : mem) (s : vst) : vst := set_k (set_mem (fun _ => m) (v_k s)) s.

(** Only the bytes of the range changed, and they hold src. *)
Record copied_out (m m' : mem) (t0 : gmap (Z * Z) Z) (va : Z) (src : bytes) : Prop := {
  co_data : forall x, va <= x < va + Z.of_nat (length src) ->
    m' (uaddr m t0 x) = src !!! Z.to_nat (x - va);
  co_frame : forall y, (forall x, va <= x < va + Z.of_nat (length src) -> uaddr m t0 x <> y) -> m' y = m y }.

(** Memory that agrees on the tables gives the same translations. *)
Definition same_tables (root : Z) (t1 : gmap Z Z) (t0 : gmap (Z * Z) Z) (m m' : mem) : Prop :=
  forall p y, is_table root t1 t0 p -> p <= y < p + PGSIZE -> m' y = m y.

Lemma same_tables_entry root t1 t0 m m' p i : same_tables root t1 t0 m m' -> is_table root t1 t0 p ->
  0 <= i < 512 -> load64 m' (pte_at p i) = load64 m (pte_at p i).
Proof. intros Hs Hp Hi. apply load64_ext. intros x Hx. apply (Hs p); [done|]. pose proof (pte_at_page p i Hi). lia. Qed.

Lemma same_tables_wf root t1 t0 m m' : same_tables root t1 t0 m m' -> pt_wf m root t1 t0 -> pt_wf m' root t1 t0.
Proof. intros Hs. apply pt_wf_ext. intros. by eapply same_tables_entry. Qed.

Lemma same_tables_pte root t1 t0 m m' va : same_tables root t1 t0 m m' -> pte_of m' t0 va = pte_of m t0 va.
Proof.
  intros Hs. unfold pte_of, leaf. destruct (t0 !! (PX 2 va, PX 1 va)) as [q|] eqn:E; [|done].
  eapply same_tables_entry; [exact Hs|right; right; eauto|apply PX_range].
Qed.

Lemma same_tables_uaddr root t1 t0 m m' va : same_tables root t1 t0 m m' -> uaddr m' t0 va = uaddr m t0 va.
Proof. intros Hs. unfold uaddr. by rewrite (same_tables_pte _ _ _ _ _ _ Hs). Qed.

Lemma same_tables_range root t1 t0 m m' w va n : same_tables root t1 t0 m m' ->
  user_range m t0 w va n -> user_range m' t0 w va n.
Proof.
  intros Hs [Hb Ho Hw Hp]. split; [done|..]; intros; rewrite (same_tables_pte _ _ _ _ _ _ Hs);
    [apply Ho|apply Hw|apply Hp]; done.
Qed.

Lemma same_tables_private root t1 t0 m m' va n : same_tables root t1 t0 m m' ->
  user_private m root t1 t0 va n -> user_private m' root t1 t0 va n.
Proof.
  intros Hs [Hi Ht]. split.
  - intros x y Hx Hy. rewrite !(same_tables_uaddr _ _ _ _ _ _ Hs). by apply Hi.
  - intros x p Hx Hp. rewrite (same_tables_uaddr _ _ _ _ _ _ Hs). by apply Ht.
Qed.

Lemma user_private_tail m root t1 t0 va n k : user_private m root t1 t0 va n -> 0 <= k <= n ->
  user_private m root t1 t0 (va + k) (n - k).
Proof.
  intros [Hi Ht] Hk. split.
  - intros x y Hx Hy. apply Hi; lia.
  - intros x p Hx. apply Ht. lia.
Qed.

(** The first chunk of the copy: it stays inside the range. *)
Lemma copied_chunk m root t1 t0 va src k :
  user_private m root t1 t0 va (Z.of_nat (length src)) -> 0 <= k <= Z.of_nat (length src) ->
  (forall x, va <= x < va + k -> uaddr m t0 x = uaddr m t0 va + (x - va)) ->
  let m1 := store_bytes m (uaddr m t0 va) (take (Z.to_nat k) src) in
  copied_out m m1 t0 va (take (Z.to_nat k) src) /\ same_tables root t1 t0 m m1.
Proof.
  intros Hp Hk Hch m1. assert (Z.of_nat (length (take (Z.to_nat k) src)) = k) as Hlen by (len; lia).
  assert (forall y, (forall x, va <= x < va + k -> uaddr m t0 x <> y) -> m1 y = m y) as Hframe.
  { intros y Hy. unfold m1. rewrite store_bytes_at, Hlen, decide_False; [done|]. intros Hr.
    apply (Hy (va + (y - uaddr m t0 va)) ltac:(lia)). rewrite Hch by lia. lia. }
  split; [split|]; [|by rewrite Hlen|].
  - rewrite Hlen. intros x Hx. unfold m1. rewrite store_bytes_at, Hlen, (Hch x Hx), decide_True by lia. f_equal. lia.
  - intros p y Hpt Hy. apply Hframe. intros x Hx <-. eapply (up_tables _ _ _ _ _ _ Hp x p); [lia|done|done].
Qed.

Lemma copied_out_app m m1 m2 root t1 t0 va src k :
  user_private m root t1 t0 va (Z.of_nat (length src)) -> 0 <= k <= Z.of_nat (length src) ->
  same_tables root t1 t0 m m1 ->
  copied_out m m1 t0 va (take (Z.to_nat k) src) ->
  copied_out m1 m2 t0 (va + k) (drop (Z.to_nat k) src) -> copied_out m m2 t0 va src.
Proof.
  intros Hp Hk Hs [Hd1 Hf1] [Hd2 Hf2].
  assert (Z.of_nat (length (take (Z.to_nat k) src)) = k) as Hl1 by (len; lia).
  assert (Z.of_nat (length (drop (Z.to_nat k) src)) = Z.of_nat (length src) - k) as Hl2 by (len; lia).
  rewrite Hl1 in *. rewrite Hl2 in *.
  assert (forall x, uaddr m1 t0 x = uaddr m t0 x) as Hu by (intros; by eapply same_tables_uaddr). split.
  - intros x Hx. destruct (decide (x < va + k)) as [Hlt|Hge].
    + rewrite Hf2; [by rewrite Hd1, lookup_total_take_lt by lia|].
      intros x' Hx'. rewrite Hu. intros Heq. apply (up_inj _ _ _ _ _ _ Hp) in Heq; lia.
    + rewrite <- Hu, Hd2 by lia. rewrite lookup_total_drop. f_equal. lia.
  - intros y Hy. rewrite Hf2; [apply Hf1; intros; apply Hy; lia|].
    intros x Hx. rewrite Hu. apply Hy. lia.
Qed.

Lemma with_mem_mem m s : v_mem (with_mem m s) = m.
Proof. done. Qed.

Lemma copied_nil root t1 t0 s va :
  0 = 0 /\ exists m', s = with_mem m' s /\ same_tables root t1 t0 (v_mem s) m' /\ copied_out (v_mem s) m' t0 va [].
Proof.
  split; [done|]. exists (v_mem s). split; [by destruct s as [[]]|]. split; [done|]. split; [|done].
  simpl. lia.
Qed.

Lemma copyout_loop_wp kend root t1 t0 fuel s va src :
  pt_wf (v_mem s) root t1 t0 -> user_range (v_mem s) t0 true va (Z.of_nat (length src)) ->
  user_private (v_mem s) root t1 t0 va (Z.of_nat (length src)) ->
  Z.of_nat (length src) + va `mod` PGSIZE <= Z.of_nat fuel * PGSIZE ->
  wp (copyout_loop kend fuel root va src) s (fun r s' => r = 0 /\
    exists m', s' = with_mem m' s /\ same_tables root t1 t0 (v_mem s) m' /\ copied_out (v_mem s) m' t0 va src).
Proof.
  revert s va src. induction fuel as [|fuel IH]; intros s va src Hpt Hr Hp Hf;
    pose proof (Z.mod_pos_bound va PGSIZE ltac:(unfold PGSIZE; lia)) as Hm.
  - destruct src; [|simpl in Hf; lia]. by apply wp_ret, copied_nil.
  - destruct src as [|b src']; [by apply wp_ret, copied_nil|].
    cbn [copyout_loop]. set (src := b :: src') in *.
    destruct (first_chunk va (Z.of_nat (length src)) ltac:(subst src; simpl; lia)) as (Hk & Hva0 & Hoff & Hch & Hlast).
    set (k := Z.min _ (Z.of_nat (length src))) in *.
    pose proof (ur_bound _ _ _ _ _ Hr) as Hb. pose proof (ur_ok _ _ _ _ _ Hr va ltac:(lia)) as Hok.
    pose proof (ur_phys _ _ _ _ _ Hr va ltac:(lia)) as Hph. pose proof (ur_write _ _ _ _ _ Hr eq_refl va ltac:(lia)) as Hw.
    assert (0 <= PGROUNDDOWN va < MAXVA) as Hva by (rewrite Hva0; unfold PGSIZE in *; lia).
    assert (pte_of (v_mem s) t0 (PGROUNDDOWN va) = pte_of (v_mem s) t0 va /\ leaf t0 (PGROUNDDOWN va) = leaf t0 va)
      as [Hpte Hlf] by (rewrite Hva0; split; [apply pte_of_page|apply leaf_page]).
    destruct (Z.leb_spec MAXVA (PGROUNDDOWN va)); [lia|].
    apply wp_bind. eapply wp_mono; [by apply (walkaddr_wp s root t1 t0)|].
    intros r s' [-> ->]. rewrite Hpte, Hok. apply Z.eqb_neq in Hph.
    rewrite Hph. apply wp_bind, wp_ret. rewrite Hph.
    apply wp_bind. eapply wp_mono; [by apply (walk_false_wp s root _ t1 t0)|]. intros r s' [-> ->].
    rewrite Hlf. unfold pte_of in Hw. destruct (leaf t0 va) as [a|] eqn:Hl; [|by rewrite has_0 in Hw].
    unfold read_pte. apply wp_bind, wp_gets. rewrite Hw. cbn [negb]. rewrite Hoff.
    change (PTE2PA (pte_of (v_mem s) t0 va) + va `mod` PGSIZE) with (uaddr (v_mem s) t0 va).
    destruct (copied_chunk (v_mem s) root t1 t0 va src k Hp ltac:(lia)) as [Hco Hst].
    { intros x Hx. apply uaddr_chunk. by apply Hch. }
    apply wp_bind, wp_zoom, wp_modify. set (m1 := store_bytes (v_mem s) _ _) in *.
    change (set_k _ s) with (with_mem m1 s).
    assert (Z.of_nat (length (drop (Z.to_nat k) src)) = Z.of_nat (length src) - k) as Hl2 by (rewrite length_drop; lia).
    destruct (decide (k < Z.of_nat (length src))) as [Hkn|Hkn].
    + rewrite <- (Hlast Hkn). eapply wp_mono; [apply IH; rewrite ?with_mem_mem, ?Hl2|].
      * by eapply same_tables_wf.
      * eapply same_tables_range, user_range_tail; [exact Hst|done|lia].
      * eapply same_tables_private, user_private_tail; [exact Hst|done|lia].
      * rewrite (Hlast Hkn), Hva0. replace (va / PGSIZE * PGSIZE + PGSIZE) with ((va / PGSIZE + 1) * PGSIZE) by lia.
        rewrite Z.mod_mul by (unfold PGSIZE; lia). unfold k, PGSIZE in *. lia.
      * rewrite with_mem_mem. intros r s' [-> (m2 & -> & Hs2 & Hc2)]. split; [done|]. exists m2. split_and!; [done| |].
        -- intros p y Hpp Hy. rewrite (Hs2 p), (Hst p) by done. done.
        -- by eapply copied_out_app; [| |exact Hst|exact Hco|exact Hc2]; [exact Hp|lia].
    + rewrite take_ge in * by lia. rewrite drop_ge by lia.
      destruct fuel; cbn [copyout_loop]; apply wp_ret; split; [done| |done|]; by exists m1.
Qed.
