(* ===== verification/VmProps.v ===== *)
(** * Properties of the virtual memory system *)
From S2P Require Import Prelude Params CString Kalloc Vm VmInv VmCopy.

(** ** A small page table to run the theorems on *)

Definition demo_root : Z := KERNBASE + 0x100000.
Definition demo_T1 : Z := KERNBASE + 0x101000.
Definition demo_T0 : Z := KERNBASE + 0x102000.
Definition demo_page (k : Z) : Z := KERNBASE + 0x110000 + k * PGSIZE.
Definition blank : mem := fun _ => 0.

(** An empty page table, and two pages on the free list. *)
Definition demo_free : vst := mkVst (mkKst (store64 blank demo_T1 demo_T0) demo_T1) 0 demo_root.

(** A page table with tables demo_T1 and demo_T0 and no page mapped yet. *)
Definition demo_tables : mem :=
  store64 (store64 blank (pte_at demo_root 0) (Z.lor (PA2PTE demo_T1) PTE_V))
    (pte_at demo_T1 0) (Z.lor (PA2PTE demo_T0) PTE_V).
Definition demo_t1 : gmap Z Z := {[0 := demo_T1]}.
Definition demo_t0 : gmap (Z * Z) Z := {[(0, 0) := demo_T0]}.
Definition demo_user : Z := Z.lor (Z.lor PTE_R PTE_W) PTE_U.
(** The same with two user pages mapped at 0 and PGSIZE, in descending order. *)
Definition demo_mem : mem :=
  store64 (store64 demo_tables (pte_at demo_T0 0) (mapped_pte (demo_page 1) demo_user))
    (pte_at demo_T0 1) (mapped_pte (demo_page 0) demo_user).
Definition demo_vst : vst := mkVst (mkKst demo_mem 0) (2 * PGSIZE) demo_root.

Lemma blank_load a : load64 blank a = 0.
Proof. reflexivity. Qed.

Ltac demo_lia :=
  unfold table_page, aligned, pte_at, demo_root, demo_T1, demo_T0, demo_page, KERNBASE, PGSIZE, PHYSTOP in *;
  try split_and!; (lia || reflexivity || (intros; lia)).

Lemma demo_free_ok : vm_ok KERNBASE demo_free demo_root ∅ ∅ [demo_T1; demo_T0].
Proof.
  split.
  - split; [split_and!; by vm_compute|repeat constructor; by vm_compute|].
    repeat constructor; [|set_solver]. rewrite list_elem_of_singleton. by vm_compute.
  - split; [by vm_compute| |intros *; rewrite ?lookup_empty; try done; by intros [? ?]..].
    intros i Hi. rewrite lookup_empty. change (v_mem demo_free) with (store64 blank demo_T1 demo_T0).
    rewrite load64_store_ne by demo_lia. by rewrite blank_load.
  - intros p [->|[[i Hi]|[x Hx]]]; [|by rewrite lookup_empty in *..].
    rewrite !not_elem_of_cons. split_and!; [by vm_compute..|set_solver].
Qed.

Lemma demo_tables_wf : pt_wf demo_tables demo_root demo_t1 demo_t0.
Proof.
  unfold demo_t1, demo_t0. split.
  - by vm_compute.
  - intros i Hi. destruct (decide (i = 0)) as [->|Hne].
    + rewrite lookup_singleton_eq. split_and!; by vm_compute.
    + rewrite lookup_singleton_ne by done. unfold demo_tables. by rewrite !load64_store_ne by demo_lia.
  - intros i j p [<- <-]%lookup_singleton_Some _ Hj. destruct (decide (j = 0)) as [->|Hne].
    + rewrite lookup_singleton_eq. split_and!; by vm_compute.
    + rewrite lookup_singleton_ne by congruence. unfold demo_tables. by rewrite !load64_store_ne by demo_lia.
  - by intros i i' p [<- _]%lookup_singleton_Some [<- _]%lookup_singleton_Some.
  - by intros i i' p [<- _]%lookup_singleton_Some [<- _]%lookup_singleton_Some.
  - by intros i x p [<- <-]%lookup_singleton_Some [_ ?]%lookup_singleton_Some.
  - intros i j q [[= <- <-] _]%lookup_singleton_Some. rewrite lookup_singleton_eq. eauto.
  - intros i [p [<- _]%lookup_singleton_Some]. lia.
  - intros i j [p [[= <- <-] _]%lookup_singleton_Some]. lia.
Qed.

Lemma demo_wf : pt_wf demo_mem demo_root demo_t1 demo_t0.
Proof.
  eapply (write_leaf _ demo_root demo_t1 demo_t0 PGSIZE); [|by vm_compute|by vm_compute].
  eapply (write_leaf _ demo_root demo_t1 demo_t0 0); [apply demo_tables_wf|by vm_compute|by vm_compute].
Qed.

(** ** Mapping *)

Lemma mapped_pte_decode pa perm : 0 <= pa < 2^56 -> aligned pa -> 0 <= perm < 2^10 ->
  PTE2PA (mapped_pte pa perm) = pa /\ PTE_FLAGS (mapped_pte pa perm) = Z.lor perm PTE_V.
Proof.
  intros Hpa Hal Hp. unfold mapped_pte. rewrite <- Z.lor_assoc. assert (0 <= Z.lor perm PTE_V < 2^10) as Hf.
  { split; [apply Z.lor_nonneg; unfold PTE_V; lia|]. destruct (decide (Z.lor perm PTE_V = 0)) as [->|]; [lia|].
    assert (0 <= Z.lor perm PTE_V) by (apply Z.lor_nonneg; unfold PTE_V; lia).
    apply Z.log2_lt_pow2; [lia|]. rewrite Z.log2_lor by (unfold PTE_V; lia). change (Z.log2 PTE_V) with 0.
    destruct (decide (perm = 0)) as [->|]; [done|]. assert (Z.log2 perm < 10) by (apply Z.log2_lt_pow2; lia). lia. }
  split; [by apply PTE2PA_pte|by apply PTE_FLAGS_pte].
Qed.

(** C15.  Mapping one page, [mappages(root, va, PGSIZE, pa, perm)], on a
    well-formed page table in which va is not mapped: with two free pages it
    returns 0, and the entry of va then holds exactly the physical address pa
    and the permissions perm plus PTE_V; when the free list runs out it may
    return -1 and nothing is mapped.  Either way the page table stays well
    formed, every other virtual page keeps its entry, new tables come from the
    front of the free list, and memory outside tables and free pages is
    untouched. *)
Theorem mappages_correct kend s root t1 t0 l va pa perm :
  0 < kend -> vm_ok kend s root t1 t0 l -> aligned va -> 0 <= va < MAXVA ->
  aligned pa -> 0 <= pa < 2^56 -> 0 <= perm < 2^10 -> has (pte_of (v_mem s) t0 va) PTE_V = false ->
  wp (mappages root va PGSIZE pa perm) s (fun r s' => exists t1' t0' l', vm_ok kend s' root t1' t0' l' /\
    (exists k, l' = drop k l) /\
    (forall va', 0 <= va' < MAXVA -> va' / PGSIZE <> va / PGSIZE ->
       pte_of (v_mem s') t0' va' = pte_of (v_mem s) t0 va') /\
    (r = 0 /\ PTE2PA (pte_of (v_mem s') t0' va) = pa /\
       PTE_FLAGS (pte_of (v_mem s') t0' va) = Z.lor perm PTE_V \/
     r = -1 /\ pte_of (v_mem s') t0' va = pte_of (v_mem s) t0 va /\ (length l < 2)%nat) /\
    (forall x, (forall p, is_table root t1 t0 p \/ p ∈ l -> ~ (p <= x < p + PGSIZE)) ->
       v_mem s' x = v_mem s x)).
Proof.
  intros Hk Hok Hal Hva Hpal Hpa Hp Hun.
  eapply wp_mono; [by eapply mappages_one_wp|]. intros r s' (t1' & t0' & l' & H1 & H2 & H3 & H4 & H5).
  exists t1', t0', l'. do 3 (split; [assumption|]). split; [|assumption].
  destruct H4 as [(-> & Hpte & _)|H4]; [left|right; assumption]. rewrite Hpte.
  split; [reflexivity|]. by apply mapped_pte_decode.
Qed.

(** Mapping a page in an empty page table uses both free pages. *)
Lemma mappages_correct_witness :
  vm_ok KERNBASE demo_free demo_root ∅ ∅ [demo_T1; demo_T0] /\
  wp (mappages demo_root 0x5000 PGSIZE (demo_page 0) demo_user) demo_free (fun r s' => r = 0 /\
    exists t0', PTE2PA (pte_of (v_mem s') t0' 0x5000) = demo_page 0).
Proof.
  split; [exact demo_free_ok|].
  eapply wp_mono; [apply (mappages_correct KERNBASE demo_free demo_root ∅ ∅ [demo_T1; demo_T0]);
    [done|exact demo_free_ok|by vm_compute..]|].
  intros r s' (t1' & t0' & l' & _ & _ & _ & [(-> & H & _)|(_ & _ & Hlen)] & _); [eauto|simpl in Hlen; lia].
Defined.

(** ** Copying *)

(** C16.  Copying between kernel and user memory, over any number of pages:
    if the n bytes at va are mapped writable for the user, stored apart from
    each other and from the page table, then [copyout] returns 0 and changes
    exactly those bytes to src, and a [copyin] of the same range afterwards
    returns 0 and exactly src; [copyin] changes nothing. *)
Theorem copyout_copyin kend s root t1 t0 va src :
  pt_wf (v_mem s) root t1 t0 ->
  user_range (v_mem s) t0 true va (Z.of_nat (length src)) ->
  user_private (v_mem s) root t1 t0 va (Z.of_nat (length src)) ->
  wp (copyout kend root va src) s (fun r s1 => r = 0 /\
    copied_out (v_mem s) (v_mem s1) t0 va src /\ pt_wf (v_mem s1) root t1 t0 /\
    wp (copyin kend root va (Z.of_nat (length src))) s1 (fun r2 s2 => r2 = (0, src) /\ s2 = s1)).
Proof.
  intros Hpt Hr Hp. assert (Z.of_nat (length src) + va `mod` PGSIZE <=
      Z.of_nat (page_fuel (Z.of_nat (length src))) * PGSIZE) as Hfuel.
  { unfold page_fuel. pose proof (Z_div_mod_eq_full (Z.of_nat (length src)) PGSIZE).
    pose proof (Z.mod_pos_bound (Z.of_nat (length src)) PGSIZE ltac:(unfold PGSIZE; lia)).
    pose proof (Z.mod_pos_bound va PGSIZE ltac:(unfold PGSIZE; lia)).
    rewrite Z2Nat.id by (apply Z.add_nonneg_nonneg; [apply Z.div_pos|]; unfold PGSIZE; lia). lia. }
  unfold copyout. eapply wp_mono; [by eapply copyout_loop_wp|].
  intros r s1 (-> & m' & -> & Hst & Hco). rewrite with_mem_mem.
  pose proof (same_tables_wf _ _ _ _ _ Hst Hpt) as Hpt'. do 3 (split; [done|]).
  unfold copyin. eapply wp_mono; [eapply copyin_loop_wp; [exact Hpt'| |lia|exact Hfuel]|].
  - eapply same_tables_range; [exact Hst|]. destruct Hr. by split.
  - intros r s2 [-> ->]. split; [|done]. f_equal. rewrite app_nil_l, with_mem_mem.
    apply list_eq_same_length with (length src); [done|len|]. intros i a b Hi Ha Hb.
    rewrite list_lookup_fmap, lookup_seqZ_lt in Ha by lia. injection Ha as <-.
    rewrite (same_tables_uaddr _ _ _ _ _ _ Hst), (co_data _ _ _ _ _ Hco) by lia.
    apply list_lookup_total_correct. rewrite <- Hb. f_equal. lia.
Qed.

Lemma below_5 (P : Z -> Prop) a :
  P a -> P (a + 1) -> P (a + 2) -> P (a + 3) -> P (a + 4) -> forall x, a <= x < a + 5 -> P x.
Proof.
  intros H0 H1 H2 H3 H4 x Hx. assert (x = a \/ x = a + 1 \/ x = a + 2 \/ x = a + 3 \/ x = a + 4) as Hc by lia.
  by destruct Hc as [->|[->|[->|[->| ->]]]].
Qed.

Lemma demo_range : user_range demo_mem demo_t0 true 4094 5.
Proof.
  split; [by vm_compute|apply below_5|intros _; apply below_5|apply below_5]; by vm_compute.
Qed.

Lemma demo_is_table p : is_table demo_root demo_t1 demo_t0 p -> p = demo_root \/ p = demo_T1 \/ p = demo_T0.
Proof.
  unfold demo_t1, demo_t0. intros [->|[[i [_ <-]%lookup_singleton_Some]|[y [_ <-]%lookup_singleton_Some]]]; tauto.
Qed.

Lemma demo_private : user_private demo_mem demo_root demo_t1 demo_t0 4094 5.
Proof.
  split.
  - intros x y Hx. revert x Hx y.
    apply (below_5 (fun x => forall y, 4094 <= y < 4094 + 5 ->
      uaddr demo_mem demo_t0 x = uaddr demo_mem demo_t0 y -> x = y)).
    all: apply (below_5 (fun y => uaddr demo_mem demo_t0 _ = uaddr demo_mem demo_t0 y -> _ = y)); by vm_compute.
  - intros x p Hx. revert x Hx p.
    apply (below_5 (fun x => forall p, is_table demo_root demo_t1 demo_t0 p ->
      ~ (p <= uaddr demo_mem demo_t0 x < p + PGSIZE))).
    all: intros p [->|[->| ->]]%demo_is_table; vm_compute; intros [H1 H2]; (by apply H1) || discriminate H2.
Qed.

(** Five bytes across the boundary of two pages stored in descending order. *)
Lemma copyout_copyin_witness :
  pt_wf demo_mem demo_root demo_t1 demo_t0 /\
  wp (copyout KERNBASE demo_root 4094 [1; 2; 3; 4; 5]) demo_vst (fun r s1 => r = 0 /\
    wp (copyin KERNBASE demo_root 4094 5) s1 (fun r2 s2 => r2 = (0, [1; 2; 3; 4; 5]) /\ s2 = s1)).
Proof.
  split; [exact demo_wf|].
  eapply wp_mono; [apply (copyout_copyin KERNBASE demo_vst demo_root demo_t1 demo_t0 4094 [1; 2; 3; 4; 5]);
    [exact demo_wf|exact demo_range|exact demo_private]|].
  intros r s1 (-> & _ & _ & H). split; [reflexivity|exact H].
Defined.
