(* ===== verification/Spinlock.v ===== *)
(** * Spin-locks and interrupt nesting ([kernel/spinlock.c])

    The functions are sequences of steps of one hart on its own [cpu] record
    and the shared lock word.  [step] interleaves any number of harts at the
    granularity of single loads, stores and the atomic swap; a hart may enter
    [acquire] with any nesting depth, for it may hold other locks. *)
From S2P Require Import Prelude Params.

(** ** Interrupt nesting: one hart *)

(** [struct cpu], less the process and its context, with the hart's
    interrupt-enable bit. *)
Record cpu : Type := mkCpu { noff : Z; intena : bool; intr : bool }.

Definition push_off (c : cpu) : cpu :=
  let old := intr c in
  mkCpu (noff c + 1) (if noff c =? 0 then old else intena c) false.

Definition pop_off (c : cpu) : string + cpu :=
  if intr c then inl "pop_off - interruptible"
  else if noff c <? 1 then inl "pop_off"
  else
    let n := noff c - 1 in
    inr (mkCpu n (intena c) ((n =? 0) && intena c)).

Fixpoint pops (n : nat) (c : cpu) : string + cpu :=
  match n with
  | O => inr c
  | S n => match pop_off c with inl e => inl e | inr c => pops n c end
  end.

Lemma push_off_nest n c :
  noff (Nat.iter n push_off c) = noff c + Z.of_nat n /\
  ((0 < n)%nat -> intr (Nat.iter n push_off c) = false) /\
  ((0 < n)%nat -> 0 <= noff c ->
     intena (Nat.iter n push_off c) = if decide (noff c = 0) then intr c else intena c).
Proof.
  induction n as [|n (IH1 & IH2 & IH3)]; simpl; [split_and!; lia|].
  split_and!; [lia|done|]. intros _ H0. rewrite IH1. destruct n as [|n].
  - simpl. rewrite Z.add_0_r. destruct (Z.eqb_spec (noff c) 0), (decide (noff c = 0)); try done; lia.
  - destruct (Z.eqb_spec (noff c + Z.of_nat (S n)) 0); [lia|]. apply IH3; [lia|done].
Qed.

Lemma pops_nest n c : intr c = false -> Z.of_nat n <= noff c ->
  pops n c = inr (mkCpu (noff c - Z.of_nat n) (intena c)
    (match n with O => false | _ => (noff c - Z.of_nat n =? 0) && intena c end)).
Proof.
  revert c. induction n as [|n IH]; intros c Hi Hn; simpl.
  - rewrite Z.sub_0_r, <- Hi. by destruct c.
  - unfold pop_off. rewrite Hi. destruct (Z.ltb_spec (noff c) 1); [lia|].
    destruct n as [|n].
    + simpl. done.
    + rewrite IH; simpl; [|destruct (Z.eqb_spec (noff c - 1) 0); [lia|done]|lia].
      replace (noff c - 1 - Z.of_nat (S n)) with (noff c - Z.of_nat (S (S n))) by lia. done.
Qed.

(** push_off and pop_off are matched: from any state of a hart with
    non-negative depth whose bookkeeping is consistent (interrupts are off at
    depth > 0), n+1 push_offs followed by as many pop_offs do not panic and
    restore depth and interrupt enable; in between, after at least one
    push_off that is not yet undone, interrupts are off.  One pop_off too many
    at depth 0 panics. *)
Theorem push_pop_matched n m c :
  0 <= noff c -> (0 < noff c -> intr c = false) -> (m <= n)%nat ->
  (exists c', pops m (Nat.iter (S n) push_off c) = inr c' /\ intr c' = false /\
     noff c' = noff c + 1 + Z.of_nat n - Z.of_nat m) /\
  (exists c', pops (S n) (Nat.iter (S n) push_off c) = inr c' /\ noff c' = noff c /\ intr c' = intr c) /\
  (forall c0, noff c0 = 0 -> exists e, pop_off c0 = inl e).
Proof.
  intros H0 Hi Hm. destruct (push_off_nest (S n) c) as (H1 & H2 & H3). specialize (H2 ltac:(lia)). specialize (H3 ltac:(lia) H0).
  split; [|split].
  - rewrite pops_nest by (done || lia). eexists. split; [done|]. cbn [noff intr]. rewrite H1. split; [|lia].
    destruct m; [done|]. destruct (Z.eqb_spec (noff c + Z.of_nat (S n) - Z.of_nat (S m)) 0); [lia|done].
  - rewrite pops_nest by (done || lia). eexists. split; [done|]. cbn [noff intr]. rewrite H1, H3.
    replace (noff c + Z.of_nat (S n) - Z.of_nat (S n)) with (noff c) by lia. split; [done|].
    destruct (decide (noff c = 0)) as [->|Hne]; [by rewrite andb_true_l|].
    rewrite Hi by lia. by destruct (Z.eqb_spec (noff c) 0).
  - intros c0 Hc. unfold pop_off. rewrite Hc. destruct (intr c0); eauto.
Qed.

Lemma push_pop_matched_witness : exists c',
  pops 3 (Nat.iter 3 push_off (mkCpu 0 false true)) = inr c' /\ noff c' = 0 /\ intr c' = true.
Proof. apply (push_pop_matched 2 0 (mkCpu 0 false true)); simpl; [lia|intros H; lia|lia]. Defined.

(** ** The lock, with any number of harts *)

Record spinlock : Type := mkSpinlock { locked : Z; lk_cpu : option nat }.

Definition initlock : spinlock := mkSpinlock 0 None.

(** [holding], when nothing happens between its two loads. *)
Definition holding (h : nat) (l : spinlock) : bool :=
  negb (locked l =? 0) && bool_decide (lk_cpu l = Some h).

(** Where a hart is: outside; in [acquire] (the two loads of [holding], the
    swap, the store of lk->cpu); in its critical section; in [release] (the
    two loads of [holding], the two stores, pop_off); or panicked. *)
Inductive pc : Type :=
  | Outside
  | AcqTestLocked | AcqTestCpu | AcqSwap | AcqSetCpu
  | Critical
  | RelTestLocked | RelTestCpu | RelClearCpu | RelClearLocked | RelPop
  | Panicked (msg : string).

Record sst : Type := mkSst { lk : spinlock; hpc : nat -> pc; hcpu : nat -> cpu }.

Definition hart_upd {A} (f : nat -> A) (h : nat) (a : A) : nat -> A :=
  fun h' => if decide (h' = h) then a else f h'.

(** Hart h executes its next instruction inside [acquire]. *)
Definition acquire (h : nat) (s : sst) : sst :=
  let goto l p := mkSst l (hart_upd (hpc s) h p) (hcpu s) in
  match hpc s h with
  | Outside => mkSst (lk s) (hart_upd (hpc s) h AcqTestLocked) (hart_upd (hcpu s) h (push_off (hcpu s h)))
  | AcqTestLocked => goto (lk s) (if locked (lk s) =? 0 then AcqSwap else AcqTestCpu)
  | AcqTestCpu => goto (lk s) (if decide (lk_cpu (lk s) = Some h) then Panicked "acquire" else AcqSwap)
  | AcqSwap =>
      (* amoswap: the old value is 0 for the hart that gets the lock *)
      goto (mkSpinlock 1 (lk_cpu (lk s))) (if locked (lk s) =? 0 then AcqSetCpu else AcqSwap)
  | AcqSetCpu => goto (mkSpinlock (locked (lk s)) (Some h)) Critical
  | _ => s
  end.

(** The same inside [release]. *)
Definition release (h : nat) (s : sst) : sst :=
  let goto l p := mkSst l (hart_upd (hpc s) h p) (hcpu s) in
  match hpc s h with
  | Critical => goto (lk s) RelTestLocked
  | RelTestLocked => goto (lk s) (if locked (lk s) =? 0 then Panicked "release" else RelTestCpu)
  | RelTestCpu => goto (lk s) (if decide (lk_cpu (lk s) = Some h) then RelClearCpu else Panicked "release")
  | RelClearCpu => goto (mkSpinlock (locked (lk s)) None) RelClearLocked
  | RelClearLocked => goto (mkSpinlock 0 (lk_cpu (lk s))) RelPop
  | RelPop =>
      match pop_off (hcpu s h) with
      | inl e => goto (lk s) (Panicked e)
      | inr c => mkSst (lk s) (hart_upd (hpc s) h Outside) (hart_upd (hcpu s) h c)
      end
  | _ => s
  end.

(** What a hart may do with its own [cpu] record by using other locks. *)
Definition cpu_ok (c : cpu) : Prop := 0 <= noff c /\ (0 < noff c -> intr c = false).
Definition cpu_locked (c : cpu) : Prop := 1 <= noff c /\ intr c = false.

Inductive step : sst -> sst -> Prop :=
  | step_acquire h s : step s (acquire h s)
  | step_release h s : step s (release h s)
  | step_other h s c :
      (hpc s h = Outside /\ cpu_ok c \/ hpc s h = Critical /\ cpu_locked c) ->
      step s (mkSst (lk s) (hpc s) (hart_upd (hcpu s) h c)).

Definition start (s : sst) : Prop :=
  lk s = initlock /\ forall h, hpc s h = Outside /\ cpu_ok (hcpu s h).

Definition reachable (s : sst) : Prop := exists s0, start s0 /\ rtc step s0 s.

(** The harts that own the lock word, and those recorded as its cpu. *)
Definition owns (p : pc) : bool :=
  match p with
  | AcqSetCpu | Critical | RelTestLocked | RelTestCpu | RelClearCpu | RelClearLocked => true
  | _ => false
  end.
Definition recorded (p : pc) : bool :=
  match p with Critical | RelTestLocked | RelTestCpu | RelClearCpu => true | _ => false end.

Record lock_inv (s : sst) : Prop := {
  li_word : locked (lk s) = 0 \/ locked (lk s) = 1;
  li_free : locked (lk s) = 0 -> forall h, owns (hpc s h) = false;
  li_held : locked (lk s) = 1 -> exists h, owns (hpc s h) = true;
  li_mutex : forall h h', owns (hpc s h) = true -> owns (hpc s h') = true -> h = h';
  li_cpu : forall h, lk_cpu (lk s) = Some h <-> recorded (hpc s h) = true;
  li_nopanic : forall h msg, hpc s h <> Panicked msg;
  li_harts : forall h, match hpc s h with Outside => cpu_ok (hcpu s h) | _ => cpu_locked (hcpu s h) end }.

Lemma hart_upd_eq {A} (f : nat -> A) h a : hart_upd f h a h = a.
Proof. unfold hart_upd. by rewrite decide_True. Qed.
Lemma hart_upd_ne {A} (f : nat -> A) h h' a : h' <> h -> hart_upd f h a h' = f h'.
Proof. intros. unfold hart_upd. by rewrite decide_False. Qed.

Lemma push_off_ok c : cpu_ok c -> cpu_locked (push_off c).
Proof. intros [H0 _]. split; simpl; [lia|done]. Qed.

Lemma pop_off_ok c : cpu_locked c -> exists c', pop_off c = inr c' /\ cpu_ok c'.
Proof.
  intros [H0 H1]. unfold pop_off. rewrite H1. destruct (Z.ltb_spec (noff c) 1); [lia|].
  eexists. split; [done|]. split; simpl; [lia|]. intros. destruct (Z.eqb_spec (noff c - 1) 0); [lia|done].
Qed.

(** A hart moves from program point p to q: what the new lock word must
    satisfy for the invariant to survive. *)
Lemma lock_inv_move s h l q c : lock_inv s ->
  (forall msg, q <> Panicked msg) ->
  match q with Outside => cpu_ok c | _ => cpu_locked c end ->
  (owns q = owns (hpc s h) /\ locked l = locked (lk s) \/
   owns q = true /\ owns (hpc s h) = false /\ locked (lk s) = 0 /\ locked l = 1 \/
   owns q = false /\ owns (hpc s h) = true /\ locked l = 0) ->
  (recorded q = recorded (hpc s h) /\ lk_cpu l = lk_cpu (lk s) \/
   recorded q = true /\ owns (hpc s h) = true /\ lk_cpu l = Some h \/
   recorded q = false /\ recorded (hpc s h) = true /\ lk_cpu l = None) ->
  lock_inv (mkSst l (hart_upd (hpc s) h q) (hart_upd (hcpu s) h c)).
Proof.
  intros [Hw Hf Hh Hm Hc Hn Hs] Hq Hcpu Ho Hr.
  assert (forall h', recorded (hpc s h') = true -> owns (hpc s h') = true) as Hro
    by (intros h'; by destruct (hpc s h')).
  assert (forall h', h' <> h -> owns q = true -> owns (hpc s h') = false) as Halone.
  { intros h' Hne Hoq. destruct (owns (hpc s h')) eqn:E; [|done]. exfalso.
    destruct Ho as [[Ho _]|[(_ & _ & H0 & _)|(Ho & _)]]; [|by rewrite (Hf H0) in E|congruence].
    apply Hne, (Hm h' h); congruence. }
  split; simpl.
  - destruct Ho as [[_ ->]|[(_ & _ & _ & ->)|(_ & _ & ->)]]; tauto.
  - intros H0 h'. unfold hart_upd. destruct (decide (h' = h)) as [->|Hne].
    + destruct Ho as [[-> Hl]|[(_ & _ & _ & ?)|(? & _)]]; [apply Hf; congruence|lia|done].
    + destruct (owns (hpc s h')) eqn:E; [|done]. destruct Ho as [[_ Hl]|[(_ & _ & _ & ?)|(_ & Hp & _)]]; [|lia|].
      * rewrite Hf in E; congruence.
      * elim Hne. by apply (Hm h' h).
  - intros H1. destruct Ho as [[Ho Hl]|[(Hq1 & _)|(_ & _ & ?)]]; [|exists h; by rewrite hart_upd_eq|lia].
    destruct (Hh ltac:(congruence)) as [h' Hh']. exists h'. unfold hart_upd. destruct (decide (h' = h)) as [->|]; congruence.
  - intros h1 h2. unfold hart_upd. destruct (decide (h1 = h)) as [->|], (decide (h2 = h)) as [->|]; intros H1 H2; try done.
    + by rewrite Halone in H2.
    + by rewrite Halone in H1.
    + by apply Hm.
  - intros h'. unfold hart_upd. destruct (decide (h' = h)) as [->|Hne].
    + destruct Hr as [[-> ->]|[(-> & _ & ->)|(-> & _ & ->)]]; [apply Hc|done|split; congruence].
    + destruct Hr as [[_ ->]|[(Hr & Hp & ->)|(_ & Hp & ->)]]; [apply Hc|..].
      * split; [congruence|]. intros Hrec. elim Hne. apply Hm; [by apply Hro|done].
      * split; [done|]. intros Hrec%Hc. apply Hc in Hp. congruence.
  - intros h' msg. unfold hart_upd. destruct (decide (h' = h)); [apply Hq|apply Hn].
  - intros h'. unfold hart_upd. destruct (decide (h' = h)) as [->|]; [done|apply Hs].
Qed.

Lemma hart_upd_id {A} (f : nat -> A) h h' : hart_upd f h (f h) h' = f h'.
Proof. unfold hart_upd. by destruct (decide (h' = h)) as [->|]. Qed.

(** The hart's cpu record does not change. *)
Lemma lock_inv_goto s h l q : lock_inv s ->
  (forall msg, q <> Panicked msg) -> (q <> Outside /\ hpc s h <> Outside) ->
  (owns q = owns (hpc s h) /\ locked l = locked (lk s) \/
   owns q = true /\ owns (hpc s h) = false /\ locked (lk s) = 0 /\ locked l = 1 \/
   owns q = false /\ owns (hpc s h) = true /\ locked l = 0) ->
  (recorded q = recorded (hpc s h) /\ lk_cpu l = lk_cpu (lk s) \/
   recorded q = true /\ owns (hpc s h) = true /\ lk_cpu l = Some h \/
   recorded q = false /\ recorded (hpc s h) = true /\ lk_cpu l = None) ->
  lock_inv (mkSst l (hart_upd (hpc s) h q) (hcpu s)).
Proof.
  intros HI Hq [Hq1 Hq2] Ho Hr. pose proof (li_harts _ HI h) as Hh.
  destruct (lock_inv_move s h l q (hcpu s h) HI Hq) as [H1 H2 H3 H4 H5 H6 H7]; [|done|done|split; try done].
  - destruct q; destruct (hpc s h); (done || by destruct Hq1 || by destruct Hq2).
  - intros h'. specialize (H7 h'). simpl in H7. simpl. by rewrite hart_upd_id in H7.
Qed.

Lemma acquire_inv h s : lock_inv s -> lock_inv (acquire h s).
Proof.
  intros HI. pose proof HI as [Hw Hf Hh Hm Hc Hn Hs]. specialize (Hs h). unfold acquire.
  destruct (hpc s h) eqn:E; try exact HI.
  - apply lock_inv_move; rewrite ?E; try done; [by apply push_off_ok|left; done|left; done].
  - destruct (locked (lk s) =? 0); apply lock_inv_goto; rewrite ?E; try done; left; done.
  - rewrite decide_False by (rewrite Hc, E; done). apply lock_inv_goto; rewrite ?E; try done; left; done.
  - destruct (Z.eqb_spec (locked (lk s)) 0) as [H0|H0].
    + apply lock_inv_goto; rewrite ?E; try done; [right; left; done|left; done].
    + apply lock_inv_goto; rewrite ?E; try done; [|left; done]. left. simpl. split; [done|lia].
  - apply lock_inv_goto; rewrite ?E; try done; [left; done|right; left; done].
Qed.

Lemma release_inv h s : lock_inv s -> lock_inv (release h s).
Proof.
  intros HI. pose proof HI as [Hw Hf Hh Hm Hc Hn Hs]. specialize (Hs h). unfold release.
  destruct (hpc s h) eqn:E; try exact HI.
  - apply lock_inv_goto; rewrite ?E; try done; left; done.
  - destruct (Z.eqb_spec (locked (lk s)) 0) as [H0|H0]; [by specialize (Hf H0 h); rewrite E in Hf|].
    apply lock_inv_goto; rewrite ?E; try done; left; done.
  - rewrite decide_True by (rewrite Hc, E; done). apply lock_inv_goto; rewrite ?E; try done; left; done.
  - apply lock_inv_goto; rewrite ?E; try done; [left; done|right; right; done].
  - apply lock_inv_goto; rewrite ?E; try done; [right; right; done|left; done].
  - destruct (pop_off_ok (hcpu s h) Hs) as (c & -> & Hc').
    apply lock_inv_move; rewrite ?E; try done; left; done.
Qed.

Lemma step_inv s s' : step s s' -> lock_inv s -> lock_inv s'.
Proof.
  destruct 1 as [h s|h s|h s c Hc]; [apply acquire_inv|apply release_inv|].
  intros [H1 H2 H3 H4 H5 H6 H7]. split; try done. intros h'. simpl. unfold hart_upd.
  destruct (decide (h' = h)) as [->|]; [|apply H7]. by destruct Hc as [[-> ?]|[-> ?]].
Qed.

Lemma reachable_inv s : reachable s -> lock_inv s.
Proof.
  intros (s0 & [Hlk Hpc] & Hr). assert (lock_inv s0) as HI.
  { assert (forall h, hpc s0 h = Outside) as Ho by (intros h; apply Hpc).
    split; rewrite ?Hlk; simpl; intros; rewrite ?Ho in *; try done; [by left|apply Hpc]. }
  clear Hlk Hpc. induction Hr; eauto using step_inv.
Qed.

(** C18.  The spin-lock is a lock.  In every reachable state of any number of
    harts that acquire and release it in any interleaving of their loads,
    stores and swaps: at most one hart is between the swap that got the lock
    and the store that frees it; no panic of acquire, release or pop_off is
    ever reached; a hart that is not outside runs with interrupts off and at
    depth >= 1; [holding] answers whether the hart is between acquire's and
    release's store of lk->cpu; and if the lock word is 0, the next swap of a
    spinning hart gets the lock. *)
Theorem spinlock_mutex s : reachable s ->
  (forall h h', owns (hpc s h) = true -> owns (hpc s h') = true -> h = h') /\
  (forall h msg, hpc s h <> Panicked msg) /\
  (forall h, hpc s h <> Outside -> intr (hcpu s h) = false /\ 1 <= noff (hcpu s h)) /\
  (forall h, holding h (lk s) = true <-> recorded (hpc s h) = true) /\
  (forall h, locked (lk s) = 0 -> hpc s h = AcqSwap -> hpc (acquire h s) h = AcqSetCpu).
Proof.
  intros Hr. pose proof (reachable_inv s Hr) as [Hw Hf Hh Hm Hc Hn Hs].
  split; [done|]. split; [done|]. split_and!.
  - intros h Ho. specialize (Hs h). destruct (hpc s h); try (by destruct Ho); by destruct Hs.
  - intros h. unfold holding. rewrite andb_true_iff, bool_decide_eq_true, Hc. split; [by intros [_ ?]|].
    intros Hr'. split; [|done]. destruct Hw as [H0| ->]; [|done]. specialize (Hf H0 h). by destruct (hpc s h).
  - intros h H0 E. unfold acquire. rewrite E, H0. simpl. by rewrite hart_upd_eq.
Qed.

(** Hart 0 has the lock, hart 1 spins. *)
Definition demo_spin : sst :=
  let s0 := mkSst initlock (fun _ => Outside) (fun _ => mkCpu 0 false true) in
  Nat.iter 4 (acquire 1%nat) (Nat.iter 4 (acquire 0%nat) s0).

Lemma spinlock_mutex_witness :
  hpc demo_spin 0%nat = Critical /\ hpc demo_spin 1%nat = AcqSwap /\ holding 0 (lk demo_spin) = true.
Proof.
  assert (reachable demo_spin) as Hr.
  { eexists. split; [|repeat (eapply rtc_r; [|apply step_acquire]); apply rtc_refl].
    split; [reflexivity|]. intros h. split; [reflexivity|]. split; simpl; [lia|lia]. }
  split; [reflexivity|]. split; [reflexivity|].
  apply (spinlock_mutex demo_spin Hr). reflexivity.
Defined.
