(* ===== verification/Ring.v ===== *)
(** * Ring buffers with free-running 32-bit counters

    [pipe.c] and [console.c] index a buffer of N bytes, N a power of two, by
    unsigned counters that wrap around at 2^32.  [ring d N a len] is the
    contents of len bytes from counter a on. *)
From S2P Require Import Prelude Params.

Definition ring (d : bytes) (N a len : Z) : bytes :=
  (fun k => d !!! Z.to_nat (u32 (a + k) `mod` N)) <$> seqZ 0 len.

Section ring.
Context (N : Z) (HN : 0 < N) (Hdiv : (N | 2^32)).

Lemma u32_mod_ring x : u32 x `mod` N = x `mod` N.
Proof.
  unfold u32. destruct Hdiv as [q Hq]. rewrite (Z.mod_eq x (2^32)) by lia. rewrite Hq.
  replace (x - q * N * (x / (q * N))) with (x + (- q * (x / (q * N))) * N) by lia. by rewrite Z.mod_add by lia.
Qed.

Lemma ring_slot x : 0 <= x `mod` N < N.
Proof. apply Z.mod_pos_bound. lia. Qed.

Lemma length_ring d a len : 0 <= len -> Z.of_nat (length (ring d N a len)) = len.
Proof. intros. unfold ring. rewrite length_fmap, length_seqZ. lia. Qed.

Lemma ring_nil d a len : len <= 0 -> ring d N a len = [].
Proof. intros. unfold ring. by rewrite seqZ_nil by lia. Qed.

Lemma ring_ext d d' a len :
  (forall k, 0 <= k < len -> d !!! Z.to_nat ((a + k) `mod` N) = d' !!! Z.to_nat ((a + k) `mod` N)) ->
  ring d N a len = ring d' N a len.
Proof.
  intros H. apply list_fmap_ext. intros k x [-> Hk]%lookup_seqZ. rewrite u32_mod_ring. apply H. lia.
Qed.

Lemma ring_u32 d a len : ring d N (u32 a) len = ring d N a len.
Proof.
  apply list_fmap_ext. intros k x _. rewrite !u32_mod_ring, <- Z.add_mod_idemp_l by lia.
  by rewrite u32_mod_ring, Z.add_mod_idemp_l by lia.
Qed.

Lemma ring_app d a m n : 0 <= m -> 0 <= n -> ring d N a (m + n) = ring d N a m ++ ring d N (a + m) n.
Proof.
  intros Hm Hn. unfold ring. rewrite seqZ_app, fmap_app by lia. f_equal.
  rewrite (Z.add_comm 0), <- (fmap_add_seqZ m 0), <- list_fmap_compose.
  apply list_fmap_ext. intros k x _. simpl. by rewrite Z.add_assoc.
Qed.

Lemma ring_one d a : ring d N a 1 = [d !!! Z.to_nat (a `mod` N)].
Proof. unfold ring. change (seqZ 0 1) with [0]. cbn [fmap list_fmap]. by rewrite u32_mod_ring, Z.add_0_r. Qed.

Lemma ring_head d a len : 0 < len ->
  ring d N a len = d !!! Z.to_nat (a `mod` N) :: ring d N (a + 1) (len - 1).
Proof. intros. replace len with (1 + (len - 1)) at 1 by lia. rewrite ring_app, ring_one by lia. done. Qed.

Lemma ring_last d a len : 0 < len ->
  ring d N a len = ring d N a (len - 1) ++ [d !!! Z.to_nat ((a + len - 1) `mod` N)].
Proof.
  intros. replace len with (len - 1 + 1) at 1 by lia. rewrite ring_app, ring_one by lia.
  by replace (a + (len - 1)) with (a + len - 1) by lia.
Qed.

(** Storing at the end of less than N bytes appends. *)
Lemma ring_put d a len ch : Z.of_nat (length d) = N -> 0 <= len < N ->
  ring (<[Z.to_nat ((a + len) `mod` N) := ch]> d) N a (len + 1) = ring d N a len ++ [ch].
Proof.
  intros Hd Hl. rewrite ring_app, ring_one by lia. pose proof (ring_slot (a + len)). f_equal.
  - apply ring_ext. intros k Hk. apply list_lookup_total_insert_ne. pose proof (ring_slot (a + k)).
    intros Heq. assert ((a + len) `mod` N = (a + k) `mod` N) as Hm by lia.
    pose proof (Z.div_mod (a + len) N ltac:(lia)). pose proof (Z.div_mod (a + k) N ltac:(lia)).
    set (q := (a + len) / N) in *. set (q' := (a + k) / N) in *. assert (N * (q - q') = len - k) as Hq by lia.
    assert (q - q' < 1) by nia. assert (0 < q - q') by nia. lia.
  - by rewrite list_lookup_total_insert_eq by lia.
Qed.

(** The same counters modulo 2^32. *)
Lemma ring_slot_u32 a b : u32 a = u32 b -> a `mod` N = b `mod` N.
Proof. intros H. by rewrite <- (u32_mod_ring a), H, u32_mod_ring. Qed.
End ring.

Lemma u32_sub_add a b : u32 (a + u32 (b - a)) = u32 b.
Proof. unfold u32. rewrite Z.add_mod_idemp_r by lia. f_equal. lia. Qed.
Lemma u32_succ_sub a b : 0 <= u32 (a - b) < 2^32 - 1 -> u32 (u32 (a + 1) - b) = u32 (a - b) + 1.
Proof.
  intros H. unfold u32 in *. rewrite Zminus_mod_idemp_l. replace (a + 1 - b) with (a - b + 1) by lia.
  rewrite <- Z.add_mod_idemp_l by lia. apply Z.mod_small. lia.
Qed.
Lemma u32_sub_succ a b : 0 < u32 (a - b) -> u32 (a - u32 (b + 1)) = u32 (a - b) - 1.
Proof.
  intros H. pose proof (u32_bound (a - b)). unfold u32 in *. rewrite Zminus_mod_idemp_r.
  replace (a - (b + 1)) with (a - b + -1) by lia. rewrite <- Z.add_mod_idemp_l by lia. apply Z.mod_small. lia.
Qed.
Lemma u32_pred_sub a b : 0 < u32 (a - b) -> u32 (u32 (a - 1) - b) = u32 (a - b) - 1.
Proof.
  intros H. pose proof (u32_bound (a - b)). unfold u32 in *. rewrite Zminus_mod_idemp_l.
  replace (a - 1 - b) with (a - b + -1) by lia. rewrite <- Z.add_mod_idemp_l by lia. apply Z.mod_small. lia.
Qed.
Lemma u32_eq_sub a b : 0 <= a < 2^32 -> 0 <= b < 2^32 -> a = b <-> u32 (a - b) = 0.
Proof.
  intros Ha Hb. unfold u32. split; [intros ->; by rewrite Z.sub_diag|]. intros H.
  apply Z.mod_divide in H as [q Hq]; [|lia]. assert (q = 0) by nia. lia.
Qed.
Lemma u32_sub_add_pred a b : u32 (a + u32 (b - a) - 1) = u32 (u32 (b - 1)).
Proof.
  unfold u32. rewrite Zmod_mod. replace (a + (b - a) `mod` 2^32 - 1) with ((b - a) `mod` 2^32 + (a - 1)) by lia.
  rewrite Z.add_mod_idemp_l by lia. f_equal. lia.
Qed.
