(* ===== verification/Virtio.v ===== *)
(** * The disk driver ([kernel/virtio_disk.c])

    The driver shares descriptors and two rings with the device.  The code of
    [virtio_disk_rw] and [virtio_disk_intr] is cut where other processes or
    the device can see a difference: where vdisk_lock is taken or released, and
    at the store that makes a request visible.  The device may act between any
    two of these steps.  Addresses given to the device are symbolic. *)
From S2P Require Import Prelude Params Ring.

Definition NUM : Z := 8.
Definition VRING_DESC_F_NEXT : Z := 1.
Definition VRING_DESC_F_WRITE : Z := 2.
Definition VIRTIO_BLK_T_IN : Z := 0.
Definition VIRTIO_BLK_T_OUT : Z := 1.

(** What a descriptor points to: &disk.ops[i], b->data, &disk.info[i].status. *)
Inductive dma : Set := DmaNull | DmaOp (i : Z) | DmaBuf (b : nat) | DmaStatus (i : Z).

Record virtq_desc : Set := mkDesc { d_addr : dma; d_len : Z; d_flags : Z; d_next : Z }.
Record virtio_blk_req : Set := mkReq { r_type : Z; r_reserved : Z; r_sector : Z }.
Record dinfo : Set := mkInfo { in_b : option nat; in_status : Z }.
(** The fields of struct buf the driver uses. *)
Record vbuf : Set := mkVbuf { vb_disk : bool; vb_blockno : Z; vb_data : bytes }.

Record disk : Type := mkDisk {
  v_desc : list virtq_desc;
  v_avail_idx : Z;            (* disk.avail->idx, uint16 *)
  v_avail : list Z;           (* disk.avail->ring *)
  v_uidx : Z;                 (* disk.used->idx, uint16 *)
  v_used : list Z;            (* disk.used->ring[].id *)
  v_free : list bool;
  v_used_idx : Z;             (* uint16 *)
  v_info : list dinfo;
  v_ops : list virtio_blk_req;
  v_buf : nat -> vbuf }.

Definition upd {A} (i : nat) (x : A) (f : nat -> A) : nat -> A := fun j => if decide (j = i) then x else f j.

Definition desc0 : virtq_desc := mkDesc DmaNull 0 0 0.
#[export] Instance desc_inhabited : Inhabited virtq_desc := populate desc0.
#[export] Instance req_inhabited : Inhabited virtio_blk_req := populate (mkReq 0 0 0).
#[export] Instance info_inhabited : Inhabited dinfo := populate (mkInfo None 0).

Definition set_desc (i : Z) (x : virtq_desc) (s : disk) : disk :=
  mkDisk (<[Z.to_nat i := x]> (v_desc s)) (v_avail_idx s) (v_avail s) (v_uidx s) (v_used s) (v_free s) (v_used_idx s) (v_info s) (v_ops s) (v_buf s).
Definition set_avail_idx (x : Z) (s : disk) : disk :=
  mkDisk (v_desc s) x (v_avail s) (v_uidx s) (v_used s) (v_free s) (v_used_idx s) (v_info s) (v_ops s) (v_buf s).
Definition set_avail (i x : Z) (s : disk) : disk :=
  mkDisk (v_desc s) (v_avail_idx s) (<[Z.to_nat i := x]> (v_avail s)) (v_uidx s) (v_used s) (v_free s) (v_used_idx s) (v_info s) (v_ops s) (v_buf s).
Definition set_uidx (x : Z) (s : disk) : disk :=
  mkDisk (v_desc s) (v_avail_idx s) (v_avail s) x (v_used s) (v_free s) (v_used_idx s) (v_info s) (v_ops s) (v_buf s).
Definition set_used (i x : Z) (s : disk) : disk :=
  mkDisk (v_desc s) (v_avail_idx s) (v_avail s) (v_uidx s) (<[Z.to_nat i := x]> (v_used s)) (v_free s) (v_used_idx s) (v_info s) (v_ops s) (v_buf s).
Definition set_free (i : Z) (x : bool) (s : disk) : disk :=
  mkDisk (v_desc s) (v_avail_idx s) (v_avail s) (v_uidx s) (v_used s) (<[Z.to_nat i := x]> (v_free s)) (v_used_idx s) (v_info s) (v_ops s) (v_buf s).
Definition set_used_idx (x : Z) (s : disk) : disk :=
  mkDisk (v_desc s) (v_avail_idx s) (v_avail s) (v_uidx s) (v_used s) (v_free s) x (v_info s) (v_ops s) (v_buf s).
Definition set_info (i : Z) (x : dinfo) (s : disk) : disk :=
  mkDisk (v_desc s) (v_avail_idx s) (v_avail s) (v_uidx s) (v_used s) (v_free s) (v_used_idx s) (<[Z.to_nat i := x]> (v_info s)) (v_ops s) (v_buf s).
Definition set_op (i : Z) (x : virtio_blk_req) (s : disk) : disk :=
  mkDisk (v_desc s) (v_avail_idx s) (v_avail s) (v_uidx s) (v_used s) (v_free s) (v_used_idx s) (v_info s) (<[Z.to_nat i := x]> (v_ops s)) (v_buf s).
Definition set_vbuf (b : nat) (x : vbuf) (s : disk) : disk :=
  mkDisk (v_desc s) (v_avail_idx s) (v_avail s) (v_uidx s) (v_used s) (v_free s) (v_used_idx s) (v_info s) (v_ops s) (upd b x (v_buf s)).

Definition desc_at (s : disk) (i : Z) : virtq_desc := v_desc s !!! Z.to_nat i.
Definition free_at (s : disk) (i : Z) : bool := v_free s !!! Z.to_nat i.
Definition info_at (s : disk) (i : Z) : dinfo := v_info s !!! Z.to_nat i.
Definition op_at (s : disk) (i : Z) : virtio_blk_req := v_ops s !!! Z.to_nat i.
Definition status_at (s : disk) (i : Z) : Z := in_status (info_at s i).
Definition set_b_disk (b : nat) (x : bool) (s : disk) : disk :=
  set_vbuf b (mkVbuf x (vb_blockno (v_buf s b)) (vb_data (v_buf s b))) s.

(** ** Descriptors *)

Definition try_desc (i : Z) : M disk (option Z) :=
  let! f := gets (fun s => free_at s i) in
  if f then modify (set_free i false) ;;; ret (Some i) else ret None.

Definition alloc_desc : M disk Z :=
  let! r := for_from (Z.to_nat NUM) 0 try_desc in
  ret (default (-1) r).

Definition free_desc (i : Z) : M disk unit :=
  if NUM <=? i then panic "free_desc 1"
  else
    let! f := gets (fun s => free_at s i) in
    if f then panic "free_desc 2"
    else
      modify (set_desc i desc0) ;;;
      modify (set_free i true) ;;;
      wakeup ChDiskFree.

(** Every iteration frees a descriptor that was in use, and panics otherwise,
    so NUM + 1 iterations are enough. *)
Fixpoint free_chain (fuel : nat) (i : Z) : M disk unit :=
  match fuel with
  | O => undefined_behaviour "free_chain: fuel"
  | S fuel =>
      let! d := gets (fun s => desc_at s i) in
      free_desc i ;;;
      if Z.land (d_flags d) VRING_DESC_F_NEXT =? 0 then ret tt else free_chain fuel (d_next d)
  end.

Fixpoint free_descs (idx : list Z) : M disk unit :=
  match idx with
  | [] => ret tt
  | i :: idx => free_desc i ;;; free_descs idx
  end.

(** The loop of [alloc3_desc] with n iterations to go. *)
Fixpoint alloc_descs (n : nat) (idx : list Z) : M disk (option (list Z)) :=
  match n with
  | O => ret (Some idx)
  | S n =>
      let! i := alloc_desc in
      if i <? 0 then free_descs idx ;;; ret None else alloc_descs n (idx ++ [i])
  end.

Definition alloc3_desc : M disk (option (list Z)) := alloc_descs 3 [].

(** ** [virtio_disk_rw] *)

(** A request: the buffer, the direction and the three descriptors. *)
Record chain : Set := mkChain { c_b : nat; c_w : bool; c_i0 : Z; c_i1 : Z; c_i2 : Z }.
Definition c_idx (c : chain) : list Z := [c_i0 c; c_i1 c; c_i2 c].

(** [b->blockno * (BSIZE / 512)], computed in 32 bits. *)
Definition sector_of (bno : Z) : Z := u32 (bno * (BSIZE / 512)).

Definition req_of (w : bool) (bno : Z) : virtio_blk_req :=
  mkReq (if w then VIRTIO_BLK_T_OUT else VIRTIO_BLK_T_IN) 0 (sector_of bno).
Definition desc_op (i0 i1 : Z) : virtq_desc := mkDesc (DmaOp i0) 16 VRING_DESC_F_NEXT i1.
Definition desc_data (b : nat) (w : bool) (i2 : Z) : virtq_desc :=
  mkDesc (DmaBuf b) BSIZE (Z.lor (if w then 0 else VRING_DESC_F_WRITE) VRING_DESC_F_NEXT) i2.
Definition desc_status (i0 : Z) : virtq_desc := mkDesc (DmaStatus i0) 1 VRING_DESC_F_WRITE 0.

(** Formatting the descriptors, and the entry of the avail ring. *)
Definition rw_format (c : chain) : M disk unit :=
  let! bno := gets (fun s => vb_blockno (v_buf s (c_b c))) in
  modify (set_op (c_i0 c) (req_of (c_w c) bno)) ;;;
  modify (set_desc (c_i0 c) (desc_op (c_i0 c) (c_i1 c))) ;;;
  modify (set_desc (c_i1 c) (desc_data (c_b c) (c_w c) (c_i2 c))) ;;;
  modify (set_desc (c_i2 c) (desc_status (c_i0 c))) ;;;
  modify (set_b_disk (c_b c) true) ;;;
  modify (set_info (c_i0 c) (mkInfo (Some (c_b c)) 255)) ;;;
  modify (fun s => set_avail (v_avail_idx s `mod` NUM) (c_i0 c) s).

(** From taking vdisk_lock to the first barrier; without three descriptors
    the process sleeps and starts again. *)
Definition rw_start (b : nat) (w : bool) : M disk chain :=
  let! r := alloc3_desc in
  match r with
  | Some [i0; i1; i2] => let c := mkChain b w i0 i1 i2 in rw_format c ;;; ret c
  | _ => sleep_on ChDiskFree
  end.

(** The request becomes visible to the device, which is notified. *)
Definition rw_publish : M disk unit := modify (fun s => set_avail_idx (u16 (v_avail_idx s + 1)) s).

(** Waiting for the interrupt, and what follows. *)
Definition rw_wait (c : chain) : M disk unit :=
  let! d := gets (fun s => vb_disk (v_buf s (c_b c))) in
  if d then sleep_on (ChBuf (c_b c))
  else
    modify (fun s => set_info (c_i0 c) (mkInfo None (status_at s (c_i0 c))) s) ;;;
    free_chain (S (Z.to_nat NUM)) (c_i0 c).

(** ** [virtio_disk_intr] *)

(** One iteration of its loop. *)
Definition intr_one : M disk unit :=
  let! s := gets id in
  let id := v_used s !!! Z.to_nat (v_used_idx s `mod` NUM) in
  match v_info s !! Z.to_nat id with
  | None => undefined_behaviour "virtio_disk_intr: info"
  | Some info =>
      if negb (in_status info =? 0) then panic "virtio_disk_intr status"
      else
        match in_b info with
        | None => undefined_behaviour "virtio_disk_intr: null buffer"
        | Some b =>
            modify (set_b_disk b false) ;;;
            wakeup (ChBuf b) ;;;
            modify (fun s => set_used_idx (u16 (v_used_idx s + 1)) s)
        end
  end.

(** ** The device

    What a virtio block device may do with the queue.  It takes chains from
    the avail ring, carries them out in any order, writes the status and puts
    the head of the chain in the used ring; then it raises an interrupt. *)

Record device : Type := mkDevice {
  dv_seen : Z;          (* avail entries taken, uint16 *)
  dv_busy : list Z;     (* chains taken *)
  dv_done : list Z;     (* chains carried out, not yet in the used ring *)
  dv_store : Z -> Z }.  (* the bytes of the disk *)

Definition store_read (st : Z -> Z) (addr len : Z) : bytes := st <$> seqZ addr len.
Definition store_write (st : Z -> Z) (addr : Z) (bs : bytes) : Z -> Z := fun a =>
  if decide (addr <= a < addr + Z.of_nat (length bs)) then bs !!! Z.to_nat (a - addr) else st a.

(** The three parts of a request, if the chain at h is one. *)
Definition chain_at (s : disk) (h : Z) : option (virtio_blk_req * virtq_desc * Z) :=
  let d0 := desc_at s h in
  let d1 := desc_at s (d_next d0) in
  let d2 := desc_at s (d_next d1) in
  match d_addr d0, d_addr d2 with
  | DmaOp o, DmaStatus j =>
      if Z.testbit (d_flags d0) 0 && Z.testbit (d_flags d1) 0 && Z.testbit (d_flags d2) 1 &&
         negb (Z.testbit (d_flags d0) 1) && negb (Z.testbit (d_flags d2) 0)
      then Some (op_at s o, d1, j) else None
  | _, _ => None
  end.

Definition set_status (j st : Z) (s : disk) : disk := set_info j (mkInfo (in_b (info_at s j)) st) s.
Definition set_data (b : nat) (bs : bytes) (s : disk) : disk :=
  set_vbuf b (mkVbuf (vb_disk (v_buf s b)) (vb_blockno (v_buf s b)) bs) s.

(** Carrying out a request: a read needs a writable data descriptor, a write
    a readable one.  A failed request leaves its target in any state. *)
Inductive carries_out (st : Z -> Z) (s : disk) : virtio_blk_req -> virtq_desc -> Z -> (Z -> Z) -> disk -> Prop :=
  | co_read r d1 b : r_type r = VIRTIO_BLK_T_IN -> d_addr d1 = DmaBuf b -> Z.testbit (d_flags d1) 1 = true ->
      carries_out st s r d1 0 st (set_data b (store_read st (512 * r_sector r) (d_len d1)) s)
  | co_write r d1 b : r_type r = VIRTIO_BLK_T_OUT -> d_addr d1 = DmaBuf b -> Z.testbit (d_flags d1) 1 = false ->
      carries_out st s r d1 0 (store_write st (512 * r_sector r) (take (Z.to_nat (d_len d1)) (vb_data (v_buf s b)))) s
  | co_read_error r d1 b x bs : r_type r = VIRTIO_BLK_T_IN -> d_addr d1 = DmaBuf b -> Z.testbit (d_flags d1) 1 = true ->
      1 <= x <= 2 -> Z.of_nat (length bs) = d_len d1 -> carries_out st s r d1 x st (set_data b bs s)
  | co_write_error r d1 b x bs : r_type r = VIRTIO_BLK_T_OUT -> d_addr d1 = DmaBuf b -> Z.testbit (d_flags d1) 1 = false ->
      1 <= x <= 2 -> Z.of_nat (length bs) = d_len d1 -> carries_out st s r d1 x (store_write st (512 * r_sector r) bs) s.

(** One step of a device; the last component is the interrupt line. *)
Inductive virtio_blk (v : device) (s : disk) (isr : bool) : device -> disk -> bool -> Prop :=
  | vb_fetch : dv_seen v <> v_avail_idx s ->
      virtio_blk v s isr
        (mkDevice (u16 (dv_seen v + 1)) (dv_busy v ++ [v_avail s !!! Z.to_nat (dv_seen v `mod` NUM)]) (dv_done v) (dv_store v)) s isr
  | vb_serve h l1 l2 r d1 j x st' s' : dv_busy v = l1 ++ h :: l2 -> chain_at s h = Some (r, d1, j) ->
      carries_out (dv_store v) s r d1 x st' s' ->
      virtio_blk v s isr (mkDevice (dv_seen v) (l1 ++ l2) (h :: dv_done v) st') (set_status j x s') isr
  | vb_post h l1 l2 : dv_done v = l1 ++ h :: l2 ->
      virtio_blk v s isr (mkDevice (dv_seen v) (dv_busy v) (l1 ++ l2) (dv_store v))
        (set_uidx (u16 (v_uidx s + 1)) (set_used (v_uidx s `mod` NUM) h s)) true.

(** ** The system: any number of processes, the interrupt handler, the device *)

Inductive actor : Set := AProc (p : nat) | AIntr.

(** Where a process is. *)
Inductive ppc : Set :=
  | PIdle                            (* not in virtio_disk_rw *)
  | PWant (b : nat) (w : bool)       (* about to take vdisk_lock and look for descriptors *)
  | PSleepFree (b : nat) (w : bool)  (* asleep on &disk.free[0] *)
  | PFormatted (c : chain)           (* holds the lock, before avail->idx += 1 *)
  | PWait (c : chain)                (* holds the lock, about to test b->disk *)
  | PSleepBuf (c : chain)            (* asleep on b *)
  | PWoken (c : chain).              (* about to take the lock again *)

Record sys : Type := mkSys {
  y_d : disk; y_dev : device; y_isr : bool; y_lock : option actor; y_pc : nat -> ppc; y_panic : option string }.

(** [wakeup(c)], for every event of a trace. *)
Definition wake_pc (t : list event) (l : ppc) : ppc :=
  match l with
  | PSleepFree b w => if decide (Wake ChDiskFree ∈ t) then PWant b w else l
  | PSleepBuf c => if decide (Wake (ChBuf (c_b c)) ∈ t) then PWoken c else l
  | _ => l
  end.

(** The code a process runs next, with where it is then. *)
Definition proc_code (l : ppc) : option (M disk ppc) :=
  match l with
  | PWant b w => Some (let! c := rw_start b w in ret (PFormatted c))
  | PFormatted c => Some (rw_publish ;;; ret (PWait c))
  | PWait c | PWoken c => Some (rw_wait c ;;; ret PIdle)
  | _ => None
  end.
Definition asleep (l : ppc) : ppc :=
  match l with
  | PWant b w => PSleepFree b w
  | PWait c | PWoken c => PSleepBuf c
  | l => l
  end.
Definition holds (l : ppc) : bool := match l with PFormatted _ | PWait _ => true | _ => false end.

(** The buffer and the chain of a process. *)
Definition pc_buf (l : ppc) : option nat :=
  match l with
  | PIdle => None
  | PWant b _ | PSleepFree b _ => Some b
  | PFormatted c | PWait c | PSleepBuf c | PWoken c => Some (c_b c)
  end.

Section system.
(** The device is a parameter: any one that follows the rules of virtio. *)
Context (dev_step : device -> disk -> bool -> device -> disk -> bool -> Prop).

Inductive step (y : sys) : sys -> Prop :=
  (* bread and bwrite call virtio_disk_rw with the buffer locked *)
  | s_call p b w : y_panic y = None -> y_pc y p = PIdle -> (forall q, pc_buf (y_pc y q) <> Some b) ->
      step y (mkSys (y_d y) (y_dev y) (y_isr y) (y_lock y) (upd p (PWant b w) (y_pc y)) None)
  (* buffers that are not in use by the driver belong to the cache *)
  | s_env b bno bs : y_panic y = None -> (forall q, pc_buf (y_pc y q) <> Some b) -> length bs = Z.to_nat BSIZE ->
      0 <= bno < 2^31 ->
      step y (mkSys (set_vbuf b (mkVbuf (vb_disk (v_buf (y_d y) b)) bno bs) (y_d y)) (y_dev y) (y_isr y) (y_lock y) (y_pc y) None)
  | s_ret p m l' d' t : y_panic y = None -> proc_code (y_pc y p) = Some m ->
      y_lock y = (if holds (y_pc y p) then Some (AProc p) else None) -> m (y_d y) = Ret l' d' t ->
      step y (mkSys d' (y_dev y) (y_isr y) (if holds l' then Some (AProc p) else None)
        (upd p l' (fun q => wake_pc t (y_pc y q))) None)
  | s_sleep p m ch d' t : y_panic y = None -> proc_code (y_pc y p) = Some m ->
      y_lock y = (if holds (y_pc y p) then Some (AProc p) else None) -> m (y_d y) = Sleep ch d' t ->
      step y (mkSys d' (y_dev y) (y_isr y) None (upd p (asleep (y_pc y p)) (fun q => wake_pc t (y_pc y q))) None)
  | s_panic p m msg t : y_panic y = None -> proc_code (y_pc y p) = Some m ->
      y_lock y = (if holds (y_pc y p) then Some (AProc p) else None) -> m (y_d y) = Panic msg t ->
      step y (mkSys (y_d y) (y_dev y) (y_isr y) (y_lock y) (y_pc y) (Some msg))
  | s_intr : y_panic y = None -> y_isr y = true -> y_lock y = None ->
      step y (mkSys (y_d y) (y_dev y) false (Some AIntr) (y_pc y) None)
  | s_intr_one d' t : y_panic y = None -> y_lock y = Some AIntr -> v_used_idx (y_d y) <> v_uidx (y_d y) ->
      intr_one (y_d y) = Ret tt d' t ->
      step y (mkSys d' (y_dev y) (y_isr y) (Some AIntr) (fun q => wake_pc t (y_pc y q)) None)
  | s_intr_panic msg t : y_panic y = None -> y_lock y = Some AIntr -> v_used_idx (y_d y) <> v_uidx (y_d y) ->
      intr_one (y_d y) = Panic msg t ->
      step y (mkSys (y_d y) (y_dev y) (y_isr y) (Some AIntr) (y_pc y) (Some msg))
  | s_intr_end : y_panic y = None -> y_lock y = Some AIntr -> v_used_idx (y_d y) = v_uidx (y_d y) ->
      step y (mkSys (y_d y) (y_dev y) (y_isr y) None (y_pc y) None)
  | s_dev v' d' isr' : y_panic y = None -> dev_step (y_dev y) (y_d y) (y_isr y) v' d' isr' ->
      step y (mkSys d' v' isr' (y_lock y) (y_pc y) None).

Inductive reachable (y0 : sys) : sys -> Prop :=
  | reach_init : reachable y0 y0
  | reach_step y y' : reachable y0 y -> step y y' -> reachable y0 y'.
End system.

(** ** [virtio_disk_init] *)

Definition VIRTIO_MMIO_MAGIC_VALUE : Z := 0x000.
Definition VIRTIO_MMIO_VERSION : Z := 0x004.
Definition VIRTIO_MMIO_DEVICE_ID : Z := 0x008.
Definition VIRTIO_MMIO_VENDOR_ID : Z := 0x00c.
Definition VIRTIO_MMIO_DEVICE_FEATURES : Z := 0x010.
Definition VIRTIO_MMIO_DRIVER_FEATURES : Z := 0x020.
Definition VIRTIO_MMIO_QUEUE_SEL : Z := 0x030.
Definition VIRTIO_MMIO_QUEUE_NUM_MAX : Z := 0x034.
Definition VIRTIO_MMIO_QUEUE_NUM : Z := 0x038.
Definition VIRTIO_MMIO_QUEUE_READY : Z := 0x044.
Definition VIRTIO_MMIO_STATUS : Z := 0x070.
Definition VIRTIO_MMIO_QUEUE_DESC_LOW : Z := 0x080.
Definition VIRTIO_MMIO_QUEUE_DESC_HIGH : Z := 0x084.
Definition VIRTIO_MMIO_DRIVER_DESC_LOW : Z := 0x090.
Definition VIRTIO_MMIO_DRIVER_DESC_HIGH : Z := 0x094.
Definition VIRTIO_MMIO_DEVICE_DESC_LOW : Z := 0x0a0.
Definition VIRTIO_MMIO_DEVICE_DESC_HIGH : Z := 0x0a4.
Definition VIRTIO_CONFIG_S_ACKNOWLEDGE : Z := 1.
Definition VIRTIO_CONFIG_S_DRIVER : Z := 2.
Definition VIRTIO_CONFIG_S_DRIVER_OK : Z := 4.
Definition VIRTIO_CONFIG_S_FEATURES_OK : Z := 8.
(** RO, SCSI, CONFIG_WCE, MQ, ANY_LAYOUT, EVENT_IDX, INDIRECT_DESC. *)
Definition refused_features : list Z := [5; 7; 11; 12; 27; 29; 28].

Definition driver_features (features : Z) : Z :=
  u32 (fold_left (fun x k => Z.land x (Z.lnot (Z.shiftl 1 k))) refused_features features).

(** The driver after initialisation: zeroed queue pages, all descriptors free. *)
Definition disk0 (bufs : nat -> vbuf) : disk :=
  let n := Z.to_nat NUM in
  mkDisk (replicate n desc0) 0 (replicate n 0) 0 (replicate n 0) (replicate n true) 0
    (replicate n (mkInfo None 0)) (replicate n (mkReq 0 0 0)) bufs.

Section init.
(** What a register holds after the writes so far, and the pages kalloc gives. *)
Context (mmio : list (Z * Z) -> Z -> Z) (pages : option Z * option Z * option Z).

Definition rd (r : Z) : M (list (Z * Z)) Z := gets (fun ws => mmio ws r).
Definition wr (r x : Z) : M (list (Z * Z)) unit := modify (fun ws => ws ++ [(r, x)]).

Definition virtio_disk_init (bufs : nat -> vbuf) : M (list (Z * Z)) disk :=
  let! magic := rd VIRTIO_MMIO_MAGIC_VALUE in
  let! version := rd VIRTIO_MMIO_VERSION in
  let! device := rd VIRTIO_MMIO_DEVICE_ID in
  let! vendor := rd VIRTIO_MMIO_VENDOR_ID in
  if negb (magic =? 0x74726976) || negb (version =? 2) || negb (device =? 2) || negb (vendor =? 0x554d4551) then
    panic "could not find virtio disk"
  else
    wr VIRTIO_MMIO_STATUS 0 ;;;
    let status := VIRTIO_CONFIG_S_ACKNOWLEDGE in
    wr VIRTIO_MMIO_STATUS status ;;;
    let status := Z.lor status VIRTIO_CONFIG_S_DRIVER in
    wr VIRTIO_MMIO_STATUS status ;;;
    let! features := rd VIRTIO_MMIO_DEVICE_FEATURES in
    wr VIRTIO_MMIO_DRIVER_FEATURES (driver_features features) ;;;
    let status := Z.lor status VIRTIO_CONFIG_S_FEATURES_OK in
    wr VIRTIO_MMIO_STATUS status ;;;
    let! status := rd VIRTIO_MMIO_STATUS in
    if Z.land status VIRTIO_CONFIG_S_FEATURES_OK =? 0 then panic "virtio disk FEATURES_OK unset"
    else
      wr VIRTIO_MMIO_QUEUE_SEL 0 ;;;
      let! ready := rd VIRTIO_MMIO_QUEUE_READY in
      if negb (ready =? 0) then panic "virtio disk should not be ready"
      else
        let! max := rd VIRTIO_MMIO_QUEUE_NUM_MAX in
        if max =? 0 then panic "virtio disk has no queue 0"
        else if max <? NUM then panic "virtio disk max queue too short"
        else
          match pages with
          | (Some desc, Some avail, Some used) =>
              wr VIRTIO_MMIO_QUEUE_NUM NUM ;;;
              wr VIRTIO_MMIO_QUEUE_DESC_LOW (u32 desc) ;;;
              wr VIRTIO_MMIO_QUEUE_DESC_HIGH (u32 (Z.shiftr desc 32)) ;;;
              wr VIRTIO_MMIO_DRIVER_DESC_LOW (u32 avail) ;;;
              wr VIRTIO_MMIO_DRIVER_DESC_HIGH (u32 (Z.shiftr avail 32)) ;;;
              wr VIRTIO_MMIO_DEVICE_DESC_LOW (u32 used) ;;;
              wr VIRTIO_MMIO_DEVICE_DESC_HIGH (u32 (Z.shiftr used 32)) ;;;
              wr VIRTIO_MMIO_QUEUE_READY 1 ;;;
              wr VIRTIO_MMIO_STATUS (Z.lor status VIRTIO_CONFIG_S_DRIVER_OK) ;;;
              ret (disk0 bufs)
          | _ => panic "virtio disk kalloc"
          end.
End init.

(** The system after boot: nobody is in the driver, the device is idle. *)
Definition booted (d : disk) (store : Z -> Z) : sys := mkSys d (mkDevice 0 [] [] store) false None (fun _ => PIdle) None.
