(* ===== verification/VirtioInv.v ===== *)
(** * The disk driver: windows of the rings, and what each piece of code does *)
From S2P Require Import Prelude Params Ring Virtio.

(** ** The part of a ring between two 16-bit counters *)

Definition window (r : list Z) (lo hi : Z) : list Z := ring r NUM lo (u16 (hi - lo)).

Section window.
Implicit Types (r : list Z) (lo hi : Z).

Lemma NUM_pos : 0 < NUM. Proof. done. Qed.
Lemma NUM_divides : (NUM | 2^32). Proof. by exists (2^29). Qed.
Lemma u16_bound x : 0 <= u16 x < 2^16.
Proof. apply Z.mod_pos_bound. lia. Qed.
Lemma u16_slot x : u16 x `mod` NUM = x `mod` NUM.
Proof. unfold u16, NUM. rewrite (Z.mod_eq x (2^16)) by lia. replace (x - 2^16 * (x / 2^16)) with (x + (- 2^13 * (x / 2^16)) * 8) by lia. apply Z.mod_add. lia. Qed.
Lemma u16_diff_slot lo hi : (lo + u16 (hi - lo)) `mod` NUM = hi `mod` NUM.
Proof. rewrite <- Z.add_mod_idemp_r, u16_slot, Z.add_mod_idemp_r by done. f_equal. lia. Qed.

Lemma u16_push lo hi : u16 (hi - lo) < 2^16 - 1 -> u16 (u16 (hi + 1) - lo) = u16 (hi - lo) + 1.
Proof.
  pose proof (u16_bound (hi - lo)). unfold u16 in *. intros. rewrite Zminus_mod_idemp_l.
  replace (hi + 1 - lo) with (hi - lo + 1) by lia. rewrite <- Z.add_mod_idemp_l by lia. apply Z.mod_small. lia.
Qed.
Lemma u16_pop lo hi : 0 < u16 (hi - lo) -> u16 (hi - u16 (lo + 1)) = u16 (hi - lo) - 1.
Proof.
  pose proof (u16_bound (hi - lo)). unfold u16 in *. intros. rewrite Zminus_mod_idemp_r.
  replace (hi - (lo + 1)) with (hi - lo + -1) by lia. rewrite <- Z.add_mod_idemp_l by lia. apply Z.mod_small. lia.
Qed.
Lemma u16_ne lo hi : 0 <= lo < 2^16 -> 0 <= hi < 2^16 -> lo <> hi <-> 0 < u16 (hi - lo).
Proof.
  intros Hl Hh. pose proof (u16_bound (hi - lo)) as Hb. destruct (decide (u16 (hi - lo) = 0)) as [E|].
  - split; [|lia]. intros Hne. exfalso. unfold u16 in E. apply Z.mod_divide in E as [q Hq]; [|lia].
    assert (q = 0) by nia. lia.
  - split; [lia|]. intros _ ->. rewrite Z.sub_diag in *. done.
Qed.

Lemma ring_u16 r a len : ring r NUM (u16 a) len = ring r NUM a len.
Proof.
  unfold ring. apply list_fmap_ext. intros k x _.
  rewrite !(u32_mod_ring NUM NUM_pos NUM_divides), <- Z.add_mod_idemp_l by done. by rewrite u16_slot, Z.add_mod_idemp_l by done.
Qed.

Lemma window_grow r lo hi : u16 (hi - lo) < 2^16 - 1 ->
  window r lo (u16 (hi + 1)) = window r lo hi ++ [r !!! Z.to_nat (hi `mod` NUM)].
Proof.
  intros Hl. unfold window. pose proof (u16_bound (hi - lo)). rewrite u16_push by done.
  rewrite (ring_last NUM NUM_pos NUM_divides) by lia. f_equal; [f_equal; lia|].
  replace (lo + (u16 (hi - lo) + 1) - 1) with (lo + u16 (hi - lo)) by lia. by rewrite u16_diff_slot.
Qed.

Lemma window_write r lo hi x : length r = Z.to_nat NUM -> u16 (hi - lo) < NUM ->
  window (<[Z.to_nat (hi `mod` NUM) := x]> r) lo hi = window r lo hi.
Proof.
  intros Hr Hl. pose proof (u16_bound (hi - lo)).
  pose proof (ring_put NUM NUM_pos NUM_divides r lo (u16 (hi - lo)) x) as Hp. rewrite u16_diff_slot in Hp.
  specialize (Hp ltac:(lia) ltac:(lia)). rewrite (ring_app NUM) in Hp by lia.
  apply app_inj_2 in Hp as [Hp _]; [exact Hp|]. by rewrite (ring_one NUM NUM_pos NUM_divides).
Qed.

Lemma window_push r lo hi x : length r = Z.to_nat NUM -> u16 (hi - lo) < NUM ->
  window (<[Z.to_nat (hi `mod` NUM) := x]> r) lo (u16 (hi + 1)) = window r lo hi ++ [x].
Proof.
  intros Hr Hl. assert (NUM < 2^16 - 1) by done. rewrite window_grow, window_write by lia.
  f_equal. rewrite list_lookup_total_insert_eq; [done|]. pose proof (ring_slot NUM NUM_pos hi). lia.
Qed.

Lemma window_pop r lo hi : 0 <= lo < 2^16 -> 0 <= hi < 2^16 -> lo <> hi ->
  window r lo hi = r !!! Z.to_nat (lo `mod` NUM) :: window r (u16 (lo + 1)) hi.
Proof.
  intros Hl Hh Hne%u16_ne; [|done..]. unfold window. rewrite u16_pop, ring_u16 by done.
  by apply (ring_head NUM NUM_pos NUM_divides).
Qed.

Lemma window_nil r lo : window r lo lo = [].
Proof. unfold window. rewrite Z.sub_diag. by apply (ring_nil NUM). Qed.

Lemma length_window r lo hi : Z.of_nat (length (window r lo hi)) = u16 (hi - lo).
Proof. apply (length_ring NUM). apply u16_bound. Qed.
End window.

(** A list of distinct descriptors has at most NUM elements. *)
Lemma nodup_bound (l : list Z) n : 0 <= n -> NoDup l -> (forall x, x ∈ l -> 0 <= x < n) -> Z.of_nat (length l) <= n.
Proof.
  intros Hn Hd Hl. assert (l ⊆+ seqZ 0 n) as Hs.
  { apply NoDup_submseteq; [done|]. intros x Hx. apply elem_of_seqZ. specialize (Hl x Hx). lia. }
  apply submseteq_length in Hs. rewrite length_seqZ in Hs. lia.
Qed.

(** ** Descriptors *)

Definition shape (s : disk) : Prop :=
  length (v_desc s) = Z.to_nat NUM /\ length (v_avail s) = Z.to_nat NUM /\ length (v_used s) = Z.to_nat NUM /\
  length (v_free s) = Z.to_nat NUM /\ length (v_info s) = Z.to_nat NUM /\ length (v_ops s) = Z.to_nat NUM /\
  0 <= v_avail_idx s < 2^16 /\ 0 <= v_uidx s < 2^16 /\ 0 <= v_used_idx s < 2^16.

Definition is_desc (i : Z) : Prop := 0 <= i < NUM.
Definition nfree (s : disk) : nat := length (filter (fun b => b = true) (v_free s)).

Lemma Z_to_nat_ne i j : 0 <= i -> 0 <= j -> i <> j -> Z.to_nat i <> Z.to_nat j.
Proof. lia. Qed.

Section disk.
Implicit Types (s : disk).

Lemma desc_at_set s i j x : shape s -> is_desc i -> 0 <= j -> desc_at (set_desc i x s) j = if decide (j = i) then x else desc_at s j.
Proof.
  intros (Hl & _) Hi Hj. unfold is_desc in *. unfold desc_at. cbn. case_decide; subst.
  - apply list_lookup_total_insert_eq. lia.
  - apply list_lookup_total_insert_ne. lia.
Qed.
Lemma free_at_set s i j x : shape s -> is_desc i -> 0 <= j -> free_at (set_free i x s) j = if decide (j = i) then x else free_at s j.
Proof.
  intros (_ & _ & _ & Hl & _) Hi Hj. unfold is_desc in *. unfold free_at. cbn. case_decide; subst.
  - apply list_lookup_total_insert_eq. lia.
  - apply list_lookup_total_insert_ne. lia.
Qed.
Lemma info_at_set s i j x : shape s -> is_desc i -> 0 <= j -> info_at (set_info i x s) j = if decide (j = i) then x else info_at s j.
Proof.
  intros (_ & _ & _ & _ & Hl & _) Hi Hj. unfold is_desc in *. unfold info_at. cbn. case_decide; subst.
  - apply list_lookup_total_insert_eq. lia.
  - apply list_lookup_total_insert_ne. lia.
Qed.
Lemma op_at_set s i j x : shape s -> is_desc i -> 0 <= j -> op_at (set_op i x s) j = if decide (j = i) then x else op_at s j.
Proof.
  intros (_ & _ & _ & _ & _ & Hl & _) Hi Hj. unfold is_desc in *. unfold op_at. cbn. case_decide; subst.
  - apply list_lookup_total_insert_eq. lia.
  - apply list_lookup_total_insert_ne. lia.
Qed.
Lemma buf_set s b x b' : v_buf (set_vbuf b x s) b' = if decide (b' = b) then x else v_buf s b'.
Proof. done. Qed.

(** What allocating and freeing descriptors may change. *)
Definition only_descs s s' : Prop :=
  shape s' /\ v_avail_idx s' = v_avail_idx s /\ v_avail s' = v_avail s /\ v_uidx s' = v_uidx s /\ v_used s' = v_used s /\
  v_used_idx s' = v_used_idx s /\ v_info s' = v_info s /\ v_ops s' = v_ops s /\ v_buf s' = v_buf s /\
  (forall i, is_desc i -> free_at s i = false -> desc_at s' i = desc_at s i).

Lemma shape_set_free s i x : shape s -> shape (set_free i x s).
Proof. unfold shape. cbn. by rewrite length_insert. Qed.
Lemma shape_set_desc s i x : shape s -> shape (set_desc i x s).
Proof. unfold shape. cbn. by rewrite length_insert. Qed.
Lemma shape_set_info s i x : shape s -> shape (set_info i x s).
Proof. unfold shape. cbn. by rewrite length_insert. Qed.
Lemma shape_set_op s i x : shape s -> shape (set_op i x s).
Proof. unfold shape. cbn. by rewrite length_insert. Qed.
Lemma shape_set_avail s i x : shape s -> shape (set_avail i x s).
Proof. unfold shape. cbn. by rewrite length_insert. Qed.
Lemma shape_set_used s i x : shape s -> shape (set_used i x s).
Proof. unfold shape. cbn. by rewrite length_insert. Qed.

Lemma shape_set_idx s x : shape s ->
  shape (set_avail_idx (u16 x) s) /\ shape (set_uidx (u16 x) s) /\ shape (set_used_idx (u16 x) s).
Proof. unfold shape. cbn -[Z.pow]. pose proof (u16_bound x). tauto. Qed.

Lemma free_at_lookup s i : shape s -> is_desc i -> v_free s !! Z.to_nat i = Some (free_at s i).
Proof. intros (_ & _ & _ & Hl & _) Hi. apply list_lookup_lookup_total_lt. unfold is_desc in Hi. lia. Qed.

Lemma alloc_desc_spec s : shape s ->
  (exists i, is_desc i /\ free_at s i = true /\ alloc_desc s = Ret i (set_free i false s) []) \/
  ((forall i, is_desc i -> free_at s i = false) /\ alloc_desc s = Ret (-1) s []).
Proof.
  intros Hs. unfold alloc_desc.
  assert (forall n i, 0 <= i -> (exists j, i <= j < i + Z.of_nat n /\ free_at s j = true /\ for_from n i try_desc s = Ret (Some j) (set_free j false s) []) \/
    ((forall j, i <= j < i + Z.of_nat n -> free_at s j = false) /\ for_from n i try_desc s = Ret None s [])) as Hloop.
  { induction n as [|n IH]; intros i Hi; [right; split; [lia|done]|]. cbn [for_from]. unfold bind.
    assert (try_desc i s = if free_at s i then Ret (Some i) (set_free i false s) [] else Ret None s []) as ->
      by (unfold try_desc, bind, gets; by destruct (free_at s i)).
    destruct (free_at s i) eqn:E; [left; exists i; split_and!; [lia|lia|done|done]|].
    destruct (IH (i + 1) ltac:(lia)) as [(j & Hj & Hf & ->)|[Hf ->]].
    - left. exists j. split_and!; [lia|lia|done|done].
    - right. split; [|done]. intros j Hj. destruct (decide (j = i)) as [->|]; [done|]. apply Hf. lia. }
  unfold bind. destruct (Hloop (Z.to_nat NUM) 0 ltac:(lia)) as [(j & Hj & Hf & ->)|[Hf ->]].
  - left. exists j. split; [unfold is_desc; lia|]. by split.
  - right. split; [|done]. intros i Hi. apply Hf. unfold is_desc in Hi. lia.
Qed.

Lemma free_desc_spec s i : is_desc i -> free_at s i = false ->
  free_desc i s = Ret tt (set_free i true (set_desc i desc0 s)) [Wake ChDiskFree].
Proof.
  intros Hi Hf. unfold free_desc. unfold is_desc in Hi. replace (NUM <=? i) with false by lia.
  unfold bind, gets. by rewrite Hf.
Qed.

Lemma nfree_alloc s i : shape s -> is_desc i -> free_at s i = true -> (nfree (set_free i false s) + 1 = nfree s)%nat.
Proof.
  intros Hs Hi Hf. pose proof (free_at_lookup s i Hs Hi) as Hl. rewrite Hf in Hl. unfold nfree. cbn.
  rewrite insert_take_drop by (by eapply lookup_lt_Some). rewrite <- (take_drop_middle _ _ _ Hl) at 3.
  rewrite !filter_app, !length_app, !filter_cons. rewrite decide_False, decide_True by done. cbn. lia.
Qed.

Lemma nfree_none s : shape s -> (forall i, is_desc i -> free_at s i = false) -> nfree s = 0%nat.
Proof.
  intros Hs Hf. unfold nfree.
  assert (filter (fun b => b = true) (v_free s) = []) as ->; [|done].
  apply elem_of_nil_inv. intros b [-> [k Hk]%list_elem_of_lookup]%list_elem_of_filter.
  assert (is_desc (Z.of_nat k)) as Hd. { apply lookup_lt_Some in Hk. destruct Hs as (_ & _ & _ & Hl & _). unfold is_desc. lia. }
  pose proof (free_at_lookup s _ Hs Hd) as Hl. rewrite Nat2Z.id, Hf in Hl by done. congruence.
Qed.

(** Taking descriptors and giving them back. *)
Definition take_descs (idx : list Z) s : disk := fold_left (fun s i => set_free i false s) idx s.
Definition give_descs (idx : list Z) s : disk := fold_left (fun s i => set_free i true (set_desc i desc0 s)) idx s.

Lemma shape_take idx s : shape s -> shape (take_descs idx s).
Proof. revert s. induction idx as [|i idx IH]; intros s Hs; [done|]. by apply IH, shape_set_free. Qed.
Lemma shape_give idx s : shape s -> shape (give_descs idx s).
Proof. revert s. induction idx as [|i idx IH]; intros s Hs; [done|]. by apply IH, shape_set_free, shape_set_desc. Qed.

Lemma free_at_take idx s j : shape s -> Forall is_desc idx -> 0 <= j ->
  free_at (take_descs idx s) j = if decide (j ∈ idx) then false else free_at s j.
Proof.
  revert s. induction idx as [|i idx IH]; intros s Hs Hi Hj; [done|]. apply Forall_cons in Hi as [Hi Hidx].
  cbn. rewrite IH; [|by apply shape_set_free|done|done]. rewrite free_at_set by done.
  destruct (decide (j ∈ idx)); [by rewrite decide_True by (by right)|]. destruct (decide (j = i)) as [->|].
  - by rewrite decide_True by left.
  - by rewrite decide_False by (by apply not_elem_of_cons).
Qed.
Lemma free_at_give idx s j : shape s -> Forall is_desc idx -> 0 <= j ->
  free_at (give_descs idx s) j = if decide (j ∈ idx) then true else free_at s j.
Proof.
  revert s. induction idx as [|i idx IH]; intros s Hs Hi Hj; [done|]. apply Forall_cons in Hi as [Hi Hidx].
  cbn. rewrite IH; [|by apply shape_set_free, shape_set_desc|done|done]. rewrite free_at_set by (done || by apply shape_set_desc).
  destruct (decide (j ∈ idx)); [by rewrite decide_True by (by right)|]. destruct (decide (j = i)) as [->|].
  - by rewrite decide_True by left.
  - by rewrite decide_False by (by apply not_elem_of_cons).
Qed.
Lemma desc_at_give idx s j : shape s -> Forall is_desc idx -> 0 <= j -> j ∉ idx -> desc_at (give_descs idx s) j = desc_at s j.
Proof.
  revert s. induction idx as [|i idx IH]; intros s Hs Hi Hj Hn; [done|]. apply Forall_cons in Hi as [Hi Hidx].
  apply not_elem_of_cons in Hn as [Hne Hn]. cbn. rewrite IH; [|by apply shape_set_free, shape_set_desc|done..].
  change (desc_at (set_desc i desc0 s) j = desc_at s j). by rewrite desc_at_set, decide_False.
Qed.
Lemma take_descs_rest idx s : let s' := take_descs idx s in
  v_desc s' = v_desc s /\ v_avail_idx s' = v_avail_idx s /\ v_avail s' = v_avail s /\ v_uidx s' = v_uidx s /\ v_used s' = v_used s /\
  v_used_idx s' = v_used_idx s /\ v_info s' = v_info s /\ v_ops s' = v_ops s /\ v_buf s' = v_buf s.
Proof. cbv zeta. revert s. induction idx as [|i idx IH]; intros s; [done|]. exact (IH (set_free i false s)). Qed.
Lemma give_descs_rest idx s : let s' := give_descs idx s in
  v_avail_idx s' = v_avail_idx s /\ v_avail s' = v_avail s /\ v_uidx s' = v_uidx s /\ v_used s' = v_used s /\
  v_used_idx s' = v_used_idx s /\ v_info s' = v_info s /\ v_ops s' = v_ops s /\ v_buf s' = v_buf s.
Proof. cbv zeta. revert s. induction idx as [|i idx IH]; intros s; [done|]. exact (IH (set_free i true (set_desc i desc0 s))). Qed.

Lemma nfree_take idx s : shape s -> Forall is_desc idx -> NoDup idx -> (forall i, i ∈ idx -> free_at s i = true) ->
  (nfree (take_descs idx s) + length idx = nfree s)%nat.
Proof.
  revert s. induction idx as [|i idx IH]; intros s Hs Hi Hd Hf; [cbn; lia|]. apply Forall_cons in Hi as [Hi Hidx].
  apply NoDup_cons in Hd as [Hn Hd]. pose proof (nfree_alloc s i Hs Hi (Hf i ltac:(left))).
  change (take_descs (i :: idx) s) with (take_descs idx (set_free i false s)).
  assert (nfree (take_descs idx (set_free i false s)) + length idx = nfree (set_free i false s))%nat; [|cbn [length]; lia].
  apply IH; [by apply shape_set_free|done|done|].
  intros j Hj. rewrite free_at_set, decide_False; [apply Hf; by right|intros ->; done|done|done|].
  rewrite Forall_forall in Hidx. by apply Hidx.
Qed.

Lemma free_descs_spec idx s : shape s -> Forall is_desc idx -> NoDup idx -> (forall i, i ∈ idx -> free_at s i = false) ->
  free_descs idx s = Ret tt (give_descs idx s) (replicate (length idx) (Wake ChDiskFree)).
Proof.
  revert s. induction idx as [|i idx IH]; intros s Hs Hi Hd Hf; [done|]. pose proof Hi as [Hi' Hidx]%Forall_cons.
  apply NoDup_cons in Hd as [Hn Hd]. cbn [free_descs]. unfold bind. rewrite free_desc_spec by (done || (apply Hf; left)).
  rewrite IH; [done|by apply shape_set_free, shape_set_desc|done|done|]. intros j Hj.
  rewrite Forall_forall in Hidx. rewrite free_at_set, decide_False; [apply Hf; by right|intros ->; done|by apply shape_set_desc|done|by apply Hidx].
Qed.

(** The loop of [alloc3_desc]. *)
Lemma alloc_descs_spec n idx s : shape s -> Forall is_desc idx -> NoDup idx -> (forall i, i ∈ idx -> free_at s i = true) ->
  (exists idx', Forall is_desc (idx ++ idx') /\ NoDup (idx ++ idx') /\ length idx' = n /\ (forall i, i ∈ idx' -> free_at s i = true) /\
    alloc_descs n idx (take_descs idx s) = Ret (Some (idx ++ idx')) (take_descs (idx ++ idx') s) []) \/
  (exists idx', Forall is_desc (idx ++ idx') /\ NoDup (idx ++ idx') /\ (forall i, i ∈ idx ++ idx' -> free_at s i = true) /\
    (nfree s < length idx + n)%nat /\
    alloc_descs n idx (take_descs idx s) = Ret None (give_descs (idx ++ idx') (take_descs (idx ++ idx') s))
      (replicate (length (idx ++ idx')) (Wake ChDiskFree))).
Proof.
  revert idx. induction n as [|n IH]; intros idx Hs Hi Hd Hf.
  { left. exists []. rewrite app_nil_r. split_and!; try done. by intros ? ?%elem_of_nil. }
  cbn [alloc_descs]. unfold bind. pose proof (shape_take idx s Hs) as Hst.
  destruct (alloc_desc_spec _ Hst) as [(i & Hdi & Hfi & ->)|[Hall ->]].
  - rewrite free_at_take in Hfi by (done || apply Hdi). case_decide as Hin; [done|].
    replace (i <? 0) with false by (unfold is_desc in Hdi; lia).
    assert (set_free i false (take_descs idx s) = take_descs (idx ++ [i]) s) as -> by (unfold take_descs; by rewrite fold_left_app).
    destruct (IH (idx ++ [i]) Hs) as [(idx' & H1 & H2 & H3 & H4 & ->)|(idx' & H1 & H2 & H3 & H4 & ->)].
    + apply Forall_app; by split; [|apply Forall_singleton].
    + apply NoDup_app. split; [done|]. split; [|apply NoDup_singleton]. intros j Hj ->%list_elem_of_singleton. done.
    + intros j [Hj| ->%list_elem_of_singleton]%elem_of_app; [by apply Hf|done].
    + left. exists (i :: idx'). rewrite <- app_assoc in *. cbn [app] in *. split_and!; try done; [by cbn; f_equal|].
      intros j [->|Hj]%elem_of_cons; [done|by apply H4].
    + right. exists (i :: idx'). rewrite <- app_assoc in *. cbn [app] in *. split_and!; try done.
      rewrite length_app in H4. cbn in H4. lia.
  - right. exists []. rewrite app_nil_r. split_and!; try done.
    + pose proof (nfree_take idx s Hs Hi Hd Hf). rewrite (nfree_none _ Hst Hall) in *. lia.
    + change (-1 <? 0) with true. cbv iota beta. rewrite free_descs_spec; [cbn; by rewrite app_nil_r|done..|].
      intros i Hin. rewrite Forall_forall in Hi. rewrite free_at_take, decide_True; [done|done|done|by apply Forall_forall|by apply Hi].
Qed.

(** ** The pieces of [virtio_disk_rw] *)

(** What the device finds for a request. *)
Definition formatted s (c : chain) : Prop :=
  op_at s (c_i0 c) = req_of (c_w c) (vb_blockno (v_buf s (c_b c))) /\
  desc_at s (c_i0 c) = desc_op (c_i0 c) (c_i1 c) /\ desc_at s (c_i1 c) = desc_data (c_b c) (c_w c) (c_i2 c) /\
  desc_at s (c_i2 c) = desc_status (c_i0 c) /\ in_b (info_at s (c_i0 c)) = Some (c_b c).

Definition good_idx (c : chain) : Prop := Forall is_desc (c_idx c) /\ NoDup (c_idx c).

Lemma good_idx_elim c : good_idx c -> is_desc (c_i0 c) /\ is_desc (c_i1 c) /\ is_desc (c_i2 c) /\
  c_i0 c <> c_i1 c /\ c_i0 c <> c_i2 c /\ c_i1 c <> c_i2 c.
Proof.
  intros [Hd Hn]. unfold c_idx in *. apply Forall_cons in Hd as [? [? [? _]%Forall_cons]%Forall_cons].
  apply NoDup_cons in Hn as [Hn [Hn' _]%NoDup_cons]. rewrite !not_elem_of_cons in *. naive_solver.
Qed.

(** The state after [rw_format]. *)
Definition after_format (c : chain) s s' : Prop :=
  shape s' /\ formatted s' c /\ status_at s' (c_i0 c) = 255 /\
  v_avail s' = <[Z.to_nat (v_avail_idx s `mod` NUM) := c_i0 c]> (v_avail s) /\
  v_avail_idx s' = v_avail_idx s /\ v_uidx s' = v_uidx s /\ v_used s' = v_used s /\ v_used_idx s' = v_used_idx s /\
  v_free s' = v_free s /\
  (forall i, 0 <= i -> i ∉ c_idx c -> desc_at s' i = desc_at s i /\ op_at s' i = op_at s i) /\
  (forall i, 0 <= i -> i <> c_i0 c -> op_at s' i = op_at s i /\ info_at s' i = info_at s i) /\
  (forall b, v_buf s' b = if decide (b = c_b c) then mkVbuf true (vb_blockno (v_buf s b)) (vb_data (v_buf s b)) else v_buf s b).

Lemma rw_format_spec c s : shape s -> good_idx c -> exists s', rw_format c s = Ret tt s' [] /\ after_format c s s'.
Proof.
  intros Hs Hg. pose proof (good_idx_elim c Hg) as (H0 & H1 & H2 & N01 & N02 & N12). eexists. split; [reflexivity|].
  set (r := req_of _ _). set (s1 := set_op _ _ s). set (s2 := set_desc (c_i0 c) _ s1). set (s3 := set_desc (c_i1 c) _ s2).
  set (s4 := set_desc (c_i2 c) _ s3).
  assert (shape s1 /\ shape s2 /\ shape s3 /\ shape s4) as (Hs1 & Hs2 & Hs3 & Hs4)
    by (unfold s4, s3, s2, s1; split_and!; auto using shape_set_op, shape_set_desc).
  assert (forall i, 0 <= i -> desc_at s4 i = if decide (i = c_i2 c) then desc_status (c_i0 c) else
    if decide (i = c_i1 c) then desc_data (c_b c) (c_w c) (c_i2 c) else
    if decide (i = c_i0 c) then desc_op (c_i0 c) (c_i1 c) else desc_at s i) as Hd
    by (intros i Hi; unfold s4, s3, s2; rewrite !desc_at_set by done; done).
  assert (forall i x d, 0 <= i -> info_at (set_info (c_i0 c) x (set_b_disk (c_b c) d s4)) i = if decide (i = c_i0 c) then x else info_at s i)
    as Hinf by (intros i x d Hi; rewrite info_at_set by done; done).
  unfold is_desc in *. unfold after_format, formatted, status_at. split_and!.
  - by apply shape_set_avail, shape_set_info.
  - transitivity r; [change (op_at s1 (c_i0 c) = r); unfold s1; rewrite op_at_set, decide_True by (done || lia); done|].
    unfold r. cbn. unfold upd. by rewrite decide_True.
  - change (desc_at s4 (c_i0 c) = desc_op (c_i0 c) (c_i1 c)). rewrite Hd by lia. rewrite !decide_False, decide_True by done. done.
  - change (desc_at s4 (c_i1 c) = desc_data (c_b c) (c_w c) (c_i2 c)). rewrite Hd by lia. by rewrite decide_False, decide_True.
  - change (desc_at s4 (c_i2 c) = desc_status (c_i0 c)). rewrite Hd by lia. by rewrite decide_True.
  - change (in_b (info_at (set_info (c_i0 c) (mkInfo (Some (c_b c)) 255) (set_b_disk (c_b c) true s4)) (c_i0 c)) = Some (c_b c)).
    rewrite Hinf by lia. by rewrite decide_True.
  - change (in_status (info_at (set_info (c_i0 c) (mkInfo (Some (c_b c)) 255) (set_b_disk (c_b c) true s4)) (c_i0 c)) = 255).
    rewrite Hinf by lia. by rewrite decide_True.
  - done.
  - done.
  - done.
  - done.
  - done.
  - done.
  - intros i Hi Hn. unfold c_idx in Hn. rewrite !not_elem_of_cons in Hn. destruct Hn as (? & ? & ? & _). split.
    + change (desc_at s4 i = desc_at s i). rewrite Hd by lia. by rewrite !decide_False.
    + change (op_at s1 i = op_at s i). unfold s1. by rewrite op_at_set, decide_False.
  - intros i Hi Hn. split.
    + change (op_at s1 i = op_at s i). unfold s1. by rewrite op_at_set, decide_False.
    + change (info_at (set_info (c_i0 c) (mkInfo (Some (c_b c)) 255) (set_b_disk (c_b c) true s4)) i = info_at s i).
      rewrite Hinf by lia. by rewrite decide_False.
  - intros b. cbn. unfold upd. by destruct (decide (b = c_b c)) as [->|].
Qed.

Lemma rw_start_spec b w s : shape s ->
  (exists c s1 s', c_b c = b /\ c_w c = w /\ good_idx c /\ (forall i, i ∈ c_idx c -> free_at s i = true) /\
    s1 = take_descs (c_idx c) s /\ after_format c s1 s' /\ rw_start b w s = Ret c s' []) \/
  (exists s' t, only_descs s s' /\ (forall i, is_desc i -> free_at s' i = free_at s i) /\ (nfree s < 3)%nat /\
    rw_start b w s = Sleep ChDiskFree s' t /\ (forall ch, Wake (ChBuf ch) ∉ t)).
Proof.
  intros Hs. unfold rw_start, alloc3_desc, bind.
  pose proof (alloc_descs_spec 3 [] s Hs (List.Forall_nil _) (NoDup_nil_2) ltac:(by intros ? ?%elem_of_nil)) as Hspec.
  change (take_descs [] s) with s in Hspec.
  destruct Hspec as [(idx & Hi & Hd & Hl & Hf & ->)|(idx & Hi & Hd & Hf & Hn & ->)].
  - left. destruct idx as [|i0 [|i1 [|i2 [|]]]]; try done. cbn [app] in *. set (c := mkChain b w i0 i1 i2).
    destruct (rw_format_spec c (take_descs [i0; i1; i2] s)) as (s' & Hrun & Hpost); [by apply shape_take|done|].
    exists c, (take_descs [i0; i1; i2] s), s'. rewrite Hrun. by split_and!.
  - right. cbn [app] in *. eexists _, _. split; [|split; [|split; [|split; [reflexivity|]]]].
    + assert (shape (take_descs idx s)) as Hst by (by apply shape_take).
      pose proof (give_descs_rest idx (take_descs idx s)) as Hg. pose proof (take_descs_rest idx s) as Ht. cbv zeta in *.
      split; [by apply shape_give|]. destruct Hg as (-> & -> & -> & -> & -> & -> & -> & ->), Ht as (Hdesc & -> & -> & -> & -> & -> & -> & -> & ->).
      split_and!; try done. intros i Hdi Hfi. rewrite desc_at_give; try done; [unfold desc_at; by rewrite Hdesc|apply Hdi|].
      intros Hin. specialize (Hf i Hin). congruence.
    + intros i Hdi. rewrite free_at_give by (done || apply Hdi || by apply shape_take). rewrite free_at_take by (done || apply Hdi).
      case_decide as Hin; [symmetry; by apply Hf|done].
    + done.
    + intros ch Hin. cbn in Hin. rewrite app_nil_r in Hin. apply elem_of_replicate in Hin as [? _]. done.
Qed.

Lemma free_chain_step fuel i s : shape s -> is_desc i -> free_at s i = false ->
  free_chain (S fuel) i s =
    (let s' := set_free i true (set_desc i desc0 s) in
     if Z.land (d_flags (desc_at s i)) VRING_DESC_F_NEXT =? 0 then Ret tt s' [Wake ChDiskFree]
     else match free_chain fuel (d_next (desc_at s i)) s' with
          | Ret a s2 t => Ret a s2 (Wake ChDiskFree :: t)
          | Panic msg t => Panic msg (Wake ChDiskFree :: t)
          | Sleep c s2 t => Sleep c s2 (Wake ChDiskFree :: t)
          end).
Proof.
  intros Hs Hi Hf. cbn [free_chain]. unfold bind. cbn [gets]. unfold gets. rewrite free_desc_spec by done.
  destruct (Z.land _ _ =? 0); [done|]. by destruct (free_chain _ _ _).
Qed.

Definition wake3 : list event := replicate 3 (Wake ChDiskFree).

Lemma free_chain_spec c s : shape s -> good_idx c -> (forall i, i ∈ c_idx c -> free_at s i = false) ->
  desc_at s (c_i0 c) = desc_op (c_i0 c) (c_i1 c) -> desc_at s (c_i1 c) = desc_data (c_b c) (c_w c) (c_i2 c) ->
  desc_at s (c_i2 c) = desc_status (c_i0 c) ->
  free_chain (S (Z.to_nat NUM)) (c_i0 c) s = Ret tt (give_descs (c_idx c) s) wake3.
Proof.
  intros Hs Hg Hf D0 D1 D2. pose proof (good_idx_elim c Hg) as (H0 & H1 & H2 & N01 & N02 & N12).
  change (Z.to_nat NUM) with (S (S 6)).
  set (s1 := set_free (c_i0 c) true (set_desc (c_i0 c) desc0 s)).
  set (s2 := set_free (c_i1 c) true (set_desc (c_i1 c) desc0 s1)).
  assert (shape s1) as Hs1 by (by apply shape_set_free, shape_set_desc).
  assert (shape s2) as Hs2 by (by apply shape_set_free, shape_set_desc).
  assert (forall i, i ∈ [c_i1 c; c_i2 c] -> free_at s1 i = false /\ desc_at s1 i = desc_at s i) as F1.
  { intros i Hi. assert (i <> c_i0 c /\ 0 <= i) as [Hne Hp].
    { unfold is_desc in *. apply elem_of_cons in Hi as [->| ->%list_elem_of_singleton]; split; (done || lia). }
    unfold s1. rewrite free_at_set, decide_False by (done || by apply shape_set_desc). split; [apply Hf; by right|].
    change (desc_at (set_desc (c_i0 c) desc0 s) i = desc_at s i). by rewrite desc_at_set, decide_False. }
  rewrite free_chain_step by (done || (apply Hf; left)). fold s1. cbv zeta. rewrite D0. cbn [d_flags d_next desc_op].
  change (Z.land VRING_DESC_F_NEXT VRING_DESC_F_NEXT =? 0) with false. cbv iota.
  destruct (F1 (c_i1 c) ltac:(left)) as [F1a F1b]. destruct (F1 (c_i2 c) ltac:(right; left)) as [F2a F2b].
  rewrite free_chain_step by done. fold s2. cbv zeta. rewrite F1b, D1. cbn [d_flags d_next desc_data].
  replace (Z.land (Z.lor (if c_w c then 0 else VRING_DESC_F_WRITE) VRING_DESC_F_NEXT) VRING_DESC_F_NEXT =? 0) with false by by destruct (c_w c).
  assert (free_at s2 (c_i2 c) = false) as F3.
  { unfold s2. rewrite free_at_set, decide_False by (done || apply H2 || by apply shape_set_desc). done. }
  assert (desc_at s2 (c_i2 c) = desc_status (c_i0 c)) as D3.
  { change (desc_at (set_desc (c_i1 c) desc0 s1) (c_i2 c) = desc_status (c_i0 c)).
    rewrite desc_at_set, decide_False by (done || apply H2). by rewrite F2b. }
  rewrite free_chain_step by done. cbv zeta. rewrite D3. cbn [d_flags desc_status].
  change (Z.land VRING_DESC_F_WRITE VRING_DESC_F_NEXT =? 0) with true. cbv iota. done.
Qed.

Definition drop_buf (c : chain) s : disk := set_info (c_i0 c) (mkInfo None (status_at s (c_i0 c))) s.

Lemma rw_wait_spec c s : shape s -> good_idx c -> (forall i, i ∈ c_idx c -> free_at s i = false) -> formatted s c ->
  rw_wait c s = if vb_disk (v_buf s (c_b c)) then Sleep (ChBuf (c_b c)) s []
                else Ret tt (give_descs (c_idx c) (drop_buf c s)) wake3.
Proof.
  intros Hs Hg Hf (_ & D0 & D1 & D2 & _). unfold rw_wait, bind, gets. destruct (vb_disk _); [done|]. cbn [modify].
  unfold modify. fold (drop_buf c s). rewrite (free_chain_spec c); [done|by apply shape_set_info|done..].
Qed.

(** One completion, for a request that succeeded or failed. *)
Lemma intr_one_spec s h info : h = v_used s !!! Z.to_nat (v_used_idx s `mod` NUM) -> v_info s !! Z.to_nat h = Some info ->
  forall b, in_b info = Some b ->
  intr_one s = if in_status info =? 0
    then Ret tt (set_used_idx (u16 (v_used_idx s + 1)) (set_b_disk b false s)) [Wake (ChBuf b)]
    else Panic "virtio_disk_intr status" [].
Proof.
  intros -> Hinfo b Hb. unfold intr_one, bind, gets, id. rewrite Hinfo. destruct (in_status info =? 0); cbn [negb]; [|done].
  by rewrite Hb.
Qed.
End disk.
