(* ===== verification/VirtioSys.v ===== *)
(** * The disk driver: invariant of the system

    [own]: descriptors in use belong to exactly one request, which is laid out
    as the device expects.  [queue]: every request that the device has been
    told of is in exactly one place, on its way through the rings.  [sync]:
    the lock, and what sleeping processes wait for. *)
From S2P Require Import Prelude Params Ring Virtio VirtioInv.

Definition pc_chain (l : ppc) : option chain :=
  match l with PFormatted c | PWait c | PSleepBuf c | PWoken c => Some c | _ => None end.
(** The request is visible to the device. *)
Definition pc_pub (l : ppc) : option chain :=
  match l with PWait c | PSleepBuf c | PWoken c => Some c | _ => None end.
Definition pc_new (l : ppc) : option chain := match l with PFormatted c => Some c | _ => None end.

Definition avail_win (d : disk) (v : device) : list Z := window (v_avail d) (dv_seen v) (v_avail_idx d).
Definition used_win (d : disk) : list Z := window (v_used d) (v_used_idx d) (v_uidx d).
(** The requests the device or the interrupt handler still has to deal with. *)
Definition pend (d : disk) (v : device) : list Z := (avail_win d v ++ dv_busy v) ++ (dv_done v ++ used_win d).

Section inv.
Implicit Types (d : disk) (v : device) (f : nat -> ppc).

Record own d f : Prop := {
  ow_shape : shape d;
  ow_good : forall p c, pc_chain (f p) = Some c -> good_idx c /\ (forall i, i ∈ c_idx c -> free_at d i = false) /\ formatted d c;
  ow_disj : forall p q c c' i, pc_chain (f p) = Some c -> pc_chain (f q) = Some c' -> i ∈ c_idx c -> i ∈ c_idx c' -> p = q;
  ow_used : forall i, is_desc i -> free_at d i = false -> exists p c, pc_chain (f p) = Some c /\ i ∈ c_idx c;
  ow_buf : forall p q b, pc_buf (f p) = Some b -> pc_buf (f q) = Some b -> p = q;
  ow_bufs : forall b, length (vb_data (v_buf d b)) = Z.to_nat BSIZE /\ 0 <= vb_blockno (v_buf d b) < 2^31 }.

Record queue d v f : Prop := {
  qu_seen : 0 <= dv_seen v < 2^16;
  qu_nodup : NoDup (pend d v);
  qu_pend : forall h, h ∈ pend d v <-> exists p c, pc_pub (f p) = Some c /\ c_i0 c = h /\ vb_disk (v_buf d (c_b c)) = true;
  qu_new : forall p c, pc_new (f p) = Some c -> v_avail d !!! Z.to_nat (v_avail_idx d `mod` NUM) = c_i0 c /\
    vb_disk (v_buf d (c_b c)) = true /\ status_at d (c_i0 c) = 255;
  qu_wait : forall h, h ∈ avail_win d v ++ dv_busy v -> status_at d h = 255;
  qu_done : forall h, h ∈ dv_done v ++ used_win d -> status_at d h <> 255;
  qu_ok : forall p c, pc_pub (f p) = Some c -> vb_disk (v_buf d (c_b c)) = false -> status_at d (c_i0 c) = 0 }.

Record sync d (isr : bool) (lk : option actor) f : Prop := {
  sy_lock : forall p, lk = Some (AProc p) <-> holds (f p) = true;
  sy_buf : forall p c, f p = PSleepBuf c -> vb_disk (v_buf d (c_b c)) = true;
  sy_free : forall p b w, f p = PSleepFree b w -> (nfree d < 3)%nat;
  sy_isr : used_win d <> [] -> isr = true \/ lk = Some AIntr }.

(** ** Frames *)

Definition same_place (l l' : ppc) : Prop :=
  pc_chain l' = pc_chain l /\ pc_buf l' = pc_buf l /\ pc_pub l' = pc_pub l /\ pc_new l' = pc_new l /\ holds l' = holds l.

Lemma wake_same t l : same_place l (wake_pc t l).
Proof. unfold same_place, wake_pc. destruct l; try done; by case_decide. Qed.

Lemma own_ext d f f' : (forall q, pc_chain (f' q) = pc_chain (f q) /\ pc_buf (f' q) = pc_buf (f q)) -> own d f -> own d f'.
Proof.
  intros Hf [H1 H2 H3 H4 H5 H6]. split; try done.
  - intros p c. destruct (Hf p) as [-> _]. apply H2.
  - intros p q c c' i. destruct (Hf p) as [-> _], (Hf q) as [-> _]. apply H3.
  - intros i Hi Hu. destruct (H4 i Hi Hu) as (p & c & ? & ?). exists p, c. by destruct (Hf p) as [-> _].
  - intros p q b. destruct (Hf p) as [_ ->], (Hf q) as [_ ->]. apply H5.
Qed.

Lemma queue_ext d v f f' : (forall q, pc_pub (f' q) = pc_pub (f q) /\ pc_new (f' q) = pc_new (f q)) -> queue d v f -> queue d v f'.
Proof.
  intros Hf [H1 H2 H3 H4 H5 H6 H7]. split; try done.
  - intros h. rewrite H3. split; intros (p & c & ? & ?); exists p, c; destruct (Hf p) as [? _]; (split; [congruence|done]).
  - intros p c. destruct (Hf p) as [_ ->]. apply H4.
  - intros p c. destruct (Hf p) as [-> _]. apply H7.
Qed.

(** The driver's own structures are untouched. *)
Definition same_layout d d' : Prop :=
  shape d' /\ v_desc d' = v_desc d /\ v_free d' = v_free d /\ v_ops d' = v_ops d /\
  (forall i, 0 <= i -> in_b (info_at d' i) = in_b (info_at d i)) /\
  (forall b, vb_blockno (v_buf d' b) = vb_blockno (v_buf d b)) /\
  (forall b, length (vb_data (v_buf d' b)) = Z.to_nat BSIZE).

Lemma formatted_layout d d' c : same_layout d d' -> 0 <= c_i0 c -> formatted d c -> formatted d' c.
Proof.
  intros (_ & Hd & _ & Ho & Hi & Hb & _) Hc (F1 & F2 & F3 & F4 & F5). unfold formatted, desc_at, op_at in *.
  rewrite Hd, Ho, Hb, Hi by done. done.
Qed.

Lemma own_layout d d' f : same_layout d d' -> own d f -> own d' f.
Proof.
  intros Hl [H1 H2 H3 H4 H5 H6]. pose proof Hl as (Hs & Hd & Hf & Ho & Hi & Hb & Hdata).
  assert (forall i, free_at d' i = free_at d i) as Hfr by (intros; unfold free_at; by rewrite Hf).
  split; try done.
  - intros p c Hc. destruct (H2 p c Hc) as (Hg & Hfree & Hfmt). split; [done|]. split; [intros; rewrite Hfr; auto|].
    eapply formatted_layout; [done| |done]. by apply (good_idx_elim c Hg).
  - intros i Hdi. rewrite Hfr. by apply H4.
  - intros b. rewrite Hb. split; [done|]. apply H6.
Qed.

(** Heads of requests. *)
Lemma pub_chain l c : pc_pub l = Some c -> pc_chain l = Some c.
Proof. by destruct l. Qed.
Lemma new_chain l c : pc_new l = Some c -> pc_chain l = Some c.
Proof. by destruct l. Qed.
Lemma chain_buf l c : pc_chain l = Some c -> pc_buf l = Some (c_b c).
Proof. by destruct l; intros [= ->]. Qed.
Lemma head_in c : c_i0 c ∈ c_idx c.
Proof. left. Qed.

Lemma pend_desc d v f h : own d f -> queue d v f -> h ∈ pend d v -> is_desc h.
Proof.
  intros O Q (p & c & Hp & <- & _)%(qu_pend _ _ _ Q). destruct (ow_good _ _ O p c (pub_chain _ _ Hp)) as (Hg & _).
  by apply (good_idx_elim c Hg).
Qed.

Lemma pend_length d v f : own d f -> queue d v f -> Z.of_nat (length (pend d v)) <= NUM.
Proof. intros O Q. apply nodup_bound; [done|apply Q|]. intros x Hx. by eapply pend_desc. Qed.

Lemma length_pend d v : Z.of_nat (length (pend d v)) = Z.of_nat (length (avail_win d v)) + Z.of_nat (length (dv_busy v)) +
  Z.of_nat (length (dv_done v)) + Z.of_nat (length (used_win d)).
Proof. unfold pend. rewrite !length_app. lia. Qed.

(** The process whose request has head h. *)
Lemma head_owner d f p q c c' : own d f -> pc_chain (f p) = Some c -> pc_chain (f q) = Some c' -> c_i0 c = c_i0 c' -> p = q /\ c = c'.
Proof.
  intros O Hp Hq E. assert (p = q) as ->; [|by rewrite Hp in Hq; injection Hq].
  eapply (ow_disj _ _ O p q c c' (c_i0 c)); try done; [apply head_in|rewrite E; apply head_in].
Qed.

(** Process p moves to l' and the events of t wake others. *)
Definition moved f (p : nat) (l' : ppc) (t : list event) : nat -> ppc := upd p l' (fun q => wake_pc t (f q)).

Lemma moved_eq f p l' t : moved f p l' t p = l'.
Proof. unfold moved, upd. by rewrite decide_True. Qed.
Lemma moved_ne f p l' t q : q <> p -> moved f p l' t q = wake_pc t (f q).
Proof. intros. unfold moved, upd. by rewrite decide_False. Qed.
Lemma moved_same f p l' t q : q <> p -> same_place (f q) (moved f p l' t q).
Proof. intros. rewrite moved_ne by done. apply wake_same. Qed.
Lemma moved_place f p l' t : same_place (f p) l' -> forall q, same_place (f q) (moved f p l' t q).
Proof. intros Hp q. destruct (decide (q = p)) as [->|]; [by rewrite moved_eq|by apply moved_same]. Qed.

Lemma wake_sleepbuf t l c : wake_pc t l = PSleepBuf c -> l = PSleepBuf c /\ Wake (ChBuf (c_b c)) ∉ t.
Proof. destruct l; simpl; try done; case_decide; intros [=]; by subst. Qed.
Lemma wake_sleepfree t l b w : wake_pc t l = PSleepFree b w -> l = PSleepFree b w /\ Wake ChDiskFree ∉ t.
Proof. destruct l; simpl; try done; case_decide; intros [=]; by subst. Qed.

(** ** A request is laid out *)

Section start.
Context (d d' : disk) (v : device) (isr : bool) (f : nat -> ppc) (p : nat) (b : nat) (w : bool) (c : chain).
Context (O : own d f) (Q : queue d v f) (Y : sync d isr None f) (Hp : f p = PWant b w).
Context (Hb : c_b c = b) (Hg : good_idx c) (Hfree : forall i, i ∈ c_idx c -> free_at d i = true).
Context (F : after_format c (take_descs (c_idx c) d) d').
Let f' := moved f p (PFormatted c) [].

Lemma start_other q c' : pc_chain (f q) = Some c' -> q <> p /\ (forall i, i ∈ c_idx c' -> i ∉ c_idx c) /\ c_b c' <> c_b c.
Proof.
  intros Hq. assert (q <> p) as Hne by (intros ->; by rewrite Hp in Hq). split; [done|]. split.
  - intros i Hi Hi'. destruct (ow_good _ _ O q c' Hq) as (_ & Hf & _). specialize (Hf i Hi). rewrite Hfree in Hf by done. done.
  - intros E. apply Hne. apply (ow_buf _ _ O q p b); [by rewrite (chain_buf _ _ Hq), E, Hb|by rewrite Hp].
Qed.

Lemma start_free i : 0 <= i -> free_at d' i = if decide (i ∈ c_idx c) then false else free_at d i.
Proof.
  intros Hi. destruct F as (_ & _ & _ & _ & _ & _ & _ & _ & Hf & _). destruct Hg as [Hd _].
  assert (free_at d' i = free_at (take_descs (c_idx c) d) i) as -> by (unfold free_at; by rewrite Hf).
  apply free_at_take; [apply O|done|done].
Qed.

Lemma start_info i : 0 <= i -> i <> c_i0 c -> info_at d' i = info_at d i.
Proof.
  intros Hi Hn. destruct F as (_ & _ & _ & _ & _ & _ & _ & _ & _ & _ & Hr & _). destruct (Hr i Hi Hn) as [_ ->].
  pose proof (take_descs_rest (c_idx c) d) as (_ & _ & _ & _ & _ & _ & Hinf & _). unfold info_at. by rewrite Hinf.
Qed.

Lemma start_buf b' : v_buf d' b' = if decide (b' = c_b c) then mkVbuf true (vb_blockno (v_buf d b')) (vb_data (v_buf d b')) else v_buf d b'.
Proof.
  destruct F as (_ & _ & _ & _ & _ & _ & _ & _ & _ & _ & _ & Hbuf). rewrite Hbuf.
  pose proof (take_descs_rest (c_idx c) d) as (_ & _ & _ & _ & _ & _ & _ & _ & ->). done.
Qed.

Lemma start_own : own d' f'.
Proof.
  pose proof F as (Hs & Hfmt & _ & _ & _ & _ & _ & _ & _ & Hd & _ & _).
  pose proof (take_descs_rest (c_idx c) d) as (Td & _ & _ & _ & _ & _ & _ & To & Tb).
  assert (forall q c', pc_chain (f' q) = Some c' -> (q = p /\ c' = c) \/ (q <> p /\ pc_chain (f q) = Some c')) as Hch.
  { intros q c'. destruct (decide (q = p)) as [->|Hne]; unfold f'; [rewrite moved_eq; intros [= <-]; by left|].
    destruct (moved_same f p (PFormatted c) [] q Hne) as (-> & _). by right. }
  split; [done|..].
  - intros q c' [[-> ->]|[Hne Hq]]%Hch.
    + split; [done|]. split; [|done]. intros i Hi. destruct Hg as [Hdesc _]. rewrite Forall_forall in Hdesc.
      rewrite start_free by by apply Hdesc. by rewrite decide_True.
    + destruct (start_other q c' Hq) as (_ & Hdis & Hbn). destruct (ow_good _ _ O q c' Hq) as (Hg' & Hf & F1 & F2 & F3 & F4 & F5).
      pose proof Hg' as [Hdesc _]. rewrite Forall_forall in Hdesc.
      assert (forall i, i ∈ c_idx c' -> desc_at d' i = desc_at d i /\ op_at d' i = op_at d i) as Hsame.
      { intros i Hi. destruct (Hd i (proj1 (Hdesc i Hi)) (Hdis i Hi)) as [-> ->]. unfold desc_at, op_at. by rewrite Td, To. }
      split; [done|]. split.
      * intros i Hi. rewrite start_free by by apply Hdesc. rewrite decide_False by by apply Hdis. by apply Hf.
      * assert (c_i0 c' <> c_i0 c) as Hne0 by (intros E; apply (Hdis (c_i0 c') (head_in c')); rewrite E; apply head_in).
        unfold formatted. rewrite start_buf, decide_False by done. rewrite start_info by (done || apply Hdesc, head_in).
        destruct (Hsame (c_i0 c') (head_in c')) as [-> ->].
        destruct (Hsame (c_i1 c') ltac:(right; left)) as [-> _]. by destruct (Hsame (c_i2 c') ltac:(right; right; left)) as [-> _].
  - intros q q' c1 c2 i [[-> ->]|[_ H1]]%Hch [[-> ->]|[_ H2]]%Hch Hi1 Hi2; [done| | |by eapply (ow_disj _ _ O)].
    + exfalso. destruct (start_other _ _ H2) as (_ & Hdis & _). by apply (Hdis i).
    + exfalso. destruct (start_other _ _ H1) as (_ & Hdis & _). by apply (Hdis i).
  - intros i Hi. rewrite start_free by apply Hi. case_decide as Hin.
    + intros _. exists p, c. unfold f'. by rewrite moved_eq.
    + intros Hu. destruct (ow_used _ _ O i Hi Hu) as (q & c' & Hq & Hiq). exists q, c'. split; [|done].
      destruct (start_other q c' Hq) as (Hne & _). unfold f'. by destruct (moved_same f p (PFormatted c) [] q Hne) as (-> & _).
  - intros q q' b'. assert (forall q, pc_buf (f' q) = pc_buf (f q)) as Hbf; [|rewrite !Hbf; apply O].
    intros q0. unfold f'. destruct (decide (q0 = p)) as [->|Hne]; [rewrite moved_eq, Hp; simpl; by rewrite Hb|].
    by destruct (moved_same f p (PFormatted c) [] q0 Hne) as (_ & -> & _).
  - intros b'. rewrite start_buf. destruct (ow_bufs _ _ O b'). by case_decide.
Qed.

Lemma start_fresh h : h ∈ pend d v -> 0 <= h /\ h <> c_i0 c.
Proof.
  intros Hh. split; [by apply (pend_desc d v f h O Q Hh)|]. intros ->. apply (qu_pend _ _ _ Q) in Hh as (q & c' & Hq & E & _).
  destruct (start_other q c' (pub_chain _ _ Hq)) as (_ & Hdis & _). apply (Hdis (c_i0 c')); [apply head_in|]. rewrite E. apply head_in.
Qed.

Lemma start_room : Z.of_nat (length (pend d v)) < NUM.
Proof.
  assert (Z.of_nat (length (c_i0 c :: pend d v)) <= NUM); [|cbn [length] in *; lia]. apply nodup_bound; [done| |].
  - apply NoDup_cons. split; [|apply Q]. intros Hh. by destruct (start_fresh _ Hh).
  - intros x [->|Hx]%elem_of_cons; [by apply (good_idx_elim c Hg)|by eapply pend_desc].
Qed.

Lemma start_wins : avail_win d' v = avail_win d v /\ used_win d' = used_win d.
Proof.
  pose proof F as (_ & _ & _ & Ha & Hai & Hui & Hu & Hud & _).
  pose proof (take_descs_rest (c_idx c) d) as (_ & Tai & Ta & Tui & Tu & Tud & _).
  unfold avail_win, used_win. rewrite Ha, Hai, Hui, Hu, Hud, Tai, Ta, Tui, Tu, Tud. split; [|done].
  apply window_write; [apply O|]. rewrite <- (length_window (v_avail d)). fold (avail_win d v).
  pose proof start_room as Hr. rewrite length_pend in Hr. lia.
Qed.

Lemma start_queue : queue d' v f'.
Proof.
  pose proof start_wins as [Hwa Hwu]. assert (pend d' v = pend d v) as Hpend by (unfold pend; by rewrite Hwa, Hwu).
  assert (forall q, pc_pub (f' q) = pc_pub (f q)) as Hpub.
  { intros q. unfold f'. destruct (decide (q = p)) as [->|Hne]; [by rewrite moved_eq, Hp|].
    by destruct (moved_same f p (PFormatted c) [] q Hne) as (_ & _ & -> & _). }
  assert (forall q c', pc_pub (f q) = Some c' -> v_buf d' (c_b c') = v_buf d (c_b c') /\ 0 <= c_i0 c' /\ c_i0 c' <> c_i0 c) as Hold.
  { intros q c' Hq. pose proof (pub_chain _ _ Hq) as Hc. destruct (start_other q c' Hc) as (_ & Hdis & Hne).
    rewrite start_buf, decide_False by done. split; [done|]. destruct (ow_good _ _ O q c' Hc) as (Hg' & _).
    split; [apply (good_idx_elim c' Hg')|]. intros E. apply (Hdis (c_i0 c')); [apply head_in|rewrite E; apply head_in]. }
  assert (forall h, h ∈ pend d v -> status_at d' h = status_at d h) as Hst.
  { intros h Hh. destruct (start_fresh h Hh). unfold status_at. by rewrite start_info. }
  split; rewrite ?Hpend, ?Hwa, ?Hwu; try apply Q.
  - intros h. rewrite (qu_pend _ _ _ Q). split; intros (q & c' & Hq & E & Hd); exists q, c'; rewrite Hpub in *;
      (split; [done|]; split; [done|]); destruct (Hold q c' Hq) as [Eb _]; congruence.
  - intros q c' Hq. assert (q = p) as ->.
    { destruct (decide (q = p)) as [|Hne]; [done|]. exfalso. unfold f' in Hq.
      destruct (moved_same f p (PFormatted c) [] q Hne) as (_ & _ & _ & Hn & _). rewrite Hn in Hq.
      destruct (f q) eqn:E; try done. pose proof (proj2 (sy_lock _ _ _ _ Y q)) as Hl. by rewrite E in Hl; discriminate Hl. }
    unfold f' in Hq. rewrite moved_eq in Hq. injection Hq as <-. pose proof F as (_ & _ & Hs255 & Ha & Hai & _).
    pose proof (take_descs_rest (c_idx c) d) as (_ & Tai & Ta & _). rewrite Ha, Hai, Tai, Ta. split.
    + apply list_lookup_total_insert_eq. pose proof (ring_slot NUM NUM_pos (v_avail_idx d)).
      destruct (ow_shape _ _ O) as (_ & Hl & _). lia.
    + rewrite start_buf, decide_True by done. done.
  - intros h Hh. rewrite Hst; [by apply Q|]. unfold pend. apply elem_of_app. by left.
  - intros h Hh. rewrite Hst; [by apply Q|]. unfold pend. apply elem_of_app. by right.
  - intros q c'. rewrite Hpub. intros Hq. destruct (Hold q c' Hq) as (-> & H0 & Hne). intros Hd.
    unfold status_at. rewrite start_info by done. by apply (qu_ok _ _ _ Q q).
Qed.

Lemma start_sync : sync d' isr (Some (AProc p)) f'.
Proof.
  pose proof start_wins as [_ Hwu]. split.
  - intros q. unfold f'. destruct (decide (q = p)) as [->|Hne]; [by rewrite moved_eq|].
    destruct (moved_same f p (PFormatted c) [] q Hne) as (_ & _ & _ & _ & ->). pose proof (sy_lock _ _ _ _ Y q) as Hl.
    destruct (holds (f q)); [by discriminate (proj2 Hl eq_refl)|]. split; [congruence|done].
  - intros q c'. unfold f'. destruct (decide (q = p)) as [->|Hne]; [by rewrite moved_eq|]. rewrite moved_ne by done.
    intros [Hq _]%wake_sleepbuf. destruct (start_other q c') as (_ & _ & Hnb); [by rewrite Hq|].
    rewrite start_buf, decide_False by done. by apply (sy_buf _ _ _ _ Y q).
  - intros q b' w'. unfold f'. destruct (decide (q = p)) as [->|Hne]; [by rewrite moved_eq|]. rewrite moved_ne by done.
    intros [Hq _]%wake_sleepfree. pose proof (sy_free _ _ _ _ Y q b' w' Hq) as Hn.
    destruct Hg as [Hd Hnd]. pose proof (nfree_take (c_idx c) d (ow_shape _ _ O) Hd Hnd Hfree) as Ht.
    destruct F as (_ & _ & _ & _ & _ & _ & _ & _ & Hf & _). unfold nfree in *. rewrite Hf. lia.
  - rewrite Hwu. intros Hu. destruct (sy_isr _ _ _ _ Y Hu); [by left|done].
Qed.
End start.

(** Nobody else holds the lock. *)
Lemma lock_other d isr lk f p q : sync d isr lk f -> lk = (if holds (f p) then Some (AProc p) else None) -> q <> p -> holds (f q) = false.
Proof.
  intros Y Hlk Hne. pose proof (sy_lock _ _ _ _ Y q) as Hq. destruct (holds (f q)); [|done].
  rewrite (proj2 Hq eq_refl) in Hlk. destruct (holds (f p)); congruence.
Qed.
Lemma lock_new d isr lk f p q c : sync d isr lk f -> lk = (if holds (f p) then Some (AProc p) else None) -> pc_new (f q) = Some c -> q = p.
Proof.
  intros Y Hlk Hq. destruct (decide (q = p)) as [|Hne]; [done|]. pose proof (lock_other _ _ _ _ p q Y Hlk Hne). by destruct (f q).
Qed.
Lemma lock_isr d isr lk f p : sync d isr lk f -> lk = (if holds (f p) then Some (AProc p) else None) -> used_win d <> [] -> isr = true.
Proof. intros Y Hlk Hu. destruct (sy_isr _ _ _ _ Y Hu) as [|E]; [done|]. rewrite E in Hlk. by destruct (holds (f p)). Qed.

(** ** A request is published *)

Section publish.
Context (d : disk) (v : device) (isr : bool) (lk : option actor) (f : nat -> ppc) (p : nat) (c : chain).
Context (O : own d f) (Q : queue d v f) (Y : sync d isr lk f) (Hp : f p = PFormatted c).
Context (Hlk : lk = (if holds (f p) then Some (AProc p) else None)).
Let d' := set_avail_idx (u16 (v_avail_idx d + 1)) d.
Let f' := moved f p (PWait c) [].

Lemma publish_own : own d' f'.
Proof.
  apply own_ext with f; [|apply (own_layout d); [|done]].
  - intros q. unfold f'. destruct (decide (q = p)) as [->|Hne]; [by rewrite moved_eq, Hp|].
    by destruct (moved_same f p (PWait c) [] q Hne) as (-> & -> & _).
  - split; [apply shape_set_idx, O|]. split_and!; try done. apply (ow_bufs _ _ O).
Qed.

Lemma publish_fresh : c_i0 c ∉ pend d v.
Proof.
  intros (q & c' & Hq & E & _)%(qu_pend _ _ _ Q). destruct (head_owner d f q p c' c O (pub_chain _ _ Hq)) as [-> _]; [by rewrite Hp|done|].
  by rewrite Hp in Hq.
Qed.

Lemma publish_win : avail_win d' v = avail_win d v ++ [c_i0 c].
Proof.
  unfold avail_win. cbn. rewrite window_grow.
  - destruct (qu_new _ _ _ Q p c) as [-> _]; [by rewrite Hp|done].
  - pose proof (pend_length d v f O Q) as Hl. rewrite length_pend in Hl. unfold avail_win in Hl. rewrite length_window in Hl.
    unfold NUM in Hl. lia.
Qed.

Lemma publish_queue : queue d' v f'.
Proof.
  destruct (qu_new _ _ _ Q p c) as (_ & Hdisk & H255); [by rewrite Hp|]. pose proof publish_win as Hwa.
  assert (forall h, h ∈ pend d' v <-> h = c_i0 c \/ h ∈ pend d v) as Hpend.
  { intros h. unfold pend. rewrite Hwa. change (used_win d') with (used_win d). rewrite !elem_of_app, list_elem_of_singleton. tauto. }
  assert (forall q, q <> p -> pc_pub (f' q) = pc_pub (f q) /\ pc_new (f' q) = pc_new (f q)) as Hoth.
  { intros q Hne. unfold f'. by destruct (moved_same f p (PWait c) [] q Hne) as (_ & _ & -> & -> & _). }
  split; [apply Q|..].
  - unfold pend. rewrite Hwa. change (used_win d') with (used_win d).
    assert (((avail_win d v ++ [c_i0 c]) ++ dv_busy v) ++ dv_done v ++ used_win d ≡ₚ c_i0 c :: pend d v) as ->
      by (unfold pend; solve_Permutation). apply NoDup_cons. split; [apply publish_fresh|apply Q].
  - intros h. rewrite Hpend, (qu_pend _ _ _ Q). split.
    + intros [->|(q & c' & Hq & E)]; [exists p, c; unfold f'; by rewrite moved_eq|].
      exists q, c'. destruct (Hoth q) as [-> _]; [intros ->; by rewrite Hp in Hq|done].
    + intros (q & c' & Hq & E & Hd). destruct (decide (q = p)) as [->|Hne].
      * left. unfold f' in Hq. rewrite moved_eq in Hq. by injection Hq as <-.
      * right. exists q, c'. by destruct (Hoth q Hne) as [<- _].
  - intros q c' Hq. exfalso. destruct (decide (q = p)) as [->|Hne]; [unfold f' in Hq; by rewrite moved_eq in Hq|].
    apply Hne. destruct (Hoth q Hne) as [_ E]. rewrite E in Hq. by eapply lock_new.
  - intros h. rewrite Hwa, <- app_assoc, !elem_of_app, list_elem_of_singleton. intros [Hh|[->|Hh]]; [|done|];
      apply (qu_wait _ _ _ Q), elem_of_app; tauto.
  - apply (qu_done _ _ _ Q).
  - intros q c' Hq Hd. destruct (decide (q = p)) as [->|Hne].
    + unfold f' in Hq. rewrite moved_eq in Hq. injection Hq as <-. change (vb_disk (v_buf d (c_b c)) = false) in Hd. congruence.
    + destruct (Hoth q Hne) as [E _]. rewrite E in Hq. by apply (qu_ok _ _ _ Q q).
Qed.

Lemma publish_sync : sync d' isr (Some (AProc p)) f'.
Proof.
  split.
  - intros q. unfold f'. destruct (decide (q = p)) as [->|Hne]; [by rewrite moved_eq|].
    destruct (moved_same f p (PWait c) [] q Hne) as (_ & _ & _ & _ & ->). rewrite (lock_other d isr lk f p q Y Hlk Hne).
    split; [congruence|done].
  - intros q c'. unfold f'. destruct (decide (q = p)) as [->|Hne]; [by rewrite moved_eq|]. rewrite moved_ne by done.
    intros [Hq _]%wake_sleepbuf. by apply (sy_buf _ _ _ _ Y q).
  - intros q b w. unfold f'. destruct (decide (q = p)) as [->|Hne]; [by rewrite moved_eq|]. rewrite moved_ne by done.
    intros [Hq _]%wake_sleepfree. by apply (sy_free _ _ _ _ Y q b w).
  - intros Hu. left. by eapply lock_isr.
Qed.
End publish.

(** ** A process sleeps until its request is done *)

Section wait.
Context (d : disk) (v : device) (isr : bool) (lk : option actor) (f : nat -> ppc) (p : nat) (c : chain).
Context (O : own d f) (Q : queue d v f) (Y : sync d isr lk f) (Hp : f p = PWait c \/ f p = PWoken c).
Context (Hlk : lk = (if holds (f p) then Some (AProc p) else None)).

Lemma wait_place l' : pc_chain l' = Some c -> pc_pub l' = Some c -> pc_buf l' = Some (c_b c) -> pc_new l' = None ->
  forall t q, pc_chain (moved f p l' t q) = pc_chain (f q) /\ pc_buf (moved f p l' t q) = pc_buf (f q) /\
    pc_pub (moved f p l' t q) = pc_pub (f q) /\ pc_new (moved f p l' t q) = pc_new (f q).
Proof.
  intros E1 E2 E3 E4 t q. destruct (decide (q = p)) as [->|Hne].
  - rewrite moved_eq, E1, E2, E3, E4. by destruct Hp as [-> | ->].
  - by destruct (moved_same f p l' t q Hne) as (-> & -> & -> & -> & _).
Qed.

Lemma sleep_own : own d (moved f p (PSleepBuf c) []).
Proof. eapply own_ext; [|done]. intros q. by destruct (wait_place (PSleepBuf c) eq_refl eq_refl eq_refl eq_refl [] q) as (-> & -> & _). Qed.
Lemma sleep_queue : queue d v (moved f p (PSleepBuf c) []).
Proof. eapply queue_ext; [|done]. intros q. by destruct (wait_place (PSleepBuf c) eq_refl eq_refl eq_refl eq_refl [] q) as (_ & _ & -> & ->). Qed.

Lemma unlock_sync l' t q : holds l' = false -> holds (moved f p l' t q) = false.
Proof.
  intros Hl. destruct (decide (q = p)) as [->|Hne]; [by rewrite moved_eq|].
  destruct (moved_same f p l' t q Hne) as (_ & _ & _ & _ & ->). by eapply lock_other.
Qed.

Lemma sleep_sync : vb_disk (v_buf d (c_b c)) = true -> sync d isr None (moved f p (PSleepBuf c) []).
Proof.
  intros Hd. split.
  - intros q. by rewrite (unlock_sync (PSleepBuf c)).
  - intros q c'. destruct (decide (q = p)) as [->|Hne]; [rewrite moved_eq; by intros [= <-]|]. rewrite moved_ne by done.
    intros [Hq _]%wake_sleepbuf. by apply (sy_buf _ _ _ _ Y q).
  - intros q b w. destruct (decide (q = p)) as [->|Hne]; [by rewrite moved_eq|]. rewrite moved_ne by done.
    intros [Hq _]%wake_sleepfree. by apply (sy_free _ _ _ _ Y q b w).
  - intros Hu. left. by eapply lock_isr.
Qed.

(** ** A request is over *)

Let d' := give_descs (c_idx c) (drop_buf c d).
Let f' := moved f p PIdle wake3.

Lemma wait_chain : pc_chain (f p) = Some c /\ pc_pub (f p) = Some c.
Proof. by destruct Hp as [-> | ->]. Qed.

Lemma finish_info i : 0 <= i -> i <> c_i0 c -> info_at d' i = info_at d i.
Proof.
  intros Hi Hne. unfold d'. pose proof (give_descs_rest (c_idx c) (drop_buf c d)) as (_ & _ & _ & _ & _ & Hinf & _).
  unfold info_at at 1. rewrite Hinf. fold (info_at (drop_buf c d) i). unfold drop_buf.
  destruct (ow_good _ _ O p c (proj1 wait_chain)) as (Hg & _).
  rewrite info_at_set, decide_False; [done|done|apply O|by apply (good_idx_elim c Hg)|done].
Qed.
Lemma finish_status i : 0 <= i -> status_at d' i = status_at d i.
Proof.
  intros Hi. destruct (decide (i = c_i0 c)) as [->|Hne]; [|unfold status_at; by rewrite finish_info].
  pose proof (give_descs_rest (c_idx c) (drop_buf c d)) as (_ & _ & _ & _ & _ & Hinf & _).
  unfold status_at at 1, info_at. unfold d'. rewrite Hinf. fold (info_at (drop_buf c d) (c_i0 c)). unfold drop_buf.
  destruct (ow_good _ _ O p c (proj1 wait_chain)) as (Hg & _).
  rewrite info_at_set, decide_True; [done|done|apply O|by apply (good_idx_elim c Hg)|done].
Qed.

Lemma finish_own : own d' f'.
Proof.
  destruct wait_chain as [Hc _]. destruct (ow_good _ _ O p c Hc) as (Hg & Hf & _). pose proof Hg as [Hdesc _].
  pose proof (give_descs_rest (c_idx c) (drop_buf c d)) as (_ & _ & _ & _ & _ & _ & Hops & Hbuf).
  assert (shape (drop_buf c d)) as Hs by apply shape_set_info, O.
  assert (forall q c', pc_chain (f' q) = Some c' -> q <> p /\ pc_chain (f q) = Some c') as Hch.
  { intros q c'. unfold f'. destruct (decide (q = p)) as [->|Hne]; [by rewrite moved_eq|].
    by destruct (moved_same f p PIdle wake3 q Hne) as (-> & _). }
  assert (forall i, 0 <= i -> free_at d' i = if decide (i ∈ c_idx c) then true else free_at d i) as Hfree
    by (intros i Hi; unfold d'; by rewrite free_at_give).
  assert (forall q c' i, q <> p -> pc_chain (f q) = Some c' -> i ∈ c_idx c' -> i ∉ c_idx c) as Hdis.
  { intros q c' i Hne Hq Hi Hi'. apply Hne. by apply (ow_disj _ _ O q p c' c i). }
  split; [by apply shape_give| | | | |].
  - intros q c' [Hne Hq]%Hch. destruct (ow_good _ _ O q c' Hq) as (Hg' & Hf' & F1 & F2 & F3 & F4 & F5).
    pose proof Hg' as [Hdesc' _]. rewrite Forall_forall in Hdesc'. split; [done|]. split.
    + intros i Hi. rewrite Hfree by by apply Hdesc'. rewrite decide_False by by eapply Hdis. by apply Hf'.
    + assert (forall i, i ∈ c_idx c' -> desc_at d' i = desc_at d i) as Hsame.
      { intros i Hi. unfold d'. rewrite desc_at_give; [done|done|done|by apply Hdesc'|by eapply Hdis]. }
      unfold formatted. unfold op_at, d'. rewrite Hops, Hbuf. fold d'.
      rewrite (Hsame (c_i0 c')), (Hsame (c_i1 c')), (Hsame (c_i2 c')) by (unfold c_idx; rewrite !elem_of_cons; tauto).
      rewrite finish_info; [done|by apply Hdesc', head_in|]. intros E. apply (Hdis q c' (c_i0 c') Hne Hq (head_in c')). rewrite E. apply head_in.
  - intros q q' c1 c2 i [_ H1]%Hch [_ H2]%Hch. by apply (ow_disj _ _ O).
  - intros i Hi. rewrite Hfree by apply Hi. case_decide as Hin; [done|]. intros Hu.
    destruct (ow_used _ _ O i Hi Hu) as (q & c' & Hq & Hiq). exists q, c'. split; [|done].
    assert (q <> p) as Hne by (intros ->; congruence). unfold f'. by destruct (moved_same f p PIdle wake3 q Hne) as (-> & _).
  - assert (forall q b, pc_buf (f' q) = Some b -> pc_buf (f q) = Some b) as Hb.
    { intros q b. unfold f'. destruct (decide (q = p)) as [->|Hne]; [by rewrite moved_eq|].
      by destruct (moved_same f p PIdle wake3 q Hne) as (_ & -> & _). }
    intros q q' b H1%Hb H2%Hb. by apply (ow_buf _ _ O q q' b).
  - intros b. unfold d'. rewrite Hbuf. apply (ow_bufs _ _ O).
Qed.

Lemma finish_queue : vb_disk (v_buf d (c_b c)) = false -> queue d' v f'.
Proof.
  intros Hd. destruct wait_chain as [Hc Hpub].
  pose proof (give_descs_rest (c_idx c) (drop_buf c d)) as (Ha & Hai & Hu & Hud & Huid & _ & _ & Hbuf).
  assert (avail_win d' v = avail_win d v /\ used_win d' = used_win d) as [Hwa Hwu].
  { unfold avail_win, used_win, d'. by rewrite Ha, Hai, Hu, Hud, Huid. }
  assert (forall q c', pc_pub (f' q) = Some c' <-> q <> p /\ pc_pub (f q) = Some c') as Hp'.
  { intros q c'. unfold f'. destruct (decide (q = p)) as [->|Hne]; [rewrite moved_eq; naive_solver|].
    destruct (moved_same f p PIdle wake3 q Hne) as (_ & _ & -> & _). naive_solver. }
  assert (pend d' v = pend d v) as Hpend by (unfold pend; by rewrite Hwa, Hwu).
  assert (v_buf d' = v_buf d) as Hb by (unfold d'; by rewrite Hbuf).
  split; rewrite ?Hpend, ?Hwa, ?Hwu; try apply Q.
  - intros h. rewrite (qu_pend _ _ _ Q), Hb. split; intros (q & c' & Hq & E & Hdk); exists q, c'.
    + split; [|done]. apply Hp'. split; [|done]. intros ->. congruence.
    + apply Hp' in Hq as [_ Hq]. done.
  - intros q c' Hq. exfalso. destruct (decide (q = p)) as [->|Hne]; [unfold f' in Hq; by rewrite moved_eq in Hq|].
    unfold f' in Hq. destruct (moved_same f p PIdle wake3 q Hne) as (_ & _ & _ & E & _). rewrite E in Hq.
    apply Hne. by eapply lock_new.
  - intros h Hh. rewrite finish_status; [by apply (qu_wait _ _ _ Q)|]. apply (pend_desc d v f h O Q). unfold pend. apply elem_of_app. by left.
  - intros h Hh. rewrite finish_status; [by apply (qu_done _ _ _ Q)|]. apply (pend_desc d v f h O Q). unfold pend. apply elem_of_app. by right.
  - intros q c' [_ Hq]%Hp'. rewrite Hb. intros Hdk. rewrite finish_status; [by apply (qu_ok _ _ _ Q q)|].
    destruct (ow_good _ _ O q c' (pub_chain _ _ Hq)) as (Hg' & _). by apply (good_idx_elim c' Hg').
Qed.

Lemma finish_sync : sync d' isr None f'.
Proof.
  pose proof (give_descs_rest (c_idx c) (drop_buf c d)) as (_ & _ & Hu & Hud & Huid & _ & _ & Hbuf). split.
  - intros q. unfold f'. by rewrite (unlock_sync PIdle).
  - intros q c'. unfold f'. destruct (decide (q = p)) as [->|Hne]; [by rewrite moved_eq|]. rewrite moved_ne by done.
    intros [Hq _]%wake_sleepbuf. unfold d'. rewrite Hbuf. by apply (sy_buf _ _ _ _ Y q).
  - intros q b w. unfold f'. destruct (decide (q = p)) as [->|Hne]; [by rewrite moved_eq|]. rewrite moved_ne by done.
    intros [Hq Hn]%wake_sleepfree. destruct Hn. left.
  - unfold used_win, d'. rewrite Hu, Hud, Huid. intros Hne. left. by eapply lock_isr.
Qed.
End wait.

(** ** No three descriptors: the process sleeps *)

Section full.
Context (d d' : disk) (v : device) (isr : bool) (lk : option actor) (f : nat -> ppc) (p : nat) (b : nat) (w : bool) (t : list event).
Context (O : own d f) (Q : queue d v f) (Y : sync d isr lk f) (Hp : f p = PWant b w).
Context (Hlk : lk = (if holds (f p) then Some (AProc p) else None)).
Context (D : only_descs d d') (Hfree : forall i, is_desc i -> free_at d' i = free_at d i) (Hn : (nfree d < 3)%nat).
Let f' := moved f p (PSleepFree b w) t.

Lemma full_place q : same_place (f q) (f' q).
Proof. apply moved_place. by rewrite Hp. Qed.

Lemma full_free : v_free d' = v_free d.
Proof.
  destruct D as (Hs' & _). pose proof (ow_shape _ _ O) as Hs.
  assert (length (v_free d) = Z.to_nat NUM /\ length (v_free d') = Z.to_nat NUM) as [Hl Hl'].
  { destruct Hs as (_ & _ & _ & ? & _), Hs' as (_ & _ & _ & ? & _). done. }
  apply list_eq_same_length with (Z.to_nat NUM); [done|done|]. intros i x y Hi Hx Hy.
  assert (is_desc (Z.of_nat i)) as Hdi by (unfold is_desc; lia). specialize (Hfree _ Hdi). unfold free_at in Hfree.
  rewrite Nat2Z.id in Hfree. apply list_lookup_total_correct in Hx, Hy. congruence.
Qed.

Lemma full_own : own d' f'.
Proof.
  apply own_ext with f; [intros q; by destruct (full_place q) as (-> & -> & _)|].
  destruct D as (Hs & _ & _ & _ & _ & _ & Hi & Ho & Hb & Hd). pose proof full_free as Hf. split; [done| | | | |].
  - intros q c Hq. destruct (ow_good _ _ O q c Hq) as (Hg & Hfr & F1 & F2 & F3 & F4 & F5). split; [done|].
    split; [intros i Hi'; unfold free_at; rewrite Hf; by apply Hfr|]. pose proof (good_idx_elim c Hg) as (? & ? & ? & _).
    unfold formatted. unfold op_at, info_at. rewrite Ho, Hi, Hb, !Hd; try done; apply Hfr; unfold c_idx; rewrite !elem_of_cons; tauto.
  - apply O.
  - intros i Hi'. unfold free_at. rewrite Hf. by apply (ow_used _ _ O).
  - apply O.
  - intros b'. rewrite Hb. apply O.
Qed.

Lemma full_queue : queue d' v f'.
Proof.
  apply queue_ext with f; [intros q; by destruct (full_place q) as (_ & _ & -> & -> & _)|].
  destruct D as (_ & Hai & Ha & Hui & Hu & Hud & Hi & _ & Hb & _).
  assert (avail_win d' v = avail_win d v /\ used_win d' = used_win d) as [Hwa Hwu]
    by (unfold avail_win, used_win; by rewrite Hai, Ha, Hui, Hu, Hud).
  assert (forall h, status_at d' h = status_at d h) as Hst by (intros; unfold status_at, info_at; by rewrite Hi).
  destruct Q as [Q1 Q2 Q3 Q4 Q5 Q6 Q7].
  split; unfold pend; rewrite ?Hwa, ?Hwu; try done.
  - intros h. rewrite Hb. apply Q3.
  - intros q c Hq. rewrite Ha, Hai, Hb, Hst. by apply (Q4 q).
  - intros h. rewrite Hst. apply Q5.
  - intros h. rewrite Hst. apply Q6.
  - intros q c. rewrite Hb, Hst. apply Q7.
Qed.

Lemma full_sync : sync d' isr None f'.
Proof.
  destruct D as (_ & _ & _ & Hui & Hu & Hud & _ & _ & Hb & _). pose proof full_free as Hf. split.
  - intros q. destruct (full_place q) as (_ & _ & _ & _ & ->). destruct (decide (q = p)) as [->|Hne]; [by rewrite Hp|].
    by rewrite (lock_other d isr lk f p q Y Hlk Hne).
  - intros q c. unfold f'. destruct (decide (q = p)) as [->|Hne]; [by rewrite moved_eq|]. rewrite moved_ne by done.
    intros [Hq _]%wake_sleepbuf. rewrite Hb. by apply (sy_buf _ _ _ _ Y q).
  - intros q b' w' _. unfold nfree in *. by rewrite Hf.
  - unfold used_win. rewrite Hui, Hu, Hud. intros Hne. left. by eapply lock_isr.
Qed.
End full.

(** ** The interrupt handler *)

Section intr.
Context (d : disk) (v : device) (isr : bool) (f : nat -> ppc).
Context (O : own d f) (Q : queue d v f) (Y : sync d isr (Some AIntr) f).
Context (Hne : v_used_idx d <> v_uidx d).
Let h := v_used d !!! Z.to_nat (v_used_idx d `mod` NUM).

Lemma intr_win : used_win d = h :: window (v_used d) (u16 (v_used_idx d + 1)) (v_uidx d).
Proof.
  destruct (ow_shape _ _ O) as (_ & _ & _ & _ & _ & _ & _ & ? & ?). by apply window_pop.
Qed.

Lemma intr_pend : h ∈ pend d v.
Proof. unfold pend. rewrite intr_win, !elem_of_app. right. right. left. Qed.

Lemma intr_owner : exists p c, pc_pub (f p) = Some c /\ c_i0 c = h /\ is_desc h /\ vb_disk (v_buf d (c_b c)) = true /\
  v_info d !! Z.to_nat h = Some (info_at d h) /\ in_b (info_at d h) = Some (c_b c).
Proof.
  pose proof intr_pend as (p & c & Hp & E & Hd)%(qu_pend _ _ _ Q). exists p, c. split; [done|]. split; [done|].
  assert (is_desc h) as Hdi by (by eapply pend_desc, intr_pend). split; [done|]. split; [done|]. split.
  - apply list_lookup_lookup_total_lt. destruct (ow_shape _ _ O) as (_ & _ & _ & _ & Hl & _). unfold is_desc in Hdi. lia.
  - destruct (ow_good _ _ O p c (pub_chain _ _ Hp)) as (_ & _ & _ & _ & _ & _ & F5). by rewrite <- E.
Qed.

Context (p : nat) (c : chain) (Hp : pc_pub (f p) = Some c) (Hh : c_i0 c = h) (H0 : status_at d h = 0).
Let d' := set_used_idx (u16 (v_used_idx d + 1)) (set_b_disk (c_b c) false d).
Let f' := fun q => wake_pc [Wake (ChBuf (c_b c))] (f q).

Lemma intr_buf b : v_buf d' b = if decide (b = c_b c) then mkVbuf false (vb_blockno (v_buf d b)) (vb_data (v_buf d b)) else v_buf d b.
Proof. unfold d'. cbn. unfold upd. by destruct (decide (b = c_b c)) as [->|]. Qed.

Lemma intr_own : own d' f'.
Proof.
  apply own_ext with f; [intros q; by destruct (wake_same [Wake (ChBuf (c_b c))] (f q)) as (E1 & E2 & _)|].
  apply (own_layout d); [|done]. split; [apply shape_set_idx; exact (ow_shape _ _ O)|]. split_and!; try done.
  - intros b. rewrite intr_buf. by case_decide.
  - intros b. rewrite intr_buf. case_decide; apply (ow_bufs _ _ O b).
Qed.

(** Another process uses another buffer. *)
Lemma intr_other q c' : pc_chain (f q) = Some c' -> c_b c' = c_b c -> q = p /\ c' = c.
Proof.
  intros Hq E. assert (q = p) as ->; [|rewrite (pub_chain _ _ Hp) in Hq; by injection Hq].
  apply (ow_buf _ _ O q p (c_b c)); [by rewrite (chain_buf _ _ Hq), E|by apply chain_buf, pub_chain].
Qed.

Lemma intr_queue : queue d' v f'.
Proof.
  apply queue_ext with f; [intros q; by destruct (wake_same [Wake (ChBuf (c_b c))] (f q)) as (_ & _ & E1 & E2 & _)|].
  pose proof (qu_nodup _ _ _ Q) as Hnd. pose proof intr_win as Hw. set (u := window _ _ _) in Hw.
  assert (used_win d' = u) as Hwu by done. assert (avail_win d' v = avail_win d v) as Hwa by done.
  assert (pend d v ≡ₚ h :: pend d' v) as Hperm. { unfold pend. rewrite Hwu, Hwa, Hw. solve_Permutation. }
  rewrite Hperm in Hnd. apply NoDup_cons in Hnd as [Hni Hnd].
  assert (forall q c', pc_pub (f q) = Some c' -> vb_disk (v_buf d' (c_b c')) = true <-> c_i0 c' <> h /\ vb_disk (v_buf d (c_b c')) = true) as Hdk.
  { intros q c' Hq. rewrite intr_buf. case_decide as E.
    - destruct (intr_other q c' (pub_chain _ _ Hq) E) as [-> ->]. cbn. split; [done|]. by intros [? _].
    - split; [|by intros [_ ?]]. intros Hd. split; [|done]. intros E'. apply E.
      destruct (head_owner d f q p c' c O (pub_chain _ _ Hq) (pub_chain _ _ Hp)) as [_ ->]; congruence. }
  split; [apply Q|done|..].
  - intros x. split.
    + intros Hx. assert (x ∈ pend d v) as (q & c' & Hq & E & Hd)%(qu_pend _ _ _ Q) by (rewrite Hperm; by right).
      exists q, c'. split; [done|]. split; [done|]. apply (Hdk q c' Hq). split; [congruence|done].
    + intros (q & c' & Hq & <- & Hd). apply (Hdk q c' Hq) in Hd as [Hnh Hd].
      assert (c_i0 c' ∈ pend d v) as Hx by (apply (qu_pend _ _ _ Q); eauto). rewrite Hperm in Hx. by apply elem_of_cons in Hx as [?|?].
  - intros q c' Hq. destruct (qu_new _ _ _ Q q c' Hq) as (E1 & E2 & E3). split; [done|]. split; [|done].
    rewrite intr_buf, decide_False; [done|]. intros E. destruct (intr_other q c' (new_chain _ _ Hq) E) as [-> _].
    destruct (f p); done.
  - intros x Hx. apply (qu_wait _ _ _ Q x). by rewrite <- Hwa.
  - intros x Hx. apply (qu_done _ _ _ Q x). rewrite Hw. rewrite Hwu in Hx. rewrite elem_of_app in *. destruct Hx; [by left|right; by right].
  - intros q c' Hq Hd. change (status_at d (c_i0 c') = 0). destruct (decide (c_i0 c' = h)) as [->|Hnh]; [done|].
    apply (qu_ok _ _ _ Q q c' Hq). destruct (vb_disk (v_buf d (c_b c'))) eqn:E; [|done].
    rewrite (proj2 (Hdk q c' Hq)) in Hd; done.
Qed.

Lemma intr_sync : sync d' isr (Some AIntr) f'.
Proof.
  split.
  - intros q. unfold f'. destruct (wake_same [Wake (ChBuf (c_b c))] (f q)) as (_ & _ & _ & _ & ->). apply Y.
  - intros q c' [Hq Hn]%wake_sleepbuf. rewrite intr_buf, decide_False; [by apply (sy_buf _ _ _ _ Y q)|].
    intros E. apply Hn. rewrite E. left.
  - intros q b w [Hq _]%wake_sleepfree. by apply (sy_free _ _ _ _ Y q b w).
  - intros _. by right.
Qed.
End intr.

(** ** The device *)

(** The device finds the request it was given. *)
Lemma chain_at_formatted d c : formatted d c ->
  chain_at d (c_i0 c) = Some (req_of (c_w c) (vb_blockno (v_buf d (c_b c))), desc_data (c_b c) (c_w c) (c_i2 c), c_i0 c).
Proof.
  intros (F1 & F2 & F3 & F4 & _). unfold chain_at. rewrite F2. cbn [d_next desc_op d_addr]. rewrite F3. cbn [d_next desc_data].
  rewrite F4, F1. by destruct (c_w c).
Qed.

Lemma carries_out_data st d r b w i2 x st' d' : carries_out st d r (desc_data b w i2) x st' d' ->
  0 <= x <= 2 /\ (d' = d \/ exists bs, length bs = Z.to_nat BSIZE /\ d' = set_data b bs d).
Proof.
  inversion 1; subst; cbn [d_addr d_len desc_data] in *; simplify_eq; (split; [lia|]).
  - right. eexists. split; [|done]. unfold store_read. by rewrite length_fmap, length_seqZ.
  - by left.
  - right. exists bs. split; [lia|done].
  - by left.
Qed.

Section serve.
Context (d d1 : disk) (v : device) (isr : bool) (lk : option actor) (f : nat -> ppc) (p : nat) (c : chain) (x : Z).
Context (O : own d f) (Q : queue d v f) (Y : sync d isr lk f) (Hp : pc_pub (f p) = Some c).
Context (Hx : 0 <= x <= 2) (Hd1 : d1 = d \/ exists bs, length bs = Z.to_nat BSIZE /\ d1 = set_data (c_b c) bs d).
Context (l1 l2 : list Z) (Hbusy : dv_busy v = l1 ++ c_i0 c :: l2) (st' : Z -> Z).
Let d' := set_status (c_i0 c) x d1.
Let v' := mkDevice (dv_seen v) (l1 ++ l2) (c_i0 c :: dv_done v) st'.

Lemma serve_idx : is_desc (c_i0 c).
Proof. destruct (ow_good _ _ O p c (pub_chain _ _ Hp)) as (Hg & _). by apply (good_idx_elim c Hg). Qed.

Lemma serve_layout : same_layout d d'.
Proof.
  pose proof (ow_shape _ _ O) as Hs. pose proof serve_idx as Hi.
  assert (shape d1 /\ v_info d1 = v_info d) as [Hs1 Hinf] by (destruct Hd1 as [->|(bs & _ & ->)]; done).
  unfold d', set_status. split; [by apply shape_set_info|].
  split; [by destruct Hd1 as [->|(bs & _ & ->)]|]. split; [by destruct Hd1 as [->|(bs & _ & ->)]|].
  split; [by destruct Hd1 as [->|(bs & _ & ->)]|]. split.
  - intros i Hi0. rewrite info_at_set by done. unfold info_at. rewrite Hinf. by destruct (decide (i = c_i0 c)) as [->|].
  - destruct Hd1 as [->|(bs & Hl & ->)]; [split; [done|apply (ow_bufs _ _ O)]|]. cbn. unfold upd.
    split; intros b; destruct (decide (b = c_b c)) as [->|]; try done. apply (ow_bufs _ _ O).
Qed.

Lemma serve_status i : 0 <= i -> status_at d' i = if decide (i = c_i0 c) then x else status_at d i.
Proof.
  intros Hi. unfold status_at, d', set_status. pose proof serve_idx.
  assert (shape d1 /\ v_info d1 = v_info d) as [Hs1 Hinf].
  { pose proof (ow_shape _ _ O). by destruct Hd1 as [->|(bs & _ & ->)]. }
  rewrite info_at_set by done. unfold info_at. rewrite Hinf. by case_decide.
Qed.

Lemma serve_disk b : vb_disk (v_buf d' b) = vb_disk (v_buf d b).
Proof. unfold d'. destruct Hd1 as [->|(bs & _ & ->)]; [done|]. cbn. unfold upd. by destruct (decide (b = c_b c)) as [->|]. Qed.

Lemma serve_wins : avail_win d' v' = avail_win d v /\ used_win d' = used_win d /\
  v_avail d' = v_avail d /\ v_avail_idx d' = v_avail_idx d.
Proof. unfold d', avail_win, used_win. by destruct Hd1 as [->|(bs & _ & ->)]. Qed.

Lemma serve_queue : queue d' v' f.
Proof.
  pose proof serve_wins as (Hwa & Hwu & Ha & Hai).
  assert (pend d v ≡ₚ pend d' v') as Hperm. { unfold pend. rewrite Hwa, Hwu, Hbusy. cbn [dv_busy dv_done v']. solve_Permutation. }
  pose proof (qu_nodup _ _ _ Q) as Hnd. rewrite Hperm in Hnd.
  assert (c_i0 c ∈ dv_busy v) as Hin by (rewrite Hbusy; apply elem_of_app; right; left).
  assert (vb_disk (v_buf d (c_b c)) = true) as Hdk.
  { assert (c_i0 c ∈ pend d v) as (q & c' & Hq & E & Hd)%(qu_pend _ _ _ Q) by (unfold pend; rewrite !elem_of_app; tauto).
    by destruct (head_owner d f q p c' c O (pub_chain _ _ Hq) (pub_chain _ _ Hp) E) as [_ <-]. }
  assert (NoDup ((l1 ++ l2) ++ [c_i0 c])) as Hb.
  { pose proof (qu_nodup _ _ _ Q) as Hn. unfold pend in Hn. apply NoDup_app in Hn as ((_ & _ & Hn)%NoDup_app & _). rewrite Hbusy in Hn.
    assert ((l1 ++ l2) ++ [c_i0 c] ≡ₚ l1 ++ c_i0 c :: l2) as -> by solve_Permutation. done. }
  assert (forall h, h ∈ pend d v -> 0 <= h) as Hpos by (intros h Hh; by apply (pend_desc d v f h O Q Hh)).
  split; [apply Q|done|..].
  - intros h. rewrite <- Hperm, (qu_pend _ _ _ Q). split; intros (q & c' & ? & ? & E); exists q, c'; rewrite serve_disk in *; done.
  - intros q c' Hq. rewrite Ha, Hai, serve_disk. destruct (qu_new _ _ _ Q q c' Hq) as (E1 & E2 & E3). split; [done|]. split; [done|].
    destruct (ow_good _ _ O q c' (new_chain _ _ Hq)) as (Hg' & _). pose proof (good_idx_elim c' Hg') as (Hi' & _).
    rewrite serve_status by apply Hi'. rewrite decide_False; [done|]. intros E.
    destruct (head_owner d f q p c' c O (new_chain _ _ Hq) (pub_chain _ _ Hp) E) as [-> _]. destruct (f p); done.
  - intros h. rewrite Hwa. cbn [dv_busy v']. intros Hh.
    assert (h ∈ avail_win d v ++ dv_busy v) as Hh' by (rewrite Hbusy; rewrite !elem_of_app, ?elem_of_cons in *; tauto).
    rewrite serve_status by (apply Hpos; unfold pend; rewrite elem_of_app; by left). rewrite decide_False; [by apply (qu_wait _ _ _ Q)|].
    intros ->. apply elem_of_app in Hh as [Hh|Hh].
    + pose proof (qu_nodup _ _ _ Q) as Hn. unfold pend in Hn. apply NoDup_app in Hn as ((_ & Hn & _)%NoDup_app & _). by apply (Hn (c_i0 c)).
    + apply NoDup_app in Hb as (_ & Hb & _). apply (Hb (c_i0 c) Hh). left.
  - intros h. rewrite Hwu. cbn [dv_done v']. rewrite <- app_comm_cons, elem_of_cons. intros Hh.
    destruct (decide (h = c_i0 c)) as [->|Hne]; [rewrite serve_status, decide_True by (done || apply serve_idx); lia|].
    destruct Hh as [|Hh]; [done|]. rewrite serve_status by (apply Hpos; unfold pend; rewrite elem_of_app; by right).
    rewrite decide_False by done. by apply (qu_done _ _ _ Q).
  - intros q c' Hq. rewrite serve_disk. intros Hd. destruct (ow_good _ _ O q c' (pub_chain _ _ Hq)) as (Hg' & _).
    pose proof (good_idx_elim c' Hg') as (Hi' & _). rewrite serve_status by apply Hi'. rewrite decide_False; [by apply (qu_ok _ _ _ Q q)|].
    intros E. destruct (head_owner d f q p c' c O (pub_chain _ _ Hq) (pub_chain _ _ Hp) E) as [_ ->]. congruence.
Qed.

Lemma serve_sync : sync d' isr lk f.
Proof.
  pose proof serve_wins as (_ & Hwu & _). destruct serve_layout as (_ & _ & Hf & _). destruct Y as [Y1 Y2 Y3 Y4]. split; [done|..].
  - intros q c'. rewrite serve_disk. apply Y2.
  - intros q b w Hq. unfold nfree in *. rewrite Hf. by apply (Y3 q b w).
  - by rewrite Hwu.
Qed.
End serve.

(** Moving requests along without touching them. *)
Lemma queue_move d d' v v' f : queue d v f -> 0 <= dv_seen v' < 2^16 ->
  v_avail d' = v_avail d -> v_avail_idx d' = v_avail_idx d -> v_info d' = v_info d -> v_buf d' = v_buf d ->
  avail_win d' v' ++ dv_busy v' ≡ₚ avail_win d v ++ dv_busy v -> dv_done v' ++ used_win d' ≡ₚ dv_done v ++ used_win d ->
  queue d' v' f.
Proof.
  intros [Q1 Q2 Q3 Q4 Q5 Q6 Q7] Hs Ha Hai Hi Hb P1 P2. unfold pend in *. unfold status_at, info_at in *.
  split; unfold pend; unfold status_at, info_at; rewrite ?P1, ?P2, ?Ha, ?Hai, ?Hi, ?Hb; try done.
  - intros h. rewrite P1, P2. apply Q3.
  - intros h. rewrite P1. apply Q5.
  - intros h. rewrite P2. apply Q6.
Qed.

Lemma fetch_queue d v f : own d f -> queue d v f -> dv_seen v <> v_avail_idx d ->
  queue d (mkDevice (u16 (dv_seen v + 1)) (dv_busy v ++ [v_avail d !!! Z.to_nat (dv_seen v `mod` NUM)]) (dv_done v) (dv_store v)) f.
Proof.
  intros O Q Hne. eapply queue_move; [exact Q|apply u16_bound|done|done|done|done| |done].
  assert (avail_win d v = (v_avail d !!! Z.to_nat (dv_seen v `mod` NUM)) :: window (v_avail d) (u16 (dv_seen v + 1)) (v_avail_idx d)) as ->.
  { destruct (ow_shape _ _ O) as (_ & _ & _ & _ & _ & _ & ? & _). apply window_pop; [apply Q|done|done]. }
  unfold avail_win. cbn [dv_seen dv_busy]. solve_Permutation.
Qed.

Section post.
Context (d : disk) (v : device) (isr : bool) (lk : option actor) (f : nat -> ppc) (h : Z) (l1 l2 : list Z).
Context (O : own d f) (Q : queue d v f) (Y : sync d isr lk f) (Hdone : dv_done v = l1 ++ h :: l2).
Let d' := set_uidx (u16 (v_uidx d + 1)) (set_used (v_uidx d `mod` NUM) h d).

Lemma post_own : own d' f.
Proof.
  apply (own_layout d); [|done]. split; [apply shape_set_idx, shape_set_used, O|]. split_and!; try done. apply (ow_bufs _ _ O).
Qed.

Lemma post_win : used_win d' = used_win d ++ [h].
Proof.
  unfold used_win. apply window_push; [apply O|]. rewrite <- (length_window (v_used d)). fold (used_win d).
  pose proof (pend_length d v f O Q) as Hl. rewrite length_pend, Hdone, length_app in Hl. cbn [length] in Hl. lia.
Qed.

Lemma post_queue : queue d' (mkDevice (dv_seen v) (dv_busy v) (l1 ++ l2) (dv_store v)) f.
Proof.
  eapply queue_move; [exact Q|apply Q|done|done|done|done|done|]. rewrite post_win, Hdone. cbn [dv_done]. solve_Permutation.
Qed.

Lemma post_sync : sync d' true lk f.
Proof. destruct Y as [Y1 Y2 Y3 Y4]. split; try done. intros _. by left. Qed.
End post.

(** ** The invariant is preserved *)

Record inv (y : sys) : Prop := {
  iv_own : own (y_d y) (y_pc y);
  iv_queue : queue (y_d y) (y_dev y) (y_pc y);
  iv_sync : sync (y_d y) (y_isr y) (y_lock y) (y_pc y);
  iv_panic : forall msg, y_panic y = Some msg -> msg = "virtio_disk_intr status"%string /\
    exists h, h ∈ used_win (y_d y) /\ status_at (y_d y) h <> 0 }.

Lemma step_proc (y : sys) p m : inv y -> proc_code (y_pc y p) = Some m ->
  y_lock y = (if holds (y_pc y p) then Some (AProc p) else None) ->
  match m (y_d y) with
  | Ret l' d' t => inv (mkSys d' (y_dev y) (y_isr y) (if holds l' then Some (AProc p) else None) (moved (y_pc y) p l' t) None)
  | Sleep ch d' t => inv (mkSys d' (y_dev y) (y_isr y) None (moved (y_pc y) p (asleep (y_pc y p)) t) None)
  | Panic _ _ => False
  end.
Proof.
  intros [O Q Y _] Hm Hlk. set (d := y_d y) in *. set (f := y_pc y) in *. set (v := y_dev y) in *.
  assert (forall c, pc_chain (f p) = Some c -> f p = PWait c \/ f p = PWoken c ->
    match (rw_wait c ;;; ret PIdle) d with
    | Ret l' d' t => inv (mkSys d' v (y_isr y) (if holds l' then Some (AProc p) else None) (moved f p l' t) None)
    | Sleep ch d' t => inv (mkSys d' v (y_isr y) None (moved f p (asleep (f p)) t) None)
    | Panic _ _ => False
    end) as Hwait.
  { intros c Hc Hp. destruct (ow_good _ _ O p c Hc) as (Hg & Hf & Hfmt). unfold bind.
    rewrite (rw_wait_spec c d (ow_shape _ _ O) Hg Hf Hfmt). destruct (vb_disk _) eqn:Hd; cbn.
    - replace (asleep (f p)) with (PSleepBuf c) by (by destruct Hp as [-> | ->]).
      split; cbn; [by apply sleep_own|by apply sleep_queue|by eapply sleep_sync|done].
    - split; cbn; [by eapply finish_own|by eapply finish_queue|by eapply finish_sync|done]. }
  destruct (f p) as [|b w| |c|c|c|c] eqn:Hp; try done; injection Hm as <-.
  - cbn [holds] in Hlk. unfold bind. destruct (rw_start_spec b w d (ow_shape _ _ O)) as
      [(c & d1 & d' & Hb & _ & Hg & Hf & -> & F & ->)|(d' & t & D & Hf & Hn & -> & _)]; cbn.
    + rewrite Hlk in Y. split; cbn; [by eapply start_own|by eapply start_queue|by eapply start_sync|done].
    + split; cbn; [by eapply full_own|by eapply full_queue|eapply full_sync; try done; by rewrite Hp|done].
  - split; cbn; [by apply publish_own|eapply publish_queue; try done; by rewrite Hp|eapply publish_sync; try done; by rewrite Hp|done].
  - apply Hwait; [done|by left].
  - apply Hwait; [done|by right].
Qed.
End inv.
