(* ===== verification/VirtioProps.v ===== *)
(** * The disk driver: properties

    The driver with its device refines a disk that reads and writes whole
    blocks atomically, panics only when the device reports an error, and
    loses no request and no wakeup. *)
From stdpp Require Import relations.
From S2P Require Import Prelude Params Ring Virtio VirtioInv VirtioSys.

(** ** The atomic disk *)

Inductive aphase : Set := AIdle | APending (b : nat) (w : bool) | ADone (b : nat) (w : bool).
Definition aphase_buf (ph : aphase) : option nat := match ph with AIdle => None | APending b _ | ADone b _ => Some b end.

Record adisk : Type := mkAdisk { a_store : Z -> Z; a_data : nat -> bytes; a_bno : nat -> Z; a_phase : nat -> aphase }.

Definition block_at (st : Z -> Z) (bno : Z) : bytes := store_read st (BSIZE * bno) BSIZE.
Definition in_block (bno x : Z) : Prop := BSIZE * bno <= x < BSIZE * bno + BSIZE.

(** Process p is now in phase ph, the others where they were. *)
Definition phase_set (a a' : adisk) (p : nat) (ph : aphase) : Prop :=
  forall q, a_phase a' q = if decide (q = p) then ph else a_phase a q.
Definition bufs_same (a a' : adisk) : Prop := forall b, a_data a' b = a_data a b /\ a_bno a' b = a_bno a b.
Definition store_same (a a' : adisk) : Prop := forall x, a_store a' x = a_store a x.

Inductive astep (a a' : adisk) : Prop :=
  | as_call p b w : a_phase a p = AIdle -> (forall q, aphase_buf (a_phase a q) <> Some b) ->
      phase_set a a' p (APending b w) -> bufs_same a a' -> store_same a a' -> astep a a'
  (* the block is transferred at one moment between call and return *)
  | as_read p b : a_phase a p = APending b false -> phase_set a a' p (ADone b false) ->
      a_data a' b = block_at (a_store a) (a_bno a b) -> (forall b', b' <> b -> a_data a' b' = a_data a b') ->
      (forall b, a_bno a' b = a_bno a b) -> store_same a a' -> astep a a'
  | as_write p b : a_phase a p = APending b true -> phase_set a a' p (ADone b true) -> bufs_same a a' ->
      block_at (a_store a') (a_bno a b) = a_data a b ->
      (forall x, ~ in_block (a_bno a b) x -> a_store a' x = a_store a x) -> astep a a'
  | as_return p b w : a_phase a p = ADone b w -> phase_set a a' p AIdle -> bufs_same a a' -> store_same a a' -> astep a a'
  (* the device fails: the call never returns, its target may hold anything *)
  | as_fail p b w : a_phase a p = APending b w -> (forall q, a_phase a' q = a_phase a q) ->
      (forall b', w = true \/ b' <> b -> a_data a' b' = a_data a b') -> (forall b, a_bno a' b = a_bno a b) ->
      (forall x, w = false \/ ~ in_block (a_bno a b) x -> a_store a' x = a_store a x) -> astep a a'
  (* the buffer cache prepares a buffer nobody reads or writes *)
  | as_env b : (forall q, aphase_buf (a_phase a q) <> Some b) -> (forall q, a_phase a' q = a_phase a q) ->
      (forall b', b' <> b -> a_data a' b' = a_data a b' /\ a_bno a' b' = a_bno a b') -> store_same a a' -> astep a a'
  (* steps inside the driver *)
  | as_skip : (forall q, a_phase a' q = a_phase a q) -> bufs_same a a' -> store_same a a' -> astep a a'.

(** What the driver and the device implement. *)
Definition abs_pc (d : disk) (l : ppc) : aphase :=
  match l with
  | PIdle => AIdle
  | PWant b w | PSleepFree b w => APending b w
  | PFormatted c | PWait c | PSleepBuf c | PWoken c =>
      if status_at d (c_i0 c) =? 0 then ADone (c_b c) (c_w c) else APending (c_b c) (c_w c)
  end.

Definition abs (y : sys) : adisk :=
  mkAdisk (dv_store (y_dev y)) (fun b => vb_data (v_buf (y_d y) b)) (fun b => vb_blockno (v_buf (y_d y) b))
    (fun p => abs_pc (y_d y) (y_pc y p)).

Lemma abs_buf d l : aphase_buf (abs_pc d l) = pc_buf l.
Proof. destruct l; simpl; try done; by destruct (status_at d _ =? 0). Qed.

Lemma abs_wake d t l : abs_pc d (wake_pc t l) = abs_pc d l.
Proof. destruct l; simpl; try done; by case_decide. Qed.

(** A process's phase depends on the status of its own request only. *)
Lemma abs_status d d' l : (forall c, pc_chain l = Some c -> status_at d' (c_i0 c) = status_at d (c_i0 c)) -> abs_pc d' l = abs_pc d l.
Proof. intros H. destruct l; simpl in *; try done; by rewrite (H _ eq_refl). Qed.

Section props.
Context (dev_step : device -> disk -> bool -> device -> disk -> bool -> Prop).
Context (Hdev : forall v s i v' s' i', dev_step v s i v' s' i' -> virtio_blk v s i v' s' i').
Implicit Types (y : sys).

(** ** The invariant holds in every reachable state *)

Lemma call_own d f p b w : own d f -> f p = PIdle -> (forall q, pc_buf (f q) <> Some b) -> own d (upd p (PWant b w) f).
Proof.
  intros [O1 O2 O3 O4 O5 O6] Hp Hb.
  assert (forall q, pc_chain (upd p (PWant b w) f q) = pc_chain (f q)) as Hc.
  { intros q. unfold upd. destruct (decide (q = p)) as [->|]; [by rewrite Hp|done]. }
  split; try done.
  - intros q c. rewrite Hc. apply O2.
  - intros q q' c c' i. rewrite !Hc. apply O3.
  - intros i Hi Hu. destruct (O4 i Hi Hu) as (q & c & ? & ?). exists q, c. by rewrite Hc.
  - intros q q' b'. unfold upd. repeat case_decide; subst; try done; simpl.
    + intros [= ->] Hq. by destruct (Hb q').
    + intros Hq [= ->]. by destruct (Hb q).
    + apply O5.
Qed.

Lemma call_inv y p b w : inv y -> y_pc y p = PIdle -> (forall q, pc_buf (y_pc y q) <> Some b) ->
  inv (mkSys (y_d y) (y_dev y) (y_isr y) (y_lock y) (upd p (PWant b w) (y_pc y)) None).
Proof.
  intros [O Q Y _] Hp Hb. split; cbn; [by apply call_own| | |done].
  - eapply queue_ext; [|exact Q]. intros q. unfold upd. destruct (decide (q = p)) as [->|]; [by rewrite Hp|done].
  - destruct Y as [Y1 Y2 Y3 Y4]. unfold upd. split; [..|done].
    + intros q. rewrite (Y1 q). destruct (decide (q = p)) as [->|]; [by rewrite Hp|done].
    + intros q c. destruct (decide (q = p)) as [->|]; [done|apply Y2].
    + intros q b' w'. destruct (decide (q = p)) as [->|]; [done|apply Y3].
Qed.

Lemma env_inv y b bno bs : inv y -> (forall q, pc_buf (y_pc y q) <> Some b) -> length bs = Z.to_nat BSIZE -> 0 <= bno < 2^31 ->
  inv (mkSys (set_vbuf b (mkVbuf (vb_disk (v_buf (y_d y) b)) bno bs) (y_d y)) (y_dev y) (y_isr y) (y_lock y) (y_pc y) None).
Proof.
  intros [[O1 O2 O3 O4 O5 O6] Q [Y1 Y2 Y3 Y4] _] Hb Hl Hbno. set (d' := set_vbuf _ _ _).
  assert (forall b', vb_disk (v_buf d' b') = vb_disk (v_buf (y_d y) b')) as Hdk
    by (intros b'; unfold d'; rewrite buf_set; by destruct (decide (b' = b)) as [->|]).
  split; cbn; [split; try done|..|done].
  - intros q c Hc. destruct (O2 q c Hc) as (Hg & Hf & F1 & F2). split; [done|]. split; [done|]. split; [|done].
    unfold d'. rewrite buf_set, decide_False; [done|]. intros E. apply (Hb q). by rewrite (chain_buf _ _ Hc), E.
  - intros b'. unfold d'. rewrite buf_set. case_decide; [done|apply O6].
  - destruct Q as [Q1 Q2 Q3 Q4 Q5 Q6 Q7]. split; try done.
    + intros h. change (pend d' (y_dev y)) with (pend (y_d y) (y_dev y)). rewrite (Q3 h). split; intros (q & c & ? & ? & ?); exists q, c; by rewrite ?Hdk in *.
    + intros q c Hq. rewrite Hdk. by apply (Q4 q).
    + intros q c. rewrite Hdk. by apply Q7.
  - split; try done. intros q c. rewrite Hdk. apply Y2.
Qed.

Lemma busy_owner y h l1 l2 : inv y -> dv_busy (y_dev y) = l1 ++ h :: l2 ->
  exists p c, pc_pub (y_pc y p) = Some c /\ c_i0 c = h /\ formatted (y_d y) c.
Proof.
  intros [O Q _ _] Hb. assert (h ∈ pend (y_d y) (y_dev y)) as (p & c & Hp & E & _)%(qu_pend _ _ _ Q).
  { unfold pend. rewrite Hb, !elem_of_app, elem_of_cons. tauto. }
  exists p, c. split; [done|]. split; [done|]. by destruct (ow_good _ _ O p c (pub_chain _ _ Hp)) as (_ & _ & ?).
Qed.

Lemma dev_inv y v' d' isr' : inv y -> virtio_blk (y_dev y) (y_d y) (y_isr y) v' d' isr' ->
  inv (mkSys d' v' isr' (y_lock y) (y_pc y) None).
Proof.
  intros I Hs. pose proof I as [O Q Y _]. inversion Hs as [Hne|h l1 l2 r d1 j x st' s' Hb Hc Hco|h l1 l2 Hd]; subst.
  - split; cbn; [done|by apply fetch_queue|done|done].
  - destruct (busy_owner y h l1 l2 I Hb) as (p & c & Hp & <- & Hf). rewrite (chain_at_formatted _ _ Hf) in Hc. injection Hc as <- <- <-.
    destruct (carries_out_data _ _ _ _ _ _ _ _ _ Hco) as [Hx Hd1].
    split; cbn; [eapply own_layout; [eapply serve_layout; done|done]|by eapply serve_queue|by eapply serve_sync|done].
  - split; cbn; [by apply (post_own (y_d y))|by eapply post_queue|by eapply post_sync|done].
Qed.

(** The interrupt handler deals with one completion. *)
Lemma intr_inv y : inv y -> y_lock y = Some AIntr -> v_used_idx (y_d y) <> v_uidx (y_d y) ->
  match intr_one (y_d y) with
  | Ret _ d' t => inv (mkSys d' (y_dev y) (y_isr y) (Some AIntr) (fun q => wake_pc t (y_pc y q)) None)
  | Panic msg _ => inv (mkSys (y_d y) (y_dev y) (y_isr y) (Some AIntr) (y_pc y) (Some msg))
  | Sleep _ _ _ => False
  end.
Proof.
  intros [O Q Y _] Hlk Hne. rewrite Hlk in Y.
  destruct (intr_owner (y_d y) (y_dev y) (y_pc y) O Q Hne) as (p & c & Hp & E & Hdi & Hd & Hinf & Hb).
  rewrite (intr_one_spec _ _ _ eq_refl Hinf (c_b c) Hb). destruct (Z.eqb_spec (in_status (info_at (y_d y) (v_used (y_d y) !!! Z.to_nat (v_used_idx (y_d y) `mod` NUM)))) 0) as [H0|Hn0].
  - split; cbn; [by eapply intr_own|by eapply intr_queue|by eapply intr_sync|done].
  - split; cbn; try done. intros ? [= <-]. split; [done|]. eexists. split; [|exact Hn0].
    rewrite (intr_win (y_d y) (y_pc y) O Hne). left.
Qed.

Lemma vsys_step_inv y y' : inv y -> step dev_step y y' -> inv y'.
Proof.
  intros I Hs. inversion Hs as [p b w Hpn Hp Hb|b bno bs Hpn Hb Hl Hbno|p m l' d' t Hpn Hm Hlk Hrun|p m ch d' t Hpn Hm Hlk Hrun|
    p m msg t Hpn Hm Hlk Hrun|Hpn Hisr Hlk|d' t Hpn Hlk Hne Hrun|msg t Hpn Hlk Hne Hrun|Hpn Hlk He|v' d' isr' Hpn Hd]; subst y'.
  - by apply call_inv.
  - by apply env_inv.
  - pose proof (step_proc y p m I Hm Hlk) as Hi. by rewrite Hrun in Hi.
  - pose proof (step_proc y p m I Hm Hlk) as Hi. by rewrite Hrun in Hi.
  - pose proof (step_proc y p m I Hm Hlk) as Hi. by rewrite Hrun in Hi.
  - destruct I as [O Q [Y1 Y2 Y3 Y4] _]. split; cbn; try done. split; try done; [|by right].
    intros p. rewrite <- Y1, Hlk. done.
  - pose proof (intr_inv y I Hlk Hne) as Hi. by rewrite Hrun in Hi.
  - pose proof (intr_inv y I Hlk Hne) as Hi. by rewrite Hrun in Hi.
  - destruct I as [O Q [Y1 Y2 Y3 Y4] _]. split; cbn; try done. split; try done.
    + intros p. rewrite <- Y1, Hlk. done.
    + unfold used_win. rewrite He, window_nil. done.
  - by apply dev_inv, Hdev.
Qed.

Lemma booted_inv bufs store :
  (forall b, length (vb_data (bufs b)) = Z.to_nat BSIZE /\ 0 <= vb_blockno (bufs b) < 2^31) -> inv (booted (disk0 bufs) store).
Proof.
  intros Hb. split; cbn; [..|done].
  - split; try done. intros i Hi. unfold free_at. cbn [v_free disk0]. rewrite lookup_total_replicate_2; [done|].
    unfold is_desc in Hi. lia.
  - split; try done; [exact NoDup_nil_2|..]; intros h.
    + split; [by intros ?%elem_of_nil|]. by intros (? & ? & ? & _).
    + by intros ?%elem_of_nil.
    + by intros ?%elem_of_nil.
  - split; done.
Qed.

Lemma vsys_reachable_inv y0 y : inv y0 -> reachable dev_step y0 y -> inv y.
Proof. intros I0. induction 1 as [|y y' _ IH Hs]; [done|]. by eapply vsys_step_inv. Qed.

(** ** Simulation *)

(** A step that leaves buffers and disk alone and moves process p. *)
Lemma sim_moved y d' v' isr' lk' p l' t : v_buf d' = v_buf (y_d y) \/
    (forall b, vb_data (v_buf d' b) = vb_data (v_buf (y_d y) b) /\ vb_blockno (v_buf d' b) = vb_blockno (v_buf (y_d y) b)) ->
  dv_store v' = dv_store (y_dev y) -> abs_pc d' l' = abs_pc (y_d y) (y_pc y p) ->
  (forall q c, q <> p -> pc_chain (y_pc y q) = Some c -> status_at d' (c_i0 c) = status_at (y_d y) (c_i0 c)) ->
  astep (abs y) (abs (mkSys d' v' isr' lk' (moved (y_pc y) p l' t) None)).
Proof.
  intros Hb Hst Hp Hq. apply as_skip; cbn.
  - intros q. destruct (decide (q = p)) as [->|Hne]; [by rewrite moved_eq|]. rewrite moved_ne, abs_wake by done.
    apply abs_status. eauto.
  - intros b. destruct Hb as [Hb|Hb]; [cbn; by rewrite Hb|]. apply Hb.
  - intros x. cbn. by rewrite Hst.
Qed.

Lemma sim_wait y p c : inv y -> y_pc y p = PWait c \/ y_pc y p = PWoken c ->
  match (rw_wait c ;;; ret PIdle) (y_d y) with
  | Ret l' d' t => forall isr' lk', astep (abs y) (abs (mkSys d' (y_dev y) isr' lk' (moved (y_pc y) p l' t) None))
  | Sleep _ d' t => forall isr' lk', astep (abs y) (abs (mkSys d' (y_dev y) isr' lk' (moved (y_pc y) p (asleep (y_pc y p)) t) None))
  | Panic _ _ => True
  end.
Proof.
  intros [O Q Y _] Hp. assert (pc_chain (y_pc y p) = Some c /\ pc_pub (y_pc y p) = Some c) as [Hc Hpub] by (by destruct Hp as [-> | ->]).
  destruct (ow_good _ _ O p c Hc) as (Hg & Hf & Hfmt). unfold bind.
  rewrite (rw_wait_spec c _ (ow_shape _ _ O) Hg Hf Hfmt). destruct (vb_disk _) eqn:Hd; cbn; intros isr' lk'.
  - apply sim_moved; [by left|done| |done]. by destruct Hp as [-> | ->].
  - apply as_return with p (c_b c) (c_w c); cbn.
    + assert (status_at (y_d y) (c_i0 c) = 0) as H0 by (by apply (qu_ok _ _ _ Q p)).
      by destruct Hp as [-> | ->]; simpl; rewrite H0.
    + intros q. cbn. destruct (decide (q = p)) as [->|Hne]; [by rewrite moved_eq|]. rewrite moved_ne, abs_wake by done.
      apply abs_status. intros c' Hc'. destruct (ow_good _ _ O q c' Hc') as (Hg' & _).
      apply (finish_status (y_d y) (y_pc y) p c O Hp). by apply (good_idx_elim c' Hg').
    + by intros b.
    + done.
Qed.

Lemma sim_proc y p m : inv y -> proc_code (y_pc y p) = Some m ->
  y_lock y = (if holds (y_pc y p) then Some (AProc p) else None) ->
  match m (y_d y) with
  | Ret l' d' t => forall isr' lk', astep (abs y) (abs (mkSys d' (y_dev y) isr' lk' (moved (y_pc y) p l' t) None))
  | Sleep _ d' t => forall isr' lk', astep (abs y) (abs (mkSys d' (y_dev y) isr' lk' (moved (y_pc y) p (asleep (y_pc y p)) t) None))
  | Panic _ _ => True
  end.
Proof.
  intros I Hm Hlk. pose proof (sim_wait y p) as Hwait. pose proof I as [O Q Y _].
  destruct (y_pc y p) as [|b w| |c|c|c|c] eqn:Hp; try done; injection Hm as <-; try (apply Hwait; [done|by (left + right)]).
  - unfold bind. destruct (rw_start_spec b w _ (ow_shape _ _ O)) as
      [(c & d1 & d' & Hb & Hw & Hg & Hf & -> & F & ->)|(d' & t & D & Hf & Hn & -> & _)]; cbn; intros isr' lk'.
    + apply sim_moved; [|done|..].
      * right. intros b'. rewrite (start_buf (y_d y) d' c F). by case_decide.
      * rewrite Hp. simpl. destruct F as (_ & _ & -> & _). by rewrite Hb, Hw.
      * intros q c' Hne Hc'. unfold status_at.
        destruct (start_other (y_d y) (y_pc y) p b w c O Hp Hb Hf q c' Hc') as (_ & Hdis & _).
        destruct (ow_good _ _ O q c' Hc') as (Hg' & _). rewrite (start_info (y_d y) d' c F); [done|by apply (good_idx_elim c' Hg')|].
        intros E. apply (Hdis (c_i0 c')); [apply head_in|rewrite E; apply head_in].
    + destruct D as (_ & _ & _ & _ & _ & _ & Hi & _ & Hb & _).
      apply sim_moved; [by left|done|by rewrite Hp|]. intros q c' _ _. unfold status_at, info_at. by rewrite Hi.
  - intros isr' lk'. apply sim_moved; [by left|done|by rewrite Hp|done].
Qed.

Lemma sector_block bno : 0 <= bno < 2^31 -> 512 * sector_of bno = BSIZE * bno.
Proof. intros Hb. unfold sector_of. change (BSIZE / 512) with 2. rewrite u32_id by lia. klia. Qed.

Lemma block_at_write st bno bs : length bs = Z.to_nat BSIZE -> block_at (store_write st (BSIZE * bno) bs) bno = bs.
Proof.
  intros Hl. unfold block_at, store_read. apply list_eq_same_length with (Z.to_nat BSIZE); [done|by rewrite length_fmap, length_seqZ|].
  intros k x y Hk. rewrite list_lookup_fmap_Some. intros (z & -> & [-> Hz]%lookup_seqZ) Hy. unfold store_write.
  rewrite decide_True by lia. replace (Z.to_nat (BSIZE * bno + Z.of_nat k - BSIZE * bno)) with k by lia. by apply list_lookup_total_correct.
Qed.
Lemma store_write_other st bno bs x : Z.of_nat (length bs) = BSIZE -> ~ in_block bno x -> store_write st (BSIZE * bno) bs x = st x.
Proof. intros Hl Hx. unfold store_write, in_block in *. by rewrite decide_False by lia. Qed.

Section serve_sim.
Context y (p : nat) (c : chain) (x : Z) (d1 : disk) (l1 l2 : list Z) (st' : Z -> Z) (I : inv y) (Hp : pc_pub (y_pc y p) = Some c) (Hbusy : dv_busy (y_dev y) = l1 ++ c_i0 c :: l2).
Context (Hco : carries_out (dv_store (y_dev y)) (y_d y) (req_of (c_w c) (vb_blockno (v_buf (y_d y) (c_b c))))
  (desc_data (c_b c) (c_w c) (c_i2 c)) x st' d1).
Let bno := vb_blockno (v_buf (y_d y) (c_b c)).

Lemma serve_pending : a_phase (abs y) p = APending (c_b c) (c_w c).
Proof.
  destruct I as [O Q _ _]. assert (status_at (y_d y) (c_i0 c) = 255) as H255.
  { apply (qu_wait _ _ _ Q). rewrite Hbusy, !elem_of_app, elem_of_cons. tauto. }
  cbn. destruct (y_pc y p); try done; injection Hp as ->; simpl; by rewrite H255.
Qed.

Lemma serve_phases q : abs_pc (set_status (c_i0 c) x d1) (y_pc y q) =
  if decide (q = p) then (if x =? 0 then ADone (c_b c) (c_w c) else APending (c_b c) (c_w c)) else abs_pc (y_d y) (y_pc y q).
Proof.
  pose proof I as [O Q _ _]. destruct (carries_out_data _ _ _ _ _ _ _ _ _ Hco) as [Hx Hd1].
  pose proof (serve_status (y_d y) d1 (y_pc y) p c x O Hp Hd1) as Hst.
  pose proof (serve_idx (y_d y) (y_pc y) p c O Hp) as Hidx. case_decide as E.
  - subst q. assert (status_at (set_status (c_i0 c) x d1) (c_i0 c) = x) as Hs by (rewrite Hst, decide_True by (done || apply Hidx); done).
    destruct (y_pc y p); try done; injection Hp as ->; simpl; by rewrite Hs.
  - apply abs_status. intros c' Hc'. destruct (ow_good _ _ O q c' Hc') as (Hg' & _). rewrite Hst by by apply (good_idx_elim c' Hg').
    rewrite decide_False; [done|]. intros E'. by destruct (head_owner (y_d y) (y_pc y) q p c' c O Hc' (pub_chain _ _ Hp) E').
Qed.

Lemma sim_serve n l l' isr' lk' :
  astep (abs y) (abs (mkSys (set_status (c_i0 c) x d1) (mkDevice n l l' st') isr' lk' (y_pc y) None)).
Proof.
  pose proof serve_phases as Hph. pose proof serve_pending as Hpend. pose proof I as [O _ _ _].
  destruct (ow_bufs _ _ O (c_b c)) as [Hlen Hbno].
  inversion Hco as [r dd b Ht Ha Hw|r dd b Ht Ha Hw|r dd b ? bs Ht Ha Hw Hx Hl|r dd b ? bs Ht Ha Hw Hx Hl]; subst;
    cbn [d_addr d_len desc_data r_sector req_of] in *; injection Ha as <-; fold bno in Hbno.
  - destruct (c_w c) eqn:Ew; [done|]. eapply as_read; [exact Hpend|exact Hph|..].
    + cbn. unfold upd. rewrite decide_True by done. cbn. unfold block_at. fold bno. by rewrite sector_block.
    + intros b' Hne. cbn. unfold upd. by rewrite decide_False.
    + intros b'. cbn. unfold upd. by destruct (decide (b' = c_b c)) as [->|].
    + done.
  - destruct (c_w c) eqn:Ew; [|done]. eapply as_write; [exact Hpend|exact Hph|done|..].
    + cbn [abs a_store a_bno a_data y_d y_dev dv_store]. fold bno. rewrite sector_block by done.
      rewrite take_ge by lia. by apply block_at_write.
    + intros z Hz. cbn [abs a_store a_bno y_d y_dev dv_store] in *. fold bno in Hz |- *. rewrite sector_block by done.
      rewrite take_ge by lia. apply store_write_other; [rewrite Hlen; done|done].
  - destruct (c_w c) eqn:Ew; [done|]. eapply as_fail; [exact Hpend|..].
    + intros q. cbn. rewrite Hph. case_decide; [subst|done]. cbn in Hpend. rewrite Hpend. by replace (x =? 0) with false by lia.
    + intros b' [|Hne]; [done|]. cbn. unfold upd. by rewrite decide_False.
    + intros b'. cbn. unfold upd. by destruct (decide (b' = c_b c)) as [->|].
    + done.
  - destruct (c_w c) eqn:Ew; [|done]. eapply as_fail; [exact Hpend|..].
    + intros q. cbn. rewrite Hph. case_decide; [subst|done]. cbn in Hpend. rewrite Hpend. by replace (x =? 0) with false by lia.
    + done.
    + done.
    + intros z [|Hz]; [done|]. cbn [abs a_store a_bno y_d y_dev dv_store] in *. fold bno in Hz |- *.
      rewrite sector_block by done. by apply store_write_other.
Qed.
End serve_sim.

Lemma sim_step y y' : inv y -> step dev_step y y' -> astep (abs y) (abs y').
Proof.
  intros I Hs. inversion Hs as [p b w Hpn Hp Hb|b bno bs Hpn Hb Hl Hbno|p m l' d' t Hpn Hm Hlk Hrun|p m ch d' t Hpn Hm Hlk Hrun|
    p m msg t Hpn Hm Hlk Hrun|Hpn Hisr Hlk|d' t Hpn Hlk Hne Hrun|msg t Hpn Hlk Hne Hrun|Hpn Hlk He|v' d' isr' Hpn Hd]; subst y';
    try (apply as_skip; done).
  - apply as_call with p b w; try done; cbn; [by rewrite Hp|intros q; rewrite abs_buf; apply Hb|].
    intros q. cbn. unfold upd. by case_decide.
  - apply as_env with b; try done; cbn; [intros q; rewrite abs_buf; apply Hb|]. intros b' Hne. cbn. unfold upd. by rewrite decide_False.
  - pose proof (sim_proc y p m I Hm Hlk) as Hi. rewrite Hrun in Hi. apply Hi.
  - pose proof (sim_proc y p m I Hm Hlk) as Hi. rewrite Hrun in Hi. apply Hi.
  - pose proof I as [O Q _ _]. destruct (intr_owner (y_d y) (y_dev y) (y_pc y) O Q Hne) as (p & c & Hp & E & Hdi & Hd & Hinf & Hb).
    rewrite (intr_one_spec _ _ _ eq_refl Hinf (c_b c) Hb) in Hrun. destruct (_ =? 0); [injection Hrun as <- <-|done].
    apply as_skip; cbn; [intros q; by rewrite abs_wake| |done]. intros b. cbn. unfold upd. by destruct (decide (b = c_b c)) as [->|].
  - apply Hdev in Hd. inversion Hd as [Hne|h l1 l2 r d1 j x st' s' Hb Hc Hco|h l1 l2 Hd']; subst; try (apply as_skip; done).
    destruct (busy_owner y h l1 l2 I Hb) as (p & c & Hp & <- & Hf). rewrite (chain_at_formatted _ _ Hf) in Hc. injection Hc as <- <- <-.
    by eapply sim_serve.
Qed.

(** ** The theorems *)

Lemma virtio_disk_init_disk mmio pages bufs ws0 d ws t : virtio_disk_init mmio pages bufs ws0 = Ret d ws t -> d = disk0 bufs.
Proof.
  intros Hrun. assert (wlp (virtio_disk_init mmio pages bufs) ws0 (fun d _ => d = disk0 bufs)) as Hw; [|by apply (Hw _ _ _ Hrun)].
  unfold virtio_disk_init. do 4 (apply wlp_bind, wlp_gets). case_match; [apply wlp_panic|].
  do 3 (apply wlp_bind, wlp_modify). apply wlp_bind, wlp_gets. do 2 (apply wlp_bind, wlp_modify). apply wlp_bind, wlp_gets.
  case_match; [apply wlp_panic|]. apply wlp_bind, wlp_modify, wlp_bind, wlp_gets. case_match; [apply wlp_panic|].
  apply wlp_bind, wlp_gets. case_match; [apply wlp_panic|]. case_match; [apply wlp_panic|].
  destruct pages as [[[pd|] [pa|]] [pu|]]; try apply wlp_panic. do 9 (apply wlp_bind, wlp_modify). by apply wlp_ret.
Qed.

Section run.
Context (mmio : list (Z * Z) -> Z -> Z) (pages : option Z * option Z * option Z) (bufs : nat -> vbuf) (store : Z -> Z).
Context (d0 : disk) (ws : list (Z * Z)) (t0 : list event).
Context (Hinit : virtio_disk_init mmio pages bufs [] = Ret d0 ws t0).
Context (Hbufs : forall b, length (vb_data (bufs b)) = Z.to_nat BSIZE /\ 0 <= vb_blockno (bufs b) < 2^31).

Lemma boot_inv : inv (booted d0 store).
Proof. rewrite (virtio_disk_init_disk _ _ _ _ _ _ _ Hinit). by apply booted_inv. Qed.

(** A run of the driver is one of an atomic disk. *)
Lemma runs_atomically y : reachable dev_step (booted d0 store) y -> rtc astep (abs (booted d0 store)) (abs y).
Proof.
  induction 1 as [|y y' Hr IH Hs]; [done|]. eapply rtc_r; [exact IH|]. apply sim_step; [|done].
  by eapply vsys_reachable_inv, Hr; apply boot_inv.
Qed.

Lemma never_panics y : reachable dev_step (booted d0 store) y ->
  (forall msg, y_panic y = Some msg -> msg = "virtio_disk_intr status"%string /\
     exists h, h ∈ used_win (y_d y) /\ status_at (y_d y) h <> 0) /\
  (forall h, h ∈ avail_win (y_d y) (y_dev y) ++ dv_busy (y_dev y) -> exists p c,
     pc_pub (y_pc y p) = Some c /\ c_i0 c = h /\
     chain_at (y_d y) h = Some (req_of (c_w c) (vb_blockno (v_buf (y_d y) (c_b c))), desc_data (c_b c) (c_w c) (c_i2 c), h)).
Proof.
  intros Hr. pose proof (vsys_reachable_inv _ _ boot_inv Hr) as [O Q Y Hpan]. split; [done|]. intros h Hh.
  assert (h ∈ pend (y_d y) (y_dev y)) as (p & c & Hp & <- & _)%(qu_pend _ _ _ Q) by (unfold pend; apply elem_of_app; by left).
  exists p, c. split; [done|]. split; [done|]. apply chain_at_formatted. by destruct (ow_good _ _ O p c (pub_chain _ _ Hp)) as (_ & _ & ?).
Qed.

(** C33.  The driver and the device together are an atomic disk: whatever the
    interleaving of processes, interrupt handler and device, the run is a run
    of a disk where every [virtio_disk_rw] transfers its whole block at one
    moment between its call and its return, exactly once.  The driver panics
    only in the interrupt handler, and only when the device has reported that a
    request failed: no descriptor is freed twice, no completion without a buffer
    is found.  Every chain the device has been given is the well-formed request
    of a process that waits for it. *)
Theorem virtio_refines y : reachable dev_step (booted d0 store) y ->
  rtc astep (abs (booted d0 store)) (abs y) /\
  (forall msg, y_panic y = Some msg -> msg = "virtio_disk_intr status"%string /\
     exists h, h ∈ used_win (y_d y) /\ status_at (y_d y) h <> 0) /\
  (forall h, h ∈ avail_win (y_d y) (y_dev y) ++ dv_busy (y_dev y) -> exists p c,
     pc_pub (y_pc y p) = Some c /\ c_i0 c = h /\
     chain_at (y_d y) h = Some (req_of (c_w c) (vb_blockno (v_buf (y_d y) (c_b c))), desc_data (c_b c) (c_w c) (c_i2 c), h)).
Proof. intros Hr. split; [by apply runs_atomically|by apply never_panics]. Qed.

(** C35.  No request and no wakeup is lost: when the device has finished what
    it was given, no interrupt is pending or being handled, and no process can
    run, then every call of [virtio_disk_rw] has returned. *)
Theorem virtio_live y : reachable dev_step (booted d0 store) y ->
  avail_win (y_d y) (y_dev y) = [] -> dv_busy (y_dev y) = [] -> dv_done (y_dev y) = [] ->
  y_isr y = false -> y_lock y <> Some AIntr -> (forall p, proc_code (y_pc y p) = None) ->
  forall p, y_pc y p = PIdle.
Proof.
  intros Hr Ha Hb Hd Hi Hl Hn. pose proof (vsys_reachable_inv _ _ boot_inv Hr) as [O Q Y _].
  assert (used_win (y_d y) = []) as Hu.
  { destruct (used_win (y_d y)) eqn:E; [done|]. destruct (sy_isr _ _ _ _ Y) as [?|?]; [by rewrite E|congruence|done]. }
  assert (forall q c, y_pc y q <> PSleepBuf c) as Hsb.
  { intros q c Hq. assert (c_i0 c ∈ pend (y_d y) (y_dev y)) as Hin.
    { apply (qu_pend _ _ _ Q). exists q, c. rewrite Hq. split; [done|]. split; [done|]. by apply (sy_buf _ _ _ _ Y q). }
    unfold pend in Hin. rewrite Ha, Hb, Hd, Hu in Hin. by apply elem_of_nil in Hin. }
  assert (forall q c, pc_chain (y_pc y q) <> Some c) as Hnc.
  { intros q c Hq. specialize (Hn q). specialize (Hsb q). destruct (y_pc y q); try done. by apply (Hsb c0). }
  intros p. specialize (Hn p) as Hnp. destruct (y_pc y p) as [| |b w| | |c|] eqn:E; try done; [|by destruct (Hsb p c)].
  exfalso. pose proof (sy_free _ _ _ _ Y p b w E) as Hf. pose proof (ow_shape _ _ O) as Hs.
  assert (forall i, is_desc i -> free_at (y_d y) i = true) as Hall.
  { intros i Hdi. destruct (free_at (y_d y) i) eqn:Ef; [done|]. destruct (ow_used _ _ O i Hdi Ef) as (q & c & Hq & _). by destruct (Hnc q c). }
  pose proof (nfree_take [0; 1; 2] (y_d y) Hs) as Ht. cbn [length] in Ht.
  assert (Forall is_desc [0; 1; 2]) as Hd3 by (repeat constructor; done).
  specialize (Ht Hd3 ltac:(repeat constructor; set_solver)). rewrite Forall_forall in Hd3.
  specialize (Ht ltac:(intros i Hin; by apply Hall, Hd3)). lia.
Qed.
End run.
End props.

(** ** A device that serves requests in order, and a run *)

Module VirtioDemo.

Definition serve (st : Z -> Z) (s : disk) (r : virtio_blk_req) (d1 : virtq_desc) : option ((Z -> Z) * disk) :=
  match d_addr d1 with
  | DmaBuf b =>
      if (r_type r =? VIRTIO_BLK_T_IN) && Z.testbit (d_flags d1) 1 then
        Some (st, set_data b (store_read st (512 * r_sector r) (d_len d1)) s)
      else if (r_type r =? VIRTIO_BLK_T_OUT) && negb (Z.testbit (d_flags d1) 1) then
        Some (store_write st (512 * r_sector r) (take (Z.to_nat (d_len d1)) (vb_data (v_buf s b))), s)
      else None
  | _ => None
  end.

Definition fifo (v : device) (s : disk) (isr : bool) : option (device * disk * bool) :=
  match dv_done v, dv_busy v with
  | h :: l, _ =>
      Some (mkDevice (dv_seen v) (dv_busy v) l (dv_store v), set_uidx (u16 (v_uidx s + 1)) (set_used (v_uidx s `mod` NUM) h s), true)
  | [], h :: l =>
      match chain_at s h with
      | Some (r, d1, j) =>
          match serve (dv_store v) s r d1 with
          | Some (st, s') => Some (mkDevice (dv_seen v) l [h] st, set_status j 0 s', isr)
          | None => None
          end
      | None => None
      end
  | [], [] =>
      if dv_seen v =? v_avail_idx s then None
      else Some (mkDevice (u16 (dv_seen v + 1)) [v_avail s !!! Z.to_nat (dv_seen v `mod` NUM)] [] (dv_store v), s, isr)
  end.
Definition fifo_step v s i v' s' i' : Prop := fifo v s i = Some (v', s', i').

Lemma fifo_virtio v s i v' s' i' : fifo_step v s i v' s' i' -> virtio_blk v s i v' s' i'.
Proof.
  unfold fifo_step, fifo. destruct (dv_done v) as [|h l] eqn:Hd; [destruct (dv_busy v) as [|h l] eqn:Hb|].
  - destruct (Z.eqb_spec (dv_seen v) (v_avail_idx s)) as [|Hne]; [done|]. intros [= <- <- <-].
    pose proof (vb_fetch v s i Hne) as H. rewrite Hb, Hd in H. exact H.
  - destruct (chain_at s h) as [[[r d1] j]|] eqn:Hc; [|done]. destruct (serve _ s r d1) as [[st s1]|] eqn:Hs; [|done].
    intros [= <- <- <-]. assert (carries_out (dv_store v) s r d1 0 st s1) as Hco.
    { unfold serve in Hs. destruct (d_addr d1) as [| |b|] eqn:Ha; try done.
      destruct (Z.eqb_spec (r_type r) VIRTIO_BLK_T_IN) as [Ht|Ht]; destruct (Z.testbit (d_flags d1) 1) eqn:Hw; simpl in Hs;
        try (destruct (Z.eqb_spec (r_type r) VIRTIO_BLK_T_OUT) as [Ht'|Ht']; simpl in Hs); try done; injection Hs as <- <-; by econstructor. }
    pose proof (vb_serve v s i h [] l r d1 j 0 st s1 Hb Hc Hco) as H. rewrite Hd in H. exact H.
  - intros [= <- <- <-]. exact (vb_post v s i h [] l Hd).
Qed.

#[export] Instance actor_eq_dec : EqDecision actor.
Proof. solve_decision. Defined.

(** The moves of a run. *)
Inductive move : Set := MProc (p : nat) | MIntr | MDev.

Definition exec (m : move) (y : sys) : option sys :=
  match y_panic y, m with
  | Some _, _ => None
  | None, MProc p =>
      if bool_decide (y_lock y = (if holds (y_pc y p) then Some (AProc p) else None)) then
        match proc_code (y_pc y p) with
        | None => None
        | Some c =>
            match c (y_d y) with
            | Ret l' d' t => Some (mkSys d' (y_dev y) (y_isr y) (if holds l' then Some (AProc p) else None) (moved (y_pc y) p l' t) None)
            | Sleep _ d' t => Some (mkSys d' (y_dev y) (y_isr y) None (moved (y_pc y) p (asleep (y_pc y p)) t) None)
            | Panic msg _ => Some (mkSys (y_d y) (y_dev y) (y_isr y) (y_lock y) (y_pc y) (Some msg))
            end
        end
      else None
  | None, MIntr =>
      match y_lock y with
      | None => if y_isr y then Some (mkSys (y_d y) (y_dev y) false (Some AIntr) (y_pc y) None) else None
      | Some AIntr =>
          if v_used_idx (y_d y) =? v_uidx (y_d y) then Some (mkSys (y_d y) (y_dev y) (y_isr y) None (y_pc y) None)
          else match intr_one (y_d y) with
               | Ret _ d' t => Some (mkSys d' (y_dev y) (y_isr y) (Some AIntr) (fun q => wake_pc t (y_pc y q)) None)
               | Panic msg _ => Some (mkSys (y_d y) (y_dev y) (y_isr y) (Some AIntr) (y_pc y) (Some msg))
               | Sleep _ _ _ => None
               end
      | Some (AProc _) => None
      end
  | None, MDev =>
      match fifo (y_dev y) (y_d y) (y_isr y) with
      | Some (v', d', i') => Some (mkSys d' v' i' (y_lock y) (y_pc y) None)
      | None => None
      end
  end.

Lemma exec_step m y y' : exec m y = Some y' -> step fifo_step y y'.
Proof.
  unfold exec. destruct (y_panic y) eqn:Hp; [done|]. destruct m as [p| |].
  - case_bool_decide as Hlk; [|done]. destruct (proc_code (y_pc y p)) as [c|] eqn:Hc; [|done].
    destruct (c (y_d y)) as [l' d' t|msg t|ch d' t] eqn:Hr; intros [= <-]; [by eapply s_ret|by eapply s_panic|by eapply s_sleep].
  - destruct (y_lock y) as [[p|]|] eqn:Hlk; [done| |destruct (y_isr y) eqn:Hi; [|done]; intros [= <-]; by apply s_intr].
    destruct (Z.eqb_spec (v_used_idx (y_d y)) (v_uidx (y_d y))) as [He|Hne]; [intros [= <-]; by apply s_intr_end|].
    destruct (intr_one (y_d y)) as [[] d' t|msg t|] eqn:Hr; [|..|done]; intros [= <-]; [by eapply s_intr_one|by eapply s_intr_panic].
  - destruct (fifo _ _ _) as [[[v' d'] i']|] eqn:Hf; [|done]. intros [= <-]. by apply s_dev.
Qed.

Fixpoint run (ms : list move) (y : sys) : option sys :=
  match ms with
  | [] => Some y
  | m :: ms => match exec m y with Some y' => run ms y' | None => None end
  end.

Lemma run_reachable ms y0 y y' : reachable fifo_step y0 y -> run ms y = Some y' -> reachable fifo_step y0 y'.
Proof.
  revert y. induction ms as [|m ms IH]; intros y Hr; simpl; [by intros [= <-]|].
  destruct (exec m y) as [y1|] eqn:E; [|done]. apply IH. eapply reach_step; [exact Hr|]. by apply exec_step with m.
Qed.

(** Buffer 0 caches block 3, the disk is a byte pattern, and process 0 reads. *)
Definition demo_mmio (ws : list (Z * Z)) (r : Z) : Z :=
  if r =? VIRTIO_MMIO_MAGIC_VALUE then 0x74726976
  else if r =? VIRTIO_MMIO_VENDOR_ID then 0x554d4551
  else if r =? VIRTIO_MMIO_STATUS then default 0 (snd <$> last (filter (fun w => w.1 = VIRTIO_MMIO_STATUS) ws))
  else if r =? VIRTIO_MMIO_QUEUE_READY then 0
  else if r =? VIRTIO_MMIO_QUEUE_NUM_MAX then 1024
  else 2.
Definition demo_pages : option Z * option Z * option Z := (Some 0x87fff000, Some 0x87ffe000, Some 0x87ffd000).
Definition demo_bufs (b : nat) : vbuf := mkVbuf false 3 (replicate (Z.to_nat BSIZE) 0).
Definition demo_store (x : Z) : Z := x `mod` 251.
Definition demo_called : sys :=
  mkSys (disk0 demo_bufs) (mkDevice 0 [] [] demo_store) false None (upd 0 (PWant 0 false) (fun _ => PIdle)) None.
(** Allocate and format, publish, sleep; the device serves; the interrupt; return. *)
Definition demo_moves : list move := [MProc 0; MProc 0; MDev; MProc 0; MDev; MDev; MIntr; MIntr; MIntr; MProc 0].
Definition demo_end : sys := default demo_called (run demo_moves demo_called).

Lemma demo_bufs_ok b : length (vb_data (demo_bufs b)) = Z.to_nat BSIZE /\ 0 <= vb_blockno (demo_bufs b) < 2^31.
Proof. split; [apply length_replicate|]. cbn. lia. Qed.

Lemma demo_init : exists ws, virtio_disk_init demo_mmio demo_pages demo_bufs [] = Ret (disk0 demo_bufs) ws [].
Proof. eexists. vm_compute. reflexivity. Qed.

Lemma demo_reachable : reachable fifo_step (booted (disk0 demo_bufs) demo_store) demo_end.
Proof.
  apply run_reachable with demo_moves demo_called.
  - eapply reach_step; [apply reach_init|]. by apply (s_call _ (booted (disk0 demo_bufs) demo_store) 0 0 false).
  - assert ((if run demo_moves demo_called then true else false) = true) as Hs by (by vm_compute).
    unfold demo_end. by destruct (run demo_moves demo_called).
Qed.

(** The call returned with the block in the buffer. *)
Lemma virtio_refines_witness : rtc astep (abs (booted (disk0 demo_bufs) demo_store)) (abs demo_end) /\
  y_panic demo_end = None /\ y_pc demo_end 0 = PIdle /\ vb_data (v_buf (y_d demo_end) 0) = block_at demo_store 3.
Proof.
  destruct demo_init as [ws Hinit]. split; [|by vm_compute].
  exact (proj1 (virtio_refines fifo_step fifo_virtio demo_mmio demo_pages demo_bufs demo_store _ _ _ Hinit demo_bufs_ok demo_end demo_reachable)).
Defined.

Lemma demo_quiet p : proc_code (y_pc demo_end p) = None.
Proof. by destruct p; vm_compute. Qed.

Lemma virtio_live_witness : y_pc demo_end 0 = PIdle.
Proof.
  destruct demo_init as [ws Hinit].
  apply (virtio_live fifo_step fifo_virtio demo_mmio demo_pages demo_bufs demo_store _ _ _ Hinit demo_bufs_ok demo_end demo_reachable);
    [by vm_compute|by vm_compute|by vm_compute|by vm_compute|by vm_compute|exact demo_quiet].
Defined.
End VirtioDemo.
