(* ===== verification/Pipe.v ===== *)
(** * Pipes ([kernel/pipe.c])

    A pipe with its ring buffer and 32-bit counters, generic in user memory.
    The pipe's spinlock makes everything between two sleeps one atomic step;
    [pipewrite] keeps a local count over its sleeps, so [pipewrite_from] says
    where it stopped and is called again from there. *)
From S2P Require Import Prelude Params Interfaces Ring.

Definition PIPESIZE : Z := 512.

Record pipe : Set := mkPipe {
  pi_data : bytes; pi_nread : Z; pi_nwrite : Z; pi_readopen : bool; pi_writeopen : bool }.

#[export] Instance pipe_inhabited : Inhabited pipe := populate (mkPipe [] 0 0 false false).

Definition set_nread (n : Z) (p : pipe) : pipe :=
  mkPipe (pi_data p) n (pi_nwrite p) (pi_readopen p) (pi_writeopen p).
(** [pi->data[pi->nwrite++ % PIPESIZE] = ch] *)
Definition put_char (ch : Z) (p : pipe) : pipe :=
  mkPipe (<[Z.to_nat (pi_nwrite p `mod` PIPESIZE) := ch]> (pi_data p)) (pi_nread p)
    (u32 (pi_nwrite p + 1)) (pi_readopen p) (pi_writeopen p).
Definition get_char (p : pipe) : Z := pi_data p !!! Z.to_nat (pi_nread p `mod` PIPESIZE).
Definition pipe_full (p : pipe) : bool := pi_nwrite p =? u32 (pi_nread p + PIPESIZE).
Definition pipe_empty (p : pipe) : bool := pi_nread p =? pi_nwrite p.

(** The initialisation in [pipealloc] of a page that [kalloc] filled with 5s. *)
Definition pipeinit : pipe := mkPipe (replicate (Z.to_nat PIPESIZE) 5) 0 0 true true.

Section pipe.
Context {U : Type} `{UserMem U}.

(** A pipe at address pi, used by a process that may have been killed. *)
Record pst : Type := mkPst { ps_pipe : pipe; ps_user : U; ps_killed : bool }.
Definition set_pipe (f : pipe -> pipe) (s : pst) : pst := mkPst (f (ps_pipe s)) (ps_user s) (ps_killed s).
Definition set_puser (u : U) (s : pst) : pst := mkPst (ps_pipe s) u (ps_killed s).
Definition puser {A} (m : M U A) : M pst A := zoom ps_user set_puser m.

(** The result says whether both ends are closed, when the caller frees the page. *)
Definition pipeclose (pi : Z) (writable : bool) : M pst bool :=
  (if writable then
     modify (set_pipe (fun p => mkPipe (pi_data p) (pi_nread p) (pi_nwrite p) (pi_readopen p) false)) ;;;
     wakeup (ChPipeRead pi)
   else
     modify (set_pipe (fun p => mkPipe (pi_data p) (pi_nread p) (pi_nwrite p) false (pi_writeopen p))) ;;;
     wakeup (ChPipeWrite pi)) ;;;
  let! p := gets ps_pipe in
  ret (negb (pi_readopen p) && negb (pi_writeopen p)).

(** [Blocked i]: asleep on &pi->nwrite after i bytes. *)
Inductive write_result : Set := Blocked (i : Z) | Done (r : Z).

(** Every iteration that does not stop writes a byte, so n - i are enough. *)
Fixpoint pipewrite_loop (fuel : nat) (pi addr n i : Z) : M pst write_result :=
  if i <? n then
    match fuel with
    | O => undefined_behaviour "pipewrite: fuel"
    | S fuel =>
        let! s := gets id in
        if negb (pi_readopen (ps_pipe s)) || ps_killed s then ret (Done (-1))
        else if pipe_full (ps_pipe s) then
          wakeup (ChPipeRead pi) ;;;
          ret (Blocked i)
        else
          let! r := puser (um_copyin (u64 (addr + i)) 1) in
          if r.1 =? -1 then wakeup (ChPipeRead pi) ;;; ret (Done i)
          else
            modify (set_pipe (put_char (r.2 !!! 0%nat))) ;;;
            pipewrite_loop fuel pi addr n (i + 1)
    end
  else wakeup (ChPipeRead pi) ;;; ret (Done i).

Definition pipewrite_from (pi addr n i : Z) : M pst write_result :=
  pipewrite_loop (Z.to_nat (n - i)) pi addr n i.

(** [for(i = 0; i < n; i++)] of [piperead]. *)
Fixpoint piperead_loop (fuel : nat) (addr n i : Z) : M pst Z :=
  match fuel with
  | O => ret i
  | S fuel =>
      let! p := gets ps_pipe in
      if pipe_empty p then ret i
      else
        let! r := puser (um_copyout (u64 (addr + i)) [get_char p]) in
        if r =? -1 then ret (if i =? 0 then -1 else i)
        else
          modify (set_pipe (fun p => set_nread (u32 (pi_nread p + 1)) p)) ;;;
          piperead_loop fuel addr n (i + 1)
  end.

(** Nothing is done before the sleep: a process that is woken starts over. *)
Definition piperead (pi addr n : Z) : M pst Z :=
  let! s := gets id in
  if pipe_empty (ps_pipe s) && pi_writeopen (ps_pipe s) then
    if ps_killed s then ret (-1) else sleep_on (ChPipeRead pi)
  else
    let! i := piperead_loop (Z.to_nat n) addr n 0 in
    wakeup (ChPipeWrite pi) ;;;
    ret i.
End pipe.

(** ** The ring buffer as a queue *)

Definition count (p : pipe) : Z := u32 (pi_nwrite p - pi_nread p).
Definition contents (p : pipe) : bytes := ring (pi_data p) PIPESIZE (pi_nread p) (count p).

Record pipe_ok (p : pipe) : Prop := {
  po_data : length (pi_data p) = Z.to_nat PIPESIZE;
  po_nread : 0 <= pi_nread p < 2^32;
  po_nwrite : 0 <= pi_nwrite p < 2^32;
  po_count : count p <= PIPESIZE }.

Lemma pipe_ring : 0 < PIPESIZE /\ (PIPESIZE | 2^32).
Proof. split; [done|]. by exists (2^23). Qed.

Lemma count_cases p : pipe_ok p ->
  pi_nwrite p - pi_nread p = count p \/ pi_nwrite p - pi_nread p + 2^32 = count p.
Proof.
  intros [_ H1 H2 _]. unfold count, u32. destruct (decide (0 <= pi_nwrite p - pi_nread p)).
  - left. rewrite Z.mod_small; lia.
  - right. rewrite <- (Z.mod_add _ 1), Z.mod_small by lia. lia.
Qed.

Lemma count_range p : pipe_ok p -> 0 <= count p <= PIPESIZE.
Proof. intros Hok. pose proof (u32_bound (pi_nwrite p - pi_nread p)). destruct Hok. unfold count in *. lia. Qed.

Lemma pipe_full_count p : pipe_ok p -> pipe_full p = (count p =? PIPESIZE).
Proof.
  intros Hok. pose proof (count_cases p Hok). pose proof (count_range p Hok). destruct Hok as [_ H1 H2 _].
  unfold pipe_full, u32, PIPESIZE in *. destruct (decide (pi_nread p + 512 < 2^32)).
  - rewrite Z.mod_small by lia. lia.
  - rewrite <- (Z.mod_add _ (-1)), Z.mod_small by lia. lia.
Qed.

Lemma pipe_empty_count p : pipe_ok p -> pipe_empty p = (count p =? 0).
Proof. intros Hok. pose proof (count_cases p Hok). pose proof (count_range p Hok). destruct Hok. unfold pipe_empty, PIPESIZE in *. lia. Qed.

Lemma length_contents p : pipe_ok p -> Z.of_nat (length (contents p)) = count p.
Proof. intros Hok. apply length_ring, count_range, Hok. Qed.

Lemma pipe_empty_contents p : pipe_ok p -> pipe_empty p = true <-> contents p = [].
Proof.
  intros Hok. rewrite pipe_empty_count by done. pose proof (length_contents p Hok) as Hl. split.
  - intros H0. apply ring_nil. lia.
  - intros H0. rewrite H0 in Hl. simpl in Hl. lia.
Qed.

Lemma put_char_ok ch p : pipe_ok p -> count p < PIPESIZE ->
  pipe_ok (put_char ch p) /\ contents (put_char ch p) = contents p ++ [ch].
Proof.
  intros Hok Hc. pose proof (count_range p Hok) as Hcr. destruct pipe_ring as [H0 Hdiv].
  assert (count (put_char ch p) = count p + 1) as Hcount.
  { apply u32_succ_sub. change (0 <= count p < 2^32 - 1). unfold PIPESIZE in *. lia. }
  destruct Hok as [Hd H1 H2 _]. split.
  - split; simpl; [by rewrite length_insert|done|apply u32_bound|lia].
  - unfold contents. rewrite Hcount. cbn [put_char pi_data pi_nread].
    rewrite (ring_slot_u32 PIPESIZE H0 Hdiv (pi_nwrite p) (pi_nread p + count p)) by (symmetry; apply u32_sub_add).
    apply ring_put; [done|done|rewrite Hd; done|lia].
Qed.

Lemma get_char_ok p : pipe_ok p -> pipe_empty p = false ->
  let p' := set_nread (u32 (pi_nread p + 1)) p in
  pipe_ok p' /\ contents p = get_char p :: contents p'.
Proof.
  intros Hok Hne p'. rewrite pipe_empty_count in Hne by done. pose proof (count_range p Hok) as Hcr.
  destruct pipe_ring as [H0 Hdiv].
  assert (count p' = count p - 1) as Hcount by (apply u32_sub_succ; change (0 < count p); lia).
  destruct Hok as [Hd H1 H2 _]. split.
  - split; simpl; [done|apply u32_bound|done|lia].
  - unfold contents. rewrite Hcount. cbn [p' set_nread pi_data pi_nread].
    rewrite ring_u32 by done. apply ring_head; [done|done|lia].
Qed.

(** ** The calls, against the queue *)

Section calls.
Context {U : Type} `{UserMem U}.

(** User memory of the writer: its bytes can be read, up to the first that
    faults (if any), and reading changes nothing. *)
Definition readable (u : U) (addr : Z) (ld : Z -> Z) (lim n : Z) : Prop := forall i, 0 <= i < n ->
  exists tr, um_copyin (u64 (addr + i)) 1 u = Ret (if i <? lim then (0, [ld i]) else (-1, [])) u tr.

Definition write_post (s : pst) (ld : Z -> Z) (n lim i : Z) (r : write_result) (s' : pst (U:=U)) : Prop :=
  exists k, 0 <= k /\ pipe_ok (ps_pipe s') /\ ps_user s' = ps_user s /\ ps_killed s' = ps_killed s /\
    pi_readopen (ps_pipe s') = pi_readopen (ps_pipe s) /\ pi_writeopen (ps_pipe s') = pi_writeopen (ps_pipe s) /\
    contents (ps_pipe s') = contents (ps_pipe s) ++ (ld <$> seqZ i k) /\
    match r with
    | Blocked j => j = i + k /\ j < n /\ j <= Z.max i lim /\ count (ps_pipe s') = PIPESIZE
    | Done r => if negb (pi_readopen (ps_pipe s)) || ps_killed s then i < n /\ r = -1 /\ k = 0 \/ n <= i /\ r = i /\ k = 0
                else r = i + k /\ r = Z.max i (Z.min n lim)
    end.

Lemma pipewrite_loop_wp fuel s pi addr n i ld lim :
  pipe_ok (ps_pipe s) -> readable (ps_user s) addr ld lim n -> 0 <= i -> n - i <= Z.of_nat fuel ->
  wp (pipewrite_loop fuel pi addr n i) s (write_post s ld n lim i).
Proof.
  revert s i. induction fuel as [|fuel IH]; intros s i Hok Hrd Hi Hf; cbn [pipewrite_loop].
  - destruct (Z.ltb_spec i n); [lia|]. wp_steps. exists 0. rewrite app_nil_r. split_and!; try done.
    destruct (negb _ || _); [right; lia|lia].
  - destruct (Z.ltb_spec i n) as [Hin|Hin].
    2:{ wp_steps. exists 0. rewrite app_nil_r. split_and!; try done. destruct (negb _ || _); [right; lia|lia]. }
    apply wp_bind, wp_gets. unfold id. destruct (negb (pi_readopen (ps_pipe s)) || ps_killed s) eqn:Hk.
    { wp_steps. exists 0. rewrite app_nil_r, Hk. split_and!; try done. left. lia. }
    rewrite pipe_full_count by done. destruct (Z.eqb_spec (count (ps_pipe s)) PIPESIZE) as [Hc|Hc].
    { wp_steps. exists 0. rewrite app_nil_r. split_and!; try done; lia. }
    pose proof (count_range _ Hok) as Hcr. destruct (Hrd i ltac:(lia)) as [tr Hcp]. apply wp_bind, wp_zoom.
    eapply wp_intro; [exact Hcp|]. destruct (Z.ltb_spec i lim) as [Hl|Hl].
    2:{ cbn [fst]. wp_steps. exists 0. rewrite app_nil_r, Hk. destruct s; split_and!; try done; lia. }
    cbn [fst snd]. change (0 =? -1) with false. apply wp_bind, wp_modify.
    destruct (put_char_ok (ld i) (ps_pipe s) Hok ltac:(lia)) as [Hok' Hcon].
    eapply wp_mono; [apply IH; [exact Hok'|exact Hrd|lia|lia]|].
    intros r s' (k & Hk0 & H1 & H2 & H3 & H4 & H5 & H6 & H7). exists (k + 1). cbn [ps_pipe set_pipe ps_user ps_killed set_puser] in *.
    cbn [pi_readopen pi_writeopen put_char] in *. rewrite Hk in H7. rewrite Hk.
    split_and!; try done; [lia| |].
    + rewrite H6. change (([ld i] : bytes) !!! 0%nat) with (ld i). rewrite Hcon, <- app_assoc. f_equal.
      by rewrite (Z.add_comm k), seqZ_app, fmap_app by lia.
    + destruct r; lia.
Qed.

(** User memory of the reader: a copy of one byte is recorded or fails. *)
Definition recording (outs : U -> list (Z * Z)) : Prop := forall va c u,
  (exists u' tr, um_copyout va [c] u = Ret 0 u' tr /\ outs u' = outs u ++ [(va, c)]) \/
  (exists u' tr, um_copyout va [c] u = Ret (-1) u' tr /\ outs u' = outs u).

(** The first k bytes of the queue went to the addresses from addr + i on. *)
Definition moved (outs : U -> list (Z * Z)) (addr i k : Z) (s s' : pst) : Prop :=
  pipe_ok (ps_pipe s') /\ ps_killed s' = ps_killed s /\
  pi_readopen (ps_pipe s') = pi_readopen (ps_pipe s) /\ pi_writeopen (ps_pipe s') = pi_writeopen (ps_pipe s) /\
  exists bs, contents (ps_pipe s) = bs ++ contents (ps_pipe s') /\ Z.of_nat (length bs) = k /\
    outs (ps_user s') = outs (ps_user s) ++ zip ((fun j => u64 (addr + j)) <$> seqZ i k) bs.

Lemma moved_none outs addr i s s' : pipe_ok (ps_pipe s) -> ps_pipe s' = ps_pipe s -> ps_killed s' = ps_killed s ->
  outs (ps_user s') = outs (ps_user s) -> moved outs addr i 0 s s'.
Proof.
  intros Hok Hp Hk Ho. unfold moved. rewrite Hp, Hk. do 4 (split; [done|]). exists []. split; [done|].
  split; [done|]. by rewrite Ho, app_nil_r.
Qed.

Lemma piperead_loop_wp outs fuel s addr n i :
  recording outs -> pipe_ok (ps_pipe s) -> 0 <= i ->
  wp (piperead_loop fuel addr n i) s (fun r s' => exists k, 0 <= k <= Z.of_nat fuel /\ moved outs addr i k s s' /\
    (r = i + k \/ r = -1 /\ i = 0 /\ k = 0) /\
    (r = i + k -> k < Z.of_nat fuel -> contents (ps_pipe s') = [] \/ 0 < i + k)).
Proof.
  intros Hrec. revert s i. induction fuel as [|fuel IH]; intros s i Hok Hi; cbn [piperead_loop].
  - wp_steps. exists 0. split_and!; [lia|lia|by apply moved_none|lia|lia].
  - apply wp_bind, wp_gets. destruct (pipe_empty (ps_pipe s)) eqn:He.
    { wp_steps. exists 0. split_and!; [lia|lia|by apply moved_none|lia|]. intros _ _. left.
      by apply pipe_empty_contents. }
    destruct (get_char_ok (ps_pipe s) Hok He) as [Hok' Hcon].
    apply wp_bind, wp_zoom. destruct (Hrec (u64 (addr + i)) (get_char (ps_pipe s)) (ps_user s))
      as [(u' & tr & Hc & Ho)|(u' & tr & Hc & Ho)]; eapply wp_intro; try exact Hc.
    + change (0 =? -1) with false. apply wp_bind, wp_modify.
      eapply wp_mono; [apply IH; [exact Hok'|lia]|]. intros r s' (k & Hk & (H1 & H2 & H3 & H4 & bs & H5 & H6 & H7) & Hr & He').
      exists (k + 1). split; [lia|]. split; [|split; [lia|intros; right; lia]]. do 4 (split; [done|]).
      exists (get_char (ps_pipe s) :: bs). rewrite Hcon. simpl in H5. rewrite H5. split; [done|]. split; [simpl; lia|].
      rewrite H7. cbn [ps_user set_pipe set_puser]. rewrite Ho, <- app_assoc. f_equal.
      rewrite (Z.add_comm k), seqZ_app, fmap_app by lia. rewrite (seqZ_cons i 1), (seqZ_nil _ (Z.pred 1)) by lia. done.
    + change (-1 =? -1) with true. apply wp_ret. exists 0. split; [lia|]. split; [by apply moved_none|].
      destruct (Z.eqb_spec i 0); split; (lia || intros; right; lia).
Qed.
End calls.

(** ** Any number of readers and writers *)

(** One call between two sleeps; sent and received list all bytes so far. *)
Inductive pipe_step {U} `{UserMem U} (outs : U -> list (Z * Z)) :
    pipe * bytes * bytes -> pipe * bytes * bytes -> Prop :=
  | step_write (s s' : pst (U:=U)) pi addr n i ld lim r tr sent recv :
      0 <= i <= n -> readable (ps_user s) addr ld lim n ->
      pipewrite_from pi addr n i s = Ret r s' tr ->
      let stop := match r with Blocked j => j | Done j => Z.max i j end in
      pipe_step outs (ps_pipe s, sent, recv) (ps_pipe s', sent ++ (ld <$> seqZ i (stop - i)), recv)
  | step_read (s s' : pst (U:=U)) pi addr n r tr sent recv new :
      piperead pi addr n s = Ret r s' tr -> outs (ps_user s') = outs (ps_user s) ++ new ->
      pipe_step outs (ps_pipe s, sent, recv) (ps_pipe s', sent, recv ++ new.*2)
  | step_close (s s' : pst (U:=U)) pi w b tr sent recv :
      pipeclose pi w s = Ret b s' tr -> pipe_step outs (ps_pipe s, sent, recv) (ps_pipe s', sent, recv).

Definition fifo_inv (x : pipe * bytes * bytes) : Prop :=
  let '(p, sent, recv) := x in pipe_ok p /\ sent = recv ++ contents p.

Lemma pipeclose_keeps {U} `{UserMem U} pi w (s : pst (U:=U)) b s' tr :
  pipeclose pi w s = Ret b s' tr -> contents (ps_pipe s') = contents (ps_pipe s) /\
  (pipe_ok (ps_pipe s) -> pipe_ok (ps_pipe s')).
Proof. destruct w; intros [= _ <- _]; (split; [done|intros [? ? ? ?]; by split]). Qed.

Lemma pipe_step_inv {U} `{UserMem U} (outs : U -> list (Z * Z)) x x' :
  recording outs -> pipe_step outs x x' -> fifo_inv x -> fifo_inv x'.
Proof.
  intros Hrec Hst. destruct Hst as [s s' pi addr n i ld lim r tr sent recv Hi Hrd Hrun stop|s s' pi addr n r tr sent recv new Hrun Hnew|
    s s' pi w b tr sent recv Hrun]; intros [Hok ->].
  - pose proof (pipewrite_loop_wp (Z.to_nat (n - i)) s pi addr n i ld lim Hok Hrd ltac:(lia) ltac:(lia)) as Hwp.
    fold (pipewrite_from (U:=U) pi addr n i) in Hwp. unfold wp, wpt in Hwp. rewrite Hrun in Hwp.
    destruct Hwp as (k & Hk & H1 & _ & _ & _ & _ & H6 & H7). split; [done|]. rewrite H6, <- app_assoc. do 4 f_equal.
    unfold stop. destruct r; [lia|]. destruct (negb _ || _); lia.
  - unfold piperead in Hrun. assert (wlp (piperead pi addr n) s (fun _ s' => exists k i, moved outs addr i k s s')) as Hw.
    { unfold piperead. apply wlp_bind, wlp_gets. unfold id. destruct (pipe_empty (ps_pipe s) && pi_writeopen (ps_pipe s)).
      - destruct (ps_killed s); [|by apply wlp_sleep]. apply wlp_ret. exists 0, 0. by apply moved_none.
      - apply wlp_bind. intros a s1 t1 Hl. pose proof (piperead_loop_wp outs (Z.to_nat n) s addr n 0 Hrec Hok ltac:(lia)) as Hwp.
        unfold wp, wpt in Hwp. rewrite Hl in Hwp. destruct Hwp as (k & _ & Hm & _). wlp_steps. eauto. }
    destruct (Hw _ _ _ Hrun) as (k & i & H1 & _ & _ & _ & bs & H5 & H6 & H7). split; [done|].
    rewrite H7 in Hnew. apply app_inv_head in Hnew as <-. rewrite H5, snd_zip by (rewrite length_fmap, length_seqZ; lia).
    by rewrite app_assoc.
  - destruct (pipeclose_keeps _ _ _ _ _ _ Hrun) as [Hc Hok']. split; [auto|by rewrite Hc].
Qed.

(** C19.  A pipe delivers every byte once and in order.  For any interleaving
    of calls of pipewrite (also resumed after a sleep), piperead and pipeclose
    by any processes, starting from a new pipe, with user memory that may
    fault at any byte and with the counters wrapping around at 2^32: the bytes
    accepted so far are exactly the bytes delivered so far followed by the at
    most PIPESIZE bytes in the ring; and a writer sleeps only when the ring is
    full. *)
Theorem pipe_fifo {U} `{UserMem U} (outs : U -> list (Z * Z)) p sent recv :
  recording outs -> rtc (pipe_step outs) (pipeinit, [], []) (p, sent, recv) ->
  sent = recv ++ contents p /\ (length (contents p) <= Z.to_nat PIPESIZE)%nat /\
  (forall (u : U) k pi addr n i ld lim, 0 <= i -> readable u addr ld lim n ->
     wp (pipewrite_from pi addr n i) (mkPst p u k) (fun r s' =>
       forall j, r = Blocked j -> length (contents (ps_pipe s')) = Z.to_nat PIPESIZE)).
Proof.
  intros Hrec Hr. assert (fifo_inv (p, sent, recv)) as [Hok Heq].
  { assert (fifo_inv (pipeinit, [], [])) as HI by (split; [split; by vm_compute|done]).
    revert HI. generalize (pipeinit, [] : bytes, [] : bytes) (p, sent, recv) Hr. clear - Hrec.
    induction 1; eauto using pipe_step_inv. }
  split; [done|]. split.
  - pose proof (length_contents p Hok). pose proof (count_range p Hok). lia.
  - intros u k pi addr n i ld lim Hi Hrd.
    eapply wp_mono; [apply (pipewrite_loop_wp _ (mkPst p u k) pi addr n i ld lim); [done|done|done|lia]|].
    intros r s' (c & _ & H1 & _ & _ & _ & _ & _ & H7) j ->. pose proof (length_contents _ H1). lia.
Qed.

(** User memory that records what is copied out and holds i * i at address i. *)
#[local] Instance demo_user_mem : UserMem (list (Z * Z)) := {
  um_copyout va bs := fun u => Ret 0 (u ++ ((fun b => (va, b)) <$> bs)) [];
  um_copyin va n := fun u => Ret (if va <? 100 then (0, (fun k => (va + k) * (va + k)) <$> seqZ 0 n) else (-1, [])) u [] }.

Definition demo_after (n m : Z) : pipe :=
  match pipewrite_from 0 0 n 0 (mkPst pipeinit ([] : list (Z * Z)) false) with
  | Ret _ s1 _ => match piperead 0 100 m (mkPst (ps_pipe s1) ([] : list (Z * Z)) false) with
                  | Ret _ s2 _ => ps_pipe s2 | _ => pipeinit end
  | _ => pipeinit
  end.

(** Five bytes written, two read. *)
Lemma pipe_fifo_witness : [0; 1; 4; 9; 16] = [0; 1] ++ contents (demo_after 5 2).
Proof.
  apply (pipe_fifo (U:=list (Z * Z)) id (demo_after 5 2) [0; 1; 4; 9; 16] [0; 1]).
  - intros va c u. left. eexists _, _. split; reflexivity.
  - pose (s1 := (mkPst (mkPipe (<[4%nat := 16]> (<[3%nat := 9]> (<[2%nat := 4]> (<[1%nat := 1]> (<[0%nat := 0]>
      (pi_data pipeinit)))))) 0 5 true true) ([] : list (Z * Z)) false)).
    apply (rtc_l _ _ (ps_pipe s1, [0; 1; 4; 9; 16], [])); [|apply rtc_once].
    + apply (step_write id (mkPst pipeinit [] false) s1 0 0 5 0 (fun i => i * i) 100 (Done 5) [Wake (ChPipeRead 0)] [] []);
        [lia| |vm_compute; reflexivity]. intros i Hi. exists []. cbn. unfold u64. rewrite Z.mod_small by lia.
      destruct (Z.ltb_spec (0 + i) 100), (Z.ltb_spec i 100); try lia.
      change (seqZ 0 1) with [0]. rewrite Z.add_0_l. cbn [fmap list_fmap]. by rewrite Z.add_0_r.
    + apply (step_read id s1 (mkPst (demo_after 5 2) [(100, 0); (101, 1)] false) 0 100 2 2 [Wake (ChPipeWrite 0)] _ []
        [(100, 0); (101, 1)]); vm_compute; reflexivity.
Defined.
