(* ===== verification/Console.v ===== *)
(** * Console and UART ([kernel/console.c], [kernel/uart.c])

    The input line editor, console reads and writes, and the UART driver.
    What the device answers when its registers are read is an argument of the
    interrupt handler; what is sent to it is the trace of [Putc] events.  The
    locks cons.lock and tx_lock make everything between two sleeps atomic;
    functions that sleep with local state are resumed from where they stopped. *)
From S2P Require Import Prelude Params Interfaces Ring.

Definition INPUT_BUF_SIZE : Z := 128.
Definition BACKSPACE : Z := 0x100.
(** C(x): control-x *)
Definition CTRL (x : Z) : Z := x - 64.
Definition CTRL_D : Z := CTRL 68.
Definition CTRL_H : Z := CTRL 72.
Definition CTRL_P : Z := CTRL 80.
Definition CTRL_U : Z := CTRL 85.
Definition DEL : Z := 0x7f.
Definition NEWLINE : Z := 10.
Definition CR : Z := 13.

(** ** UART *)

(** The register writes of [uartinit], in order: (register, value). *)
Definition uartinit : list (Z * Z) :=
  [(1, 0x00);                                  (* IER: interrupts off *)
   (3, Z.shiftl 1 7);                          (* LCR: baud latch *)
   (0, 0x03); (1, 0x00);                       (* divisor for 38.4K *)
   (3, Z.shiftl 3 0);                          (* LCR: eight bits *)
   (2, Z.lor (Z.shiftl 1 0) (Z.shiftl 3 1));   (* FCR: enable and clear *)
   (1, Z.lor (Z.shiftl 1 1) (Z.shiftl 1 0))].  (* IER: both interrupts *)

(** Spins until the transmitter is idle, then sends. *)
Definition uartputc_sync {S} (c : Z) : M S unit := emit (Putc (u8 c)).

Definition consputc {S} (c : Z) : M S unit :=
  if c =? BACKSPACE then
    uartputc_sync 8 ;;;
    uartputc_sync 32 ;;;
    uartputc_sync 8
  else uartputc_sync c.

Record cons : Set := mkCons { c_buf : bytes; c_r : Z; c_w : Z; c_e : Z }.

Section console.
Context {U : Type} `{UserMem U}.

Record cst : Type := mkCst {
  cs_cons : cons;        (* cons *)
  cs_tx_busy : bool;     (* tx_busy *)
  cs_user : U;           (* myproc()'s memory *)
  cs_killed : bool }.    (* killed(myproc()) *)
Definition set_cons (f : cons -> cons) (s : cst) : cst :=
  mkCst (f (cs_cons s)) (cs_tx_busy s) (cs_user s) (cs_killed s).
Definition set_busy (b : bool) (s : cst) : cst := mkCst (cs_cons s) b (cs_user s) (cs_killed s).
Definition set_cuser (u : U) (s : cst) : cst := mkCst (cs_cons s) (cs_tx_busy s) u (cs_killed s).
Definition cuser {A} (m : M U A) : M cst A := zoom cs_user set_cuser m.

Definition set_r (r : Z) (c : cons) : cons := mkCons (c_buf c) r (c_w c) (c_e c).
Definition set_w (w : Z) (c : cons) : cons := mkCons (c_buf c) (c_r c) w (c_e c).
Definition set_e (e : Z) (c : cons) : cons := mkCons (c_buf c) (c_r c) (c_w c) e.
Definition buf_at (c : cons) (k : Z) : Z := c_buf c !!! Z.to_nat (k `mod` INPUT_BUF_SIZE).

(** The bytes of buf not sent when the driver sleeps on &tx_chan. *)
Fixpoint uartwrite (buf : bytes) : M cst bytes :=
  match buf with
  | [] => ret []
  | b :: rest =>
      let! busy := gets cs_tx_busy in
      if busy then ret buf
      else
        emit (Putc b) ;;;
        modify (set_busy true) ;;;
        uartwrite rest
  end.

(** [WBlocked i rest]: asleep in [uartwrite] with rest of the batch at i unsent. *)
Inductive cwrite_result : Set := WBlocked (i nn : Z) (rest : bytes) | WDone (r : Z).

(** The loop of [consolewrite] from index i; 32 bytes go in one batch. *)
Fixpoint consolewrite_loop (fuel : nat) (src n i : Z) : M cst cwrite_result :=
  if i <? n then
    match fuel with
    | O => undefined_behaviour "consolewrite: fuel"
    | S fuel =>
        let nn := Z.min 32 (n - i) in
        let! r := cuser (um_copyin (u64 (src + i)) nn) in
        if r.1 =? -1 then ret (WDone i)
        else
          let! rest := uartwrite r.2 in
          match rest with
          | [] => consolewrite_loop fuel src n (i + nn)
          | _ => ret (WBlocked i nn rest)
          end
    end
  else ret (WDone i).
Definition consolewrite (src n i : Z) : M cst cwrite_result :=
  consolewrite_loop (Z.to_nat ((n - i) / 32 + 1)) src n i.

(** Resuming after a sleep in [uartwrite]. *)
Definition consolewrite_resume (src n i nn : Z) (rest : bytes) : M cst cwrite_result :=
  let! rest := uartwrite rest in
  match rest with
  | [] => consolewrite src n (i + nn)
  | _ => ret (WBlocked i nn rest)
  end.

(** [RBlocked n]: asleep on &cons.r with n bytes still wanted. *)
Inductive cread_result : Set := RBlocked (n : Z) | RDone (r : Z).

(** The loop of [consoleread]; dst is target - n bytes past its start. *)
Fixpoint consoleread_loop (fuel : nat) (dst target n : Z) : M cst cread_result :=
  match fuel with
  | O => ret (RDone (target - n))
  | S fuel =>
      let! s := gets id in
      if c_r (cs_cons s) =? c_w (cs_cons s) then
        if cs_killed s then ret (RDone (-1)) else ret (RBlocked n)
      else
        let c := buf_at (cs_cons s) (c_r (cs_cons s)) in
        modify (set_cons (fun k => set_r (u32 (c_r k + 1)) k)) ;;;
        if c =? CTRL_D then
          when (n <? target) (modify (set_cons (fun k => set_r (u32 (c_r k - 1)) k))) ;;;
          ret (RDone (target - n))
        else
          let! r := cuser (um_copyout (u64 (dst + (target - n))) [c]) in
          if r =? -1 then ret (RDone (target - n))
          else if c =? NEWLINE then ret (RDone (target - (n - 1)))
          else consoleread_loop fuel dst target (n - 1)
  end.
Definition consoleread (dst target n : Z) : M cst cread_result :=
  consoleread_loop (Z.to_nat n) dst target n.

(** The loop that kills the line: it stops at the latest when e reaches w. *)
Fixpoint kill_line (fuel : nat) : M cst unit :=
  match fuel with
  | O => ret tt
  | S fuel =>
      let! k := gets cs_cons in
      if negb (c_e k =? c_w k) && negb (buf_at k (u32 (c_e k - 1)) =? NEWLINE) then
        modify (set_cons (set_e (u32 (c_e k - 1)))) ;;;
        consputc BACKSPACE ;;;
        kill_line fuel
      else ret tt
  end.

(** [procdump] prints the process table (it is a list of events here). *)
Definition consoleintr (procdump : list event) (c : Z) : M cst unit :=
  let! k := gets cs_cons in
  if c =? CTRL_P then fun s => Ret tt s procdump
  else if c =? CTRL_U then kill_line (Z.to_nat INPUT_BUF_SIZE)
  else if (c =? CTRL_H) || (c =? DEL) then
    when (negb (c_e k =? c_w k))
      (modify (set_cons (set_e (u32 (c_e k - 1)))) ;;;
       consputc BACKSPACE)
  else if negb (c =? 0) && (u32 (c_e k - c_r k) <? INPUT_BUF_SIZE) then
    let c := if c =? CR then NEWLINE else c in
    consputc c ;;;
    modify (set_cons (fun k =>
      mkCons (<[Z.to_nat (c_e k `mod` INPUT_BUF_SIZE) := u8 c]> (c_buf k)) (c_r k) (c_w k) (u32 (c_e k + 1)))) ;;;
    let! k := gets cs_cons in
    when ((c =? NEWLINE) || (c =? CTRL_D) || (u32 (c_e k - c_r k) =? INPUT_BUF_SIZE))
      (modify (set_cons (fun k => set_w (c_e k) k)) ;;;
       wakeup ChCons)
  else ret tt.

(** [uartintr]: idle is the transmitter bit read from LSR, input the bytes
    that [uartgetc] returns until none is waiting. *)
Definition uartintr (procdump : list event) (idle : bool) (input : bytes) : M cst unit :=
  when idle (modify (set_busy false) ;;; wakeup ChUart) ;;;
  foldr (fun c rest => consoleintr procdump c ;;; rest) (ret tt) input.
End console.

(** ** The input buffer as two queues *)

Definition n_ready (k : cons) : Z := u32 (c_w k - c_r k).
Definition n_edit (k : cons) : Z := u32 (c_e k - c_w k).
(** The lines a reader may take, and the line being edited. *)
Definition ready (k : cons) : bytes := ring (c_buf k) INPUT_BUF_SIZE (c_r k) (n_ready k).
Definition editing (k : cons) : bytes := ring (c_buf k) INPUT_BUF_SIZE (c_w k) (n_edit k).

Record cons_ok (k : cons) : Prop := {
  ck_buf : Z.of_nat (length (c_buf k)) = INPUT_BUF_SIZE;
  ck_r : 0 <= c_r k < 2^32; ck_w : 0 <= c_w k < 2^32; ck_e : 0 <= c_e k < 2^32;
  ck_room : n_ready k + n_edit k <= INPUT_BUF_SIZE;
  ck_line : NEWLINE ∉ editing k }.

Definition line_state : Type := bytes * bytes.

(** What a typed character means: edit the line, or commit it. *)
Definition type_char (c : Z) (x : line_state) : line_state :=
  let '(rdy, line) := x in
  if c =? CTRL_P then (rdy, line)
  else if c =? CTRL_U then (rdy, [])
  else if (c =? CTRL_H) || (c =? DEL) then (rdy, take (length line - 1) line)
  else if negb (c =? 0) && (Z.of_nat (length rdy + length line) <? INPUT_BUF_SIZE) then
    let c := if c =? CR then NEWLINE else c in
    let line := line ++ [c] in
    if (c =? NEWLINE) || (c =? CTRL_D) || (Z.of_nat (length rdy + length line) =? INPUT_BUF_SIZE)
    then (rdy ++ line, []) else (rdy, line)
  else (rdy, line).

Lemma cons_ring : 0 < INPUT_BUF_SIZE /\ (INPUT_BUF_SIZE | 2^32).
Proof. split; [done|]. by exists (2^25). Qed.

Section editor.
Implicit Types (k : cons).

Lemma ring_cong (N : Z) (d : bytes) a b len : 0 < N -> (N | 2^32) -> u32 a = u32 b -> ring d N a len = ring d N b len.
Proof. intros H0 Hd Hab. by rewrite <- (ring_u32 N H0 Hd d a), Hab, ring_u32. Qed.

Lemma n_ready_pos k : 0 <= n_ready k.
Proof. apply u32_bound. Qed.
Lemma n_edit_pos k : 0 <= n_edit k.
Proof. apply u32_bound. Qed.

Lemma n_total k : n_ready k + n_edit k < 2^32 -> u32 (c_e k - c_r k) = n_ready k + n_edit k.
Proof.
  intros H. pose proof (n_ready_pos k). pose proof (n_edit_pos k).
  rewrite <- (Z.mod_small (n_ready k + n_edit k) (2^32)) by lia. unfold n_ready, n_edit, u32.
  rewrite Z.add_mod_idemp_l, Z.add_mod_idemp_r by lia. f_equal. lia.
Qed.

Lemma whole k : ready k ++ editing k = ring (c_buf k) INPUT_BUF_SIZE (c_r k) (n_ready k + n_edit k).
Proof.
  destruct cons_ring as [H0 Hd]. pose proof (n_ready_pos k). pose proof (n_edit_pos k).
  rewrite ring_app by done. unfold ready, editing. f_equal. apply ring_cong; [done|done|].
  symmetry. apply u32_sub_add.
Qed.

Lemma lengths k : Z.of_nat (length (ready k)) = n_ready k /\ Z.of_nat (length (editing k)) = n_edit k.
Proof. split; apply length_ring; [apply n_ready_pos|apply n_edit_pos]. Qed.

(** Removing the last character of the line. *)
Lemma erase_ok k : cons_ok k -> c_e k <> c_w k ->
  let k' := set_e (u32 (c_e k - 1)) k in
  cons_ok k' /\ ready k' = ready k /\ editing k' = take (length (editing k) - 1) (editing k) /\
  n_edit k' = n_edit k - 1 /\
  buf_at k (u32 (c_e k - 1)) ∈ editing k.
Proof.
  intros [Hb Hr Hw He Hroom Hl] Hne k'. destruct cons_ring as [H0 Hd].
  assert (0 < n_edit k) as Hpos.
  { pose proof (n_edit_pos k). pose proof (u32_eq_sub (c_e k) (c_w k) He Hw). unfold n_edit in *. lia. }
  assert (n_edit k' = n_edit k - 1) as Hn by (by apply u32_pred_sub).
  assert (editing k = editing k' ++ [buf_at k (u32 (c_e k - 1))]) as Hlast.
  { unfold editing. rewrite Hn, ring_last by done. cbn [k' set_e c_buf c_w]. do 2 f_equal. unfold buf_at. do 2 f_equal.
    apply ring_slot_u32; [done|done|]. apply u32_sub_add_pred. }
  assert (ready k' = ready k) as Hrdy by done.
  split; [split|split; [done|split_and!; [|done|]]]; try done.
  - apply u32_bound.
  - change (n_ready k') with (n_ready k). lia.
  - intros Hin. apply Hl. rewrite Hlast. set_solver.
  - rewrite Hlast, length_app. simpl. replace (length (editing k') + 1 - 1)%nat with (length (editing k')) by lia.
    by rewrite take_app_length.
  - rewrite Hlast. set_solver.
Qed.

(** Appending a character that is not a newline, or any before a commit. *)
Lemma append_ok k c : cons_ok k -> 0 <= c < 256 -> n_ready k + n_edit k < INPUT_BUF_SIZE ->
  let k' := mkCons (<[Z.to_nat (c_e k `mod` INPUT_BUF_SIZE) := u8 c]> (c_buf k)) (c_r k) (c_w k) (u32 (c_e k + 1)) in
  ready k' = ready k /\ editing k' = editing k ++ [c] /\ n_ready k' = n_ready k /\ n_edit k' = n_edit k + 1 /\
  (c <> NEWLINE -> cons_ok k').
Proof.
  intros [Hb Hr Hw He Hroom Hl] Hc Hlt k'. destruct cons_ring as [H0 Hd].
  pose proof (n_ready_pos k) as Hp1. pose proof (n_edit_pos k) as Hp2.
  assert (n_edit k' = n_edit k + 1) as Hn by (apply u32_succ_sub; change (0 <= n_edit k < 2^32 - 1); unfold INPUT_BUF_SIZE in *; lia).
  assert (n_ready k' = n_ready k) as Hn1 by done.
  pose proof (whole k') as Hwh. rewrite Hn, Hn1 in Hwh. cbn [k' c_buf c_r] in Hwh. rewrite Z.add_assoc in Hwh.
  rewrite (ring_slot_u32 _ H0 Hd (c_e k) (c_r k + (n_ready k + n_edit k))) in Hwh.
  2:{ rewrite <- n_total by (unfold INPUT_BUF_SIZE in *; lia). symmetry. apply u32_sub_add. }
  rewrite ring_put, <- whole, <- app_assoc, (u8_id c) in Hwh by (done || unfold INPUT_BUF_SIZE in *; lia).
  destruct (lengths k) as [L1 L2]. destruct (lengths k') as [L1' L2'].
  apply app_inj_1 in Hwh as [Hrd Hed]; [|lia].
  split_and!; try done. intros Hnl. split; try done; cbn [k' c_buf c_e].
  - by rewrite length_insert.
  - apply u32_bound.
  - fold k'. lia.
  - fold k'. rewrite Hed. rewrite elem_of_app, list_elem_of_singleton. intros [?|?]; congruence.
Qed.

(** Committing the line. *)
Lemma commit_ok k : (cons_ok k \/ n_ready k + n_edit k <= INPUT_BUF_SIZE /\ Z.of_nat (length (c_buf k)) = INPUT_BUF_SIZE /\
    0 <= c_r k < 2^32 /\ 0 <= c_e k < 2^32) ->
  let k' := set_w (c_e k) k in cons_ok k' /\ ready k' = ready k ++ editing k /\ editing k' = [].
Proof.
  intros Hok k'. assert (n_ready k + n_edit k <= INPUT_BUF_SIZE /\ Z.of_nat (length (c_buf k)) = INPUT_BUF_SIZE /\
    0 <= c_r k < 2^32 /\ 0 <= c_e k < 2^32) as (Hroom & Hb & Hr & He) by (destruct Hok as [[]|]; tauto).
  assert (n_edit k' = 0) as Hn by (unfold n_edit; simpl; by rewrite Z.sub_diag).
  assert (n_ready k' = n_ready k + n_edit k) as Hn1 by (change (n_ready k') with (u32 (c_e k - c_r k)); apply n_total; unfold INPUT_BUF_SIZE in *; lia).
  assert (editing k' = []) as Hed by (unfold editing; rewrite Hn; apply ring_nil; lia).
  split; [|split; [|done]].
  - split; try done; [lia|]. rewrite Hed. set_solver.
  - rewrite whole. unfold ready. by rewrite Hn1.
Qed.
End editor.

Section console_wp.
Context {U : Type} `{UserMem U}.
Implicit Types (s : cst (U:=U)).

Definition lines (s : cst (U:=U)) : line_state := (ready (cs_cons s), editing (cs_cons s)).
Definition same_rest (s s' : cst (U:=U)) : Prop := cs_user s' = cs_user s /\ cs_killed s' = cs_killed s.

Lemma consputc_wp c s Q : Q tt s -> wp (consputc c) s Q.
Proof. intros HQ. unfold consputc, uartputc_sync. destruct (c =? BACKSPACE); by wp_steps. Qed.

Lemma kill_line_wp fuel s : cons_ok (cs_cons s) -> n_edit (cs_cons s) <= Z.of_nat fuel ->
  wp (kill_line fuel) s (fun _ s' => cons_ok (cs_cons s') /\ same_rest s s' /\ lines s' = (ready (cs_cons s), [])).
Proof.
  revert s. induction fuel as [|fuel IH]; intros s Hok Hf; cbn [kill_line].
  - apply wp_ret. split_and!; [done..|]. unfold lines. f_equal. apply ring_nil. lia.
  - apply wp_bind, wp_gets. destruct (Z.eqb_spec (c_e (cs_cons s)) (c_w (cs_cons s))) as [He|He].
    + apply wp_ret. split_and!; [done..|]. unfold lines. f_equal. apply ring_nil. unfold n_edit. by rewrite He, Z.sub_diag.
    + destruct (erase_ok _ Hok He) as (Hok' & Hr & Hed & Hn & Hin).
      destruct (Z.eqb_spec (buf_at (cs_cons s) (u32 (c_e (cs_cons s) - 1))) NEWLINE) as [Hnl|Hnl].
      { rewrite Hnl in Hin. by destruct (ck_line _ Hok). }
      cbn [negb andb]. apply wp_bind, wp_modify, wp_bind, consputc_wp.
      eapply wp_mono; [apply IH; [exact Hok'|simpl; lia]|]. intros ? s' H'. exact H'.
Qed.

Lemma consoleintr_wp pd c s : cons_ok (cs_cons s) -> 0 <= c < 256 ->
  wp (consoleintr pd c) s (fun _ s' => cons_ok (cs_cons s') /\ same_rest s s' /\ lines s' = type_char c (lines s)).
Proof.
  intros Hok Hc. unfold consoleintr, type_char, lines. apply wp_bind, wp_gets.
  destruct (lengths (cs_cons s)) as [L1 L2]. pose proof (ck_room _ Hok) as Hroom.
  destruct (c =? CTRL_P); [done|]. destruct (c =? CTRL_U).
  { eapply wp_mono; [apply kill_line_wp; [done|]|done]. pose proof (n_ready_pos (cs_cons s)). unfold INPUT_BUF_SIZE in *. lia. }
  destruct ((c =? CTRL_H) || (c =? DEL)).
  { apply wp_when; intros He.
    - apply negb_true_iff, Z.eqb_neq in He. destruct (erase_ok _ Hok He) as (Hok' & Hr & Hed & _).
      apply wp_bind, wp_modify, consputc_wp. split_and!; [done..|]. cbn [cs_cons set_cons]. by rewrite Hr, Hed.
    - apply negb_false_iff, Z.eqb_eq in He. split_and!; [done..|]. f_equal.
      rewrite take_ge; [done|]. unfold n_edit in L2. rewrite He, Z.sub_diag in L2. change (u32 0) with 0 in L2. lia. }
  rewrite n_total by (unfold INPUT_BUF_SIZE in *; lia).
  replace (Z.of_nat (length (ready (cs_cons s)) + length (editing (cs_cons s)))) with
    (n_ready (cs_cons s) + n_edit (cs_cons s)) by lia.
  destruct (negb (c =? 0) && (n_ready (cs_cons s) + n_edit (cs_cons s) <? INPUT_BUF_SIZE)) eqn:Hroom2; [|by apply wp_ret].
  apply andb_true_iff in Hroom2 as [_ Hlt%Z.ltb_lt]. set (c' := if c =? CR then NEWLINE else c).
  assert (0 <= c' < 256) as Hc' by (unfold c'; destruct (c =? CR); [done|lia]).
  apply wp_bind, consputc_wp, wp_bind, wp_modify, wp_bind, wp_gets.
  destruct (append_ok (cs_cons s) c' Hok Hc' Hlt) as (Hr & He & Hn & Hn1 & Hok').
  cbn [cs_cons set_cons c_e c_r c_buf c_w]. set (k' := mkCons _ _ _ _) in *.
  replace (u32 (u32 (c_e (cs_cons s) + 1) - c_r (cs_cons s))) with (n_ready k' + n_edit k')
    by (symmetry; apply (n_total k'); unfold INPUT_BUF_SIZE in *; lia).
  replace (Z.of_nat (length (ready (cs_cons s)) + length (editing (cs_cons s) ++ [c']))) with (n_ready k' + n_edit k')
    by (rewrite length_app; simpl; lia).
  destruct ((c' =? NEWLINE) || (c' =? CTRL_D) || (n_ready k' + n_edit k' =? INPUT_BUF_SIZE)) eqn:Hcm; cbn [when].
  - apply wp_bind, wp_modify, wp_emit. cbn [cs_cons set_cons]. destruct (commit_ok k') as (H1 & H2 & H3).
    { right. destruct Hok. cbn [k' c_buf c_r c_e] in *. rewrite length_insert. split; [lia|]. split; [done|]. split; [done|apply u32_bound]. }
    split; [exact H1|]. split; [done|]. transitivity (ready (set_w (c_e k') k'), editing (set_w (c_e k') k')); [done|].
    by rewrite H2, H3, Hr, He.
  - apply wp_ret. cbn [cs_cons set_cons]. fold k'. apply orb_false_iff in Hcm as [[Hnl%Z.eqb_neq _]%orb_false_iff _].
    split_and!; [by apply Hok'|done..|]. by rewrite Hr, He.
Qed.

Lemma uartintr_wp pd idle input s : cons_ok (cs_cons s) -> Forall is_byte input ->
  wp (uartintr pd idle input) s (fun _ s' => cons_ok (cs_cons s') /\ same_rest s s' /\
    lines s' = foldl (fun x c => type_char c x) (lines s) input).
Proof.
  intros Hok Hin. unfold uartintr. apply wp_bind.
  assert (forall s1, cons_ok (cs_cons s1) -> same_rest s s1 -> lines s1 = lines s ->
    wp (foldr (fun c rest => consoleintr pd c ;;; rest) (ret tt) input) s1 (fun _ s' => cons_ok (cs_cons s') /\
      same_rest s s' /\ lines s' = foldl (fun x c => type_char c x) (lines s) input)) as Hloop.
  { intros s1. revert s1. generalize (lines s). induction Hin as [|c input Hc _ IH]; intros x s1 H1 H2 H3; simpl.
    - by apply wp_ret.
    - apply wp_bind. eapply wp_mono; [apply consoleintr_wp; [done|exact Hc]|]. intros ? s2 (H4 & [H5 H6] & H7).
      apply IH; [done| |congruence]. destruct H2. split; congruence. }
  apply wp_when; intros _; [apply wp_bind, wp_modify, wp_emit|]; by apply Hloop.
Qed.

(** Reading: a line, up to the end-of-file mark, or as much as asked for. *)
Fixpoint take_line (n : nat) (first : bool) (q : bytes) : bytes * bytes * bool :=
  match n, q with
  | O, _ => ([], q, true)
  | S n, [] => ([], [], false)
  | S n, c :: q' =>
      if c =? CTRL_D then ([], if first then q' else q, true)
      else if c =? NEWLINE then ([c], q', true)
      else let '(l, rest, fin) := take_line n false q' in (c :: l, rest, fin)
  end.

(** The reader's memory accepts every byte, and records it. *)
Definition accepting (outs : U -> list (Z * Z)) : Prop := forall va c u,
  exists u' tr, um_copyout va [c] u = Ret 0 u' tr /\ outs u' = outs u ++ [(va, c)].

Lemma take_char_ok k : cons_ok k -> c_r k <> c_w k ->
  let k' := set_r (u32 (c_r k + 1)) k in
  cons_ok k' /\ ready k = buf_at k (c_r k) :: ready k' /\ editing k' = editing k /\
  set_r (u32 (c_r k' - 1)) k' = k.
Proof.
  intros [Hb Hr Hw He Hroom Hl] Hne k'. destruct cons_ring as [H0 Hd].
  assert (0 < n_ready k) as Hpos.
  { pose proof (n_ready_pos k). pose proof (u32_eq_sub (c_w k) (c_r k) Hw Hr). unfold n_ready in *. lia. }
  assert (n_ready k' = n_ready k - 1) as Hn by (by apply u32_sub_succ).
  split; [split; try done|split_and!; try done].
  - apply u32_bound.
  - change (n_edit k') with (n_edit k). lia.
  - unfold ready. rewrite Hn. cbn [k' set_r c_buf c_r]. rewrite ring_u32 by done. by apply ring_head.
  - unfold k', set_r. destruct k as [b r w e]. cbn in *. f_equal. unfold u32. rewrite Zminus_mod_idemp_l.
    rewrite Z.mod_small; lia.
Qed.

Definition read_post (outs : U -> list (Z * Z)) (s : cst (U:=U)) (dst target n : Z) (r : cread_result) (s' : cst (U:=U)) : Prop :=
  let '(l, rest, fin) := take_line (Z.to_nat n) (n =? target) (ready (cs_cons s)) in
  cons_ok (cs_cons s') /\ cs_killed s' = cs_killed s /\ editing (cs_cons s') = editing (cs_cons s) /\
  ready (cs_cons s') = rest /\
  outs (cs_user s') = outs (cs_user s) ++
    zip ((fun k => u64 (dst + k)) <$> seqZ (target - n) (Z.of_nat (length l))) l /\
  r = if fin then RDone (target - n + Z.of_nat (length l)) else
      if cs_killed s then RDone (-1) else RBlocked (n - Z.of_nat (length l)).

Lemma consoleread_wp outs s dst target n : accepting outs -> cons_ok (cs_cons s) -> 0 <= n <= target ->
  wp (consoleread dst target n) s (read_post outs s dst target n).
Proof.
  intros Hacc Hok Hn. unfold consoleread, read_post. remember (Z.to_nat n) as fuel eqn:Hf.
  revert s n Hn Hok Hf. induction fuel as [|fuel IH]; intros s n Hn Hok Hf; cbn [consoleread_loop].
  - apply wp_ret. cbn. rewrite app_nil_r. split_and!; try done. f_equal. lia.
  - apply wp_bind, wp_gets. unfold id. destruct (Z.eqb_spec (c_r (cs_cons s)) (c_w (cs_cons s))) as [He|He].
    { assert (ready (cs_cons s) = []) as -> by (apply ring_nil; unfold n_ready; by rewrite He, Z.sub_diag). cbn [take_line].
      destruct (cs_killed s) eqn:Hk; apply wp_ret; rewrite Hk; cbn; rewrite app_nil_r; split_and!; try done.
      - apply ring_nil. unfold n_ready. by rewrite He, Z.sub_diag.
      - apply ring_nil. unfold n_ready. by rewrite He, Z.sub_diag.
      - f_equal. lia. }
    destruct (take_char_ok _ Hok He) as (Hok' & Hrd & Hed & Hback). rewrite Hrd. cbn [take_line].
    set (c := buf_at (cs_cons s) (c_r (cs_cons s))) in *. apply wp_bind, wp_modify.
    destruct (c =? CTRL_D).
    { apply wp_bind. destruct (Z.eqb_spec n target) as [Ht|Ht].
      - destruct (Z.ltb_spec n target); [lia|]. apply wp_ret, wp_ret. cbn. rewrite app_nil_r. split_and!; try done. f_equal. lia.
      - destruct (Z.ltb_spec n target); [|lia]. apply wp_modify, wp_ret. cbn [cs_cons set_cons cs_user cs_killed length].
        rewrite Hback, app_nil_r. split_and!; try done. f_equal. cbn. lia. }
    apply wp_bind, wp_zoom. destruct (Hacc (u64 (dst + (target - n))) c (cs_user s)) as (u' & tr & Hcp & Ho).
    eapply wp_intro; [exact Hcp|]. change (0 =? -1) with false. destruct (c =? NEWLINE).
    { apply wp_ret. do 4 (split; [done|]). split; [cbn; by rewrite Ho|]. cbn. f_equal. lia. }
    eapply wp_mono; [apply (IH _ (n - 1)); [lia|exact Hok'|lia]|]. intros r s'. replace (n - 1 =? target) with false by lia.
    cbn [cs_cons set_cuser set_cons]. destruct (take_line fuel false _) as [[l rest] fin].
    cbn [cs_user cs_killed set_cuser set_cons cs_cons]. intros (H1 & H2 & H3 & H4 & H5 & H6).
    rewrite Ho, <- app_assoc in H5. do 4 (split; [done|]). split.
    + rewrite H5. f_equal. cbn [length]. rewrite Nat2Z.inj_succ, <- Z.add_1_l, seqZ_app, fmap_app by lia.
      replace (target - n + 1) with (target - (n - 1)) by lia. by change (seqZ (target - n) 1) with [target - n].
    + rewrite H6. destruct fin; [f_equal; cbn; lia|]. destruct (cs_killed s); [done|]. f_equal. cbn. lia.
Qed.
End console_wp.

(** C20.  The console's line discipline.  However the characters of an
    interrupt arrive, uartintr leaves the buffer (its counters wrapping at
    2^32) with exactly the committed lines and the line under edit that typing
    those characters one by one means: backspace and delete remove the last
    character of the unfinished line only, control-U clears it, and a newline,
    control-D or a full buffer commits it.  consoleread then takes committed
    characters only: up to and with a newline, up to control-D (which it
    leaves for the next call when it has read something), or as many as asked
    for, and sleeps when they run out. *)
Theorem console_lines {U} `{UserMem U} outs (s : cst (U:=U)) pd idle input dst n :
  cons_ok (cs_cons s) -> Forall is_byte input -> accepting outs -> 0 <= n ->
  wp (uartintr pd idle input) s (fun _ s1 => cons_ok (cs_cons s1) /\ same_rest s s1 /\
    lines s1 = foldl (fun x c => type_char c x) (lines s) input /\
    wp (consoleread dst n n) s1 (read_post outs s1 dst n n)).
Proof.
  intros Hok Hin Hacc Hn. eapply wp_mono; [by apply uartintr_wp|]. intros ? s1 (H1 & H1' & H2).
  do 3 (split; [done|]). apply consoleread_wp; [done|done|lia].
Qed.

Definition demo_cons : cons := mkCons (replicate 128 0) (2^32 - 2) (2^32 - 2) (2^32 - 2).
#[local] Instance demo_out_mem : UserMem (list (Z * Z)) := {
  um_copyout va bs := fun u => Ret 0 (u ++ ((fun b => (va, b)) <$> bs)) [];
  um_copyin va n := fun u => Ret (-1, []) u [] }.

(** "ax<backspace>b<return>" is the line "ab". *)
Lemma console_lines_witness :
  let s := mkCst demo_cons false ([] : list (Z * Z)) false in
  cons_ok (cs_cons s) /\
  wp (uartintr [] true [97; 120; 127; 98; 13]) s (fun _ s1 => lines s1 = ([97; 98; 10], []) /\
    wp (consoleread 500 20 20) s1 (fun r s2 => r = RDone 3 /\ cs_user s2 = [(500, 97); (501, 98); (502, 10)])).
Proof.
  intros s. assert (cons_ok (cs_cons s)) as Hok by (split; try (by vm_compute); cbn; lia || (vm_compute; intros ?%not_elem_of_nil; done)).
  split; [exact Hok|]. eapply wp_mono; [apply (console_lines (id : list (Z * Z) -> _) s [] true [97; 120; 127; 98; 13] 500 20)|].
  - exact Hok.
  - repeat constructor; unfold is_byte; lia.
  - intros va c u. eexists _, _. split; reflexivity.
  - lia.
  - intros ? s1 (H1 & [Hu Hk] & H2 & H3). assert (lines s1 = ([97; 98; 10], [])) as Hl by (rewrite H2; vm_compute; reflexivity).
    split; [exact Hl|]. eapply wp_mono; [exact H3|]. intros r s2. unfold read_post.
    unfold lines in Hl. injection Hl as -> ->. rewrite Hu. cbn.
    intros (_ & _ & _ & _ & -> & ->). split; reflexivity.
Defined.
