(* ===== verification/Printf.v ===== *)
(** * Formatted output ([kernel/printf.c], [user/printf.c])

    Both printf's share their conversions and differ in the case of the
    digits and in where a character goes: the kernel's to [consputc], the
    user's to write(fd, &c, 1).  The model computes the characters that are
    put, in order.  An argument is a 64-bit word or a string pointer; using a
    missing argument or one of the wrong kind is undefined (None), and so is
    storing past the 20 bytes of printint's buffer. *)
From Stdlib Require Import Ascii.
From Stdlib Require String.
From S2P Require Import Prelude Params Console.

Definition chars (s : string) : bytes := (fun c => Z.of_N (N_of_ascii c)) <$> String.list_ascii_of_string s.

Inductive varg : Type := W (w : Z) | P (s : option bytes).

(** [do { buf[i++] = digits[x % base]; } while((x /= base) != 0);]
    x < 2^64 becomes 0 within 64 divisions. *)
Fixpoint digit_loop (fuel : nat) (digits : bytes) (x base : Z) (buf : bytes) : bytes :=
  match fuel with
  | O => buf
  | S fuel =>
      let buf := buf ++ [digits !!! Z.to_nat (x `mod` base)] in
      if x / base =? 0 then buf else digit_loop fuel digits (x / base) base buf
  end.

(** The buffer is printed from its end. *)
Definition printint (digits : bytes) (xx base : Z) (sign : bool) : option bytes :=
  let neg := sign && (xx <? 0) in
  let x := if neg then u64 (- xx) else u64 xx in
  let buf := digit_loop 64 digits x base [] in
  let buf := if neg then buf ++ [45] else buf in
  if (length buf <=? 20)%nat then Some (reverse buf) else None.

(** [for (i = 0; i < 16; i++, x <<= 4) putc(digits[x >> 60])] *)
Fixpoint ptr_loop (n : nat) (digits : bytes) (x : Z) : bytes :=
  match n with
  | O => []
  | S n => digits !!! Z.to_nat (Z.shiftr x 60) :: ptr_loop n digits (u64 (Z.shiftl x 4))
  end.
Definition printptr (digits : bytes) (x : Z) : bytes := 48 :: 120 :: ptr_loop 16 digits x.

Definition prepend (l : bytes) (r : option bytes) : option bytes := (app l) <$> r.
Definition then_print (l : option bytes) (r : option bytes) : option bytes :=
  match l with Some l => prepend l r | None => None end.

(** [va_arg] of a word. *)
Definition word (args : list varg) (k : Z -> list varg -> option bytes) : option bytes :=
  match args with W w :: args => k w args | _ => None end.

(** The loop over the format.  PERCENT is 37; the conversions d, l, u, x, p,
    c, s are the characters 100, 108, 117, 120, 112, 99, 115. *)
Fixpoint format (digits fmt : bytes) (args : list varg) : option bytes :=
  match fmt with
  | [] => Some []
  | cx :: rest =>
      if negb (cx =? 37) then prepend [cx] (format digits rest args)
      else
        let int k base sign conv := word args (fun w args =>
          then_print (printint digits (conv w) base sign) (k args)) in
        match rest with
        | [] => Some []
        | c0 :: r1 =>
            if c0 =? 100 then int (format digits r1) 10 true i32
            else if c0 =? 117 then int (format digits r1) 10 false u32
            else if c0 =? 120 then int (format digits r1) 16 false u32
            else if c0 =? 112 then word args (fun w args => prepend (printptr digits (u64 w)) (format digits r1 args))
            else if c0 =? 99 then word args (fun w args => prepend [u32 w] (format digits r1 args))
            else if c0 =? 115 then
              match args with
              | P s :: args => prepend (default (chars "(null)") s) (format digits r1 args)
              | _ => None
              end
            else if c0 =? 37 then prepend [37] (format digits r1 args)
            else
              let unknown := prepend [37; c0] (format digits r1 args) in
              if negb (c0 =? 108) then unknown
              else
                match r1 with
                | [] => unknown
                | c1 :: r2 =>
                    if c1 =? 100 then int (format digits r2) 10 true i64
                    else if c1 =? 117 then int (format digits r2) 10 false u64
                    else if c1 =? 120 then int (format digits r2) 16 false u64
                    else if negb (c1 =? 108) then unknown
                    else
                      match r2 with
                      | [] => unknown
                      | c2 :: r3 =>
                          if c2 =? 100 then int (format digits r3) 10 true i64
                          else if c2 =? 117 then int (format digits r3) 10 false u64
                          else if c2 =? 120 then int (format digits r3) 16 false u64
                          else unknown
                      end
                end
        end
  end.

Module KPrintf.
Definition digits : bytes := chars "0123456789abcdef".
(** Each character goes to the console. *)
Definition printf {S} (fmt : bytes) (args : list varg) : M S unit :=
  match format digits fmt args with
  | Some cs => foldr (fun c k => consputc c ;;; k) (ret tt) cs
  | None => undefined_behaviour "printf: arguments"
  end.
(** [panic]: the message, then the kernel stops. *)
Definition panic_output {S} (s : bytes) : M S unit :=
  printf (chars "panic: ") [] ;;;
  printf (chars "%s" ++ [10]) [P (Some s)].
End KPrintf.

Module UPrintf.
Definition digits : bytes := chars "0123456789ABCDEF".
(** The one-byte writes to fd: putc takes a char. *)
Definition vprintf (fmt : bytes) (args : list varg) : option bytes :=
  fmap (M:=option) (fmap u8) (format digits fmt args).
End UPrintf.

(** ** Numbers *)

(** The number a list of digits denotes, most significant first. *)
Definition value (base : Z) (ds : list Z) : Z := foldl (fun a d => a * base + d) 0 ds.

Lemma value_snoc base ds d : value base (ds ++ [d]) = value base ds * base + d.
Proof. unfold value. by rewrite foldl_app. Qed.

(** The loop stores the digits of x, least significant first. *)
Lemma digit_loop_spec digits base fuel x k buf : 2 <= base -> 0 <= x < base ^ Z.of_nat k -> (0 < k <= fuel)%nat ->
  exists ds, digit_loop fuel digits x base buf = buf ++ reverse ((fun d => digits !!! Z.to_nat d) <$> ds) /\
    Forall (fun d => 0 <= d < base) ds /\ value base ds = x /\ (0 < length ds <= k)%nat /\
    (ds = [0] \/ hd 0 ds <> 0).
Proof.
  intros Hb. revert x k buf. induction fuel as [|fuel IH]; intros x k buf Hx Hk; [lia|]. cbn [digit_loop].
  pose proof (Z.mod_pos_bound x base ltac:(lia)) as Hm. pose proof (Z.div_mod x base ltac:(lia)) as Hdm.
  destruct (Z.eqb_spec (x / base) 0) as [H0|H0].
  - exists [x `mod` base]. split_and!; [done|by apply Forall_singleton|cbn; lia|simpl; lia|simpl; lia|].
    destruct (decide (x `mod` base = 0)) as [->|]; [by left|by right].
  - destruct k as [|[|k]]; [lia| |].
    { elim H0. apply Z.div_small. change (Z.of_nat 1) with 1 in Hx. lia. }
    destruct (IH (x / base) (S k) (buf ++ [digits !!! Z.to_nat (x `mod` base)])) as (ds & Hl & Hd & Hv & Hn & Hh).
    { split; [apply Z.div_pos; lia|]. apply Z.div_lt_upper_bound; [lia|].
      replace (Z.of_nat (S (S k))) with (1 + Z.of_nat (S k)) in Hx by lia. rewrite Z.pow_add_r in Hx by lia. lia. }
    { lia. }
    exists (ds ++ [x `mod` base]). split_and!.
    + rewrite Hl, fmap_app, reverse_app, <- app_assoc. done.
    + apply Forall_app. split; [done|by apply Forall_singleton].
    + rewrite value_snoc, Hv. lia.
    + rewrite length_app. simpl. lia.
    + rewrite length_app. simpl. lia.
    + right. destruct Hh as [->|Hh]; [exfalso; cbn in Hv; lia|]. by destruct ds.
Qed.

Lemma printint_spec digits xx base sign : (base = 10 \/ base = 16) -> (sign = true -> - 2^63 <= xx < 2^63) ->
  let neg := sign && (xx <? 0) in
  exists ds, printint digits xx base sign = Some ((if neg then [45] else []) ++ ((fun d => digits !!! Z.to_nat d) <$> ds)) /\
    Forall (fun d => 0 <= d < base) ds /\ value base ds = (if neg then - xx else u64 xx) /\
    (ds = [0] \/ hd 0 ds <> 0).
Proof.
  intros Hb Hxx neg. unfold printint. fold neg. set (x := if neg then u64 (- xx) else u64 xx).
  assert (x = if neg then - xx else u64 xx) as Hx.
  { unfold x, neg. destruct sign; [|done]. destruct (Z.ltb_spec xx 0); [|done]. cbn [andb]. apply u64_id. specialize (Hxx eq_refl). lia. }
  assert (0 <= x < base ^ Z.of_nat (if neg then 19 else 20)) as Hr.
  { assert (2^64 <= base ^ Z.of_nat 20 /\ 2^63 < base ^ Z.of_nat 19) as [H20 H19] by (destruct Hb as [-> | ->]; vm_compute; split; (discriminate || reflexivity)).
    rewrite Hx. pose proof (Z.mod_pos_bound xx (2^64) ltac:(lia)) as Hu. fold (u64 xx) in Hu.
    destruct neg eqn:Hneg; [|lia]. apply andb_true_iff in Hneg as [-> Hlt%Z.ltb_lt]. specialize (Hxx eq_refl). lia. }
  destruct (digit_loop_spec digits base 64 x (if neg then 19 else 20) [] ltac:(lia) Hr) as (ds & -> & Hd & Hv & Hn & Hh).
  { destruct neg; lia. }
  exists ds. rewrite <- Hx. split_and!; try done. rewrite app_nil_l.
  destruct neg; rewrite ?length_app, length_reverse, length_fmap; simpl.
  - destruct (Nat.leb_spec (length ds + 1) 20); [|lia]. by rewrite reverse_app, reverse_involutive.
  - destruct (Nat.leb_spec (length ds) 20); [|lia]. by rewrite reverse_involutive.
Qed.

(** ** Formats *)

(** A directive: a literal character, or a conversion. *)
Inductive directive : Type :=
  | Lit (c : Z) | Percent | Cd | Cu | Cx | Cld | Clu | Clx | Clld | Cllu | Cllx | Cp | Cc | Cs.

Definition spell (d : directive) : bytes :=
  match d with
  | Lit c => [c]
  | Percent => [37; 37] | Cd => [37; 100] | Cu => [37; 117] | Cx => [37; 120]
  | Cld => [37; 108; 100] | Clu => [37; 108; 117] | Clx => [37; 108; 120]
  | Clld => [37; 108; 108; 100] | Cllu => [37; 108; 108; 117] | Cllx => [37; 108; 108; 120]
  | Cp => [37; 112] | Cc => [37; 99] | Cs => [37; 115]
  end.

(** What a directive prints and how it reads its argument. *)
Definition number (digits : bytes) (w base : Z) (sign : bool) : bytes := default [] (printint digits w base sign).
Definition show (digits : bytes) (d : directive) (a : varg) : option bytes :=
  match d, a with
  | Lit c, _ => Some [c]
  | Percent, _ => Some [37]
  | Cd, W w => Some (number digits (i32 w) 10 true)
  | Cu, W w => Some (number digits (u32 w) 10 false)
  | Cx, W w => Some (number digits (u32 w) 16 false)
  | (Cld | Clld), W w => Some (number digits (i64 w) 10 true)
  | (Clu | Cllu), W w => Some (number digits (u64 w) 10 false)
  | (Clx | Cllx), W w => Some (number digits (u64 w) 16 false)
  | Cp, W w => Some (printptr digits (u64 w))
  | Cc, W w => Some [u32 w]
  | Cs, P s => Some (default (chars "(null)") s)
  | _, _ => None
  end.
Definition takes_arg (d : directive) : bool := match d with Lit _ | Percent => false | _ => true end.

Fixpoint show_all (digits : bytes) (ds : list directive) (args : list varg) : option bytes :=
  match ds with
  | [] => Some []
  | d :: ds =>
      if takes_arg d then
        match args with
        | a :: args => then_print (show digits d a) (show_all digits ds args)
        | [] => None
        end
      else then_print (show digits d (W 0)) (show_all digits ds args)
  end.

Definition plain (d : directive) : Prop := match d with Lit c => c <> 37 | _ => True end.

Lemma printint_some digits w base sign : (base = 10 \/ base = 16) -> (sign = true -> - 2^63 <= w < 2^63) ->
  printint digits w base sign = Some (number digits w base sign).
Proof. intros Hb Hw. unfold number. destruct (printint_spec digits w base sign Hb Hw) as (ds & -> & _). done. Qed.

Lemma i32_range w : - 2^63 <= i32 w < 2^63.
Proof. unfold i32. pose proof (Z.mod_pos_bound (w + 2^31) (2^32) ltac:(lia)). lia. Qed.
Lemma i64_range w : - 2^63 <= i64 w < 2^63.
Proof. unfold i64. pose proof (Z.mod_pos_bound (w + 2^63) (2^64) ltac:(lia)). lia. Qed.

Lemma format_directive digits d fmt args : plain d ->
  format digits (spell d ++ fmt) args =
    if takes_arg d then
      match args with a :: args => then_print (show digits d a) (format digits fmt args) | [] => None end
    else then_print (show digits d (W 0)) (format digits fmt args).
Proof.
  intros Hp. destruct d; cbn [takes_arg].
  1: { cbn. destruct (Z.eqb_spec c 37); done. }
  1: done.
  all: destruct args as [|[w|s] args]; try done.
  all: cbn; rewrite printint_some; [done|(by left) || (by right)|intros; apply i32_range || apply i64_range || done].
Qed.

Lemma format_show_all digits ds args : Forall plain ds ->
  format digits (ds ≫= spell) args = show_all digits ds args.
Proof.
  intros Hp. revert args. induction Hp as [|d ds Hd _ IH]; intros args; [done|]. cbn [mbind list_bind].
  rewrite format_directive by done. cbn [show_all]. destruct (takes_arg d); [destruct args|]; by rewrite ?IH.
Qed.


