(* ===== verification/Kernel.v ===== *)
(** * The kernel's state

    The process table, the open-file table, pipes, console and memory beside
    the file system, with [zoom]s that run the code of each component on its
    part.  [ks_me] is the index of the process the code runs for, [myproc()];
    a handler runs atomically up to a sleep, and [Wake] events stand for calls
    of [wakeup].  A pipe lives in a page from [kalloc]; its contents are the
    record in [ks_pipes] at the page's address. *)
From S2P Require Import Prelude Params Sleeplock CString Interfaces Bio Log BlockInst Fs Kalloc Vm Pipe Console.

(** Addresses the linker chooses, and the bytes found in the padding of a
    [struct stat] on the kernel stack. *)
Class Machine : Type := {
  kend : Z; trampoline : Z; uservec : Z; userret : Z; usertrap_addr : Z; forkret_addr : Z;
  stat_padding : bytes }.

(** ** Data *)

Inductive procstate : Set := UNUSED | USED | SLEEPING | RUNNABLE | RUNNING | ZOMBIE.
#[export] Instance procstate_eq_dec : EqDecision procstate.
Proof. solve_decision. Defined.

Record proc : Type := mkProc {
  p_state : procstate; p_chan : option chan; p_killed : Z; p_xstate : Z; p_pid : Z;
  p_parent : option nat; p_kstack : Z; p_sz : Z; p_pagetable : Z; p_trapframe : Z;
  p_context : Z * Z;               (* ra and sp; swtch saves the rest *)
  p_ofile : list (option nat); p_cwd : option nat; p_name : bytes }.

Definition proc0 : proc :=
  mkProc UNUSED None 0 0 0 None 0 0 0 0 (0, 0) (replicate (Z.to_nat NOFILE) None) None (replicate 16 0).
#[export] Instance proc_inhabited : Inhabited proc := populate proc0.

Definition set_state (st : procstate) (p : proc) : proc :=
  mkProc st (p_chan p) (p_killed p) (p_xstate p) (p_pid p) (p_parent p) (p_kstack p) (p_sz p)
    (p_pagetable p) (p_trapframe p) (p_context p) (p_ofile p) (p_cwd p) (p_name p).
Definition set_killed (k : Z) (p : proc) : proc :=
  mkProc (p_state p) (p_chan p) k (p_xstate p) (p_pid p) (p_parent p) (p_kstack p) (p_sz p)
    (p_pagetable p) (p_trapframe p) (p_context p) (p_ofile p) (p_cwd p) (p_name p).
Definition set_xstate (x : Z) (p : proc) : proc :=
  mkProc (p_state p) (p_chan p) (p_killed p) x (p_pid p) (p_parent p) (p_kstack p) (p_sz p)
    (p_pagetable p) (p_trapframe p) (p_context p) (p_ofile p) (p_cwd p) (p_name p).
Definition set_pid (pid : Z) (p : proc) : proc :=
  mkProc (p_state p) (p_chan p) (p_killed p) (p_xstate p) pid (p_parent p) (p_kstack p) (p_sz p)
    (p_pagetable p) (p_trapframe p) (p_context p) (p_ofile p) (p_cwd p) (p_name p).
Definition set_parent (pp : option nat) (p : proc) : proc :=
  mkProc (p_state p) (p_chan p) (p_killed p) (p_xstate p) (p_pid p) pp (p_kstack p) (p_sz p)
    (p_pagetable p) (p_trapframe p) (p_context p) (p_ofile p) (p_cwd p) (p_name p).
Definition set_sz (sz : Z) (p : proc) : proc :=
  mkProc (p_state p) (p_chan p) (p_killed p) (p_xstate p) (p_pid p) (p_parent p) (p_kstack p) sz
    (p_pagetable p) (p_trapframe p) (p_context p) (p_ofile p) (p_cwd p) (p_name p).
Definition set_pagetable (pt : Z) (p : proc) : proc :=
  mkProc (p_state p) (p_chan p) (p_killed p) (p_xstate p) (p_pid p) (p_parent p) (p_kstack p) (p_sz p)
    pt (p_trapframe p) (p_context p) (p_ofile p) (p_cwd p) (p_name p).
Definition set_trapframe (tf : Z) (p : proc) : proc :=
  mkProc (p_state p) (p_chan p) (p_killed p) (p_xstate p) (p_pid p) (p_parent p) (p_kstack p) (p_sz p)
    (p_pagetable p) tf (p_context p) (p_ofile p) (p_cwd p) (p_name p).
Definition set_context (c : Z * Z) (p : proc) : proc :=
  mkProc (p_state p) (p_chan p) (p_killed p) (p_xstate p) (p_pid p) (p_parent p) (p_kstack p) (p_sz p)
    (p_pagetable p) (p_trapframe p) c (p_ofile p) (p_cwd p) (p_name p).
Definition set_ofile (fd : nat) (f : option nat) (p : proc) : proc :=
  mkProc (p_state p) (p_chan p) (p_killed p) (p_xstate p) (p_pid p) (p_parent p) (p_kstack p) (p_sz p)
    (p_pagetable p) (p_trapframe p) (p_context p) (<[fd := f]> (p_ofile p)) (p_cwd p) (p_name p).
Definition set_cwd (ip : option nat) (p : proc) : proc :=
  mkProc (p_state p) (p_chan p) (p_killed p) (p_xstate p) (p_pid p) (p_parent p) (p_kstack p) (p_sz p)
    (p_pagetable p) (p_trapframe p) (p_context p) (p_ofile p) ip (p_name p).
Definition set_name (n : bytes) (p : proc) : proc :=
  mkProc (p_state p) (p_chan p) (p_killed p) (p_xstate p) (p_pid p) (p_parent p) (p_kstack p) (p_sz p)
    (p_pagetable p) (p_trapframe p) (p_context p) (p_ofile p) (p_cwd p) n.

Inductive ftype : Set := FD_NONE | FD_PIPE | FD_INODE | FD_DEVICE.
Record file : Set := mkFile {
  fl_type : ftype; fl_ref : Z; fl_readable : bool; fl_writable : bool;
  fl_pipe : Z; fl_ip : nat; fl_off : Z; fl_major : Z }.
Definition file0 : file := mkFile FD_NONE 0 false false 0 0 0 0.
#[export] Instance file_inhabited : Inhabited file := populate file0.
Definition set_fref (r : Z) (f : file) : file :=
  mkFile (fl_type f) r (fl_readable f) (fl_writable f) (fl_pipe f) (fl_ip f) (fl_off f) (fl_major f).
Definition set_foff (off : Z) (f : file) : file :=
  mkFile (fl_type f) (fl_ref f) (fl_readable f) (fl_writable f) (fl_pipe f) (fl_ip f) off (fl_major f).

Record kern : Type := mkKern {
  ks_blk : lst;                (* buffer cache, log, disk *)
  ks_sb : superblock;          (* sb *)
  ks_itable : list inode;      (* itable.inode[NINODE] *)
  ks_k : kst;                  (* physical memory and kmem.freelist *)
  ks_cons : cons;              (* cons *)
  ks_tx_busy : bool;           (* tx_busy *)
  ks_ftable : list file;       (* ftable.file[NFILE] *)
  ks_pipes : gmap Z pipe;      (* the pipes, by address *)
  ks_proc : list proc;         (* proc[NPROC] *)
  ks_me : nat;                 (* myproc() *)
  ks_initproc : nat;           (* initproc *)
  ks_nextpid : Z;              (* nextpid *)
  ks_ticks : Z }.              (* ticks *)

Definition set_procs (ps : list proc) (s : kern) : kern :=
  mkKern (ks_blk s) (ks_sb s) (ks_itable s) (ks_k s) (ks_cons s) (ks_tx_busy s) (ks_ftable s) (ks_pipes s)
    ps (ks_me s) (ks_initproc s) (ks_nextpid s) (ks_ticks s).
Definition set_ftable (ft : list file) (s : kern) : kern :=
  mkKern (ks_blk s) (ks_sb s) (ks_itable s) (ks_k s) (ks_cons s) (ks_tx_busy s) ft (ks_pipes s)
    (ks_proc s) (ks_me s) (ks_initproc s) (ks_nextpid s) (ks_ticks s).
Definition set_pipes (m : gmap Z pipe) (s : kern) : kern :=
  mkKern (ks_blk s) (ks_sb s) (ks_itable s) (ks_k s) (ks_cons s) (ks_tx_busy s) (ks_ftable s) m
    (ks_proc s) (ks_me s) (ks_initproc s) (ks_nextpid s) (ks_ticks s).
Definition set_kmem (k : kst) (s : kern) : kern :=
  mkKern (ks_blk s) (ks_sb s) (ks_itable s) k (ks_cons s) (ks_tx_busy s) (ks_ftable s) (ks_pipes s)
    (ks_proc s) (ks_me s) (ks_initproc s) (ks_nextpid s) (ks_ticks s).
Definition set_current (i : nat) (s : kern) : kern :=
  mkKern (ks_blk s) (ks_sb s) (ks_itable s) (ks_k s) (ks_cons s) (ks_tx_busy s) (ks_ftable s) (ks_pipes s)
    (ks_proc s) i (ks_initproc s) (ks_nextpid s) (ks_ticks s).
Definition set_nextpid (n : Z) (s : kern) : kern :=
  mkKern (ks_blk s) (ks_sb s) (ks_itable s) (ks_k s) (ks_cons s) (ks_tx_busy s) (ks_ftable s) (ks_pipes s)
    (ks_proc s) (ks_me s) (ks_initproc s) n (ks_ticks s).
Definition set_initproc (i : nat) (s : kern) : kern :=
  mkKern (ks_blk s) (ks_sb s) (ks_itable s) (ks_k s) (ks_cons s) (ks_tx_busy s) (ks_ftable s) (ks_pipes s)
    (ks_proc s) (ks_me s) i (ks_nextpid s) (ks_ticks s).
Definition set_ticks (t : Z) (s : kern) : kern :=
  mkKern (ks_blk s) (ks_sb s) (ks_itable s) (ks_k s) (ks_cons s) (ks_tx_busy s) (ks_ftable s) (ks_pipes s)
    (ks_proc s) (ks_me s) (ks_initproc s) (ks_nextpid s) t.

Definition proc_at (i : nat) (s : kern) : proc := ks_proc s !!! i.
Definition me (s : kern) : proc := proc_at (ks_me s) s.
Definition modify_proc (i : nat) (f : proc -> proc) : M kern unit :=
  modify (fun s => set_procs (alter f i (ks_proc s)) s).
Definition modify_me (f : proc -> proc) : M kern unit :=
  modify (fun s => set_procs (alter f (ks_me s) (ks_proc s)) s).
Definition file_at (f : nat) (s : kern) : file := ks_ftable s !!! f.
Definition modify_file (f : nat) (g : file -> file) : M kern unit :=
  modify (fun s => set_ftable (alter g f (ks_ftable s)) s).

(** ** Running a component's code *)

Section zooms.
Context `{Machine}.

(** User memory of the current process, through its page table. *)
#[export] Instance vm_user_mem : UserMem vst := {
  um_copyout va bs := let! pt := gets v_pagetable in copyout kend pt va bs;
  um_copyin va n := let! pt := gets v_pagetable in copyin kend pt va n }.

Definition user_view (s : kern) : vst := mkVst (ks_k s) (p_sz (me s)) (p_pagetable (me s)).
Definition vm {A} (m : M vst A) : M kern A :=
  zoom user_view (fun v s => set_kmem (v_k v) s) m.
Definition kmemory {A} (m : M kst A) : M kern A := zoom ks_k set_kmem m.

Definition fs_view (s : kern) : @fstate lst vst :=
  mkFs (ks_blk s) (user_view s) (ks_sb s) (ks_itable s) (default 0%nat (p_cwd (me s))) (p_pid (me s)).
Definition put_fs (f : @fstate lst vst) (s : kern) : kern :=
  mkKern (f_blk f) (f_sb f) (f_itable f) (v_k (f_user f)) (ks_cons s) (ks_tx_busy s) (ks_ftable s) (ks_pipes s)
    (ks_proc s) (ks_me s) (ks_initproc s) (ks_nextpid s) (ks_ticks s).
Definition fs {A} (m : M (@fstate lst vst) A) : M kern A := zoom fs_view put_fs m.
Definition fs_begin_op : M kern unit := fs (blk bl_begin_op).
Definition fs_end_op : M kern unit := fs (blk bl_end_op).

(** [killed(myproc())] *)
Definition killed_me (s : kern) : bool := negb (p_killed (me s) =? 0).
Definition pipe_view (pi : Z) (s : kern) : pst (U:=vst) :=
  mkPst (ks_pipes s !!! pi) (user_view s) (killed_me s).
Definition put_pipe (pi : Z) (p : pst (U:=vst)) (s : kern) : kern :=
  set_kmem (v_k (ps_user p)) (set_pipes (<[pi := ps_pipe p]> (ks_pipes s)) s).
Definition with_pipe {A} (pi : Z) (m : M (pst (U:=vst)) A) : M kern A := zoom (pipe_view pi) (put_pipe pi) m.

Definition cons_view (s : kern) : cst (U:=vst) := mkCst (ks_cons s) (ks_tx_busy s) (user_view s) (killed_me s).
Definition put_cons (c : cst (U:=vst)) (s : kern) : kern :=
  mkKern (ks_blk s) (ks_sb s) (ks_itable s) (v_k (cs_user c)) (cs_cons c) (cs_tx_busy c) (ks_ftable s) (ks_pipes s)
    (ks_proc s) (ks_me s) (ks_initproc s) (ks_nextpid s) (ks_ticks s).
Definition with_cons {A} (m : M (cst (U:=vst)) A) : M kern A := zoom cons_view put_cons m.
End zooms.

(** A word of a process's trapframe, by its offset. *)
Definition tf_get (p : proc) (off : Z) (s : kern) : Z := load64 (k_mem (ks_k s)) (p_trapframe p + off).
Definition tf_set (p : proc) (off v : Z) : M kern unit :=
  modify (fun s => set_kmem (set_mem (fun m => store64 m (p_trapframe p + off) v) (ks_k s)) s).
Definition TF_kernel_satp : Z := 0.
Definition TF_kernel_sp : Z := 8.
Definition TF_kernel_trap : Z := 16.
Definition TF_epc : Z := 24.
Definition TF_kernel_hartid : Z := 32.
Definition TF_sp : Z := 48.
Definition TF_a0 : Z := 112.
Definition TF_a1 : Z := 120.
Definition TF_a7 : Z := 168.
Definition TF_SIZE : Z := 288.
