(* ===== verification/File.v ===== *)
(** * Open files ([kernel/file.c], [pipealloc] of [kernel/pipe.c])

    The open-file table and the operations on an open file, which is a pipe,
    an inode or a device. *)
From S2P Require Import Prelude Params Sleeplock CString Interfaces Log BlockInst Fs Kalloc Vm Pipe Console Kernel.

Section file.
Context `{Machine}.

(** The loop of [filealloc] over the table. *)
Definition filealloc : M kern (option nat) :=
  let! ft := gets ks_ftable in
  match list_find (fun f => fl_ref f = 0) ft with
  | Some (f, _) => modify_file f (set_fref 1) ;;; ret (Some f)
  | None => ret None
  end.

Definition filedup (f : nat) : M kern nat :=
  let! fl := gets (file_at f) in
  if fl_ref fl <? 1 then panic "filedup"
  else modify_file f (set_fref (fl_ref fl + 1)) ;;; ret f.

(** [pipeclose], which also frees the page when both ends are closed. *)
Definition pipe_close (pi : Z) (writable : bool) : M kern unit :=
  let! dead := with_pipe pi (pipeclose pi writable) in
  when dead
    (modify (fun s => set_pipes (delete pi (ks_pipes s)) s) ;;;
     kmemory (kfree kend pi)).

Definition fileclose (f : nat) : M kern unit :=
  let! fl := gets (file_at f) in
  if fl_ref fl <? 1 then panic "fileclose"
  else if 0 <? fl_ref fl - 1 then modify_file f (set_fref (fl_ref fl - 1))
  else
    let ff := set_fref 0 fl in
    modify_file f (fun _ => mkFile FD_NONE 0 (fl_readable fl) (fl_writable fl) (fl_pipe fl) (fl_ip fl)
      (fl_off fl) (fl_major fl)) ;;;
    match fl_type ff with
    | FD_PIPE => pipe_close (fl_pipe ff) (fl_writable ff)
    | FD_INODE | FD_DEVICE =>
        fs_begin_op ;;;
        fs (iput (fl_ip ff)) ;;;
        fs_end_op
    | FD_NONE => ret tt
    end.

Definition stat_bytes (st : stat) : bytes :=
  to_le 4 (st_dev st) ++ to_le 4 (st_ino st) ++ to_le 2 (st_type st) ++ to_le 2 (st_nlink st) ++
  stat_padding ++ to_le 8 (st_size st).

Definition filestat (f : nat) (addr : Z) : M kern Z :=
  let! fl := gets (file_at f) in
  match fl_type fl with
  | FD_INODE | FD_DEVICE =>
      fs (ilock (Some (fl_ip fl))) ;;;
      let! i := fs (gets (inode_at (fl_ip fl))) in
      fs (iunlock (Some (fl_ip fl))) ;;;
      let! r := vm (um_copyout addr (stat_bytes (stati i))) in
      if r <? 0 then ret (-1) else ret 0
  | _ => ret (-1)
  end.

(** [devsw]: [consoleinit] connects the console to major number CONSOLE. *)
Definition CONSOLE : Z := 1.
Definition devsw_read (major : Z) : option (Z -> Z -> M kern Z) :=
  if major =? CONSOLE then
    Some (fun dst n =>
      let! r := with_cons (consoleread dst (u32 n) n) in
      match r with RDone r => ret (i32 r) | RBlocked _ => sleep_on ChCons end)
  else None.
Definition devsw_write (major : Z) : option (Z -> Z -> M kern Z) :=
  if major =? CONSOLE then
    Some (fun src n =>
      let! r := with_cons (consolewrite src n 0) in
      match r with WDone r => ret r | WBlocked _ _ _ => sleep_on ChUart end)
  else None.

Definition fileread (f : nat) (addr n : Z) : M kern Z :=
  let! fl := gets (file_at f) in
  if negb (fl_readable fl) then ret (-1)
  else
    match fl_type fl with
    | FD_PIPE => with_pipe (fl_pipe fl) (piperead (fl_pipe fl) addr n)
    | FD_DEVICE =>
        if (fl_major fl <? 0) || (NDEV <=? fl_major fl) then ret (-1)
        else match devsw_read (fl_major fl) with
             | None => ret (-1)
             | Some read => read addr n
             end
    | FD_INODE =>
        fs (ilock (Some (fl_ip fl))) ;;;
        let! fl := gets (file_at f) in
        let! r := fs (readi (fl_ip fl) (UserDst addr) (fl_off fl) (u32 n)) in
        when (0 <? r.1) (modify_file f (fun fl => set_foff (u32 (fl_off fl + r.1)) fl)) ;;;
        fs (iunlock (Some (fl_ip fl))) ;;;
        ret r.1
    | FD_NONE => panic "fileread"
    end.

(** The most one transaction of [filewrite] writes. *)
Definition write_max : Z := (MAXOPBLOCKS - 1 - 1 - 2) / 2 * BSIZE.

(** Every iteration but the last writes [write_max] bytes. *)
Fixpoint filewrite_loop (fuel : nat) (f : nat) (addr n i : Z) : M kern Z :=
  if i <? n then
    match fuel with
    | O => undefined_behaviour "filewrite: fuel"
    | S fuel =>
        let n1 := Z.min (n - i) write_max in
        fs_begin_op ;;;
        let! fl := gets (file_at f) in
        fs (ilock (Some (fl_ip fl))) ;;;
        let! fl := gets (file_at f) in
        let! r := fs (writei (fl_ip fl) (UserSrc (u64 (addr + i))) (fl_off fl) n1) in
        when (0 <? r) (modify_file f (fun fl => set_foff (u32 (fl_off fl + r)) fl)) ;;;
        fs (iunlock (Some (fl_ip fl))) ;;;
        fs_end_op ;;;
        if negb (r =? n1) then ret i else filewrite_loop fuel f addr n (i + r)
    end
  else ret i.

Definition filewrite (f : nat) (addr n : Z) : M kern Z :=
  let! fl := gets (file_at f) in
  if negb (fl_writable fl) then ret (-1)
  else
    match fl_type fl with
    | FD_PIPE =>
        let! r := with_pipe (fl_pipe fl) (pipewrite_from (fl_pipe fl) addr n 0) in
        match r with Done r => ret r | Blocked _ => sleep_on (ChPipeWrite (fl_pipe fl)) end
    | FD_DEVICE =>
        if (fl_major fl <? 0) || (NDEV <=? fl_major fl) then ret (-1)
        else match devsw_write (fl_major fl) with
             | None => ret (-1)
             | Some write => write addr n
             end
    | FD_INODE =>
        let! i := filewrite_loop (Z.to_nat (n / write_max + 1)) f addr n 0 in
        ret (if i =? n then n else -1)
    | FD_NONE => panic "filewrite"
    end.

(** Both ends of a new pipe, or -1 with everything undone. *)
Definition pipealloc : M kern (option (nat * nat)) :=
  let! f0 := filealloc in
  match f0 with
  | None => ret None
  | Some f0 =>
      let! f1 := filealloc in
      match f1 with
      | None => fileclose f0 ;;; ret None
      | Some f1 =>
          let! pi := kmemory kalloc in
          if pi =? 0 then fileclose f0 ;;; fileclose f1 ;;; ret None
          else
            modify (fun s => set_pipes (<[pi := pipeinit]> (ks_pipes s)) s) ;;;
            modify_file f0 (fun f => mkFile FD_PIPE (fl_ref f) true false pi (fl_ip f) (fl_off f) (fl_major f)) ;;;
            modify_file f1 (fun f => mkFile FD_PIPE (fl_ref f) false true pi (fl_ip f) (fl_off f) (fl_major f)) ;;;
            ret (Some (f0, f1))
      end
  end.
End file.
