(* ===== verification/Proc.v ===== *)
(** * Processes ([kernel/proc.c])

    The process table: allocation, fork, exit, wait, kill and the hand-over
    to the scheduler.  Process locks and wait_lock make the bodies atomic; a
    handler ends where the code calls [sched], with the process's new state.
    [wakeup] on the table is what a [Wake] event of a handler means; [sleep]
    is what the outcome [Sleep] means. *)
From stdpp Require Import pretty.
From S2P Require Import Prelude Params Sleeplock CString Interfaces Log BlockInst Fs Kalloc Vm Pipe Console Kernel File.

Definition procinit (ps : list proc) : list proc :=
  imap (fun i p => mkProc UNUSED (p_chan p) (p_killed p) (p_xstate p) (p_pid p) (p_parent p) (KSTACK (Z.of_nat i))
    (p_sz p) (p_pagetable p) (p_trapframe p) (p_context p) (p_ofile p) (p_cwd p) (p_name p)) ps.

(** ** Scheduling *)

(** What [wakeup] does to one process, under its lock. *)
Definition wake_one (c : chan) (p : proc) : proc :=
  if bool_decide (p_state p = SLEEPING) && bool_decide (p_chan p = Some c) then set_state RUNNABLE p else p.

(** All processes but the caller that sleep on c become runnable. *)
Definition wakeup_procs (me : nat) (c : chan) (ps : list proc) : list proc :=
  imap (fun i p => if bool_decide (i <> me) then wake_one c p else p) ps.

(** [sleep], up to the call of [sched]: the lock lk is released. *)
Definition sleep_proc (c : chan) (p : proc) : proc :=
  mkProc SLEEPING (Some c) (p_killed p) (p_xstate p) (p_pid p) (p_parent p) (p_kstack p) (p_sz p)
    (p_pagetable p) (p_trapframe p) (p_context p) (p_ofile p) (p_cwd p) (p_name p).
(** [sleep], after [sched] returns. *)
Definition awake_proc (p : proc) : proc :=
  mkProc (p_state p) None (p_killed p) (p_xstate p) (p_pid p) (p_parent p) (p_kstack p) (p_sz p)
    (p_pagetable p) (p_trapframe p) (p_context p) (p_ofile p) (p_cwd p) (p_name p).

(** The checks of [sched]; holding and noff are those of the calling hart. *)
Definition sched (holding : bool) (noff : Z) (intr : bool) (p : proc) : M kern unit :=
  if negb holding then panic "sched p->lock"
  else if negb (noff =? 1) then panic "sched locks"
  else if bool_decide (p_state p = RUNNING) then panic "sched RUNNING"
  else if intr then panic "sched interruptible"
  else ret tt.

Definition yield : M kern unit := modify_me (set_state RUNNABLE).

(** One iteration of the inner loop of [scheduler] at table index i.  run is
    what happens from the switch to the process until it switches back; the
    result is whether there was something to run.  (c->proc is then 0, but no
    code asks for the current process before the next switch.) *)
Definition scheduler_pick (run : nat -> M kern unit) (i : nat) : M kern bool :=
  let! p := gets (proc_at i) in
  if bool_decide (p_state p = RUNNABLE) then
    modify_proc i (set_state RUNNING) ;;;
    modify (set_current i) ;;;
    run i ;;;
    ret true
  else ret false.

(** One pass of the endless loop, n processes from index i on.  When nothing
    was found the hart waits for an interrupt. *)
Fixpoint scheduler_from (run : nat -> M kern unit) (n i : nat) (found : bool) : M kern bool :=
  match n with
  | O => ret found
  | S n =>
      let! f := scheduler_pick run i in
      scheduler_from run n (S i) (found || f)
  end.
Definition scheduler_pass (run : nat -> M kern unit) : M kern bool :=
  scheduler_from run (Z.to_nat NPROC) 0 false.

(** ** Creating and freeing *)

Section proc.
Context `{Machine}.

Definition allocpid : M kern Z :=
  let! pid := gets ks_nextpid in
  modify (set_nextpid (i32 (pid + 1))) ;;;
  ret pid.

Definition proc_pagetable (p : proc) : M kern Z :=
  let! pagetable := vm uvmcreate in
  if pagetable =? 0 then ret 0
  else
    let! r := vm (mappages pagetable TRAMPOLINE PGSIZE trampoline (Z.lor PTE_R PTE_X)) in
    if r <? 0 then vm (uvmfree kend pagetable 0) ;;; ret 0
    else
      let! r := vm (mappages pagetable TRAPFRAME PGSIZE (p_trapframe p) (Z.lor PTE_R PTE_W)) in
      if r <? 0 then
        vm (uvmunmap kend pagetable TRAMPOLINE 1 false) ;;;
        vm (uvmfree kend pagetable 0) ;;;
        ret 0
      else ret pagetable.

Definition proc_freepagetable (pagetable sz : Z) : M kern unit :=
  vm (uvmunmap kend pagetable TRAMPOLINE 1 false) ;;;
  vm (uvmunmap kend pagetable TRAPFRAME 1 false) ;;;
  vm (uvmfree kend pagetable sz).

(** The fields [freeproc] resets. *)
Definition clear_proc (p : proc) : proc :=
  mkProc UNUSED None 0 0 0 None (p_kstack p) 0 0 0 (p_context p) (p_ofile p) (p_cwd p)
    (<[0%nat := 0]> (p_name p)).

Definition freeproc (i : nat) : M kern unit :=
  let! p := gets (proc_at i) in
  when (negb (p_trapframe p =? 0)) (kmemory (kfree kend (p_trapframe p))) ;;;
  modify_proc i (set_trapframe 0) ;;;
  when (negb (p_pagetable p =? 0)) (proc_freepagetable (p_pagetable p) (p_sz p)) ;;;
  modify_proc i clear_proc.

Definition allocproc : M kern (option nat) :=
  let! ps := gets ks_proc in
  match list_find (fun p => p_state p = UNUSED) ps with
  | None => ret None
  | Some (i, _) =>
      let! pid := allocpid in
      modify_proc i (fun p => set_state USED (set_pid pid p)) ;;;
      let! tf := kmemory kalloc in
      modify_proc i (set_trapframe tf) ;;;
      if tf =? 0 then freeproc i ;;; ret None
      else
        let! p := gets (proc_at i) in
        let! pt := proc_pagetable p in
        modify_proc i (set_pagetable pt) ;;;
        if pt =? 0 then freeproc i ;;; ret None
        else
          modify_proc i (fun p => set_context (forkret_addr, p_kstack p + PGSIZE) p) ;;;
          ret (Some i)
  end.

Definition userinit : M kern unit :=
  let! p := allocproc in
  match p with
  | None => undefined_behaviour "userinit: null process"
  | Some i =>
      modify (set_initproc i) ;;;
      let! ip := fs (namei [SLASH]) in
      modify_proc i (set_cwd ip) ;;;
      modify_proc i (set_state RUNNABLE)
  end.

Definition growproc (n : Z) : M kern Z :=
  let! p := gets me in
  let sz := p_sz p in
  if 0 <? n then
    if TRAPFRAME <? u64 (sz + n) then ret (-1)
    else
      let! r := vm (uvmalloc kend (p_pagetable p) sz (u64 (sz + n)) PTE_W) in
      if r =? 0 then ret (-1)
      else modify_me (set_sz r) ;;; ret 0
  else
    let! r := if n <? 0 then vm (uvmdealloc kend (p_pagetable p) sz (u64 (sz + n))) else ret sz in
    modify_me (set_sz r) ;;; ret 0.

(** [for(i = 0; i < NOFILE; i++) if(p->ofile[i]) np->ofile[i] = filedup(p->ofile[i]);] *)
Definition dup_files (np : nat) (ofile : list (option nat)) : M kern unit :=
  iter NOFILE (fun fd =>
    match ofile !!! Z.to_nat fd with
    | Some f => let! f := filedup f in modify_proc np (set_ofile (Z.to_nat fd) (Some f))
    | None => ret tt
    end).

Definition kfork : M kern Z :=
  let! np := allocproc in
  match np with
  | None => ret (-1)
  | Some np =>
      let! p := gets me in
      let! c := gets (proc_at np) in
      let! r := vm (uvmcopy kend (p_pagetable p) (p_pagetable c) (p_sz p)) in
      if r <? 0 then freeproc np ;;; ret (-1)
      else
        modify_proc np (set_sz (p_sz p)) ;;;
        modify (fun s => set_kmem (set_mem (fun m =>
          memmove m (p_trapframe c) (p_trapframe p) TF_SIZE) (ks_k s)) s) ;;;
        tf_set c TF_a0 0 ;;;
        dup_files np (p_ofile p) ;;;
        let! cwd := fs (idup (default 0%nat (p_cwd p))) in
        modify_proc np (set_cwd (Some cwd)) ;;;
        modify_proc np (fun c => set_name (splice (p_name c) 0 (safestrcpy 16 (str_at (p_name p)))) c) ;;;
        let! parent := gets ks_me in
        modify_proc np (set_parent (Some parent)) ;;;
        modify_proc np (set_state RUNNABLE) ;;;
        ret (p_pid c)
  end.

(** ** Exit and wait *)

Definition reparent (p : nat) : M kern unit :=
  iter NPROC (fun i =>
    let! pp := gets (proc_at (Z.to_nat i)) in
    when (bool_decide (p_parent pp = Some p))
      (let! ip := gets ks_initproc in
       modify_proc (Z.to_nat i) (set_parent (Some ip)) ;;;
       wakeup (ChProc ip))).

Definition close_files : M kern unit :=
  iter NOFILE (fun fd =>
    let! p := gets me in
    match p_ofile p !!! Z.to_nat fd with
    | Some f => fileclose f ;;; modify_me (set_ofile (Z.to_nat fd) None)
    | None => ret tt
    end).

(** It ends in [sched], from which an exited process does not return. *)
Definition kexit (status : Z) : M kern unit :=
  let! i := gets ks_me in
  let! ip := gets ks_initproc in
  if bool_decide (i = ip) then panic "init exiting"
  else
    close_files ;;;
    let! p := gets me in
    fs_begin_op ;;;
    fs (iput (default 0%nat (p_cwd p))) ;;;
    fs_end_op ;;;
    modify_me (set_cwd None) ;;;
    reparent i ;;;
    let! p := gets me in
    match p_parent p with Some pp => wakeup (ChProc pp) | None => ret tt end ;;;
    modify_me (fun p => set_state ZOMBIE (set_xstate status p)) ;;;
    sleep_on ChSched.

(** One pass over the table: [Some r] is the result to return, otherwise
    whether there are children. *)
Fixpoint kwait_scan (n : nat) (i : nat) (addr : Z) (havekids : bool) : M kern (Z + bool) :=
  match n with
  | O => ret (inr havekids)
  | S n =>
      let! self := gets ks_me in
      let! pp := gets (proc_at i) in
      if bool_decide (p_parent pp = Some self) then
        if bool_decide (p_state pp = ZOMBIE) then
          let! r := if addr =? 0 then ret 0 else vm (um_copyout addr (to_le 4 (p_xstate pp))) in
          if r <? 0 then ret (inl (-1))
          else freeproc i ;;; ret (inl (p_pid pp))
        else kwait_scan n (S i) addr true
      else kwait_scan n (S i) addr havekids
  end.

(** A process that is woken scans again from the start. *)
Definition kwait (addr : Z) : M kern Z :=
  let! r := kwait_scan (Z.to_nat NPROC) 0 addr false in
  match r with
  | inl r => ret r
  | inr havekids =>
      let! s := gets id in
      if negb havekids || killed_me s then ret (-1)
      else sleep_on (ChProc (ks_me s))
  end.

(** ** Kill *)

(** Under the lock of the process. *)
Definition kill_one (p : proc) : proc :=
  set_state (if bool_decide (p_state p = SLEEPING) then RUNNABLE else p_state p) (set_killed 1 p).

Definition kkill (pid : Z) : M kern Z :=
  let! ps := gets ks_proc in
  match list_find (fun p => p_pid p = pid) ps with
  | Some (i, _) =>
      modify_proc i kill_one ;;;
      ret 0
  | None => ret (-1)
  end.

Definition setkilled (i : nat) : M kern unit := modify_proc i (set_killed 1).
Definition killed (i : nat) : M kern Z := gets (fun s => p_killed (proc_at i s)).

(** What [procdump] prints. *)
Definition state_name (st : procstate) : string :=
  match st with
  | UNUSED => "unused" | USED => "used" | SLEEPING => "sleep " | RUNNABLE => "runble"
  | RUNNING => "run   " | ZOMBIE => "zombie"
  end.
Definition procdump (ps : list proc) : list (Z * string * bytes) :=
  (fun p => (p_pid p, state_name (p_state p), cstring (p_name p))) <$> filter (fun p => p_state p <> UNUSED) ps.
End proc.
