(* ===== verification/Exec.v ===== *)
(** * Loading programs ([kernel/exec.c])

    [kexec] builds a new address space from an ELF file, puts the arguments on
    its stack, and only then replaces the old one.  The error exits release
    what was acquired so far, as the code's label [bad] does. *)
From S2P Require Import Prelude Params Sleeplock CString Interfaces Log BlockInst Fs Kalloc Vm Pipe Console Kernel File Proc.

Definition ELF_MAGIC : Z := 0x464C457F.
Definition ELF_PROG_LOAD : Z := 1.
Definition ELFHDR_SIZE : Z := 64.
Definition PROGHDR_SIZE : Z := 56.

(** [struct elfhdr] and [struct proghdr], as read from the file. *)
Definition get_u64 (d : bytes) (off : Z) : Z := of_le (slice d (Z.to_nat off) 8).
Definition elf_magic (d : bytes) : Z := get_u32 d 0.
Definition elf_entry (d : bytes) : Z := get_u64 d 24.
Definition elf_phoff (d : bytes) : Z := get_u64 d 32.
Definition elf_phnum (d : bytes) : Z := get_u16 d 56.
Definition ph_type (d : bytes) : Z := get_u32 d 0.
Definition ph_flags (d : bytes) : Z := get_u32 d 4.
Definition ph_off (d : bytes) : Z := get_u64 d 8.
Definition ph_vaddr (d : bytes) : Z := get_u64 d 16.
Definition ph_filesz (d : bytes) : Z := get_u64 d 32.
Definition ph_memsz (d : bytes) : Z := get_u64 d 40.

Definition flags2perm (flags : Z) : Z :=
  let perm := if Z.land flags 1 =? 0 then 0 else PTE_X in
  if Z.land flags 2 =? 0 then perm else Z.lor perm PTE_W.

(** The last component of a path, the name kept for debugging. *)
Fixpoint last_elem (path last : bytes) : bytes :=
  match path with
  | [] => last
  | c :: rest => last_elem rest (if c =? SLASH then rest else last)
  end.

Section exec.
Context `{Machine}.

(** The page at va + i receives up to PGSIZE bytes of the file. *)
Definition loadseg (pagetable va : Z) (ip : nat) (offset sz : Z) : M kern Z :=
  let! r := for_from (Z.to_nat ((sz + PGSIZE - 1) / PGSIZE)) 0 (fun k =>
    let i := k * PGSIZE in
    let! pa := vm (walkaddr pagetable (u64 (va + i))) in
    if pa =? 0 then panic "loadseg: address should exist"
    else
      let n := if sz - i <? PGSIZE then sz - i else PGSIZE in
      let! r := fs (readi ip KernDst (u32 (offset + i)) n) in
      modify (fun s => set_kmem (set_mem (fun m => store_bytes m pa r.2) (ks_k s)) s) ;;;
      ret (if r.1 =? n then None else Some (-1))) in
  match r with Some r => ret r | None => ret 0 end.

(** The loop over the program headers; [inl sz] is the exit to [bad]. *)
Fixpoint load_segments (n : nat) (off : Z) (ip : nat) (pagetable sz : Z) : M kern (Z + Z) :=
  match n with
  | O => ret (inr sz)
  | S n =>
      let! r := fs (readi ip KernDst (u32 off) PROGHDR_SIZE) in
      let ph := r.2 in
      let next sz := load_segments n (i32 (off + PROGHDR_SIZE)) ip pagetable sz in
      if negb (r.1 =? PROGHDR_SIZE) then ret (inl sz)
      else if negb (ph_type ph =? ELF_PROG_LOAD) then next sz
      else if ph_memsz ph <? ph_filesz ph then ret (inl sz)
      else if u64 (ph_vaddr ph + ph_memsz ph) <? ph_vaddr ph then ret (inl sz)
      else if negb (ph_vaddr ph `mod` PGSIZE =? 0) then ret (inl sz)
      else
        let! sz1 := vm (uvmalloc kend pagetable sz (u64 (ph_vaddr ph + ph_memsz ph)) (flags2perm (ph_flags ph))) in
        if sz1 =? 0 then ret (inl sz)
        else
          let! r := loadseg pagetable (ph_vaddr ph) ip (u32 (ph_off ph)) (u32 (ph_filesz ph)) in
          if r <? 0 then ret (inl sz1) else next sz1
  end.

(** The argument strings, top down; the result is sp and ustack. *)
Fixpoint push_args (argv : list bytes) (argc : Z) (pagetable sp stackbase : Z) (ustack : list Z)
    : M kern (option (Z * list Z)) :=
  match argv with
  | [] => ret (Some (sp, ustack))
  | arg :: argv =>
      if MAXARG <=? argc then ret None
      else
        let sp := u64 (sp - (Z.of_nat (length arg) + 1)) in
        let sp := sp - sp `mod` 16 in
        if sp <? stackbase then ret None
        else
          let! r := vm (copyout kend pagetable sp (arg ++ [0])) in
          if r <? 0 then ret None
          else push_args argv (argc + 1) pagetable sp stackbase (ustack ++ [sp])
  end.

Definition words (l : list Z) : bytes := l ≫= to_le 8.

(** After the file is loaded: the stack, the arguments, and the switch to the
    new address space. *)
Definition exec_stack (path : bytes) (argv : list bytes) (elf : bytes) (pagetable sz : Z) : M kern Z :=
  let! p := gets me in
  let oldsz := p_sz p in
  let sz := PGROUNDUP sz in
  let! sz1 := vm (uvmalloc kend pagetable sz (u64 (sz + (USERSTACK + 1) * PGSIZE)) PTE_W) in
  if sz1 =? 0 then proc_freepagetable pagetable sz ;;; ret (-1)
  else
    let sz := sz1 in
    vm (uvmclear pagetable (sz - (USERSTACK + 1) * PGSIZE)) ;;;
    let stackbase := sz - USERSTACK * PGSIZE in
    let! r := push_args argv 0 pagetable sz stackbase [] in
    match r with
    | None => proc_freepagetable pagetable sz ;;; ret (-1)
    | Some (sp, ustack) =>
        let argc := Z.of_nat (length ustack) in
        let sp := u64 (sp - (argc + 1) * 8) in
        let sp := sp - sp `mod` 16 in
        if sp <? stackbase then proc_freepagetable pagetable sz ;;; ret (-1)
        else
          let! r := vm (copyout kend pagetable sp (words (ustack ++ [0]))) in
          if r <? 0 then proc_freepagetable pagetable sz ;;; ret (-1)
          else
            tf_set p TF_a1 sp ;;;
            modify_me (fun p => set_name (splice (p_name p) 0 (safestrcpy 16 (str_at (last_elem path path)))) p) ;;;
            let oldpagetable := p_pagetable p in
            modify_me (fun p => set_sz sz (set_pagetable pagetable p)) ;;;
            tf_set p TF_epc (elf_entry elf) ;;;
            tf_set p TF_sp sp ;;;
            proc_freepagetable oldpagetable oldsz ;;;
            ret argc
    end.

Definition kexec (path : bytes) (argv : list bytes) : M kern Z :=
  fs_begin_op ;;;
  let! ip := fs (namei path) in
  match ip with
  | None => fs_end_op ;;; ret (-1)
  | Some ip =>
      let close := fs (iunlockput ip) ;;; fs_end_op in
      fs (ilock (Some ip)) ;;;
      let! r := fs (readi ip KernDst 0 ELFHDR_SIZE) in
      let elf := r.2 in
      if negb (r.1 =? ELFHDR_SIZE) then close ;;; ret (-1)
      else if negb (elf_magic elf =? ELF_MAGIC) then close ;;; ret (-1)
      else
        let! p := gets me in
        let! pagetable := proc_pagetable p in
        if pagetable =? 0 then close ;;; ret (-1)
        else
          let! r := load_segments (Z.to_nat (elf_phnum elf)) (i32 (elf_phoff elf)) ip pagetable 0 in
          match r with
          | inl sz => proc_freepagetable pagetable sz ;;; close ;;; ret (-1)
          | inr sz => close ;;; exec_stack path argv elf pagetable sz
          end
  end.
End exec.
