(* ===== verification/Sysfile.v ===== *)
(** * System calls on files ([kernel/sysfile.c]) and their arguments
    ([kernel/syscall.c])

    Arguments come from the trapframe of the current process; strings and
    argument vectors are fetched from its memory.  A path is the bytes of a C
    string without its NUL. *)
From S2P Require Import Prelude Params Sleeplock CString Interfaces Log BlockInst Fs Kalloc Vm Pipe Console Kernel File Proc Exec.

Definition O_RDONLY : Z := 0x000.
Definition O_WRONLY : Z := 0x001.
Definition O_RDWR : Z := 0x002.
Definition O_CREATE : Z := 0x200.
Definition O_TRUNC : Z := 0x400.
Definition flag (omode f : Z) : bool := negb (Z.land omode f =? 0).

(** ** Arguments *)

Section args.
Context `{Machine}.

Definition fetchaddr (addr : Z) : M kern (option Z) :=
  let! p := gets me in
  if (p_sz p <=? addr) || (p_sz p <? u64 (addr + 8)) then ret None
  else
    let! r := vm (copyin kend (p_pagetable p) addr 8) in
    if negb (r.1 =? 0) then ret None else ret (Some (of_le r.2)).

(** The string without its NUL; its length is the C function's result. *)
Definition fetchstr (addr max : Z) : M kern (option bytes) :=
  let! p := gets me in
  let! r := vm (copyinstr (p_pagetable p) addr max) in
  if r.1 <? 0 then ret None else ret (Some (cstring r.2)).

Definition argraw (n : Z) : M kern Z :=
  if (0 <=? n) && (n <=? 5) then gets (fun s => tf_get (me s) (TF_a0 + 8 * n) s)
  else panic "argraw".
Definition argint (n : Z) : M kern Z := let! x := argraw n in ret (i32 x).
Definition argaddr (n : Z) : M kern Z := argraw n.
Definition argstr (n max : Z) : M kern (option bytes) :=
  let! addr := argaddr n in
  fetchstr addr max.

(** The descriptor and the file. *)
Definition argfd (n : Z) : M kern (option (nat * nat)) :=
  let! fd := argint n in
  let! p := gets me in
  if (fd <? 0) || (NOFILE <=? fd) then ret None
  else match p_ofile p !!! Z.to_nat fd with
       | Some f => ret (Some (Z.to_nat fd, f))
       | None => ret None
       end.

Definition fdalloc (f : nat) : M kern (option nat) :=
  let! p := gets me in
  match list_find (fun o => o = None) (p_ofile p) with
  | Some (fd, _) => modify_me (set_ofile fd (Some f)) ;;; ret (Some fd)
  | None => ret None
  end.
End args.

(** ** The calls *)

Section calls.
Context `{Machine}.

Definition sys_dup : M kern Z :=
  let! a := argfd 0 in
  match a with
  | None => ret (-1)
  | Some (_, f) =>
      let! fd := fdalloc f in
      match fd with
      | None => ret (-1)
      | Some fd => filedup f ;;; ret (Z.of_nat fd)
      end
  end.

Definition sys_read : M kern Z :=
  let! p := argaddr 1 in
  let! n := argint 2 in
  let! a := argfd 0 in
  match a with None => ret (-1) | Some (_, f) => fileread f p n end.

Definition sys_write : M kern Z :=
  let! p := argaddr 1 in
  let! n := argint 2 in
  let! a := argfd 0 in
  match a with None => ret (-1) | Some (_, f) => filewrite f p n end.

Definition sys_close : M kern Z :=
  let! a := argfd 0 in
  match a with
  | None => ret (-1)
  | Some (fd, f) => modify_me (set_ofile fd None) ;;; fileclose f ;;; ret 0
  end.

Definition sys_fstat : M kern Z :=
  let! st := argaddr 1 in
  let! a := argfd 0 in
  match a with None => ret (-1) | Some (_, f) => filestat f st end.

Definition set_links (ip : nat) (f : Z -> Z) : M kern unit :=
  fs (modify_inode ip (fun i => set_inlink (i16 (f (i_nlink i))) i)).

(** The label [bad] of [sys_link]. *)
Definition link_bad (ip : nat) : M kern Z :=
  fs (ilock (Some ip)) ;;;
  set_links ip (fun n => n - 1) ;;;
  fs (iupdate ip) ;;;
  fs (iunlockput ip) ;;;
  fs_end_op ;;;
  ret (-1).

Definition sys_link : M kern Z :=
  let! old := argstr 0 MAXPATH in
  match old with
  | None => ret (-1)
  | Some old =>
  let! new := argstr 1 MAXPATH in
  match new with
  | None => ret (-1)
  | Some new =>
      fs_begin_op ;;;
      let! ip := fs (namei old) in
      match ip with
      | None => fs_end_op ;;; ret (-1)
      | Some ip =>
          fs (ilock (Some ip)) ;;;
          let! i := fs (gets (inode_at ip)) in
          if i_type i =? T_DIR then fs (iunlockput ip) ;;; fs_end_op ;;; ret (-1)
          else
            set_links ip (fun n => n + 1) ;;;
            fs (iupdate ip) ;;;
            fs (iunlock (Some ip)) ;;;
            let! r := fs (nameiparent new name0) in
            match r with
            | (None, _) => link_bad ip
            | (Some dp, name) =>
                fs (ilock (Some dp)) ;;;
                let! d := fs (gets (inode_at dp)) in
                let! i := fs (gets (inode_at ip)) in
                let! r := if negb (i_dev d =? i_dev i) then ret (-1) else fs (dirlink dp name (i_inum i)) in
                if r <? 0 then fs (iunlockput dp) ;;; link_bad ip
                else
                  fs (iunlockput dp) ;;;
                  fs (iput ip) ;;;
                  fs_end_op ;;;
                  ret 0
            end
      end
  end end.

(** Entries from the third on. *)
Definition isdirempty (dp : nat) : M kern bool :=
  let! d := fs (gets (inode_at dp)) in
  let! r := for_from (dirents (i_size d) - 2)%nat 2 (fun k =>
    let! r := fs (readi dp KernDst (k * DIRENT_SIZE) DIRENT_SIZE) in
    if negb (r.1 =? DIRENT_SIZE) then panic "isdirempty: readi"
    else ret (if de_inum r.2 =? 0 then None else Some tt)) in
  ret (match r with Some _ => false | None => true end).

Definition DOT : bytes := [46; 0].
Definition DOTDOT : bytes := [46; 46; 0].

(** The label [bad] of [sys_unlink]. *)
Definition unlink_bad (dp : nat) : M kern Z :=
  fs (iunlockput dp) ;;;
  fs_end_op ;;;
  ret (-1).

Definition sys_unlink : M kern Z :=
  let! path := argstr 0 MAXPATH in
  match path with
  | None => ret (-1)
  | Some path =>
      fs_begin_op ;;;
      let! r := fs (nameiparent path name0) in
      match r with
      | (None, _) => fs_end_op ;;; ret (-1)
      | (Some dp, name) =>
          fs (ilock (Some dp)) ;;;
          if (namecmp name DOT =? 0) || (namecmp name DOTDOT =? 0) then unlink_bad dp
          else
            let! r := fs (dirlookup dp name) in
            match r with
            | None => unlink_bad dp
            | Some (ip, off) =>
                fs (ilock (Some ip)) ;;;
                let! i := fs (gets (inode_at ip)) in
                if i_nlink i <? 1 then panic "unlink: nlink < 1"
                else
                  let! busy := if i_type i =? T_DIR then let! e := isdirempty ip in ret (negb e) else ret false in
                  if busy : bool then fs (iunlockput ip) ;;; unlink_bad dp
                  else
                    let! w := fs (writei dp (KernSrc (replicate (Z.to_nat DIRENT_SIZE) 0)) off DIRENT_SIZE) in
                    if negb (w =? DIRENT_SIZE) then panic "unlink: writei"
                    else
                      when (i_type i =? T_DIR)
                        (set_links dp (fun n => n - 1) ;;; fs (iupdate dp)) ;;;
                      fs (iunlockput dp) ;;;
                      set_links ip (fun n => n - 1) ;;;
                      fs (iupdate ip) ;;;
                      fs (iunlockput ip) ;;;
                      fs_end_op ;;;
                      ret 0
            end
      end
  end.

(** The label [fail] of [create]. *)
Definition create_fail (ip dp : nat) : M kern (option nat) :=
  set_links ip (fun _ => 0) ;;;
  fs (iupdate ip) ;;;
  fs (iunlockput ip) ;;;
  fs (iunlockput dp) ;;;
  ret None.

(** The locked inode of path, or None. *)
Definition create (path : bytes) (type major minor : Z) : M kern (option nat) :=
  let! r := fs (nameiparent path name0) in
  match r with
  | (None, _) => ret None
  | (Some dp, name) =>
      fs (ilock (Some dp)) ;;;
      let! r := fs (dirlookup dp name) in
      match r with
      | Some (ip, _) =>
          fs (iunlockput dp) ;;;
          fs (ilock (Some ip)) ;;;
          let! i := fs (gets (inode_at ip)) in
          if (type =? T_FILE) && ((i_type i =? T_FILE) || (i_type i =? T_DEVICE)) then ret (Some ip)
          else fs (iunlockput ip) ;;; ret None
      | None =>
          let! d := fs (gets (inode_at dp)) in
          let! r := fs (ialloc (i_dev d) type) in
          match r with
          | None => fs (iunlockput dp) ;;; ret None
          | Some ip =>
              fs (ilock (Some ip)) ;;;
              fs (modify_inode ip (fun i => set_inlink 1 (set_idev (i16 major) (i16 minor) i))) ;;;
              fs (iupdate ip) ;;;
              let! i := fs (gets (inode_at ip)) in
              let! r :=
                if type =? T_DIR then
                  let! r := fs (dirlink ip DOT (i_inum i)) in
                  if r <? 0 then ret r
                  else fs (dirlink ip DOTDOT (i_inum d))
                else ret 0 in
              if r <? 0 then create_fail ip dp
              else
                let! r := fs (dirlink dp name (i_inum i)) in
                if r <? 0 then create_fail ip dp
                else
                  when (type =? T_DIR)
                    (set_links dp (fun n => n + 1) ;;; fs (iupdate dp)) ;;;
                  fs (iunlockput dp) ;;;
                  ret (Some ip)
          end
      end
  end.

(** The inode to open, locked, inside a transaction. *)
Definition open_inode (path : bytes) (omode : Z) : M kern (option nat) :=
  if flag omode O_CREATE then
    let! r := create path T_FILE 0 0 in
    match r with
    | None => fs_end_op ;;; ret None
    | Some ip => ret (Some ip)
    end
  else
    let! r := fs (namei path) in
    match r with
    | None => fs_end_op ;;; ret None
    | Some ip =>
        fs (ilock (Some ip)) ;;;
        let! i := fs (gets (inode_at ip)) in
        if (i_type i =? T_DIR) && negb (omode =? O_RDONLY) then
          fs (iunlockput ip) ;;; fs_end_op ;;; ret None
        else ret (Some ip)
    end.

Definition open_bad (ip : nat) : M kern Z :=
  fs (iunlockput ip) ;;;
  fs_end_op ;;;
  ret (-1).

Definition sys_open : M kern Z :=
  let! omode := argint 1 in
  let! path := argstr 0 MAXPATH in
  match path with
  | None => ret (-1)
  | Some path =>
      fs_begin_op ;;;
      let! r := open_inode path omode in
      match r with
      | None => ret (-1)
      | Some ip =>
          let! i := fs (gets (inode_at ip)) in
          if (i_type i =? T_DEVICE) && ((i_major i <? 0) || (NDEV <=? i_major i)) then open_bad ip
          else
            let! f := filealloc in
            match f with
            | None => open_bad ip
            | Some f =>
                let! fd := fdalloc f in
                match fd with
                | None => fileclose f ;;; open_bad ip
                | Some fd =>
                    let readable := negb (flag omode O_WRONLY) in
                    let writable := flag omode O_WRONLY || flag omode O_RDWR in
                    modify_file f (fun fl =>
                      if i_type i =? T_DEVICE
                      then mkFile FD_DEVICE (fl_ref fl) readable writable (fl_pipe fl) ip (fl_off fl) (i_major i)
                      else mkFile FD_INODE (fl_ref fl) readable writable (fl_pipe fl) ip 0 (fl_major fl)) ;;;
                    when (flag omode O_TRUNC && (i_type i =? T_FILE)) (fs (itrunc ip)) ;;;
                    fs (iunlock (Some ip)) ;;;
                    fs_end_op ;;;
                    ret (Z.of_nat fd)
                end
            end
      end
  end.

(** The common body of [sys_mkdir] and [sys_mknod]. *)
Definition make_node (type major minor : Z) : M kern Z :=
  let! path := argstr 0 MAXPATH in
  match path with
  | None => fs_end_op ;;; ret (-1)
  | Some path =>
      let! r := create path type major minor in
      match r with
      | None => fs_end_op ;;; ret (-1)
      | Some ip => fs (iunlockput ip) ;;; fs_end_op ;;; ret 0
      end
  end.

Definition sys_mkdir : M kern Z :=
  fs_begin_op ;;;
  make_node T_DIR 0 0.

Definition sys_mknod : M kern Z :=
  fs_begin_op ;;;
  let! major := argint 1 in
  let! minor := argint 2 in
  make_node T_DEVICE (i16 major) (i16 minor).

Definition sys_chdir : M kern Z :=
  fs_begin_op ;;;
  let! path := argstr 0 MAXPATH in
  match path with
  | None => fs_end_op ;;; ret (-1)
  | Some path =>
      let! r := fs (namei path) in
      match r with
      | None => fs_end_op ;;; ret (-1)
      | Some ip =>
          fs (ilock (Some ip)) ;;;
          let! i := fs (gets (inode_at ip)) in
          if negb (i_type i =? T_DIR) then fs (iunlockput ip) ;;; fs_end_op ;;; ret (-1)
          else
            fs (iunlock (Some ip)) ;;;
            let! p := gets me in
            fs (iput (default 0%nat (p_cwd p))) ;;;
            fs_end_op ;;;
            modify_me (set_cwd (Some ip)) ;;;
            ret 0
      end
  end.

(** Freeing argv[i], i < n: each page holds the copy of one argument. *)
Fixpoint free_args (pages : list Z) : M kern unit :=
  match pages with
  | [] => ret tt
  | pa :: pages => kmemory (kfree kend pa) ;;; free_args pages
  end.

(** The loop that fetches argv; n is the number of slots left.  The result is
    the pages allocated and, unless it failed, the strings in them. *)
Fixpoint fetch_args (n : nat) (uargv i : Z) (pages : list Z) (argv : list bytes)
    : M kern (list Z * option (list bytes)) :=
  match n with
  | O => ret (pages, None)
  | S n =>
      let! uarg := fetchaddr (u64 (uargv + 8 * i)) in
      match uarg with
      | None => ret (pages, None)
      | Some uarg =>
          if uarg =? 0 then ret (pages, Some argv)
          else
            let! pa := kmemory kalloc in
            if pa =? 0 then ret (pages, None)
            else
              let! s := fetchstr uarg PGSIZE in
              match s with
              | None => ret (pages ++ [pa], None)
              | Some s => fetch_args n uargv (i + 1) (pages ++ [pa]) (argv ++ [s])
              end
      end
  end.

Definition sys_exec : M kern Z :=
  let! uargv := argaddr 1 in
  let! path := argstr 0 MAXPATH in
  match path with
  | None => ret (-1)
  | Some path =>
      let! r := fetch_args (Z.to_nat MAXARG) uargv 0 [] [] in
      match r with
      | (pages, None) => free_args pages ;;; ret (-1)
      | (pages, Some argv) =>
          let! r := kexec path argv in
          free_args pages ;;;
          ret r
      end
  end.

(** Closing both files when no descriptor or no memory is left. *)
Definition pipe_bad (rf wf : nat) : M kern Z :=
  fileclose rf ;;;
  fileclose wf ;;;
  ret (-1).

Definition sys_pipe : M kern Z :=
  let! fdarray := argaddr 0 in
  let! r := pipealloc in
  match r with
  | None => ret (-1)
  | Some (rf, wf) =>
      let! fd0 := fdalloc rf in
      match fd0 with
      | None => pipe_bad rf wf
      | Some fd0 =>
          let! fd1 := fdalloc wf in
          match fd1 with
          | None => modify_me (set_ofile fd0 None) ;;; pipe_bad rf wf
          | Some fd1 =>
              let! r := vm (um_copyout fdarray (to_le 4 (Z.of_nat fd0))) in
              let! r := if r <? 0 then ret r else vm (um_copyout (u64 (fdarray + 4)) (to_le 4 (Z.of_nat fd1))) in
              if r <? 0 then
                modify_me (set_ofile fd0 None) ;;;
                modify_me (set_ofile fd1 None) ;;;
                pipe_bad rf wf
              else ret 0
          end
      end
  end.
End calls.
