(* ===== verification/SysUnlink.v ===== *)
(** * [sys_unlink] from the call to the end of its transaction

    The handler on the whole kernel state: the path is followed, the entry is
    cleared, the links are counted down and the transaction ends.  [unlinked]
    ([FsTree]) says what it leaves on disk. *)
From S2P Require Import Prelude Params Sleeplock Bio BioInv Log LogInv LogCrash LogTxn CString Interfaces BlockInst Fs FsBlocks FsInode FsData FsWrite FsProps FsWriteProps FsTrunc FsDir FsPath FsUnlink FsTree FsDirProps Kalloc Vm Pipe Console Kernel File Proc Exec Sysfile.

Section unlink.
Context `{Machine}.
Implicit Types (k : kern) (s : @fstate lst vst).

(** ** The file system's part of the kernel state *)

(** s is a file system state that the process of k can be in. *)
Definition on_view k s : Prop := f_user s = user_view k /\ f_cwd s = default 0%nat (p_cwd (me k)) /\ f_pid s = p_pid (me k).

Lemma view_put k s : on_view k s -> fs_view (put_fs s k) = s.
Proof. intros (Eu & Ec & Ep). destruct s as [d u sb it cwd pid]. cbn in Eu, Ec, Ep. subst. done. Qed.
Lemma view_self k : on_view k (fs_view k).
Proof. done. Qed.
Lemma put_view k : put_fs (fs_view k) k = k.
Proof. by destruct k. Qed.
Lemma kept_view k s0 s e lk : on_view k s0 -> kept (f_sb s0) s0 s e lk -> on_view k s.
Proof. intros (Eu & Ec & Ep) Hk. destruct (kp_rest _ _ _ _ _ Hk) as (_ & E1 & E2 & E3). repeat split; congruence. Qed.

(** One call into the file system. *)
Lemma wp_fs {A B} (m : M fstate A) (K : A -> M kern B) k s Q : on_view k s ->
  wp m s (fun a s' => wp (K a) (put_fs s' k) Q) -> wp (let! a := fs m in K a) (put_fs s k) Q.
Proof. intros Hv Hm. apply wp_bind, wp_zoom. rewrite view_put by done. exact Hm. Qed.

(** ** The kernel between system calls *)

Record settled k (live : Z -> Prop) : Prop := {
  se_log : bl_wf (ks_blk k) /\ bl_idle (ks_blk k) /\ bl_held (ks_blk k) = ∅ /\ bl_txn (ks_blk k) = ∅;
  se_tree : fs_tree (ks_sb k) (ks_blk k) live;
  se_table : table_quiet (fs_view k);
  se_inums : forall q, in_table q -> 0 < i_ref (inode_at q (fs_view k)) -> inum_ok (ks_sb k) (i_inum (inode_at q (fs_view k)));
  se_bitmap : (size (bitmap (ks_sb k)) < 19)%nat }.

(** After a call: only the file system changed, no transaction is open, and the
    inode table is as it was but for what it caches. *)
Record settled_again k k' : Prop := {
  sa_rest : exists s', k' = put_fs s' k /\ on_view k s' /\ f_sb s' = ks_sb k;
  sa_log : bl_wf (ks_blk k') /\ bl_idle (ks_blk k') /\ bl_held (ks_blk k') = ∅ /\ bl_txn (ks_blk k') = ∅;
  sa_table : table_quiet (fs_view k');
  sa_refs : forall q, in_table q -> i_ref (inode_at q (fs_view k')) = i_ref (inode_at q (fs_view k));
  sa_ids : forall q, in_table q -> 0 < i_ref (inode_at q (fs_view k)) -> i_inum (inode_at q (fs_view k')) = i_inum (inode_at q (fs_view k)) }.

(** Only the cache changed. *)
Lemma kept_restored {D U} `{BlockLaws D} sb (s0 s : @fstate D U) : kept sb s0 s none ∅ -> restored sb s0 s.
Proof.
  intros [K1 K2 K3 K4 K5 K6 K7 K8]. split; [done|..|split; try done].
  - intros q Hq. rewrite K4 by done. unfold none. lia.
  - done.
  - apply ro_refl. destruct K1 as ((Hwf & _) & _). exact Hwf.
  - intros q Hq. unfold none. lia.
  - intros q Hq Hpos Hv. rewrite (idisk_ro sb (f_blk s0) (f_blk s)) by done. by apply K7.
Qed.

(** Ending the transaction that began in d1. *)
Lemma end_call k live d1 s r (Q : Z -> kern -> Prop) : let s0 := set_blk d1 (fs_view k) in
  settled k live -> alike (ks_blk k) d1 -> bl_open d1 -> restored (ks_sb k) s0 s -> bl_same d1 (f_blk s) -> bl_held (f_blk s) = bl_held d1 ->
  (size (bl_txn (f_blk s)) < NBUF)%nat ->
  (forall k', settled_again k k' -> bl_held (ks_blk k') = bl_held (f_blk s) -> (forall b, bl_home (f_blk s) b <-> bl_home (ks_blk k') b) ->
     (forall b, bl_home (f_blk s) b -> bl_view (ks_blk k') b = bl_view (f_blk s) b) -> Q r k') ->
  wp (fs_end_op ;;; ret r) (put_fs s k) Q.
Proof.
  intros s0 [(Hwf & Hidle & Hheld & Htxn) Htree [Hkp Hrefs Hspare] Hinums _] Ha Ho [(Esb & Ep & Ec & Eu) Rr Ri Rk] Hs Hh Hroom HQ.
  assert (on_view k s) as Hv by (split_and!; [exact Eu|exact Ec|exact Ep]). apply wp_fs; [done|].
  assert (bl_held (f_blk s) = ∅) as Hh0 by (rewrite Hh, (al_held _ _ Ha); done).
  eapply wp_blk; [apply (bl_end_op_law (f_blk s)); [by eapply same_wf|by eapply same_open|done|klia]|].
  intros [] d9 (W9 & H9 & I9 & V9 & E9 & T9). set (s9 := set_blk d9 s). assert (on_view k s9) as Hv9 by exact Hv.
  assert (forall q, in_table q -> 0 < i_ref (inode_at q s) -> bl_home (f_blk s) (IBLOCK (i_inum (inode_at q s)) (ks_sb k))) as Hhome.
  { intros q Hq Hpos. eapply same_home; [exact Hs|]. apply (al_home _ _ Ha). rewrite Rr in Hpos by done. rewrite Ri by done. apply (ft_iblock _ _ _ Htree). by apply Hinums. }
  apply wp_ret, HQ; [|by rewrite Hh0|done|done]. pose proof Rk as [K1 K2 K3 K4 K5 K6 K7 K8]. split.
  - exists s9. split; [done|]. split; [done|]. exact Esb.
  - done.
  - rewrite view_put by done. split.
    + assert (f_sb s9 = ks_sb k) as -> by exact Esb. split; try done. intros q Hq Hpos Hval. change (inode_at q s9) with (inode_at q s) in *.
      specialize (K7 q Hq Hpos Hval). unfold idisk in *. change (f_blk s9) with d9. by rewrite (V9 _ (Hhome q Hq Hpos)).
    + intros q Hq. change (inode_at q s9) with (inode_at q s). rewrite Rr by done. by apply Hrefs.
    + destruct Hspare as (k1 & k2 & H1 & H2 & Hne & E1 & E2). exists k1, k2. change (inode_at ?q s9) with (inode_at q s). rewrite !Rr by done. done.
  - intros q Hq. rewrite view_put by done. change (inode_at q s9) with (inode_at q s). by rewrite Rr.
  - intros q Hq Hpos. rewrite view_put by done. change (inode_at q s9) with (inode_at q s). by apply Ri.
Qed.

(** ** What the call is to remove *)

(** No entry but the first two. *)
Definition dir_empty (d : lst) (i : inode) : bool := forallb (fun j => de_inum (dirent_at d i j) =? 0) (seqZ 2 (Z.of_nat (dirents (i_size i) - 2))).

Definition removable sb (d : lst) (m : Z) : bool := negb (i_type (idisk sb d m) =? T_DIR) || dir_empty d (idisk sb d m).

(** The directory, the name in it and the inode it stands for. *)
Definition unlink_target sb (d : lst) (start : Z) (path : bytes) : option (Z * bytes * Z) :=
  match target sb d true start (path_elems path), last (path_elems path) with
  | Some n, Some x =>
      if dots x then None
      else match dir_find d (idisk sb d n) x with Some m => if removable sb d m then Some (n, x, m) else None | None => None end
  | _, _ => None
  end.

Lemma removable_alike sb (d d1 : lst) m : (forall b, bl_view d1 b = bl_view d b) -> removable sb d1 m = removable sb d m.
Proof.
  intros Hv. unfold removable, dir_empty. rewrite (alike_idisk sb d d1) by done. f_equal. apply eq_iff_eq_true. rewrite !forallb_forall.
  split; intros Hall j Hj; specialize (Hall j Hj); by rewrite (alike_dirent d d1) in * by done.
Qed.

Lemma same_name_sym a b : same_name a b = same_name b a.
Proof. apply eq_iff_eq_true. rewrite !same_name_spec. split; apply str_eq_sym. Qed.

Lemma unlinked_name {D} `{BlockLaws D} sb (d : D) live n m a b l d' : same_name a b = true -> unlinked sb d live n m a l d' -> unlinked sb d live n m b l d'.
Proof.
  intros Hab [U1 U2 U3 Up U4 U5 U6 U7]. split; try done.
  - by rewrite (find_name d' _ b a) by by rewrite same_name_sym.
  - intros c Hc. apply U3. by rewrite same_name_sym, (same_name_eq a b), same_name_sym.
Qed.

Section call.
Context (k0 : kern) (live : Z -> Prop) (path : bytes).
Let sb := ks_sb k0.
Let d := ks_blk k0.
Let start := start_of (fs_view k0) path.
Context (Hset : settled k0 live) (Hz : 0 ∉ path).
Context (Hstart : head path = Some SLASH \/ on_disk (fs_view k0) (f_cwd (fs_view k0)) start /\ live start).
Context (d1 : lst) (Ha : alike d d1) (Ho : bl_open d1).
Let s0 := set_blk d1 (fs_view k0).

Lemma tree1 : fs_tree sb d1 live.
Proof. by eapply alike_tree; [|apply (se_tree _ _ Hset)]. Qed.

Lemma room1 : fs_ok sb d1 (size (bitmap sb) + 11).
Proof.
  pose proof tree1 as T. destruct (se_log _ _ Hset) as (_ & _ & Hh & Htx). split; [apply T|apply Ha|done|apply T|].
  rewrite (al_held _ _ Ha), (al_txn _ _ Ha). unfold d. rewrite Hh, Htx, size_empty, map_size_empty. pose proof (se_bitmap _ _ Hset). unfold NBUF, sb. lia.
Qed.

Lemma table1 : kept sb s0 s0 none ∅ /\ (forall q, in_table q -> 0 <= i_ref (inode_at q s0)) /\
  (exists k1 k2 : nat, in_table k1 /\ in_table k2 /\ k1 <> k2 /\ i_ref (inode_at k1 s0) = 0 /\ i_ref (inode_at k2 s0) = 0) /\
  (forall q, in_table q -> 0 < i_ref (inode_at q s0) -> inum_ok sb (i_inum (inode_at q s0))).
Proof.
  destruct (se_table _ _ Hset) as [[K1 K2 K3 K4 K5 K6 K7 K8] Hr Hf]. split_and!; [|done|done|apply (se_inums _ _ Hset)].
  split; try done; [by apply ro_refl, Ha|]. intros q Hq Hpos Hv. change (f_blk s0) with d1. rewrite (alike_idisk sb d d1) by apply Ha. by apply K7.
Qed.

(** ** Failures *)

Definition same_disk k' : Prop := forall b, bl_home d b -> bl_view (ks_blk k') b = bl_view d b.

Lemma end_unchanged s : kept sb s0 s none ∅ -> wp (fs_end_op ;;; ret (-1)) (put_fs s k0) (fun r k' => settled_again k0 k' /\ r = -1 /\ same_disk k').
Proof.
  intros Hk. pose proof (kp_blk _ _ _ _ _ Hk) as (Hs & Hv & Hh & Htx & _). pose proof (fw_room _ _ _ room1) as Hr.
  apply (end_call k0 live d1 s (-1)); try done; [by apply kept_restored|rewrite Htx; change (f_blk s0) with d1; lia|].
  intros k' Hagain _ _ Hvw. split; [done|]. split; [done|]. intros b Hb. rewrite Hvw; [rewrite Hv; apply Ha|]. eapply same_home; [exact Hs|]. by apply (al_home _ _ Ha).
Qed.

Lemma unlink_fails s dp n : kept sb s0 s (single dp) {[dp]} -> live n -> on_disk s dp n ->
  wp (unlink_bad dp) (put_fs s k0) (fun r k' => settled_again k0 k' /\ r = -1 /\ same_disk k').
Proof.
  intros Hk Hn Hd. unfold unlink_bad. apply wp_fs; [by eapply (kept_view k0 s0)|].
  destruct table1 as (_ & Hr0 & Hsp & _).
  eapply wp_mono; [apply (iunlockput_kept sb s0 live eq_refl (ft_tree _ _ _ tree1) Hr0 Hsp s dp n Hk Hn Hd)|]. intros ? s' Hk'. by apply end_unchanged.
Qed.

(** ** The target *)

Lemma isdirempty_wp s e lk ip m : kept sb s0 s e lk -> live m -> on_disk s ip m -> same_dinode (inode_at ip s) (idisk sb d1 m) -> i_type (idisk sb d1 m) = T_DIR ->
  wp (isdirempty ip) (put_fs s k0) (fun r k' => r = dir_empty d1 (idisk sb d1 m) /\ exists d', ro_post (f_blk s) d' /\ k' = put_fs (set_blk d' s) k0).
Proof.
  intros Hk Hm (Hin & Hr & Hi) Hs Hty. pose proof tree1 as T. pose proof (kp_blk _ _ _ _ _ Hk) as Hro. change (f_blk s0) with d1 in Hro. assert (on_view k0 s) as Hv by by eapply (kept_view k0 s0).
  set (i := inode_at ip s) in *. set (di := idisk sb d1 m) in *. assert (i_size i = i_size di) as Esz by apply Hs.
  assert (dir_ok (f_blk s) i) as Hdir by (eapply ro_dir_ok; [exact Hro|]; eapply dir_ok_same; [exact Hs|exact (kp_dev _ _ _ _ _ Hk ip Hin (Z.lt_le_trans 0 1 _ eq_refl Hr))|by apply (tk_dir _ _ _ (ft_tree _ _ _ T))]).
  assert (forall j, dirent_at (f_blk s) i j = dirent_at d1 di j) as Ed by (intros j; by rewrite (ro_dirent d1 (f_blk s)), (dirent_same _ _ _ _ Hs)).
  unfold isdirempty. apply wp_fs; [done|]. apply wp_gets. fold i. rewrite Esz. apply wp_bind.
  apply (wp_for_from (fun j k' => (forall q, 2 <= q < j -> de_inum (dirent_at d1 di q) = 0) /\ exists d', ro_post (f_blk s) d' /\ k' = put_fs (set_blk d' s) k0)).
  - split; [lia|]. exists (f_blk s). split; [apply ro_refl, Hdir|]. by destruct s.
  - intros j ? Hj (Hz' & d' & Hro' & ->). apply wp_fs; [done|]. pose proof (read_dirent (set_blk d' s) ip j) as Hrd. cbv zeta in Hrd. change (inode_at ip (set_blk d' s)) with i in Hrd.
    eapply wp_mono; [apply Hrd; [by eapply ro_dir_ok|rewrite Esz; lia]|]. intros r ? (-> & d'' & -> & Hro''). cbn [fst snd]. rewrite Z.eqb_refl. cbn [negb].
    change (f_blk (set_blk d' s)) with d' in *. rewrite (ro_dirent (f_blk s) d'), Ed by done. assert (ro_post (f_blk s) d'') as Hro2 by by eapply ro_trans.
    destruct (Z.eqb_spec (de_inum (dirent_at d1 di j)) 0) as [E|E]; apply wp_ret.
    + split; [|by exists d'']. intros q Hq. destruct (decide (q = j)) as [->|]; [done|]. apply Hz'. lia.
    + apply wp_ret. split; [|by exists d'']. symmetry. unfold dir_empty. apply not_true_is_false. intros Hall. rewrite forallb_forall in Hall.
      apply E, Z.eqb_eq, Hall, list_elem_of_In, elem_of_seqZ. lia.
  - intros ? (Hz' & d' & Hro' & ->). apply wp_ret. split; [|by exists d']. symmetry. unfold dir_empty. apply forallb_forall. intros q Hq%list_elem_of_In%elem_of_seqZ.
    apply Z.eqb_eq, Hz'. lia.
Qed.

(** A directory that is not empty. *)
Lemma unlink_busy s dp ip n m : live n -> live m -> n <> m -> both_locked sb s0 n m dp ip s ->
  wp (fs (iunlockput ip) ;;; unlink_bad dp) (put_fs s k0) (fun r k' => settled_again k0 k' /\ r = -1 /\ same_disk k').
Proof.
  intros Hn Hm Hnm Hb. pose proof (both_apart _ _ _ _ Hnm _ _ _ Hb) as Hne. destruct Hb as [Hk Hd Hi _ _ _]. apply wp_fs; [by eapply (kept_view k0 s0)|].
  unfold iunlockput. apply wp_bind. eapply wp_mono; [apply (iunlock_kept sb s0 s _ _ ip m Hk); [apply elem_of_union_l, elem_of_singleton_2; done|done]|].
  intros ? s1 [Hk1 Hd1]. eapply wp_mono; [apply (iput_kept sb s0 live s1 _ _ ip m Hk1 (ft_tree _ _ _ tree1) Hm (Hd1 _ _ Hi))|]. intros ? s2 [Hk2 Hd2].
  apply (unlink_fails s2 dp n).
  - replace ({[ip; dp]} ∖ {[ip]}) with ({[dp]} : gset nat) in Hk2 by (clear -Hne; set_solver). eapply kept_ext; [|exact Hk2].
    intros q. unfold drop_ref, add_ref, single. repeat case_decide; lia.
  - done.
  - apply Hd2; [by apply Hd1|]. rewrite decide_False by done. destruct (Hd1 _ _ Hd) as (_ & Hr & _). lia.
Qed.

Section removal.
Context (dp ip : nat) (n m j : Z) (nm : bytes) (Hn : live n) (Hm : live m) (Hnm : n <> m) (Hty : i_type (idisk sb d1 n) = T_DIR).
Context (Hj : 0 <= j < FsDir.count (idisk sb d1 n)) (Hmt : entry_matches d1 (idisk sb d1 n) nm j = true).
Context (Hsub : i_type (idisk sb d1 m) = T_DIR -> 2 <= i_nlink (idisk sb d1 n)).

Definition gone (r : Z) k' : Prop := settled_again k0 k' /\ r = 0 /\ unlinked sb d live n m nm (was_last sb s0 m) (ks_blk k').

(** The entry is cleared and the directory's links are right. *)
Lemma unlink_tail s links d6 i6 : both_locked sb s0 n m dp ip s -> removed sb s0 live n nm links d6 i6 -> dir_entry n dp s i6 ->
  links = i_nlink (idisk sb d1 n) - (if i_type (idisk sb d1 m) =? T_DIR then 1 else 0) -> links <> 0 -> fs_ok sb d6 (size (bitmap sb) + 2) ->
  wp (fs (iunlockput dp) ;;; set_links ip (fun n => n - 1) ;;; fs (iupdate ip) ;;; fs (iunlockput ip) ;;; fs_end_op ;;; ret 0) (put_fs (fput s dp d6 i6) k0) gone.
Proof.
  intros Hb R De Hlinks Hl0 Hfs6. pose proof tree1 as T. destruct table1 as (Kp0 & Hr0 & Hsp & Hin). pose proof (kp_it _ _ _ _ _ Kp0) as Hit0.
  pose proof (bk_kept _ _ _ _ _ _ _ Hb) as Hkp. assert (on_view k0 s) as Hv by by eapply (kept_view k0 s0).
  apply wp_fs; [done|]. eapply wp_mono; [by eapply (dir_put sb s0 live eq_refl T Hin Hr0 Hit0 n m Hn Hm Hnm dp ip nm j Hty Hj Hmt s Hb links d6 i6)|]. intros ? ? ->.
  destruct (target_entry sb s0 eq_refl n m Hnm dp ip s Hb d6 i6) as (E7 & Hlt & _). set (s7 := fput s dp d6 _) in *.
  apply wp_fs; [done|]. rewrite E7. apply modify_fput. apply wp_fs; [done|].
  eapply wp_mono; [by eapply (target_update sb s0 live eq_refl T)|]. intros ? ? (d7 & -> & R7).
  apply wp_fs; [done|]. eapply wp_mono; [by eapply (target_gone sb s0 live eq_refl T Hin Hr0 Hit0 n m Hn Hm Hnm dp ip nm j Hty Hj Hmt s Hb links d6 i6 R De Hlinks)|].
  intros ? s' [Ft Fd Fs Fh Ff]. apply (end_call k0 live d1 s' 0); try done; [pose proof (fw_room _ _ _ Ff); lia|].
  intros k' Hagain Hh' Hho Hvw. split; [done|]. split; [done|]. by eapply (unlinked_commit sb d d1 (f_blk s')).
Qed.

Lemma unlink_clear s : both_locked sb s0 n m dp ip s ->
  wp (let! w := fs (writei dp (KernSrc zero_dirent) (j * DIRENT_SIZE) DIRENT_SIZE) in
      if negb (w =? DIRENT_SIZE) then panic "unlink: writei"
      else
        when (i_type (idisk sb d1 m) =? T_DIR) (set_links dp (fun n => n - 1) ;;; fs (iupdate dp)) ;;;
        fs (iunlockput dp) ;;; set_links ip (fun n => n - 1) ;;; fs (iupdate ip) ;;; fs (iunlockput ip) ;;; fs_end_op ;;; ret 0) (put_fs s k0) gone.
Proof.
  intros Hb. pose proof tree1 as T. pose proof (bk_kept _ _ _ _ _ _ _ Hb) as Hkp. assert (on_view k0 s) as Hv by by eapply (kept_view k0 s0).
  apply wp_fs; [done|]. eapply wp_mono; [apply (clear_step sb s0 live eq_refl T n m Hn dp ip nm j Hty Hj Hmt s (size (bitmap sb) + 3) Hb)|].
  { eapply fs_ok_ro; [apply (kp_blk _ _ _ _ _ Hkp)|]. eapply fs_ok_le; [|exact room1]. lia. }
  intros r ? (-> & d6 & i6 & -> & W & Hfs6). rewrite Z.eqb_refl. cbn [negb].
  pose proof (clear_removed sb s0 live T n m Hn dp ip nm j Hty Hj Hmt s d6 i6 Hb W) as R. change (f_blk s0) with d1 in R.
  pose proof (clear_entry sb s0 n m dp ip j s Hb d6 i6 W) as De. pose proof (ft_links _ _ _ T n Hn) as Hl. pose proof (ft_inum _ _ _ T n Hn) as Hno.
  apply wp_bind. destruct (Z.eqb_spec (i_type (idisk sb d1 m)) T_DIR) as [Htm|Htm]; cbn [when].
  2: { apply wp_ret, (unlink_tail s (i_nlink (idisk sb d1 n))); try done; [by rewrite (proj2 (Z.eqb_neq _ _) Htm), Z.sub_0_r|lia|]. eapply fs_ok_le; [|exact Hfs6]. lia. }
  pose proof (removed_good sb s0 live T n nm _ d6 i6 R n Hno) as HB. specialize (Hsub Htm).
  apply wp_fs; [done|]. apply modify_fput. set (i7 := set_inlink (i16 (i_nlink i6 - 1)) i6). assert (i_inum i7 = n) as Hi7 by apply De.
  assert (file_ok sb d6 i7) as Hf7 by (destruct (rm_file _ _ _ _ _ _ _ _ R); by split). destruct (kp_rest _ _ _ _ _ Hkp) as (Esb & _).
  assert ((dp < length (f_itable s))%nat) as Hlt by (apply (kept_len _ _ _ _ _ _ Hkp); apply (bk_dp _ _ _ _ _ _ _ Hb)).
  pose proof (iupdate_fput sb s dp Esb Hlt d6 i7 _ Hfs6 Hf7) as Hup. rewrite Hi7 in Hup. apply wp_zoom. rewrite view_put by done.
  eapply wp_mono; [apply (Hup (proj1 Hno) HB)|]. intros ? ? (d7 & -> & P).
  pose proof (parent_links sb s0 live T n Hn nm _ d6 i6 d7 R Hl P) as R7. apply (unlink_tail s (i_nlink (idisk sb d1 n) - 1)); try done.
  - destruct De. by split.
  - by rewrite (proj2 (Z.eqb_eq _ _) Htm).
  - lia.
  - eapply (upd_fs sb d6 d7); [|exact HB|exact P]. eapply fs_ok_le; [|exact Hfs6]. lia.
Qed.

(** Both inodes are locked. *)
Lemma unlink_found s : both_locked sb s0 n m dp ip s ->
  wp (let! i := fs (gets (inode_at ip)) in
      if i_nlink i <? 1 then panic "unlink: nlink < 1"
      else
        let! busy := if i_type i =? T_DIR then let! e := isdirempty ip in ret (negb e) else ret false in
        if busy : bool then fs (iunlockput ip) ;;; unlink_bad dp
        else
          let! w := fs (writei dp (KernSrc (replicate (Z.to_nat DIRENT_SIZE) 0)) (j * DIRENT_SIZE) DIRENT_SIZE) in
          if negb (w =? DIRENT_SIZE) then panic "unlink: writei"
          else
            when (i_type i =? T_DIR) (set_links dp (fun n => n - 1) ;;; fs (iupdate dp)) ;;;
            fs (iunlockput dp) ;;; set_links ip (fun n => n - 1) ;;; fs (iupdate ip) ;;; fs (iunlockput ip) ;;; fs_end_op ;;; ret 0) (put_fs s k0)
    (fun r k' => if removable sb d1 m then gone r k' else settled_again k0 k' /\ r = -1 /\ same_disk k').
Proof.
  intros Hb. pose proof tree1 as T. pose proof Hb as [Hk Hd Hi _ Hsf Hval]. change (f_blk s0) with d1 in Hsf. assert (on_view k0 s) as Hv by by eapply (kept_view k0 s0).
  apply wp_fs; [done|]. apply wp_gets. assert (i_nlink (inode_at ip s) = i_nlink (idisk sb d1 m)) as -> by apply Hsf. pose proof (ft_links _ _ _ T m Hm).
  replace (i_nlink (idisk sb d1 m) <? 1) with false by lia. assert (i_type (inode_at ip s) = i_type (idisk sb d1 m)) as -> by apply Hsf.
  change (replicate (Z.to_nat DIRENT_SIZE) 0) with zero_dirent. unfold removable. pose proof (unlink_clear) as Hclear. apply wp_bind.
  destruct (Z.eqb_spec (i_type (idisk sb d1 m)) T_DIR) as [Htm|Htm]; cbn [negb orb].
  - apply wp_bind. eapply wp_mono; [apply (isdirempty_wp s _ _ ip m Hk Hm Hi Hsf Htm)|]. intros r ? (-> & d' & Hro & ->). apply wp_ret.
    assert (both_locked sb s0 n m dp ip (set_blk d' s)) as Hb' by (destruct Hb; split; try done; by apply kept_blk).
    destruct (dir_empty d1 (idisk sb d1 m)); cbn [negb]; [eapply wp_mono; [by apply Hclear|done]|eapply wp_mono; [exact (unlink_busy _ dp ip n m Hn Hm Hnm Hb')|done]].
  - apply wp_ret. eapply wp_mono; [by apply Hclear|done].
Qed.
End removal.
(** ** The handler *)

Definition unlink_post (r : Z) k' : Prop :=
  settled_again k0 k' /\
  match unlink_target sb d start path with
  | None => r = -1 /\ same_disk k'
  | Some (n, x, m) => r = 0 /\ unlinked sb d live n m x (was_last sb (fs_view k0) m) (ks_blk k')
  end.

Lemma was_last_view m : was_last sb s0 m = was_last sb (fs_view k0) m.
Proof. unfold was_last. change (f_blk s0) with d1. by rewrite (alike_idisk sb d d1) by apply Ha. Qed.

Lemma unlink_in_dir s dp n x nm :
  target sb d true start (path_elems path) = Some n -> last (path_elems path) = Some x -> same_name nm x = true -> live n -> i_type (idisk sb d n) = T_DIR ->
  kept sb s0 s (single dp) ∅ -> on_disk s dp n ->
  wp (fs (ilock (Some dp)) ;;;
      if (namecmp nm DOT =? 0) || (namecmp nm DOTDOT =? 0) then unlink_bad dp
      else
        let! r := fs (dirlookup dp nm) in
        match r with
        | None => unlink_bad dp
        | Some (ip, off) =>
            fs (ilock (Some ip)) ;;;
            let! i := fs (gets (inode_at ip)) in
            if i_nlink i <? 1 then panic "unlink: nlink < 1"
            else
              let! busy := if i_type i =? T_DIR then let! e := isdirempty ip in ret (negb e) else ret false in
              if busy : bool then fs (iunlockput ip) ;;; unlink_bad dp
              else
                let! w := fs (writei dp (KernSrc (replicate (Z.to_nat DIRENT_SIZE) 0)) off DIRENT_SIZE) in
                if negb (w =? DIRENT_SIZE) then panic "unlink: writei"
                else
                  when (i_type i =? T_DIR) (set_links dp (fun n => n - 1) ;;; fs (iupdate dp)) ;;;
                  fs (iunlockput dp) ;;;
                  set_links ip (fun n => n - 1) ;;;
                  fs (iupdate ip) ;;;
                  fs (iunlockput ip) ;;;
                  fs_end_op ;;;
                  ret 0
        end) (put_fs s k0) unlink_post.
Proof.
  intros Htg Hlast Hnm Hn Hty Hk Hd. pose proof tree1 as T. pose proof (ft_tree _ _ _ T) as Tt. destruct table1 as (Kp0 & Hr0 & Hsp & Hin).
  pose proof (al_view _ _ Ha) as Hv1. assert (i_type (idisk sb d1 n) = T_DIR) as Hty1 by by rewrite (alike_idisk sb d d1).
  assert (unlink_target sb d start path = if dots x then None else match dir_find d (idisk sb d n) x with Some m => if removable sb d m then Some (n, x, m) else None | None => None end) as Eu
    by (unfold unlink_target; by rewrite Htg, Hlast).
  apply wp_fs; [by eapply (kept_view k0 s0)|]. eapply wp_mono; [apply (ilock_kept sb s0 live s _ _ dp n Hk (not_elem_of_empty dp) Tt eq_refl Hn Hd)|].
  intros ? s1 (Hk1 & Hd1 & Hs1 & Hv1' & _). rewrite union_empty_r_L in Hk1.
  change ((namecmp nm DOT =? 0) || (namecmp nm DOTDOT =? 0)) with (dots nm). replace (dots nm) with (dots x) by (unfold dots; by rewrite !(same_name_eq nm x)).
  destruct (dots x) eqn:Edot.
  { eapply wp_mono; [by eapply unlink_fails|]. intros r k' (A1 & A2). split; [done|]. by rewrite Eu. }
  apply wp_fs; [by eapply (kept_view k0 s0)|].
  eapply wp_mono; [apply (dirlookup_kept sb s0 live Tt Hr0 Hsp s1 dp n nm Hk1 Hn Hd1 Hs1 Hty1)|]. change (f_blk s0) with d1.
  rewrite (find_name d1 _ nm x), (alike_idisk sb d d1), (alike_find d d1) by done. intros r s2 Hr.
  destruct (dir_find d (idisk sb d n) x) as [m|] eqn:Ef.
  2: { destruct Hr as (-> & Hk2 & Hd2). eapply wp_mono; [by eapply unlink_fails|]. intros r k' (A1 & A2). split; [done|]. by rewrite Eu. }
  destruct Hr as (ip & j & -> & Hk2 & Hd2 & Hm2 & Hj & Hmt & Hoth). assert (dir_find d1 (idisk sb d1 n) x = Some m) as Ef1 by by rewrite (alike_idisk sb d d1), (alike_find d d1).
  assert (live m) as Hm by by eapply (tk_closed _ _ _ Tt n x m Hn Hty1). pose proof (ft_subdir _ _ _ T n x m Hn Hty1 Ef1 Edot) as Hsub.
  assert (n <> m) as Hnm' by (intros <-; by destruct (Hsub Hty1)). assert (ip <> dp) as Hne by (intros ->; destruct Hd2 as (_ & _ & E1), Hm2 as (_ & _ & E2); congruence).
  apply wp_fs; [by eapply (kept_view k0 s0)|]. eapply wp_mono; [apply (ilock_kept sb s0 live s2 _ _ ip m Hk2 (not_elem_of_singleton_2 _ _ Hne) Tt eq_refl Hm Hm2)|].
  intros ? s3 (Hk3 & Hm3 & Hs3 & Hv3 & Hoth3). eapply wp_mono; [apply (unlink_found dp ip n m j nm); try done|].
  - by rewrite (alike_idisk sb d d1).
  - rewrite (alike_idisk sb d d1) by done. unfold entry_matches in *. by rewrite (alike_dirent d d1) in Hmt |- *.
  - intros Htm. by destruct (Hsub Htm).
  - assert (inode_at dp s3 = inode_at dp s1) as Edp by (rewrite Hoth3, Hoth; done). split; try done.
    + destruct Hd2 as (A1 & A2 & A3). unfold on_disk. by rewrite Hoth3.
    + by rewrite Edp.
    + split; [by rewrite Edp|done].
  - intros r k'. rewrite (removable_alike sb d d1) by done.
    destruct (removable sb d m) eqn:Erm; (intros (A1 & A2 & A3) || intros (A1 & A2)); (split; [done|]); rewrite Eu; [|done]. split; [done|]. rewrite <- was_last_view. by eapply unlinked_name.
Qed.
End call.

(** ** The argument *)

Lemma walk_reads pt va (v : vst) : wlp (Vm.walk pt va false) v (fun _ v' => v' = v).
Proof.
  unfold Vm.walk, walk_level, read_pte. destruct (MAXVA <=? va); [apply wlp_panic|]. wlp_steps. destruct (has _ PTE_V); cbn [negb]; wlp_steps; [|done]. destruct (has _ PTE_V); cbn [negb]; by wlp_steps.
Qed.
Lemma walkaddr_ro pt va (v : vst) : wlp (walkaddr pt va) v (fun _ v' => v' = v).
Proof.
  unfold walkaddr, read_pte. destruct (MAXVA <=? va); [by wlp_steps|]. apply wlp_bind. eapply wlp_mono; [apply walk_reads|]. intros [a|] ? ->; [|by wlp_steps].
  wlp_steps. destruct (negb _); [by wlp_steps|]. destruct (negb _); by wlp_steps.
Qed.
Lemma copyinstr_ro pt va max (v : vst) : wlp (copyinstr pt va max) v (fun _ v' => v' = v).
Proof.
  unfold copyinstr. generalize (page_fuel max), (@nil Z). intros fuel. revert va max. induction fuel as [|fuel IH]; intros va max acc; cbn [copyinstr_loop];
    (destruct (max <=? 0); [by wlp_steps|]); [by wlp_steps|]. apply wlp_bind. eapply wlp_mono; [apply walkaddr_ro|]. intros pa ? ->. destruct (pa =? 0); [by wlp_steps|].
  wlp_steps. destruct (take_str _) as [l []]; [by wlp_steps|apply IH].
Qed.
Lemma cstring_nonzero l : 0 ∉ cstring l.
Proof. induction l as [|b l IH]; cbn [cstring]; [set_solver|]. destruct (Z.eqb_spec b 0); set_solver. Qed.

(** [argstr] reads memory only, and the string it returns ends before a NUL. *)
Lemma argstr_ro n max k : wlp (argstr n max) k (fun r k' => k' = k /\ forall path, r = Some path -> 0 ∉ path).
Proof.
  unfold argstr, argaddr, argraw, fetchstr. apply wlp_bind. destruct (_ && _); [|apply wlp_panic]. wlp_steps.
  intros a k' t. unfold vm, zoom. pose proof (copyinstr_ro (p_pagetable (me k)) (tf_get (me k) (TF_a0 + 8 * n) k) max (user_view k)) as Hro. unfold wlp in Hro.
  unfold bind. destruct (copyinstr _ _ _ _) as [r v tr| |] eqn:E; [|done|done]. rewrite (Hro _ _ _ eq_refl). change (v_k (user_view k)) with (ks_k k).
  assert (set_kmem (ks_k k) k = k) as -> by by destruct k. intros [= <- <- _].
  destruct (r.1 <? 0); apply wlp_ret; (split; [done|]); [done|]. intros ? [= <-]. apply cstring_nonzero.
Qed.

(** Argument j of the call is this path, or an address that cannot be read. *)
Definition called_with k (j : Z) (arg : option bytes) : Prop := wp (argstr j MAXPATH) k (fun r _ => r = arg).

Lemma called_wp k j arg (Q : option bytes -> kern -> Prop) : called_with k j arg -> ((forall path, arg = Some path -> 0 ∉ path) -> Q arg k) -> wp (argstr j MAXPATH) k Q.
Proof.
  unfold called_with, wp, wpt. intros Hc HQ. pose proof (argstr_ro j MAXPATH k) as Hro. unfold wlp in Hro. destruct (argstr j MAXPATH k) as [a s' t| |] eqn:E; [|done|done].
  destruct (Hro _ _ _ eq_refl) as [-> Hz]. subst a. by apply HQ.
Qed.

(** C11.  The whole system call [unlink], on a kernel between calls whose disk
    is a tree of directories.  A path that cannot be read gives -1 and changes
    nothing.  Otherwise let n be the directory the path without its last name
    leads to, x the last name and m the inode x stands for in n.  When there is
    no such n or m, x is "." or "..", or m is a directory with an entry besides
    these, the call returns -1 and no block of the disk has changed.  In every
    other case it returns 0: x is no longer in n and every other name of n means
    what it did, m has one link less (and n, if m is a directory, for its ".."),
    and when this was the last link and nobody has m open, m's inode and exactly
    m's blocks are free.  All other inodes and files are as they were.  In each
    case nothing else of the kernel changed, the transaction is closed, no lock
    is held and every reference to an inode is back. *)
Theorem unlink_correct k live : settled k live ->
  (called_with k 0 None -> wp sys_unlink k (fun r k' => r = -1 /\ k' = k)) /\
  (forall path, let start := start_of (fs_view k) path in called_with k 0 (Some path) ->
     (head path = Some SLASH \/ on_disk (fs_view k) (f_cwd (fs_view k)) start /\ live start) ->
     wp sys_unlink k (unlink_post k live path)).
Proof.
  intros Hset. split; [intros Harg; unfold sys_unlink; apply wp_bind; eapply called_wp; [exact Harg|]; intros _; by apply wp_ret|].
  intros path start Harg Hst. unfold sys_unlink. apply wp_bind. eapply called_wp; [exact Harg|]. intros Hz. specialize (Hz path eq_refl).
  set (d := ks_blk k). set (sb := ks_sb k).
  destruct (se_log _ _ Hset) as (Hwf & Hidle & Hheld & Htxn). rewrite <- (put_view k) at 1. apply wp_fs; [done|].
  eapply wp_blk; [by apply (bl_begin_op_law (ks_blk k))|]. intros [] d1 (W1 & H1 & O1 & V1 & E1 & T1). set (s0 := set_blk d1 (fs_view k)).
  assert (alike d d1) as Ha by (split; [done|done|done|done|by rewrite T1]). pose proof (tree1 k live Hset d1 Ha) as T.
  destruct (table1 k live Hset d1 Ha) as (Kp0 & Hr0 & Hsp & Hin). fold s0 in Kp0, Hr0, Hsp, Hin. assert (on_view k s0) as Hv by done.
  assert (live start) as Hlive.
  { destruct Hst as [Hsl|[_ Hl]]; [|done]. unfold start, start_of. destruct path as [|c l]; [done|]. injection Hsl as ->. apply (tk_root _ _ _ (ft_tree _ _ _ T)). }
  apply wp_fs; [done|]. unfold nameiparent. eapply wp_mono; [apply (namex_wp sb s0 live eq_refl (ft_tree _ _ _ T) Hr0 Hsp path true name0 Kp0 Hst eq_refl Hz)|].
  change (start_of s0 path) with start. intros [[dp|] nm] s1 [Hout Hlast]; cbn [fst snd] in Hout, Hlast; change (f_blk s0) with d1 in Hout; rewrite (alike_target sb d d1) in Hout by done.
  - destruct (target sb d true start (path_elems path)) as [n|] eqn:Et; [|by destruct Hout]. destruct Hout as (? & [= <-] & Hk & Hd).
    destruct (Hlast eq_refl ltac:(done)) as (x & Hx & Hnm). destruct (parent_live sb d live start _ n (ft_tree _ _ _ (se_tree _ _ Hset)) Hlive Et) as [Hn Hty].
    by apply (unlink_in_dir k live path Hset d1 Ha O1 s1 dp n x nm).
  - destruct (target sb d true start (path_elems path)) as [n|] eqn:Et; [by destruct Hout as (? & ? & _)|]. destruct Hout as [_ Hk].
    eapply wp_mono; [by apply (end_unchanged k live path Hset d1 Ha O1)|]. intros r k' (A1 & A2). split; [done|]. unfold unlink_target. unfold d, sb, start in Et. by rewrite Et.
Qed.
End unlink.
