(* ===== verification/SysLink.v ===== *)
(** * [sys_link] from the call to the end of its transaction

    The handler on the whole kernel state: the file gets a link, the new name is
    looked for and entered, and when that fails the link is taken back.
    [name_added] and [link_undone] ([FsLink]) say what it leaves on disk. *)
From S2P Require Import Prelude Params Sleeplock Bio BioInv Log LogInv LogCrash LogTxn CString Interfaces BlockInst Fs FsBlocks FsInode FsData FsWrite FsProps FsWriteProps FsTrunc FsDir FsPath FsUnlink FsTree FsLink FsDirProps Kalloc Vm Pipe Console Kernel File Proc Exec Sysfile SysUnlink.

Section link.
Context `{Machine}.
Implicit Types (k : kern) (s : @fstate lst vst).

(** ** What the call is to add *)

(** The file, the directory and the name in it. *)
Definition link_target sb (d : lst) (from_old : Z) (old : bytes) (from_new : Z) (new : bytes) : option (Z * Z * bytes) :=
  match FsPath.walk sb d from_old (path_elems old) with
  | Some m =>
      if i_type (idisk sb d m) =? T_DIR then None
      else
        match target sb d true from_new (path_elems new), last (path_elems new) with
        | Some n, Some x => match dir_find d (idisk sb d n) x with Some _ => None | None => Some (m, n, x) end
        | _, _ => None
        end
  | None => None
  end.

(** What [link] needs besides a settled kernel: a third free entry of the inode
    table, inode numbers that an entry can hold, and directories and link
    counts that can grow. *)
Record growable k (live : Z -> Prop) : Prop := {
  gw_spare : exists k1 k2 k3 : nat, in_table k1 /\ in_table k2 /\ in_table k3 /\ k1 <> k2 /\ k1 <> k3 /\ k2 <> k3 /\
    i_ref (inode_at k1 (fs_view k)) = 0 /\ i_ref (inode_at k2 (fs_view k)) = 0 /\ i_ref (inode_at k3 (fs_view k)) = 0;
  gw_inum : forall n, live n -> 0 < n;
  gw_size : forall n, live n -> i_type (idisk (ks_sb k) (ks_blk k) n) = T_DIR -> i_size (idisk (ks_sb k) (ks_blk k) n) + DIRENT_SIZE <= MAXFILE * BSIZE;
  gw_links : forall n, live n -> i_nlink (idisk (ks_sb k) (ks_blk k) n) < 2^15 - 1 }.

Section call.
Context (k0 : kern) (live : Z -> Prop).
Let sb := ks_sb k0.
Let d := ks_blk k0.
Context (Hset : settled k0 live) (Hgrow : growable k0 live) (d1 : lst) (Ha : alike d d1) (Ho : bl_open d1).
Let s0 := set_blk d1 (fs_view k0).

Lemma quiet0 : quiet sb live ∅ s0.
Proof. destruct (table1 k0 live Hset d1 Ha) as (Kp0 & Hr0 & Hsp & Hin). split; [done|exact (tree1 k0 live Hset d1 Ha)|done|done|done]. Qed.

Lemma view_follows s1 s2 e : on_view k0 s1 -> follows s1 s2 e -> on_view k0 s2.
Proof. intros (Eu & Ec & Ep) Hf. destruct (fo_rest _ _ _ Hf) as (_ & E1 & E2 & E3). repeat split; congruence. Qed.

(** ** The end of the transaction *)

Lemma link_end s (r : Z) c : quiet sb live ∅ s -> follows s0 s none -> fs_ok sb (f_blk s) c ->
  wp (fs_end_op ;;; ret r) (put_fs s k0) (fun r' k' => r' = r /\ settled_again k0 k' /\ settled k' live /\ unmoved sb (f_blk s) live (ks_blk k')).
Proof.
  intros Hq Hf Hfs. pose proof (fw_room _ _ _ Hfs) as Hroom. pose proof Hf as [Fr Fs Fh Fref Fid]. change (f_blk s0) with d1 in Fs, Fh.
  assert (restored sb s0 s) as Hres. { split; [done| |done|apply Hq]. intros q Hq'. rewrite Fref by done. unfold none. lia. }
  apply (end_call k0 live d1 s r); try done; [lia|]. intros k' Hagain Hh Hho Hv. split; [done|]. split; [done|].
  split; [|by apply commit_unmoved; [apply Hq|]]. pose proof Hagain as [(s' & -> & Hview & Esb) Alog Atab Aref Aid]. split.
  - exact Alog.
  - change (ks_sb (put_fs s' k0)) with (f_sb s'). rewrite Esb. destruct Alog as (W & _ & H0 & T0). eapply commit_tree; [apply Hq|done| |done|intros b; apply Hho|done].
    rewrite H0, T0, size_empty, map_size_empty. unfold NBUF. lia.
  - done.
  - change (ks_sb (put_fs s' k0)) with (f_sb s'). rewrite Esb. intros q Hq' Hpos. rewrite Aref in Hpos by done. rewrite Aid by done. by apply (se_inums _ _ Hset).
  - change (ks_sb (put_fs s' k0)) with (f_sb s'). rewrite Esb. apply Hset.
Qed.

(** ** One link more or less *)

Lemma iunlock_fput s ip d' i : (ip < length (f_itable s))%nat -> 1 <= i_ref i -> i_lock i = mkSleeplock true (f_pid s) ->
  wp (iunlock (Some ip)) (fput s ip d' i) (fun _ s' => s' = fput s ip d' (set_ilock (mkSleeplock false 0) i)).
Proof.
  intros Hip Hr Hl. pose proof (inode_at_fput s ip Hip d' i) as Hat. eapply wp_mono; [apply iunlock_wp; rewrite ?Hat; [by rewrite length_fput|done|rewrite Hl; unfold holdingsleep; cbn; by rewrite Z.eqb_refl]|].
  intros ? ? ->. by apply alter_fput.
Qed.

Lemma relink_steps s ip m f c (K : M kern Z) Q : let L := f (i_nlink (idisk sb (f_blk s) m)) in
  quiet sb live {[ip]} s -> on_view k0 s -> live m -> on_disk s ip m -> i_valid (inode_at ip s) = true -> i_type (idisk sb (f_blk s) m) <> T_DIR ->
  1 <= L < 2^15 -> fs_ok sb (f_blk s) (c + 1) ->
  (forall d' i1, let s1 := fput s ip d' (set_ilock (mkSleeplock false 0) i1) in (ip < length (f_itable s))%nat -> 1 <= i_ref i1 -> i_lock i1 = mkSleeplock true (f_pid s) -> on_disk s1 ip m ->
     quiet sb live ∅ s1 -> follows s s1 none -> relinked sb (f_blk s) live m L d' -> fs_ok sb d' c -> wp K (put_fs (fput s ip d' i1) k0) Q) ->
  wp (set_links ip f ;;; fs (iupdate ip) ;;; K) (put_fs s k0) Q.
Proof.
  intros L Hq Hv Hm Hd Hval Hty HL Hfs HK. pose proof Hd as (Hin & Hr & Hi). pose proof (proj1 (kept_len _ _ _ _ _ ip (qt_kept _ _ _ _ Hq)) Hin) as Hlt.
  pose proof (kp_disk _ _ _ _ _ (qt_kept _ _ _ _ Hq) ip Hin ltac:(lia) Hval) as Hs. rewrite Hi in Hs. pose proof (qt_tree _ _ _ _ Hq) as T. pose proof (ft_inum _ _ _ T m Hm) as Hmo.
  apply wp_fs; [done|]. rewrite <- (fput_self s ip) at 1 by done. apply modify_fput. assert (i_nlink (inode_at ip s) = i_nlink (idisk sb (f_blk s) m)) as -> by apply Hs. fold L.
  rewrite i16_id by lia. set (i1 := set_inlink L (inode_at ip s)). apply wp_fs; [done|].
  assert (file_ok sb (f_blk s) i1) as Hf.
  { assert (file_ok sb (f_blk s) (inode_at ip s)) as [F1 F2 F3 F4]; [|by split]. eapply file_same; [exact Hs| |by apply (ft_file _ _ _ T)]. apply (kp_dev _ _ _ _ _ (qt_kept _ _ _ _ Hq) ip Hin). lia. }
  assert (i_inum i1 = m) as Hi1 by exact Hi. pose proof (iupdate_fput sb s ip (qt_sb _ _ _ _ Hq) Hlt (f_blk s) i1 _ Hfs Hf) as Hup. rewrite Hi1 in Hup.
  eapply wp_mono; [apply Hup; [apply Hmo|by apply (ft_iblock _ _ _ T)]|]. intros ? ? (d' & -> & P).
  destruct (relink_state sb live s ip m L d' c Hq Hm Hd Hval Hty HL Hfs P) as (Q1 & F1 & R1 & Fs1). pose proof (kp_lock _ _ _ _ _ (qt_kept _ _ _ _ Hq) ip Hin) as Hlk.
  unfold lock_ok in Hlk. rewrite decide_True in Hlk by set_solver. apply HK; try done. unfold on_disk. rewrite inode_at_fput by done. done.
Qed.
(** ** Steps between quiet states *)

Lemma ro_unmoved s s' e lk : kept sb s s' e lk -> unmoved sb (f_blk s) live (f_blk s').
Proof. intros Hk. apply view_unmoved, (kp_blk _ _ _ _ _ Hk). Qed.

Lemma lock_step s ip m c : quiet sb live ∅ s -> live m -> on_disk s ip m -> fs_ok sb (f_blk s) c ->
  wp (ilock (Some ip)) s (fun _ s' => quiet sb live {[ip]} s' /\ follows s s' none /\ unmoved sb (f_blk s) live (f_blk s') /\ fs_ok sb (f_blk s') c /\
    on_disk s' ip m /\ i_valid (inode_at ip s') = true /\ forall q, q <> ip -> inode_at q s' = inode_at q s).
Proof.
  intros Hq Hm Hd Hfs. pose proof (qt_tree _ _ _ _ Hq) as T.
  eapply wp_mono; [exact (ilock_kept sb s live s none ∅ ip m (qt_kept _ _ _ _ Hq) (not_elem_of_empty ip) (ft_tree _ _ _ T) (qt_sb _ _ _ _ Hq) Hm Hd)|].
  intros ? s' (Hk & Hd' & _ & Hv & Ho'). rewrite union_empty_r_L in Hk. split_and!; [|by eapply kept_follows|by eapply ro_unmoved| |done..].
  - eapply kept_quiet; [done|exact Hk|]. unfold none. lia.
  - eapply fs_ok_ro; [apply (kp_blk _ _ _ _ _ Hk)|done].
Qed.

Lemma put_step s ip m c : quiet sb live ∅ s -> live m -> on_disk s ip m -> fs_ok sb (f_blk s) c ->
  wp (iput ip) s (fun _ s' => quiet sb live ∅ s' /\ follows s s' (drop_ref none ip) /\ unmoved sb (f_blk s) live (f_blk s') /\ fs_ok sb (f_blk s') c /\
    forall q l, q <> ip -> on_disk s q l -> on_disk s' q l).
Proof.
  intros Hq Hm Hd Hfs. eapply wp_mono; [exact (iput_kept sb s live s none ∅ ip m (qt_kept _ _ _ _ Hq) (ft_tree _ _ _ (qt_tree _ _ _ _ Hq)) Hm Hd)|].
  intros ? s' [Hk Hd']. split_and!; [|by eapply kept_follows|by eapply ro_unmoved| |].
  - eapply kept_quiet; [done|exact Hk|]. intros q _. unfold drop_ref, none. case_decide; lia.
  - eapply fs_ok_ro; [apply (kp_blk _ _ _ _ _ Hk)|done].
  - intros q l Hne Hl. apply Hd'; [done|]. rewrite decide_False by done. destruct Hl as (_ & ? & _). lia.
Qed.

(** ** Giving up *)

Lemma single_dropped s s1 s2 ip : follows s s1 (single ip) -> follows s1 s2 (drop_ref none ip) -> follows s s2 none.
Proof.
  intros F1 F2. eapply follows_ext; [|eapply follows_trans; [exact F1|exact F2|]]; intros q; unfold single, drop_ref, none; case_decide; lia.
Qed.
Lemma follows_none s s1 s2 e : (forall q, 0 <= e q) -> follows s s1 e -> follows s1 s2 none -> follows s s2 e.
Proof. intros He F1 F2. eapply follows_ext; [|eapply follows_trans; [exact F1|exact F2|done]]. intros q. unfold none. lia. Qed.
Lemma single_pos ip q : 0 <= single ip q.
Proof. unfold single. case_decide; lia. Qed.

Lemma link_bad_wp s ip m c : let L := i_nlink (idisk sb (f_blk s) m) - 1 in
  quiet sb live ∅ s -> follows s0 s (single ip) -> live m -> on_disk s ip m -> i_type (idisk sb (f_blk s) m) <> T_DIR -> 1 <= L < 2^15 -> fs_ok sb (f_blk s) (c + 1) ->
  wp (link_bad ip) (put_fs s k0) (fun r k' => r = -1 /\ settled_again k0 k' /\ settled k' live /\ relinked sb (f_blk s) live m L (ks_blk k')).
Proof.
  intros L Hq Hf Hm Hd Hty HL Hfs. pose proof (qt_tree _ _ _ _ Hq) as T. assert (on_view k0 s) as Hv by by eapply (view_follows s0).
  unfold link_bad. apply wp_fs; [done|]. eapply wp_mono; [by eapply lock_step|]. intros ? s1 (Q1 & F1 & U1 & Fs1 & D1 & V1 & _).
  assert (idisk sb (f_blk s1) m = idisk sb (f_blk s) m) as E1 by by apply U1, (ft_inum _ _ _ T).
  assert (follows s0 s1 (single ip)) as F01 by (eapply follows_none; [apply single_pos|done|done]). assert (on_view k0 s1) as Hv1 by by eapply (view_follows s0).
  eapply (relink_steps s1 ip m (fun n => n - 1) c); rewrite ?E1; try done. intros d' i1 s2 Hip Hr Hlk D2 Q2 F2 R2 Fs2. fold L in R2. subst s2.
  apply wp_fs; [done|]. unfold iunlockput. apply wp_bind. eapply wp_mono; [by apply iunlock_fput|]. intros ? ? ->. set (s2 := fput s1 ip d' _) in *.
  eapply wp_mono; [by eapply (put_step s2 ip m c)|]. intros ? s3 (Q3 & F3 & U3 & Fs3 & _).
  assert (follows s0 s3 none) as F03. { eapply single_dropped; [|exact F3]. eapply follows_none; [apply single_pos|exact F01|done]. }
  eapply wp_mono; [by eapply link_end|]. intros r k' (-> & A1 & A2 & A3). split; [done|]. split; [done|]. split; [done|].
  eapply unmoved_relinked; [exact T|done|exact U1|]. eapply relinked_unmoved; [apply Q1|done|exact R2|]. eapply unmoved_trans; [apply Q2|exact U3|exact A3].
Qed.
(** ** The new name *)

Lemma follows_disk s s' e q l : follows s s' e -> 0 <= e q -> on_disk s q l -> on_disk s' q l.
Proof. intros Hf He (Hin & Hr & Hi). split; [done|]. rewrite (fo_ref _ _ _ Hf), (fo_id _ _ _ Hf) by (done || lia). split; [lia|done]. Qed.

Lemma two_spare s ip : follows s0 s (single ip) ->
  exists k1 k2 : nat, in_table k1 /\ in_table k2 /\ k1 <> k2 /\ i_ref (inode_at k1 s) = 0 /\ i_ref (inode_at k2 s) = 0.
Proof.
  intros Hf. destruct (gw_spare _ _ Hgrow) as (k1 & k2 & k3 & I1 & I2 & I3 & N12 & N13 & N23 & R1 & R2 & R3).
  assert (forall q, in_table q -> q <> ip -> i_ref (inode_at q (fs_view k0)) = 0 -> i_ref (inode_at q s) = 0) as Hz.
  { intros q Hq Hne E. rewrite (fo_ref _ _ _ Hf) by done. unfold single. rewrite decide_False by done. change (inode_at q s0) with (inode_at q (fs_view k0)). lia. }
  destruct (decide (k1 = ip)) as [->|]; [exists k2, k3|destruct (decide (k2 = ip)) as [->|]; [exists k1, k3|exists k1, k2]]; auto 10.
Qed.

Lemma name_added_name {D} `{BlockLaws D} sb' (e : D) l n m a b e' : same_name a b = true -> name_added sb' e l n m a e' -> name_added sb' e l n m b e'.
Proof.
  intros Hab [U1 U2 U3 U4 U5 U6 U7]. split; try done.
  - by rewrite (find_name e' _ b a) by by rewrite same_name_sym.
  - intros c Hc. apply U2. by rewrite same_name_sym, (same_name_eq a b), same_name_sym.
Qed.

Section second.
Context (m : Z) (ip : nat) (s : @fstate lst vst).
Context (Hm : live m) (Hmt : i_type (idisk sb d m) <> T_DIR) (Hq : quiet sb live ∅ s) (Hf : follows s0 s (single ip)) (Hd : on_disk s ip m).
Context (R : relinked sb d live m (i_nlink (idisk sb d m) + 1) (f_blk s)) (Hfs : fs_ok sb (f_blk s) (size (bitmap sb) + 10)).

(** The links after the count up. *)
Lemma counted : i_nlink (idisk sb (f_blk s) m) = i_nlink (idisk sb d m) + 1 /\ i_type (idisk sb (f_blk s) m) <> T_DIR.
Proof. destruct (rl_self _ _ _ _ _ _ R) as (A1 & _ & _ & A2 & _). split; [exact A2|]. by rewrite A1. Qed.

(** The entry could not be made: the link is taken back. *)
Lemma link_back s' c : quiet sb live ∅ s' -> follows s s' none -> idisk sb (f_blk s') m = idisk sb (f_blk s) m -> fs_ok sb (f_blk s') (c + 1) ->
  wp (link_bad ip) (put_fs s' k0) (fun r k' => r = -1 /\ settled_again k0 k' /\ settled k' live /\ relinked sb (f_blk s') live m (i_nlink (idisk sb (f_blk s') m) - 1) (ks_blk k')).
Proof.
  intros Hq' Hf' Em Hfs'. destruct counted as [El Et]. pose proof (ft_links _ _ _ (se_tree _ _ Hset) m Hm) as Hl. pose proof (gw_links _ _ Hgrow m Hm) as Hl'. fold sb d in Hl, Hl'.
  apply (link_bad_wp s' ip m c); try done; [|by eapply follows_disk|by rewrite Em|rewrite Em, El; lia]. eapply follows_none; [apply single_pos|done|done].
Qed.

Lemma no_entry s' : kept sb s s' none ∅ ->
  wp (link_bad ip) (put_fs s' k0) (fun r k' => r = -1 /\ settled_again k0 k' /\ settled k' live /\ link_undone sb d live None (ks_blk k')).
Proof.
  intros Hk. pose proof (ro_unmoved _ _ _ _ Hk) as U. pose proof (ft_inum _ _ _ (se_tree _ _ Hset) m Hm) as Hmo. assert (idisk sb (f_blk s') m = idisk sb (f_blk s) m) as Em by by apply U.
  assert (quiet sb live ∅ s') as Hq' by (eapply kept_quiet; [exact Hq|exact Hk|unfold none; lia]).
  eapply wp_mono; [eapply (link_back s' (size (bitmap sb) + 9)); [done|by eapply kept_follows|done|]|].
  - eapply fs_ok_ro; [apply (kp_blk _ _ _ _ _ Hk)|]. eapply fs_ok_le; [|exact Hfs]. lia.
  - intros r k' (-> & A1 & A2 & A3). split; [done|]. split; [done|]. split; [done|]. eapply (link_not_added sb d (f_blk s')); [apply (se_tree _ _ Hset)| |apply Hq'|reflexivity|exact A3].
    eapply relinked_unmoved; [apply (se_tree _ _ Hset)|done|exact R|done].
Qed.
(** The directory for the new entry is found and locked. *)
Context (n : Z) (dp : nat) (nm : bytes) (Hn : live n) (Hty : i_type (idisk sb d n) = T_DIR) (Hbytes : Forall is_byte nm).

Lemma apart : n <> m /\ idisk sb (f_blk s) n = idisk sb d n.
Proof. assert (n <> m) as Hne by (intros ->; done). split; [done|]. by apply R; [apply (ft_inum _ _ _ (se_tree _ _ Hset))|]. Qed.

(** The name is taken. *)
Lemma name_taken s1 x : kept sb s s1 (single dp) {[dp]} -> on_disk s1 dp n -> same_dinode (inode_at dp s1) (idisk sb (f_blk s) n) ->
  dir_find (f_blk s) (idisk sb (f_blk s) n) nm = Some x ->
  wp (dirlink dp nm m) s1 (fun r s2 => r = -1 /\ kept sb s s2 (single dp) {[dp]} /\ on_disk s2 dp n).
Proof.
  intros Hk Hd1 Hs1 Hx. pose proof (qt_tree _ _ _ _ Hq) as T. pose proof (ft_tree _ _ _ T) as Tt. destruct apart as [_ En]. unfold dirlink. apply wp_bind.
  eapply wp_mono; [apply (dirlookup_kept sb s live Tt (qt_refs _ _ _ _ Hq) (two_spare s ip Hf) s1 dp n nm Hk Hn Hd1 Hs1); by rewrite En|]. rewrite Hx.
  intros r s2 (q & j & -> & Hk2 & Hd2 & Hx2 & _). assert (live x) as Hlx by (eapply (tk_closed _ _ _ Tt n nm x Hn); [by rewrite En|done]).
  apply wp_bind. eapply wp_mono; [apply (iput_kept sb s live s2 _ _ q x Hk2 Tt Hlx Hx2)|]. intros ? s3 [Hk3 Hd3]. apply wp_ret. split; [done|]. split.
  - eapply kept_ext; [|exact Hk3]. intros p. unfold drop_ref, add_ref. case_decide; lia.
  - apply Hd3; [done|]. rewrite (kp_ref _ _ _ _ _ Hk2) by apply Hd2. pose proof (qt_refs _ _ _ _ Hq dp (proj1 Hd2)). unfold add_ref, single. repeat case_decide; (done || lia).
Qed.

Lemma dir_locked s1 : kept sb s s1 (single dp) {[dp]} -> on_disk s1 dp n -> quiet sb live {[dp]} s1.
Proof.
  intros Hk Hd1. eapply kept_quiet; [exact Hq|exact Hk|]. intros q _. unfold single. case_decide as E; [|lia]. subst q. intros _. destruct Hd1 as (_ & _ & ->). by apply (ft_inum _ _ _ (se_tree _ _ Hset)).
Qed.

(** The name is new. *)
Lemma name_free s1 : kept sb s s1 (single dp) {[dp]} -> on_disk s1 dp n -> i_valid (inode_at dp s1) = true -> dir_find (f_blk s1) (inode_at dp s1) nm = None ->
  wp (dirlink dp nm m) s1 (fun r s2 => exists d' i', s2 = fput s1 dp d' i' /\ linked sb (f_blk s1) (inode_at dp s1) nm m r d' i' /\ fs_ok sb d' (size (bitmap sb) + 2)).
Proof.
  intros Hk Hd1 Hv1 Hnone. pose proof (dir_locked s1 Hk Hd1) as Hq1. pose proof (qt_tree _ _ _ _ Hq1) as T. destruct apart as [_ En]. pose proof Hd1 as (Hin & Hr & Hi).
  pose proof (proj1 (kept_len _ _ _ _ _ dp Hk) Hin) as Hlt. pose proof (ft_inum _ _ _ T n Hn) as Hno. pose proof (ft_inum _ _ _ T m Hm) as Hmo. destruct (ft_fit _ _ _ T) as [Hfit _].
  assert (idisk sb (f_blk s1) n = idisk sb d n) as E1 by (rewrite <- En; by apply (ro_unmoved _ _ _ _ Hk)). pose proof (dir_cached sb live s1 dp n Hq1 Hd1 Hv1) as Hs.
  assert (i_type (idisk sb (f_blk s1) n) = T_DIR) as Hty1 by by rewrite E1.
  pose proof (dirlink_wp sb s1 dp (qt_sb _ _ _ _ Hq1) Hlt (f_blk s1) (inode_at dp s1) nm m (size (bitmap sb) + 2)) as W. cbv zeta in W. rewrite fput_self, Hnone, Hi in W by done. apply W; clear W.
  - eapply file_same; [exact Hs|by eapply dir_dev|by apply (ft_file _ _ _ T)].
  - eapply fs_ok_ro; [apply (kp_blk _ _ _ _ _ Hk)|]. eapply fs_ok_le; [|exact Hfs]. lia.
  - by eapply dir_is.
  - apply Hno.
  - by apply (ft_iblock _ _ _ T).
  - intros j Hj. rewrite (slot_same _ _ _ _ Hs). by apply (ft_apart _ _ _ T).
  - assert (i_size (inode_at dp s1) = i_size (idisk sb (f_blk s1) n)) as -> by apply Hs. rewrite E1. by apply (gw_size _ _ Hgrow).
  - done.
  - pose proof (gw_inum _ _ Hgrow m Hm). unfold inum_ok in Hmo. lia.
  - apply (kp_it _ _ _ _ _ (qt_kept _ _ _ _ Hq1)).
  - by eapply (spare_entry sb s (two_spare s ip Hf) s1 dp).
Qed.
Definition link_in (r : Z) k' : Prop :=
  match dir_find d (idisk sb d n) nm with
  | Some _ => r = -1 /\ link_undone sb d live None (ks_blk k')
  | None => r = 0 /\ name_added sb d live n m nm (ks_blk k') \/ r = -1 /\ link_undone sb d live (Some n) (ks_blk k')
  end.
Definition link_done (r : Z) k' : Prop := settled_again k0 k' /\ settled k' live /\ link_in r k'.

(** From the write of the entry on. *)
Lemma link_rest s1 d' i' r : kept sb s s1 (single dp) {[dp]} -> on_disk s1 dp n -> i_valid (inode_at dp s1) = true -> dir_find (f_blk s1) (inode_at dp s1) nm = None ->
  dir_find d (idisk sb d n) nm = None -> linked sb (f_blk s1) (inode_at dp s1) nm m r d' i' -> fs_ok sb d' (size (bitmap sb) + 2) ->
  wp (if r <? 0 then fs (iunlockput dp) ;;; link_bad ip else fs (iunlockput dp) ;;; fs (iput ip) ;;; fs_end_op ;;; ret 0) (put_fs (fput s1 dp d' i') k0) link_done.
Proof.
  intros Hk Hd1 Hv1 Hnone Hnone0 Hl Hfs'. pose proof (dir_locked s1 Hk Hd1) as Hq1. pose proof (ft_inum _ _ _ (se_tree _ _ Hset) m Hm) as Hmo. destruct apart as [Hnm En]. destruct counted as [_ Hmt'].
  pose proof (ro_unmoved _ _ _ _ Hk) as U. assert (idisk sb (f_blk s1) n = idisk sb d n) as E1 by (rewrite <- En; apply U; by apply (ft_inum _ _ _ (se_tree _ _ Hset))).
  assert (i_type (idisk sb (f_blk s1) n) = T_DIR) as Hty1 by by rewrite E1. assert (idisk sb (f_blk s1) m = idisk sb (f_blk s) m) as Em by by apply U.
  assert (0 < m < 2^16) as Hm16 by (pose proof (gw_inum _ _ Hgrow m Hm); destruct (ft_fit _ _ _ (se_tree _ _ Hset)); unfold inum_ok in Hmo; lia).
  destruct (entry_state sb live s1 dp n m r nm d' i' Hq1 Hn Hd1 Hv1 Hty1 Hm ltac:(by rewrite Em) Hm16 Hnone Hl _ Hfs') as [Q2 F2].
  pose proof (entry_entered sb live s1 dp n m r nm d' i' Hq1 Hn Hd1 Hv1 Hty1 Hm16 Hnone Hl) as En2.
  destruct (entry_rewritten sb live s1 dp n m r nm d' i' Hq1 Hn Hd1 Hv1 Hty1 Hm16 Hnone Hl) as (_ & _ & addrs & sz & Ei). set (s2 := fput s1 dp d' _) in Q2, F2.
  assert (follows s s2 none) as Fs2 by (eapply single_dropped; [by eapply kept_follows|exact F2]).
  assert (entered sb (f_blk s) live n nm m r d') as Es by (eapply unmoved_entered; [apply Hq|done|by rewrite En|exact U|done]).
  assert (idisk sb d' m = idisk sb (f_blk s) m) as Em2 by by apply Es. assert (on_view k0 s2) as Hv2 by (eapply (view_follows s0); [done|]; eapply follows_none; [apply single_pos|exact Hf|done]).
  assert (wp (iunlockput dp) (fput s1 dp d' i') (fun _ s' => s' = s2)) as Hput.
  { apply iunlockput_keep; rewrite ?Ei; cbn [i_ref i_nlink i_lock wrote_inode]; [exact (proj1 (kept_len _ _ _ _ _ dp Hk) (proj1 Hd1))|apply Hd1| |].
    - pose proof (dir_cached sb live s1 dp n Hq1 Hd1 Hv1) as (_ & _ & _ & E & _). pose proof (ft_links _ _ _ (qt_tree _ _ _ _ Hq1) n Hn). cbn. lia.
    - pose proof (kp_lock _ _ _ _ _ (qt_kept _ _ _ _ Hq1) dp (proj1 Hd1)) as Hlk. unfold lock_ok in Hlk. by rewrite decide_True in Hlk by set_solver. }
  pose proof (lk_map _ _ _ _ _ _ _ _ Hl) as Hr. destruct (decide (r = 0)) as [->|Hr0]; [clear Hr|destruct Hr as [-> _]]; cbn [Z.ltb Z.compare]; (apply wp_fs; [exact Hv2|]); (eapply wp_mono; [exact Hput|]); intros ? ? ->.
  - apply wp_fs; [done|]. eapply wp_mono; [eapply (put_step s2 ip m); [done|done| |exact Hfs']|]. { eapply follows_disk; [exact Fs2|done|done]. }
    intros ? s3 (Q3 & F3 & U3 & Fs3 & _). eapply wp_mono; [eapply link_end; [done| |exact Fs3]|].
    { eapply single_dropped; [|exact F3]. eapply follows_none; [apply single_pos|exact Hf|done]. }
    intros r' k' (-> & A1 & A2 & A3). split; [done|]. split; [done|]. unfold link_in. rewrite Hnone0. left. split; [done|].
    eapply (link_added sb d (f_blk s)); [apply (se_tree _ _ Hset)|done..|]. eapply entered_unmoved; [apply Hq|apply Q2|done|apply Es|exact Es|]. eapply unmoved_trans; [apply Q2|exact U3|exact A3].
  - eapply wp_mono; [eapply (link_back s2 (size (bitmap sb) + 1)); [done|done|done|]|]. { eapply fs_ok_le; [|exact Hfs']. lia. }
    intros r' k' (-> & A1 & A2 & A3). split; [done|]. split; [done|]. unfold link_in. rewrite Hnone0. right. split; [done|].
    exact (link_no_room sb d (f_blk s) (f_blk s2) (ks_blk k') live n m nm (se_tree _ _ Hset) Hn Hm Hnm Hty R _ (qt_tree _ _ _ _ Q2) Es eq_refl A3).
Qed.
Lemma link_in_dir s1 : kept sb s s1 (single dp) ∅ -> on_disk s1 dp n ->
  wp (fs (ilock (Some dp)) ;;;
      let! d := fs (gets (inode_at dp)) in
      let! i := fs (gets (inode_at ip)) in
      let! r := if negb (i_dev d =? i_dev i) then ret (-1) else fs (dirlink dp nm (i_inum i)) in
      if r <? 0 then fs (iunlockput dp) ;;; link_bad ip else fs (iunlockput dp) ;;; fs (iput ip) ;;; fs_end_op ;;; ret 0) (put_fs s1 k0) link_done.
Proof.
  intros Hk Hd1. pose proof (ft_tree _ _ _ (qt_tree _ _ _ _ Hq)) as Tt. destruct apart as [Hnm En]. pose proof (qt_sb _ _ _ _ Hq) as Esb.
  assert (on_view k0 s) as Hv by by eapply (view_follows s0). assert (forall s' e lk, kept sb s s' e lk -> on_view k0 s') as Hview by (intros s' e lk Hk'; eapply (view_follows s); [done|by eapply kept_follows]).
  apply wp_fs; [by eapply Hview|]. eapply wp_mono; [apply (ilock_kept sb s live s1 _ _ dp n Hk (not_elem_of_empty dp) Tt Esb Hn Hd1)|].
  intros ? s2 (Hk2 & Hd2 & Hs2 & Hv2 & Hoth). rewrite union_empty_r_L in Hk2. pose proof (kept_follows _ _ _ _ _ Hk2) as F2.
  assert (on_disk s2 ip m) as Hm2 by (eapply follows_disk; [exact F2|apply single_pos|done]).
  apply wp_fs; [by eapply Hview|]. apply wp_gets, wp_fs; [by eapply Hview|]. apply wp_gets.
  destruct Hm2 as (Hin & Hr & ->). rewrite (kp_dev _ _ _ _ _ Hk2 ip Hin), (kp_dev _ _ _ _ _ Hk2 dp (proj1 Hd2)), Z.eqb_refl by (lia || (destruct Hd2 as (_ & ? & _); lia)). cbn [negb].
  assert (forall a, dir_find (f_blk s) (idisk sb (f_blk s) n) a = dir_find d (idisk sb d n) a) as Ef by (intros ?; eapply (relinked_find sb d (f_blk s) live n m); by (apply (se_tree _ _ Hset) || done)).
  apply wp_fs; [by eapply Hview|]. destruct (dir_find d (idisk sb d n) nm) as [x|] eqn:Ex.
  - eapply wp_mono; [by eapply (name_taken s2 x); [..|rewrite Ef]|]. intros r s3 (-> & Hk3 & Hd3). cbn [Z.ltb Z.compare]. apply wp_fs; [by eapply Hview|].
    eapply wp_mono; [apply (iunlockput_kept sb s live Esb Tt (qt_refs _ _ _ _ Hq) (two_spare s ip Hf) s3 dp n Hk3 Hn Hd3)|]. intros ? s4 Hk4.
    eapply wp_mono; [by apply no_entry|]. intros r k' (-> & A1 & A2 & A3). split; [done|]. split; [done|]. unfold link_in. by rewrite Ex.
  - assert (dir_find (f_blk s2) (inode_at dp s2) nm = None) as Hnone.
    { rewrite (dir_find_same _ (inode_at dp s2) (idisk sb (f_blk s) n)) by done. rewrite <- Ex, <- Ef. apply dir_find_ro, (kp_blk _ _ _ _ _ Hk2). }
    eapply wp_mono; [by apply name_free|]. intros r s3 (d' & i' & -> & Hl & Hfs'). by apply link_rest.
Qed.
End second.
(** ** The two paths *)

Section paths.
Context (old new : bytes).
Let from_old := start_of (fs_view k0) old.
Let from_new := start_of (fs_view k0) new.
Context (Hsold : head old = Some SLASH \/ on_disk (fs_view k0) (f_cwd (fs_view k0)) from_old /\ live from_old) (Hzold : 0 ∉ old).
Context (Hsnew : head new = Some SLASH \/ on_disk (fs_view k0) (f_cwd (fs_view k0)) from_new /\ live from_new) (Hznew : 0 ∉ new) (Hbnew : Forall is_byte new).

Definition link_post (r : Z) k' : Prop :=
  settled_again k0 k' /\ settled k' live /\
  match link_target sb d from_old old from_new new with
  | None => r = -1 /\ link_undone sb d live None (ks_blk k')
  | Some (m, n, x) => r = 0 /\ name_added sb d live n m x (ks_blk k') \/ r = -1 /\ link_undone sb d live (Some n) (ks_blk k')
  end.

(** The current directory is where it was. *)
Lemma start_kept s ip : follows s0 s (single ip) ->
  start_of s new = from_new /\ live from_new /\ (head new = Some SLASH \/ on_disk s (f_cwd s) from_new /\ live from_new).
Proof.
  intros Hf. destruct (fo_rest _ _ _ Hf) as (_ & _ & Ecwd & _). change (f_cwd s0) with (f_cwd (fs_view k0)) in Ecwd. destruct Hsnew as [Hsl|[Hd Hl]].
  - assert (start_of s new = ROOTINO /\ from_new = ROOTINO) as [-> ->] by (unfold from_new, start_of; destruct new; [done|]; by injection Hsl as ->).
    split; [done|]. split; [apply (tk_root _ _ _ (ft_tree _ _ _ (se_tree _ _ Hset)))|by left].
  - assert (on_disk s (f_cwd s) from_new) as Hd' by (rewrite Ecwd; eapply (follows_disk s0); [exact Hf|apply single_pos|exact Hd]). split; [|by split; [|right]].
    assert (i_inum (inode_at (f_cwd s) s) = i_inum (inode_at (f_cwd (fs_view k0)) (fs_view k0))) as E.
    { rewrite Ecwd. apply (fo_id _ _ _ Hf); [apply Hd|]. destruct Hd as (_ & Hr & _). change (inode_at (f_cwd (fs_view k0)) s0) with (inode_at (f_cwd (fs_view k0)) (fs_view k0)). lia. }
    unfold from_new, start_of. by rewrite E.
Qed.

Lemma link_second m ip s : live m -> i_type (idisk sb d m) <> T_DIR -> quiet sb live ∅ s -> follows s0 s (single ip) -> on_disk s ip m ->
  relinked sb d live m (i_nlink (idisk sb d m) + 1) (f_blk s) -> fs_ok sb (f_blk s) (size (bitmap sb) + 10) -> FsPath.walk sb d from_old (path_elems old) = Some m ->
  wp (let! r := fs (nameiparent new name0) in
      match r with
      | (None, _) => link_bad ip
      | (Some dp, name) =>
          fs (ilock (Some dp)) ;;;
          let! d := fs (gets (inode_at dp)) in
          let! i := fs (gets (inode_at ip)) in
          let! r := if negb (i_dev d =? i_dev i) then ret (-1) else fs (dirlink dp name (i_inum i)) in
          if r <? 0 then fs (iunlockput dp) ;;; link_bad ip else fs (iunlockput dp) ;;; fs (iput ip) ;;; fs_end_op ;;; ret 0
      end) (put_fs s k0) link_post.
Proof.
  intros Hm Hmt Hq Hf Hd R Hfs Hwalk. destruct (start_kept s ip Hf) as (Es & Hlive & Hst). pose proof (ft_tree _ _ _ (qt_tree _ _ _ _ Hq)) as Tt.
  assert (on_view k0 s) as Hv by by eapply (view_follows s0). apply wp_fs; [done|]. unfold nameiparent. rewrite <- Es in Hst.
  eapply wp_mono; [apply wp_wlp; [apply (namex_wp sb s live (qt_sb _ _ _ _ Hq) Tt (qt_refs _ _ _ _ Hq) (two_spare s ip Hf) new true name0 (qt_kept _ _ _ _ Hq) Hst eq_refl Hznew)|by apply namex_bytes]|].
  rewrite Es. intros [r nm] s1 [[Hout Hlast] Hb]; cbn [fst snd] in Hout, Hlast, Hb. rewrite (relinked_target sb d live m _ (f_blk s) _ from_new (se_tree _ _ Hset) Hm Hmt R Hlive) in Hout.
  unfold link_post, link_target. rewrite Hwalk, (proj2 (Z.eqb_neq _ _) Hmt). fold from_old from_new.
  destruct (target sb d true from_new (path_elems new)) as [n|] eqn:Et.
  - destruct Hout as (dp & -> & Hk & Hd1). destruct (Hlast eq_refl ltac:(done)) as (x & -> & Hnm).
    destruct (parent_live sb d live from_new _ n (ft_tree _ _ _ (se_tree _ _ Hset)) Hlive Et) as [Hn Hty].
    eapply wp_mono; [by apply (link_in_dir m ip s Hm Hmt Hq Hf Hd R Hfs n dp nm Hn Hty Hb s1)|]. unfold link_done, link_in. rewrite (find_name d _ nm x) by done.
    intros r k' (A1 & A2 & A3). split; [done|]. split; [done|]. destruct (dir_find d (idisk sb d n) x); [done|].
    destruct A3 as [[A3 A4]|A3]; [left; split; [done|by eapply name_added_name]|by right].
  - destruct Hout as [-> Hk]. eapply wp_mono; [by apply (no_entry m ip s Hm Hmt Hq Hf Hd R Hfs s1)|]. intros r k' (-> & A1 & A2 & A3). done.
Qed.
(** Nothing was changed. *)
Lemma link_nothing s c : quiet sb live ∅ s -> follows s0 s none -> unmoved sb d1 live (f_blk s) -> fs_ok sb (f_blk s) c -> link_target sb d from_old old from_new new = None ->
  wp (fs_end_op ;;; ret (-1)) (put_fs s k0) link_post.
Proof.
  intros Hq Hf U Hfs Hnone. eapply wp_mono; [by eapply link_end|]. intros r k' (-> & A1 & A2 & A3). split; [done|]. split; [done|]. rewrite Hnone. split; [done|].
  assert (unmoved sb d live (ks_blk k')) as [U1 U2 U3].
  { eapply unmoved_trans; [apply (se_tree _ _ Hset)|by eapply (view_unmoved _ d d1), Ha|]. by eapply unmoved_trans; [apply (tree1 k0 live Hset d1 Ha)|..]. }
  split; [intros l Hl _; rewrite U1 by done; by repeat split|by intros l Hl _; apply U2|intros b Hb; by rewrite U3|done].
Qed.

(** The file is found and locked. *)
Lemma link_locked s ip m : kept sb s0 s (single ip) {[ip]} -> live m -> on_disk s ip m -> i_valid (inode_at ip s) = true -> FsPath.walk sb d from_old (path_elems old) = Some m ->
  wp (if i_type (idisk sb d m) =? T_DIR then fs (iunlockput ip) ;;; fs_end_op ;;; ret (-1)
      else
            set_links ip (fun n => n + 1) ;;;
            fs (iupdate ip) ;;;
            fs (iunlock (Some ip)) ;;;
            let! r := fs (nameiparent new name0) in
            match r with
            | (None, _) => link_bad ip
            | (Some dp, name) =>
                fs (ilock (Some dp)) ;;;
                let! d := fs (gets (inode_at dp)) in
                let! i := fs (gets (inode_at ip)) in
                let! r := if negb (i_dev d =? i_dev i) then ret (-1) else fs (dirlink dp name (i_inum i)) in
                if r <? 0 then fs (iunlockput dp) ;;; link_bad ip else fs (iunlockput dp) ;;; fs (iput ip) ;;; fs_end_op ;;; ret 0
            end) (put_fs s k0) link_post.
Proof.
  intros Hk Hm Hd Hv Hwalk. pose proof quiet0 as Hq0. pose proof (qt_tree _ _ _ _ Hq0) as T. pose proof (ft_tree _ _ _ T) as Tt. destruct (table1 k0 live Hset d1 Ha) as (_ & Hr0 & Hsp & _).
  pose proof (room1 k0 live old Hset d1 Ha Ho) as Hroom. fold sb in Hroom. assert (unmoved sb d live d1) as U0 by apply view_unmoved, Ha. pose proof (kept_follows _ _ _ _ _ Hk) as F1.
  assert (on_view k0 s) as Hview by by eapply (view_follows s0). assert (inum_ok sb m) as Hmo by by apply (ft_inum _ _ _ T).
  assert (unmoved sb d live (f_blk s)) as U1 by (eapply unmoved_trans; [apply (se_tree _ _ Hset)|exact U0|exact (ro_unmoved _ _ _ _ Hk)]). pose proof (um_inodes _ _ _ _ U1 m Hmo) as Em.
  destruct (Z.eqb_spec (i_type (idisk sb d m)) T_DIR) as [Hty|Hty].
  - apply wp_fs; [done|]. eapply wp_mono; [apply (iunlockput_kept sb s0 live eq_refl Tt Hr0 Hsp s ip m Hk Hm Hd)|]. intros ? s3 Hk3.
    eapply link_nothing; [eapply kept_quiet; [exact Hq0|exact Hk3|unfold none; lia]|exact (kept_follows _ _ _ _ _ Hk3)|exact (ro_unmoved _ _ _ _ Hk3)|eapply fs_ok_ro; [apply (kp_blk _ _ _ _ _ Hk3)|exact Hroom]|].
    unfold link_target. by rewrite Hwalk, (proj2 (Z.eqb_eq _ _) Hty).
  - assert (quiet sb live {[ip]} s) as Hq.
    { eapply kept_quiet; [exact Hq0|exact Hk|]. intros q _. unfold single. case_decide as E; [|lia]. subst q. intros _. by destruct Hd as (_ & _ & ->). }
    pose proof (ft_links _ _ _ (se_tree _ _ Hset) m Hm) as Hl. pose proof (gw_links _ _ Hgrow m Hm) as Hl'. fold sb d in Hl, Hl'.
    eapply (relink_steps s ip m (fun n => n + 1) (size (bitmap sb) + 10)); rewrite ?Em; try done; [lia| |].
    { eapply fs_ok_ro; [apply (kp_blk _ _ _ _ _ Hk)|]. eapply fs_ok_le; [|exact Hroom]. lia. }
    intros d' i1 s2 Hip Hr Hlk D2 Q2 F2 R2 Fs2. subst s2. apply wp_fs; [done|]. eapply wp_mono; [by apply iunlock_fput|]. intros ? ? ->.
    eapply (link_second m ip); try done; [eapply follows_none; [apply single_pos|exact F1|exact F2]|]. eapply unmoved_relinked; [apply (se_tree _ _ Hset)|done|exact U1|exact R2].
Qed.

Lemma link_first :
  wp (let! ip := fs (namei old) in
      match ip with
      | None => fs_end_op ;;; ret (-1)
      | Some ip =>
          fs (ilock (Some ip)) ;;;
          let! i := fs (gets (inode_at ip)) in
          if i_type i =? T_DIR then fs (iunlockput ip) ;;; fs_end_op ;;; ret (-1)
          else
            set_links ip (fun n => n + 1) ;;;
            fs (iupdate ip) ;;;
            fs (iunlock (Some ip)) ;;;
            let! r := fs (nameiparent new name0) in
            match r with
            | (None, _) => link_bad ip
            | (Some dp, name) =>
                fs (ilock (Some dp)) ;;;
                let! d := fs (gets (inode_at dp)) in
                let! i := fs (gets (inode_at ip)) in
                let! r := if negb (i_dev d =? i_dev i) then ret (-1) else fs (dirlink dp name (i_inum i)) in
                if r <? 0 then fs (iunlockput dp) ;;; link_bad ip else fs (iunlockput dp) ;;; fs (iput ip) ;;; fs_end_op ;;; ret 0
            end
      end) (put_fs s0 k0) link_post.
Proof.
  pose proof quiet0 as Hq0. pose proof (qt_tree _ _ _ _ Hq0) as T. pose proof (ft_tree _ _ _ T) as Tt. destruct (table1 k0 live Hset d1 Ha) as (Kp0 & Hr0 & Hsp & _).
  pose proof (room1 k0 live old Hset d1 Ha Ho) as Hroom. fold sb in Hroom.
  assert (live from_old) as Hlive.
  { destruct Hsold as [Hsl|[_ Hl]]; [|done]. unfold from_old, start_of. destruct old as [|c l]; [done|]. injection Hsl as ->. apply (tk_root _ _ _ Tt). }
  assert (forall s e lk, kept sb s0 s e lk -> on_view k0 s) as Hview by (intros s e lk Hk'; eapply (view_follows s0); [done|by eapply kept_follows]).
  apply wp_fs; [done|]. unfold namei. apply wp_bind. eapply wp_mono; [apply (namex_wp sb s0 live eq_refl Tt Hr0 Hsp old false name0 Kp0 Hsold eq_refl Hzold)|].
  change (start_of s0 old) with from_old. intros [r nm] s1 [Hout _]; cbn [fst snd] in Hout. apply wp_ret. cbn [fst]. change (f_blk s0) with d1 in Hout. rewrite (alike_target sb d d1) in Hout by apply Ha.
  change (target sb d false from_old (path_elems old)) with (FsPath.walk sb d from_old (path_elems old)) in Hout. destruct (FsPath.walk sb d from_old (path_elems old)) as [m|] eqn:Ew.
  - destruct Hout as (ip & -> & Hk & Hd1). assert (live m) as Hm by (eapply walk_live; [apply (ft_tree _ _ _ (se_tree _ _ Hset))|exact Hlive|exact Ew]).
    apply wp_fs; [by eapply Hview|]. eapply wp_mono; [apply (ilock_kept sb s0 live s1 _ _ ip m Hk (not_elem_of_empty ip) Tt eq_refl Hm Hd1)|].
    intros ? s2 (Hk2 & Hd2 & Hs2 & Hv2 & _). rewrite union_empty_r_L in Hk2. change (f_blk s0) with d1 in Hs2.
    apply wp_fs; [by eapply Hview|]. apply wp_gets. assert (i_type (inode_at ip s2) = i_type (idisk sb d m)) as -> by (rewrite <- (alike_idisk sb d d1 m) by apply Ha; apply Hs2).
    by apply link_locked.
  - destruct Hout as [-> Hk]. eapply link_nothing; [eapply kept_quiet; [exact Hq0|exact Hk|unfold none; lia]|exact (kept_follows _ _ _ _ _ Hk)|exact (ro_unmoved _ _ _ _ Hk)|eapply fs_ok_ro; [apply (kp_blk _ _ _ _ _ Hk)|exact Hroom]|].
    unfold link_target. by rewrite Ew.
Qed.
End paths.
End call.
(** Where a path starts is a directory in use. *)
Definition starts_live k (live : Z -> Prop) (path : bytes) : Prop := let start := start_of (fs_view k) path in
  head path = Some SLASH \/ on_disk (fs_view k) (f_cwd (fs_view k)) start /\ live start.

End link.
