(* ===== verification/UnlinkDemo.v ===== *)
(** * [unlink("/a")] and [link("/a", "/b")] on the small image

    A kernel with one process whose memory holds the paths, on the image of
    [FsProps]: the hypotheses of [unlink_correct] and [link_correct] hold of it. *)
From S2P Require Import Prelude Params Sleeplock Bio BioInv Log LogInv LogCrash LogTxn CString Interfaces BlockInst Fs FsBlocks FsInode FsData FsWrite FsProps FsWriteProps FsTrunc FsDir FsPath FsUnlink FsTree FsLink FsDirProps Kalloc Vm VmProps Pipe Console Kernel File Proc Exec Sysfile SysUnlink SysLink.

#[local] Instance unlink_machine : Machine := {|
  kend := 0x80021000; trampoline := 0x80007000; uservec := 0; userret := 0; usertrap_addr := 0; forkret_addr := 0;
  stat_padding := [0; 0; 0; 0] |}.

(** ** The image as a tree: the root directory and the file "a" *)

Definition demo_live (n : Z) : Prop := n = 1 \/ n = 2.
Lemma demo_iblock (l : Z) : 0 <= l < 16 -> IBLOCK l demo_sb = 33.
Proof. intros Hl. unfold IBLOCK. rewrite Z.div_small by klia. done. Qed.

Section image.
Context (s : lst) (Hr : demo_ready s).

Definition image_root : inode := mkInode ROOTDEV 1 0 initsleeplock false T_DIR 0 0 1 32 ([36] ++ replicate 12 0).
Definition image_a : inode := mkInode ROOTDEV 2 0 initsleeplock false T_FILE 0 0 1 5 ([37] ++ replicate 12 0).

Lemma demo_idisk : idisk demo_sb s 1 = image_root /\ idisk demo_sb s 2 = image_a.
Proof.
  destruct Hr as (_ & _ & _ & _ & Hdemo). pose proof (proj2 (Hdemo 33 ltac:(lia) ltac:(lia))) as Hv. change (bview (l_bio s) 33) with (bl_view s 33) in Hv.
  unfold idisk. rewrite !demo_iblock, Hv by lia. split; by vm_compute.
Qed.

Lemma root_slot k : is_slot k -> slot s image_root k = if decide (k = 0) then 36 else 0.
Proof. intros Hk. rewrite <- (demo_root_slot s k Hk). done. Qed.
Lemma a_slot k : is_slot k -> slot s image_a k = if decide (k = 0) then 37 else 0.
Proof. intros Hk. rewrite <- (demo_slot s k Hk). done. Qed.

Definition entry0 : bytes := slice (demo_fs_disk !!! 36) 0 16.
Definition entry1 : bytes := slice (demo_fs_disk !!! 36) 16 16.

Lemma root_dirents : dirent_at s image_root 0 = entry0 /\ dirent_at s image_root 1 = entry1.
Proof.
  destruct Hr as (_ & _ & _ & _ & Hdemo). pose proof (proj2 (Hdemo 36 ltac:(lia) ltac:(lia))) as Hv.
  split; [exact (demo_dirent s 0 Hv ltac:(lia))|exact (demo_dirent s 1 Hv ltac:(lia))].
Qed.

Lemma image_root_entries : entries s image_root = [entry0; entry1].
Proof. destruct root_dirents as [E0 E1]. unfold entries. change (seqZ 0 (FsDir.count image_root)) with [0; 1]. cbn [fmap list_fmap]. by rewrite E0, E1. Qed.
Lemma entry_inums : de_inum entry0 = 1 /\ de_inum entry1 = 2 /\ same_name (de_name entry0) [46; 0] = true /\ same_name (de_name entry0) (de_name entry1) = false.
Proof. by vm_compute. Qed.

(** The root directory as a map. *)
Lemma image_root_find name m : dir_find s image_root name = Some m -> (m = 1 /\ dots name = true) \/ m = 2.
Proof.
  destruct entry_inums as (N0 & N1 & Hdot & _). unfold dir_find, find_entry. rewrite image_root_entries. cbn [find]. destruct (entry_is name entry0) eqn:E0.
  - intros [= <-]. left. split; [done|]. unfold entry_is in E0. apply andb_true_iff in E0 as [_ E0]. unfold dots. by rewrite (same_name_eq name (de_name entry0)), Hdot.
  - destruct (entry_is name entry1); [|done]. intros [= <-]. by right.
Qed.

Lemma image_file n : demo_live n -> file_ok demo_sb s (idisk demo_sb s n).
Proof.
  destruct demo_idisk as [E1 E2]. intros [-> | ->]; rewrite ?E1, ?E2; (split; [done|done|..]); intros k.
  - intros Hk. rewrite root_slot by done. case_decide; [intros _; apply demo_good_block; (done || lia)|done].
  - intros k' Hk Hk'. rewrite !root_slot by done. repeat case_decide; lia.
  - intros Hk. rewrite a_slot by done. case_decide; [intros _; apply demo_good_block; (done || lia)|done].
  - intros k' Hk Hk'. rewrite !a_slot by done. repeat case_decide; lia.
Qed.

Lemma image_dir : is_dir s image_root /\ names_once s image_root.
Proof.
  split.
  - split; [done|vm_compute; split; discriminate|done|]. intros k Hk. change (i_size image_root) with 32 in Hk. rewrite Z.div_small by klia.
    by rewrite root_slot by (unfold is_slot; klia).
  - destruct root_dirents as [E0 E1], entry_inums as (_ & _ & _ & Hne). assert (forall name, entry_is name entry0 = true -> entry_is name entry1 = true -> False) as Hno.
    { unfold entry_is. intros name [_ A]%andb_true_iff [_ B]%andb_true_iff. rewrite (same_name_eq name (de_name entry0)) in B by done. congruence. }
    intros name k k'. change (FsDir.count image_root) with 2. intros Hk Hk'. unfold entry_matches. fold (same_name name (de_name (dirent_at s image_root k))) (same_name name (de_name (dirent_at s image_root k'))).
    assert (k = 0 \/ k = 1) as [-> | ->] by lia; assert (k' = 0 \/ k' = 1) as [-> | ->] by lia; rewrite ?E0, ?E1; intros A B; [reflexivity|destruct (Hno name A B)|destruct (Hno name B A)|reflexivity].
Qed.

Lemma image_tree : fs_tree demo_sb s demo_live.
Proof.
  destruct demo_idisk as [E1 E2]. pose proof (demo_fs_ok s 0 Hr ltac:(vm_compute; lia)) as Hfs. pose proof (demo_good_block s 33 Hr ltac:(lia) ltac:(lia)) as H33.
  destruct Hr as (Hwf & Hh & _ & Htx & Hdemo). assert (forall n, demo_live n -> inum_ok demo_sb n) as Hin by (intros n [-> | ->]; unfold inum_ok; change (sb_ninodes demo_sb) with 16; lia).
  assert (forall n, demo_live n -> i_type (idisk demo_sb s n) = T_DIR -> n = 1) as Hdir by (intros n [-> | ->]; [done|by rewrite E2]).
  split; [split|..].
  - by left.
  - intros n Hn. specialize (Hin n Hn). unfold inum_ok in Hin. change (sb_ninodes demo_sb) with 16 in Hin. rewrite demo_iblock by done. split; [lia|]. by eapply good_can_read.
  - intros n [-> | ->]; rewrite ?E1, ?E2; done.
  - intros n Hn Hty. rewrite (Hdir n Hn Hty), E1. pose proof (image_file 1 (or_introl eq_refl)) as Hf. rewrite E1 in Hf.
    apply (dir_is_ok demo_sb (demo_fs s) 0) with (c := 0%nat); [change (0 < length demo_itable)%nat; unfold demo_itable; rewrite length_replicate; klia|exact Hf|exact Hfs|apply image_dir].
  - intros n name m Hn Hty. rewrite (Hdir n Hn Hty), E1. intros [[-> _]| ->]%image_root_find; [by left|by right].
  - unfold inodes_fit. change (sb_ninodes demo_sb) with 16. change (sb_inodestart demo_sb) with 33. lia.
  - exact Hin.
  - intros n [-> | ->]; rewrite ?E1, ?E2; done.
  - by apply (demo_alloc_geom s).
  - apply Hfs.
  - apply image_file.
  - intros l Hl. unfold inum_ok in Hl. change (sb_ninodes demo_sb) with 16 in Hl. by rewrite demo_iblock.
  - intros n l k Hn Hl Hk. unfold inum_ok in Hl. change (sb_ninodes demo_sb) with 16 in Hl. rewrite demo_iblock by done.
    destruct Hn as [-> | ->]; rewrite ?E1, ?E2, ?root_slot, ?a_slot by done; case_decide; lia.
  - intros n m k k' Hn Hm Hne Hk Hk'. destruct Hn as [-> | ->], Hm as [-> | ->]; try done; rewrite E1, E2, root_slot, a_slot by done; repeat case_decide; lia.
  - intros n Hn Hty. rewrite (Hdir n Hn Hty), E1. apply image_dir.
  - intros n name m Hn Hty. rewrite (Hdir n Hn Hty), E1. intros [[-> Hd]| ->]%image_root_find Hnd; [congruence|by rewrite E2].
Qed.
End image.

(** ** The kernel *)

(** "/a" and "/b" at addresses 16 and 24 of the process, which are in the first
    two argument registers. *)
Definition unlink_tf : Z := KERNBASE + 0x103000.
Definition unlink_mem : mem := 
  store64 (store64 (store64 (store64 demo_mem (demo_page 1 + 16) (47 + 97 * 256)) (demo_page 1 + 24) (47 + 98 * 256)) (unlink_tf + TF_a0) 16) (unlink_tf + TF_a0 + 8) 24.
Definition unlink_proc : proc :=
  mkProc RUNNING None 0 0 1 None 0 (2 * PGSIZE) VmProps.demo_root unlink_tf (0, 0) (replicate 16 None) None (replicate 16 0).
Definition unlink_kern (s : lst) : kern :=
  mkKern s demo_sb demo_itable (mkKst unlink_mem 0) (mkCons [] 0 0 0) false (replicate 100 file0) ∅ (unlink_proc :: replicate 63 proc0) 0 0 2 0.

Lemma unlink_path (s : lst) : called_with (unlink_kern s) 0 (Some [47; 97]).
Proof. unfold called_with, wp, wpt. vm_compute. reflexivity. Qed.

Lemma link_path (s : lst) : called_with (unlink_kern s) 1 (Some [47; 98]).
Proof. unfold called_with, wp, wpt. vm_compute. reflexivity. Qed.

(** The image between two transactions. *)
Lemma demo_idle : exists s s1 : lst, demo_ready s1 /\ alike s1 s /\ bl_idle s.
Proof.
  destruct demo_fs_booted as (s1 & Hr). exists (set_outstanding 0 s1), s1. split; [exact Hr|]. destruct Hr as (Hwf & Hh & [Ho Hc] & Htx & _). split.
  - split; try done. destruct Hwf as [[] ]. by split.
  - split; [done|]. split; [done|]. change (l_n (set_outstanding 0 s1)) with (l_n s1). pose proof (txn_size s1 Hwf) as E. rewrite Htx, size_empty in E.
    destruct Hwf as [Hf _]. destruct Hf. lia.
Qed.

Lemma demo_settled (s s1 : lst) : demo_ready s1 -> alike s1 s -> bl_idle s -> settled (unlink_kern s) demo_live.
Proof.
  intros Hr Ha Hi. pose proof Hr as (_ & Hh & _ & Htx & _). split.
  - split; [apply Ha|]. split; [done|]. change (ks_blk (unlink_kern s)) with s. rewrite (al_held _ _ Ha), (al_txn _ _ Ha). done.
  - by eapply alike_tree, image_tree.
  - apply fresh_quiet, Ha.
  - intros q Hq Hpos. exfalso. change (inode_at q (fs_view (unlink_kern s))) with (demo_itable !!! q) in Hpos. unfold demo_itable in Hpos.
    rewrite lookup_total_replicate_2 in Hpos by exact Hq. cbn in Hpos. lia.
  - by vm_compute; lia.
Qed.

Lemma unlink_correct_witness : exists s : lst, wp sys_unlink (unlink_kern s) (fun r k' =>
  r = 0 /\ dir_find (ks_blk k') (idisk demo_sb (ks_blk k') 1) [97] = None /\ i_type (idisk demo_sb (ks_blk k') 2) = 0).
Proof.
  destruct demo_idle as (s & s1 & Hr & Ha & Hi). exists s. pose proof (al_view _ _ Ha) as Hv. destruct (demo_idisk s1 Hr) as [E1 E2].
  eapply wp_mono; [apply (proj2 (unlink_correct (unlink_kern s) demo_live (demo_settled s s1 Hr Ha Hi)) [47; 97] (unlink_path s)); by left|].
  intros r k' [_ Hpost]. change (ks_blk (unlink_kern s)) with s in Hpost. change (ks_sb (unlink_kern s)) with demo_sb in Hpost.
  assert (unlink_target demo_sb s 1 [47; 97] = Some (1, [97], 2)) as Et.
  { unfold unlink_target. change (path_elems [47; 97]) with [[97]]. assert (target demo_sb s true 1 [[97]] = Some 1) as ->.
    { change ((if i_type (idisk demo_sb s 1) =? T_DIR then Some 1 else None) = Some 1). by rewrite (alike_idisk demo_sb s1 s), E1. }
    cbn [last]. change (dots [97]) with false. cbv iota. rewrite (alike_idisk demo_sb s1 s), E1, (alike_find s1 s) by done.
    rewrite (proj2 (demo_root_find s1 Hr) : dir_find s1 image_root [97] = Some 2). unfold removable. by rewrite (alike_idisk demo_sb s1 s), E2. }
  change (start_of (fs_view (unlink_kern s)) [47; 97]) with 1 in Hpost. rewrite Et in Hpost. destruct Hpost as [-> [_ U2 _ _ U4 _ _ _]].
  assert (was_last demo_sb (fs_view (unlink_kern s)) 2 = true) as El by (unfold was_last; change (f_blk (fs_view (unlink_kern s))) with s; by rewrite (alike_idisk demo_sb s1 s), E2).
  rewrite El in U4. destruct U4 as [U4 _]. done.
Defined.

Lemma demo_growable (s s1 : lst) : demo_ready s1 -> alike s1 s -> growable (unlink_kern s) demo_live.
Proof.
  intros Hr Ha. destruct (demo_idisk s1 Hr) as [E1 E2]. change (ks_blk (unlink_kern s)) with s. pose proof (al_view _ _ Ha) as Hv. split.
  - exists 0%nat, 1%nat, 2%nat. split_and!; try done; unfold in_table; klia.
  - intros n [-> | ->]; lia.
  - intros n Hn. change (ks_sb (unlink_kern s)) with demo_sb. rewrite (alike_idisk demo_sb s1 s) by done. destruct Hn as [-> | ->]; rewrite ?E1, ?E2; by vm_compute.
  - intros n Hn. change (ks_sb (unlink_kern s)) with demo_sb. rewrite (alike_idisk demo_sb s1 s) by done. destruct Hn as [-> | ->]; rewrite ?E1, ?E2; by vm_compute.
Qed.

