(* ===== verification/Syscall.v ===== *)
(** * System calls on processes and the dispatcher ([kernel/sysproc.c],
    [kernel/syscall.c]) *)
From stdpp Require Import pretty.
From S2P Require Import Prelude Params Sleeplock CString Interfaces Log BlockInst Fs Fsinfo Kalloc Vm Pipe Console Kernel File Proc Exec Sysfile.

Definition SBRK_EAGER : Z := 1.
Definition SBRK_LAZY : Z := 2.

Section sysproc.
Context `{Machine}.

Definition sys_exit : M kern Z :=
  let! n := argint 0 in
  kexit n ;;;
  ret 0.

Definition sys_getpid : M kern Z := gets (fun s => p_pid (me s)).
Definition sys_fork : M kern Z := kfork.
Definition sys_wait : M kern Z := let! p := argaddr 0 in kwait p.

Definition sys_sbrk : M kern Z :=
  let! n := argint 0 in
  let! t := argint 1 in
  let! addr := gets (fun s => p_sz (me s)) in
  if (t =? SBRK_EAGER) || (n <? 0) then
    let! r := growproc n in
    if r <? 0 then ret (-1) else ret addr
  else if u64 (addr + n) <? addr then ret (-1)
  else if TRAPFRAME <? u64 (addr + n) then ret (-1)
  else modify_me (fun p => set_sz (u64 (p_sz p + n)) p) ;;; ret addr.

(** One check of the loop condition; ticks0 is read on entry. *)
Definition sys_pause_from (ticks0 : Z) : M kern Z :=
  let! n := argint 0 in
  let n := if n <? 0 then 0 else n in
  let! s := gets id in
  if u32 (ks_ticks s - ticks0) <? n then
    if killed_me s then ret (-1) else sleep_on ChTicks
  else ret 0.
Definition sys_pause : M kern Z :=
  let! ticks0 := gets ks_ticks in
  sys_pause_from ticks0.

Definition sys_kill : M kern Z := let! pid := argint 0 in kkill pid.
Definition sys_uptime : M kern Z := gets ks_ticks.

(** [sys_fsinfo] with its argument and the process's memory. *)
Definition fsinfo_call : M kern Z := let! addr := argaddr 0 in fs (sys_fsinfo addr).

(** The table [syscalls]; the numbers are those of [kernel/syscall.h]. *)
Definition syscalls (num : Z) : option (M kern Z) :=
  match num with
  | 1 => Some sys_fork | 2 => Some sys_exit | 3 => Some sys_wait | 4 => Some sys_pipe
  | 5 => Some sys_read | 6 => Some sys_kill | 7 => Some sys_exec | 8 => Some sys_fstat
  | 9 => Some sys_chdir | 10 => Some sys_dup | 11 => Some sys_getpid | 12 => Some sys_sbrk
  | 13 => Some sys_pause | 14 => Some sys_uptime | 15 => Some sys_open | 16 => Some sys_write
  | 17 => Some sys_mknod | 18 => Some sys_unlink | 19 => Some sys_link | 20 => Some sys_mkdir
  | 21 => Some sys_close | 22 => Some fsinfo_call
  | _ => None
  end.

Definition syscall : M kern unit :=
  let! p := gets me in
  let! num := gets (fun s => i32 (tf_get (me s) TF_a7 s)) in
  match syscalls num with
  | Some f =>
      let! r := f in
      tf_set p TF_a0 r
  | None =>
      emit (Print (pretty (p_pid p) ++ ": unknown sys call " ++ pretty num)) ;;;
      tf_set p TF_a0 (-1)
  end.
End sysproc.
