(* ===== verification/Trap.v ===== *)
(** * Traps ([kernel/trap.c])

    The control registers a trap handler reads are the record [trapregs]; the
    bytes and bits the devices return are arguments of the handlers.  The
    result says how the handler ends: back in user space, or having yielded at
    a timer interrupt, to go on with [prepare_return] when it runs again; an
    exiting process stays in the scheduler. *)
From S2P Require Import Prelude Params Sleeplock CString Interfaces Log BlockInst Fs Kalloc Vm Pipe Console Kernel File Proc Exec Sysfile Syscall.

Definition SSTATUS_SPP : Z := Z.shiftl 1 8.
Definition SSTATUS_SPIE : Z := Z.shiftl 1 5.
Definition SCAUSE_EXTERNAL : Z := 0x8000000000000009.
Definition SCAUSE_TIMER : Z := 0x8000000000000005.
Definition UART0_IRQ : Z := 10.
Definition VIRTIO0_IRQ : Z := 1.
Definition MAKE_SATP (pagetable : Z) : Z := Z.lor (Z.shiftl 8 60) (Z.shiftr pagetable 12).

Record trapregs : Set := mkTrapregs {
  r_sstatus : Z; r_scause : Z; r_sepc : Z; r_stval : Z; r_satp : Z; r_tp : Z; r_time : Z }.

(** What the devices say: the interrupt claimed from the PLIC, the UART's
    transmitter bit and input, and whether the disk driver has work. *)
Record devices : Type := mkDevices {
  d_irq : Z; d_uart_idle : bool; d_uart_input : bytes; d_disk : M kern unit }.

(** The registers a return to user space sets. *)
Record userregs : Set := mkUserregs { u_stvec : Z; u_sstatus : Z; u_sepc : Z; u_satp : Z }.

Inductive trap_end : Set := ToUser (r : userregs) | Yielded.

Section trap.
Context `{Machine}.

(** The value written to stimecmp is returned. *)
Definition clockintr (regs : trapregs) : M kern Z :=
  when (r_tp regs =? 0)
    (modify (fun s => set_ticks (u32 (ks_ticks s + 1)) s) ;;;
     wakeup ChTicks) ;;;
  ret (u64 (r_time regs + 1000000)).

Definition procdump_events (ps : list proc) : list event :=
  (fun _ => Print "procdump") <$> procdump ps.

Definition devintr (regs : trapregs) (dev : devices) : M kern Z :=
  if r_scause regs =? SCAUSE_EXTERNAL then
    (if d_irq dev =? UART0_IRQ then
       let! ps := gets ks_proc in
       with_cons (uartintr (procdump_events ps) (d_uart_idle dev) (d_uart_input dev))
     else if d_irq dev =? VIRTIO0_IRQ then d_disk dev
     else when (negb (d_irq dev =? 0)) (emit (Print "unexpected interrupt irq"))) ;;;
    ret 1
  else if r_scause regs =? SCAUSE_TIMER then clockintr regs ;;; ret 2
  else ret 0.

Definition prepare_return (regs : trapregs) (sstatus : Z) : M kern userregs :=
  let! p := gets me in
  tf_set p TF_kernel_satp (r_satp regs) ;;;
  tf_set p TF_kernel_sp (p_kstack p + PGSIZE) ;;;
  tf_set p TF_kernel_trap usertrap_addr ;;;
  tf_set p TF_kernel_hartid (r_tp regs) ;;;
  let x := Z.lor (Z.land sstatus (Z.lnot SSTATUS_SPP)) SSTATUS_SPIE in
  let! epc := gets (tf_get p TF_epc) in
  ret (mkUserregs (TRAMPOLINE + (uservec - trampoline)) x epc (MAKE_SATP (p_pagetable p))).

Definition INIT : bytes := [47; 105; 110; 105; 116].

(** [kernel/proc.c]: where a new process starts.  first is the static variable
    and returned with its new value; the registers are those of the return to
    user space, through the trampoline at the address that is returned last. *)
Definition forkret (first : bool) (regs : trapregs) : M kern (bool * userregs * Z) :=
  let! p := gets me in
  when first
    (fs (fsinit ROOTDEV) ;;;
     let! r := kexec INIT [INIT] in
     tf_set p TF_a0 (u64 r) ;;;
     let! a0 := gets (tf_get p TF_a0) in
     when (a0 =? u64 (-1)) (panic "exec")) ;;;
  let! u := prepare_return regs (r_sstatus regs) in
  ret (false, u, TRAMPOLINE + (userret - trampoline)).

(** The handling proper; the result is which_dev. *)
Definition usertrap_handle (regs : trapregs) (dev : devices) : M kern Z :=
  let! p := gets me in
  if r_scause regs =? 8 then
    let! s := gets id in
    if killed_me s then kexit (-1) ;;; ret 0
    else
      let! epc := gets (tf_get p TF_epc) in
      tf_set p TF_epc (u64 (epc + 4)) ;;;
      syscall ;;;
      ret 0
  else
    let! which := devintr regs dev in
    if negb (which =? 0) then ret which
    else
      let! r :=
        if (r_scause regs =? 15) || (r_scause regs =? 13) then vm (vmfault kend (p_pagetable p) (r_stval regs))
        else ret 0 in
      if negb (r =? 0) then ret 0
      else
        emit (Print "usertrap(): unexpected scause") ;;;
        let! i := gets ks_me in
        setkilled i ;;;
        ret 0.

Definition usertrap (regs : trapregs) (dev : devices) : M kern trap_end :=
  if negb (Z.land (r_sstatus regs) SSTATUS_SPP =? 0) then panic "usertrap: not from user mode"
  else
    let! p := gets me in
    tf_set p TF_epc (r_sepc regs) ;;;
    let! which := usertrap_handle regs dev in
    let! s := gets id in
    if killed_me s then kexit (-1) ;;; ret Yielded
    else if which =? 2 then yield ;;; ret Yielded
    else let! u := prepare_return regs (r_sstatus regs) in ret (ToUser u).

(** A trap from the kernel; intr is the interrupt-enable bit. *)
Definition kerneltrap (regs : trapregs) (intr : bool) (dev : devices) (running : bool) : M kern bool :=
  if Z.land (r_sstatus regs) SSTATUS_SPP =? 0 then panic "kerneltrap: not from supervisor mode"
  else if intr then panic "kerneltrap: interrupts enabled"
  else
    let! which := devintr regs dev in
    if which =? 0 then emit (Print "scause") ;;; panic "kerneltrap"
    else if (which =? 2) && running then yield ;;; ret true
    else ret false.
End trap.
