(* ===== verification/Riscv.v ===== *)
(** * A hart and its registers ([kernel/riscv.h])

    The control and status registers of one hart, the privilege mode and the
    program counter.  As in the privileged architecture, sstatus and sie are
    views: sstatus shows and changes the supervisor bits of mstatus, sie the bits
    of mie that mideleg delegates.  The other registers hold what was written. *)
From S2P Require Import Prelude Params.

Inductive mode : Set := MachineMode | SupervisorMode | UserMode.
#[export] Instance mode_eq_dec : EqDecision mode.
Proof. solve_decision. Defined.

Record hart : Set := mkHart {
  mhartid : Z; mstatus : Z; mepc : Z; mie : Z; medeleg : Z; mideleg : Z; menvcfg : Z; mcounteren : Z;
  pmpaddr0 : Z; pmpcfg0 : Z; sip : Z; sepc : Z; stvec : Z; stimecmp : Z; satp : Z; scause : Z; stval : Z;
  time : Z; sp : Z; tp : Z; ra : Z; priv : mode; pc : Z }.

(** One setter per register that is written. *)
Definition set_mstatus (x : Z) (h : hart) : hart :=
  mkHart (mhartid h) x (mepc h) (mie h) (medeleg h) (mideleg h) (menvcfg h) (mcounteren h) (pmpaddr0 h) (pmpcfg0 h) (sip h) (sepc h)
    (stvec h) (stimecmp h) (satp h) (scause h) (stval h) (time h) (sp h) (tp h) (ra h) (priv h) (pc h).
Definition set_mepc (x : Z) (h : hart) : hart :=
  mkHart (mhartid h) (mstatus h) x (mie h) (medeleg h) (mideleg h) (menvcfg h) (mcounteren h) (pmpaddr0 h) (pmpcfg0 h) (sip h) (sepc h)
    (stvec h) (stimecmp h) (satp h) (scause h) (stval h) (time h) (sp h) (tp h) (ra h) (priv h) (pc h).
Definition set_mie (x : Z) (h : hart) : hart :=
  mkHart (mhartid h) (mstatus h) (mepc h) x (medeleg h) (mideleg h) (menvcfg h) (mcounteren h) (pmpaddr0 h) (pmpcfg0 h) (sip h) (sepc h)
    (stvec h) (stimecmp h) (satp h) (scause h) (stval h) (time h) (sp h) (tp h) (ra h) (priv h) (pc h).
Definition set_medeleg (x : Z) (h : hart) : hart :=
  mkHart (mhartid h) (mstatus h) (mepc h) (mie h) x (mideleg h) (menvcfg h) (mcounteren h) (pmpaddr0 h) (pmpcfg0 h) (sip h) (sepc h)
    (stvec h) (stimecmp h) (satp h) (scause h) (stval h) (time h) (sp h) (tp h) (ra h) (priv h) (pc h).
Definition set_mideleg (x : Z) (h : hart) : hart :=
  mkHart (mhartid h) (mstatus h) (mepc h) (mie h) (medeleg h) x (menvcfg h) (mcounteren h) (pmpaddr0 h) (pmpcfg0 h) (sip h) (sepc h)
    (stvec h) (stimecmp h) (satp h) (scause h) (stval h) (time h) (sp h) (tp h) (ra h) (priv h) (pc h).
Definition set_menvcfg (x : Z) (h : hart) : hart :=
  mkHart (mhartid h) (mstatus h) (mepc h) (mie h) (medeleg h) (mideleg h) x (mcounteren h) (pmpaddr0 h) (pmpcfg0 h) (sip h) (sepc h)
    (stvec h) (stimecmp h) (satp h) (scause h) (stval h) (time h) (sp h) (tp h) (ra h) (priv h) (pc h).
Definition set_mcounteren (x : Z) (h : hart) : hart :=
  mkHart (mhartid h) (mstatus h) (mepc h) (mie h) (medeleg h) (mideleg h) (menvcfg h) x (pmpaddr0 h) (pmpcfg0 h) (sip h) (sepc h)
    (stvec h) (stimecmp h) (satp h) (scause h) (stval h) (time h) (sp h) (tp h) (ra h) (priv h) (pc h).
Definition set_pmpaddr0 (x : Z) (h : hart) : hart :=
  mkHart (mhartid h) (mstatus h) (mepc h) (mie h) (medeleg h) (mideleg h) (menvcfg h) (mcounteren h) x (pmpcfg0 h) (sip h) (sepc h)
    (stvec h) (stimecmp h) (satp h) (scause h) (stval h) (time h) (sp h) (tp h) (ra h) (priv h) (pc h).
Definition set_pmpcfg0 (x : Z) (h : hart) : hart :=
  mkHart (mhartid h) (mstatus h) (mepc h) (mie h) (medeleg h) (mideleg h) (menvcfg h) (mcounteren h) (pmpaddr0 h) x (sip h) (sepc h)
    (stvec h) (stimecmp h) (satp h) (scause h) (stval h) (time h) (sp h) (tp h) (ra h) (priv h) (pc h).
Definition set_sip (x : Z) (h : hart) : hart :=
  mkHart (mhartid h) (mstatus h) (mepc h) (mie h) (medeleg h) (mideleg h) (menvcfg h) (mcounteren h) (pmpaddr0 h) (pmpcfg0 h) x (sepc h)
    (stvec h) (stimecmp h) (satp h) (scause h) (stval h) (time h) (sp h) (tp h) (ra h) (priv h) (pc h).
Definition set_sepc (x : Z) (h : hart) : hart :=
  mkHart (mhartid h) (mstatus h) (mepc h) (mie h) (medeleg h) (mideleg h) (menvcfg h) (mcounteren h) (pmpaddr0 h) (pmpcfg0 h) (sip h) x
    (stvec h) (stimecmp h) (satp h) (scause h) (stval h) (time h) (sp h) (tp h) (ra h) (priv h) (pc h).
Definition set_stvec (x : Z) (h : hart) : hart :=
  mkHart (mhartid h) (mstatus h) (mepc h) (mie h) (medeleg h) (mideleg h) (menvcfg h) (mcounteren h) (pmpaddr0 h) (pmpcfg0 h) (sip h) (sepc h)
    x (stimecmp h) (satp h) (scause h) (stval h) (time h) (sp h) (tp h) (ra h) (priv h) (pc h).
Definition set_stimecmp (x : Z) (h : hart) : hart :=
  mkHart (mhartid h) (mstatus h) (mepc h) (mie h) (medeleg h) (mideleg h) (menvcfg h) (mcounteren h) (pmpaddr0 h) (pmpcfg0 h) (sip h) (sepc h)
    (stvec h) x (satp h) (scause h) (stval h) (time h) (sp h) (tp h) (ra h) (priv h) (pc h).
Definition set_satp (x : Z) (h : hart) : hart :=
  mkHart (mhartid h) (mstatus h) (mepc h) (mie h) (medeleg h) (mideleg h) (menvcfg h) (mcounteren h) (pmpaddr0 h) (pmpcfg0 h) (sip h) (sepc h)
    (stvec h) (stimecmp h) x (scause h) (stval h) (time h) (sp h) (tp h) (ra h) (priv h) (pc h).
Definition set_tp (x : Z) (h : hart) : hart :=
  mkHart (mhartid h) (mstatus h) (mepc h) (mie h) (medeleg h) (mideleg h) (menvcfg h) (mcounteren h) (pmpaddr0 h) (pmpcfg0 h) (sip h) (sepc h)
    (stvec h) (stimecmp h) (satp h) (scause h) (stval h) (time h) (sp h) x (ra h) (priv h) (pc h).
(** Continue at x in mode m. *)
Definition jump (m : mode) (x : Z) (h : hart) : hart :=
  mkHart (mhartid h) (mstatus h) (mepc h) (mie h) (medeleg h) (mideleg h) (menvcfg h) (mcounteren h) (pmpaddr0 h) (pmpcfg0 h) (sip h) (sepc h)
    (stvec h) (stimecmp h) (satp h) (scause h) (stval h) (time h) (sp h) (tp h) (ra h) m x.

(** ** Fields *)

Definition MSTATUS_MPP_MASK : Z := Z.shiftl 3 11.
Definition MSTATUS_MPP_M : Z := Z.shiftl 3 11.
Definition MSTATUS_MPP_S : Z := Z.shiftl 1 11.
Definition MSTATUS_MPP_U : Z := Z.shiftl 0 11.
Definition SSTATUS_SPP : Z := Z.shiftl 1 8.
Definition SSTATUS_SPIE : Z := Z.shiftl 1 5.
Definition SSTATUS_SIE : Z := Z.shiftl 1 1.
Definition SIE_SEIE : Z := Z.shiftl 1 9.
Definition SIE_STIE : Z := Z.shiftl 1 5.
Definition MIE_STIE : Z := Z.shiftl 1 5.
Definition SATP_SV39 : Z := Z.shiftl 8 60.
Definition MAKE_SATP (pagetable : Z) : Z := Z.lor SATP_SV39 (Z.shiftr pagetable 12).

(** The bits of mstatus that sstatus shows: SIE, SPIE, UBE, SPP, VS, FS, XS, SUM,
    MXR, UXL and SD. *)
Definition SSTATUS_BITS : Z := 0x80000003000DE762.

(** [under mask old x]: old with the bits of mask taken from x. *)
Definition under (mask old x : Z) : Z := Z.lor (Z.land old (Z.lnot mask)) (Z.land x mask).

(** ** Reading and writing *)

Definition r_mhartid (h : hart) : Z := mhartid h.
Definition r_mstatus (h : hart) : Z := mstatus h.
Definition r_sip (h : hart) : Z := sip h.
Definition r_mie (h : hart) : Z := mie h.
Definition r_sepc (h : hart) : Z := sepc h.
Definition r_medeleg (h : hart) : Z := medeleg h.
Definition r_mideleg (h : hart) : Z := mideleg h.
Definition r_stvec (h : hart) : Z := stvec h.
Definition r_stimecmp (h : hart) : Z := stimecmp h.
Definition r_menvcfg (h : hart) : Z := menvcfg h.
Definition r_satp (h : hart) : Z := satp h.
Definition r_scause (h : hart) : Z := scause h.
Definition r_stval (h : hart) : Z := stval h.
Definition r_mcounteren (h : hart) : Z := mcounteren h.
Definition r_time (h : hart) : Z := time h.
Definition r_sp (h : hart) : Z := sp h.
Definition r_tp (h : hart) : Z := tp h.
Definition r_ra (h : hart) : Z := ra h.
Definition w_mstatus (x : Z) (h : hart) : hart := set_mstatus (u64 x) h.
Definition w_mepc (x : Z) (h : hart) : hart := set_mepc (u64 x) h.
Definition w_sip (x : Z) (h : hart) : hart := set_sip (u64 x) h.
Definition w_mie (x : Z) (h : hart) : hart := set_mie (u64 x) h.
Definition w_sepc (x : Z) (h : hart) : hart := set_sepc (u64 x) h.
Definition w_medeleg (x : Z) (h : hart) : hart := set_medeleg (u64 x) h.
Definition w_mideleg (x : Z) (h : hart) : hart := set_mideleg (u64 x) h.
Definition w_stvec (x : Z) (h : hart) : hart := set_stvec (u64 x) h.
Definition w_stimecmp (x : Z) (h : hart) : hart := set_stimecmp (u64 x) h.
Definition w_menvcfg (x : Z) (h : hart) : hart := set_menvcfg (u64 x) h.
Definition w_pmpcfg0 (x : Z) (h : hart) : hart := set_pmpcfg0 (u64 x) h.
Definition w_pmpaddr0 (x : Z) (h : hart) : hart := set_pmpaddr0 (u64 x) h.
Definition w_satp (x : Z) (h : hart) : hart := set_satp (u64 x) h.
Definition w_mcounteren (x : Z) (h : hart) : hart := set_mcounteren (u64 x) h.
Definition w_tp (x : Z) (h : hart) : hart := set_tp (u64 x) h.
Definition r_sstatus (h : hart) : Z := Z.land (mstatus h) SSTATUS_BITS.
Definition w_sstatus (x : Z) (h : hart) : hart := set_mstatus (under SSTATUS_BITS (mstatus h) (u64 x)) h.
Definition r_sie (h : hart) : Z := Z.land (mie h) (mideleg h).
Definition w_sie (x : Z) (h : hart) : hart := set_mie (under (mideleg h) (mie h) (u64 x)) h.

Definition intr_on (h : hart) : hart := w_sstatus (Z.lor (r_sstatus h) SSTATUS_SIE) h.
Definition intr_off (h : hart) : hart := w_sstatus (Z.land (r_sstatus h) (Z.lnot SSTATUS_SIE)) h.
Definition intr_get (h : hart) : bool := negb (Z.land (r_sstatus h) SSTATUS_SIE =? 0).

(** ** What the hart does *)

Definition mode_of (mpp : Z) : mode := if mpp =? 3 then MachineMode else if mpp =? 1 then SupervisorMode else UserMode.
Definition mpp (h : hart) : Z := Z.land (Z.shiftr (mstatus h) 11) 3.
(** Bits 3, 7, 11-12 and 17 of mstatus: MIE, MPIE, MPP and MPRV. *)
Definition MRET_BITS : Z := Z.lor (Z.shiftl 1 3) (Z.lor (Z.shiftl 1 7) (Z.lor MSTATUS_MPP_MASK (Z.shiftl 1 17))).
(** mret: interrupts as before the trap, in the mode of MPP, at mepc. *)
Definition mret (h : hart) : hart :=
  let mpie := Z.testbit (mstatus h) 7 in
  let mprv := Z.testbit (mstatus h) 17 && (mpp h =? 3) in
  let x := Z.lor (if mpie then Z.shiftl 1 3 else 0) (Z.lor (Z.shiftl 1 7) (if mprv then Z.shiftl 1 17 else 0)) in
  jump (mode_of (mpp h)) (mepc h) (set_mstatus (under MRET_BITS (mstatus h) x) h).

(** Physical memory protection by its first entry, in the mode where it is the top
    of a range that starts at 0: whether an access of the kind of bit [kind] of
    the configuration (0 read, 1 write, 2 execute) to address a is allowed outside
    machine mode. *)
Definition pmp_allows (h : hart) (kind a : Z) : bool :=
  (Z.land (Z.shiftr (pmpcfg0 h) 3) 3 =? 1) && (a <? Z.shiftl (pmpaddr0 h) 2) && Z.testbit (pmpcfg0 h) kind.

(** An interrupt is taken in supervisor mode when it is delegated, enabled and
    interrupts are on (they are always on in user mode). *)
Definition takes_interrupt (h : hart) (i : Z) : bool :=
  Z.testbit (mideleg h) i && Z.testbit (mie h) i &&
  match priv h with
  | SupervisorMode => intr_get h
  | UserMode => true
  | MachineMode => false
  end.
