(* ===== verification/Boot.v ===== *)
(** * Starting the harts ([kernel/start.c], [kernel/main.c], [kernel/plic.c])

    [start] takes a hart from machine mode to [main] in supervisor mode.  The
    interrupt controller is a device whose registers are read and written at the
    addresses of its memory map.  [main] runs on all harts at once: its steps are
    the calls it makes, interleaved in any order. *)
From S2P Require Import Prelude Params Riscv.

(** ** start.c *)

Definition timerinit (h : hart) : hart :=
  let h := w_mie (Z.lor (r_mie h) MIE_STIE) h in
  let h := w_menvcfg (Z.lor (r_menvcfg h) (Z.shiftl 1 63)) h in
  let h := w_mcounteren (Z.lor (r_mcounteren h) 2) h in
  w_stimecmp (r_time h + 1000000) h.

(** [start] up to its mret; [main] is the address of the function. *)
Definition start_regs (main : Z) (h : hart) : hart :=
  let x := r_mstatus h in
  let x := Z.land x (Z.lnot MSTATUS_MPP_MASK) in
  let x := Z.lor x MSTATUS_MPP_S in
  let h := w_mstatus x h in
  let h := w_mepc main h in
  let h := w_satp 0 h in
  let h := w_medeleg 0xffff h in
  let h := w_mideleg 0xffff h in
  let h := w_sie (Z.lor (Z.lor (r_sie h) SIE_SEIE) SIE_STIE) h in
  let h := w_pmpaddr0 0x3fffffffffffff h in
  let h := w_pmpcfg0 0xf h in
  let h := timerinit h in
  let id := i32 (r_mhartid h) in
  w_tp id h.
Definition start (main : Z) (h : hart) : hart := mret (start_regs main h).

(** ** plic.c *)

Definition PLIC : Z := 0x0c000000.
Definition PLIC_SENABLE (hart : Z) : Z := PLIC + 0x2080 + hart * 0x100.
Definition PLIC_SPRIORITY (hart : Z) : Z := PLIC + 0x201000 + hart * 0x2000.
Definition PLIC_SCLAIM (hart : Z) : Z := PLIC + 0x201004 + hart * 0x2000.
Definition UART0_IRQ : Z := 10.
Definition VIRTIO0_IRQ : Z := 1.

(** The controller: for each source its priority and whether it is pending, for
    each context the enabled sources and the threshold. *)
Record plic : Set := mkPlic { priority : Z -> Z; pending : Z -> bool; enabled : Z -> Z -> bool; threshold : Z -> Z }.

Definition upd {A} (f : Z -> A) (k : Z) (v : A) : Z -> A := fun x => if x =? k then v else f x.

(** Its memory map: words of priorities from 0, 0x80 bytes of enable bits for each
    context from 0x2000, and from 0x200000 a page for each context with the
    threshold and the claim register. *)
Inductive plic_reg : Set := Priority (irq : Z) | Enable (ctx word : Z) | Threshold (ctx : Z) | Claim (ctx : Z) | NoReg.
Definition decode (addr : Z) : plic_reg :=
  let a := addr - PLIC in
  if (0 <? a) && (a <? 0x1000) && (a `mod` 4 =? 0) then Priority (a / 4)
  else if (0x2000 <=? a) && (a <? 0x200000) && (a `mod` 4 =? 0) then Enable ((a - 0x2000) / 0x80) ((a - 0x2000) `mod` 0x80 / 4)
  else if (0x200000 <=? a) && (a <? 0x4000000) then
    if a `mod` 0x1000 =? 0 then Threshold ((a - 0x200000) / 0x1000)
    else if a `mod` 0x1000 =? 4 then Claim ((a - 0x200000) / 0x1000)
    else NoReg
  else NoReg.

(** The source a claim returns: of the pending sources enabled for the context one
    of the highest priority, the lowest of them, or 0.  A priority of 0 means
    never. *)
Definition claimable (s : plic) (ctx irq : Z) : bool := pending s irq && enabled s ctx irq && (0 <? priority s irq).
Definition best (s : plic) (ctx : Z) : Z :=
  foldr (fun i r => if claimable s ctx i && ((r =? 0) || (priority s r <=? priority s i)) then i else r) 0 (seqZ 1 1023).
(** The context is interrupted. *)
Definition interrupts (s : plic) (ctx : Z) : Prop :=
  exists irq, 0 < irq < 1024 /\ claimable s ctx irq = true /\ threshold s ctx < priority s irq.

Definition plic_write (addr v : Z) (s : plic) : plic :=
  match decode addr with
  | Priority irq => mkPlic (upd (priority s) irq (u32 v)) (pending s) (enabled s) (threshold s)
  | Enable ctx word =>
      mkPlic (priority s) (pending s)
        (upd (enabled s) ctx (fun irq => if irq / 32 =? word then Z.testbit v (irq `mod` 32) else enabled s ctx irq)) (threshold s)
  | Threshold ctx => mkPlic (priority s) (pending s) (enabled s) (upd (threshold s) ctx (u32 v))
  | Claim _ | NoReg => s
  end.
(** A claim takes the source it returns. *)
Definition plic_read (addr : Z) (s : plic) : Z * plic :=
  match decode addr with
  | Claim ctx =>
      let irq := best s ctx in
      (irq, mkPlic (priority s) (upd (pending s) irq false) (enabled s) (threshold s))
  | Priority irq => (priority s irq, s)
  | Threshold ctx => (threshold s ctx, s)
  | _ => (0, s)
  end.

Definition plicinit (s : plic) : plic :=
  plic_write (PLIC + VIRTIO0_IRQ * 4) 1 (plic_write (PLIC + UART0_IRQ * 4) 1 s).
Definition plicinithart (cpuid : Z) (s : plic) : plic :=
  plic_write (PLIC_SPRIORITY cpuid) 0
    (plic_write (PLIC_SENABLE cpuid) (Z.lor (Z.shiftl 1 UART0_IRQ) (Z.shiftl 1 VIRTIO0_IRQ)) s).
Definition plic_claim (cpuid : Z) (s : plic) : Z * plic :=
  let r := plic_read (PLIC_SCLAIM cpuid) s in (i32 r.1, r.2).
Definition plic_complete (cpuid irq : Z) (s : plic) : plic := plic_write (PLIC_SCLAIM cpuid) irq s.

(** ** vm.c and trap.c: the registers of a hart *)

Definition kvminithart (kernel_pagetable : Z) (h : hart) : hart := w_satp (MAKE_SATP kernel_pagetable) h.
Definition trapinithart (kernelvec : Z) (h : hart) : hart := w_stvec kernelvec h.

(** ** main.c *)

(** The calls of [main]. *)
Inductive boot_call : Set :=
  | consoleinit | printfinit | boot_messages | kinit | kvminit | kvminithart_call | procinit | trapinit
  | trapinithart_call | plicinit_call | plicinithart_call | binit | iinit | fileinit | virtio_disk_init | userinit
  | set_started | await_started | hart_message | scheduler.
#[export] Instance boot_call_eq_dec : EqDecision boot_call.
Proof. solve_decision. Defined.

Definition main (cpuid : nat) : list boot_call :=
  (if (cpuid =? 0)%nat then
     [consoleinit; printfinit; boot_messages; kinit; kvminit; kvminithart_call; procinit; trapinit; trapinithart_call;
      plicinit_call; plicinithart_call; binit; iinit; fileinit; virtio_disk_init; userinit; set_started]
   else [await_started; hart_message; kvminithart_call; trapinithart_call; plicinithart_call]) ++ [scheduler].

(** The machine: started, what each hart still has to do, and what was done, by
    which hart, in order. *)
Record boot : Type := mkBoot { started : bool; todo : list (list boot_call); log : list (nat * boot_call) }.

(** A hart makes its next call; await_started is the loop on started. *)
Inductive boot_step : boot -> boot -> Prop :=
  | boot_run b i c rest : todo b !! i = Some (c :: rest) -> (c = await_started -> started b = true) ->
      boot_step b (mkBoot (started b || bool_decide (c = set_started)) (<[i := rest]> (todo b)) (log b ++ [(i, c)])).
Definition boot_init (ncpu : nat) : boot := mkBoot false (main <$> seq 0 ncpu) [].
