(* ===== verification/BootProps.v ===== *)
(** * Properties of the boot ([kernel/start.c], [kernel/main.c], [kernel/plic.c]) *)
From S2P Require Import Prelude Params Riscv Boot.

(** ** Bits *)

Lemma u64_testbit x i : 0 <= i < 64 -> Z.testbit (u64 x) i = Z.testbit x i.
Proof. intros Hi. unfold u64. by rewrite Z.mod_pow2_bits_low by lia. Qed.
Lemma under_testbit mask old x i : 0 <= i ->
  Z.testbit (under mask old x) i = if Z.testbit mask i then Z.testbit x i else Z.testbit old i.
Proof.
  intros Hi. unfold under. rewrite Z.lor_spec, !Z.land_spec, Z.lnot_spec by done.
  destruct (Z.testbit mask i); cbn; by rewrite ?andb_false_r, ?andb_true_r, ?orb_false_r.
Qed.
Lemma land_1_bit x i : 0 <= i -> negb (Z.land x (Z.shiftl 1 i) =? 0) = Z.testbit x i.
Proof.
  intros Hi. rewrite Z.shiftl_1_l. destruct (Z.testbit x i) eqn:Hb.
  - destruct (Z.eqb_spec (Z.land x (2 ^ i)) 0) as [E|]; [|done]. exfalso.
    apply (f_equal (fun y => Z.testbit y i)) in E. by rewrite Z.land_spec, Z.pow2_bits_true, Hb, Z.bits_0 in E.
  - destruct (Z.eqb_spec (Z.land x (2 ^ i)) 0) as [|E]; [done|]. exfalso. apply E, Z.bits_inj'. intros n Hn.
    rewrite Z.land_spec, Z.bits_0, Z.pow2_bits_eqb by done. destruct (Z.eqb_spec i n); [subst; by rewrite Hb|by rewrite andb_false_r].
Qed.
Lemma intr_get_bit h : intr_get h = Z.testbit (mstatus h) 1.
Proof.
  unfold intr_get, SSTATUS_SIE. rewrite land_1_bit by lia. unfold r_sstatus. rewrite Z.land_spec.
  change (Z.testbit SSTATUS_BITS 1) with true. apply andb_true_r.
Qed.

(** intr_on and intr_off do what they say, and change nothing else of sstatus. *)
Lemma intr_on_get h : intr_get (intr_on h) = true.
Proof.
  rewrite intr_get_bit. unfold intr_on, w_sstatus. cbn [mstatus set_mstatus]. rewrite under_testbit by lia.
  change (Z.testbit SSTATUS_BITS 1) with true. cbv iota. rewrite u64_testbit, Z.lor_spec by lia.
  change (Z.testbit SSTATUS_SIE 1) with true. apply orb_true_r.
Qed.
Lemma intr_off_get h : intr_get (intr_off h) = false.
Proof.
  rewrite intr_get_bit. unfold intr_off, w_sstatus. cbn [mstatus set_mstatus]. rewrite under_testbit by lia.
  change (Z.testbit SSTATUS_BITS 1) with true. cbv iota. rewrite u64_testbit, Z.land_spec by lia.
  change (Z.testbit (Z.lnot SSTATUS_SIE) 1) with false. apply andb_false_r.
Qed.

(** ** start *)

Lemma mpp_S x : Z.land (Z.shiftr (u64 (Z.lor (Z.land x (Z.lnot MSTATUS_MPP_MASK)) MSTATUS_MPP_S)) 11) 3 = 1.
Proof.
  apply Z.bits_inj'. intros n Hn. rewrite Z.land_spec, Z.shiftr_spec by done.
  destruct (decide (n = 0)) as [->|]; [|destruct (decide (n = 1)) as [->|]].
  - rewrite u64_testbit, Z.lor_spec, Z.land_spec, Z.lnot_spec by lia.
    change (Z.testbit MSTATUS_MPP_S (0 + 11)) with true. by rewrite orb_true_r.
  - rewrite u64_testbit, Z.lor_spec, Z.land_spec, Z.lnot_spec by lia.
    change (Z.testbit MSTATUS_MPP_S (1 + 11)) with false. change (Z.testbit MSTATUS_MPP_MASK (1 + 11)) with true.
    by rewrite andb_false_r.
  - rewrite (Z.bits_above_log2 3), (Z.bits_above_log2 1), andb_false_r by (cbn; lia). done.
Qed.

Section start.
Context (main : Z) (h : hart).
Let r := start_regs main h.

Lemma start_mstatus : mstatus r = u64 (Z.lor (Z.land (mstatus h) (Z.lnot MSTATUS_MPP_MASK)) MSTATUS_MPP_S).
Proof. done. Qed.

Lemma start_mode : priv (start main h) = SupervisorMode.
Proof. unfold start, mret. fold r. cbn [priv jump]. unfold mpp. by rewrite start_mstatus, mpp_S. Qed.

(** Interrupts of the supervisor are on or off as before. *)
Lemma start_intr : intr_get (start main h) = intr_get h.
Proof.
  rewrite !intr_get_bit. unfold start, mret. fold r. cbn [mstatus jump set_mstatus]. rewrite under_testbit by lia.
  change (Z.testbit MRET_BITS 1) with false. cbv iota. rewrite start_mstatus, u64_testbit, Z.lor_spec, Z.land_spec by lia.
  change (Z.testbit MSTATUS_MPP_S 1) with false. change (Z.testbit (Z.lnot MSTATUS_MPP_MASK) 1) with true.
  by rewrite andb_true_r, orb_false_r.
Qed.

(** External (9) and timer (5) interrupts are enabled: mideleg is written before
    sie, which only reaches delegated bits. *)
Lemma start_mie i : i = 5 \/ i = 9 -> Z.testbit (mie (start main h)) i = true.
Proof.
  intros Hi. assert (0 <= i < 64) by lia.
  assert (mie (start main h) = u64 (Z.lor (under (u64 0xffff) (mie h)
    (u64 (Z.lor (Z.lor (Z.land (mie h) (u64 0xffff)) SIE_SEIE) SIE_STIE))) MIE_STIE)) as -> by done.
  rewrite u64_testbit, Z.lor_spec, under_testbit, !u64_testbit, !Z.lor_spec by lia.
  destruct Hi as [-> | ->].
  - change (Z.testbit MIE_STIE 5) with true. apply orb_true_r.
  - change (Z.testbit 0xffff 9) with true. change (Z.testbit SIE_SEIE 9) with true.
    by rewrite orb_true_r.
Qed.

Lemma start_pmp kind a : kind = 0 \/ kind = 1 \/ kind = 2 -> a < 2^56 - 4 -> pmp_allows (start main h) kind a = true.
Proof.
  intros Hk Ha. unfold pmp_allows. change (pmpcfg0 (start main h)) with 0xf.
  change (Z.shiftl (pmpaddr0 (start main h)) 2) with (2^56 - 4). destruct (Z.ltb_spec a (2^56 - 4)); [|lia].
  by destruct Hk as [->|[-> | ->]].
Qed.
End start.

(** What [start] leaves behind. *)
Record started_hart (main : Z) (h h' : hart) : Prop := {
  sh_mode : priv h' = SupervisorMode;
  sh_pc : pc h' = main;
  sh_paging : satp h' = 0;
  sh_delegated : forall i, 0 <= i < 16 -> Z.testbit (medeleg h') i = true /\ Z.testbit (mideleg h') i = true;
  sh_interrupts : forall i, i = 5 \/ i = 9 -> takes_interrupt h' i = intr_get h;
  sh_memory : forall kind a, kind = 0 \/ kind = 1 \/ kind = 2 -> 0 <= a < 2^56 - 4 -> pmp_allows h' kind a = true;
  sh_timer : Z.testbit (menvcfg h') 63 = true /\ Z.testbit (mcounteren h') 1 = true /\ stimecmp h' = u64 (time h + 1000000);
  sh_hartid : tp h' = mhartid h }.

Lemma start_spec main h : 0 <= main < 2^64 -> 0 <= mhartid h < 2^31 -> started_hart main h (start main h).
Proof.
  intros Hm Hid. split.
  - apply start_mode.
  - change (u64 main = main). by apply u64_id.
  - done.
  - intros i Hi. change (medeleg (start main h)) with 0xffff. change (mideleg (start main h)) with 0xffff.
    assert (Z.testbit (Z.ones 16) i = true) by (apply Z.ones_spec_low; lia). done.
  - intros i Hi. unfold takes_interrupt. rewrite start_mode, start_intr, start_mie by done.
    change (mideleg (start main h)) with 0xffff. by destruct Hi as [-> | ->].
  - intros kind a Hk Ha. apply start_pmp; [done|lia].
  - split_and!.
    + change (menvcfg (start main h)) with (u64 (Z.lor (menvcfg h) (Z.shiftl 1 63))).
      rewrite u64_testbit, Z.lor_spec by lia. apply orb_true_r.
    + change (mcounteren (start main h)) with (u64 (Z.lor (mcounteren h) 2)).
      rewrite u64_testbit, Z.lor_spec by lia. apply orb_true_r.
    + done.
  - change (u64 (i32 (mhartid h)) = mhartid h). rewrite i32_id, u64_id; lia.
Qed.

(** ** The interrupt controller *)

Ltac each_hart hart :=
  assert (hart = 0 \/ hart = 1 \/ hart = 2 \/ hart = 3 \/ hart = 4 \/ hart = 5 \/ hart = 6 \/ hart = 7) as Hcases by lia;
  by repeat destruct Hcases as [->|Hcases]; [..|subst].

(** The addresses of the macros are those of the supervisor context of the hart. *)
Lemma decode_enable hart : 0 <= hart < 8 -> decode (PLIC_SENABLE hart) = Enable (2 * hart + 1) 0.
Proof. intros Hh. each_hart hart. Qed.
Lemma decode_threshold hart : 0 <= hart < 8 -> decode (PLIC_SPRIORITY hart) = Threshold (2 * hart + 1).
Proof. intros Hh. each_hart hart. Qed.
Lemma decode_claim hart : 0 <= hart < 8 -> decode (PLIC_SCLAIM hart) = Claim (2 * hart + 1).
Proof. intros Hh. each_hart hart. Qed.

Definition device_irq (irq : Z) : Prop := irq = UART0_IRQ \/ irq = VIRTIO0_IRQ.
#[export] Instance device_irq_dec irq : Decision (device_irq irq).
Proof. unfold device_irq. apply _. Defined.

(** The controller after a reset: no priorities, nothing enabled. *)
Definition plic_reset (s : plic) : Prop := (forall irq, priority s irq = 0) /\ (forall ctx irq, enabled s ctx irq = false).

Lemma plicinit_priority s irq : (forall irq, priority s irq = 0) -> priority (plicinit s) irq = if decide (device_irq irq) then 1 else 0.
Proof.
  intros Hs. change (priority (plicinit s)) with (upd (upd (priority s) 10 1) 1 1). unfold upd.
  destruct (decide (device_irq irq)) as [[-> | ->]|Hn]; [done|done|].
  destruct (Z.eqb_spec irq 1) as [->|]; [by destruct Hn; right|]. destruct (Z.eqb_spec irq 10) as [->|]; [by destruct Hn; left|]. apply Hs.
Qed.

Lemma enable_bits irq : 0 <= irq < 32 -> Z.testbit (Z.lor (Z.shiftl 1 UART0_IRQ) (Z.shiftl 1 VIRTIO0_IRQ)) irq = bool_decide (device_irq irq).
Proof.
  intros Hi. rewrite Z.lor_spec, !Z.shiftl_1_l, !Z.pow2_bits_eqb by done. unfold UART0_IRQ, VIRTIO0_IRQ.
  destruct (bool_decide_reflect (device_irq irq)) as [[-> | ->]|Hn]; [done|done|].
  destruct (Z.eqb_spec 10 irq) as [<-|]; [by destruct Hn; left|]. by destruct (Z.eqb_spec 1 irq) as [<-|]; [destruct Hn; right|].
Qed.

(** What each step of the configuration leaves. *)
Lemma plicinithart_spec hart s : 0 <= hart < 8 ->
  plicinithart hart s = mkPlic (priority s) (pending s)
    (upd (enabled s) (2 * hart + 1) (fun irq => if irq / 32 =? 0 then Z.testbit (Z.lor (Z.shiftl 1 UART0_IRQ) (Z.shiftl 1 VIRTIO0_IRQ)) (irq `mod` 32)
       else enabled s (2 * hart + 1) irq)) (upd (threshold s) (2 * hart + 1) 0).
Proof.
  intros Hh. unfold plicinithart, plic_write. rewrite decode_enable, decode_threshold by done. done.
Qed.

(** [configured hs s]: plicinit was called, and plicinithart for the harts hs. *)
Record configured (hs : list Z) (s : plic) : Prop := {
  cf_priority irq : priority s irq = if decide (device_irq irq) then 1 else 0;
  cf_enabled hart irq : hart ∈ hs -> 0 < irq < 1024 -> enabled s (2 * hart + 1) irq = bool_decide (device_irq irq);
  cf_threshold hart : hart ∈ hs -> threshold s (2 * hart + 1) = 0;
  cf_off hart irq : 0 < irq < 1024 -> hart ∉ hs -> enabled s (2 * hart + 1) irq = false }.

Lemma device_small irq : device_irq irq -> 0 <= irq < 32.
Proof. unfold device_irq, UART0_IRQ, VIRTIO0_IRQ. lia. Qed.

Lemma plic_configured hs s : plic_reset s -> Forall (fun hart => 0 <= hart < 8) hs ->
  configured hs (foldr plicinithart (plicinit s) hs) /\ pending (foldr plicinithart (plicinit s) hs) = pending s.
Proof.
  intros [Hp He] Hhs. induction Hhs as [|hart hs Hh _ [IH Hpend]]; cbn [foldr].
  - split; [|done]. split; [intros irq; by apply plicinit_priority|set_solver|set_solver|]. intros hart irq _ _. apply He.
  - rewrite plicinithart_spec by done. split; [|done]. split; cbn [priority enabled threshold]; unfold upd.
    + apply IH.
    + intros hart' irq Hin Hirq. destruct (Z.eqb_spec (2 * hart' + 1) (2 * hart + 1)) as [E|E].
      * destruct (Z.eqb_spec (irq / 32) 0) as [E0|E0].
        { apply Z.div_small_iff in E0; [|lia]. rewrite Z.mod_small, enable_bits by lia. done. }
        assert (~ device_irq irq) as Hn by (intros Hd%device_small; by rewrite Z.div_small in E0). rewrite bool_decide_eq_false_2 by done.
        destruct (decide (hart ∈ hs)) as [Hin'|Hin']; [rewrite (cf_enabled _ _ IH) by done; by apply bool_decide_eq_false_2|by apply IH].
      * apply IH; [set_solver by lia|done].
    + intros hart' Hin. destruct (Z.eqb_spec (2 * hart' + 1) (2 * hart + 1)); [done|]. apply IH. set_solver by lia.
    + intros hart' irq Hirq Hin. destruct (Z.eqb_spec (2 * hart' + 1) (2 * hart + 1)); [exfalso; set_solver by lia|]. apply IH; set_solver.
Qed.

(** ** Claims *)

Lemma best_spec s ctx : let r := best s ctx in
  (r = 0 /\ forall i, 0 < i < 1024 -> claimable s ctx i = false) \/
  (0 < r < 1024 /\ claimable s ctx r = true /\ forall i, 0 < i < 1024 -> claimable s ctx i = true -> priority s i <= priority s r).
Proof.
  unfold best. assert (forall l, Forall (fun i => 0 < i) l ->
    let r := foldr (fun i r => if claimable s ctx i && ((r =? 0) || (priority s r <=? priority s i)) then i else r) 0 l in
    (r = 0 /\ forall i, i ∈ l -> claimable s ctx i = false) \/
    (r ∈ l /\ claimable s ctx r = true /\ forall i, i ∈ l -> claimable s ctx i = true -> priority s i <= priority s r)) as Hl.
  { intros l Hl. induction Hl as [|i l Hi Hl IH]; cbn [foldr]; [left; split; [done|set_solver]|].
    set (r := foldr _ 0 l) in *. destruct (claimable s ctx i) eqn:Hc; cbn [andb].
    - destruct IH as [[-> IH]|(Hr & Hcr & IH)].
      + right. cbn [Z.eqb orb]. split_and!; [by left|done|]. intros j [->|Hj]%elem_of_cons Hcj; [lia|]. rewrite IH in Hcj by done. done.
      + assert (0 < r) by (rewrite Forall_forall in Hl; by apply Hl). destruct (Z.eqb_spec r 0); [lia|]. cbn [orb]. right.
        destruct (Z.leb_spec (priority s r) (priority s i)); split_and!; try done; [by left| |by right|].
        all: intros j [->|Hj]%elem_of_cons Hcj; try lia; specialize (IH j Hj Hcj); lia.
    - destruct IH as [[-> IH]|(Hr & Hcr & IH)]; [left|right].
      + split; [done|]. intros j [->|Hj]%elem_of_cons; [done|auto].
      + split_and!; [by right|done|]. intros j [->|Hj]%elem_of_cons Hcj; [congruence|auto]. }
  destruct (Hl (seqZ 1 1023)) as [[E Hn]|(Hr & Hc & Hm)].
  - apply Forall_forall. intros i Hi%elem_of_seqZ. lia.
  - left. split; [done|]. intros i Hi. apply Hn, elem_of_seqZ. lia.
  - right. apply elem_of_seqZ in Hr as Hr'. split_and!; [lia|lia|done|]. intros i Hi. apply Hm, elem_of_seqZ. lia.
Qed.

(** A configured controller interrupts a hart exactly for the uart and the disk,
    and a claim takes one of these that is pending. *)
Record plic_serves (hart : Z) (s : plic) : Prop := {
  ps_interrupts : interrupts s (2 * hart + 1) <-> exists irq, device_irq irq /\ pending s irq = true;
  ps_claim : let r := plic_claim hart s in
    (r.1 = 0 /\ forall irq, device_irq irq -> pending s irq = false) \/
    (device_irq r.1 /\ pending s r.1 = true /\ pending r.2 = upd (pending s) r.1 false) }.

Lemma configured_serves hs s hart : configured hs s -> hart ∈ hs -> 0 <= hart < 8 -> plic_serves hart s.
Proof.
  intros Hc Hin Hh. assert (forall irq, 0 < irq < 1024 ->
    claimable s (2 * hart + 1) irq = true <-> device_irq irq /\ pending s irq = true) as Hcl.
  { intros irq Hirq. unfold claimable. rewrite (cf_enabled _ _ Hc), (cf_priority _ _ Hc) by done.
    destruct (decide (device_irq irq)), (pending s irq); [rewrite bool_decide_eq_true_2 by done|rewrite bool_decide_eq_true_2 by done
      |rewrite bool_decide_eq_false_2 by done|rewrite bool_decide_eq_false_2 by done]; cbn; naive_solver. }
  assert (forall irq, device_irq irq -> 0 < irq < 1024) as Hr by (unfold device_irq, UART0_IRQ, VIRTIO0_IRQ; lia).
  split.
  - split.
    + intros (irq & Hirq & Hcl' & _). apply Hcl in Hcl'; [|done]. eauto.
    + intros (irq & Hd & Hp). exists irq. split; [by apply Hr|]. split; [by apply Hcl; [apply Hr|]|].
      rewrite (cf_threshold _ _ Hc), (cf_priority _ _ Hc), decide_True by done. lia.
  - unfold plic_claim, plic_read. rewrite decode_claim by done. cbn [fst snd pending].
    destruct (best_spec s (2 * hart + 1)) as [[-> Hn]|(Hb & Hbc & _)].
    + left. split; [done|]. intros irq Hd. specialize (Hn irq (Hr irq Hd)). destruct (pending s irq) eqn:Hp; [|done].
      by rewrite (proj2 (Hcl irq (Hr irq Hd))) in Hn.
    + right. rewrite i32_id by lia. apply Hcl in Hbc as [Hd Hp]; done.
Qed.

(** ** The order of the calls *)

Definition calls (i : nat) (l : list (nat * boot_call)) : list boot_call := snd <$> filter (fun e => e.1 = i) l.
Lemma calls_app i l1 l2 : calls i (l1 ++ l2) = calls i l1 ++ calls i l2.
Proof. unfold calls. by rewrite filter_app, fmap_app. Qed.
Lemma calls_cons i j c l : calls i ((j, c) :: l) = (if decide (j = i) then [c] else []) ++ calls i l.
Proof. unfold calls. rewrite filter_cons. cbn. by destruct (decide (j = i)). Qed.
Lemma elem_of_calls i c l : c ∈ calls i l <-> (i, c) ∈ l.
Proof.
  unfold calls. rewrite list_elem_of_fmap. split.
  - intros ([j c'] & -> & [E Hin]%list_elem_of_filter). cbn in *. by subst.
  - intros Hin. exists (i, c). split; [done|]. by apply list_elem_of_filter.
Qed.

Section order.
Context (ncpu : nat).

Record boot_inv (b : boot) : Prop := {
  bi_harts : length (todo b) = ncpu;
  bi_todo i t : todo b !! i = Some t -> calls i (log b) ++ t = main i;
  bi_known i c : (i, c) ∈ log b -> (i < ncpu)%nat;
  bi_started : started b = true <-> (0%nat, set_started) ∈ log b;
  bi_after l1 i c l2 : log b = l1 ++ (i, c) :: l2 -> i <> 0%nat -> (0%nat, set_started) ∈ l1 }.

Lemma boot_inv_init : boot_inv (boot_init ncpu).
Proof.
  split; cbn.
  - by rewrite length_fmap, length_seq.
  - intros i t. rewrite list_lookup_fmap. intros (j & Hj & ->)%fmap_Some. apply lookup_seq in Hj as [-> _]. done.
  - intros i c Hin. by apply not_elem_of_nil in Hin.
  - split; [done|]. intros Hin. by apply not_elem_of_nil in Hin.
  - intros l1 i c l2 E. by destruct l1.
Qed.

(** A hart other than 0 has waited before its other calls. *)
Lemma head_is_wait i c rest : i <> 0%nat -> main i = c :: rest -> c = await_started.
Proof. intros Hi. unfold main. destruct (Nat.eqb_spec i 0); [done|]. by intros [= <-]. Qed.

Lemma boot_inv_step b b' : boot_inv b -> boot_step b b' -> boot_inv b'.
Proof.
  intros Hb. destruct 1 as [b i c rest Hi Hwait]. pose proof (bi_todo _ Hb _ _ Hi) as Hmain. split; cbn [todo log started].
  - rewrite length_insert. apply Hb.
  - intros j t. rewrite list_lookup_insert_Some. intros [(<- & <- & _)|[Hne Hj]].
    + rewrite calls_app, calls_cons, decide_True by done. cbn. by rewrite <- app_assoc.
    + rewrite calls_app, calls_cons, decide_False by congruence. cbn. rewrite app_nil_r. by apply Hb.
  - intros j d [Hin|Hin]%elem_of_app; [by eapply Hb|]. apply list_elem_of_singleton in Hin as [= -> ->].
    rewrite <- (bi_harts _ Hb). by eapply lookup_lt_Some.
  - rewrite orb_true_iff, bool_decide_eq_true, elem_of_app, list_elem_of_singleton, (bi_started _ Hb).
    split; [intros [?| ->]; [by left|right]|intros [?|[= _ <-]]; auto]. f_equal.
    destruct i as [|i]; [done|]. exfalso. assert (set_started ∈ main (S i)) as Hin.
    { rewrite <- Hmain. apply elem_of_app. right. by left. }
    cbn in Hin. by repeat apply elem_of_cons in Hin as [Hin|Hin]; [..|apply not_elem_of_nil in Hin].
  - intros l1 j d l2 E Hj. destruct l2 as [|x l2 _] using rev_ind.
    + apply app_inj_tail in E as [<- [= -> ->]]. destruct (calls j (log b)) as [|e l] eqn:Hc.
      * cbn in Hmain. apply (bi_started _ Hb), Hwait. symmetry in Hmain. by eapply head_is_wait.
      * assert ((j, e) ∈ log b) as Hd by (apply elem_of_calls; rewrite Hc; by left).
        apply list_elem_of_split in Hd as (la & lb & Hlog). rewrite Hlog. apply elem_of_app. left. by eapply Hb.
    + rewrite app_comm_cons, app_assoc in E. apply app_inj_tail in E as [E _]. by eapply Hb.
Qed.

(** What is set up once, by hart 0, and what each hart sets up for itself. *)
Definition shared_inits : list boot_call :=
  [consoleinit; printfinit; kinit; kvminit; procinit; trapinit; plicinit_call; binit; iinit; fileinit; virtio_disk_init; userinit].
Definition hart_inits : list boot_call := [kvminithart_call; trapinithart_call; plicinithart_call].
Definition all_by (i : nat) (cs : list boot_call) (l : list (nat * boot_call)) : Prop := forall c, c ∈ cs -> (i, c) ∈ l.

Lemma all_by_calls i cs l : (forall c, c ∈ cs -> c ∈ calls i l) -> all_by i cs l.
Proof. intros Hc c Hin. by apply elem_of_calls, Hc. Qed.

Lemma pivot_inj {A} (x : A) l r body : x ∉ body -> l ++ x :: r = body ++ [x] -> l = body.
Proof.
  revert body. induction l as [|y l IH]; intros [|z body] Hx E; cbn in *; simplify_eq; [done|set_solver| |].
  - by destruct l.
  - f_equal. apply IH; [set_solver|done].
Qed.

Lemma subset_bool (xs ys : list boot_call) : bool_decide (Forall (fun c => c ∈ ys) xs) = true -> forall c, c ∈ xs -> c ∈ ys.
Proof. intros Hb%bool_decide_eq_true c. by rewrite Forall_forall in Hb; apply Hb. Qed.

Lemma started_prefix p r : p ++ r = main 0 -> set_started ∈ p -> forall c, c ∈ shared_inits -> c ∈ p.
Proof.
  intros E Hin. apply list_elem_of_split in Hin as (l1 & l2 & ->). rewrite <- app_assoc in E. cbn [app] in E.
  assert (exists body, main 0 = (body ++ [set_started]) ++ [scheduler] /\ set_started ∉ body /\
    bool_decide (Forall (fun c => c ∈ body) shared_inits) = true) as (body & Hm & Hnot & Hsub).
  { eexists [_; _; _; _; _; _; _; _; _; _; _; _; _; _; _; _]. split; [reflexivity|]. split; [|by vm_compute].
    apply (bool_decide_unpack _). by vm_compute. }
  intros c Hc. apply elem_of_app. left. assert (l1 = body) as ->; [|by eapply subset_bool].
  rewrite Hm in E. destruct (l2 ++ r) as [|x l _] using rev_ind.
  - apply app_inj_tail in E as [_ ?]. done.
  - rewrite app_comm_cons, app_assoc in E. apply app_inj_tail in E as [E _]. by eapply pivot_inj.
Qed.

Lemma boot_order b l1 i c l2 : boot_inv b -> log b = l1 ++ (i, c) :: l2 ->
  (i <> 0%nat \/ c = scheduler -> all_by 0 shared_inits l1) /\ (c = scheduler -> all_by i hart_inits l1).
Proof.
  intros Hb E.
  assert ((i < ncpu)%nat) as Hi by (apply (bi_known _ Hb i c); rewrite E; apply elem_of_app; right; by left).
  assert (forall j, (j < ncpu)%nat -> exists t, calls j l1 ++ calls j ((i, c) :: l2) ++ t = main j) as Hpre.
  { intros j Hj. rewrite <- (bi_harts _ Hb) in Hj. apply lookup_lt_is_Some in Hj as [t Ht]. exists t.
    rewrite app_assoc, <- calls_app, <- E. by apply Hb. }
  assert (c = scheduler -> calls i l1 ++ [scheduler] = main i) as Hsched.
  { intros ->. destruct (Hpre i Hi) as [t Ht]. rewrite calls_cons, decide_True in Ht by done. cbn in Ht.
    unfold main in *. f_equal. eapply pivot_inj; [|exact Ht]. destruct (i =? 0)%nat; apply (bool_decide_unpack _); by vm_compute. }
  split.
  - intros Hor. apply all_by_calls. destruct (Hpre 0%nat) as [t Ht]; [lia|]. apply (started_prefix _ _ Ht).
    destruct (decide (i = 0%nat)) as [->|Hne]; [|by apply elem_of_calls; eapply bi_after].
    destruct Hor as [|Hc]; [done|]. specialize (Hsched Hc). unfold main in Hsched. apply app_inj_tail in Hsched as [-> _].
    apply (bool_decide_unpack _). by vm_compute.
  - intros Hc. specialize (Hsched Hc). unfold main in Hsched. apply app_inj_tail in Hsched as [Hs _]. apply all_by_calls.
    rewrite Hs. apply subset_bool. destruct (i =? 0)%nat; by vm_compute.
Qed.

(** No hart waits for ever: while a hart has calls to make, some hart can make one. *)
Lemma boot_progress b : boot_inv b -> Forall (fun t => t = []) (todo b) \/ exists b', boot_step b b'.
Proof.
  intros Hb. destruct (decide (Forall (fun t => t = []) (todo b))) as [|Hn]; [by left|right].
  apply not_Forall_Exists, Exists_exists in Hn as (t & (i & Hi)%list_elem_of_lookup & Hne); [|apply _].
  destruct t as [|c rest]; [by destruct Hne|]. destruct (todo b !! 0%nat) as [[|c0 rest0]|] eqn:H0.
  - eexists. eapply (boot_run b i c rest Hi). intros _. apply (bi_started _ Hb), elem_of_calls.
    pose proof (bi_todo _ Hb _ _ H0) as Hm. rewrite app_nil_r in Hm. rewrite Hm. apply (bool_decide_unpack _). by vm_compute.
  - eexists. eapply (boot_run b 0%nat c0 rest0 H0). intros ->. exfalso.
    pose proof (bi_todo _ Hb _ _ H0) as Hm. assert (await_started ∈ main 0) as Hin by (rewrite <- Hm; apply elem_of_app; right; by left).
    revert Hin. apply (bool_decide_unpack _). by vm_compute.
  - apply lookup_ge_None in H0. apply lookup_lt_Some in Hi. lia.
Qed.
End order.

Lemma lor_disjoint a b n : 0 <= n -> 0 <= b < 2 ^ n -> Z.lor (Z.shiftl a n) b = Z.shiftl a n + b.
Proof.
  intros Hn Hb. rewrite <- Z.lxor_lor, Z.add_nocarry_lxor; try done.
  all: apply Z.bits_inj'; intros k Hk; rewrite Z.land_spec, Z.bits_0, Z.shiftl_spec by done.
  all: destruct (decide (k < n)); [by rewrite (Z.testbit_neg_r a) by lia|].
  all: rewrite <- (Z.mod_small b (2 ^ n)), Z.mod_pow2_bits_high, andb_false_r by lia; done.
Qed.

(** kvminithart turns on the three-level translation with the kernel's table, given
    by its page number. *)
Lemma kvminithart_satp q h : 0 <= q < 2^44 ->
  let x := satp (kvminithart (q * 4096) h) in Z.shiftr x 60 = 8 /\ Z.land x (Z.ones 44) = q.
Proof.
  intros Hq x. assert (x = 8 * 2^60 + q) as ->.
  { unfold x, kvminithart, w_satp, MAKE_SATP, SATP_SV39. cbn [satp set_satp]. rewrite Z.shiftr_div_pow2 by lia.
    change (2^12) with 4096. rewrite Z.div_mul, lor_disjoint by lia. change (Z.shiftl 8 60) with (8 * 2^60). apply u64_id. lia. }
  split.
  - rewrite Z.shiftr_div_pow2, Z.add_comm, Z.div_add, Z.div_small by lia. done.
  - rewrite Z.land_ones by lia. replace (8 * 2^60 + q) with (q + 2^19 * 2^44) by lia. by rewrite Z.mod_add, Z.mod_small by lia.
Qed.


