(* ===== verification/Frame.v ===== *)
(** * What code does not touch

    A handler either returns, goes to sleep, or (exit) ends in the scheduler;
    [wlx] speaks of the first and the last.  [frame vw m]: the part [vw] of
    the kernel's state is the same before and after [m]. *)
From S2P Require Import Prelude Params Sleeplock CString Interfaces Log BlockInst Fs Kalloc Vm Pipe Console Kernel.

Definition wlx {S A} (m : M S A) (s : S) (Q : A -> S -> Prop) (X : S -> Prop) : Prop :=
  match m s with
  | Ret a s' _ => Q a s'
  | Sleep ChSched s' _ => X s'
  | _ => True
  end.

Section wlx_rules.
Context {S : Type}.

Lemma wlx_bind {A B} (m : M S A) (f : A -> M S B) s Q X :
  wlx m s (fun a s1 => wlx (f a) s1 Q X) X -> wlx (bind m f) s Q X.
Proof.
  unfold wlx, bind. destruct (m s) as [a s1 t1| |c s1 t1]; [|done|done].
  by destruct (f a s1) as [| |[]].
Qed.

Lemma wlx_mono {A} (m : M S A) s (P Q : A -> S -> Prop) (X Y : S -> Prop) :
  wlx m s P X -> (forall a s', P a s' -> Q a s') -> (forall s', X s' -> Y s') -> wlx m s Q Y.
Proof. unfold wlx. destruct (m s) as [| |[]]; auto. Qed.

Lemma wlx_zoom {T A} (get : S -> T) (put : T -> S -> S) (m : M T A) s (Q : A -> S -> Prop) (X : S -> Prop) :
  (forall a t, Q a (put t s)) -> (forall t, X (put t s)) -> wlx (zoom get put m) s Q X.
Proof. intros HQ HX. unfold wlx, zoom. by destruct (m (get s)) as [| |[]]. Qed.

Lemma wlx_ret {A} (a : A) s (Q : A -> S -> Prop) X : Q a s -> wlx (ret a) s Q X.
Proof. done. Qed.
Lemma wlx_gets {A} (f : S -> A) s (Q : A -> S -> Prop) X : Q (f s) s -> wlx (gets f) s Q X.
Proof. done. Qed.
Lemma wlx_modify (f : S -> S) s (Q : unit -> S -> Prop) X : Q tt (f s) -> wlx (modify f) s Q X.
Proof. done. Qed.
Lemma wlx_emit e s (Q : unit -> S -> Prop) X : Q tt s -> wlx (emit e) s Q X.
Proof. done. Qed.
Lemma wlx_panic {A} msg s (Q : A -> S -> Prop) X : wlx (panic msg) s Q X.
Proof. done. Qed.

(** [I j] holds before iteration j. *)
Lemma wlx_iter (I : Z -> S -> Prop) (n : Z) (body : Z -> M S unit) s X : 0 <= n ->
  I 0 s -> (forall j s1, 0 <= j < n -> I j s1 -> wlx (body j) s1 (fun _ s2 => I (j + 1) s2) X) ->
  wlx (iter n body) s (fun _ s' => I n s') X.
Proof.
  intros Hn HI Hbody. apply wlx_bind.
  assert (forall m i s1, 0 <= i -> i + Z.of_nat m = n -> I i s1 ->
    wlx (for_from (R:=unit) m i (fun i => body i ;;; ret None)) s1 (fun _ s2 => I n s2) X) as Hloop.
  { intros m. induction m as [|m IH]; intros i s1 Hi Hm H1; cbn [for_from].
    - apply wlx_ret. by replace n with i by lia.
    - apply wlx_bind, wlx_bind. eapply wlx_mono; [apply Hbody; [lia|exact H1]| |done].
      cbn beta. intros _ s2 H2. apply wlx_ret. apply IH; [lia|lia|done]. }
  eapply wlx_mono; [apply Hloop; [lia|lia|done]| |done]. cbn beta. intros _ s1 H1. by apply wlx_ret.
Qed.
End wlx_rules.

(** ** Frames *)

Section frame.
Context {V : Type} (vw : kern -> V).

Definition frame {A} (m : M kern A) : Prop :=
  forall s, wlx m s (fun _ s' => vw s' = vw s) (fun s' => vw s' = vw s).

Lemma frame_bind {A B} (m : M kern A) (f : A -> M kern B) : frame m -> (forall a, frame (f a)) -> frame (bind m f).
Proof.
  intros Hm Hf s. apply wlx_bind. eapply wlx_mono; [apply Hm| |done]. intros a s1 <-.
  eapply wlx_mono; [apply Hf|congruence|congruence].
Qed.
Lemma frame_ret {A} (a : A) : frame (ret a).
Proof. done. Qed.
Lemma frame_gets {A} (f : kern -> A) : frame (gets f).
Proof. done. Qed.
Lemma frame_emit e : frame (emit e).
Proof. done. Qed.
Lemma frame_wakeup c : frame (wakeup c).
Proof. done. Qed.
Lemma frame_panic {A} msg : frame (A:=A) (panic msg).
Proof. done. Qed.
Lemma frame_ub {A} msg : frame (A:=A) (undefined_behaviour msg).
Proof. done. Qed.
Lemma frame_sleep {A} c : frame (A:=A) (sleep_on c).
Proof. intros s. by destruct c. Qed.
Lemma frame_modify f : (forall s, vw (f s) = vw s) -> frame (modify f).
Proof. intros H s. apply H. Qed.
Lemma frame_zoom {T A} (get : kern -> T) put (m : M T A) :
  (forall t s, vw (put t s) = vw s) -> frame (zoom get put m).
Proof. intros H s. by apply wlx_zoom; intros; apply H. Qed.
Lemma frame_when b m : frame m -> frame (when b m).
Proof. intros Hm. destruct b; [done|apply frame_ret]. Qed.
Lemma frame_for {R} n i (body : Z -> M kern (option R)) : (forall j, frame (body j)) -> frame (for_from n i body).
Proof.
  intros Hb. revert i. induction n as [|n IH]; intros i; cbn [for_from]; [apply frame_ret|].
  apply frame_bind; [apply Hb|]. intros [r|]; [apply frame_ret|apply IH].
Qed.
Lemma frame_iter n (body : Z -> M kern unit) : (forall j, frame (body j)) -> frame (iter n body).
Proof.
  intros Hb. apply frame_bind; [|intros; apply frame_ret]. apply frame_for. intros j.
  apply frame_bind; [apply Hb|intros; apply frame_ret].
Qed.

(** A step that keeps the view v known so far. *)
Lemma wlx_keep {A B} (m : M kern A) (f : A -> M kern B) s v Q (X : kern -> Prop) :
  frame m -> vw s = v -> (forall s1, vw s1 = v -> X s1) ->
  (forall a s1, vw s1 = v -> wlx (f a) s1 Q X) -> wlx (bind m f) s Q X.
Proof. intros Hm <- HX Hf. apply wlx_bind. eapply wlx_mono; [apply Hm|cbn; intros a s1; apply Hf|exact HX]. Qed.
End frame.

(** Views of the tables of processes and files only. *)
Class TableView {V : Type} (vw : kern -> V) : Prop := {
  tv_fs : forall f s, vw (put_fs f s) = vw s;
  tv_kmem : forall k s, vw (set_kmem k s) = vw s;
  tv_pipe : forall pi p s, vw (put_pipe pi p s) = vw s;
  tv_cons : forall c s, vw (put_cons c s) = vw s }.

Section table_views.
Context {V : Type} (vw : kern -> V) `{!TableView vw}.
Lemma frame_fs `{Machine} {A} (m : M (@fstate lst vst) A) : frame vw (fs m).
Proof. apply frame_zoom, tv_fs. Qed.
Lemma frame_vm {A} (m : M vst A) : frame vw (vm m).
Proof. apply frame_zoom. intros. apply tv_kmem. Qed.
Lemma frame_kmemory {A} (m : M kst A) : frame vw (kmemory m).
Proof. apply frame_zoom. intros. apply tv_kmem. Qed.
Lemma frame_pipe {A} pi (m : M pst A) : frame vw (with_pipe pi m).
Proof. apply frame_zoom. intros. apply tv_pipe. Qed.
Lemma frame_cons {A} (m : M cst A) : frame vw (with_cons m).
Proof. apply frame_zoom. intros. apply tv_cons. Qed.
Lemma frame_tf_set p off v : frame vw (tf_set p off v).
Proof. apply frame_modify. intros. apply tv_kmem. Qed.
Lemma frame_begin_op `{Machine} : frame vw fs_begin_op.
Proof. apply frame_fs. Qed.
Lemma frame_end_op `{Machine} : frame vw fs_end_op.
Proof. apply frame_fs. Qed.
End table_views.

(** Changes to a process that keep its part of the view, or to a file. *)
Lemma fmap_alter_same {A B} (g : A -> B) f i (l : list A) : (forall a, g (f a) = g a) -> g <$> alter f i l = g <$> l.
Proof. intros H. revert i. induction l as [|a l IH]; intros [|i]; cbn; [done|done|by rewrite H|]. f_equal. apply IH. Qed.

Create HintDb keeps discriminated.
#[export] Hint Resolve frame_ret frame_gets frame_emit frame_wakeup frame_panic frame_ub frame_sleep
  frame_fs frame_vm frame_kmemory frame_pipe frame_cons frame_tf_set frame_begin_op frame_end_op : keeps.

(** Follows the structure of the code; [modify_solver] proves that a write
    keeps the view. *)
Ltac frame_with modify_solver :=
  repeat lazymatch goal with
  | |- frame _ (bind _ _) => apply frame_bind; [|intros ?]
  | |- frame _ (when _ _) => apply frame_when
  | |- frame _ (for_from _ _ _) => apply frame_for; intros ?
  | |- frame _ (iter _ _) => apply frame_iter; intros ?
  | |- frame _ (modify_proc _ _) => modify_solver
  | |- frame _ (modify_me _) => modify_solver
  | |- frame _ (modify_file _ _) => modify_solver
  | |- frame _ (modify _) => apply frame_modify; done
  | |- frame _ (if ?b then _ else _) => destruct b
  | |- frame _ (match ?x with _ => _ end) => let E := fresh "E" in destruct x eqn:E
  | |- frame _ (let '_ := ?x in _) => destruct x
  | |- frame _ _ => solve [eauto with keeps nocore typeclass_instances]
  end.
