(* ===== verification/FileInv.v ===== *)
(** * Reference counts of open files

    The invariant that ties the open-file table to the processes' descriptor
    tables, and that every system call preserves it.  A handler either
    returns, goes to sleep, or (exit) ends in the scheduler; [wlx] speaks of
    the first and the last. *)
From S2P Require Import Prelude Params Sleeplock CString Interfaces Bio Log BlockInst Fs Fsinfo Kalloc Vm Pipe Console Kernel File Proc Exec Sysfile Syscall Frame.

(** ** What the invariant depends on *)

Definition pview (p : proc) : procstate * list (option nat) := (p_state p, p_ofile p).
Record fview : Type := mkFview { fv_refs : list Z; fv_procs : list (procstate * list (option nat)); fv_me : nat }.
Definition view (s : kern) : fview := mkFview (fl_ref <$> ks_ftable s) (pview <$> ks_proc s) (ks_me s).

(** How many descriptors, of all processes, refer to file f. *)
Definition occurs (f : nat) (l : list (option nat)) : nat := length (filter (fun o => o = Some f) l).
Definition refs (v : fview) (f : nat) : nat := sum_list ((fun p => occurs f p.2) <$> fv_procs v).

Definition dead (st : procstate) : Prop := st = UNUSED \/ st = ZOMBIE.

(** [fd_ok v ex]: every count is the number of descriptors that refer to the
    file, plus the references ex held by the code that is running. *)
Record fd_ok (v : fview) (ex : list nat) : Prop := {
  fo_len : forall i p, fv_procs v !! i = Some p -> length p.2 = Z.to_nat NOFILE;
  fo_files : forall i p fd f, fv_procs v !! i = Some p -> p.2 !! fd = Some (Some f) -> (f < length (fv_refs v))%nat;
  fo_held : forall f, f ∈ ex -> (f < length (fv_refs v))%nat;
  fo_refs : forall f r, fv_refs v !! f = Some r -> r = Z.of_nat (refs v f + occurs f (Some <$> ex));
  fo_dead : forall i p fd f, fv_procs v !! i = Some p -> dead p.1 -> p.2 !! fd <> Some (Some f) }.

(** The current process exists and runs. *)
Definition live (v : fview) : Prop := exists st l, fv_procs v !! fv_me v = Some (st, l) /\ ~ dead st.

(** Descriptors of the current process the code has just filled. *)
Definition owned (v : fview) (own : list (nat * nat)) : Prop :=
  NoDup own.*1 /\
  forall fd f, (fd, f) ∈ own -> exists st l, fv_procs v !! fv_me v = Some (st, l) /\ l !! fd = Some (Some f).

Definition vgood (ex : list nat) (own : list (nat * nat)) (v : fview) : Prop := fd_ok v ex /\ live v /\ owned v own.
Definition good (ex : list nat) (own : list (nat * nat)) (s : kern) : Prop := vgood ex own (view s).
(** What holds where a handler ends in the scheduler: after an exit. *)
Definition exited (s : kern) : Prop := ~ live (view s) -> fd_ok (view s) [].

Abbreviation keeps := (frame view).

#[export] Instance view_table : TableView view.
Proof. by split. Qed.

Lemma keeps_modify_proc i f : (forall p, pview (f p) = pview p) -> keeps (modify_proc i f).
Proof. intros H. apply frame_modify. intros s. unfold view. cbn. by rewrite fmap_alter_same. Qed.
Lemma keeps_modify_me f : (forall p, pview (f p) = pview p) -> keeps (modify_me f).
Proof. intros H. apply frame_modify. intros s. unfold view. cbn. by rewrite fmap_alter_same. Qed.
Lemma keeps_modify_file f g : (forall fl, fl_ref (g fl) = fl_ref fl) -> keeps (modify_file f g).
Proof. intros H. apply frame_modify. intros s. unfold view. cbn. by rewrite fmap_alter_same. Qed.

Ltac keeps := frame_with ltac:(idtac; lazymatch goal with
  | |- keeps (modify_proc _ _) => apply keeps_modify_proc; done
  | |- keeps (modify_me _) => apply keeps_modify_me; done
  | |- keeps (modify_file _ _) => apply keeps_modify_file; done
  end).

Section keeps_calls.
Context `{Machine}.

Lemma keeps_proc_freepagetable pt sz : keeps (proc_freepagetable pt sz).
Proof. unfold proc_freepagetable. keeps. Qed.
Lemma keeps_proc_pagetable p : keeps (proc_pagetable p).
Proof. unfold proc_pagetable. keeps. Qed.
Lemma keeps_argraw n : keeps (argraw n).
Proof. unfold argraw. keeps. Qed.
#[local] Hint Resolve keeps_proc_freepagetable keeps_proc_pagetable keeps_argraw : keeps.
Lemma keeps_argint n : keeps (argint n).
Proof. unfold argint. keeps. Qed.
Lemma keeps_argaddr n : keeps (argaddr n).
Proof. unfold argaddr. keeps. Qed.
Lemma keeps_fetchstr a n : keeps (fetchstr a n).
Proof. unfold fetchstr. keeps. Qed.
Lemma keeps_fetchaddr a : keeps (fetchaddr a).
Proof. unfold fetchaddr. keeps. Qed.
#[local] Hint Resolve keeps_argint keeps_argaddr keeps_fetchstr keeps_fetchaddr : keeps.
Lemma keeps_argstr n max : keeps (argstr n max).
Proof. unfold argstr. keeps. Qed.
Lemma keeps_argfd n : keeps (argfd n).
Proof. unfold argfd. keeps. Qed.
#[local] Hint Resolve keeps_argstr keeps_argfd : keeps.

Lemma keeps_devsw_read major rd a n : devsw_read major = Some rd -> keeps (rd a n).
Proof. unfold devsw_read. destruct (major =? CONSOLE); [|done]. intros [= <-]. keeps. Qed.
Lemma keeps_devsw_write major wr a n : devsw_write major = Some wr -> keeps (wr a n).
Proof. unfold devsw_write. destruct (major =? CONSOLE); [|done]. intros [= <-]. keeps. Qed.
#[local] Hint Resolve keeps_devsw_read keeps_devsw_write : keeps.
Lemma keeps_fileread f a n : keeps (fileread f a n).
Proof. unfold fileread. keeps. Qed.
Lemma keeps_filewrite_loop fuel f a n i : keeps (filewrite_loop fuel f a n i).
Proof.
  revert i. induction fuel as [|fuel IH]; intros i; cbn [filewrite_loop]; keeps.
Qed.
#[local] Hint Resolve keeps_filewrite_loop : keeps.
Lemma keeps_filewrite f a n : keeps (filewrite f a n).
Proof. unfold filewrite. keeps. Qed.
Lemma keeps_filestat f a : keeps (filestat f a).
Proof. unfold filestat. keeps. Qed.
#[local] Hint Resolve keeps_fileread keeps_filewrite keeps_filestat : keeps.
Lemma keeps_sys_read : keeps sys_read.
Proof. unfold sys_read. keeps. Qed.
Lemma keeps_sys_write : keeps sys_write.
Proof. unfold sys_write. keeps. Qed.
Lemma keeps_sys_fstat : keeps sys_fstat.
Proof. unfold sys_fstat. keeps. Qed.
Lemma keeps_sys_link : keeps sys_link.
Proof. unfold sys_link, link_bad, set_links. keeps. Qed.
Lemma keeps_isdirempty dp : keeps (isdirempty dp).
Proof. unfold isdirempty. keeps. Qed.
#[local] Hint Resolve keeps_isdirempty : keeps.
Lemma keeps_sys_unlink : keeps sys_unlink.
Proof. unfold sys_unlink, unlink_bad, set_links. keeps. Qed.
Lemma keeps_create path t ma mi : keeps (create path t ma mi).
Proof. unfold create, create_fail, set_links. keeps. Qed.
#[local] Hint Resolve keeps_create : keeps.
Lemma keeps_open_inode path om : keeps (open_inode path om).
Proof. unfold open_inode. keeps. Qed.
Lemma keeps_make_node t ma mi : keeps (make_node t ma mi).
Proof. unfold make_node. keeps. Qed.
#[local] Hint Resolve keeps_make_node : keeps.
Lemma keeps_sys_mkdir : keeps sys_mkdir.
Proof. unfold sys_mkdir. keeps. Qed.
Lemma keeps_sys_mknod : keeps sys_mknod.
Proof. unfold sys_mknod. keeps. Qed.
Lemma keeps_sys_chdir : keeps sys_chdir.
Proof. unfold sys_chdir. keeps. Qed.

Lemma keeps_load_segments n off ip pt sz : keeps (load_segments n off ip pt sz).
Proof.
  revert off sz. induction n as [|n IH]; intros off sz; cbn [load_segments]; unfold loadseg; keeps.
Qed.
Lemma keeps_push_args argv argc pt sp base us : keeps (push_args argv argc pt sp base us).
Proof. revert argc sp us. induction argv as [|a argv IH]; intros argc sp us; cbn [push_args]; keeps. Qed.
#[local] Hint Resolve keeps_load_segments keeps_push_args : keeps.
Lemma keeps_kexec path argv : keeps (kexec path argv).
Proof. unfold kexec, exec_stack. keeps. Qed.
Lemma keeps_free_args pages : keeps (free_args pages).
Proof. induction pages; cbn [free_args]; keeps. Qed.
Lemma keeps_fetch_args n u i pages argv : keeps (fetch_args n u i pages argv).
Proof. revert i pages argv. induction n as [|n IH]; intros i pages argv; cbn [fetch_args]; keeps. Qed.
#[local] Hint Resolve keeps_kexec keeps_free_args keeps_fetch_args : keeps.
Lemma keeps_sys_exec : keeps sys_exec.
Proof. unfold sys_exec. keeps. Qed.
Lemma keeps_growproc n : keeps (growproc n).
Proof. unfold growproc. keeps. Qed.
#[local] Hint Resolve keeps_growproc : keeps.
Lemma keeps_sys_sbrk : keeps sys_sbrk.
Proof. unfold sys_sbrk. keeps. Qed.
Lemma keeps_sys_pause : keeps sys_pause.
Proof. unfold sys_pause, sys_pause_from. keeps. Qed.
Lemma keeps_fsinfo_call : keeps fsinfo_call.
Proof. unfold fsinfo_call. keeps. Qed.
End keeps_calls.

(** ** Changes of the view *)

Definition vref (f : nat) (r : Z) (v : fview) : fview := mkFview (<[f := r]> (fv_refs v)) (fv_procs v) (fv_me v).
Definition vproc (i : nat) (p : procstate * list (option nat)) (v : fview) : fview :=
  mkFview (fv_refs v) (<[i := p]> (fv_procs v)) (fv_me v).

Lemma occurs_insert f l fd o o' : l !! fd = Some o ->
  (occurs f (<[fd := o']> l) + (if decide (o = Some f) then 1 else 0) =
   occurs f l + (if decide (o' = Some f) then 1 else 0))%nat.
Proof.
  intros Hl. rewrite insert_take_drop by (by eapply lookup_lt_Some). rewrite <- (take_drop_middle l fd o Hl) at 3.
  unfold occurs. rewrite !filter_app, !filter_cons, !length_app.
  destruct (decide (o = Some f)), (decide (o' = Some f)); simpl; lia.
Qed.

Lemma sum_insert (g : procstate * list (option nat) -> nat) l i p p' : l !! i = Some p ->
  (sum_list (g <$> <[i := p']> l) + g p = sum_list (g <$> l) + g p')%nat.
Proof.
  intros Hl. rewrite insert_take_drop by (by eapply lookup_lt_Some). rewrite <- (take_drop_middle l i p Hl) at 3.
  rewrite !fmap_app, !fmap_cons, !sum_list_with_app. simpl. unfold id. lia.
Qed.

Lemma refs_vproc v i p p' f : fv_procs v !! i = Some p ->
  (refs (vproc i p' v) f + occurs f p.2 = refs v f + occurs f p'.2)%nat.
Proof. intros Hi. exact (sum_insert (fun p => occurs f p.2) (fv_procs v) i p p' Hi). Qed.

Lemma occurs_cons f g ex : occurs f (Some <$> g :: ex) = ((if decide (g = f) then 1 else 0) + occurs f (Some <$> ex))%nat.
Proof.
  unfold occurs. rewrite fmap_cons, filter_cons. destruct (decide (Some g = Some f)), (decide (g = f)); simplify_eq; done.
Qed.

(** A count changes together with the references held. *)
Lemma fd_ok_vref v f r r' ex ex' : fd_ok v ex -> fv_refs v !! f = Some r ->
  (forall g, g ∈ ex' -> g = f \/ g ∈ ex) ->
  (forall g, g <> f -> occurs g (Some <$> ex') = occurs g (Some <$> ex)) ->
  r' - r = Z.of_nat (occurs f (Some <$> ex')) - Z.of_nat (occurs f (Some <$> ex)) ->
  fd_ok (vref f r' v) ex'.
Proof.
  intros [H1 H2 H3 H4 H5] Hf Hin Hne Hr. split; cbn [vref fv_refs fv_procs]; try done; rewrite ?length_insert.
  - exact H2.
  - intros g [->|Hg]%Hin; [by eapply lookup_lt_Some|by apply H3].
  - intros g r1 Hg. change (refs (vref f r' v) g) with (refs v g). apply list_lookup_insert_Some in Hg as [(<- & <- & _)|[Hn Hg]].
    + pose proof (H4 _ _ Hf). lia.
    + rewrite Hne by done. by apply H4.
Qed.

Lemma fd_ok_take v f r ex : fd_ok v ex -> fv_refs v !! f = Some r -> fd_ok (vref f (r + 1) v) (f :: ex).
Proof.
  intros Hok Hf. eapply fd_ok_vref; [done|done|set_solver|..].
  - intros g Hg. rewrite occurs_cons, decide_False by done. done.
  - rewrite occurs_cons, decide_True by done. lia.
Qed.

Lemma fd_ok_drop v f r ex : fd_ok v (f :: ex) -> fv_refs v !! f = Some r -> fd_ok (vref f (r - 1) v) ex.
Proof.
  intros Hok Hf. eapply fd_ok_vref; [done|done|set_solver|..].
  - intros g Hg. rewrite occurs_cons, decide_False by done. done.
  - rewrite occurs_cons, decide_True by done. lia.
Qed.

(** A process changes: its descriptors trade references with the code. *)
Lemma fd_ok_vproc v i p p' ex ex' : fd_ok v ex -> fv_procs v !! i = Some p ->
  length p'.2 = length p.2 -> (dead p'.1 -> forall fd f, p'.2 !! fd <> Some (Some f)) ->
  (forall fd f, p'.2 !! fd = Some (Some f) -> (f < length (fv_refs v))%nat) ->
  (forall f, f ∈ ex' -> (f < length (fv_refs v))%nat) ->
  (forall f, occurs f p'.2 + occurs f (Some <$> ex') = occurs f p.2 + occurs f (Some <$> ex))%nat ->
  fd_ok (vproc i p' v) ex'.
Proof.
  intros [H1 H2 H3 H4 H5] Hi Hlen Hdead Hfiles Hex Hcount. pose proof (H1 _ _ Hi) as Hl.
  split; cbn [vproc fv_refs fv_procs]; try done.
  - intros j q [(<- & <- & _)|[_ Hq]]%list_lookup_insert_Some; [by rewrite Hlen|by eapply H1].
  - intros j q fd f [(<- & <- & _)|[_ Hq]]%list_lookup_insert_Some; [by eapply Hfiles|by eapply H2].
  - intros f r Hr. pose proof (refs_vproc v i p p' f Hi). pose proof (H4 _ _ Hr). specialize (Hcount f). lia.
  - intros j q fd f [(<- & <- & _)|[_ Hq]]%list_lookup_insert_Some; [by intros; apply Hdead|by eapply H5].
Qed.

Lemma fd_ok_state v i st st' l ex : fd_ok v ex -> fv_procs v !! i = Some (st, l) ->
  (dead st' -> forall fd f, l !! fd <> Some (Some f)) -> fd_ok (vproc i (st', l) v) ex.
Proof.
  intros Hok Hi Hd. eapply fd_ok_vproc; [done|done|done|done|..]; [|apply Hok|done].
  intros fd f Hf. by eapply (fo_files _ _ Hok i).
Qed.

Lemma fd_ok_install v i st l fd f ex : fd_ok v (f :: ex) -> fv_procs v !! i = Some (st, l) -> ~ dead st ->
  l !! fd = Some None -> fd_ok (vproc i (st, <[fd := Some f]> l) v) ex.
Proof.
  intros Hok Hi Hd Hfd. eapply fd_ok_vproc; [done|done|..]; cbn [fst snd].
  - apply length_insert.
  - done.
  - intros fd' g [(_ & [= <-] & _)|[_ Hg]]%list_lookup_insert_Some; [apply Hok; set_solver|by eapply (fo_files _ _ Hok i)].
  - intros g Hg. apply Hok. set_solver.
  - intros g. pose proof (occurs_insert g l fd None (Some f) Hfd) as Ho. rewrite occurs_cons.
    destruct (decide (None = Some g)) as [|_]; [done|]. destruct (decide (Some f = Some g)), (decide (f = g)); simplify_eq; lia.
Qed.

Lemma fd_ok_remove v i st l fd f ex : fd_ok v ex -> fv_procs v !! i = Some (st, l) ->
  l !! fd = Some (Some f) -> fd_ok (vproc i (st, <[fd := None]> l) v) (f :: ex).
Proof.
  intros Hok Hi Hfd. eapply fd_ok_vproc; [done|done|..]; cbn [fst snd].
  - apply length_insert.
  - intros Hd fd' g. by destruct (fo_dead _ _ Hok i (st, l) fd f Hi Hd).
  - intros fd' g [(_ & ? & _)|[_ Hg]]%list_lookup_insert_Some; [done|by eapply (fo_files _ _ Hok i)].
  - intros g [->|Hg]%elem_of_cons; [by eapply (fo_files _ _ Hok i)|by apply Hok].
  - intros g. pose proof (occurs_insert g l fd (Some f) None Hfd) as Ho. rewrite occurs_cons.
    destruct (decide (None = Some g)) as [|_]; [done|]. destruct (decide (Some f = Some g)), (decide (f = g)); simplify_eq; lia.
Qed.

(** ** Code that holds references

    [safe (ex, own) Q m]: started with the references ex in hand and the
    descriptors own filled, [m] ends with [Q a] when it returns a. *)

Definition safe {A} (h : list nat * list (nat * nat)) (Q : A -> list nat * list (nat * nat)) (m : M kern A) : Prop :=
  forall s, good h.1 h.2 s -> wlx m s (fun a s' => good (Q a).1 (Q a).2 s') exited.

Lemma live_exited s : live (view s) -> exited s.
Proof. intros Hl Hn. contradiction. Qed.

Lemma safe_bind {A B} h P Q (m : M kern A) (f : A -> M kern B) :
  safe h P m -> (forall a, safe (P a) Q (f a)) -> safe h Q (bind m f).
Proof. intros Hm Hf s Hs. apply wlx_bind. eapply wlx_mono; [by apply Hm| |done]. intros a s1 H1. by apply Hf. Qed.

Lemma safe_keeps {A} h (m : M kern A) : keeps m -> safe h (fun _ => h) m.
Proof.
  intros Hm s Hs. eapply wlx_mono; [apply Hm|..].
  - cbn. intros a s1 Hv. unfold good. by rewrite Hv.
  - cbn. intros s1 Hv. apply live_exited. rewrite Hv. apply Hs.
Qed.

Lemma safe_ret {A} (a : A) h Q : h = Q a -> safe h Q (ret a).
Proof. by intros -> s Hs. Qed.

(** A write to the table of files or of processes, on views. *)
Definition valter (i : nat) (g : procstate * list (option nat) -> procstate * list (option nat)) (v : fview) : fview :=
  mkFview (fv_refs v) (alter g i (fv_procs v)) (fv_me v).

Lemma fmap_alter_via {A B} (h : A -> B) f g i (l : list A) :
  (forall a, h (f a) = g (h a)) -> h <$> alter f i l = alter g i (h <$> l).
Proof. intros H. revert i. induction l as [|a l IH]; intros [|i]; cbn; [done|done|by rewrite H|]. f_equal. apply IH. Qed.

Lemma valter_vproc i g v p : fv_procs v !! i = Some p -> valter i g v = vproc i (g p) v.
Proof.
  intros Hi. unfold valter, vproc. f_equal. rewrite list_insert_alter. apply list_alter_ext; [|done].
  intros q Hq. by simplify_eq.
Qed.

Lemma view_modify_proc i f g s (Q : unit -> kern -> Prop) X :
  (forall p, pview (f p) = g (pview p)) ->
  (forall s', view s' = valter i g (view s) -> Q tt s') -> wlx (modify_proc i f) s Q X.
Proof. intros Hg HQ. apply wlx_modify, HQ. unfold view, valter. cbn. f_equal. by apply fmap_alter_via. Qed.

Lemma view_modify_me f g s (Q : unit -> kern -> Prop) X :
  (forall p, pview (f p) = g (pview p)) ->
  (forall s', view s' = valter (fv_me (view s)) g (view s) -> Q tt s') -> wlx (modify_me f) s Q X.
Proof. intros Hg HQ. apply wlx_modify, HQ. unfold view, valter. cbn. f_equal. by apply fmap_alter_via. Qed.

Lemma view_modify_file f h r s (Q : unit -> kern -> Prop) X :
  (forall fl, fl_ref (h fl) = r) ->
  (forall s', view s' = vref f r (view s) -> Q tt s') -> wlx (modify_file f h) s Q X.
Proof.
  intros Hg HQ. apply wlx_modify, HQ. unfold view, vref. cbn. f_equal.
  rewrite list_insert_alter. by apply fmap_alter_via.
Qed.

(** ** The operations, on views *)

Section operations.
Context `{Machine}.

Lemma file_at_ref f s : 1 <= fl_ref (file_at f s) -> fv_refs (view s) !! f = Some (fl_ref (file_at f s)).
Proof.
  unfold file_at. rewrite list_lookup_total_alt. cbn [view fv_refs]. rewrite list_lookup_fmap.
  destruct (ks_ftable s !! f); cbn; [done|lia].
Qed.

Lemma filealloc_view s X : wlx filealloc s
  (fun r s' => match r with
     | Some f => fv_refs (view s) !! f = Some 0 /\ view s' = vref f 1 (view s)
     | None => view s' = view s
     end) X.
Proof.
  apply wlx_bind, wlx_gets. destruct (list_find _ _) as [[f fl]|] eqn:Hf; [|done].
  apply list_find_Some in Hf as (Hf & Hr & _). apply wlx_bind.
  apply (view_modify_file _ _ 1); [done|]. intros s' Hs'. apply wlx_ret. split; [|done].
  cbn [view fv_refs]. by rewrite list_lookup_fmap, Hf, <- Hr.
Qed.

Lemma filedup_view f s X : wlx (filedup f) s
  (fun g s' => g = f /\ exists r, fv_refs (view s) !! f = Some r /\ view s' = vref f (r + 1) (view s)) X.
Proof.
  apply wlx_bind, wlx_gets. destruct (Z.ltb_spec (fl_ref (file_at f s)) 1) as [|Hr]; [apply wlx_panic|].
  apply wlx_bind. apply (view_modify_file _ _ (fl_ref (file_at f s) + 1)); [done|]. intros s' Hs'. apply wlx_ret. eauto using file_at_ref.
Qed.

Lemma keeps_pipe_close pi w : keeps (pipe_close pi w).
Proof. unfold pipe_close. keeps. Qed.

Lemma fileclose_view f s :
  let Q s' := exists r, fv_refs (view s) !! f = Some r /\ view s' = vref f (r - 1) (view s) in
  wlx (fileclose f) s (fun _ s' => Q s') Q.
Proof.
  intros Q. apply wlx_bind, wlx_gets. destruct (Z.ltb_spec (fl_ref (file_at f s)) 1) as [|Hr]; [apply wlx_panic|].
  pose proof (file_at_ref f s Hr) as Hf. destruct (Z.ltb_spec 0 (fl_ref (file_at f s) - 1)) as [|H0].
  { apply (view_modify_file _ _ (fl_ref (file_at f s) - 1)); [done|]. intros s' Hs'. exists (fl_ref (file_at f s)). done. }
  apply wlx_bind. apply (view_modify_file _ _ 0); [done|]. intros s1 H1.
  assert (forall s', view s' = view s1 -> Q s') as HQ.
  { intros s' Hs'. exists (fl_ref (file_at f s)). rewrite Hs', H1. split; [done|]. f_equal. lia. }
  assert (keeps (match fl_type (file_at f s) with
    | FD_PIPE => pipe_close (fl_pipe (file_at f s)) (fl_writable (file_at f s))
    | FD_INODE | FD_DEVICE => fs_begin_op ;;; fs (iput (fl_ip (file_at f s))) ;;; fs_end_op
    | FD_NONE => ret tt end)) as Hk
    by (destruct (fl_type _); auto using keeps_pipe_close, frame_ret, frame_bind, frame_begin_op, frame_end_op, frame_fs, view_table).
  eapply wlx_mono; [apply Hk|intros ?; apply HQ|apply HQ].
Qed.

Lemma fdalloc_view f s X : wlx (fdalloc f) s
  (fun r s' => match r with
     | Some fd => (exists st l, fv_procs (view s) !! fv_me (view s) = Some (st, l) /\ l !! fd = Some None /\
                    view s' = vproc (fv_me (view s)) (st, <[fd := Some f]> l) (view s)) \/
                  fv_procs (view s) !! fv_me (view s) = None
     | None => view s' = view s
     end) X.
Proof.
  apply wlx_bind, wlx_gets. destruct (list_find _ _) as [[fd o]|] eqn:Hf; [|done].
  apply list_find_Some in Hf as (Hf & -> & _). apply wlx_bind.
  apply (view_modify_me _ (fun p => (p.1, <[fd := Some f]> p.2))); [done|]. intros s' Hs'. apply wlx_ret.
  destruct (fv_procs (view s) !! fv_me (view s)) as [[st l]|] eqn:Hme; [left|by right].
  exists st, l. rewrite (valter_vproc _ _ _ _ Hme) in Hs'. split_and!; [done| |done].
  unfold me, proc_at in Hf. rewrite list_lookup_total_alt in Hf. cbn in Hme. rewrite list_lookup_fmap in Hme.
  destruct (ks_proc s !! ks_me s) as [p|]; [|done]. injection Hme as <- <-. exact Hf.
Qed.

(** Changing another process, or the current one without ending it, keeps it
    alive. *)
Lemma live_vref v f r : live (vref f r v) <-> live v.
Proof. done. Qed.
Lemma owned_vref v f r own : owned (vref f r v) own <-> owned v own.
Proof. done. Qed.

Lemma vgood_me v st l : vgood [] [] v -> fv_procs v !! fv_me v = Some (st, l) -> ~ dead st.
Proof. intros (_ & (st' & l' & Hp & Hd) & _) Hme. by simplify_eq. Qed.

Lemma vproc_me v p : live v -> fv_procs (vproc (fv_me v) p v) !! fv_me v = Some p.
Proof.
  intros (st & l & Hp & _). cbn [vproc fv_procs]. rewrite list_lookup_insert_eq; [done|by eapply lookup_lt_Some].
Qed.

Lemma owned_vproc_ne v i p own : i <> fv_me v -> owned v own -> owned (vproc i p v) own.
Proof.
  intros Hi [Hn Ho]. split; [done|]. intros fd f Hf. cbn [vproc fv_procs fv_me]. rewrite list_lookup_insert_ne by done.
  by apply Ho.
Qed.
Lemma live_vproc_ne v i p : i <> fv_me v -> live v -> live (vproc i p v).
Proof.
  intros Hi (st & l & Hp & Hd). exists st, l. cbn [vproc fv_procs fv_me]. by rewrite list_lookup_insert_ne by done.
Qed.
Lemma live_vproc_me v st l : live v -> ~ dead st -> live (vproc (fv_me v) (st, l) v).
Proof. intros Hv Hd. exists st, l. split; [by apply (vproc_me v (st, l))|done]. Qed.

Lemma vgood_install ex own v st l fd f : vgood (f :: ex) own v -> fv_procs v !! fv_me v = Some (st, l) ->
  l !! fd = Some None -> vgood ex ((fd, f) :: own) (vproc (fv_me v) (st, <[fd := Some f]> l) v).
Proof.
  intros (Hok & Hl & Hn & Ho) Hme Hfd. pose proof Hl as (st' & l' & Hme' & Hd).
  rewrite Hme in Hme'. injection Hme' as <- <-.
  split_and!; [by apply fd_ok_install|by apply live_vproc_me|split].
  - cbn. constructor; [|done]. intros ([fd' f'] & -> & Hin)%list_elem_of_fmap. cbn in Hfd.
    destruct (Ho _ _ Hin) as (st2 & l2 & ? & ?). simplify_eq.
  - intros fd' f' Hin. exists st, (<[fd := Some f]> l). split; [by apply (vproc_me v _ Hl)|].
    apply elem_of_cons in Hin as [[= -> ->]|Hin].
    + apply list_lookup_insert_eq. by eapply lookup_lt_Some.
    + destruct (Ho _ _ Hin) as (st2 & l2 & ? & ?). simplify_eq. rewrite list_lookup_insert_ne; [done|].
      intros ->. simplify_eq.
Qed.

Lemma vgood_remove ex own v fd f st l : vgood ex ((fd, f) :: own) v -> fv_procs v !! fv_me v = Some (st, l) ->
  vgood (f :: ex) own (vproc (fv_me v) (st, <[fd := None]> l) v).
Proof.
  intros (Hok & Hl & Hn & Ho) Hme. pose proof Hl as (st' & l' & Hme' & Hd).
  rewrite Hme in Hme'. injection Hme' as <- <-.
  destruct (Ho fd f ltac:(left)) as (? & ? & ? & Hfd). simplify_eq.
  split_and!; [by eapply fd_ok_remove|by apply live_vproc_me|split].
  - by inversion_clear Hn.
  - intros fd' f' Hin. exists st, (<[fd := None]> l). split; [by apply (vproc_me v _ Hl)|].
    destruct (Ho fd' f' ltac:(by right)) as (? & ? & ? & ?). simplify_eq. rewrite list_lookup_insert_ne; [done|].
    intros <-. apply NoDup_cons in Hn as [Hn _]. destruct Hn. apply list_elem_of_fmap. by exists (fd, f').
Qed.

Lemma vgood_take ex own v f r : vgood ex own v -> fv_refs v !! f = Some r -> vgood (f :: ex) own (vref f (r + 1) v).
Proof. intros (Hok & Hl & Ho) Hf. split_and!; [by apply fd_ok_take|done|done]. Qed.
Lemma vgood_drop ex own v f r : vgood (f :: ex) own v -> fv_refs v !! f = Some r -> vgood ex own (vref f (r - 1) v).
Proof. intros (Hok & Hl & Ho) Hf. split_and!; [by apply fd_ok_drop|done|done]. Qed.
End operations.

(** ** The operations, with references in hand *)

Section safe_calls.
Context `{Machine}.

(** Where a view is known, so is whether the process lives. *)
Lemma exited_view s v : live v -> view s = v -> exited s.
Proof. intros Hl Hv. apply live_exited. by rewrite Hv. Qed.

Lemma safe_filealloc ex own :
  safe (ex, own) (fun r => (match r with Some f => f :: ex | None => ex end, own)) filealloc.
Proof.
  intros s Hs. eapply wlx_mono; [apply (filealloc_view s (fun _ => False))| |done].
  cbn. intros [f|] s' Hv; unfold good.
  - destruct Hv as [Hf ->]. by apply (vgood_take _ _ _ _ 0).
  - by rewrite Hv.
Qed.

Lemma safe_filedup ex own f : safe (ex, own) (fun _ => (f :: ex, own)) (filedup f).
Proof.
  intros s Hs. eapply wlx_mono; [apply (filedup_view f s (fun _ => False))| |done].
  cbn. intros g s' (-> & r & Hf & Hv). unfold good. rewrite Hv. by apply vgood_take.
Qed.

Lemma safe_fileclose ex own f : safe (f :: ex, own) (fun _ => (ex, own)) (fileclose f).
Proof.
  intros s Hs. eapply wlx_mono; [apply fileclose_view|..]; cbn.
  - intros _ s' (r & Hf & Hv). unfold good. rewrite Hv. by eapply vgood_drop.
  - intros s' (r & Hf & Hv). eapply exited_view; [|exact Hv]. apply Hs.
Qed.

Lemma vgood_swap f g ex own v : vgood (f :: g :: ex) own v -> vgood (g :: f :: ex) own v.
Proof.
  intros (Hok & Hl & Ho). split_and!; [|done|done]. destruct Hok as [H1 H2 H3 H4 H5]. split; try done.
  - intros h Hh. apply H3. set_solver.
  - intros h r Hr. rewrite (H4 h r Hr), !occurs_cons. lia.
Qed.

Lemma safe_swap {A} f g ex own Q (m : M kern A) : safe (g :: f :: ex, own) Q m -> safe (f :: g :: ex, own) Q m.
Proof. intros Hm s Hs. apply Hm. by apply vgood_swap. Qed.

Lemma safe_fdalloc ex own f :
  safe (f :: ex, own) (fun r => match r with Some fd => (ex, (fd, f) :: own) | None => (f :: ex, own) end) (fdalloc f).
Proof.
  intros s Hs. eapply wlx_mono; [apply (fdalloc_view f s (fun _ => False))| |done].
  intros [fd|] s' Hv; unfold good; cbn.
  - destruct Hv as [(st & l & Hme & Hfd & ->)|Hme]; [by apply vgood_install|].
    destruct Hs as (_ & (? & ? & Hme' & _) & _). by rewrite Hme in Hme'.
  - by rewrite Hv.
Qed.

Lemma safe_clear_fd ex own fd f :
  safe (ex, (fd, f) :: own) (fun _ => (f :: ex, own)) (modify_me (set_ofile fd None)).
Proof.
  intros s Hs. apply (view_modify_me _ (fun p => (p.1, <[fd := None]> p.2))); [done|]. cbn. intros s' Hv.
  unfold good. rewrite Hv. pose proof Hs as (_ & (st & l & Hme & _) & _). rewrite (valter_vproc _ _ _ _ Hme).
  by apply vgood_remove.
Qed.

Lemma safe_forget {A} ex own h Q (m : M kern A) : h = (ex, own) -> safe (ex, []) Q m -> safe h Q m.
Proof. intros -> Hm s (Hok & Hl & _). apply Hm. split_and!; [done|done|]. split; [constructor|by intros ?? ?%elem_of_nil]. Qed.

(** A descriptor the process has. *)
Lemma argfd_view n s X : wlx (argfd n) s
  (fun r s' => view s' = view s /\ forall fd f, r = Some (fd, f) -> live (view s) ->
     exists st l, fv_procs (view s) !! fv_me (view s) = Some (st, l) /\ l !! fd = Some (Some f)) X.
Proof.
  apply wlx_bind. unfold argint, argraw. destruct (_ && _); [|apply wlx_panic]. cbn.
  generalize (i32 (tf_get (me s) (TF_a0 + 8 * n) s)) as k. intros k. apply wlx_bind, wlx_gets. destruct (_ || _); [by apply wlx_ret|].
  destruct (p_ofile _ !!! _) as [f|] eqn:Hf; apply wlx_ret; (split; [done|]); [|done].
  intros ? ? [= <- <-] (st & l & Hme & _). exists st, l. split; [done|].
  unfold me, proc_at in Hf. rewrite !list_lookup_total_alt in Hf. cbn in Hme. rewrite list_lookup_fmap in Hme.
  destruct (ks_proc s !! ks_me s) as [p|]; [|done]. injection Hme as <- <-. cbn in Hf.
  destruct (p_ofile p !! _) as [[g|]|] eqn:Hg; [|done|done]. by injection Hf as <-.
Qed.

Definition no_refs {A} (_ : A) : list nat * list (nat * nat) := ([], []).

(** The new descriptor is filled before the count is raised; the two writes
    commute. *)
Lemma safe_sys_dup : safe ([], []) no_refs sys_dup.
Proof.
  intros s Hs. apply wlx_bind. eapply wlx_mono; [apply (argfd_view 0 s exited)| |done].
  intros [[fd f]|] s1 [Hv1 Hfd]; [|apply wlx_ret; unfold good; by rewrite Hv1].
  apply wlx_bind. eapply wlx_mono; [apply (fdalloc_view f s1 exited)| |done].
  intros [fd'|] s2 Hv2; [|apply wlx_ret; unfold good; by rewrite Hv2, Hv1].
  apply wlx_bind. eapply wlx_mono; [apply (filedup_view f s2 exited)| |done].
  intros g s3 (_ & r & Hr & Hv3). apply wlx_ret. unfold good. rewrite Hv1 in Hv2.
  destruct Hv2 as [(st & l & Hme & Hfree & Hv2)|Hme].
  - rewrite Hv3, Hv2 in *. destruct (vgood_install [] [] (vref f (r + 1) (view s)) st l fd' f) as (? & ? & ?);
      [by apply vgood_take|done|done|]. split_and!; [done|done|split; [constructor|by intros ?? ?%elem_of_nil]].
  - destruct Hs as (_ & (? & ? & Hme' & _) & _). by rewrite Hme in Hme'.
Qed.

Lemma safe_sys_close : safe ([], []) no_refs sys_close.
Proof.
  intros s Hs. apply wlx_bind. eapply wlx_mono; [apply (argfd_view 0 s exited)| |done].
  intros [[fd f]|] s1 [Hv1 Hfd]; [|apply wlx_ret; unfold good; by rewrite Hv1].
  assert (good [] [(fd, f)] s1) as H1.
  { unfold good. rewrite Hv1. destruct Hs as (? & Hl & _). split_and!; [done|done|split].
    - apply NoDup_singleton.
    - intros fd' f' [= -> ->]%list_elem_of_singleton. by apply Hfd. }
  revert s1 H1 Hv1 Hfd. intros s1 H1 _ _. revert s1 H1. change (safe ([], [(fd, f)]) no_refs
    (modify_me (set_ofile fd None) ;;; fileclose f ;;; ret 0)).
  eapply safe_bind; [apply safe_clear_fd|]. intros ?. eapply safe_bind; [apply safe_fileclose|].
  intros ?. by apply safe_ret.
Qed.

(** Follows code that is built from the calls above. *)
#[local] Hint Resolve keeps_open_inode keeps_argint keeps_argaddr keeps_argstr : keeps.
Ltac safe_keep := eapply safe_bind; [apply safe_keeps; solve [keeps]|]; intros ?.
Ltac safe_by L := eapply safe_bind; [apply L|]; intros ?; cbn beta iota.

Lemma safe_open_bad ip : safe ([], []) no_refs (open_bad ip).
Proof. unfold open_bad. do 2 safe_keep. by apply safe_ret. Qed.

Lemma safe_sys_open : safe ([], []) no_refs sys_open.
Proof.
  unfold sys_open. do 2 safe_keep. destruct (_ : option bytes) as [path|]; [|by apply safe_ret].
  do 2 safe_keep. destruct (_ : option nat) as [ip|]; [|by apply safe_ret]. safe_keep.
  destruct (_ && _); [apply safe_open_bad|]. safe_by safe_filealloc.
  destruct (_ : option nat) as [f|]; [|apply safe_open_bad]. safe_by safe_fdalloc.
  destruct (_ : option nat) as [fd|].
  - apply (safe_forget [] [(fd, f)]); [done|]. eapply safe_bind.
    { apply safe_keeps, keeps_modify_file. intros fl. by destruct (_ =? _). }
    intros ?. do 3 safe_keep. by apply safe_ret.
  - safe_by safe_fileclose. apply safe_open_bad.
Qed.

Lemma safe_pipealloc :
  safe ([], []) (fun r => match r with Some (rf, wf) => ([wf; rf], []) | None => ([], []) end) pipealloc.
Proof.
  unfold pipealloc. safe_by safe_filealloc. destruct (_ : option nat) as [f0|]; [|by apply safe_ret].
  safe_by safe_filealloc. destruct (_ : option nat) as [f1|].
  - safe_keep. destruct (_ =? 0).
    + apply safe_swap. safe_by safe_fileclose. safe_by safe_fileclose. by apply safe_ret.
    + do 3 safe_keep. by apply safe_ret.
  - safe_by safe_fileclose. by apply safe_ret.
Qed.

Lemma safe_swap_own {A} a b ex own Q (m : M kern A) : safe (ex, b :: a :: own) Q m -> safe (ex, a :: b :: own) Q m.
Proof.
  intros Hm s (Hok & Hl & Hn & Ho). apply Hm. split_and!; [done|done|split].
  - eapply NoDup_Permutation_proper; [|exact Hn]. cbn. constructor.
  - intros fd f Hin. apply Ho. set_solver.
Qed.

Lemma safe_pipe_bad rf wf : safe ([rf; wf], []) no_refs (pipe_bad rf wf).
Proof. unfold pipe_bad. do 2 safe_by safe_fileclose. by apply safe_ret. Qed.

Lemma safe_sys_pipe : safe ([], []) no_refs sys_pipe.
Proof.
  unfold sys_pipe. safe_keep. safe_by safe_pipealloc. destruct (_ : option (nat * nat)) as [[rf wf]|]; [|by apply safe_ret].
  apply safe_swap. safe_by safe_fdalloc. destruct (_ : option nat) as [fd0|]; [|apply safe_pipe_bad].
  safe_by safe_fdalloc. destruct (_ : option nat) as [fd1|].
  - safe_keep. safe_keep. destruct (_ <? 0).
    + apply safe_swap_own. safe_by safe_clear_fd. safe_by safe_clear_fd. apply safe_swap. apply safe_pipe_bad.
    + apply (safe_forget [] [(fd1, wf); (fd0, rf)]); [done|]. by apply safe_ret.
  - safe_by safe_clear_fd. apply safe_pipe_bad.
Qed.
End safe_calls.

(** ** Processes *)

Section processes.
Context `{Machine}.

#[local] Hint Resolve keeps_proc_freepagetable keeps_proc_pagetable keeps_argint keeps_argaddr : keeps.

Lemma wlx_modify_proc {B} i f g (k : unit -> M kern B) s v Q X :
  (forall p, pview (f p) = g (pview p)) -> view s = v ->
  (forall s1, view s1 = valter i g v -> wlx (k tt) s1 Q X) -> wlx (bind (modify_proc i f) k) s Q X.
Proof. intros Hg <- Hk. apply wlx_bind. by apply (view_modify_proc _ _ g). Qed.

Ltac keep_step := eapply (wlx_keep view); [solve [keeps]|eassumption|try done|]; cbn beta; intros.

Lemma freeproc_view i s v : view s = v ->
  wlx (freeproc i) s (fun _ s' => view s' = valter i (fun p => (UNUSED, p.2)) v) (fun s' => view s' = v).
Proof.
  intros Hv. unfold freeproc. do 4 keep_step.
  apply (view_modify_proc _ _ (fun p => (UNUSED, p.2))); [done|]. intros s' ->. by f_equal.
Qed.

Lemma valter_valter i g h v : valter i g (valter i h v) = valter i (fun p => g (h p)) v.
Proof. unfold valter. cbn. f_equal. apply list_alter_alter_eq. Qed.
Lemma valter_id i g v p : fv_procs v !! i = Some p -> g p = p -> valter i g v = v.
Proof.
  intros Hi Hg. rewrite (valter_vproc _ _ _ _ Hi), Hg. unfold vproc. rewrite list_insert_id by done. by destruct v.
Qed.

Lemma view_proc i p s : ks_proc s !! i = Some p -> fv_procs (view s) !! i = Some (pview p).
Proof. intros Hi. cbn. by rewrite list_lookup_fmap, Hi. Qed.

Lemma allocproc_view s : live (view s) ->
  wlx allocproc s (fun r s' => match r with
    | Some i => exists l, fv_procs (view s) !! i = Some (UNUSED, l) /\ view s' = vproc i (USED, l) (view s)
    | None => view s' = view s end) (fun s' => live (view s')).
Proof.
  intros Hl. unfold allocproc. apply wlx_bind, wlx_gets.
  destruct (list_find _ _) as [[i p]|] eqn:Hf; [|done].
  apply list_find_Some in Hf as (Hi & Hst & _). apply view_proc in Hi. unfold pview in Hi. rewrite Hst in Hi.
  remember (view s) as v eqn:Hv. symmetry in Hv.
  assert (forall st, live (valter i (fun p => (st, p.2)) v)) as Hlive.
  { intros st. rewrite (valter_vproc _ _ _ _ Hi). apply live_vproc_ne; [|done].
    intros ->. destruct Hl as (? & ? & Hme & Hd). rewrite Hi in Hme. simplify_eq. by destruct Hd; left. }
  assert (forall s1 : kern, view s1 = valter i (fun p => (USED, p.2)) v -> live (view s1)) as HX
    by (intros s1 ->; apply Hlive).
  assert (forall s1, view s1 = valter i (fun p => (USED, p.2)) v ->
    wlx (freeproc i ;;; ret None) s1 (fun (r : option nat) s' => r = None /\ view s' = v) (fun s' => live (view s'))) as Hfree.
  { intros s1 H1. apply wlx_bind. eapply wlx_mono; [by apply freeproc_view|cbn beta|exact HX].
    intros _ s2 H2. apply wlx_ret. split; [done|]. rewrite H2, valter_valter. by eapply valter_id. }
  eapply (wlx_keep view); [solve [unfold allocpid; keeps]|exact Hv|by intros s1 ->|]. intros pid s1 H1.
  apply (wlx_modify_proc i _ (fun p => (USED, p.2)) _ _ v); [done|done|]. intros s2 H2.
  do 2 (eapply (wlx_keep view); [solve [keeps]|exact H2|exact HX|]; clear dependent s2; intros ? s2 H2).
  destruct (_ =? 0). { eapply wlx_mono; [by apply Hfree| |done]. by intros ? ? [-> ?]. }
  do 3 (eapply (wlx_keep view); [solve [keeps]|exact H2|exact HX|]; clear dependent s2; intros ? s2 H2).
  destruct (_ =? 0). { eapply wlx_mono; [by apply Hfree| |done]. by intros ? ? [-> ?]. }
  eapply (wlx_keep view); [solve [keeps]|exact H2|exact HX|]. intros ? s3 H3. apply wlx_ret.
  exists (p_ofile p). rewrite H3. by rewrite (valter_vproc _ _ _ _ Hi).
Qed.

(** The child, np, whose descriptors from k on are still empty. *)
Definition forking (np : nat) (k : Z) (s : kern) : Prop :=
  vgood [] [] (view s) /\ np <> fv_me (view s) /\
  exists l, fv_procs (view s) !! np = Some (USED, l) /\ forall j, k <= Z.of_nat j < NOFILE -> l !! j = Some None.

Lemma owned_nil v : owned v [].
Proof. split; [constructor|by intros ?? ?%elem_of_nil]. Qed.

Lemma dup_files_forking np ofile s : forking np 0 s ->
  wlx (dup_files np ofile) s (fun _ s' => forking np NOFILE s') exited.
Proof.
  intros Hs. unfold dup_files. apply (wlx_iter (forking np)); [done|done|]. clear dependent s.
  intros k s Hk (Hg & Hne & l & Hnp & Hfree). destruct (ofile !!! Z.to_nat k) as [f|].
  2:{ apply wlx_ret. split_and!; [apply Hg..|done|]. exists l. split; [done|]. intros j Hj. apply Hfree. lia. }
  apply wlx_bind. eapply wlx_mono; [apply (filedup_view f s exited)| |done]. cbn beta.
  intros g s1 (-> & r & Hr & H1).
  apply (view_modify_proc _ _ (fun p => (p.1, <[Z.to_nat k := Some f]> p.2))); [done|]. intros s2 H2.
  assert (fv_procs (view s1) !! np = Some (USED, l)) as Hnp1 by by rewrite H1.
  rewrite (valter_vproc _ _ _ _ Hnp1), H1 in H2. cbn [fst snd] in H2.
  destruct Hg as (Hok & Hl & _). unfold forking, vgood. rewrite H2. split_and!.
  - apply fd_ok_install; [by apply fd_ok_take|done|by intros [|]|apply Hfree; lia].
  - by apply live_vproc_ne.
  - apply owned_nil.
  - done.
  - exists (<[Z.to_nat k := Some f]> l). split.
    + cbn [vproc fv_procs vref]. rewrite list_lookup_insert_eq; [done|]. by eapply lookup_lt_Some.
    + intros j Hj. rewrite list_lookup_insert_ne by lia. apply Hfree. lia.
Qed.

Lemma safe_kfork : safe ([], []) no_refs kfork.
Proof.
  intros s Hs. unfold kfork. apply wlx_bind. eapply wlx_mono; [apply allocproc_view, Hs|..]; cbn beta.
  2:{ intros s1. apply live_exited. }
  intros [np|] s1 H1; [|apply wlx_ret; unfold good; by rewrite H1]. destruct H1 as (l & Hnp & H1).
  pose proof Hs as (Hok & Hl & _). cbn [fst snd] in *. set (v := view s) in *.
  assert (np <> fv_me v) as Hne.
  { intros ->. destruct Hl as (? & ? & Hme & Hd). rewrite Hnp in Hme. simplify_eq. by destruct Hd; left. }
  set (v1 := vproc np (USED, l) v) in *.
  assert (live v1) as Hl1 by by apply live_vproc_ne.
  assert (forall s' : kern, view s' = v1 -> exited s') as HX by (intros s' E; apply live_exited; by rewrite E).
  do 3 (eapply (wlx_keep view); [solve [keeps]|exact H1|exact HX|]; clear dependent s1; intros ? s1 H1).
  destruct (_ <? 0).
  { apply wlx_bind. eapply wlx_mono; [by apply freeproc_view| |exact HX]. cbn beta. intros _ s2 H2. apply wlx_ret.
    unfold good. rewrite H2. replace v1 with (valter np (fun p => (USED, p.2)) v) by exact (valter_vproc np (fun p => (USED, p.2)) v _ Hnp).
    rewrite valter_valter. by rewrite (valter_id _ _ _ _ Hnp). }
  do 3 (eapply (wlx_keep view); [solve [keeps]|exact H1|exact HX|]; clear dependent s1; intros ? s1 H1).
  apply wlx_bind. eapply wlx_mono; [apply dup_files_forking| |done].
  { unfold forking, vgood. rewrite H1. split_and!; [|done|apply owned_nil|done|].
    - eapply fd_ok_state; [done|done|by intros [|]].
    - exists l. split; [apply list_lookup_insert_eq; by eapply lookup_lt_Some|]. intros j Hj.
      pose proof (fo_len _ _ Hok _ _ Hnp) as Hlen. cbn [snd] in Hlen.
      assert (j < length l)%nat as [o Ho]%lookup_lt_is_Some_2 by lia.
      destruct o as [f|]; [|done]. destruct (fo_dead _ _ Hok _ _ j f Hnp); [by left|done]. }
  cbn beta. intros _ s2 (Hg & Hne2 & l2 & Hnp2 & _). remember (view s2) as v2 eqn:H2. symmetry in H2.
  assert (forall s' : kern, view s' = v2 -> exited s') as HX2.
  { intros s' E. apply live_exited. rewrite E. apply Hg. }
  do 5 (eapply (wlx_keep view); [solve [keeps]|exact H2|exact HX2|]; clear dependent s2; intros ? s2 H2).
  apply (wlx_modify_proc np _ (fun p => (RUNNABLE, p.2)) _ _ v2); [done|done|]. intros s3 H3. apply wlx_ret.
  unfold good. rewrite H3, (valter_vproc _ _ _ _ Hnp2). destruct Hg as (Hok2 & Hl2 & _).
  split_and!; [|by apply live_vproc_ne|apply owned_nil]. eapply fd_ok_state; [done|done|by intros [|]].
Qed.

(** Freeing a process that is dead already. *)
Lemma safe_reap s i l : good [] [] s -> fv_procs (view s) !! i = Some (ZOMBIE, l) ->
  wlx (freeproc i) s (fun _ s' => good [] [] s') exited.
Proof.
  intros (Hok & Hl & _) Hi. eapply wlx_mono; [by apply freeproc_view|..]; cbn beta.
  - intros _ s' Hv. unfold good. rewrite Hv, (valter_vproc _ _ _ _ Hi). cbn [snd]. split_and!; [| |apply owned_nil].
    + eapply fd_ok_state; [done|done|]. intros _ fd f. apply (fo_dead _ _ Hok _ _ fd f Hi). by right.
    + apply live_vproc_ne; [|done]. intros ->. destruct Hl as (? & ? & Hme & Hd). rewrite Hi in Hme. simplify_eq.
      by destruct Hd; right.
  - intros s' Hv. by eapply exited_view.
Qed.

Lemma safe_kwait_scan n i addr hk : safe ([], []) no_refs (kwait_scan n i addr hk).
Proof.
  revert i hk. induction n as [|n IH]; intros i hk; cbn [kwait_scan]; [by apply safe_ret|].
  intros s Hs. apply wlx_bind, wlx_gets, wlx_bind, wlx_gets. cbn beta.
  case_bool_decide; [|by apply IH]. case_bool_decide as Hz; [|by apply IH].
  eapply (wlx_keep view); [solve [keeps]|done|intros s1; apply exited_view, Hs|]. intros r s1 H1.
  destruct (r <? 0); [apply wlx_ret; unfold good; by rewrite H1|]. apply wlx_bind.
  apply (wlx_mono _ _ (fun _ s' => good [] [] s') _ exited); [|intros; by apply wlx_ret|done].
  unfold proc_at in Hz. rewrite list_lookup_total_alt in Hz. destruct (ks_proc s !! i) as [p|] eqn:Hi; [|done].
  cbn in Hz. apply view_proc in Hi. unfold pview in Hi. rewrite Hz, <- H1 in Hi. eapply safe_reap; [|done].
  unfold good. by rewrite H1.
Qed.

Lemma safe_kwait addr : safe ([], []) no_refs (kwait addr).
Proof.
  unfold kwait. eapply safe_bind; [apply safe_kwait_scan|]. intros [r|hk]; [by apply safe_ret|].
  apply safe_keeps. keeps.
Qed.

Lemma safe_kkill pid : safe ([], []) no_refs (kkill pid).
Proof.
  intros s (Hok & Hl & _). unfold kkill. apply wlx_bind, wlx_gets. cbn [fst snd] in *.
  destruct (list_find _ _) as [[i p]|] eqn:Hf; [|apply wlx_ret; split_and!; [done..|apply owned_nil]].
  apply list_find_Some in Hf as (Hi & _ & _). apply view_proc in Hi.
  apply (wlx_modify_proc i _ (fun p => (if bool_decide (p.1 = SLEEPING) then RUNNABLE else p.1, p.2)) _ _ (view s));
    [done|done|]. intros s1 H1. apply wlx_ret. unfold good. rewrite H1, (valter_vproc _ _ _ _ Hi).
  destruct (pview p) as [st l]. cbn [fst snd].
  assert (forall st', dead (if bool_decide (st' = SLEEPING) then RUNNABLE else st') -> dead st') as Hdead.
  { intros st'. case_bool_decide; [by intros [|]|done]. }
  split_and!; [| |apply owned_nil].
  - eapply fd_ok_state; [done|done|]. intros Hd fd f. apply (fo_dead _ _ Hok _ _ fd f Hi), Hdead, Hd.
  - destruct (decide (i = fv_me (view s))) as [->|Hne]; [|by apply live_vproc_ne].
    apply live_vproc_me; [done|]. destruct Hl as (? & ? & Hme & Hd). rewrite Hi in Hme. simplify_eq. eauto.
Qed.

(** [close_files]: after iteration k, the descriptors up to k are empty. *)
Definition closing (k : Z) (s : kern) : Prop :=
  vgood [] [] (view s) /\
  forall st l j, fv_procs (view s) !! fv_me (view s) = Some (st, l) -> Z.of_nat j < k -> forall f, l !! j <> Some (Some f).

Lemma vgood_close v st l fd f r : vgood [] [] v -> fv_procs v !! fv_me v = Some (st, l) -> l !! fd = Some (Some f) ->
  fv_refs v !! f = Some r -> vgood [] [] (vproc (fv_me v) (st, <[fd := None]> l) (vref f (r - 1) v)).
Proof.
  intros Hg Hme Hfd Hr.
  assert (vgood [] [(fd, f)] v) as Ho.
  { destruct Hg as (? & ? & _). split_and!; [done|done|split; [apply NoDup_singleton|]].
    intros ? ? [= -> ->]%list_elem_of_singleton. eauto. }
  apply (vgood_remove _ _ _ _ _ _ _ Ho) in Hme. by apply (vgood_drop _ _ _ _ r) in Hme.
Qed.

Lemma close_files_closing s : good [] [] s -> wlx close_files s (fun _ s' => closing NOFILE s') exited.
Proof.
  intros Hs. unfold close_files. apply (wlx_iter closing); [done|split; [done|lia]|]. clear dependent s.
  intros k s Hk [Hg Hdone]. apply wlx_bind, wlx_gets. pose proof Hg as (_ & (st & l & Hme & _) & _).
  assert (p_ofile (me s) = l) as ->.
  { unfold me, proc_at. rewrite list_lookup_total_alt. cbn in Hme. rewrite list_lookup_fmap in Hme.
    destruct (ks_proc s !! ks_me s); [by injection Hme|done]. }
  rewrite list_lookup_total_alt. destruct (l !! Z.to_nat k) as [[f|]|] eqn:Hfd; cbn.
  2,3: split; [done|]; intros st' l' j Hme' Hj f; rewrite Hme in Hme'; injection Hme' as <- <-;
    destruct (decide (Z.of_nat j = k)) as [<-|];
    [rewrite Nat2Z.id in Hfd; by rewrite Hfd|apply (Hdone st l j); [done|lia]].
  apply wlx_bind. eapply wlx_mono; [apply fileclose_view|..]; cbn beta.
  2:{ intros s' (r & _ & Hv). eapply exited_view; [|exact Hv]. apply Hg. }
  intros _ s1 (r & Hr & H1).
  apply (view_modify_me _ (fun p => (p.1, <[Z.to_nat k := None]> p.2))); [done|]. intros s2 H2.
  rewrite H1 in H2. cbn [vref fv_me] in H2.
  rewrite (valter_vproc _ _ (vref f (r - 1) (view s)) _ Hme) in H2. cbn [fst snd] in H2.
  assert (vgood [] [] (view s2)) as Hg2 by (rewrite H2; by apply vgood_close). split; [done|].
  intros st' l' j Hme' Hj g. rewrite H2 in Hme'. cbn [vproc vref fv_procs fv_me] in Hme'.
  rewrite list_lookup_insert_eq in Hme' by (by eapply lookup_lt_Some). injection Hme' as <- <-.
  intros [(_ & ? & _)|[Hn Hg']]%list_lookup_insert_Some; [done|].
  eapply (Hdone st l j); [done|lia|exact Hg'].
Qed.

Lemma keeps_reparent p : keeps (reparent p).
Proof. unfold reparent. keeps. Qed.
#[local] Hint Resolve keeps_reparent : keeps.

Lemma safe_kexit status : safe ([], []) no_refs (kexit status).
Proof.
  intros s Hs. unfold kexit. apply wlx_bind, wlx_gets, wlx_bind, wlx_gets. cbn beta.
  case_bool_decide; [apply wlx_panic|]. apply wlx_bind. eapply wlx_mono; [by apply close_files_closing| |done].
  generalize (ks_me s) as i. intros i. clear dependent s. cbn beta. intros _ s [Hg Hdone].
  remember (view s) as v eqn:Hv. symmetry in Hv.
  assert (forall s' : kern, view s' = v -> exited s') as HX.
  { intros s' E. eapply exited_view; [|exact E]. apply Hg. }
  do 8 (eapply (wlx_keep view); [solve [keeps]|exact Hv|exact HX|]; clear dependent s; intros ? s Hv).
  apply wlx_bind. apply (view_modify_me _ (fun p => (ZOMBIE, p.2))); [done|]. intros s' Hv'.
  unfold wlx. cbn. intros _. rewrite Hv', Hv. destruct Hg as (Hok & (st & l & Hme & _) & _).
  rewrite (valter_vproc _ _ _ _ Hme). eapply fd_ok_state; [done|done|]. intros _ fd f Hfd.
  eapply (Hdone st l fd); [done| |exact Hfd]. apply lookup_lt_Some in Hfd as Hlt.
  pose proof (fo_len _ _ Hok _ _ Hme) as Hlen. cbn [snd] in Hlen, Hlt. lia.
Qed.

(** ** Every system call *)

#[local] Hint Resolve keeps_sys_read keeps_sys_write keeps_sys_fstat keeps_sys_link keeps_sys_unlink keeps_sys_mkdir
  keeps_sys_mknod keeps_sys_chdir keeps_sys_exec keeps_sys_sbrk keeps_sys_pause keeps_fsinfo_call : keeps.

Lemma keeps_sys_getpid : keeps sys_getpid.
Proof. apply frame_gets. Qed.
Lemma keeps_sys_uptime : keeps sys_uptime.
Proof. apply frame_gets. Qed.
#[local] Hint Resolve keeps_sys_getpid keeps_sys_uptime : keeps.

Lemma safe_sys_exit : safe ([], []) no_refs sys_exit.
Proof.
  unfold sys_exit. eapply safe_bind; [apply safe_keeps, keeps_argint|]. intros ?.
  eapply safe_bind; [apply safe_kexit|]. intros ?. by apply safe_ret.
Qed.
Lemma safe_sys_wait : safe ([], []) no_refs sys_wait.
Proof. unfold sys_wait. eapply safe_bind; [apply safe_keeps, keeps_argaddr|]. intros ?. apply safe_kwait. Qed.
Lemma safe_sys_kill : safe ([], []) no_refs sys_kill.
Proof. unfold sys_kill. eapply safe_bind; [apply safe_keeps, keeps_argint|]. intros ?. apply safe_kkill. Qed.

Lemma safe_syscalls num f : syscalls num = Some f -> safe ([], []) no_refs f.
Proof.
  unfold syscalls. intros Hf. repeat case_match; simplify_eq;
    lazymatch goal with
    | |- safe _ _ sys_dup => apply safe_sys_dup
    | |- safe _ _ sys_close => apply safe_sys_close
    | |- safe _ _ sys_open => apply safe_sys_open
    | |- safe _ _ sys_pipe => apply safe_sys_pipe
    | |- safe _ _ sys_fork => apply safe_kfork
    | |- safe _ _ sys_exit => apply safe_sys_exit
    | |- safe _ _ sys_wait => apply safe_sys_wait
    | |- safe _ _ sys_kill => apply safe_sys_kill
    | |- safe _ _ _ => apply safe_keeps; solve [eauto with keeps nocore]
    end.
Qed.

(** C23. Every system call, through the dispatcher, preserves the invariant
    of open files: a file's count is the number of descriptors, over all
    processes, that refer to it (so a file is free exactly when nothing refers
    to it), every descriptor refers to an entry of the table, and processes
    that are unused or zombies hold none.  When the call is exit, which does
    not return, the invariant holds in the state the scheduler gets, with all
    descriptors of the process closed. *)
Theorem fd_refcounts s : good [] [] s -> wlx syscall s (fun _ s' => good [] [] s') exited.
Proof.
  revert s. change (safe ([], []) no_refs syscall). unfold syscall.
  do 2 (eapply safe_bind; [apply safe_keeps; solve [keeps]|]; intros ?).
  destruct (syscalls _) as [f|] eqn:Hf; [|apply safe_keeps; keeps].
  eapply safe_bind; [by eapply safe_syscalls|]. intros r. apply safe_keeps. keeps.
Qed.
End processes.

(** A kernel with one running process, one open file, and a call of dup(0) in
    the trapframe. *)
#[local] Instance demo_machine : Machine := {|
  kend := 0x80021000; trampoline := 0x80007000; uservec := 0; userret := 0; usertrap_addr := 0; forkret_addr := 0;
  stat_padding := [0; 0; 0; 0] |}.
Definition no_files : list (option nat) := replicate 16 None.
Definition demo_proc : proc :=
  mkProc RUNNING None 0 0 1 None 0 0 0 4096 (0, 0) (<[0%nat := Some 0%nat]> no_files) None (replicate 16 0).
Definition demo_kern : kern :=
  mkKern (mkLst (mkBst [] ∅ 1) 0 0 false 1 0 []) (mkSb 0 0 0 0 0 0 0 0) []
    (mkKst (store64 (fun _ => 0) (4096 + TF_a7) 10) 0) (mkCons [] 0 0 0) false
    (set_fref 1 file0 :: replicate 99 file0) ∅ (demo_proc :: replicate 63 proc0) 0 0 2 0.

Lemma demo_refs f : refs (view demo_kern) f = if decide (f = 0%nat) then 1%nat else 0%nat.
Proof. by destruct f. Qed.

Lemma demo_good : good [] [] demo_kern.
Proof.
  assert (forall i p, fv_procs (view demo_kern) !! i = Some p ->
    i = 0%nat /\ p = pview demo_proc \/ p = (UNUSED, no_files)) as Hp.
  { intros [|i] p; [intros [= <-]; by left|]. change (replicate 63 (UNUSED, no_files) !! i = Some p -> S i = 0%nat /\ p = pview demo_proc \/ p = (UNUSED, no_files)).
    intros [-> _]%lookup_replicate. by right. }
  assert (forall fd f, no_files !! fd <> Some (Some f)) as Hno by by intros fd f [? _]%lookup_replicate.
  split_and!; [split| |apply owned_nil].
  - by intros i p [[_ ->]| ->]%Hp.
  - intros i p fd f [[_ ->]| ->]%Hp Hf; [|by destruct (Hno fd f)].
    apply list_lookup_insert_Some in Hf as [(_ & [= <-] & _)|[_ Hf]]; [cbn; lia|by destruct (Hno fd f)].
  - by intros f ?%elem_of_nil.
  - intros f r Hr. rewrite demo_refs. destruct f as [|f]; [by injection Hr as <-|].
    change (replicate 99 0 !! f = Some r) in Hr. by apply lookup_replicate in Hr as [-> _].
  - intros i p fd f [[_ ->]| ->]%Hp Hd; [by destruct Hd|apply Hno].
  - exists RUNNING, (p_ofile demo_proc). split; [done|by intros [|]].
Qed.

Lemma fd_refcounts_witness :
  wlx syscall demo_kern (fun _ s' => good [] [] s') exited /\
  match syscall demo_kern with Ret _ s' _ => fl_ref (file_at 0 s') = 2 | _ => False end.
Proof. split; [exact (fd_refcounts demo_kern demo_good)|by vm_compute]. Defined.
