(* ===== verification/Ulib.v ===== *)
(** * The user library ([user/ulib.c])

    A C string argument is the list of its bytes before the NUL.  [strlen]
    and [memset] are those of the kernel ([CString]); [memmove], [memcmp] and
    the others differ in their code.  Reads come from a stream of bytes; int
    arithmetic wraps at 32 bits. *)
From S2P Require Import Prelude CString.

Module Ulib.

(** The bytes stored at the destination: the string and its NUL. *)
Fixpoint strcpy (t : bytes) : bytes :=
  match t with
  | [] => [0]
  | c :: t => c :: strcpy t
  end.

Definition head0 (q : bytes) : Z := match q with [] => 0 | c :: _ => c end.

Fixpoint strcmp (p q : bytes) : Z :=
  match p with
  | [] => 0 - head0 q
  | c :: p' => if c =? head0 q then strcmp p' (tail q) else c - head0 q
  end.

(** The index of the first c before the NUL. *)
Fixpoint strchr (s : bytes) (c : Z) : option nat :=
  match s with
  | [] => None
  | b :: s => if b =? 0 then None else if b =? c then Some O else option_map S (strchr s c)
  end.

(** What [gets] stores, without the NUL, and the input it leaves; n is the
    number of bytes that still fit. *)
Fixpoint gets_loop (n : nat) (input : bytes) : bytes * bytes :=
  match n, input with
  | S n, c :: input =>
      if (c =? 10) || (c =? 13) then ([c], input)
      else let r := gets_loop n input in (c :: r.1, r.2)
  | _, _ => ([], input)
  end.
Definition gets (max : Z) (input : bytes) : bytes * bytes := gets_loop (Z.to_nat (max - 1)) input.

Definition isdigit (c : Z) : bool := (48 <=? c) && (c <=? 57).
Fixpoint atoi_loop (s : bytes) (n : Z) : Z :=
  match s with
  | c :: s => if isdigit c then atoi_loop s (i32 (n * 10 + c - 48)) else n
  | [] => n
  end.
Definition atoi (s : bytes) : Z := atoi_loop s 0.

Definition memmove (m : mem) (dst src n : Z) : mem :=
  if dst <? src then copy_up m dst src (Z.to_nat n)
  else copy_down m (dst + n) (src + n) (Z.to_nat n).

Fixpoint memcmp (n : nat) (p1 p2 : bytes) : Z :=
  match n with
  | O => 0
  | S n => if negb (head0 p1 =? head0 p2) then head0 p1 - head0 p2 else memcmp n (tail p1) (tail p2)
  end.
Definition memcpy (m : mem) (dst src n : Z) : mem := memmove m dst src n.

End Ulib.

(** ** Correctness *)

Definition string_ok (s : bytes) : Prop := Forall (fun c => 0 < c < 256) s.

(** Lexicographic order of byte strings. *)
Inductive lex_lt : bytes -> bytes -> Prop :=
  | lex_nil c q : lex_lt [] (c :: q)
  | lex_head a b p q : a < b -> lex_lt (a :: p) (b :: q)
  | lex_tail a p q : lex_lt p q -> lex_lt (a :: p) (a :: q).

Lemma strcmp_lex p q : string_ok p -> string_ok q ->
  (Ulib.strcmp p q = 0 <-> p = q) /\ (Ulib.strcmp p q < 0 <-> lex_lt p q) /\ (0 < Ulib.strcmp p q <-> lex_lt q p).
Proof.
  intros Hp. revert q. induction Hp as [|a p Ha _ IH]; intros [|b q] Hq; cbn.
  - split_and!; [done|split; [lia|intros H; inversion H]..].
  - apply Forall_cons in Hq as [Hb _]. split_and!; split; try lia; try done; [|intros H; inversion H].
    intros _. constructor.
  - destruct (Z.eqb_spec a 0) as [|_]; [lia|]. split_and!; split; try lia; try done; [intros H; inversion H|].
    intros _. constructor.
  - apply Forall_cons in Hq as [Hb Hq]. destruct (Z.eqb_spec a b) as [->|Hne].
    + destruct (IH q Hq) as (H1 & H2 & H3). split_and!.
      * rewrite H1. split; [by intros ->|by intros [= ->]].
      * rewrite H2. split; [by constructor|]. intros H; inversion H; subst; [lia|done].
      * rewrite H3. split; [by constructor|]. intros H; inversion H; subst; [lia|done].
    + split_and!.
      * split; [lia|by intros [= -> _]].
      * split; [intros; constructor; lia|]. intros H; inversion H; subst; lia.
      * split; [intros; constructor; lia|]. intros H; inversion H; subst; lia.
Qed.

(** Both [memmove]s give every destination byte the source byte of the memory
    before the call. *)
Lemma ulib_memmove_at m dst src n a : 0 <= n ->
  Ulib.memmove m dst src n a = if decide (dst <= a < dst + n) then m (src + (a - dst)) else m a.
Proof.
  intros Hn. unfold Ulib.memmove. destruct (Z.ltb_spec dst src).
  - rewrite copy_up_at, Z2Nat.id by lia. done.
  - rewrite copy_down_at by lia. rewrite Z2Nat.id by lia.
    destruct (decide (dst <= a < dst + n)); [rewrite decide_True by lia; f_equal; lia|by rewrite decide_False by lia].
Qed.

(** The number a list of digits stands for, most significant first. *)
Definition dec_value (ds : bytes) : Z := foldl (fun n c => n * 10 + (c - 48)) 0 ds.

Lemma i32_add_mul x y z : i32 (i32 x * y + z) = i32 (x * y + z).
Proof.
  unfold i32. f_equal. set (w := (x + 2^31) `mod` 2^32).
  assert ((w - 2^31) `mod` 2^32 = x `mod` 2^32) as E.
  { unfold w. rewrite Zminus_mod_idemp_l. f_equal. lia. }
  rewrite (Zplus_mod (_ + z)), (Zplus_mod _ z), (Zmult_mod (w - 2^31)), E.
  rewrite <- (Zmult_mod x), <- (Zplus_mod _ z), <- Zplus_mod. done.
Qed.

Lemma atoi_loop_digits ds rest n : Forall (fun c => Ulib.isdigit c = true) ds ->
  (forall c r, rest = c :: r -> Ulib.isdigit c = false) ->
  Ulib.atoi_loop (ds ++ rest) (i32 n) = i32 (foldl (fun n c => n * 10 + (c - 48)) n ds).
Proof.
  intros Hds Hrest. revert n. induction Hds as [|c ds Hc _ IH]; intros n; cbn [app Ulib.atoi_loop foldl].
  - destruct rest as [|c r]; cbn; [done|]. by rewrite (Hrest c r eq_refl).
  - rewrite Hc. rewrite <- IH. f_equal. replace (i32 n * 10 + c - 48) with (i32 n * 10 + (c - 48)) by lia.
    apply i32_add_mul.
Qed.

(** A line: bytes up to a line end. *)
Definition no_eol (l : bytes) : Prop := Forall (fun c => c <> 10 /\ c <> 13) l.

Lemma gets_loop_line n l e rest : no_eol l -> e = 10 \/ e = 13 -> (length l < n)%nat ->
  Ulib.gets_loop n (l ++ e :: rest) = (l ++ [e], rest).
Proof.
  intros Hl He. revert n. induction Hl as [|c l [H1 H2] _ IH]; intros [|n] Hn; cbn in *; try lia.
  - by replace ((e =? 10) || (e =? 13)) with true by lia.
  - replace ((c =? 10) || (c =? 13)) with false by lia. by rewrite IH by lia.
Qed.

Lemma gets_loop_part n l rest : no_eol l -> length l = n \/ (length l < n)%nat /\ rest = [] ->
  Ulib.gets_loop n (l ++ rest) = (l, rest).
Proof.
  intros Hl. revert n. induction Hl as [|c l [H1 H2] _ IH]; intros [|n] Hn; cbn in *.
  - done.
  - destruct Hn as [|[_ ->]]; [lia|done].
  - destruct Hn; lia.
  - replace ((c =? 10) || (c =? 13)) with false by lia. rewrite IH; [done|].
    destruct Hn as [|[? ->]]; [left; lia|right; split; [lia|done]].
Qed.


