(* ===== verification/Grep.v ===== *)
(** * grep ([user/grep.c])

    The matcher, on C strings given as their bytes before the NUL, and the
    search through the lines of the 1024-byte buffer.  [User] has the loop that
    reads and [main]. *)
From S2P Require Import Prelude CString Ulib.

Module Grep.

Definition STAR : Z := 42.
Definition ANY : Z := 46.
Definition CARET : Z := 94.
Definition DOLLAR : Z := 36.
Definition NL : Z := 10.

(** [matchstar(c, re, text)], where [here] is matchhere of re. *)
Fixpoint matchstar (here : bytes -> bool) (c : Z) (text : bytes) : bool :=
  if here text then true
  else match text with
       | t :: text => if (t =? c) || (c =? ANY) then matchstar here c text else false
       | [] => false
       end.

Fixpoint matchhere (re : bytes) (text : bytes) {struct re} : bool :=
  match re with
  | [] => true
  | c :: re1 =>
      if Ulib.head0 re1 =? STAR then
        match re1 with
        | [] => false
        | _ :: re2 => matchstar (matchhere re2) c text
        end
      else if (c =? DOLLAR) && bool_decide (re1 = []) then bool_decide (text = [])
      else match text with
           | t :: text => if (c =? ANY) || (c =? t) then matchhere re1 text else false
           | [] => false
           end
  end.

(** The do loop of [match]. *)
Fixpoint match_any (re text : bytes) : bool :=
  if matchhere re text then true
  else match text with
       | _ :: text => match_any re text
       | [] => false
       end.
Definition grep_match (re text : bytes) : bool :=
  if Ulib.head0 re =? CARET then matchhere (tail re) text else match_any re text.

(** The loop over the complete lines in buf from p on: the buffer, the start of
    the line that is not complete, and the output. *)
Fixpoint scan (fuel : nat) (pattern buf : bytes) (p : nat) (out : bytes) : bytes * nat * bytes :=
  match fuel with
  | O => (buf, p, out)
  | S fuel =>
      match Ulib.strchr (drop p buf) NL with
      | None => (buf, p, out)
      | Some k =>
          let q := (p + k)%nat in
          let buf := <[q := 0]> buf in
          if grep_match pattern (cstring (drop p buf)) then
            let buf := <[q := NL]> buf in
            scan fuel pattern buf (q + 1) (out ++ slice buf p (q + 1 - p))
          else scan fuel pattern buf (q + 1) out
      end
  end.

Definition BUFSIZE : nat := 1024.

End Grep.

(** ** What the patterns mean *)

(** A pattern is a list of items; c stands for itself, except that '.' stands
    for any character. *)
Inductive item : Set := One (c : Z) | Many (c : Z) | Eol.

Fixpoint items (re : bytes) : list item :=
  match re with
  | [] => []
  | c :: re1 =>
      match re1 with
      | [] => if c =? Grep.DOLLAR then [Eol] else [One c]
      | s :: re2 => if s =? Grep.STAR then Many c :: items re2 else One c :: items re1
      end
  end.

Definition accepts (c t : Z) : Prop := c = Grep.ANY \/ c = t.

(** [denotes r w rest]: the items r match w where rest follows. *)
Inductive denotes : list item -> bytes -> bytes -> Prop :=
  | den_nil rest : denotes [] [] rest
  | den_one c t r w rest : accepts c t -> denotes r w rest -> denotes (One c :: r) (t :: w) rest
  | den_many c u r w rest : Forall (accepts c) u -> denotes r w rest -> denotes (Many c :: r) (u ++ w) rest
  | den_eol : denotes [Eol] [] [].

Lemma matchstar_spec here c text :
  Grep.matchstar here c text = true <-> exists u v, text = u ++ v /\ Forall (accepts c) u /\ here v = true.
Proof.
  induction text as [|t text IH]; cbn.
  - destruct (here []) eqn:Hh; split; [intros _; by exists [], []|done|done|].
    intros ([|] & [|] & E & _ & Hv); [congruence|done..].
  - destruct (here (t :: text)) eqn:Hh; [split; [intros _; by exists [], (t :: text)|done]|].
    destruct ((t =? c) || (c =? Grep.ANY)) eqn:Hc.
    + rewrite IH. split.
      * intros (u & v & -> & Hu & Hv). exists (t :: u), v. split_and!; [done| |done]. constructor; [|done].
        unfold accepts, Grep.ANY in *. lia.
      * intros ([|t' u] & v & E & Hu & Hv); cbn in E; [subst; congruence|]. injection E as <- ->.
        apply Forall_cons in Hu as [_ Hu]. eauto.
    + split; [done|]. intros ([|t' u] & v & E & Hu & Hv); cbn in E; [subst; congruence|]. injection E as <- ->.
      apply Forall_cons in Hu as [Ht _]. unfold accepts, Grep.ANY in *. lia.
Qed.


Lemma matchhere_one c re text : Ulib.head0 re <> Grep.STAR -> (c = Grep.DOLLAR -> re <> []) ->
  Grep.matchhere (c :: re) text = true <-> exists t u, text = t :: u /\ accepts c t /\ Grep.matchhere re u = true.
Proof.
  intros Hs Hd. cbn. destruct (Z.eqb_spec (Ulib.head0 re) Grep.STAR) as [|_]; [done|].
  replace ((c =? Grep.DOLLAR) && bool_decide (re = [])) with false.
  2:{ destruct (Z.eqb_spec c Grep.DOLLAR) as [Hc|]; [|done]. rewrite bool_decide_false by auto. done. }
  unfold accepts. destruct text as [|t u]; [split; [done|by intros (? & ? & ? & _)]|].
  destruct ((c =? Grep.ANY) || (c =? t)) eqn:Hc.
  - split; [intros H; exists t, u; split_and!; [done|unfold Grep.ANY in *; lia|done]|by intros (? & ? & [= <- <-] & _ & H)].
  - split; [done|]. intros (? & ? & [= <- <-] & H & _). unfold Grep.ANY in *. lia.
Qed.

Lemma items_one c re : Ulib.head0 re <> Grep.STAR -> (c = Grep.DOLLAR -> re <> []) -> items (c :: re) = One c :: items re.
Proof.
  intros Hs Hd. cbn [items]. destruct re as [|s re].
  - destruct (Z.eqb_spec c Grep.DOLLAR) as [Hc|]; [by destruct (Hd Hc)|done].
  - destruct (Z.eqb_spec s Grep.STAR); done.
Qed.

Lemma matchhere_spec n re text : (length re <= n)%nat ->
  Grep.matchhere re text = true <-> exists w rest, text = w ++ rest /\ denotes (items re) w rest.
Proof.
  revert re text. induction n as [|n IH]; intros [|c re] text Hn; cbn [length] in Hn; try lia.
  1,2: split; [intros _; exists [], text; split; [done|constructor]|done].
  destruct (decide (Ulib.head0 re = Grep.STAR)) as [Hs|Hs].
  { destruct re as [|s re]; [done|]. cbn in Hs. subst s. cbn [Grep.matchhere items Ulib.head0 length] in *.
    rewrite Z.eqb_refl, matchstar_spec. split.
    - intros (u & v & -> & Hu & (w & rest & -> & Hw)%IH); [|lia]. exists (u ++ w), rest.
      split; [by rewrite app_assoc|by constructor].
    - intros (w & rest & -> & Hw). inversion Hw as [|?|c' u r w' rest' Hu Hw'|]; subst. exists u, (w' ++ rest).
      split_and!; [by rewrite app_assoc|done|]. apply IH; [lia|]. eauto. }
  destruct (decide (c = Grep.DOLLAR /\ re = [])) as [[-> ->]|Hd].
  { cbn. rewrite bool_decide_eq_true. split.
    - intros ->. exists [], []. split; [done|constructor].
    - intros (w & rest & -> & Hw). by inversion Hw. }
  rewrite matchhere_one, items_one by (auto || naive_solver). split.
  - intros (t & u & -> & Ht & (w & rest & -> & Hw)%IH); [|lia]. exists (t :: w), rest. split; [done|by constructor].
  - intros (w & rest & -> & Hw). inversion Hw as [|c' t r w' rest' Ht Hw'| |]; subst. exists t, (w' ++ rest).
    split_and!; [done|done|]. apply IH; [lia|]. eauto.
Qed.

Lemma match_any_spec re text :
  Grep.match_any re text = true <-> exists pre text', text = pre ++ text' /\ Grep.matchhere re text' = true.
Proof.
  induction text as [|t text IH]; cbn.
  - destruct (Grep.matchhere re []) eqn:Hh; split; [intros _; by exists [], []|done|done|].
    intros ([|] & [|] & ? & ?); simplify_eq/=. congruence.
  - destruct (Grep.matchhere re (t :: text)) eqn:Hh; [split; [intros _; by exists [], (t :: text)|done]|].
    rewrite IH. split.
    + intros (pre & text' & -> & H). by exists (t :: pre), text'.
    + intros ([|t' pre] & text' & E & H); cbn in E; [subst; congruence|]. injection E as <- ->. eauto.
Qed.

(** C25. The matcher of grep decides whether some part of the text matches the
    pattern: text = pre ++ w ++ post where the pattern's items (characters,
    '.' for any one, each followed or not by '*', and '$' at the end) denote
    w, with pre empty when the pattern starts with '^', and post empty when
    it ends with '$'. *)
Theorem grep_match_correct re text :
  Grep.grep_match re text = true <->
  exists pre w post, text = pre ++ w ++ post /\
    (if decide (Ulib.head0 re = Grep.CARET) then pre = [] /\ denotes (items (tail re)) w post
     else denotes (items re) w post).
Proof.
  unfold Grep.grep_match. destruct (Z.eqb_spec (Ulib.head0 re) Grep.CARET) as [Hc|Hc].
  - rewrite (matchhere_spec (length (tail re))) by lia. split.
    + intros (w & post & -> & Hw). exists [], w, post. by rewrite decide_True by done.
    + intros (pre & w & post & -> & Hw). rewrite decide_True in Hw by done. destruct Hw as [-> Hw]. by exists w, post.
  - rewrite match_any_spec. split.
    + intros (pre & text' & -> & (w & post & -> & Hw)%(matchhere_spec (length re))); [|lia].
      exists pre, w, post. by rewrite decide_False by done.
    + intros (pre & w & post & -> & Hw). rewrite decide_False in Hw by done. exists pre, (w ++ post). split; [done|].
      apply (matchhere_spec (length re)); [lia|]. eauto.
Qed.

(** ** Reading a file *)

Definition terminated (l : bytes) : bytes := l ++ [Grep.NL].

(** The lines of the input, read character by character; [cur] is the line so
    far.  The buffer holds at most 1023 bytes of a line with its line end. *)
Fixpoint lines (cur input : bytes) : list bytes :=
  match input with
  | [] => []
  | c :: input =>
      if decide (length cur = 1023%nat) then []
      else if c =? Grep.NL then cur :: lines [] input
      else lines (cur ++ [c]) input
  end.

(** The same for a chunk, with the line it leaves incomplete. *)
Fixpoint cut (cur chunk : bytes) : list bytes * bytes :=
  match chunk with
  | [] => ([], cur)
  | c :: chunk =>
      if c =? Grep.NL then let r := cut [] chunk in (cur :: r.1, r.2)
      else cut (cur ++ [c]) chunk
  end.

Lemma lines_cut chunk : forall cur rest, (length cur + length chunk <= 1023)%nat ->
  lines cur (chunk ++ rest) = (cut cur chunk).1 ++ lines (cut cur chunk).2 rest.
Proof.
  induction chunk as [|c chunk IH]; intros cur rest Hlen; cbn [app cut lines length] in *; [done|].
  rewrite decide_False by lia. destruct (c =? Grep.NL); cbn [fst snd app].
  - f_equal. apply IH. cbn. lia.
  - apply IH. rewrite length_app. cbn. lia.
Qed.

Lemma cut_no_nl l : forall cur rest, Grep.NL ∉ l -> cut cur (l ++ rest) = cut (cur ++ l) rest.
Proof.
  induction l as [|c l IH]; intros cur rest Hl; [by rewrite app_nil_r|]. apply not_elem_of_cons in Hl as [Hc Hl].
  cbn. destruct (Z.eqb_spec c Grep.NL); [congruence|]. by rewrite IH, <- app_assoc.
Qed.

Lemma cut_length chunk : forall cur, (length (cut cur chunk).2 <= length cur + length chunk)%nat.
Proof.
  induction chunk as [|c chunk IH]; intros cur; cbn; [lia|]. destruct (c =? Grep.NL); cbn.
  - specialize (IH []). cbn in IH. lia.
  - specialize (IH (cur ++ [c])). rewrite length_app in IH. cbn in IH. lia.
Qed.

(** [cut] only cuts. *)
Lemma cut_concat chunk : forall cur, concat (terminated <$> (cut cur chunk).1) ++ (cut cur chunk).2 = cur ++ chunk.
Proof.
  induction chunk as [|c chunk IH]; intros cur; cbn; [by rewrite app_nil_r|]. destruct (Z.eqb_spec c Grep.NL) as [->|]; cbn.
  - unfold terminated at 1. rewrite <- !app_assoc, IH. done.
  - by rewrite IH, <- app_assoc.
Qed.

Lemma strchr_spec s rest : 0 ∉ s ->
  match Ulib.strchr (s ++ 0 :: rest) Grep.NL with
  | None => Grep.NL ∉ s
  | Some k => exists l s', s = l ++ Grep.NL :: s' /\ Grep.NL ∉ l /\ length l = k
  end.
Proof.
  induction s as [|c s IH]; intros H0; cbn; [set_solver|]. apply not_elem_of_cons in H0 as [Hc H0].
  destruct (Z.eqb_spec c 0); [congruence|]. destruct (Z.eqb_spec c Grep.NL) as [->|Hn].
  - exists [], s. split_and!; [done|set_solver|done].
  - specialize (IH H0). destruct (Ulib.strchr _ _) as [k|]; cbn; [|set_solver].
    destruct IH as (l & s' & -> & Hl & <-). exists (c :: l), s'. split_and!; [done|set_solver|done].
Qed.

Lemma cstring_nul s rest : 0 ∉ s -> cstring (s ++ 0 :: rest) = s.
Proof.
  induction s as [|c s IH]; intros H0; cbn; [done|]. apply not_elem_of_cons in H0 as [Hc H0].
  destruct (Z.eqb_spec c 0); [congruence|]. by rewrite IH.
Qed.

(** The output for a list of lines. *)
Definition grep_output (pattern : bytes) (ls : list bytes) : bytes :=
  concat (terminated <$> filter (fun l => Grep.grep_match pattern l = true) ls).

Lemma grep_output_app pattern l1 l2 : grep_output pattern (l1 ++ l2) = grep_output pattern l1 ++ grep_output pattern l2.
Proof. unfold grep_output. by rewrite filter_app, fmap_app, concat_app. Qed.

Lemma cut_line l s : Grep.NL ∉ l -> cut [] (l ++ Grep.NL :: s) = (l :: (cut [] s).1, (cut [] s).2).
Proof. intros Hl. by rewrite cut_no_nl. Qed.
Lemma cut_part l : Grep.NL ∉ l -> cut [] l = ([], l).
Proof. intros Hl. pose proof (cut_no_nl l [] [] Hl) as H. rewrite app_nil_r in H. done. Qed.

Lemma insert_mid {A} (a b : list A) x y n : n = length a -> <[n := y]> (a ++ x :: b) = a ++ y :: b.
Proof. intros ->. rewrite insert_app_r_alt by lia. by rewrite Nat.sub_diag. Qed.

Lemma grep_scan_spec pattern junk fuel : forall pre s out, 0 ∉ s -> (length s < fuel)%nat ->
  exists pre', Grep.scan fuel pattern (pre ++ s ++ 0 :: junk) (length pre) out =
      (pre' ++ (cut [] s).2 ++ 0 :: junk, length pre', out ++ grep_output pattern (cut [] s).1) /\
    (length pre' + length (cut [] s).2 = length pre + length s)%nat.
Proof.
  induction fuel as [|fuel IH]; intros pre s out H0 Hf; [lia|]. cbn [Grep.scan].
  rewrite drop_app_length. pose proof (strchr_spec s junk H0) as Hs. destruct (Ulib.strchr _ _) as [k|].
  2:{ exists pre. rewrite (cut_part s Hs). cbn. by rewrite app_nil_r. }
  destruct Hs as (l & s' & -> & Hl & <-). rewrite cut_line by done. cbn [fst snd].
  assert (0 ∉ l /\ 0 ∉ s') as [H1 H2] by set_solver. rewrite length_app in *. cbn [length] in *.
  replace (pre ++ (l ++ Grep.NL :: s') ++ 0 :: junk) with ((pre ++ l) ++ Grep.NL :: s' ++ 0 :: junk)
    by (by rewrite <- !app_assoc).
  rewrite insert_mid by (by rewrite length_app). rewrite <- (app_assoc pre), drop_app_length, cstring_nul by done.
  destruct (Grep.grep_match pattern l) eqn:Hm.
  - rewrite app_assoc, insert_mid by (by rewrite length_app).
    replace ((pre ++ l) ++ Grep.NL :: s' ++ 0 :: junk) with ((pre ++ terminated l) ++ s' ++ 0 :: junk)
      by (unfold terminated; by rewrite <- !app_assoc).
    replace (length pre + length l + 1)%nat with (length (pre ++ terminated l)) by (unfold terminated; len).
    destruct (IH (pre ++ terminated l) s' (out ++ terminated l) H2) as (pre' & Hscan & Hlen); [lia|].
    assert (slice ((pre ++ terminated l) ++ s' ++ 0 :: junk) (length pre) (length (pre ++ terminated l) - length pre) = terminated l) as ->.
    { unfold slice. rewrite <- app_assoc, drop_app_length, length_app.
      replace (length pre + length (terminated l) - length pre)%nat with (length (terminated l)) by lia.
      apply take_app_length. }
    exists pre'. rewrite Hscan. split.
    + f_equal. unfold grep_output. rewrite filter_cons_True by done. cbn. by rewrite <- app_assoc.
    + unfold terminated in Hlen. rewrite !length_app in Hlen. cbn in Hlen. lia.
  - replace (pre ++ l ++ 0 :: s' ++ 0 :: junk) with ((pre ++ l ++ [0]) ++ s' ++ 0 :: junk) by (by rewrite <- !app_assoc).
    replace (length pre + length l + 1)%nat with (length (pre ++ l ++ [0])) by len.
    destruct (IH (pre ++ l ++ [0]) s' out H2) as (pre' & Hscan & Hlen); [lia|].
    exists pre'. rewrite Hscan. split.
    + f_equal. unfold grep_output. rewrite filter_cons_False by congruence. done.
    + rewrite !length_app in Hlen. cbn in Hlen. lia.
Qed.

Lemma cut_rest_no_nl chunk : forall cur, Grep.NL ∉ cur -> Grep.NL ∉ (cut cur chunk).2.
Proof.
  induction chunk as [|c chunk IH]; intros cur Hc; cbn; [done|]. destruct (Z.eqb_spec c Grep.NL); cbn; apply IH; set_solver.
Qed.

Lemma lines_stop cur input k : Nat.min (1023 - length cur) k = 0%nat \/ input = [] -> (1 <= k)%nat ->
  (length cur <= 1023)%nat -> lines cur input = [].
Proof. intros [Hk| ->] H1 H2; [|done]. destruct input; [done|]. cbn. by rewrite decide_True by lia. Qed.

Lemma fill_buf (cur chunk junk : bytes) : (length cur + length chunk < length (cur ++ junk))%nat -> exists junk',
  <[(length cur + length chunk)%nat := 0]> (splice (cur ++ junk) (length cur) chunk) = (cur ++ chunk) ++ 0 :: junk' /\
  length ((cur ++ chunk) ++ 0 :: junk') = length (cur ++ junk).
Proof.
  rewrite length_app. intros Hlen. unfold splice. rewrite take_app_length, drop_app_ge by lia.
  replace (length cur + length chunk - length cur)%nat with (length chunk) by lia.
  destruct (drop (length chunk) junk) as [|x junk'] eqn:Hd.
  { apply (f_equal length) in Hd. rewrite length_drop in Hd. cbn in Hd. lia. }
  exists junk'. rewrite app_assoc, insert_mid by (by rewrite length_app). split; [done|].
  apply (f_equal length) in Hd. rewrite length_drop in Hd. rewrite !length_app. cbn in *. lia.
Qed.

Lemma lines_line l : forall cur r, Grep.NL ∉ l -> (length cur + length l <= 1022)%nat ->
  lines cur (l ++ Grep.NL :: r) = (cur ++ l) :: lines [] r.
Proof.
  induction l as [|c l IH]; intros cur r Hl Hlen; cbn [app lines length] in *.
  - rewrite decide_False by lia. by rewrite Z.eqb_refl, app_nil_r.
  - apply not_elem_of_cons in Hl as [Hc Hl]. rewrite decide_False by lia.
    destruct (Z.eqb_spec c Grep.NL); [congruence|]. rewrite IH; [by rewrite <- app_assoc|done|rewrite length_app; cbn; lia].
Qed.

Lemma lines_tail tail : forall cur, Grep.NL ∉ take (1023 - length cur) tail -> (length cur <= 1023)%nat -> lines cur tail = [].
Proof.
  induction tail as [|c tail IH]; intros cur Hnl Hlen; cbn [lines]; [done|].
  destruct (decide (length cur = 1023%nat)); [done|].
  replace (1023 - length cur)%nat with (S (1023 - length (cur ++ [c]))) in Hnl by (rewrite length_app; cbn; lia).
  cbn [take] in Hnl. apply not_elem_of_cons in Hnl as [Hc Hnl].
  destruct (Z.eqb_spec c Grep.NL); [congruence|]. apply IH; [done|]. rewrite length_app. cbn. lia.
Qed.

Lemma lines_split ls tail : Forall (fun l => Grep.NL ∉ l /\ (length l <= 1022)%nat) ls -> Grep.NL ∉ take 1023 tail ->
  lines [] (concat (terminated <$> ls) ++ tail) = ls.
Proof.
  intros Hls Htail. induction Hls as [|l ls [Hl Hlen] _ IH]; [by apply lines_tail; [|cbn; lia]|].
  cbn [fmap list_fmap concat]. unfold terminated at 1. rewrite <- !app_assoc. cbn [app].
  by rewrite lines_line, IH.
Qed.
