(* ===== verification/Usys.v ===== *)
(** * User processes ([user/user.h], [user/ulib.c])

    A user program is an interaction tree: its events are the system calls of
    [user/user.h], each answered with a result and with the bytes the call
    stored in the memory of the process, and the calls that do not return.
    A program that loops forever is a tree like any other.  [run] executes a
    tree against a kernel for a bounded number of steps and [evals] is its
    meaning when it ends; [holds] is for what is true at every moment of a run
    that may never end.  The kernel is an argument: a state and the answer to a
    call in it. *)
From ITree Require Import Core.ITreeDefinition.
From S2P Require Import Prelude Params CString Printf Ulib.

(** An exec that succeeds is not answered: what comes after [Exec] is what the
    program does when it fails. *)
Inductive call : Type :=
  | Read (fd n : Z)
  | Write (fd : Z) (buf : bytes)
  | Open (path : bytes) (mode : Z)
  | Close (fd : Z)
  | Dup (fd : Z)
  | Fstat (fd : Z)
  | Fork
  | Wait
  | Exec (path : bytes) (argv : list bytes)
  | Mknod (path : bytes) (major minor : Z)
  | Mkdir (path : bytes)
  | Link (old new : bytes)
  | Unlink (path : bytes)
  | Kill (pid : Z)
  | Pause (ticks : Z)
  | Fsinfo
  | Sbrk (n mode : Z)
  | Chdir (path : bytes)
  | Pipe
  | Getpid.

(** The result of a call and what it stored through the pointer it was given. *)
Record reply : Type := mkReply { r_val : Z; r_mem : bytes }.

Variant sysE : Type -> Type :=
  | Sys (c : call) : sysE reply
  | Exit (status : Z) : sysE Empty_set
  | Undef : sysE Empty_set.

Abbreviation proc := (itree sysE).

Declare Scope user_scope.
Delimit Scope user_scope with user.
Notation "'let!' x ':=' m 'in' k" := (ITree.bind m (fun x => k))
  (at level 10, x pattern, m at level 100, k at level 200,
   format "'let!'  x  ':='  m  'in' '//' k") : user_scope.
Notation "m ';;;' k" := (ITree.bind m (fun _ => k))
  (at level 199, right associativity, format "m ';;;' '//' k") : user_scope.

Definition pure {R} (r : R) : proc R := go (RetF r).
Definition sys (c : call) : proc reply := go (VisF (Sys c) pure).
Definition exit {R} (status : Z) : proc R := go (VisF (Exit status) (fun v : Empty_set => match v with end)).
Definition undef {R} : proc R := go (VisF Undef (fun v : Empty_set => match v with end)).

(** ** Running a program *)

Inductive result (R : Type) : Type :=
  | Running
  | Returned (r : R)
  | Exited (status : Z)
  | Undefined.
Arguments Running {R}.
Arguments Returned {R} r.
Arguments Exited {R} status.
Arguments Undefined {R}.

(** The next step of a program. *)
Inductive step (R : Type) : Type :=
  | NRet (r : R)
  | NTau (t : proc R)
  | NSys (c : call) (k : reply -> proc R)
  | NExit (status : Z)
  | NUndef.
Arguments NRet {R} r.
Arguments NTau {R} t.
Arguments NSys {R} c k.
Arguments NExit {R} status.
Arguments NUndef {R}.

Definition next {R} (t : proc R) : step R :=
  match observe t with
  | RetF r => NRet r
  | TauF t => NTau t
  | VisF e k =>
      match e in sysE X return (X -> proc R) -> step R with
      | Sys c => fun k => NSys c k
      | Exit st => fun _ => NExit st
      | Undef => fun _ => NUndef
      end k
  end.

Class Kernel (K : Type) := answer : call -> K -> K * reply.

Fixpoint run `{Kernel K} {R} (fuel : nat) (t : proc R) (w : K) : K * result R :=
  match fuel with
  | O => (w, Running)
  | S fuel =>
      match next t with
      | NRet r => (w, Returned r)
      | NTau t => run fuel t w
      | NSys c k => let a := answer c w in run fuel (k a.2) a.1
      | NExit st => (w, Exited st)
      | NUndef => (w, Undefined)
      end
  end.

Inductive evals `{Kernel K} {R} : proc R -> K -> K -> result R -> Prop :=
  | ev_ret t w r : next t = NRet r -> evals t w w (Returned r)
  | ev_tau t t' w w' o : next t = NTau t' -> evals t' w w' o -> evals t w w' o
  | ev_sys t c k w w' o : next t = NSys c k -> evals (k (answer c w).2) (answer c w).1 w' o -> evals t w w' o
  | ev_exit t w st : next t = NExit st -> evals t w w (Exited st)
  | ev_undef t w : next t = NUndef -> evals t w w Undefined.

(** A program evaluates to what a long enough run of it ends with. *)
Lemma evals_run `{Kernel K} {R} (t : proc R) w w' o :
  evals t w w' o <-> o <> Running /\ exists fuel, run fuel t w = (w', o).
Proof.
  split.
  - induction 1 as [t w r E|t t' w w' o E _ [Ho [n IH]]|t c k w w' o E _ [Ho [n IH]]|t w st E|t w E].
    all: (split; [done|]).
    1,4,5: exists 1%nat; cbn; by rewrite E.
    all: exists (S n); cbn; by rewrite E.
  - intros [Ho [n Hn]]. revert t w Hn. induction n as [|n IH]; intros t w Hn; cbn in Hn; [congruence|].
    destruct (next t) eqn:E; simplify_eq; eauto using evals.
Qed.

Lemma evals_det `{Kernel K} {R} (t : proc R) w w1 o1 w2 o2 :
  evals t w w1 o1 -> evals t w w2 o2 -> w1 = w2 /\ o1 = o2.
Proof.
  intros E1. revert w2 o2. induction E1; intros w2 o2 E2; inversion E2; subst; try (split; congruence);
    match goal with A : next ?t = _, B : next ?t = _ |- _ => rewrite A in B; injection B; intros; subst; auto end.
Qed.

(** ** Composition *)

Lemma next_bind {R S} (t : proc R) (k : R -> proc S) :
  next (ITree.bind t k) =
    match next t with
    | NRet r => next (k r)
    | NTau t' => NTau (ITree.bind t' k)
    | NSys c k' => NSys c (fun r => ITree.bind (k' r) k)
    | NExit st => NExit st
    | NUndef => NUndef
    end.
Proof.
  unfold next. change (observe (ITree.bind t k)) with (observe (match observe t with
    | RetF r => k r
    | TauF t' => go (TauF (ITree.bind t' k))
    | VisF e h => go (VisF e (fun x => ITree.bind (h x) k))
    end)).
  destruct (observe t) as [r|t'|X e h]; [done|done|]. by destruct e.
Qed.

Lemma next_iter {I R} (body : I -> proc (I + R)) i :
  next (ITree.iter body i) =
    next (ITree.bind (body i) (fun lr => match lr with inl j => go (TauF (ITree.iter body j)) | inr r => pure r end)).
Proof. done. Qed.

Section composition.
Context `{Kernel K}.

Lemma evals_pure {R} (r : R) w : evals (pure r) w w (Returned r).
Proof. by apply ev_ret. Qed.
Lemma evals_exit {R} st w : evals (exit (R:=R) st) w w (Exited st).
Proof. by apply ev_exit. Qed.
Lemma evals_sys c w : evals (sys c) w (answer c w).1 (Returned (answer c w).2).
Proof. by eapply ev_sys; [done|apply ev_ret]. Qed.

Lemma evals_bind {R S} (t : proc R) (k : R -> proc S) w w1 r w' o :
  evals t w w1 (Returned r) -> evals (k r) w1 w' o -> evals (ITree.bind t k) w w' o.
Proof.
  intros Et Ek. remember (Returned r) as o1 eqn:Ho. induction Et; simplify_eq.
  - inversion Ek; subst;
      [eapply ev_ret|eapply ev_tau|eapply ev_sys|eapply ev_exit|eapply ev_undef]; eauto;
      rewrite next_bind; by match goal with A : next t = _ |- _ => rewrite A end.
  - eapply ev_tau; [rewrite next_bind; by match goal with A : next t = _ |- _ => rewrite A end|auto].
  - eapply ev_sys; [rewrite next_bind; by match goal with A : next t = _ |- _ => rewrite A end|cbn; auto].
Qed.

(** A program that exits does not come to what follows. *)
Lemma evals_bind_exit {R S} (t : proc R) (k : R -> proc S) w w' st :
  evals t w w' (Exited st) -> evals (ITree.bind t k) w w' (Exited st).
Proof.
  intros Et. remember (Exited st) as o1 eqn:Ho. induction Et; simplify_eq.
  - eapply ev_tau; [rewrite next_bind; by match goal with A : next t = _ |- _ => rewrite A end|auto].
  - eapply ev_sys; [rewrite next_bind; by match goal with A : next t = _ |- _ => rewrite A end|cbn; auto].
  - apply ev_exit. rewrite next_bind. by match goal with A : next t = _ |- _ => rewrite A end.
Qed.

Lemma evals_bind_undef {R S} (t : proc R) (k : R -> proc S) w w' : evals t w w' Undefined -> evals (ITree.bind t k) w w' Undefined.
Proof.
  intros Et. remember Undefined as o1 eqn:Ho. induction Et; simplify_eq.
  - eapply ev_tau; [rewrite next_bind; by match goal with A : next t = _ |- _ => rewrite A end|auto].
  - eapply ev_sys; [rewrite next_bind; by match goal with A : next t = _ |- _ => rewrite A end|cbn; auto].
  - apply ev_undef. rewrite next_bind. by match goal with A : next t = _ |- _ => rewrite A end.
Qed.

Lemma evals_next {R} (t t' : proc R) w w' o : next t = next t' -> evals t' w w' o -> evals t w w' o.
Proof. intros E. inversion 1; subst; rewrite <- E in *; eauto using evals. Qed.

(** What returns takes a number of steps, whatever comes after it. *)
Lemma run_evals_bind {R S} (t : proc R) (k : R -> proc S) w w1 r :
  evals t w w1 (Returned r) -> exists n, forall m, run (n + m) (ITree.bind t k) w = run m (k r) w1.
Proof.
  intros Et. remember (Returned r) as o eqn:Ho. induction Et as [t w r' E|t t' w w' o E _ IH|t c k' w w' o E _ IH| |]; simplify_eq.
  - exists 0%nat. intros [|m]; cbn; [done|]. by rewrite next_bind, E.
  - destruct IH as [n IH]; [done|]. exists (Datatypes.S n). intros m. cbn. by rewrite next_bind, E.
  - destruct IH as [n IH]; [done|]. exists (Datatypes.S n). intros m. cbn. by rewrite next_bind, E.
Qed.

Section iter.
Context {I R : Type} (body : I -> proc (I + R)).
Lemma evals_again i j w w1 w' o :
  evals (body i) w w1 (Returned (inl j)) -> evals (ITree.iter body j) w1 w' o -> evals (ITree.iter body i) w w' o.
Proof.
  intros Eb Ei. eapply evals_next; [apply next_iter|]. eapply evals_bind; [done|]. by eapply ev_tau.
Qed.
Lemma evals_stop i r w w' : evals (body i) w w' (Returned (inr r)) -> evals (ITree.iter body i) w w' (Returned r).
Proof.
  intros Eb. eapply evals_next; [apply next_iter|]. eapply evals_bind; [done|]. by apply ev_ret.
Qed.
Lemma evals_leave i st w w' : evals (body i) w w' (Exited st) -> evals (ITree.iter body i) w w' (Exited st).
Proof.
  intros Eb. eapply evals_next; [apply next_iter|]. by apply evals_bind_exit.
Qed.
End iter.
End composition.

(** ** Runs that need not end *)

(** [holds Inv E t w Q]: however long t runs from w, Inv is true of the kernel, Q
    when t returns and E when it exits, and t does nothing undefined. *)
Definition holds `{Kernel K} {R} (Inv : K -> Prop) (E : Z -> K -> Prop) (t : proc R) (w : K) (Q : R -> K -> Prop) : Prop :=
  forall fuel, let x := run fuel t w in
    Inv x.1 /\ match x.2 with Running => True | Returned r => Q r x.1 | Exited st => E st x.1 | Undefined => False end.

Section holds.
Context `{Kernel K} (Inv : K -> Prop) (E : Z -> K -> Prop).

Lemma holds_pure {R} (r : R) w Q : Inv w -> Q r w -> holds Inv E (pure r) w Q.
Proof. intros Hi Hq [|fuel]; cbn; auto. Qed.
Lemma holds_exit {R} st w Q : Inv w -> E st w -> holds Inv E (exit (R:=R) st) w Q.
Proof. intros Hi He [|fuel]; cbn; auto. Qed.
Lemma holds_sys c w Q : Inv w -> Inv (answer c w).1 -> Q (answer c w).2 (answer c w).1 -> holds Inv E (sys c) w Q.
Proof. intros Hw Hi Hq [|[|fuel]]; cbn; auto. Qed.
Lemma holds_impl {R} (t : proc R) w (Q Q' : R -> K -> Prop) :
  holds Inv E t w Q -> (forall r w', Inv w' -> Q r w' -> Q' r w') -> holds Inv E t w Q'.
Proof. intros Ht HQ fuel. destruct (Ht fuel) as [Hi Hq]. split; [done|]. destruct (run fuel t w).2; auto. Qed.

(** A run of a bind is a run of its first part, or goes on with the second with
    no more fuel. *)
Lemma run_bind {R S} fuel (t : proc R) (k : R -> proc S) w :
  let x := run fuel (ITree.bind t k) w in
  let y := run fuel t w in
  match y.2 with
  | Returned r => exists n, (n <= fuel)%nat /\ x = run n (k r) y.1
  | Running => x = (y.1, Running)
  | Exited st => x = (y.1, Exited st)
  | Undefined => x = (y.1, Undefined)
  end.
Proof.
  revert t w. induction fuel as [|fuel IH]; intros t w; [done|]. cbn. rewrite next_bind.
  destruct (next t) as [r|t'|c k'|st|] eqn:En; cbn; try done.
  - exists (Datatypes.S fuel). split; [lia|done].
  - specialize (IH t' w). cbn in IH. destruct (run fuel t' w).2; try done.
    destruct IH as (n & ? & ?). exists n. split; [lia|done].
  - specialize (IH (k' (answer c w).2) (answer c w).1). cbn in IH.
    destruct (run fuel (k' (answer c w).2) (answer c w).1).2; try done.
    destruct IH as (n & ? & ?). exists n. split; [lia|done].
Qed.

Lemma holds_bind {R S} (t : proc R) (k : R -> proc S) w Q Q' :
  holds Inv E t w Q -> (forall r w', Inv w' -> Q r w' -> holds Inv E (k r) w' Q') -> holds Inv E (ITree.bind t k) w Q'.
Proof.
  intros Ht Hk fuel. destruct (Ht fuel) as [Hi Hq]. pose proof (run_bind fuel t k w) as Hr. cbn in *.
  destruct (run fuel t w) as [w1 [|r|st|]]; cbn in *; try by rewrite Hr.
  destruct Hr as (n & _ & ->). by apply Hk.
Qed.

Lemma holds_iter {I R} (body : I -> proc (I + R)) (J : I -> K -> Prop) Q i w : J i w ->
  (forall i w, J i w -> holds Inv E (body i) w (fun lr w' => match lr with inl j => J j w' | inr r => Q r w' end)) ->
  holds Inv E (ITree.iter body i) w Q.
Proof.
  intros HJ Hb fuel. revert i w HJ. induction (lt_wf fuel) as [fuel _ IH]. intros i w HJ.
  assert (run fuel (ITree.iter body i) w = run fuel (ITree.bind (body i) (fun lr => match lr with
    | inl j => go (TauF (ITree.iter body j)) | inr r => pure r end)) w) as -> by (by destruct fuel).
  destruct (Hb i w HJ fuel) as [Hi Hq].
  pose proof (run_bind fuel (body i) (fun lr => match lr with
    | inl j => go (TauF (ITree.iter body j)) | inr r => pure r end) w) as Hr. cbn in *.
  destruct (run fuel (body i) w) as [w1 [|[j|r]|st|]]; cbn in *; try by rewrite Hr.
  - destruct Hr as ([|n] & Hn & ->); cbn; [done|]. apply IH; [lia|done].
  - destruct Hr as ([|n] & Hn & ->); cbn; done.
Qed.
End holds.
