(* ===== verification/User.v ===== *)
(** * The small user programs ([user/cat.c], [echo.c], [wc.c], [ls.c], [init.c], ...)

    Each [main] as the tree of its system calls, on the strings of argv.  A
    buffer that outlives a call is a value that is passed on; the bytes of a
    printf are one-byte writes, as in [user/printf.c]. *)
From ITree Require Import Core.ITreeDefinition.
From S2P Require Import Prelude Params CString Printf Ulib Grep Usys.
#[local] Open Scope user_scope.

Definition NEWLINE : Z := 10.
Definition line (s : string) : bytes := chars s ++ [NEWLINE].

(** [putc] for each character. *)
Fixpoint puts (fd : Z) (cs : bytes) : proc unit :=
  match cs with
  | [] => pure tt
  | c :: cs => sys (Write fd [c]) ;;; puts fd cs
  end.
Definition fprintf (fd : Z) (fmt : bytes) (args : list varg) : proc unit :=
  match UPrintf.vprintf fmt args with
  | Some cs => puts fd cs
  | None => undef
  end.
Definition printf (fmt : bytes) (args : list varg) : proc unit := fprintf 1 fmt args.

Definition O_RDONLY : Z := 0.
Definition O_RDWR : Z := 2.

(** [start] of [ulib.c]. *)
Definition start (main : list bytes -> proc Z) (argv : list bytes) : proc Empty_set :=
  let! r := main argv in
  exit r.

(** [stat] of [ulib.c]: the result of fstat and what it stored. *)
Definition stat (path : bytes) : proc reply :=
  let! r := sys (Open path O_RDONLY) in
  let fd := r_val r in
  if fd <? 0 then pure (mkReply (-1) [])
  else
    let! st := sys (Fstat fd) in
    sys (Close fd) ;;;
    pure st.

Definition SBRK_EAGER : Z := 1.
Definition SBRK_LAZY : Z := 2.
Definition sbrk (n : Z) : proc reply := sys (Sbrk n SBRK_EAGER).
Definition sbrklazy (n : Z) : proc reply := sys (Sbrk n SBRK_LAZY).

(** The loop over the file arguments that [main] of cat, wc and grep share: open
    the file, work on it and close it, up to one that cannot be opened. *)
Fixpoint each_file (work : Z -> bytes -> bytes -> proc bytes) (complain : bytes -> proc unit)
    (args : list bytes) (buf : bytes) : proc Z :=
  match args with
  | [] => exit 0
  | arg :: args =>
      let! r := sys (Open arg O_RDONLY) in
      let fd := r_val r in
      if fd <? 0 then
        complain arg ;;;
        exit 1
      else
        let! buf := work fd arg buf in
        sys (Close fd) ;;;
        each_file work complain args buf
  end.

Module Cat.
(** The loop of [cat]; buf is the static buffer of 512 bytes. *)
Definition cat (fd : Z) (buf : bytes) : proc bytes :=
  ITree.iter (fun buf =>
    let! r := sys (Read fd 512) in
    let n := r_val r in
    let buf := splice buf 0 (r_mem r) in
    if 0 <? n then
      let! w := sys (Write 1 (take (Z.to_nat n) buf)) in
      if negb (r_val w =? n) then
        fprintf 2 (line "cat: write error") [] ;;;
        exit 1
      else pure (inl buf)
    else if n <? 0 then
      fprintf 2 (line "cat: read error") [] ;;;
      exit 1
    else pure (inr buf)) buf.

Definition cat_args : list bytes -> bytes -> proc Z :=
  each_file (fun fd _ buf => cat fd buf) (fun arg => fprintf 2 (line "cat: cannot open %s") [P (Some arg)]).

Definition main (argv : list bytes) : proc Z :=
  let buf := replicate 512 0 in
  if (length argv <=? 1)%nat then
    cat 0 buf ;;;
    exit 0
  else cat_args (drop 1 argv) buf.
End Cat.

Module Echo.
Fixpoint echo_args (args : list bytes) : proc Z :=
  match args with
  | [] => exit 0
  | arg :: args =>
      sys (Write 1 arg) ;;;
      (if negb (bool_decide (args = [])) then sys (Write 1 (chars " ")) else sys (Write 1 [NEWLINE])) ;;;
      echo_args args
  end.
Definition main (argv : list bytes) : proc Z := echo_args (drop 1 argv).
End Echo.

Module Wc.
Record counts : Type := mkCounts { l : Z; w : Z; c : Z; inword : bool }.

(** [" \r\t\n\v"] *)
Definition blanks : bytes := [32; 13; 9; 10; 11].
Definition count_char (s : counts) (ch : Z) : counts :=
  let c := i32 (c s + 1) in
  let l := if ch =? NEWLINE then i32 (l s + 1) else l s in
  if Ulib.strchr blanks ch then mkCounts l (w s) c false
  else if negb (inword s) then mkCounts l (i32 (w s + 1)) c true
  else mkCounts l (w s) c (inword s).

(** The loop of [wc]: n of its last read, the counts and the buffer. *)
Definition count_loop (fd : Z) : counts * bytes -> proc (Z * counts * bytes) :=
  ITree.iter (fun '(s, buf) =>
    let! r := sys (Read fd 512) in
    let n := r_val r in
    let buf := splice buf 0 (r_mem r) in
    if 0 <? n then pure (inl (foldl count_char s (take (Z.to_nat n) buf), buf))
    else pure (inr (n, s, buf))).
Definition wc (fd : Z) (name : bytes) (buf : bytes) : proc bytes :=
  let! x := count_loop fd (mkCounts 0 0 0 false, buf) in
  let '(n, s, buf) := x in
  if n <? 0 then
    printf (line "wc: read error") [] ;;;
    exit 1
  else
    printf (line "%d %d %d %s") [W (l s); W (w s); W (c s); P (Some name)] ;;;
    pure buf.

Definition wc_args : list bytes -> bytes -> proc Z :=
  each_file wc (fun arg => printf (line "wc: cannot open %s") [P (Some arg)]).

Definition main (argv : list bytes) : proc Z :=
  let buf := replicate 512 0 in
  if (length argv <=? 1)%nat then
    wc 0 [] buf ;;;
    exit 0
  else wc_args (drop 1 argv) buf.
End Wc.

Module KillCmd.
Fixpoint kill_args (args : list bytes) : proc Z :=
  match args with
  | [] => exit 0
  | arg :: args => sys (Kill (Ulib.atoi arg)) ;;; kill_args args
  end.
Definition main (argv : list bytes) : proc Z :=
  if (length argv <? 2)%nat then
    fprintf 2 (line "usage: kill pid...") [] ;;;
    exit 1
  else kill_args (drop 1 argv).
End KillCmd.

Module Ln.
Definition main (argv : list bytes) : proc Z :=
  match argv with
  | [_; old; new] =>
      let! r := sys (Link old new) in
      (if r_val r <? 0 then fprintf 2 (line "link %s %s: failed") [P (Some old); P (Some new)] else pure tt) ;;;
      exit 0
  | _ =>
      fprintf 2 (line "Usage: ln old new") [] ;;;
      exit 1
  end.
End Ln.

(** The loop that [mkdir] and [rm] share but for the call and the message. *)
Fixpoint until_failure (c : bytes -> call) (msg : bytes) (args : list bytes) : proc Z :=
  match args with
  | [] => exit 0
  | arg :: args =>
      let! r := sys (c arg) in
      if r_val r <? 0 then
        fprintf 2 msg [P (Some arg)] ;;;
        exit 0
      else until_failure c msg args
  end.

Module MkdirCmd.
Definition main (argv : list bytes) : proc Z :=
  if (length argv <? 2)%nat then
    fprintf 2 (line "Usage: mkdir files...") [] ;;;
    exit 1
  else until_failure Mkdir (line "mkdir: %s failed to create") (drop 1 argv).
End MkdirCmd.

Module Rm.
Definition main (argv : list bytes) : proc Z :=
  if (length argv <? 2)%nat then
    fprintf 2 (line "Usage: rm files...") [] ;;;
    exit 1
  else until_failure Unlink (line "rm: %s failed to delete") (drop 1 argv).
End Rm.

Module Zombie.
Definition main : proc Z :=
  let! r := sys Fork in
  (if 0 <? r_val r then let! _ := sys (Pause 5) in pure tt else pure tt) ;;;
  exit 0.
End Zombie.

Module FsinfoTest.
(** [struct fsinfo] is four ints. *)
Definition main : proc Z :=
  let! r := sys Fsinfo in
  if r_val r <? 0 then
    printf (line "fsinfo failed") [] ;;;
    exit 1
  else
    printf (line "File System Information") [] ;;;
    printf (line "------------------------------") [] ;;;
    printf (line "Total files        : %d") [W (get_i32 (r_mem r) 0)] ;;;
    printf (line "Total directories  : %d") [W (get_i32 (r_mem r) 4)] ;;;
    printf (line "Allocated inodes   : %d") [W (get_i32 (r_mem r) 8)] ;;;
    printf (line "Free disk blocks   : %d") [W (get_i32 (r_mem r) 12)] ;;;
    exit 0.
End FsinfoTest.

Module Init.
Definition CONSOLE : Z := 1.
Definition sh : bytes := chars "sh".

(** The inner loop: wait until the shell exits. *)
Definition wait_for (pid : Z) : proc unit :=
  ITree.iter (fun _ : unit =>
    let! r := sys Wait in
    let wpid := r_val r in
    if wpid =? pid then pure (inr tt)
    else if wpid <? 0 then
      printf (line "init: wait returned an error") [] ;;;
      exit 1
    else pure (inl tt)) tt.

(** One round of the outer loop. *)
Definition round : proc unit :=
  printf (line "init: starting sh") [] ;;;
  let! r := sys Fork in
  let pid := r_val r in
  if pid <? 0 then
    printf (line "init: fork failed") [] ;;;
    exit 1
  else if pid =? 0 then
    sys (Exec sh [sh]) ;;;
    printf (line "init: exec sh failed") [] ;;;
    exit 1
  else wait_for pid.

(** Descriptors 0, 1 and 2 are the console. *)
Definition setup : proc unit :=
  let! r := sys (Open (chars "console") O_RDWR) in
  (if r_val r <? 0 then
     sys (Mknod (chars "console") CONSOLE 0) ;;;
     let! _ := sys (Open (chars "console") O_RDWR) in pure tt
   else pure tt) ;;;
  sys (Dup 0) ;;;
  sys (Dup 0) ;;;
  pure tt.

Definition loop : proc Empty_set := ITree.iter (fun _ : unit => round ;;; pure (inl tt)) tt.
Definition main : proc Empty_set := setup ;;; loop.
End Init.

Module Ls.
Definition SLASH : Z := 47.

(** [for(p = path+strlen(path); p >= path && *p != '/'; p--); p++], as an index. *)
Fixpoint after_slash (path : bytes) (p : nat) : nat :=
  if default 0 (path !! p) =? SLASH then S p
  else match p with O => O | S p => after_slash path p end.

(** The static buf of DIRSIZ+1 bytes is written in full before it is read. *)
Definition fmtname (path : bytes) : bytes :=
  let p := drop (after_slash path (length path)) path in
  if DIRSIZ <=? Z.of_nat (length p) then p
  else
    let buf := replicate (Z.to_nat DIRSIZ + 1) 0 in
    let buf := splice buf 0 p in
    let buf := splice buf (length p) (replicate (Z.to_nat DIRSIZ - length p) 32) in
    cstring (<[Z.to_nat DIRSIZ := 0]> buf).

(** The fields of [struct stat]. *)
Definition st_ino (st : bytes) : Z := get_u32 st 4.
Definition st_type (st : bytes) : Z := get_i16 st 8.
Definition st_size (st : bytes) : Z := of_le (slice st 16 8).

Definition T_DEVICE : Z := 3.
Definition print_entry (path st : bytes) : proc unit :=
  printf (line "%s %d %d %d") [P (Some (fmtname path)); W (st_type st); W (st_ino st); W (i32 (st_size st))].

(** The loop over the directory entries; [buf] holds path and a '/'. *)
Definition entries (fd : Z) (buf : bytes) : proc unit :=
  ITree.iter (fun _ : unit =>
    let! r := sys (Read fd DIRENT_SIZE) in
    if negb (r_val r =? DIRENT_SIZE) then pure (inr tt)
    else
      let de := r_mem r in
      if get_u16 de 0 =? 0 then pure (inl tt)
      else
        let path := cstring (buf ++ slice de 2 (Z.to_nat DIRSIZ)) in
        let! st := stat path in
        (if r_val st <? 0 then printf (line "ls: cannot stat %s") [P (Some path)]
         else print_entry path (r_mem st)) ;;;
        pure (inl tt)) tt.

(** The switch on the type of the file. *)
Definition show (fd : Z) (path st : bytes) : proc unit :=
  if (st_type st =? T_DEVICE) || (st_type st =? T_FILE) then print_entry path st
  else if st_type st =? T_DIR then
    if 512 <? Z.of_nat (length path) + 1 + DIRSIZ + 1 then printf (line "ls: path too long") []
    else entries fd (path ++ [SLASH])
  else pure tt.

Definition ls (path : bytes) : proc unit :=
  let! r := sys (Open path O_RDONLY) in
  let fd := r_val r in
  if fd <? 0 then fprintf 2 (line "ls: cannot open %s") [P (Some path)]
  else
    let! s := sys (Fstat fd) in
    if r_val s <? 0 then
      fprintf 2 (line "ls: cannot stat %s") [P (Some path)] ;;;
      let! _ := sys (Close fd) in pure tt
    else
      show fd path (r_mem s) ;;;
      let! _ := sys (Close fd) in pure tt.

Fixpoint ls_args (args : list bytes) : proc Z :=
  match args with
  | [] => exit 0
  | arg :: args => ls arg ;;; ls_args args
  end.
Definition main (argv : list bytes) : proc Z :=
  if (length argv <? 2)%nat then
    ls (chars ".") ;;;
    exit 0
  else ls_args (drop 1 argv).
End Ls.

Module GrepCmd.
(** The lines of buf from p on that are complete, with a write for each that
    matches; the buffer and the start of the incomplete line. *)
Fixpoint scan (fuel : nat) (pattern buf : bytes) (p : nat) : proc (bytes * nat) :=
  match fuel with
  | O => pure (buf, p)
  | S fuel =>
      match Ulib.strchr (drop p buf) Grep.NL with
      | None => pure (buf, p)
      | Some k =>
          let q := (p + k)%nat in
          let buf := <[q := 0]> buf in
          if Grep.grep_match pattern (cstring (drop p buf)) then
            let buf := <[q := Grep.NL]> buf in
            sys (Write 1 (slice buf p (q + 1 - p))) ;;;
            scan fuel pattern buf (q + 1)
          else scan fuel pattern buf (q + 1)
      end
  end.

(** [grep]: m bytes of an incomplete line are in the static buffer. *)
Definition grep_loop (pattern : bytes) (fd : Z) : bytes * nat -> proc bytes :=
  ITree.iter (fun '(buf, m) =>
    let! r := sys (Read fd (Z.of_nat (Grep.BUFSIZE - m - 1))) in
    let n := r_val r in
    let buf := splice buf m (r_mem r) in
    if negb (0 <? n) then pure (inr buf)
    else
      let m := (m + Z.to_nat n)%nat in
      let buf := <[m := 0]> buf in
      let! x := scan (length buf) pattern buf 0 in
      let '(buf, p) := x in
      if (0 <? m)%nat then
        let m := (m - p)%nat in
        pure (inl (splice buf 0 (slice buf p m), m))
      else pure (inl (buf, m))).
Definition grep (pattern : bytes) (fd : Z) (buf : bytes) : proc bytes := grep_loop pattern fd (buf, 0%nat).

Definition grep_args (pattern : bytes) : list bytes -> bytes -> proc Z :=
  each_file (fun fd _ buf => grep pattern fd buf) (fun arg => printf (line "grep: cannot open %s") [P (Some arg)]).

Definition main (argv : list bytes) : proc Z :=
  match argv with
  | _ :: pattern :: args =>
      let buf := replicate Grep.BUFSIZE 0 in
      if bool_decide (args = []) then
        grep pattern 0 buf ;;;
        exit 0
      else grep_args pattern args buf
  | _ =>
      fprintf 2 (line "usage: grep pattern [file ...]") [] ;;;
      exit 1
  end.
End GrepCmd.
