(* ===== verification/UserProps.v ===== *)
(** * Properties of the small user programs

    What cat, wc, grep, echo and ls do with the files and the output is proved
    against [Files], the promises of the kernel's read, write, open, close and
    fstat that the programs rely on; what init does is proved against any
    kernel. *)
From ITree Require Import Core.ITreeDefinition.
From Stdlib Require Import Ascii.
From S2P Require Import Prelude Params CString Printf Ulib Grep Usys User.

(** ** Messages *)

Lemma chars_bytes s : Forall is_byte (chars s).
Proof.
  unfold chars. apply Forall_fmap, Forall_true. intros c. unfold is_byte. cbn. pose proof (N_ascii_bounded c). lia.
Qed.
Lemma u8_bytes (l : bytes) : Forall is_byte l -> u8 <$> l = l.
Proof. induction 1 as [|c l Hc _ IH]; cbn; [done|]. rewrite IH. unfold u8, is_byte in *. f_equal. by apply Z.mod_small. Qed.
Lemma vprintf_bytes fmt args out : format UPrintf.digits fmt args = Some out -> Forall is_byte out ->
  UPrintf.vprintf fmt args = Some out.
Proof. intros E Hb. unfold UPrintf.vprintf. rewrite E. cbn. by rewrite u8_bytes. Qed.

Definition decimal (n : Z) : bytes := number UPrintf.digits n 10 true.

Lemma digits_bytes k : is_byte (UPrintf.digits !!! k).
Proof.
  destruct (decide (k < 16)%nat) as [Hk|Hk]; [do 16 (destruct k as [|k]; [by vm_compute|]); lia|].
  rewrite list_lookup_total_alt, lookup_ge_None_2; [by vm_compute|]. vm_compute length. lia.
Qed.
Lemma decimal_bytes n : - 2^63 <= n < 2^63 -> Forall is_byte (decimal n).
Proof.
  intros Hn. unfold decimal, number. destruct (printint_spec UPrintf.digits n 10 true) as (ds & -> & _); [by left|done|].
  cbn. apply Forall_app_2; [destruct (n <? 0); by repeat constructor|]. apply Forall_fmap, Forall_true. intros d. apply digits_bytes.
Qed.

(** ** The counts of wc *)

Definition lines_of (l : bytes) : Z := Z.of_nat (length (filter (fun c => c = NEWLINE) l)).

(** The text between blanks, empty where blanks are adjacent. *)
Fixpoint fields (l : bytes) : list bytes :=
  match l with
  | [] => [[]]
  | c :: l =>
      if decide (c ∈ Wc.blanks) then [] :: fields l
      else match fields l with
           | [] => [[c]]
           | p :: ps => (c :: p) :: ps
           end
  end.
Definition words_of (l : bytes) : Z := Z.of_nat (length (filter (fun p : bytes => p <> []) (fields l))).

(** The words that start in l, where b says that its first field goes on one. *)
Definition new_words (b : bool) (l : bytes) : Z :=
  words_of l - (if b && bool_decide (head (fields l) <> Some []) then 1 else 0).

Lemma fields_cons l : exists p ps, fields l = p :: ps.
Proof. destruct l as [|c l]; cbn; [eauto|]. destruct (decide _); [eauto|]. destruct (fields l); eauto. Qed.

Lemma new_words_nil b : new_words b [] = 0.
Proof. by destruct b. Qed.
Lemma new_words_cons b c l :
  new_words b (c :: l) = if decide (c ∈ Wc.blanks) then new_words false l else (if b then 0 else 1) + new_words true l.
Proof.
  unfold new_words, words_of. cbn [fields]. destruct (decide (c ∈ Wc.blanks)).
  - rewrite filter_cons_False by naive_solver. cbn. rewrite bool_decide_eq_false_2 by naive_solver. by rewrite andb_false_r.
  - destruct (fields_cons l) as (p & ps & ->). rewrite filter_cons_True by done. cbn [length head andb].
    rewrite (bool_decide_eq_true_2 (Some (c :: p) <> Some [])) by done. rewrite andb_true_r.
    rewrite filter_cons. destruct (decide (p <> [])) as [Hp|Hp].
    + rewrite bool_decide_eq_true_2 by congruence. cbn [length]. destruct b; lia.
    + rewrite bool_decide_eq_false_2 by naive_solver. destruct b; lia.
Qed.

Lemma new_words_bounds b l : 0 <= new_words b l <= Z.of_nat (length l).
Proof.
  revert b. induction l as [|c l IH]; intros b; [by destruct b|]. rewrite new_words_cons. cbn [length].
  destruct (decide _); [specialize (IH false)|specialize (IH true); destruct b]; lia.
Qed.

Lemma strchr_none s c : Forall (fun b => b <> 0) s -> Ulib.strchr s c = None <-> c ∉ s.
Proof.
  induction 1 as [|b s Hb _ IH]; cbn; [split; [intros _; apply not_elem_of_nil|done]|]. rewrite not_elem_of_cons.
  destruct (Z.eqb_spec b 0); [done|]. destruct (Z.eqb_spec b c) as [->|Hc]; [split; [done|by intros [? _]]|].
  rewrite <- IH. destruct (Ulib.strchr s c); cbn; intuition congruence.
Qed.
Lemma strchr_blanks c : Ulib.strchr Wc.blanks c = None <-> c ∉ Wc.blanks.
Proof. apply strchr_none. by repeat constructor. Qed.


(** What counting l adds to the counts. *)
Lemma count_chars_spec l s : 0 <= Wc.l s <= Wc.c s -> 0 <= Wc.w s <= Wc.c s -> Wc.c s + Z.of_nat (length l) < 2^31 ->
  exists b, foldl Wc.count_char s l =
    Wc.mkCounts (Wc.l s + lines_of l) (Wc.w s + new_words (Wc.inword s) l) (Wc.c s + Z.of_nat (length l)) b.
Proof.
  revert s. induction l as [|ch l IH]; intros s Hl Hw Hc; cbn [foldl length] in *.
  { exists (Wc.inword s). rewrite new_words_nil. change (lines_of []) with 0. destruct s; cbn. f_equal; lia. }
  destruct (IH (Wc.count_char s ch)) as (b & ->).
  1-3: unfold Wc.count_char; destruct (ch =? NEWLINE), (Ulib.strchr Wc.blanks ch), (Wc.inword s); cbn [negb Wc.l Wc.w Wc.c];
    rewrite ?i32_id by lia; lia.
  exists b. rewrite new_words_cons. unfold Wc.count_char. pose proof (strchr_blanks ch) as Hs.
  assert (lines_of (ch :: l) = (if ch =? NEWLINE then 1 else 0) + lines_of l) as ->.
  { unfold lines_of. rewrite filter_cons. destruct (Z.eqb_spec ch NEWLINE), (decide (ch = NEWLINE)); try done; cbn [length]; lia. }
  destruct (Ulib.strchr Wc.blanks ch), (decide (ch ∈ Wc.blanks)); try (exfalso; naive_solver).
  all: destruct (ch =? NEWLINE), (Wc.inword s); cbn [negb Wc.l Wc.w Wc.c Wc.inword]; rewrite ?i32_id by lia; f_equal; lia.
Qed.

(** ** What the programs rely on *)

Record node : Type := mkNode { n_type : Z; n_ino : Z; n_nlink : Z; n_data : bytes }.

(** [struct stat] of the file on device 1. *)
Definition node_stat (nd : node) : bytes :=
  to_le 4 1 ++ to_le 4 (n_ino nd) ++ to_le 2 (n_type nd) ++ to_le 2 (n_nlink nd) ++
  replicate 4 0 ++ to_le 8 (Z.of_nat (length (n_data nd))).

(** The descriptors open for reading, with the bytes that have not been read,
    and what has been written to descriptors 1 and 2. *)
Record view : Type := mkView { v_fds : gmap Z (node * bytes); v_out : bytes; v_err : bytes }.

Definition put (fd : Z) (bs : bytes) (v : view) : view :=
  if fd =? 1 then mkView (v_fds v) (v_out v ++ bs) (v_err v)
  else mkView (v_fds v) (v_out v) (v_err v ++ bs).
Definition set_fds (T : gmap Z (node * bytes)) (v : view) : view := mkView T (v_out v) (v_err v).

(** [seen] abstracts the state of the kernel.  A read from standard input returns
    at least a byte if there is one; a read from an opened file returns all that
    was asked for, as far as the file goes.  Descriptors are free while fewer
    than 13 of the 16 are open for reading. *)
Class Files (K : Type) `{Kernel K} := {
  file : bytes -> option node;
  seen : K -> view;
  read_files w fd n nd l : v_fds (seen w) !! fd = Some (nd, l) -> 0 <= n -> exists chunk rest,
    l = chunk ++ rest /\ Z.of_nat (length chunk) <= n /\ (chunk = [] -> l = [] \/ n = 0) /\
    (fd <> 0 -> chunk = take (Z.to_nat n) l) /\
    (answer (Read fd n) w).2 = mkReply (Z.of_nat (length chunk)) chunk /\
    seen (answer (Read fd n) w).1 = set_fds (<[fd := (nd, rest)]> (v_fds (seen w))) (seen w);
  write_files w fd bs : fd = 1 \/ fd = 2 ->
    r_val (answer (Write fd bs) w).2 = Z.of_nat (length bs) /\
    seen (answer (Write fd bs) w).1 = put fd bs (seen w);
  open_files w path nd : (size (v_fds (seen w)) < 13)%nat -> file path = Some nd -> exists fd,
    2 < fd /\ v_fds (seen w) !! fd = None /\ r_val (answer (Open path O_RDONLY) w).2 = fd /\
    seen (answer (Open path O_RDONLY) w).1 = set_fds (<[fd := (nd, n_data nd)]> (v_fds (seen w))) (seen w);
  open_none w path : file path = None ->
    r_val (answer (Open path O_RDONLY) w).2 = -1 /\ seen (answer (Open path O_RDONLY) w).1 = seen w;
  close_files w fd x : v_fds (seen w) !! fd = Some x ->
    seen (answer (Close fd) w).1 = set_fds (delete fd (v_fds (seen w))) (seen w);
  fstat_files w fd nd l : v_fds (seen w) !! fd = Some (nd, l) ->
    (answer (Fstat fd) w).2 = mkReply 0 (node_stat nd) /\ seen (answer (Fstat fd) w).1 = seen w
}.

Section files.
Context `{Files K}.

(** [ends t w Q]: t comes to an end, and Q holds of how and of what is seen then. *)
Definition ends {R} (t : proc R) (w : K) (Q : result R -> view -> Prop) : Prop :=
  exists w' o, evals t w w' o /\ Q o (seen w').
(** ... by returning. *)
Definition returns {R} (t : proc R) (w : K) (Q : R -> view -> Prop) : Prop :=
  ends t w (fun o v => match o with Returned r => Q r v | _ => False end).

Lemma ends_pure {R} (r : R) w (Q : result R -> view -> Prop) : Q (Returned r) (seen w) -> ends (pure r) w Q.
Proof. intros HQ. eexists _, _. split; [apply evals_pure|done]. Qed.
Lemma ends_exit {R} st w (Q : result R -> view -> Prop) : Q (Exited st) (seen w) -> ends (exit st) w Q.
Proof. intros HQ. eexists _, _. split; [apply evals_exit|done]. Qed.
Lemma ends_bind {R S} (t : proc R) (k : R -> proc S) w Q :
  returns t w (fun r v => forall w1, seen w1 = v -> ends (k r) w1 Q) -> ends (ITree.bind t k) w Q.
Proof.
  intros (w1 & [|r|st|] & Et & Hk); try done. destruct (Hk w1 eq_refl) as (w2 & o & Ek & HQ).
  eexists _, _. split; [by eapply evals_bind|done].
Qed.
(** A call, and what follows it. *)
Lemma ends_call {S} c (k : reply -> proc S) w Q :
  (forall w1, seen w1 = seen (answer c w).1 -> ends (k (answer c w).2) w1 Q) -> ends (ITree.bind (sys c) k) w Q.
Proof. intros Hk. apply ends_bind. eexists _, _. split; [apply evals_sys|done]. Qed.

Lemma ends_iter {I R} (body : I -> proc (I + R)) i w Q :
  returns (body i) w (fun lr v => match lr with
    | inl j => forall w1, seen w1 = v -> ends (ITree.iter body j) w1 Q
    | inr r => Q (Returned r) v
    end) -> ends (ITree.iter body i) w Q.
Proof.
  intros (w1 & [|[j|r]|st|] & Eb & Hk); try done.
  - destruct (Hk w1 eq_refl) as (w2 & o & Ei & HQ). eexists _, _. split; [by eapply evals_again|done].
  - eexists _, _. split; [by apply evals_stop|done].
Qed.
Lemma ends_impl {R} (t : proc R) w (Q Q' : result R -> view -> Prop) :
  ends t w Q -> (forall o v, Q o v -> Q' o v) -> ends t w Q'.
Proof. intros (w' & o & E & HQ) HI. eexists _, _. eauto. Qed.
Lemma returns_impl {R} (t : proc R) w (Q Q' : R -> view -> Prop) :
  returns t w Q -> (forall r v, Q r v -> Q' r v) -> returns t w Q'.
Proof. intros Ht HI. eapply ends_impl; [exact Ht|]. intros [] v; auto. Qed.

Lemma put_put fd a b v : put fd b (put fd a v) = put fd (a ++ b) v.
Proof. unfold put. destruct (fd =? 1); cbn; by rewrite app_assoc. Qed.
Lemma put_nil fd v : put fd [] v = v.
Proof. unfold put. destruct v, (fd =? 1); cbn; by rewrite app_nil_r. Qed.

Lemma returns_puts fd cs w : fd = 1 \/ fd = 2 -> returns (puts fd cs) w (fun _ v => v = put fd cs (seen w)).
Proof.
  intros Hfd. revert w. induction cs as [|c cs IH]; intros w; cbn [puts]; [apply ends_pure; by rewrite put_nil|].
  apply ends_call. intros w1 Hw. destruct (write_files w fd [c] Hfd) as [_ Hs].
  eapply returns_impl; [apply IH|]. intros _ v ->. by rewrite Hw, Hs, put_put.
Qed.
Lemma returns_fprintf fd fmt args cs w : fd = 1 \/ fd = 2 -> UPrintf.vprintf fmt args = Some cs ->
  returns (fprintf fd fmt args) w (fun _ v => v = put fd cs (seen w)).
Proof. intros Hfd E. unfold fprintf. rewrite E. by apply returns_puts. Qed.

(** ** The loop over the files *)

(** What a program that writes [f name data] for each of its files has written at
    the end, and the first file that could not be opened. *)
Fixpoint files_out (f : bytes -> bytes -> bytes) (args : list bytes) : bytes * option bytes :=
  match args with
  | [] => ([], None)
  | arg :: args =>
      match file arg with
      | None => ([], Some arg)
      | Some nd => let r := files_out f args in (f arg (n_data nd) ++ r.1, r.2)
      end
  end.
(** ... with the message [msg name] on efd then, and the exit status. *)
Definition files_end (efd : Z) (msg : bytes -> bytes) (r : bytes * option bytes) (v : view) : view * Z :=
  match r.2 with
  | None => (put 1 r.1 v, 0)
  | Some arg => (put efd (msg arg) (put 1 r.1 v), 1)
  end.

(** [work] writes [f name l] when the bytes of its descriptor that have not been
    read are l; [good] is what it keeps of the buffer, [fits] what it needs of l. *)
Definition works (work : Z -> bytes -> bytes -> proc bytes) (f : bytes -> bytes -> bytes)
    (fits : bytes -> bytes -> Prop) (good : bytes -> Prop) : Prop :=
  forall fd name buf w nd l, v_fds (seen w) !! fd = Some (nd, l) -> fits name l -> good buf ->
    returns (work fd name buf) w (fun buf' v => good buf' /\ exists rest,
      v = put 1 (f name l) (set_fds (<[fd := (nd, rest)]> (v_fds (seen w))) (seen w))).

Lemma ends_each_file work complain f fits good efd msg args buf w : works work f fits good ->
  (forall arg w, arg ∈ args -> file arg = None -> returns (complain arg) w (fun _ v => v = put efd (msg arg) (seen w))) ->
  (size (v_fds (seen w)) < 13)%nat -> (forall arg nd, arg ∈ args -> file arg = Some nd -> fits arg (n_data nd)) -> good buf ->
  ends (each_file work complain args buf) w (fun o v =>
    let e := files_end efd msg (files_out f args) (seen w) in o = Exited e.2 /\ v = e.1).
Proof.
  intros Hwork. revert buf w. induction args as [|arg args IH]; intros buf w Hmsg Hsize Hfits Hgood; cbn [files_out each_file].
  { apply ends_exit. unfold files_end. cbn [fst snd]. by rewrite put_nil. }
  apply ends_call. intros w1 Hw1. destruct (file arg) as [nd|] eqn:Hfile.
  - destruct (open_files w arg nd Hsize Hfile) as (fd & Hpos & Hnone & -> & Hseen). rewrite Hseen in Hw1.
    destruct (Z.ltb_spec fd 0); [lia|]. apply ends_bind. eapply returns_impl.
    { apply Hwork; [rewrite Hw1; cbn; apply lookup_insert_eq|apply Hfits; [set_solver|done]|done]. }
    intros buf' v (Hgood' & rest & ->) w2 Hw2. apply ends_call. intros w3 Hw3.
    rewrite (close_files w2 fd (nd, rest)) in Hw3 by (rewrite Hw2; cbn; apply lookup_insert_eq).
    assert (seen w3 = put 1 (f arg (n_data nd)) (seen w)) as Hw.
    { rewrite Hw3, Hw2, Hw1. unfold put, set_fds. cbn. by rewrite insert_insert_eq, delete_insert_id by done. }
    eapply ends_impl; [apply IH; [set_solver|by rewrite Hw|set_solver|done]|].
    intros o v. unfold files_end. cbn [fst snd]. rewrite Hw, <- put_put. done.
  - destruct (open_none w arg Hfile) as [-> Hseen]. change (-1 <? 0) with true. rewrite Hseen in Hw1. apply ends_bind.
    eapply returns_impl; [apply Hmsg; [set_solver|done]|]. intros _ v -> w2 Hw2. apply ends_exit.
    unfold files_end. cbn [fst snd]. by rewrite put_nil, Hw2, Hw1.
Qed.

(** ** cat *)

Lemma splice_0_take (buf bs : bytes) : take (length bs) (splice buf 0 bs) = bs.
Proof. unfold splice. rewrite take_0. cbn. apply take_app_length. Qed.

Lemma returns_cat fd buf w nd l : v_fds (seen w) !! fd = Some (nd, l) ->
  returns (Cat.cat fd buf) w (fun _ v => v = put 1 l (set_fds (<[fd := (nd, [])]> (v_fds (seen w))) (seen w))).
Proof.
  remember (length l) as n eqn:Hn. revert buf w l Hn. induction (lt_wf n) as [n _ IH]. intros buf w l Hn Hfd.
  destruct (read_files w fd 512 nd l Hfd) as (chunk & rest & -> & Hlen & Hempty & _ & Hval & Hseen); [lia|].
  apply ends_iter, ends_call. intros w1 Hw1. rewrite Hval. cbn [r_val r_mem]. rewrite Hseen in Hw1.
  destruct (Z.ltb_spec 0 (Z.of_nat (length chunk))) as [Hpos|Hz].
  - rewrite Nat2Z.id, splice_0_take. apply ends_call. intros w2 Hw2.
    destruct (write_files w1 1 chunk (or_introl eq_refl)) as [-> Hs2]. rewrite Z.eqb_refl. cbn [negb].
    rewrite Hs2, Hw1 in Hw2. apply ends_pure. intros w3 Hw3. rewrite Hw2 in Hw3.
    rewrite length_app in Hn. eapply returns_impl.
    { apply (IH (length rest)); [lia|done|]. rewrite Hw3. cbn. apply lookup_insert_eq. }
    intros _ v ->. rewrite Hw3. unfold put, set_fds. cbn. by rewrite insert_insert_eq, <- app_assoc.
  - destruct chunk; [|cbn in Hz; lia]. destruct (Hempty eq_refl) as [Hl|]; [|lia]. cbn in Hl. subst rest. cbn [length Z.of_nat Z.ltb Z.compare].
    apply ends_pure. by rewrite Hw1, put_nil.
Qed.

(** ** Programs that read their files, or standard input when there are none *)

(** What such a program writes to descriptors 1 and 2, and its exit status. *)
Definition filter_end (efd : Z) (msg : bytes -> bytes) (f : bytes -> bytes -> bytes) (stdin : bytes)
    (args : list bytes) : bytes * bytes * Z :=
  match args with
  | [] => (f [] stdin, [], 0)
  | _ =>
      match files_out f args with
      | (out, None) => (out, [], 0)
      | (out, Some arg) => if efd =? 1 then (out ++ msg arg, [], 1) else (out, msg arg, 1)
      end
  end.
Definition wrote (x : bytes * bytes * Z) (w : K) (o : result Z) (v : view) : Prop :=
  o = Exited x.2 /\ v_out v = v_out (seen w) ++ x.1.1 /\ v_err v = v_err (seen w) ++ x.1.2.

Lemma ends_filter work complain f fits good efd msg args buf w nd stdin : works work f fits good ->
  (forall arg w, arg ∈ args -> returns (complain arg) w (fun _ v => v = put efd (msg arg) (seen w))) ->
  (size (v_fds (seen w)) < 13)%nat -> v_fds (seen w) !! 0 = Some (nd, stdin) -> (args = [] -> fits [] stdin) ->
  (forall arg nd, arg ∈ args -> file arg = Some nd -> fits arg (n_data nd)) -> good buf ->
  ends (if bool_decide (args = []) then ITree.bind (work 0 [] buf) (fun _ => exit 0) else each_file work complain args buf) w
    (wrote (filter_end efd msg f stdin args) w).
Proof.
  intros Hwork Hmsg Hsize Hin Hfits0 Hfits Hgood. unfold wrote. destruct args as [|arg args].
  - rewrite bool_decide_eq_true_2 by done. apply ends_bind.
    eapply returns_impl; [apply (Hwork 0 [] buf w nd stdin); auto|]. intros buf' v (_ & rest & ->) w1 Hw1.
    apply ends_exit. rewrite Hw1. cbn. by rewrite app_nil_r.
  - rewrite bool_decide_eq_false_2 by done.
    eapply ends_impl; [by apply (ends_each_file work complain f fits good efd msg); auto|].
    intros o v [-> ->]. unfold files_end, filter_end. destruct (files_out f (arg :: args)) as [out [a|]]; cbn [fst snd].
    + unfold put. destruct (efd =? 1); cbn; rewrite ?app_nil_r, ?app_assoc; done.
    + cbn. by rewrite app_nil_r.
Qed.

Lemma works_cat : works (fun fd _ buf => Cat.cat fd buf) (fun _ l => l) (fun _ _ => True) (fun _ => True).
Proof.
  intros fd name buf w nd l Hfd _ _. eapply returns_impl; [by apply returns_cat|]. intros buf' v ->. split; [done|]. by exists [].
Qed.

(** The message [pre name\n] on fd. *)
Lemma returns_message fd fmt pre arg w : fd = 1 \/ fd = 2 -> Forall is_byte arg ->
  format UPrintf.digits fmt [P (Some arg)] = Some (chars pre ++ arg ++ [NEWLINE]) ->
  returns (fprintf fd fmt [P (Some arg)]) w (fun _ v => v = put fd (chars pre ++ arg ++ [NEWLINE]) (seen w)).
Proof.
  intros Hfd Harg Hf. apply returns_fprintf; [done|]. apply vprintf_bytes; [done|].
  apply Forall_app_2; [apply chars_bytes|]. apply Forall_app_2; [done|]. by repeat constructor.
Qed.

Lemma main_shape {A} (argv0 : bytes) (args : list bytes) (x y : A) :
  (if (length (argv0 :: args) <=? 1)%nat then x else y) = if bool_decide (args = []) then x else y.
Proof. by destruct args. Qed.

Lemma cat_ends arg0 args w nd stdin : Forall (Forall is_byte) args ->
  (size (v_fds (seen w)) < 13)%nat -> v_fds (seen w) !! 0 = Some (nd, stdin) ->
  ends (Cat.main (arg0 :: args)) w
    (wrote (filter_end 2 (fun arg => chars "cat: cannot open " ++ arg ++ [NEWLINE]) (fun _ l => l) stdin args) w).
Proof.
  intros Hargs Hsize Hin. unfold Cat.main. rewrite main_shape.
  apply (ends_filter _ _ _ _ _ _ _ _ _ _ nd _ works_cat); try done. intros arg w1 Harg.
  rewrite Forall_forall in Hargs. apply returns_message; [by right|by apply Hargs|done].
Qed.

(** ** wc *)
Definition wc_line (name data : bytes) : bytes :=
  decimal (lines_of data) ++ chars " " ++ decimal (words_of data) ++ chars " " ++
  decimal (Z.of_nat (length data)) ++ chars " " ++ name ++ [NEWLINE].

Lemma wc_format a b c name : Forall is_byte name ->
  UPrintf.vprintf (line "%d %d %d %s") [W a; W b; W c; P (Some name)] =
    Some (decimal (i32 a) ++ chars " " ++ decimal (i32 b) ++ chars " " ++ decimal (i32 c) ++ chars " " ++ name ++ [NEWLINE]).
Proof.
  intros Hname. apply vprintf_bytes.
  - by apply (format_show_all UPrintf.digits [Cd; Lit 32; Cd; Lit 32; Cd; Lit 32; Cs; Lit 10]); repeat constructor.
  - repeat (apply Forall_app_2; [first [apply decimal_bytes, i32_range|apply chars_bytes|done]|]). by repeat constructor.
Qed.

Lemma returns_count_loop fd s buf w nd l : v_fds (seen w) !! fd = Some (nd, l) ->
  returns (Wc.count_loop fd (s, buf)) w (fun x v => x.1 = (0, foldl Wc.count_char s l) /\
    v = set_fds (<[fd := (nd, [])]> (v_fds (seen w))) (seen w)).
Proof.
  remember (length l) as n eqn:Hn. revert s buf w l Hn. induction (lt_wf n) as [n _ IH]. intros s buf w l Hn Hfd.
  destruct (read_files w fd 512 nd l Hfd) as (chunk & rest & -> & Hlen & Hempty & _ & Hval & Hseen); [lia|].
  apply ends_iter, ends_call. intros w1 Hw1. rewrite Hval. cbn [r_val r_mem]. rewrite Hseen in Hw1.
  destruct (Z.ltb_spec 0 (Z.of_nat (length chunk))) as [Hpos|Hz].
  - rewrite Nat2Z.id, splice_0_take. apply ends_pure. intros w2 Hw2. rewrite Hw1 in Hw2.
    rewrite length_app in Hn. eapply returns_impl.
    { apply (IH (length rest)); [lia|done|]. rewrite Hw2. cbn. apply lookup_insert_eq. }
    intros x v [-> ->]. rewrite foldl_app, Hw2. unfold set_fds. cbn. by rewrite insert_insert_eq.
  - destruct chunk; [|cbn in Hz; lia]. destruct (Hempty eq_refl) as [Hl|]; [|lia]. cbn in Hl. subst rest.
    apply ends_pure. by rewrite Hw1.
Qed.

Lemma works_wc : works Wc.wc wc_line (fun name l => Z.of_nat (length l) < 2^31 /\ Forall is_byte name) (fun _ => True).
Proof.
  intros fd name buf w nd l Hfd [Hlen Hname] _. unfold Wc.wc. apply ends_bind.
  eapply returns_impl; [by apply returns_count_loop|]. intros [[n s] buf'] v [E ->] w1 Hw1. cbn in E. simplify_eq.
  change (0 <? 0) with false. cbv iota.
  destruct (count_chars_spec l (Wc.mkCounts 0 0 0 false)) as (b & ->); [cbn; lia..|]. cbn [Wc.l Wc.w Wc.c Wc.inword].
  apply ends_bind. eapply returns_impl; [apply returns_fprintf; [by left|by apply wc_format]|].
  intros _ v -> w2 Hw2. apply ends_pure. split; [done|]. exists []. rewrite Hw2, Hw1. f_equal. unfold wc_line.
  pose proof (new_words_bounds false l). assert (0 <= lines_of l <= Z.of_nat (length l)).
  { unfold lines_of. pose proof (length_filter (fun c => c = NEWLINE) l). lia. }
  rewrite !i32_id by lia. unfold new_words. cbn [andb]. by rewrite Z.sub_0_r, !Z.add_0_l.
Qed.

Lemma wc_ends arg0 args w nd stdin : Forall (Forall is_byte) args ->
  (size (v_fds (seen w)) < 13)%nat -> v_fds (seen w) !! 0 = Some (nd, stdin) -> Z.of_nat (length stdin) < 2^31 ->
  (forall arg nd, arg ∈ args -> file arg = Some nd -> Z.of_nat (length (n_data nd)) < 2^31) ->
  ends (Wc.main (arg0 :: args)) w
    (wrote (filter_end 1 (fun arg => chars "wc: cannot open " ++ arg ++ [NEWLINE]) wc_line stdin args) w).
Proof.
  intros Hargs Hsize Hin Hlen Hfiles. rewrite Forall_forall in Hargs. unfold Wc.main. rewrite main_shape.
  apply (ends_filter _ _ _ _ _ _ _ _ _ _ nd _ works_wc); try done.
  - intros arg w1 Harg. apply returns_message; [by left|by apply Hargs|done].
  - intros arg nd' Harg Hf. split; [by eapply Hfiles|by apply Hargs].
Qed.

(** ** grep *)

Lemma scan_out pattern fuel buf p out :
  Grep.scan fuel pattern buf p out = ((Grep.scan fuel pattern buf p []).1, out ++ (Grep.scan fuel pattern buf p []).2).
Proof.
  revert buf p out. induction fuel as [|fuel IH]; intros buf p out; cbn [Grep.scan]; [by rewrite app_nil_r|].
  destruct (Ulib.strchr (drop p buf) Grep.NL) as [k|]; [|by rewrite app_nil_r].
  destruct (Grep.grep_match _ _); [|apply IH]. rewrite IH. symmetry. rewrite IH. cbn. by rewrite app_assoc.
Qed.

Lemma returns_scan pattern fuel buf p w :
  let s := Grep.scan fuel pattern buf p [] in
  returns (GrepCmd.scan fuel pattern buf p) w (fun x v => x = s.1 /\ v = put 1 s.2 (seen w)).
Proof.
  revert buf p w. induction fuel as [|fuel IH]; intros buf p w; cbn [GrepCmd.scan Grep.scan].
  { apply ends_pure. by rewrite put_nil. }
  destruct (Ulib.strchr (drop p buf) Grep.NL) as [k|]; [|apply ends_pure; by rewrite put_nil].
  destruct (Grep.grep_match _ _); [|apply IH]. apply ends_call. intros w1 Hw1. rewrite scan_out.
  eapply returns_impl; [apply IH|]. intros x v [-> ->]. split; [done|]. cbn [snd].
  rewrite Hw1. destruct (write_files w 1 (slice (<[(p + k)%nat := Grep.NL]> (<[(p + k)%nat := 0]> buf)) p (p + k + 1 - p)))
    as [_ ->]; [by left|]. by rewrite put_put.
Qed.

(** A round of the loop of [grep]: a chunk that fits goes into the buffer, the
    complete lines are searched and the rest is moved to the front. *)
Lemma grep_round pattern cur junk chunk : length (cur ++ junk) = Grep.BUFSIZE -> (length cur + length chunk <= 1023)%nat ->
  chunk <> [] -> Grep.NL ∉ cur -> 0 ∉ cur -> 0 ∉ chunk ->
  let m := (length cur + length chunk)%nat in
  let buf := <[m := 0]> (splice (cur ++ junk) (length cur) chunk) in
  let s := Grep.scan (length buf) pattern buf 0 [] in
  let c' := (cut cur chunk).2 in
  s.2 = grep_output pattern (cut cur chunk).1 /\ (0 <? m)%nat = true /\ (m - s.1.2 = length c')%nat /\
  exists junk', splice s.1.1 0 (slice s.1.1 s.1.2 (length c')) = c' ++ junk' /\ length (c' ++ junk') = Grep.BUFSIZE.
Proof.
  intros Hbuf Hlen Hch Hnl H0c H0ch m buf. change Grep.BUFSIZE with 1024%nat in *.
  destruct (fill_buf cur chunk junk) as (junk' & Hfill & Hlen'); [lia|]. fold m in Hfill. unfold buf. rewrite Hfill.
  destruct (grep_scan_spec pattern junk' (length ((cur ++ chunk) ++ 0 :: junk')) [] (cur ++ chunk) []) as (pre' & Hscan & Hpre).
  { by intros [?|?]%elem_of_app. }
  { rewrite !length_app. cbn. lia. }
  cbn [app length] in Hscan. rewrite Hscan. rewrite length_app in Hpre. cbn [length fst snd] in *.
  rewrite (cut_no_nl cur [] chunk Hnl) in *. cbn [app] in *. set (c' := (cut cur chunk).2) in *.
  assert (0 < length chunk)%nat by (destruct chunk; [done|cbn; lia]). split_and!; [done|apply Nat.ltb_lt; lia|lia|].
  unfold slice. rewrite drop_app_length, take_app_length. unfold splice. rewrite take_0. cbn [app].
  eexists. split; [reflexivity|]. rewrite length_app, length_drop, !length_app in *. cbn [length] in *. lia.
Qed.

Lemma splice_nil (l : bytes) m : splice l m [] = l.
Proof. unfold splice. cbn. rewrite Nat.add_0_r. apply take_drop. Qed.

Lemma returns_grep_loop pattern fd w nd cur junk l : v_fds (seen w) !! fd = Some (nd, l) ->
  length (cur ++ junk) = Grep.BUFSIZE -> (length cur <= 1023)%nat -> Grep.NL ∉ cur -> 0 ∉ cur -> 0 ∉ l ->
  returns (GrepCmd.grep_loop pattern fd (cur ++ junk, length cur)) w (fun buf v => length buf = Grep.BUFSIZE /\ exists rest,
    v = put 1 (grep_output pattern (lines cur l)) (set_fds (<[fd := (nd, rest)]> (v_fds (seen w))) (seen w))).
Proof.
  remember (length l) as n eqn:Hn. revert cur junk w l Hn. induction (lt_wf n) as [n _ IH].
  intros cur junk w l Hn Hfd Hbuf Hcur Hnl H0c H0l. change Grep.BUFSIZE with 1024%nat in *.
  destruct (read_files w fd (Z.of_nat (1024 - length cur - 1)) nd l Hfd) as (chunk & rest & -> & Hlen & Hempty & _ & Hval & Hseen); [lia|].
  apply ends_iter, ends_call. intros w1 Hw1. change Grep.BUFSIZE with 1024%nat in Hw1 |- *. rewrite Hval. cbn [r_val r_mem]. rewrite Hseen in Hw1.
  destruct (Z.ltb_spec 0 (Z.of_nat (length chunk))) as [Hpos|Hz]; cbn [negb].
  - rewrite Nat2Z.id. apply not_elem_of_app in H0l as [H0ch H0r].
    destruct (grep_round pattern cur junk chunk) as (Hout & Hm & Hsub & junk' & Hmove & Hlen'); try done; [lia|by destruct chunk|].
    set (m := (length cur + length chunk)%nat) in *. set (buf := <[m := 0]> _) in *.
    apply ends_bind. eapply returns_impl; [apply returns_scan|]. intros [buf' p] v [E ->] w2 Hw2. rewrite <- E in *. cbn [fst snd] in *.
    rewrite Hm, Hsub, Hmove. apply ends_pure. intros w3 Hw3. rewrite Hw2, Hw1, Hout in Hw3. rewrite length_app in Hn.
    pose proof (cut_concat chunk cur) as Hcc. pose proof (cut_length chunk cur).
    eapply returns_impl; [apply (IH (length rest)); try done|].
    + lia.
    + rewrite Hw3. cbn. apply lookup_insert_eq.
    + lia.
    + by apply cut_rest_no_nl.
    + intros Hc'. assert (0 ∈ cur ++ chunk) as [?|?]%elem_of_app; [rewrite <- Hcc; apply elem_of_app; by right|done|done].
    + intros b v [Hb [r ->]]. split; [done|]. exists r. rewrite Hw3, lines_cut, grep_output_app by lia.
      unfold put, set_fds. cbn. by rewrite insert_insert_eq, <- app_assoc.
  - destruct chunk; [|cbn in Hz; lia]. apply ends_pure. rewrite splice_nil. split; [done|]. exists rest. rewrite Hw1. cbn [app].
    rewrite (lines_stop cur rest 1); [by rewrite put_nil| |lia|done]. cbn in Hempty. destruct (Hempty eq_refl); [by right|left; lia].
Qed.

Lemma works_grep pattern : works (fun fd _ buf => GrepCmd.grep pattern fd buf) (fun _ l => grep_output pattern (lines [] l))
  (fun _ l => 0 ∉ l) (fun buf => length buf = Grep.BUFSIZE).
Proof.
  intros fd name buf w nd l Hfd Hz Hbuf. apply (returns_grep_loop pattern fd w nd [] buf l); try done; cbn; [lia|set_solver..].
Qed.

Lemma grep_ends arg0 pattern args w nd stdin : Forall (Forall is_byte) args ->
  (size (v_fds (seen w)) < 13)%nat -> v_fds (seen w) !! 0 = Some (nd, stdin) -> 0 ∉ stdin ->
  (forall arg nd, arg ∈ args -> file arg = Some nd -> 0 ∉ n_data nd) ->
  ends (GrepCmd.main (arg0 :: pattern :: args)) w
    (wrote (filter_end 1 (fun arg => chars "grep: cannot open " ++ arg ++ [NEWLINE])
      (fun _ l => grep_output pattern (lines [] l)) stdin args) w).
Proof.
  intros Hargs Hsize Hin Hz Hfiles. rewrite Forall_forall in Hargs. unfold GrepCmd.main.
  apply (ends_filter _ _ _ _ _ _ _ _ _ _ nd _ (works_grep pattern)); try done.
  intros arg w1 Harg. apply returns_message; [by left|by apply Hargs|done].
Qed.

(** ** The programs *)

Definition cannot_open (prog : string) (arg : bytes) : bytes := chars prog ++ chars ": cannot open " ++ arg ++ [NEWLINE].
(** A text file: no NULs, and a length that an int holds. *)
Definition text_ok (l : bytes) : Prop := 0 ∉ l /\ Z.of_nat (length l) < 2^31.

(** C26. cat, wc and grep come to an end, and for their files in order, or for
    standard input without files, however the reads deliver its bytes: cat
    writes their contents; wc a line for each with the numbers of its line
    ends, of its words (the non-empty fields between blanks) and of its bytes;
    grep the lines the pattern matches with their line ends, up to a line of
    1023 bytes or more and without a last line that has no line end.  The
    first file that cannot be opened ends them with a message and status 1,
    after the output for those before; otherwise the status is 0. *)
Theorem filters_correct arg0 pattern args w nd stdin : Forall (Forall is_byte) args ->
  (size (v_fds (seen w)) < 13)%nat -> v_fds (seen w) !! 0 = Some (nd, stdin) ->
  ends (Cat.main (arg0 :: args)) w (wrote (filter_end 2 (cannot_open "cat") (fun _ l => l) stdin args) w) /\
  (text_ok stdin -> (forall arg nd, arg ∈ args -> file arg = Some nd -> text_ok (n_data nd)) ->
    ends (Wc.main (arg0 :: args)) w (wrote (filter_end 1 (cannot_open "wc") wc_line stdin args) w) /\
    ends (GrepCmd.main (arg0 :: pattern :: args)) w
      (wrote (filter_end 1 (cannot_open "grep") (fun _ l => grep_output pattern (lines [] l)) stdin args) w)).
Proof.
  intros Hargs Hsize Hin. split; [by apply (cat_ends _ _ _ nd)|]. intros [Hz Hlen] Hfiles. split.
  - apply (wc_ends _ _ _ nd); try done. intros arg nd' Harg Hf. by apply (Hfiles arg nd').
  - apply (grep_ends _ _ _ _ nd); try done. intros arg nd' Harg Hf. by apply (Hfiles arg nd').
Qed.
End files.
