(* ===== verification/LsProps.v ===== *)
(** * ls and echo ([user/ls.c], [user/echo.c])

    What ls prints for a file, a directory or a name that does not exist, and
    what echo prints.  At the end a kernel on which the programs run. *)
From ITree Require Import Core.ITreeDefinition.
From S2P Require Import Prelude Params CString Printf Ulib Grep Usys User UserProps.

(** ** Names *)

(** The part of a path after its last slash. *)
Fixpoint basename (path : bytes) : bytes :=
  match path with
  | [] => []
  | _ :: path' => if decide (Ls.SLASH ∈ path) then basename path' else path
  end.
(** A name in a column of DIRSIZ characters. *)
Definition padded (name : bytes) : bytes := name ++ replicate (Z.to_nat DIRSIZ - length name) 32.

Lemma basename_none path : Ls.SLASH ∉ path -> basename path = path.
Proof. intros Hp. destruct path; [done|]. cbn [basename]. by rewrite decide_False. Qed.
Lemma basename_slash pre name : Ls.SLASH ∉ name -> basename (pre ++ Ls.SLASH :: name) = name.
Proof.
  intros Hn. induction pre as [|c pre IH]; cbn [app basename].
  - rewrite decide_True by set_solver. by apply basename_none.
  - rewrite decide_True by set_solver. done.
Qed.

Lemma basename_elem path c : c ∈ basename path -> c ∈ path.
Proof.
  induction path as [|x path IH]; cbn [basename]; [done|]. destruct (decide _); [|done]. intros Hc. right. auto.
Qed.

Lemma lookup_at_length (pre suf : bytes) : (pre ++ suf) !! length pre = head suf.
Proof. rewrite lookup_app_r, Nat.sub_diag by lia. by destruct suf. Qed.

Lemma after_slash_spec pre suf : Ls.SLASH ∉ suf ->
  drop (Ls.after_slash (pre ++ suf) (length pre)) (pre ++ suf) = basename (pre ++ suf).
Proof.
  revert suf. induction pre as [|c pre IH] using rev_ind; intros suf Hs.
  - cbn [app length Ls.after_slash]. destruct suf as [|c suf]; [done|]. change (default 0 ((c :: suf) !! 0%nat)) with c.
    destruct (Z.eqb_spec c Ls.SLASH); [set_solver|]. by rewrite basename_none.
  - rewrite length_app, Nat.add_1_r. cbn [Ls.after_slash].
    replace (S (length pre)) with (length (pre ++ [c])) by (rewrite length_app; cbn; lia). rewrite lookup_at_length.
    assert (default 0 (head suf) =? Ls.SLASH = false) as -> by (destruct suf; [done|]; cbn; apply Z.eqb_neq; set_solver).
    rewrite <- app_assoc. cbn [app]. destruct (Z.eq_dec c Ls.SLASH) as [->|Hc]; [|apply IH; set_solver].
    rewrite basename_slash by done. destruct (length pre) as [|k] eqn:Hk.
    + destruct pre; [|done]. done.
    + cbn [Ls.after_slash]. rewrite <- Hk, lookup_at_length. cbn [head default]. rewrite Z.eqb_refl, Hk.
      by rewrite drop_app_ge, Hk, Nat.sub_succ_l, Nat.sub_diag by lia.
Qed.

Lemma fmtname_spec path : 0 ∉ path -> Ls.fmtname path = padded (basename path).
Proof.
  intros Hz. pose proof (after_slash_spec path [] ltac:(set_solver)) as Hb. rewrite app_nil_r in Hb.
  unfold Ls.fmtname. rewrite Hb. set (name := basename path). unfold padded.
  destruct (Z.leb_spec DIRSIZ (Z.of_nat (length name))) as [Hl|Hl].
  - replace (Z.to_nat DIRSIZ - length name)%nat with 0%nat by klia. cbn. by rewrite app_nil_r.
  - assert (splice (splice (replicate (Z.to_nat DIRSIZ + 1) 0) 0 name) (length name)
      (replicate (Z.to_nat DIRSIZ - length name) 32) = (name ++ replicate (Z.to_nat DIRSIZ - length name) 32) ++ [0]) as ->.
    { unfold splice. rewrite take_0. cbn [app]. rewrite take_app_length, length_replicate, drop_app_ge by lia.
      rewrite !drop_replicate, <- app_assoc. do 2 f_equal.
      replace (Z.to_nat DIRSIZ + 1 - (0 + length name) - (length name + (Z.to_nat DIRSIZ - length name) - length name))%nat
        with 1%nat by klia. done. }
    rewrite insert_mid by (rewrite length_app, length_replicate; klia). rewrite cstring_nul; [done|].
    intros [Hin|[E _]%elem_of_replicate]%elem_of_app; [|done]. by apply Hz, basename_elem.
Qed.

(** ** ls *)

(** The fields of a file that struct stat and %d hold. *)
Definition node_ok (nd : node) : Prop :=
  - 2^15 <= n_type nd < 2^15 /\ 0 <= n_ino nd < 2^31 /\ Z.of_nat (length (n_data nd)) < 2^31.
Definition ls_line (path : bytes) (nd : node) : bytes :=
  padded (basename path) ++ chars " " ++ decimal (n_type nd) ++ chars " " ++ decimal (n_ino nd) ++ chars " " ++
  decimal (Z.of_nat (length (n_data nd))) ++ [NEWLINE].

Lemma node_stat_fields nd : node_ok nd -> Ls.st_type (node_stat nd) = n_type nd /\ Ls.st_ino (node_stat nd) = n_ino nd /\
  Ls.st_size (node_stat nd) = Z.of_nat (length (n_data nd)).
Proof.
  intros (Ht & Hi & Hs). split_and!.
  - change (i16 (of_le (to_le 2 (n_type nd))) = n_type nd). rewrite of_to_le, i16_u16. by apply i16_id.
  - change (of_le (to_le 4 (n_ino nd)) = n_ino nd). rewrite of_to_le. apply Z.mod_small. lia.
  - change (of_le (to_le 8 (Z.of_nat (length (n_data nd)))) = Z.of_nat (length (n_data nd))).
    rewrite of_to_le. apply Z.mod_small. lia.
Qed.

Section ls.
Context `{Files K}.

Lemma padded_bytes name : Forall is_byte name -> Forall is_byte (padded name).
Proof. intros Hn. apply Forall_app_2; [done|]. by apply Forall_replicate. Qed.
Lemma basename_bytes path : Forall is_byte path -> Forall is_byte (basename path).
Proof. rewrite !Forall_forall. intros Hp c Hc. by apply Hp, basename_elem. Qed.

Lemma ls_format name a b c : Forall is_byte name ->
  UPrintf.vprintf (line "%s %d %d %d") [P (Some name); W a; W b; W c] =
    Some (name ++ chars " " ++ decimal (i32 a) ++ chars " " ++ decimal (i32 b) ++ chars " " ++ decimal (i32 c) ++ [NEWLINE]).
Proof.
  intros Hname. apply vprintf_bytes.
  - by apply (format_show_all UPrintf.digits [Cs; Lit 32; Cd; Lit 32; Cd; Lit 32; Cd; Lit 10]); repeat constructor.
  - repeat (apply Forall_app_2; [first [done|apply decimal_bytes, i32_range|apply chars_bytes]|]). by repeat constructor.
Qed.

Lemma returns_print_entry path nd w : 0 ∉ path -> Forall is_byte path -> node_ok nd ->
  returns (Ls.print_entry path (node_stat nd)) w (fun _ v => v = put 1 (ls_line path nd) (seen w)).
Proof.
  intros Hz Hb Hnd. unfold Ls.print_entry. rewrite fmtname_spec by done.
  destruct (node_stat_fields nd Hnd) as (-> & -> & ->). destruct Hnd as (Ht & Hi & Hs).
  eapply returns_impl; [apply returns_fprintf; [by left|apply ls_format, padded_bytes, basename_bytes, Hb]|].
  intros _ v ->. unfold ls_line. by rewrite !i32_id by (rewrite ?i32_id; lia).
Qed.

Lemma returns_stat path w : (size (v_fds (seen w)) < 13)%nat ->
  returns (stat path) w (fun r v => v = seen w /\
    match file path with Some nd => r = mkReply 0 (node_stat nd) | None => r_val r = -1 end).
Proof.
  intros Hsize. unfold stat. apply ends_call. intros w1 Hw1. destruct (file path) as [nd|] eqn:Hfile.
  - destruct (open_files w path nd Hsize Hfile) as (fd & Hpos & Hnone & -> & Hseen). rewrite Hseen in Hw1.
    assert (v_fds (seen w1) !! fd = Some (nd, n_data nd)) as Hfd by (rewrite Hw1; apply lookup_insert_eq).
    destruct (Z.ltb_spec fd 0); [lia|]. apply ends_call. intros w2 Hw2.
    destruct (fstat_files w1 fd nd _ Hfd) as [Hr Hs]. rewrite Hs in Hw2. apply ends_call. intros w3 Hw3.
    apply ends_pure. split; [|done]. rewrite Hw3, (close_files w2 fd (nd, n_data nd)) by (by rewrite Hw2).
    rewrite Hw2, Hw1. unfold set_fds. cbn. rewrite delete_insert_id by done. by destruct (seen w).
  - destruct (open_none w path Hfile) as [-> Hs]. rewrite Hs in Hw1. apply ends_pure. by rewrite Hw1.
Qed.

(** ** Directories *)

(** A directory entry: an inode number, and a name padded with NULs. *)
Definition entry_ok (e : Z * bytes) : Prop :=
  0 <= e.1 < 2^16 /\ (length e.2 <= Z.to_nat DIRSIZ)%nat /\ Forall (fun c => 0 < c < 256) e.2 /\ Ls.SLASH ∉ e.2.
Definition entry_bytes (e : Z * bytes) : bytes := to_le 2 e.1 ++ e.2 ++ replicate (Z.to_nat DIRSIZ - length e.2) 0.

(** What is printed for an entry of the directory path. *)
Definition entry_out (path : bytes) (e : Z * bytes) : bytes :=
  if e.1 =? 0 then []
  else
    let p := path ++ Ls.SLASH :: e.2 in
    match file p with
    | Some nd => ls_line p nd
    | None => chars "ls: cannot stat " ++ p ++ [NEWLINE]
    end.

Lemma length_entry e : entry_ok e -> length (entry_bytes e) = Z.to_nat DIRENT_SIZE.
Proof. intros (_ & Hl & _). unfold entry_bytes. rewrite !length_app, length_replicate. cbn [to_le length]. klia. Qed.

Lemma entry_path_nul path e : 0 ∉ path -> entry_ok e -> 0 ∉ path ++ Ls.SLASH :: e.2.
Proof.
  intros Hz (_ & _ & Hb & _) [Hc|[E|Hc]%elem_of_cons]%elem_of_app; [done|done|].
  rewrite Forall_forall in Hb. apply Hb in Hc. lia.
Qed.
Lemma entry_path_bytes path e : Forall is_byte path -> entry_ok e -> Forall is_byte (path ++ Ls.SLASH :: e.2).
Proof.
  intros Hp (_ & _ & Hb & _). apply Forall_app_2; [done|]. constructor; [done|].
  eapply Forall_impl; [exact Hb|]. unfold is_byte. intros c Hc. cbn in Hc. lia.
Qed.

Lemma cstring_entry path e : 0 ∉ path -> entry_ok e ->
  cstring ((path ++ [Ls.SLASH]) ++ slice (entry_bytes e) 2 (Z.to_nat DIRSIZ)) = path ++ Ls.SLASH :: e.2.
Proof.
  intros Hz He. pose proof (entry_path_nul path e Hz He) as Hn. destruct He as (_ & Hl & _ & _). set (name := e.2) in *. rewrite <- app_assoc. cbn [app].
  assert (slice (entry_bytes e) 2 (Z.to_nat DIRSIZ) = name ++ replicate (Z.to_nat DIRSIZ - length name) 0) as ->.
  { unfold entry_bytes, slice. fold name. cbn [to_le app drop]. apply take_ge.
    rewrite length_app, length_replicate. lia. }
  destruct (Z.to_nat DIRSIZ - length name)%nat as [|k] eqn:Hk; cbn [replicate].
  - rewrite app_nil_r. apply cstring_id, Forall_forall. intros c Hc ->. done.
  - rewrite app_comm_cons, app_assoc. by apply cstring_nul.
Qed.

Lemma returns_entries fd path ents w nd : 0 ∉ path -> Forall is_byte path -> fd <> 0 ->
  Forall entry_ok ents -> (forall p nd, file p = Some nd -> node_ok nd) ->
  (size (v_fds (seen w)) < 13)%nat -> v_fds (seen w) !! fd = Some (nd, concat (entry_bytes <$> ents)) ->
  returns (Ls.entries fd (path ++ [Ls.SLASH])) w (fun _ v =>
    v = put 1 (concat (entry_out path <$> ents)) (set_fds (<[fd := (nd, [])]> (v_fds (seen w))) (seen w))).
Proof.
  intros Hz Hb Hfd0 Hents Hnodes. revert w. induction Hents as [|e ents He _ IH]; intros w Hsize Hfd.
  - destruct (read_files w fd DIRENT_SIZE nd _ Hfd) as (chunk & rest & E & _ & _ & _ & Hval & Hseen); [klia|].
    apply ends_iter, ends_call. intros w1 Hw1. rewrite Hval. symmetry in E. apply app_eq_nil in E as [-> ->].
    apply ends_pure. by rewrite Hw1, Hseen, put_nil.
  - destruct (read_files w fd DIRENT_SIZE nd _ Hfd) as (chunk & rest & E & _ & _ & Hfull & Hval & Hseen); [klia|].
    specialize (Hfull Hfd0). cbn [fmap list_fmap concat] in E, Hfull. rewrite <- (length_entry e He), take_app_length in Hfull. subst chunk.
    apply app_inv_head in E as <-. rewrite length_entry in Hval by done.
    apply ends_iter, ends_call. intros w1 Hw1. rewrite Hval. rewrite Hseen in Hw1. cbn [r_val r_mem].
    rewrite Z2Nat.id, Z.eqb_refl by klia. cbn [negb].
    assert (get_u16 (entry_bytes e) 0 = e.1) as ->.
    { change (of_le (to_le 2 e.1) = e.1). rewrite of_to_le. destruct He as [He _]. apply Z.mod_small. lia. }
    assert (forall w2, seen w2 = put 1 (entry_out path e) (seen w1) -> returns (Ls.entries fd (path ++ [Ls.SLASH])) w2 (fun _ v =>
      v = put 1 (concat (entry_out path <$> e :: ents)) (set_fds (<[fd := (nd, [])]> (v_fds (seen w))) (seen w)))) as Hgo.
    { intros w2 Hw2. eapply returns_impl; [apply IH|].
      - rewrite Hw2, Hw1. cbn. by rewrite (map_size_insert_Some _ _ _ (mk_is_Some _ _ Hfd)).
      - rewrite Hw2, Hw1. apply lookup_insert_eq.
      - intros _ v ->. rewrite Hw2, Hw1. unfold put, set_fds. cbn. by rewrite insert_insert_eq, <- app_assoc. }
    unfold entry_out in Hgo. destruct (Z.eqb_spec e.1 0) as [E|E].
    { apply ends_pure. intros w2 Hw2. apply Hgo. by rewrite put_nil. }
    rewrite cstring_entry by done.
    apply ends_bind. eapply returns_impl; [apply returns_stat; rewrite Hw1; cbn; by rewrite (map_size_insert_Some _ _ _ (mk_is_Some _ _ Hfd))|].
    intros r v [-> Hr] w2 Hw2. set (p := path ++ Ls.SLASH :: e.2) in *.
    assert (0 ∉ p /\ Forall is_byte p) as [Hpz Hpb] by (split; [by apply entry_path_nul|by apply entry_path_bytes]).
    apply ends_bind. destruct (file p) as [nd'|] eqn:Hfile.
    + subst r. cbn [r_val r_mem]. change (0 <? 0) with false. cbv iota.
      eapply returns_impl; [apply returns_print_entry; eauto|]. intros _ v -> w3 Hw3. apply ends_pure.
      intros w4 Hw4. apply Hgo. by rewrite Hw4, Hw3, Hw2.
    + rewrite Hr. change (-1 <? 0) with true. cbv iota.
      eapply returns_impl; [apply (returns_message 1 _ "ls: cannot stat "); [by left|done|done]|]. intros _ v -> w3 Hw3. apply ends_pure.
      intros w4 Hw4. apply Hgo. by rewrite Hw4, Hw3, Hw2.
Qed.

(** What ls prints for a path, and on which descriptor. *)
Inductive shows (path : bytes) : Z * bytes -> Prop :=
  | shows_none : file path = None -> shows path (2, chars "ls: cannot open " ++ path ++ [NEWLINE])
  | shows_file nd : file path = Some nd -> n_type nd = T_FILE \/ n_type nd = Ls.T_DEVICE -> shows path (1, ls_line path nd)
  | shows_dir nd ents : file path = Some nd -> n_type nd = T_DIR -> Z.of_nat (length path) <= 496 ->
      Forall entry_ok ents -> n_data nd = concat (entry_bytes <$> ents) -> shows path (1, concat (entry_out path <$> ents))
  | shows_long nd : file path = Some nd -> n_type nd = T_DIR -> 496 < Z.of_nat (length path) ->
      shows path (1, chars "ls: path too long" ++ [NEWLINE]).

Context (nodes_ok : forall p nd, file p = Some nd -> node_ok nd).

Lemma returns_show fd path nd x w : shows path x -> file path = Some nd -> 0 ∉ path -> Forall is_byte path -> fd <> 0 ->
  (size (v_fds (seen w)) < 13)%nat -> v_fds (seen w) !! fd = Some (nd, n_data nd) ->
  returns (Ls.show fd path (node_stat nd)) w (fun _ v => x.1 = 1 /\ exists rest,
    v = put 1 x.2 (set_fds (<[fd := (nd, rest)]> (v_fds (seen w))) (seen w))).
Proof.
  intros Hx Hfile Hz Hb Hfd0 Hsize Hfd. unfold Ls.show.
  destruct (node_stat_fields nd) as (-> & _ & _); [by eapply nodes_ok|].
  assert (seen w = set_fds (<[fd := (nd, n_data nd)]> (v_fds (seen w))) (seen w)) as Hsame.
  { rewrite insert_id by done. by destruct (seen w). }
  destruct Hx as [E|nd' E Ht|nd' ents E Ht Hlen Hents Hdata|nd' E Ht Hlen]; rewrite Hfile in E; simplify_eq; cbn [fst snd].
  - destruct ((n_type nd' =? Ls.T_DEVICE) || (n_type nd' =? T_FILE)) eqn:Hor; [|unfold Ls.T_DEVICE in *; klia].
    eapply returns_impl; [apply returns_print_entry; eauto|]. intros _ v ->. split; [done|]. exists (n_data nd'). by rewrite <- Hsame.
  - rewrite Ht. change ((T_DIR =? Ls.T_DEVICE) || (T_DIR =? T_FILE)) with false. rewrite Z.eqb_refl. cbv iota.
    destruct (Z.ltb_spec 512 (Z.of_nat (length path) + 1 + DIRSIZ + 1)); [klia|]. rewrite Hdata in Hfd.
    eapply returns_impl; [by apply (returns_entries fd path ents w nd')|]. intros _ v ->. split; [done|]. by exists [].
  - rewrite Ht. change ((T_DIR =? Ls.T_DEVICE) || (T_DIR =? T_FILE)) with false. rewrite Z.eqb_refl. cbv iota.
    destruct (Z.ltb_spec 512 (Z.of_nat (length path) + 1 + DIRSIZ + 1)); [|klia].
    eapply returns_impl; [by apply returns_fprintf; [by left|]|]. intros _ v ->. split; [done|]. exists (n_data nd'). by rewrite <- Hsame.
Qed.

(** Whatever is done between the open and the close of a file only adds output. *)
Lemma returns_ls path x w : shows path x -> 0 ∉ path -> Forall is_byte path -> (size (v_fds (seen w)) < 12)%nat ->
  returns (Ls.ls path) w (fun _ v => v = put x.1 x.2 (seen w)).
Proof.
  intros Hx Hz Hb Hsize. unfold Ls.ls. apply ends_call. intros w1 Hw1. destruct (file path) as [nd|] eqn:Hfile.
  2:{ destruct Hx; try congruence. destruct (open_none w path Hfile) as [-> Hs]. rewrite Hs in Hw1.
      change (-1 <? 0) with true. cbv iota. rewrite <- Hw1.
      eapply returns_impl; [apply (returns_message 2 _ "ls: cannot open "); [by right|done|done]|]. done. }
  destruct (open_files w path nd) as (fd & Hpos & Hnone & -> & Hseen); [lia|done|]. rewrite Hseen in Hw1.
  assert (v_fds (seen w1) !! fd = Some (nd, n_data nd)) as Hfd by (rewrite Hw1; apply lookup_insert_eq).
  destruct (Z.ltb_spec fd 0); [lia|]. apply ends_call. intros w2 Hw2.
  destruct (fstat_files w1 fd nd _ Hfd) as [-> Hs]. rewrite Hs in Hw2. rewrite <- Hw2 in Hfd. cbn [r_val r_mem].
  change (0 <? 0) with false. cbv iota. apply ends_bind.
  eapply returns_impl; [apply (returns_show fd path nd x); try done; [lia|]|].
  { rewrite Hw2, Hw1. cbn. rewrite map_size_insert_None by done. lia. }
  intros _ v (Hx1 & rest & ->) w3 Hw3. apply ends_call. intros w4 Hw4. apply ends_pure. rewrite Hw4.
  rewrite (close_files w3 fd (nd, rest)) by (rewrite Hw3; apply lookup_insert_eq).
  rewrite Hw3, Hw2, Hw1, Hx1. unfold put, set_fds. cbn. by rewrite !insert_insert_eq, delete_insert_id by done.
Qed.

(** The output for the arguments, one after the other. *)
Definition puts_all (xs : list (Z * bytes)) (v : view) : view := foldl (fun v x => put x.1 x.2 v) v xs.

Lemma put_fds fd bs v : v_fds (put fd bs v) = v_fds v.
Proof. unfold put. by destruct (fd =? 1). Qed.

Lemma ends_ls_args args xs w : Forall2 shows args xs -> Forall (fun arg => 0 ∉ arg /\ Forall is_byte arg) args ->
  (size (v_fds (seen w)) < 12)%nat -> ends (Ls.ls_args args) w (fun o v => o = Exited 0 /\ v = puts_all xs (seen w)).
Proof.
  intros Hxs. revert w. induction Hxs as [|arg x args xs Hx _ IH]; intros w Hargs Hsize; cbn [Ls.ls_args].
  { by apply ends_exit. }
  apply Forall_cons in Hargs as [[Hz Hb] Hargs]. apply ends_bind. eapply returns_impl; [by apply (returns_ls arg x)|].
  intros _ v -> w1 Hw1. eapply ends_impl; [apply IH; [done|by rewrite Hw1, put_fds]|]. by rewrite Hw1.
Qed.

(** ** echo *)

Definition echo_out (args : list bytes) : bytes :=
  match args with
  | [] => []
  | arg :: args => arg ++ concat ((fun a => chars " " ++ a) <$> args) ++ [NEWLINE]
  end.

Lemma ends_echo arg0 args w : ends (Echo.main (arg0 :: args)) w (fun o v => o = Exited 0 /\ v = put 1 (echo_out args) (seen w)).
Proof.
  unfold Echo.main. cbn [drop]. revert w. induction args as [|arg args IH]; intros w; cbn [Echo.echo_args].
  { apply ends_exit. by rewrite put_nil. }
  apply ends_call. intros w1 Hw1. destruct (write_files w 1 arg) as [_ Hs1]; [by left|]. rewrite Hs1 in Hw1. destruct args as [|arg' args].
  - rewrite bool_decide_eq_true_2 by done. cbn [negb]. apply ends_call. intros w2 Hw2.
    destruct (write_files w1 1 [NEWLINE]) as [_ Hs2]; [by left|]. apply ends_exit. by rewrite Hw2, Hs2, Hw1, put_put.
  - rewrite bool_decide_eq_false_2 by done. cbn [negb]. apply ends_call. intros w2 Hw2.
    destruct (write_files w1 1 (chars " ")) as [_ Hs2]; [by left|].
    eapply ends_impl; [apply IH|]. intros o v [-> ->]. split; [done|]. rewrite Hw2, Hs2, Hw1, !put_put. f_equal.
    cbn [echo_out fmap list_fmap concat]. by rewrite <- !app_assoc.
Qed.



(** ls prints for each of its arguments (for "." without arguments) what [shows]
    says, in order, and exits with status 0: the line of a file or device; for a
    directory the line of each entry in use, or a message if it cannot be opened;
    a message on descriptor 2 for a path that does not exist.  echo prints its
    arguments separated by blanks, with a line end unless there are none. *)
Theorem ls_echo_correct arg0 args xs w : let args' := if decide (args = []) then [chars "."] else args in
  Forall2 shows args' xs -> Forall (fun arg => 0 ∉ arg /\ Forall is_byte arg) args -> (size (v_fds (seen w)) < 12)%nat ->
  ends (Ls.main (arg0 :: args)) w (fun o v => o = Exited 0 /\ v = puts_all xs (seen w)) /\
  ends (Echo.main (arg0 :: args)) w (fun o v => o = Exited 0 /\ v = put 1 (echo_out args) (seen w)).
Proof.
  intros args' Hxs Hargs Hsize. split; [|apply ends_echo]. destruct args as [|arg args]; [|by apply ends_ls_args].
  cbn in args'. inversion Hxs as [|? x ? ? Hx Hnil]; subst. inversion Hnil; subst. cbn. apply ends_bind.
  eapply returns_impl; [apply (returns_ls (chars ".") x); [done|by vm_compute; set_solver|by repeat constructor|done]|].
  intros _ v -> w1 Hw1. apply ends_exit. by rewrite Hw1.
Qed.
End ls.

(** ** A kernel for the user programs

    A kernel that keeps the promises of [Files]: the files are a map from paths,
    a read of standard input returns at most [ready] bytes, [open] uses the lowest
    free descriptor from 3 on.  The programs run on it. *)

Section demo.
Context (fs : gmap bytes node) (ready : nat) (ready_pos : (1 <= ready)%nat).

Definition demo_fds : list Z := seqZ 3 13.
Definition demo_free (v : view) : option Z := head (filter (fun fd => v_fds v !! fd = None) demo_fds).

Definition demo_answer (c : call) (v : view) : view * reply :=
  match c with
  | Read fd n =>
      match v_fds v !! fd with
      | Some (nd, l) =>
          let k := if fd =? 0 then Nat.min ready (Z.to_nat n) else Z.to_nat n in
          (set_fds (<[fd := (nd, drop k l)]> (v_fds v)) v, mkReply (Z.of_nat (length (take k l))) (take k l))
      | None => (v, mkReply (-1) [])
      end
  | Write fd bs => (put fd bs v, mkReply (Z.of_nat (length bs)) [])
  | Open path _ =>
      match fs !! path, demo_free v with
      | Some nd, Some fd => (set_fds (<[fd := (nd, n_data nd)]> (v_fds v)) v, mkReply fd [])
      | _, _ => (v, mkReply (-1) [])
      end
  | Close fd => (set_fds (delete fd (v_fds v)) v, mkReply 0 [])
  | Fstat fd =>
      match v_fds v !! fd with
      | Some (nd, _) => (v, mkReply 0 (node_stat nd))
      | None => (v, mkReply (-1) [])
      end
  | _ => (v, mkReply (-1) [])
  end.
Instance demo_kernel : Kernel view := demo_answer.

Lemma demo_free_some v : (size (v_fds v) < 13)%nat -> exists fd, demo_free v = Some fd.
Proof.
  intros Hs. unfold demo_free. destruct (filter _ _) as [|fd l] eqn:E; [|by exists fd]. exfalso.
  assert (list_to_set (C:=gset Z) demo_fds ⊆ dom (v_fds v)) as Hsub.
  { intros fd Hfd%elem_of_list_to_set. apply elem_of_dom. destruct (v_fds v !! fd) eqn:Hn; [done|].
    assert (fd ∈ filter (fun fd => v_fds v !! fd = None) demo_fds) as Hin by (by apply list_elem_of_filter).
    rewrite E in Hin. by apply not_elem_of_nil in Hin. }
  apply subseteq_size in Hsub. rewrite size_dom in Hsub. vm_compute (size (list_to_set demo_fds)) in Hsub. lia.
Qed.
Lemma demo_free_spec v fd : demo_free v = Some fd -> 2 < fd /\ v_fds v !! fd = None.
Proof.
  unfold demo_free. destruct (filter _ _) as [|x l] eqn:E; [done|]. intros [= ->].
  assert (fd ∈ filter (fun fd => v_fds v !! fd = None) demo_fds) as [? Hin]%list_elem_of_filter by (rewrite E; by left).
  apply elem_of_seqZ in Hin. split; [lia|done].
Qed.

Program Definition demo_files : Files view := {| file := fun p => fs !! p; seen := fun v => v |}.
Next Obligation.
  intros v fd n nd l Hfd Hn. unfold answer, demo_kernel, demo_answer. rewrite Hfd.
  set (k := if fd =? 0 then Nat.min ready (Z.to_nat n) else Z.to_nat n).
  exists (take k l), (drop k l). rewrite take_drop. split_and!; try done.
  - rewrite length_take. unfold k. destruct (fd =? 0); lia.
  - intros Ht. destruct l as [|c l]; [by left|right]. unfold k in Ht. destruct (fd =? 0), (Z.to_nat n) eqn:E; try lia; try done.
    destruct ready; [lia|done].
  - intros H0. unfold k. by destruct (Z.eqb_spec fd 0).
Qed.
Next Obligation. done. Qed.
Next Obligation.
  intros v path nd Hs Hf. destruct (demo_free_some v Hs) as [fd E]. destruct (demo_free_spec v fd E) as [Hpos Hn].
  exists fd. unfold answer, demo_kernel, demo_answer. by rewrite Hf, E.
Qed.
Next Obligation. intros v path Hf. unfold answer, demo_kernel, demo_answer. by rewrite Hf. Qed.
Next Obligation. done. Qed.
Next Obligation. intros v fd nd l Hfd. unfold answer, demo_kernel, demo_answer. by rewrite Hfd. Qed.
End demo.

(** *** An example *)

Definition demo_file (s : string) : node := mkNode T_FILE 7 1 (line s).
Definition demo_fs : gmap bytes node := <[chars "a" := demo_file "ab cd"]> (<[chars "b" := demo_file "x"]> ∅).
Definition demo_view : view := mkView {[ 0 := (mkNode 3 1 1 [], line "hello") ]} [] [].
#[local] Instance the_kernel : Kernel view := demo_kernel demo_fs 2.
#[local] Instance the_files : Files view := demo_files demo_fs 2 ltac:(lia).

(** "cat a b c", "wc a b c" and "grep b a b c", where c does not exist. *)
Lemma filters_correct_witness :
  ends (Cat.main (chars <$> ["cat"; "a"; "b"; "c"]%string)) demo_view (fun o v =>
    o = Exited 1 /\ v_out v = line "ab cd" ++ line "x" /\ v_err v = line "cat: cannot open c") /\
  ends (Wc.main (chars <$> ["wc"; "a"; "b"; "c"]%string)) demo_view (fun o v =>
    o = Exited 1 /\ v_out v = line "1 2 6 a" ++ line "1 1 2 b" ++ line "wc: cannot open c" /\ v_err v = []) /\
  ends (GrepCmd.main (chars <$> ["grep"; "b"; "a"; "b"; "c"]%string)) demo_view (fun o v =>
    o = Exited 1 /\ v_out v = line "ab cd" ++ line "grep: cannot open c" /\ v_err v = []).
Proof.
  destruct (filters_correct (chars "cat") (chars "b") (chars <$> ["a"; "b"; "c"]%string) demo_view (mkNode 3 1 1 []) (line "hello"))
    as (Hcat & Hmore).
  - by repeat constructor.
  - vm_compute. lia.
  - reflexivity.
  - destruct Hmore as (Hwc & Hgrep).
    + by split; [vm_compute; set_solver|].
    + intros arg nd Harg Hf. cbn in Harg. rewrite !elem_of_cons in Harg.
      destruct Harg as [->|[->|[->|[]%not_elem_of_nil]]]; vm_compute in Hf; try done; injection Hf as <-; split;
        (by vm_compute; set_solver) || done.
    + split_and!; eapply ends_impl; [exact Hcat| |exact Hwc| |exact Hgrep|]; by intros o v (-> & -> & ->).
Defined.

(** A directory "d" with the files "a" and "gone", of which the second does not
    exist, and a free entry: "ls d". *)
Definition demo_dir : node :=
  mkNode T_DIR 3 1 (concat (entry_bytes <$> [(7, chars "a"); (0, chars "old"); (9, chars "gone")])).
Definition demo_fs2 : gmap bytes node := <[chars "d" := demo_dir]> {[ chars "d/a" := demo_file "ab cd" ]}.

Lemma ls_runs :
  let x := run (H := demo_kernel demo_fs2 2) 100 (Ls.main (chars <$> ["ls"; "d"]%string)) demo_view in
  x.2 = Exited 0 /\ v_out x.1 = line "a              2 7 6" ++ line "ls: cannot stat d/gone".
Proof. vm_compute. done. Qed.
