(* ===== verification/InitProps.v ===== *)
(** * init, mkdir and rm ([user/init.c], [user/mkdir.c], [user/rm.c])

    The programs run against a kernel that answers each call in any way, depending
    on everything that happened before.  init never ends, so it is run for any
    number of steps. *)
From ITree Require Import Core.ITreeDefinition.
From S2P Require Import Prelude Params CString Printf Ulib Usys User.

(** The calls of the process so far, with their answers. *)
Abbreviation trace := (list (call * reply)).

#[export] Instance call_eq_dec : EqDecision call.
Proof. solve_decision. Defined.

(** The children it has forked and not waited for. *)
Definition child_step (l : list Z) (e : call * reply) : list Z :=
  match e with
  | (Fork, r) => if 0 <? r_val r then r_val r :: l else l
  | (Wait, r) => filter (fun pid => pid <> r_val r) l
  | _ => l
  end.
Definition children (h : trace) : list Z := foldl child_step [] h.

(** What makes init give up: a fork or a wait that failed; in the child, an exec
    that came back. *)
Definition gave_up (e : call * reply) : Prop :=
  match e with
  | (Fork, r) | (Wait, r) => r_val r < 0
  | (Exec _ _, _) => True
  | _ => False
  end.
Definition supervised (h : trace) : Prop := (length (children h) <= 1)%nat.
Definition failed (st : Z) (h : trace) : Prop := st = 1 /\ Exists gave_up h.

Lemma children_snoc h e : children (h ++ [e]) = child_step (children h) e.
Proof. unfold children. by rewrite foldl_app. Qed.

Section init.
Context (oracle : trace -> call -> reply).

#[local] Instance any_kernel : Kernel trace := fun c h => let r := oracle h c in (h ++ [(c, r)], r).

(** A call that is neither fork nor wait. *)
Definition harmless (c : call) : Prop := forall l r, child_step l (c, r) = l.
Lemma holds_harmless c h : harmless c -> supervised h ->
  holds supervised failed (sys c) h (fun _ h' => children h' = children h /\ h `prefix_of` h').
Proof.
  intros Hc Hh. assert (children (answer c h).1 = children h) as E by (cbn; by rewrite children_snoc, Hc).
  apply holds_sys; [done|unfold supervised; by rewrite E|]. split; [done|]. by apply prefix_app_r.
Qed.

Lemma holds_puts fd cs h : supervised h ->
  holds supervised failed (puts fd cs) h (fun _ h' => children h' = children h /\ h `prefix_of` h').
Proof.
  revert h. induction cs as [|c cs IH]; intros h Hh; cbn [puts]; [by apply holds_pure|].
  eapply holds_bind; [by apply holds_harmless|]. intros r h1 Hh1 [E1 P1].
  eapply holds_impl; [by apply IH|]. intros _ h2 Hh2 [E2 P2]. split; [congruence|by trans h1].
Qed.
Lemma holds_message fd msg cs h : UPrintf.vprintf (line msg) [] = Some cs -> supervised h ->
  holds supervised failed (fprintf fd (line msg) []) h (fun _ h' => children h' = children h /\ h `prefix_of` h').
Proof. intros E Hh. unfold fprintf. rewrite E. by apply holds_puts. Qed.

(** A message, and the end. *)
Lemma holds_die {R} fd msg cs h Q : UPrintf.vprintf (line msg) [] = Some cs -> supervised h -> Exists gave_up h ->
  holds supervised failed (ITree.bind (fprintf fd (line msg) []) (fun _ => exit (R:=R) 1)) h Q.
Proof.
  intros E Hh Hg. eapply holds_bind; [by eapply holds_message|]. intros _ h1 Hh1 [_ [l ->]]. apply holds_exit; [done|].
  split; [done|]. apply Exists_app. by left.
Qed.

Lemma holds_wait_for pid h : children h = [pid] ->
  holds supervised failed (Init.wait_for pid) h (fun _ h' => children h' = []).
Proof.
  intros Hh. apply (holds_iter _ _ _ (fun _ h => children h = [pid])); [done|]. clear h Hh. intros _ h Hh.
  assert (children (answer Wait h).1 = if decide (pid <> r_val (oracle h Wait)) then [pid] else []) as E.
  { cbn. rewrite children_snoc, Hh. cbn [child_step]. by rewrite filter_cons. }
  eapply (holds_bind _ _ _ _ _ (fun r h' => r = oracle h Wait /\ h' = (answer Wait h).1)).
  { apply holds_sys; [| |done]; unfold supervised; [rewrite Hh; cbn; lia|]. rewrite E. destruct (decide _); cbn; lia. }
  intros r h' Hh' [-> ->]. cbv zeta. destruct (Z.eqb_spec (r_val (oracle h Wait)) pid) as [Heq|Hne].
  - apply holds_pure; [done|]. rewrite E, decide_False by congruence. done.
  - destruct (Z.ltb_spec (r_val (oracle h Wait)) 0) as [Hneg|_].
    + eapply holds_die; [done|done|]. apply Exists_app. right. by constructor.
    + apply holds_pure; [done|]. rewrite E, decide_True by congruence. done.
Qed.

Lemma holds_round h : children h = [] -> holds supervised failed Init.round h (fun _ h' => children h' = []).
Proof.
  intros Hh. unfold Init.round. eapply holds_bind; [eapply holds_message; [done|unfold supervised; rewrite Hh; cbn; lia]|].
  intros _ h1 Hh1 [E1 _]. rewrite Hh in E1.
  assert (children (answer Fork h1).1 = if 0 <? r_val (oracle h1 Fork) then [r_val (oracle h1 Fork)] else []) as E.
  { cbn. rewrite children_snoc, E1. done. }
  eapply (holds_bind _ _ _ _ _ (fun r h' => r = oracle h1 Fork /\ h' = (answer Fork h1).1)).
  { apply holds_sys; [done| |done]. unfold supervised. rewrite E. destruct (0 <? _); cbn; lia. }
  intros r h' Hh' [-> ->]. cbv zeta. destruct (Z.ltb_spec (r_val (oracle h1 Fork)) 0) as [Hneg|Hpos].
  { eapply holds_die; [done|done|]. apply Exists_app. right. by constructor. }
  destruct (Z.eqb_spec (r_val (oracle h1 Fork)) 0) as [Hz|Hnz].
  - eapply (holds_bind _ _ _ _ _ (fun r h' => Exists gave_up h')).
    + apply holds_sys; [done| |apply Exists_app; right; by constructor].
      unfold supervised in *. cbn. rewrite children_snoc. done.
    + intros r h2 Hh2 Hg. by eapply holds_die.
  - apply holds_wait_for. rewrite E. destruct (Z.ltb_spec 0 (r_val (oracle h1 Fork))); [done|lia].
Qed.

Lemma holds_setup : holds supervised failed Init.setup [] (fun _ h' => children h' = []).
Proof.
  unfold Init.setup.
  eapply holds_bind; [by apply holds_harmless; [|unfold supervised; cbn; lia]|]. intros r h1 Hh1 [E1 _]. cbn in E1.
  eapply (holds_bind _ _ _ _ _ (fun _ h' => children h' = [])).
  { destruct (r_val r <? 0); [|by apply holds_pure].
    eapply holds_bind; [by apply holds_harmless|]. intros _ h2 Hh2 [E2 _].
    eapply holds_bind; [by apply holds_harmless|]. intros _ h3 Hh3 [E3 _]. apply holds_pure; [done|congruence]. }
  intros _ h2 Hh2 E2. eapply holds_bind; [by apply holds_harmless|]. intros _ h3 Hh3 [E3 _].
  eapply holds_bind; [by apply holds_harmless|]. intros _ h4 Hh4 [E4 _]. apply holds_pure; [done|congruence].
Qed.

Lemma init_holds : holds supervised failed Init.main [] (fun _ _ => False).
Proof.
  eapply holds_bind; [apply holds_setup|]. intros r h Hh Eh.
  apply (holds_iter _ _ _ (fun _ h => supervised h /\ children h = [])); [done|]. clear h Hh Eh.
  intros _ h [Hh Eh]. eapply holds_bind; [by apply holds_round|]. intros r' h' Hh' E'. by apply holds_pure.
Qed.

(** ** init goes on *)

(** From h on, waits return other children until one returns pid. *)
Inductive reaps (pid : Z) (h : trace) : Prop :=
  | reap_now : r_val (oracle h Wait) = pid -> reaps pid h
  | reap_later : r_val (oracle h Wait) <> pid -> 0 <= r_val (oracle h Wait) ->
      reaps pid (h ++ [(Wait, oracle h Wait)]) -> reaps pid h.

Lemma evals_wait_for pid h : reaps pid h -> exists h', evals (Init.wait_for pid) h h' (Returned tt) /\ h `prefix_of` h'.
Proof.
  induction 1 as [h Hr|h Hne Hpos _ (h' & IH & Hp)].
  - eexists. split; [apply evals_stop; eapply evals_bind; [apply evals_sys|]; cbn; rewrite Hr, Z.eqb_refl; apply evals_pure|].
    by apply prefix_app_r.
  - exists h'. split; [|by eapply prefix_app_l]. eapply evals_again; [|exact IH]. eapply evals_bind; [apply evals_sys|]. cbn.
    destruct (Z.eqb_spec (r_val (oracle h Wait)) pid); [done|]. destruct (Z.ltb_spec (r_val (oracle h Wait)) 0); [lia|].
    apply evals_pure.
Qed.

Lemma evals_puts fd cs h : exists h', evals (puts fd cs) h h' (Returned tt) /\ h `prefix_of` h'.
Proof.
  revert h. induction cs as [|c cs IH]; intros h; cbn [puts]; [exists h; split; [apply evals_pure|done]|].
  destruct (IH (answer (Write fd [c]) h).1) as (h' & E & Hp). exists h'. split; [|by eapply prefix_app_l; exact Hp].
  eapply evals_bind; [apply evals_sys|exact E].
Qed.

(** The shells started: the forks of the process. *)
Definition starts (h : trace) : nat := length (filter (fun e : call * reply => e.1 = Fork) h).
Lemma starts_prefix h h' : h `prefix_of` h' -> (starts h <= starts h')%nat.
Proof. intros [l ->]. unfold starts. rewrite filter_app, length_app. lia. Qed.

(** Every fork succeeds, and its child is waited for in the end. *)
Definition keeps_going : Prop :=
  forall h, let r := oracle h Fork in 0 < r_val r /\ reaps (r_val r) (h ++ [(Fork, r)]).

Lemma evals_round h : keeps_going -> exists h', evals Init.round h h' (Returned tt) /\ (starts h < starts h')%nat.
Proof.
  intros Hk. unfold Init.round. destruct (evals_puts 1 (line "init: starting sh") h) as (h1 & E1 & P1).
  destruct (Hk h1) as [Hpos Hr]. destruct (evals_wait_for _ _ Hr) as (h2 & E2 & P2). exists h2. split.
  - eapply evals_bind; [exact E1|]. eapply evals_bind; [apply evals_sys|]. cbn.
    destruct (Z.ltb_spec (r_val (oracle h1 Fork)) 0); [lia|]. destruct (Z.eqb_spec (r_val (oracle h1 Fork)) 0); [lia|]. exact E2.
  - apply starts_prefix in P1, P2. unfold starts at 1 in P2. rewrite filter_app, filter_cons_True, length_app in P2 by done.
    cbn in P2. unfold starts in *. lia.
Qed.

(** The loop comes back to its head after a round. *)
Lemma run_round h : keeps_going -> exists n h', (starts h < starts h')%nat /\
  forall m, run (n + m) Init.loop h = run m Init.loop h'.
Proof.
  intros Hk. destruct (evals_round h Hk) as (h' & E & Hs).
  assert (evals (ITree.bind Init.round (fun _ => pure (inl (B:=Empty_set) tt))) h h' (Returned (inl tt))) as Eb.
  { eapply evals_bind; [exact E|apply evals_pure]. }
  destruct (run_evals_bind _ (fun lr => match lr with
    | inl j => go (TauF (ITree.iter (fun _ : unit => ITree.bind Init.round (fun _ => pure (inl tt))) j))
    | inr r => pure r end) _ _ _ Eb) as [n Hn].
  exists (S n), h'. split; [done|]. intros m. specialize (Hn (S m)). cbn in Hn. unfold Init.loop. rewrite <- Hn.
  replace (S n + m)%nat with (n + S m)%nat by lia. destruct (n + S m)%nat; done.
Qed.

Lemma run_rounds n h : keeps_going -> exists fuel,
  let x := run fuel Init.loop h in x.2 = Running /\ (n + starts h <= starts x.1)%nat.
Proof.
  intros Hk. revert h. induction n as [|n IH]; intros h; [by exists 0%nat|].
  destruct (run_round h Hk) as (k & h' & Hs & Hrun). destruct (IH h') as (fuel & Hr & Hn).
  exists (k + fuel)%nat. rewrite Hrun. split; [done|lia].
Qed.

Lemma evals_setup : exists h, evals Init.setup [] h (Returned tt).
Proof.
  unfold Init.setup. eexists. eapply evals_bind; [apply evals_sys|].
  eapply (evals_bind _ _ _ (if r_val (oracle [] (Open (chars "console") O_RDWR)) <? 0 then _ else _) tt).
  - cbn. destruct (_ <? 0); [|apply evals_pure].
    eapply evals_bind; [apply evals_sys|]. eapply evals_bind; [apply evals_sys|]. apply evals_pure.
  - eapply evals_bind; [apply evals_sys|]. eapply evals_bind; [apply evals_sys|]. apply evals_pure.
Qed.

End init.

(** ** mkdir and rm *)

Definition is_write (e : call * reply) : Prop := match e with (Write _ _, _) => True | _ => False end.
#[export] Instance is_write_dec e : Decision (is_write e).
Proof. destruct e as [[] r]; cbn; apply _. Defined.
(** The calls of a program, without its output. *)
Definition calls (h : trace) : trace := filter (fun e => ~ is_write e) h.

(** The calls that are made for the arguments: one for each in order, up to the
    first that fails. *)
Inductive attempts (c : bytes -> call) : list bytes -> trace -> Prop :=
  | att_none : attempts c [] []
  | att_fail arg args r : r_val r < 0 -> attempts c (arg :: args) [(c arg, r)]
  | att_next arg args r l : 0 <= r_val r -> attempts c args l -> attempts c (arg :: args) ((c arg, r) :: l).

Section commands.
Context (oracle : trace -> call -> reply).
#[local] Existing Instance any_kernel.

Lemma puts_calls fd cs h : exists h', evals (H := any_kernel oracle) (puts fd cs) h h' (Returned tt) /\ calls h' = calls h.
Proof.
  revert h. induction cs as [|c cs IH]; intros h; cbn [puts]; [exists h; split; [apply evals_pure|done]|].
  destruct (IH (h ++ [(Write fd [c], oracle h (Write fd [c]))])) as (h' & E & Hc). exists h'. split.
  - eapply evals_bind; [apply evals_sys|exact E].
  - rewrite Hc. unfold calls. rewrite filter_app, filter_cons_False, app_nil_r by naive_solver. done.
Qed.

Lemma until_failure_spec c msg args h : (forall arg r, ~ is_write (c arg, r)) ->
  (forall arg, arg ∈ args -> exists cs, UPrintf.vprintf msg [P (Some arg)] = Some cs) ->
  exists h' l, evals (H := any_kernel oracle) (until_failure c msg args) h h' (Exited 0) /\ attempts c args l /\
    calls h' = calls h ++ l.
Proof.
  intros Hc. revert h. induction args as [|arg args IH]; intros h Hm; cbn [until_failure].
  { exists h, []. rewrite app_nil_r. split_and!; [apply evals_exit|constructor|done]. }
  set (r := oracle h (c arg)). set (h1 := h ++ [(c arg, r)]).
  assert (calls h1 = calls h ++ [(c arg, r)]) as H1.
  { unfold calls, h1. rewrite filter_app, filter_cons_True by apply Hc. done. }
  destruct (Z.ltb_spec (r_val r) 0) as [Hr|Hr].
  - destruct (Hm arg) as [cs Hcs]; [by left|]. destruct (puts_calls 2 cs h1) as (h2 & E2 & H2).
    exists h2, [(c arg, r)]. split_and!; [|by constructor|congruence].
    eapply evals_bind; [apply evals_sys|]. change (r_val (answer (Kernel := any_kernel oracle) (c arg) h).2) with (r_val r).
    destruct (Z.ltb_spec (r_val r) 0); [|lia]. eapply evals_bind; [unfold fprintf; rewrite Hcs; exact E2|apply evals_exit].
  - destruct (IH h1) as (h' & l & E & Ha & Hl); [set_solver|]. exists h', ((c arg, r) :: l).
    split_and!; [|by constructor|by rewrite Hl, H1, <- app_assoc].
    eapply evals_bind; [apply evals_sys|]. change (r_val (answer (Kernel := any_kernel oracle) (c arg) h).2) with (r_val r).
    destruct (Z.ltb_spec (r_val r) 0); [lia|]. exact E.
Qed.

(** mkdir and rm make their call for each argument in order, up to the first that
    fails, and exit with status 0 then too. *)
Theorem mkdir_rm_correct arg0 args : args <> [] ->
  (exists h, evals (H := any_kernel oracle) (MkdirCmd.main (arg0 :: args)) [] h (Exited 0) /\ attempts Mkdir args (calls h)) /\
  (exists h, evals (H := any_kernel oracle) (Rm.main (arg0 :: args)) [] h (Exited 0) /\ attempts Unlink args (calls h)).
Proof.
  intros Ha. assert ((length (arg0 :: args) <? 2)%nat = false) as Hlen by (by destruct args).
  split; [unfold MkdirCmd.main|unfold Rm.main]; rewrite Hlen; cbn [drop].
  - destruct (until_failure_spec Mkdir (line "mkdir: %s failed to create") args []) as (h & l & E & Hl & Hc);
      [by intros ? ? []|by eexists|]. exists h. by rewrite Hc.
  - destruct (until_failure_spec Unlink (line "rm: %s failed to delete") args []) as (h & l & E & Hl & Hc);
      [by intros ? ? []|by eexists|]. exists h. by rewrite Hc.
Qed.
End commands.

(** A kernel where an orphan is waited for before each shell. *)
Definition demo_oracle (h : trace) (c : call) : reply :=
  match c with
  | Fork => mkReply 5 []
  | Wait => match last h with Some (Fork, _) => mkReply 9 [] | _ => mkReply 5 [] end
  | _ => mkReply 0 []
  end.

