(* ===== verification/Tests.v ===== *)
(** * The test programs ([user/forktest.c], [stressfs.c], [logstress.c], [forphan.c], [dorphan.c])

    Trees of system calls, like the programs of [User]. *)
From ITree Require Import Core.ITreeDefinition.
From S2P Require Import Prelude Params CString Printf Ulib Usys User.
#[local] Open Scope user_scope.

Definition O_WRONLY : Z := 0x001.
Definition O_CREATE : Z := 0x200.

(** n calls of the same kind, whose results nobody looks at. *)
Fixpoint repeat_call (n : nat) (c : call) : proc unit :=
  match n with
  | O => pure tt
  | S n => sys c ;;; repeat_call n c
  end.

(** [for(;;) pause(1000)] *)
Definition wait_for_kill : proc Z := ITree.iter (fun _ : unit => sys (Pause 1000) ;;; pure (inl tt)) tt.

(** A message and the end of the program. *)
Definition complain {R} (fmt : bytes) (args : list varg) : proc R :=
  printf fmt args ;;;
  exit 1.

Module ForkTest.
Definition N : nat := 1000.

Definition print (s : bytes) : proc unit := sys (Write 1 s) ;;; pure tt.

(** Forks until one fails; the number of children. *)
Fixpoint fork_loop (more n : nat) : proc nat :=
  match more with
  | O => pure n
  | S more =>
      let! r := sys Fork in
      let pid := r_val r in
      if pid <? 0 then pure n
      else if pid =? 0 then exit 0
      else fork_loop more (S n)
  end.

Fixpoint wait_loop (n : nat) : proc unit :=
  match n with
  | O => pure tt
  | S n =>
      let! r := sys Wait in
      if r_val r <? 0 then
        print (line "wait stopped early") ;;;
        exit 1
      else wait_loop n
  end.

Definition forktest : proc unit :=
  print (line "fork test") ;;;
  let! n := fork_loop N 0 in
  if (n =? N)%nat then
    print (line "fork claimed to work N times!") ;;;
    exit 1
  else
    wait_loop n ;;;
    let! r := sys Wait in
    if negb (r_val r =? -1) then
      print (line "wait got too many") ;;;
      exit 1
    else print (line "fork test OK").

Definition main : proc Z :=
  forktest ;;;
  exit 0.
End ForkTest.

Module StressFs.
(** [for(i = 0; i < 4; i++) if(fork() > 0) break;] *)
Fixpoint fork_some (more : nat) (i : Z) : proc Z :=
  match more with
  | O => pure i
  | S more =>
      let! r := sys Fork in
      if 0 <? r_val r then pure i else fork_some more (i + 1)
  end.

Definition data : bytes := replicate 512 97.

Definition main : proc Z :=
  let path := chars "stressfs0" in
  printf (line "stressfs starting") [] ;;;
  let! i := fork_some 4 0 in
  printf (line "write %d") [W i] ;;;
  let path := alter (fun c => u8 (c + i)) 8%nat path in
  let! r := sys (Open path (Z.lor O_CREATE O_RDWR)) in
  let fd := r_val r in
  repeat_call 20 (Write fd data) ;;;
  sys (Close fd) ;;;
  printf (line "read") [] ;;;
  let! r := sys (Open path O_RDONLY) in
  let fd := r_val r in
  repeat_call 20 (Read fd 512) ;;;
  sys (Close fd) ;;;
  sys Wait ;;;
  exit 0.
End StressFs.

Module LogStress.
Definition BUFSZ : nat := 500.
Definition N : nat := 250.
Definition SZ : Z := 2000.
Definition buf : bytes := replicate BUFSZ 0.

(** [memset] on a whole array: storing past its end is undefined. *)
Definition fill (buf : bytes) (c n : Z) : proc bytes :=
  if Z.of_nat (length buf) <? n then undef
  else pure (splice buf 0 (replicate (Z.to_nat n) (u8 c))).

(** [write] reads n bytes of the array. *)
Fixpoint write_loop (n : nat) (fd : Z) (buf : bytes) : proc Z :=
  match n with
  | O => exit 0
  | S n =>
      if Z.of_nat (length buf) <? SZ then undef
      else
        let! r := sys (Write fd (take (Z.to_nat SZ) buf)) in
        if negb (r_val r =? SZ) then complain (line "write failed %d") [W (r_val r)]
        else write_loop n fd buf
  end.

(** The child that writes the file arg, the i-th argument. *)
Definition child (argv0 arg : bytes) (i : Z) : proc Z :=
  let! r := sys (Open arg (Z.lor O_CREATE O_RDWR)) in
  let fd := r_val r in
  if fd <? 0 then complain (line "%s: create %s failed") [P (Some argv0); P (Some arg)]
  else
    let! buf := fill buf (48 + i) SZ in
    write_loop N fd buf.

Fixpoint fork_args (argv0 : bytes) (args : list bytes) (i : Z) : proc unit :=
  match args with
  | [] => pure tt
  | arg :: args =>
      let! r := sys Fork in
      let pid1 := r_val r in
      if pid1 <? 0 then complain (line "%s: fork failed") [P (Some argv0)]
      else if pid1 =? 0 then let! _ := child argv0 arg i in pure tt
      else fork_args argv0 args (i + 1)
  end.

(** xstatus is None until a wait stores it; reading it then is undefined. *)
Fixpoint wait_args (args : list bytes) (xstatus : option Z) : proc Z :=
  match args with
  | [] => pure 0
  | _ :: args =>
      let! r := sys Wait in
      let xstatus := if bool_decide (r_mem r = []) then xstatus else Some (get_i32 (r_mem r) 0) in
      match xstatus with
      | None => undef
      | Some st => if negb (st =? 0) then exit st else wait_args args xstatus
      end
  end.

Definition main (argv : list bytes) : proc Z :=
  fork_args (default [] (head argv)) (drop 1 argv) 1 ;;;
  wait_args (drop 1 argv) None.
End LogStress.

Module Forphan.
Definition main (argv : list bytes) : proc Z :=
  let s := default [] (head argv) in
  let ff := chars "file0" in
  let! r := sys (Open ff (Z.lor O_CREATE O_WRONLY)) in
  let fd := r_val r in
  if fd <? 0 then complain (line "%s: open failed") [P (Some s)]
  else
    let! st := sys (Fstat fd) in
    if r_val st <? 0 then
      fprintf 2 (line "%s: cannot stat %s") [P (Some s); P (Some (chars "ff"))] ;;;
      exit 1
    else
      let! r := sys (Unlink ff) in
      if r_val r <? 0 then complain (line "%s: unlink failed") [P (Some s)]
      else
        let! r := sys (Open ff O_RDONLY) in
        if negb (r_val r =? -1) then complain (line "%s: open successed") [P (Some s)]
        else
          printf (line "wait for kill and reclaim %d") [W (Ls.st_ino (r_mem st))] ;;;
          wait_for_kill.
End Forphan.

Module Dorphan.
Definition main (argv : list bytes) : proc Z :=
  let s := default [] (head argv) in
  let! r := sys (Mkdir (chars "dd")) in
  if negb (r_val r =? 0) then complain (line "%s: mkdir dd failed") [P (Some s)]
  else
    let! r := sys (Chdir (chars "dd")) in
    if negb (r_val r =? 0) then complain (line "%s: chdir dd failed") [P (Some s)]
    else
      let! r := sys (Unlink (chars "../dd")) in
      if r_val r <? 0 then complain (line "%s: unlink failed") [P (Some s)]
      else
        printf (line "wait for kill and reclaim") [] ;;;
        wait_for_kill.
End Dorphan.
