(* ===== verification/Grind.v ===== *)
(** * The random tester ([user/grind.c])

    [do_rand] is the generator; [act] is one round of the loop of [go], with its
    local variables, the static buffer and the generator's state passed on. *)
From ITree Require Import Core.ITreeDefinition.
From S2P Require Import Prelude Params CString Printf Ulib Usys User Tests.
#[local] Open Scope user_scope.

(** The new context; it is also the result, as an int.  / and % of C truncate. *)
Definition do_rand (ctx : Z) : Z :=
  let x := ctx `mod` 0x7ffffffe + 1 in
  let hi := Z.quot x 127773 in
  let lo := Z.rem x 127773 in
  let x := 16807 * lo - 2836 * hi in
  let x := if x <? 0 then x + 0x7fffffff else x in
  x - 1.

Module GrindCmd.
(** The locals of [go] and rand_next. *)
Record gst : Type := mkGst { g_fd : Z; g_buf : bytes; g_iters : Z; g_rand : Z }.
Definition set_gfd (fd : Z) (g : gst) : gst := mkGst fd (g_buf g) (g_iters g) (g_rand g).
Definition set_gbuf (buf : bytes) (g : gst) : gst := mkGst (g_fd g) buf (g_iters g) (g_rand g).

Definition rand (g : gst) : Z * gst :=
  let x := do_rand (g_rand g) in
  (i32 x, mkGst (g_fd g) (g_buf g) (g_iters g) (u64 x)).

Definition CREATE : Z := Z.lor O_CREATE O_RDWR.

(** [close(open(path, O_CREATE|O_RDWR))] *)
Definition touch (path : bytes) : proc unit :=
  let! r := sys (Open path CREATE) in
  let! _ := sys (Close (r_val r)) in
  pure tt.

Definition call_only (c : call) : proc unit := let! _ := sys c in pure tt.

(** A child that runs [body] and exits, waited for. *)
Definition in_child (body : proc unit) (parent : Z -> proc unit) : proc unit :=
  let! r := sys Fork in
  let pid := r_val r in
  if pid =? 0 then
    body ;;;
    exit 0
  else if pid <? 0 then complain (line "grind: fork failed") []
  else
    parent pid ;;;
    call_only Wait.
Definition no_more (pid : Z) : proc unit := pure tt.

(** [fd] of a pipe, as stored by the call. *)
Definition pipe_fd (r : reply) (i : Z) : Z := get_i32 (r_mem r) (4 * i).

(** A message on descriptor 2 and the end. *)
Definition fail2 {R} (msg : bytes) (st : Z) : proc R :=
  fprintf 2 msg [] ;;;
  exit st.

(** Case 16: back to the first break. *)
Definition shrink (break0 : Z) : proc unit :=
  let! r := sbrk 0 in
  if break0 <? u64 (r_val r) then
    let! r := sbrk 0 in
    let! _ := sbrk (i32 (- (u64 (r_val r) - break0))) in
    pure tt
  else pure tt.

(** Case 19: a pipe between relatives. *)
Definition pipe_family : proc unit :=
  let! fds := sys Pipe in
  if r_val fds <? 0 then complain (line "grind: pipe failed") []
  else
    in_child
      (sys Fork ;;;
       sys Fork ;;;
       let! r := sys (Write (pipe_fd fds 1) [120]) in
       (if negb (r_val r =? 1) then printf (line "grind: pipe write failed") [] else pure tt) ;;;
       let! r := sys (Read (pipe_fd fds 0) 1) in
       if negb (r_val r =? 1) then printf (line "grind: pipe read failed") [] else pure tt)
      (fun _ =>
         sys (Close (pipe_fd fds 0)) ;;;
         call_only (Close (pipe_fd fds 1))).

(** Case 20: files in a directory that is gone. *)
Definition removed_dir : proc unit :=
  in_child
    (sys (Unlink (chars "a")) ;;;
     sys (Mkdir (chars "a")) ;;;
     sys (Chdir (chars "a")) ;;;
     sys (Unlink (chars "../a")) ;;;
     sys (Open (chars "x") CREATE) ;;;
     call_only (Unlink (chars "x")))
    no_more.

(** Case 21: a file can always be created, written and removed. *)
Definition create_c : proc unit :=
  sys (Unlink (chars "c")) ;;;
  let! r := sys (Open (chars "c") CREATE) in
  let fd1 := r_val r in
  if fd1 <? 0 then complain (line "grind: create c failed") []
  else
    let! r := sys (Write fd1 [120]) in
    if negb (r_val r =? 1) then complain (line "grind: write c failed") []
    else
      let! st := sys (Fstat fd1) in
      if negb (r_val st =? 0) then complain (line "grind: fstat failed") []
      else if negb (Ls.st_size (r_mem st) =? 1) then
        complain (line "grind: fstat reports wrong size %d") [W (i32 (Ls.st_size (r_mem st)))]
      else if 200 <? Ls.st_ino (r_mem st) then
        complain (line "grind: fstat reports crazy i-number %d") [W (Ls.st_ino (r_mem st))]
      else
        sys (Close fd1) ;;;
        call_only (Unlink (chars "c")).

(** Case 22: echo hi | cat, the first child. *)
Definition run_echo (aa bb : reply) : proc unit :=
  sys (Close (pipe_fd bb 0)) ;;;
  sys (Close (pipe_fd bb 1)) ;;;
  sys (Close (pipe_fd aa 0)) ;;;
  sys (Close 1) ;;;
  let! r := sys (Dup (pipe_fd aa 1)) in
  if negb (r_val r =? 1) then fail2 (line "grind: dup failed") 1
  else
    sys (Close (pipe_fd aa 1)) ;;;
    sys (Exec (chars "grindir/../echo") [chars "echo"; chars "hi"]) ;;;
    fail2 (line "grind: echo: not found") 2.

(** The second child. *)
Definition run_cat (aa bb : reply) : proc unit :=
  sys (Close (pipe_fd aa 1)) ;;;
  sys (Close (pipe_fd bb 0)) ;;;
  sys (Close 0) ;;;
  let! r := sys (Dup (pipe_fd aa 0)) in
  if negb (r_val r =? 0) then fail2 (line "grind: dup failed") 4
  else
    sys (Close (pipe_fd aa 0)) ;;;
    sys (Close 1) ;;;
    let! r := sys (Dup (pipe_fd bb 1)) in
    if negb (r_val r =? 1) then fail2 (line "grind: dup failed") 5
    else
      sys (Close (pipe_fd bb 1)) ;;;
      sys (Exec (chars "/cat") [chars "cat"]) ;;;
      fail2 (line "grind: cat: not found") 6.

(** The status [wait] stores; None when it stored none. *)
Definition status (r : reply) : option Z :=
  if bool_decide (r_mem r = []) then None else Some (get_i32 (r_mem r) 0).

(** What the parent reads from cat, and what the children left. *)
Definition check_pipeline (aa bb : reply) : proc unit :=
  sys (Close (pipe_fd aa 0)) ;;;
  sys (Close (pipe_fd aa 1)) ;;;
  sys (Close (pipe_fd bb 1)) ;;;
  let buf := [0; 0; 0; 0] in
  let! r := sys (Read (pipe_fd bb 0) 1) in
  let buf := splice buf 0 (r_mem r) in
  let! r := sys (Read (pipe_fd bb 0) 1) in
  let buf := splice buf 1 (r_mem r) in
  let! r := sys (Read (pipe_fd bb 0) 1) in
  let buf := splice buf 2 (r_mem r) in
  sys (Close (pipe_fd bb 0)) ;;;
  let! r1 := sys Wait in
  let! r2 := sys Wait in
  match status r1, status r2 with
  | Some st1, Some st2 =>
      if negb (st1 =? 0) || negb (st2 =? 0) || negb (Ulib.strcmp (cstring buf) (line "hi") =? 0) then
        complain (chars "grind: exec pipeline failed %d %d " ++ [34] ++ chars "%s" ++ [34; NEWLINE]) [W st1; W st2; P (Some (cstring buf))]
      else pure tt
  | _, _ => undef
  end.

Definition pipeline : proc unit :=
  let! aa := sys Pipe in
  if r_val aa <? 0 then fail2 (line "grind: pipe failed") 1
  else
    let! bb := sys Pipe in
    if r_val bb <? 0 then fail2 (line "grind: pipe failed") 1
    else
      let! r := sys Fork in
      let pid1 := r_val r in
      if pid1 =? 0 then run_echo aa bb
      else if pid1 <? 0 then fail2 (line "grind: fork failed") 3
      else
        let! r := sys Fork in
        let pid2 := r_val r in
        if pid2 =? 0 then run_cat aa bb
        else if pid2 <? 0 then fail2 (line "grind: fork failed") 7
        else check_pipeline aa bb.

(** The cases of the loop that keep no variable. *)
Definition act_files (what : Z) : proc unit :=
  if what =? 1 then touch (chars "grindir/../a")
  else if what =? 2 then touch (chars "grindir/../grindir/../b")
  else if what =? 3 then call_only (Unlink (chars "grindir/../a"))
  else if what =? 4 then
    let! r := sys (Chdir (chars "grindir")) in
    if negb (r_val r =? 0) then complain (line "grind: chdir grindir failed") []
    else
      sys (Unlink (chars "../b")) ;;;
      call_only (Chdir (chars "/"))
  else if what =? 9 then
    sys (Mkdir (chars "grindir/../a")) ;;;
    touch (chars "a/../a/./a") ;;;
    call_only (Unlink (chars "a/a"))
  else if what =? 10 then
    sys (Mkdir (chars "/../b")) ;;;
    touch (chars "grindir/../b/b") ;;;
    call_only (Unlink (chars "b/b"))
  else if what =? 11 then
    sys (Unlink (chars "b")) ;;;
    call_only (Link (chars "../grindir/./../a") (chars "../b"))
  else if what =? 12 then
    sys (Unlink (chars "../grindir/../a")) ;;;
    call_only (Link (chars ".././b") (chars "/grindir/../a"))
  else pure tt.

Definition act_processes (break0 what : Z) : proc unit :=
  if what =? 13 then in_child (pure tt) no_more
  else if what =? 14 then in_child (sys Fork ;;; call_only Fork) no_more
  else if what =? 15 then let! _ := sbrk 6011 in pure tt
  else if what =? 16 then shrink break0
  else if what =? 17 then
    in_child (touch (chars "a")) (fun pid =>
      let! r := sys (Chdir (chars "../grindir/..")) in
      if negb (r_val r =? 0) then complain (line "grind: chdir failed") []
      else call_only (Kill pid))
  else if what =? 18 then in_child (let! r := sys Getpid in call_only (Kill (r_val r))) no_more
  else if what =? 19 then pipe_family
  else if what =? 20 then removed_dir
  else if what =? 21 then create_c
  else if what =? 22 then pipeline
  else pure tt.

(** The cases on fd and buf. *)
Definition act (break0 what : Z) (g : gst) : proc gst :=
  if what =? 5 then
    sys (Close (g_fd g)) ;;;
    let! r := sys (Open (chars "/grindir/../a") CREATE) in
    pure (set_gfd (r_val r) g)
  else if what =? 6 then
    sys (Close (g_fd g)) ;;;
    let! r := sys (Open (chars "/./grindir/./../b") CREATE) in
    pure (set_gfd (r_val r) g)
  else if what =? 7 then
    sys (Write (g_fd g) (g_buf g)) ;;;
    pure g
  else if what =? 8 then
    let! r := sys (Read (g_fd g) (Z.of_nat (length (g_buf g)))) in
    pure (set_gbuf (splice (g_buf g) 0 (r_mem r)) g)
  else
    (if what <? 13 then act_files what else act_processes break0 what) ;;;
    pure g.

(** One round of the loop. *)
Definition round (which_child break0 : Z) (g : gst) : proc gst :=
  let iters := u64 (g_iters g + 1) in
  (if iters `mod` 500 =? 0 then call_only (Write 1 (if which_child =? 0 then [65] else [66])) else pure tt) ;;;
  let (r, g) := rand (mkGst (g_fd g) (g_buf g) iters (g_rand g)) in
  act break0 (Z.rem r 23) g.

Definition go (which_child rand_next : Z) : proc unit :=
  let! r := sbrk 0 in
  let break0 := u64 (r_val r) in
  sys (Mkdir (chars "grindir")) ;;;
  let! r := sys (Chdir (chars "grindir")) in
  if negb (r_val r =? 0) then complain (line "grind: chdir grindir failed") []
  else
    sys (Chdir (chars "/")) ;;;
    ITree.iter (fun g => let! g := round which_child break0 g in pure (inl g)) (mkGst (-1) (replicate 999 0) 0 rand_next).

(** The status variables start as -1 and keep that value when [wait] fails. *)
Definition iter (rand_next : Z) : proc unit :=
  sys (Unlink (chars "a")) ;;;
  sys (Unlink (chars "b")) ;;;
  let! r := sys Fork in
  let pid1 := r_val r in
  if pid1 <? 0 then complain (line "grind: fork failed") []
  else if pid1 =? 0 then
    go 0 (Z.lxor rand_next 31) ;;;
    exit 0
  else
    let! r := sys Fork in
    let pid2 := r_val r in
    if pid2 <? 0 then complain (line "grind: fork failed") []
    else if pid2 =? 0 then
      go 1 (Z.lxor rand_next 7177) ;;;
      exit 0
    else
      let! r := sys Wait in
      let st1 := default (-1) (status r) in
      (if negb (st1 =? 0) then sys (Kill pid1) ;;; call_only (Kill pid2) else pure tt) ;;;
      sys Wait ;;;
      exit 0.

Definition main : proc Z :=
  ITree.iter (fun rand_next =>
    let! r := sys Fork in
    let pid := r_val r in
    (if pid =? 0 then iter rand_next ;;; exit 0 else pure tt) ;;;
    (if 0 <? pid then call_only Wait else pure tt) ;;;
    sys (Pause 20) ;;;
    pure (inl (u64 (rand_next + 1)))) 1.
End GrindCmd.
