(* ===== verification/TestProps.v ===== *)
(** * Properties of the test programs

    [forktest] and [logstress] against a kernel that answers in any way, and the
    generator of [grind]. *)
From ITree Require Import Core.ITreeDefinition.
From S2P Require Import Prelude Params CString Printf Ulib Usys User InitProps Tests Grind.
#[local] Open Scope user_scope.

(** ** The generator *)

Definition RAND_M : Z := 0x7fffffff.

(** Schrage's method computes the product without leaving 31 bits. *)
Lemma schrage x : 0 < x < RAND_M ->
  let y := 16807 * Z.rem x 127773 - 2836 * Z.quot x 127773 in
  - RAND_M < y < RAND_M /\ (if y <? 0 then y + RAND_M else y) = (16807 * x) `mod` RAND_M /\ 0 < (16807 * x) `mod` RAND_M.
Proof.
  intros Hx y. unfold RAND_M in *. pose proof (Z.quot_rem' x 127773) as Hqr. pose proof (Z.rem_bound_pos x 127773 ltac:(lia) ltac:(lia)).
  pose proof (Z.div_mod (16807 * x) 0x7fffffff ltac:(lia)) as Hdm. pose proof (Z.mod_pos_bound (16807 * x) 0x7fffffff ltac:(lia)).
  unfold y. clear y. generalize dependent (Z.rem x 127773). generalize dependent (Z.quot x 127773). intros hi lo Hqr Hlo.
  generalize dependent ((16807 * x) `mod` 0x7fffffff). generalize dependent (16807 * x / 0x7fffffff). intros q r Hdm Hr.
  split; [lia|]. split; [|lia]. destruct (Z.ltb_spec (16807 * lo - 2836 * hi) 0); lia.
Qed.

(** The generator is the one of Park and Miller, on numbers one smaller. *)
Definition park_miller (x : Z) : Z := (16807 * x) `mod` RAND_M.

Lemma do_rand_spec ctx : do_rand ctx = park_miller (ctx `mod` (RAND_M - 1) + 1) - 1 /\ 0 <= do_rand ctx < RAND_M - 1.
Proof.
  unfold do_rand, park_miller. change 0x7ffffffe with (RAND_M - 1). change 0x7fffffff with RAND_M. assert (1 < RAND_M) by (by vm_compute).
  pose proof (Z.mod_pos_bound ctx (RAND_M - 1) ltac:(lia)). destruct (schrage (ctx `mod` (RAND_M - 1) + 1) ltac:(lia)) as (_ & E & Hpos).
  cbv zeta in *. rewrite E. pose proof (Z.mod_pos_bound (16807 * (ctx `mod` (RAND_M - 1) + 1)) RAND_M ltac:(lia)). lia.
Qed.

(** Different contexts have different successors. *)
Lemma do_rand_inj a b : 0 <= a < RAND_M - 1 -> 0 <= b < RAND_M - 1 -> do_rand a = do_rand b -> a = b.
Proof.
  intros Ha Hb E. rewrite (proj1 (do_rand_spec a)), (proj1 (do_rand_spec b)), !Z.mod_small in E by lia. unfold park_miller, RAND_M in *.
  pose proof (Z.div_mod (16807 * (a + 1)) 0x7fffffff ltac:(lia)). pose proof (Z.div_mod (16807 * (b + 1)) 0x7fffffff ltac:(lia)). lia.
Qed.

(** ** forktest *)

Section tests.
Context (oracle : trace -> call -> reply).
#[local] Instance tests_kernel : Kernel trace := any_kernel oracle.

(** Calls that went well: a fork with a child, a wait that found one. *)
Definition forked (e : call * reply) : Prop := e.1 = Fork /\ 0 < r_val e.2.
Definition reaped (e : call * reply) : Prop := e.1 = Wait /\ 0 <= r_val e.2.
Definition said (msg : string) (e : call * reply) : Prop := e.1 = Write 1 (line msg).

(** What [forktest] did and the status it exited with. *)
Inductive verdict : trace -> Z -> Prop :=
  | v_child e0 fs r : said "fork test" e0 -> Forall forked fs -> r_val r = 0 ->
      verdict ([e0] ++ fs ++ [(Fork, r)]) 0
  | v_no_limit e0 fs e1 : said "fork test" e0 -> Forall forked fs -> length fs = ForkTest.N -> said "fork claimed to work N times!" e1 ->
      verdict ([e0] ++ fs ++ [e1]) 1
  | v_few e0 fs r ws r1 e1 : said "fork test" e0 -> Forall forked fs -> r_val r < 0 -> Forall reaped ws -> (length ws < length fs)%nat ->
      r_val r1 < 0 -> said "wait stopped early" e1 ->
      verdict ([e0] ++ fs ++ [(Fork, r)] ++ ws ++ [(Wait, r1); e1]) 1
  | v_many e0 fs r ws r1 e1 : said "fork test" e0 -> Forall forked fs -> r_val r < 0 -> Forall reaped ws -> length ws = length fs ->
      r_val r1 <> -1 -> said "wait got too many" e1 ->
      verdict ([e0] ++ fs ++ [(Fork, r)] ++ ws ++ [(Wait, r1); e1]) 1
  | v_ok e0 fs r ws r1 e1 : said "fork test" e0 -> Forall forked fs -> (length fs < ForkTest.N)%nat -> r_val r < 0 -> Forall reaped ws ->
      length ws = length fs -> r_val r1 = -1 -> said "fork test OK" e1 ->
      verdict ([e0] ++ fs ++ [(Fork, r)] ++ ws ++ [(Wait, r1); e1]) 0.

Lemma evals_call c h : evals (sys c) h (h ++ [(c, oracle h c)]) (Returned (oracle h c)).
Proof. exact (evals_sys c h). Qed.
Lemma evals_print s h : evals (ForkTest.print s) h (h ++ [(Write 1 s, oracle h (Write 1 s))]) (Returned tt).
Proof. eapply evals_bind; [apply evals_call|apply evals_pure]. Qed.

Lemma fork_loop_evals m n h : exists fs,
  Forall forked fs /\
  ((exists r, r_val r = 0 /\ evals (ForkTest.fork_loop m n) h (h ++ fs ++ [(Fork, r)]) (Exited 0)) \/
   (length fs = m /\ evals (ForkTest.fork_loop m n) h (h ++ fs) (Returned (n + m)%nat)) \/
   ((length fs < m)%nat /\ exists r, r_val r < 0 /\ evals (ForkTest.fork_loop m n) h (h ++ fs ++ [(Fork, r)]) (Returned (n + length fs)%nat))).
Proof.
  revert n h. induction m as [|m IH]; intros n h; cbn [ForkTest.fork_loop].
  - exists []. split; [done|]. right. left. split; [done|]. rewrite app_nil_r, Nat.add_0_r. apply evals_pure.
  - pose proof (evals_call Fork h) as E. destruct (Z.ltb_spec (r_val (oracle h Fork)) 0) as [Hneg|Hpos].
    { exists []. split; [done|]. right. right. split; [cbn; lia|]. exists (oracle h Fork). split; [done|]. eapply evals_bind; [exact E|]. cbv zeta.
      rewrite (proj2 (Z.ltb_lt _ _) Hneg), Nat.add_0_r. apply evals_pure. }
    destruct (Z.eqb_spec (r_val (oracle h Fork)) 0) as [Hz|Hnz].
    { exists []. split; [done|]. left. exists (oracle h Fork). split; [done|]. eapply evals_bind; [exact E|]. cbv zeta. rewrite Hz. apply evals_exit. }
    assert (forall h' o, evals (ForkTest.fork_loop m (S n)) (h ++ [(Fork, oracle h Fork)]) h' o ->
      evals (ForkTest.fork_loop (S m) n) h h' o) as Hgo.
    { intros h' o Ho. eapply evals_bind; [exact E|]. cbv zeta. rewrite (proj2 (Z.ltb_ge _ _) Hpos), (proj2 (Z.eqb_neq _ _) Hnz). exact Ho. }
    destruct (IH (S n) (h ++ [(Fork, oracle h Fork)])) as (fs & Hfs & Hout). exists ((Fork, oracle h Fork) :: fs).
    split; [constructor; [split; [done|cbn; lia]|done]|]. cbn [length].
    destruct Hout as [(r & Hr & Ho)|[(Hl & Ho)|(Hl & r & Hr & Ho)]]; rewrite <- app_assoc in Ho.
    + left. exists r. split; [done|]. by apply Hgo.
    + right. left. split; [lia|]. rewrite Nat.add_succ_r. by apply Hgo.
    + right. right. split; [lia|]. exists r. split; [done|]. rewrite Nat.add_succ_r. by apply Hgo.
Qed.

Lemma wait_loop_evals n h : exists ws,
  Forall reaped ws /\
  ((length ws = n /\ evals (ForkTest.wait_loop n) h (h ++ ws) (Returned tt)) \/
   ((length ws < n)%nat /\ exists r e, r_val r < 0 /\ said "wait stopped early" e /\
      evals (ForkTest.wait_loop n) h (h ++ ws ++ [(Wait, r); e]) (Exited 1))).
Proof.
  revert h. induction n as [|n IH]; intros h; cbn [ForkTest.wait_loop].
  - exists []. split; [done|]. left. split; [done|]. rewrite app_nil_r. apply evals_pure.
  - pose proof (evals_call Wait h) as E. destruct (Z.ltb_spec (r_val (oracle h Wait)) 0) as [Hneg|Hpos].
    { exists []. split; [done|]. right. split; [cbn; lia|]. eexists (oracle h Wait), _. split; [done|]. split; [|eapply evals_bind; [exact E|]].
      2:{ rewrite (proj2 (Z.ltb_lt _ _) Hneg). eapply evals_bind; [apply evals_print|]. rewrite <- app_assoc. apply evals_exit. }
      done. }
    destruct (IH (h ++ [(Wait, oracle h Wait)])) as (ws & Hws & Hout). exists ((Wait, oracle h Wait) :: ws).
    split; [constructor; [split; done|done]|]. cbn [length].
    destruct Hout as [(Hl & Ho)|(Hl & r & e & Hr & He & Ho)]; rewrite <- app_assoc in Ho; [left|right]; (split; [lia|]).
    + eapply evals_bind; [exact E|]. by rewrite (proj2 (Z.ltb_ge _ _) Hpos).
    + exists r, e. split; [done|]. split; [done|]. eapply evals_bind; [exact E|]. by rewrite (proj2 (Z.ltb_ge _ _) Hpos).
Qed.

(** After a fork failed with n children. *)
Lemma forktest_waits h n : exists h' st, evals (ForkTest.wait_loop n ;;;
    let! r := sys Wait in
    if negb (r_val r =? -1) then
      ForkTest.print (line "wait got too many") ;;;
      exit 1
    else ForkTest.print (line "fork test OK")) h h' st /\
  exists ws r e, Forall reaped ws /\ h' = h ++ ws ++ [(Wait, r); e] /\
    (st = Exited 1 /\ (length ws < n)%nat /\ r_val r < 0 /\ said "wait stopped early" e \/
     st = Exited 1 /\ length ws = n /\ r_val r <> -1 /\ said "wait got too many" e \/
     st = Returned tt /\ length ws = n /\ r_val r = -1 /\ said "fork test OK" e).
Proof.
  destruct (wait_loop_evals n h) as (ws & Hws & [(Hl & E)|(Hl & r & e & Hr & He & E)]).
  2:{ exists (h ++ ws ++ [(Wait, r); e]), (Exited 1). split; [by apply evals_bind_exit|]. exists ws, r, e. split; [done|]. split; [done|]. by left. }
  pose proof (evals_call Wait (h ++ ws)) as Ew. set (r := oracle (h ++ ws) Wait) in *. set (h1 := (h ++ ws) ++ [(Wait, r)]) in *.
  destruct (Z.eqb_spec (r_val r) (-1)) as [Hr|Hr].
  - eexists _, _. split; [eapply evals_bind; [exact E|]; eapply evals_bind; [exact Ew|]; rewrite Hr; apply evals_print|].
    eexists ws, r, _. split; [done|]. unfold h1. rewrite <- !app_assoc. split; [done|]. by do 2 right.
  - eexists _, _. split; [eapply evals_bind; [exact E|]; eapply evals_bind; [exact Ew|]; rewrite (proj2 (Z.eqb_neq _ _) Hr); cbn [negb];
      eapply evals_bind; [apply evals_print|apply evals_exit]|].
    eexists ws, r, _. split; [done|]. unfold h1. rewrite <- !app_assoc. split; [done|]. by right; left.
Qed.

Lemma forktest_verdict : exists h st, evals ForkTest.main [] h (Exited st) /\ verdict h st.
Proof.
  pose proof (evals_print (line "fork test") []) as E0. set (e0 := (Write 1 _, _)) in E0. assert (said "fork test" e0) as H0 by done.
  destruct (fork_loop_evals ForkTest.N 0 [e0]) as (fs & Hfs & [(r & Hr & E)|[(Hl & E)|(Hl & r & Hr & E)]]).
  - exists ([e0] ++ fs ++ [(Fork, r)]), 0. split; [|by apply v_child]. apply evals_bind_exit. eapply evals_bind; [exact E0|]. by apply evals_bind_exit.
  - eexists _, 1. split; [apply evals_bind_exit; eapply evals_bind; [exact E0|]; eapply evals_bind; [exact E|]; cbn [Nat.add]; rewrite Nat.eqb_refl;
      eapply evals_bind; [apply evals_print|apply evals_exit]|]. rewrite <- app_assoc. by apply v_no_limit.
  - destruct (forktest_waits ([e0] ++ fs ++ [(Fork, r)]) (length fs)) as (h & st & Ew & ws & r1 & e & Hws & -> & Hst). rewrite <- !app_assoc in *.
    assert (evals ForkTest.forktest [] ([e0] ++ fs ++ [(Fork, r)] ++ ws ++ [(Wait, r1); e]) st) as Ef.
    { eapply evals_bind; [exact E0|]. eapply evals_bind; [exact E|]. cbn [Nat.add]. by rewrite (proj2 (Nat.eqb_neq _ _) (Nat.lt_neq _ _ Hl)). }
    destruct Hst as [(-> & Hn & Hr1 & He)|[(-> & Hn & Hr1 & He)|(-> & Hn & Hr1 & He)]].
    + eexists _, 1. split; [by apply evals_bind_exit|]. by apply v_few.
    + eexists _, 1. split; [by apply evals_bind_exit|]. by apply v_many.
    + eexists _, 0. split; [eapply evals_bind; [exact Ef|apply evals_exit]|]. by apply v_ok.
Qed.

(** ** logstress *)

(** The buffer of 500 bytes is filled with 2000. *)
Lemma logstress_overflows argv0 arg args : let h := [(Fork, oracle [] Fork)] in
  r_val (oracle [] Fork) = 0 -> 0 <= r_val (oracle h (Open arg (Z.lor O_CREATE O_RDWR))) ->
  exists h', evals (LogStress.main (argv0 :: arg :: args)) [] h' Undefined.
Proof.
  intros h Hf Ho. eexists. apply evals_bind_undef. cbn [drop LogStress.fork_args]. eapply evals_bind; [apply evals_call|]. cbv zeta. rewrite Hf.
  apply evals_bind_undef. eapply evals_bind; [apply evals_call|]. change ([] ++ [(Fork, oracle [] Fork)]) with h. cbv zeta. rewrite (proj2 (Z.ltb_ge _ _) Ho).
  apply evals_bind_undef. by apply ev_undef.
Qed.
End tests.

(** C34.  The test programs.  However the kernel answers, forktest ends; it exits
    with 0 only in a child, or after some fork failed, as many waits found a child
    as forks made one and one more wait failed; in all other cases it says what
    went wrong and exits with 1.  grind's generator is that of Park and Miller,
    7^5 x modulo 2^31 - 1, computed within 32 bits, one smaller; no two contexts
    have the same successor, so that it does not get stuck, and every round picks
    one of the 23 cases.  A child of logstress that can open its file stores past
    the end of its buffer. *)
Theorem tests_correct oracle :
  (exists h st, evals (H := any_kernel oracle) ForkTest.main [] h (Exited st) /\ verdict h st) /\
  (forall ctx, do_rand ctx = park_miller (ctx `mod` (RAND_M - 1) + 1) - 1 /\ 0 <= do_rand ctx < RAND_M - 1 /\ i32 (do_rand ctx) = do_rand ctx) /\
  (forall a b, 0 <= a < RAND_M - 1 -> 0 <= b < RAND_M - 1 -> do_rand a = do_rand b -> a = b) /\
  (forall g, 0 <= Z.rem (GrindCmd.rand g).1 23 < 23) /\
  (forall argv0 arg args, r_val (oracle [] Fork) = 0 -> 0 <= r_val (oracle [(Fork, oracle [] Fork)] (Open arg (Z.lor O_CREATE O_RDWR))) ->
     exists h, evals (H := any_kernel oracle) (LogStress.main (argv0 :: arg :: args)) [] h Undefined).
Proof.
  assert (forall ctx, i32 (do_rand ctx) = do_rand ctx) as Hi.
  { intros ctx. destruct (do_rand_spec ctx) as [_ Hb]. unfold RAND_M in Hb. apply i32_id. lia. }
  split; [apply forktest_verdict|]. split; [|split; [exact do_rand_inj|split; [|apply logstress_overflows]]].
  - intros ctx. destruct (do_rand_spec ctx). auto.
  - intros g. cbn [GrindCmd.rand fst]. rewrite Hi. destruct (do_rand_spec (GrindCmd.g_rand g)) as [_ Hb]. apply Z.rem_bound_pos; lia.
Qed.

(** A kernel where fork returns 0 and open a descriptor. *)
Definition child_oracle (h : trace) (c : call) : reply := mkReply (match c with Open _ _ => 3 | _ => 0 end) [].

Lemma tests_correct_witness : do_rand 1 = 33613 /\
  exists h, evals (H := any_kernel child_oracle) (LogStress.main [chars "logstress"; chars "f1"]) [] h Undefined.
Proof.
  destruct (tests_correct child_oracle) as (_ & _ & _ & _ & Hl). split; [by vm_compute|]. by apply Hl.
Defined.
