(* ===== verification/Sched.v ===== *)
(** * Sleep and wakeup under interleaving ([kernel/proc.c])

    The processes of a machine with any number of harts that wait for a
    condition protected by a lock lk, [while(!cond) sleep(chan, lk);], or make
    it true and call [wakeup(chan)].  A step is one action of one process or
    of a scheduler: the locks lk and p->lock are taken and released in the
    order of the code, and a process between [sched] and being chosen again
    is off every hart.  [kkill] and [yield] may interfere. *)
From S2P Require Import Prelude Params Sleeplock CString Interfaces Log BlockInst Fs Kalloc Vm Pipe Console Kernel Proc.

(** Where a process is.  The argument of the last four says whether it called
    [sleep] (or [yield]). *)
Inductive pc : Set :=
  | Outside                      (* does not hold lk *)
  | Holding                      (* holds lk *)
  | Scanning (k : nat)           (* in wakeup, about to look at process k *)
  | ScanLocked (k : nat)         (* in wakeup, holds the lock of process k *)
  | SleepCalled                  (* in sleep, before acquire(&p->lock) *)
  | SleepLocked                  (* holds p->lock and lk *)
  | SleepReleased                (* released lk *)
  | YieldLocked                  (* in yield, holds p->lock *)
  | Switching (slept : bool)     (* in swtch: the scheduler will release p->lock *)
  | Off (slept : bool)           (* not on any hart *)
  | Resumed (slept : bool)       (* back from sched, holds p->lock *)
  | Relocking.                   (* in sleep, before acquire(lk) *)

Record slot : Type := mkSlot { q_proc : proc; q_lock : bool; q_pc : pc }.
Record sys : Type := mkSys { s_lk : option nat; s_cond : bool; s_slot : nat -> slot }.

Definition upd {A} (i : nat) (x : A) (f : nat -> A) : nat -> A := fun j => if decide (j = i) then x else f j.

Definition put (i : nat) (q : slot) (s : sys) : sys := mkSys (s_lk s) (s_cond s) (upd i q (s_slot s)).
Definition set_lk (o : option nat) (s : sys) : sys := mkSys o (s_cond s) (s_slot s).
Definition set_cond (b : bool) (s : sys) : sys := mkSys (s_lk s) b (s_slot s).
Definition goto (i : nat) (l : pc) (s : sys) : sys :=
  put i (mkSlot (q_proc (s_slot s i)) (q_lock (s_slot s i)) l) s.
Definition set_plock (i : nat) (b : bool) (s : sys) : sys :=
  put i (mkSlot (q_proc (s_slot s i)) b (q_pc (s_slot s i))) s.
Definition set_proc (i : nat) (f : proc -> proc) (s : sys) : sys :=
  put i (mkSlot (f (q_proc (s_slot s i))) (q_lock (s_slot s i)) (q_pc (s_slot s i))) s.

Section sched.
Context (c : chan) (n : nat).   (* the channel, and NPROC *)

Inductive step (s : sys) : sys -> Prop :=
  | st_acquire i : (i < n)%nat -> q_pc (s_slot s i) = Outside -> s_lk s = None ->
      step s (goto i Holding (set_lk (Some i) s))
  | st_release i : (i < n)%nat -> q_pc (s_slot s i) = Holding -> step s (goto i Outside (set_lk None s))
  (* cond = 1; wakeup(chan): *)
  | st_signal i : (i < n)%nat -> q_pc (s_slot s i) = Holding -> step s (goto i (Scanning 0) (set_cond true s))
  | st_consume i : (i < n)%nat -> q_pc (s_slot s i) = Holding -> s_cond s = true -> step s (set_cond false s)
  | st_scan_me i : (i < n)%nat -> q_pc (s_slot s i) = Scanning i -> step s (goto i (Scanning (S i)) s)
  | st_scan_lock i k : (i < n)%nat -> (k < n)%nat -> k <> i -> q_pc (s_slot s i) = Scanning k ->
      q_lock (s_slot s k) = false -> step s (goto i (ScanLocked k) (set_plock k true s))
  | st_scan_wake i k : (i < n)%nat -> q_pc (s_slot s i) = ScanLocked k ->
      step s (goto i (Scanning (S k)) (set_plock k false (set_proc k (wake_one c) s)))
  | st_scan_done i : (i < n)%nat -> q_pc (s_slot s i) = Scanning n -> step s (goto i Holding s)
  (* while(!cond) sleep(chan, lk): *)
  | st_sleep i : (i < n)%nat -> q_pc (s_slot s i) = Holding -> s_cond s = false -> step s (goto i SleepCalled s)
  | st_sleep_lock i : (i < n)%nat -> q_pc (s_slot s i) = SleepCalled -> q_lock (s_slot s i) = false ->
      step s (goto i SleepLocked (set_plock i true s))
  | st_sleep_unlock i : (i < n)%nat -> q_pc (s_slot s i) = SleepLocked ->
      step s (goto i SleepReleased (set_lk None s))
  | st_sleep_state i : (i < n)%nat -> q_pc (s_slot s i) = SleepReleased ->
      step s (goto i (Switching true) (set_proc i (sleep_proc c) s))
  | st_resume_sleep i : (i < n)%nat -> q_pc (s_slot s i) = Resumed true ->
      step s (goto i Relocking (set_plock i false (set_proc i awake_proc s)))
  | st_relock i : (i < n)%nat -> q_pc (s_slot s i) = Relocking -> s_lk s = None ->
      step s (goto i Holding (set_lk (Some i) s))
  (* the scheduler: *)
  | st_switched i b : (i < n)%nat -> q_pc (s_slot s i) = Switching b -> step s (goto i (Off b) (set_plock i false s))
  | st_run i b : (i < n)%nat -> q_pc (s_slot s i) = Off b -> q_lock (s_slot s i) = false ->
      p_state (q_proc (s_slot s i)) = RUNNABLE ->
      step s (goto i (Resumed b) (set_plock i true (set_proc i (set_state RUNNING) s)))
  (* yield, and kill by any process: *)
  | st_yield i : (i < n)%nat -> q_pc (s_slot s i) = Outside -> q_lock (s_slot s i) = false ->
      step s (goto i YieldLocked (set_plock i true s))
  | st_yield_state i : (i < n)%nat -> q_pc (s_slot s i) = YieldLocked ->
      step s (goto i (Switching false) (set_proc i (set_state RUNNABLE) s))
  | st_resume_yield i : (i < n)%nat -> q_pc (s_slot s i) = Resumed false ->
      step s (goto i Outside (set_plock i false s))
  | st_kill k : (k < n)%nat -> q_lock (s_slot s k) = false -> step s (set_proc k kill_one s).

(** All processes outside, running, and no lock held. *)
Definition initial (s : sys) : Prop :=
  s_lk s = None /\ forall i, q_pc (s_slot s i) = Outside /\ q_lock (s_slot s i) = false /\
    p_state (q_proc (s_slot s i)) = RUNNING.

Inductive reachable : sys -> Prop :=
  | reach_init s : initial s -> reachable s
  | reach_step s s' : reachable s -> step s s' -> reachable s'.

(** ** The invariant *)

Definition has_lk (l : pc) : bool :=
  match l with Holding | Scanning _ | ScanLocked _ | SleepCalled | SleepLocked => true | _ => false end.
Definition has_plock (l : pc) : bool :=
  match l with SleepLocked | SleepReleased | YieldLocked | Switching _ | Resumed _ => true | _ => false end.

(** i's wakeup has yet to look at j. *)
Definition will_wake (s : sys) (i j : nat) : Prop :=
  i <> j /\ exists k, (k <= j)%nat /\ (q_pc (s_slot s i) = Scanning k \/ q_pc (s_slot s i) = ScanLocked k).

Record inv (s : sys) : Prop := {
  iv_lk : forall i, s_lk s = Some i <-> has_lk (q_pc (s_slot s i)) = true;
  iv_plock : forall j, has_plock (q_pc (s_slot s j)) = true -> q_lock (s_slot s j) = true;
  iv_held : forall j, q_lock (s_slot s j) = true ->
    has_plock (q_pc (s_slot s j)) = true \/ exists i, q_pc (s_slot s i) = ScanLocked j;
  iv_scan : forall i k, q_pc (s_slot s i) = ScanLocked k -> (k < n)%nat /\ k <> i /\ q_lock (s_slot s k) = true /\
    has_plock (q_pc (s_slot s k)) = false;
  iv_sleeping : forall j, p_state (q_proc (s_slot s j)) = SLEEPING ->
    p_chan (q_proc (s_slot s j)) = Some c /\ (q_pc (s_slot s j) = Switching true \/ q_pc (s_slot s j) = Off true);
  iv_off : forall j b, q_pc (s_slot s j) = Switching b \/ q_pc (s_slot s j) = Off b ->
    p_state (q_proc (s_slot s j)) = RUNNABLE \/ b = true /\ p_state (q_proc (s_slot s j)) = SLEEPING;
  iv_entered : forall j, q_pc (s_slot s j) = SleepCalled \/ q_pc (s_slot s j) = SleepLocked -> s_cond s = false;
  iv_wakes : forall j, (j < n)%nat -> s_cond s = true ->
    q_pc (s_slot s j) = SleepReleased \/ p_state (q_proc (s_slot s j)) = SLEEPING -> exists i, will_wake s i j;
  iv_active : forall j, (n <= j)%nat -> q_pc (s_slot s j) = Outside }.

Lemma inv_initial s : initial s -> inv s.
Proof.
  intros [Hlk Hi]. split.
  - intros i. destruct (Hi i) as (-> & _). by rewrite Hlk.
  - intros j. by destruct (Hi j) as (-> & _).
  - intros j. by destruct (Hi j) as (_ & -> & _).
  - intros i k. by destruct (Hi i) as (-> & _).
  - intros j. by destruct (Hi j) as (_ & _ & ->).
  - intros j b. destruct (Hi j) as (-> & _). by intros [|].
  - intros j. destruct (Hi j) as (-> & _). by intros [|].
  - intros j _ _. destruct (Hi j) as (-> & _ & ->). by intros [|].
  - intros j _. apply Hi.
Qed.

(** Case analysis on which slots a step writes. *)
Ltac slots := unfold goto, set_lk, set_cond, set_plock, set_proc, put, upd in *; cbn [s_lk s_cond s_slot q_pc q_lock q_proc] in *;
  repeat (case_decide; subst; cbn [q_pc q_lock q_proc] in *).

(** What is known of the process that moves, as equations. *)
Lemma known s i l : inv s -> q_pc (s_slot s i) = l ->
  (if has_lk l then s_lk s = Some i else s_lk s <> Some i) /\
  (if has_plock l then q_lock (s_slot s i) = true else True).
Proof.
  intros I <-. split.
  - pose proof (iv_lk s I i) as H. destruct (has_lk _); [by apply H|]. intros Hlk. by apply H in Hlk.
  - pose proof (iv_plock s I i) as H. by destruct (has_plock _); [apply H|].
Qed.
Lemma known_other s i j : inv s -> s_lk s = Some i -> j <> i -> has_lk (q_pc (s_slot s j)) = false.
Proof.
  intros I Hlk Hne. pose proof (iv_lk s I j) as H. destruct (has_lk _); [|done]. assert (s_lk s = Some j) by by apply H. congruence.
Qed.
Ltac know :=
  match goal with
  | I : inv ?s, H : q_pc (s_slot ?s ?i) = ?l |- _ =>
      let H1 := fresh "Hlk" in let H2 := fresh "Hpl" in destruct (known s i l I H) as [H1 H2]; cbn in H1, H2
  end.

Lemma inv_lk_step s s' : inv s -> step s s' -> forall i, s_lk s' = Some i <-> has_lk (q_pc (s_slot s' i)) = true.
Proof.
  intros I Hs j. pose proof (iv_lk s I j) as Hj. destruct Hs; try know; slots; try (split; congruence); try done.
  all: split; [congruence|intros Hh; apply Hj in Hh; congruence].
Qed.

Lemma inv_plock_step s s' : inv s -> step s s' ->
  forall j, has_plock (q_pc (s_slot s' j)) = true -> q_lock (s_slot s' j) = true.
Proof.
  intros I Hs j. pose proof (iv_plock s I j) as Hj. destruct Hs; try know; slots; try done; intros Hh; try (apply Hj in Hh; congruence).
  destruct (iv_scan s I i k) as (_ & _ & _ & Hk); [done|]. congruence.
Qed.

Lemma inv_scan_step s s' : inv s -> step s s' -> forall i k, q_pc (s_slot s' i) = ScanLocked k ->
  (k < n)%nat /\ k <> i /\ q_lock (s_slot s' k) = true /\ has_plock (q_pc (s_slot s' k)) = false.
Proof.
  intros I Hs j k Hpc. pose proof (iv_scan s I j k) as Hj. pose proof (iv_plock s I k) as Hk.
  destruct Hs; try know; slots; try done;
    try (destruct (Hj Hpc) as (? & ? & ? & Hf); split_and!; first [done|congruence]);
    try (destruct (Hj Hpc) as (_ & _ & _ & Hf); match goal with H : q_pc _ = _ |- _ => rewrite H in Hf; discriminate Hf end).
  - congruence.
  - split_and!; try done. destruct (has_plock _); [|done]. specialize (Hk eq_refl). congruence.
  - congruence.
  - destruct (known s j _ I Hpc) as [Hj' _]. cbn in Hj'. congruence.
  - destruct (known s j _ I Hpc) as [Hj' _]. cbn in Hj'. congruence.
Qed.

Lemma inv_held_step s s' : inv s -> step s s' -> forall j, q_lock (s_slot s' j) = true ->
    has_plock (q_pc (s_slot s' j)) = true \/ exists i, q_pc (s_slot s' i) = ScanLocked j.
Proof.
  intros I Hs j Hl. pose proof (iv_held s I j) as Hj.
  assert (q_lock (s_slot s j) = true -> has_plock (q_pc (s_slot s j)) = true \/
    exists i, q_pc (s_slot s i) = ScanLocked j /\ s_lk s = Some i /\ i <> j) as Hj'.
  { intros [|(i & Hi)]%Hj; [by left|right]. exists i. destruct (known s i _ I Hi). by destruct (iv_scan s I i j Hi) as (_ & ? & _). }
  destruct Hs; try know; slots; try done; try (left; done).
  all: try (destruct (Hj' Hl) as [Hh|(i0 & Hi0 & Hlk0 & ?)]; [|right; exists i0; slots; congruence];
    first [left; congruence | match goal with H : q_pc _ = _ |- _ => rewrite H in Hh; discriminate Hh end]).
  right. exists i. slots; done.
Qed.

Lemma wake_one_state p : p_state (wake_one c p) = SLEEPING -> p_state p = SLEEPING /\ p_chan p <> Some c.
Proof. unfold wake_one. repeat case_bool_decide; cbn; done. Qed.
Lemma wake_one_runnable p : p_state p = RUNNABLE -> wake_one c p = p.
Proof. intros Hp. unfold wake_one. by rewrite bool_decide_false by congruence. Qed.
Lemma wake_one_cases p : p_state (wake_one c p) = p_state p \/ p_state (wake_one c p) = RUNNABLE.
Proof. unfold wake_one. destruct (_ && _); [by right|by left]. Qed.
Lemma kill_one_state p : p_state (kill_one p) = if bool_decide (p_state p = SLEEPING) then RUNNABLE else p_state p.
Proof. done. Qed.

Lemma inv_sleeping_step s s' : inv s -> step s s' -> forall j, p_state (q_proc (s_slot s' j)) = SLEEPING ->
    p_chan (q_proc (s_slot s' j)) = Some c /\ (q_pc (s_slot s' j) = Switching true \/ q_pc (s_slot s' j) = Off true).
Proof.
  intros I Hs j Hst. pose proof (iv_sleeping s I j) as Hj. destruct Hs; slots; try done.
  all: try (destruct (Hj Hst) as [? [?|?]]; (split; [done|first [left; congruence|right; congruence]])).
  - destruct (wake_one_state _ Hst) as [Hs Hc]. by destruct (Hj Hs).
  - destruct (wake_one_state _ Hst) as [Hs Hc]. by destruct (Hj Hs).
  - split; [done|by left].
  - destruct (Hj Hst) as [_ [?|?]]; congruence.
  - rewrite kill_one_state in Hst. case_bool_decide; [done|contradiction].
Qed.

Lemma inv_off_step s s' : inv s -> step s s' -> forall j b, q_pc (s_slot s' j) = Switching b \/ q_pc (s_slot s' j) = Off b ->
    p_state (q_proc (s_slot s' j)) = RUNNABLE \/ b = true /\ p_state (q_proc (s_slot s' j)) = SLEEPING.
Proof.
  intros I Hs j b Hpc. pose proof (iv_off s I j b) as Hj. destruct Hs; slots; try (by destruct Hpc); try (by apply Hj).
  - destruct (wake_one_cases (q_proc (s_slot s k))) as [->| ->]; [by apply Hj|by left].
  - destruct Hpc as [[= <-]|[=]]. by right.
  - apply Hj. left. destruct Hpc as [[=]|[= <-]]. done.
  - by left.
  - rewrite kill_one_state. case_bool_decide; [by left|by apply Hj].
Qed.

Lemma inv_entered_step s s' : inv s -> step s s' ->
  forall j, q_pc (s_slot s' j) = SleepCalled \/ q_pc (s_slot s' j) = SleepLocked -> s_cond s' = false.
Proof.
  intros I Hs j Hpc. pose proof (iv_entered s I j) as Hj. destruct Hs; try know; slots; try (by destruct Hpc); try (by apply Hj); try done.
  - exfalso. pose proof (known_other s i j I Hlk ltac:(done)) as Hh. by destruct Hpc as [E|E]; rewrite E in Hh.
  - apply (iv_entered s I i). by left.
Qed.

Lemma inv_active_step s s' : inv s -> step s s' -> forall j, (n <= j)%nat -> q_pc (s_slot s' j) = Outside.
Proof.
  intros I Hs j Hj. pose proof (iv_active s I j Hj) as Hpc. destruct Hs; slots; try done; lia.
Qed.

Lemma will_wake_other s s' i j : will_wake s i j -> q_pc (s_slot s' i) = q_pc (s_slot s i) -> will_wake s' i j.
Proof. intros (Hne & k & Hk & Hpc) E. split; [done|]. exists k. by rewrite E. Qed.

Definition asleep (s : sys) (j : nat) : Prop :=
  q_pc (s_slot s j) = SleepReleased \/ p_state (q_proc (s_slot s j)) = SLEEPING.

(** A process falls asleep only while the condition is false. *)
Lemma asleep_before s s' j : inv s -> step s s' -> asleep s' j -> asleep s j \/ s_cond s' = false.
Proof.
  intros I Hs Ha. unfold asleep in *. pose proof (iv_entered s I j) as He. destruct Hs; slots; try tauto.
  all: try (destruct Ha as [[=]|Ha]; left; right; first [done|apply wake_one_state in Ha; tauto|discriminate Ha]).
  - left. destruct Ha as [Ha|Ha]; [by left|right]. apply wake_one_state in Ha. tauto.
  - left. destruct Ha as [Ha|Ha]; [by left|]. rewrite kill_one_state in Ha. case_bool_decide; [done|contradiction].
Qed.

(** A scan goes on until it has woken j. *)
Lemma scan_goes_on s s' i j : inv s -> step s s' -> (j < n)%nat -> asleep s' j -> will_wake s i j -> will_wake s' i j.
Proof.
  intros I Hs Hj Ha (Hne & k & Hk & Hpc). split; [done|].
  assert (q_pc (s_slot s' i) = q_pc (s_slot s i) -> exists k, (k <= j)%nat /\
    (q_pc (s_slot s' i) = Scanning k \/ q_pc (s_slot s' i) = ScanLocked k)) as Hsame by (intros ->; eauto).
  destruct Hs; slots; try (by apply Hsame); try (by destruct Hpc; congruence).
  - exists (S i0). split; [|by left]. assert (k = i0) by (destruct Hpc; congruence). lia.
  - exists k0. split; [|by right]. assert (k = k0) by (destruct Hpc; congruence). lia.
  - destruct (iv_scan s I k0 k0) as (_ & Hk0 & _); [done|]. by destruct Hk0.
  - exists (S k0). split; [|by left]. assert (k = k0) as -> by (destruct Hpc; congruence).
    destruct (decide (k0 = j)) as [->|]; [exfalso|lia].
    destruct (iv_scan s I i0 j) as (_ & _ & _ & Hf); [done|]. unfold asleep in Ha. slots; try done.
    destruct Ha as [Ha|Ha]; [by rewrite Ha in Hf|].
    apply wake_one_state in Ha as [Ha Hc]. by destruct (iv_sleeping s I j Ha).
  - exfalso. assert (k = n) by (destruct Hpc; congruence). lia.
Qed.

Lemma inv_wakes_step s s' : inv s -> step s s' -> forall j, (j < n)%nat -> s_cond s' = true ->
    q_pc (s_slot s' j) = SleepReleased \/ p_state (q_proc (s_slot s' j)) = SLEEPING -> exists i, will_wake s' i j.
Proof.
  intros I Hs j Hj Hc Ha. destruct (asleep_before s s' j I Hs Ha) as [Hb|]; [|congruence].
  destruct (s_cond s) eqn:Hcs.
  - destruct (iv_wakes s I j Hj Hcs Hb) as (i & Hi). exists i. by eapply scan_goes_on.
  - assert (exists i, q_pc (s_slot s i) = Holding /\ s' = goto i (Scanning 0) (set_cond true s)) as (i & Hi & ->).
    { destruct Hs; cbn in Hc; first [congruence|eauto]. }
    exists i. split; [|exists 0%nat; split; [lia|left; slots; done]].
    intros ->. slots; [|done]. destruct Ha as [|Ha]; [done|]. destruct (iv_sleeping s I j Ha) as [_ [|]]; congruence.
Qed.

Lemma inv_step s s' : inv s -> step s s' -> inv s'.
Proof.
  intros I Hs. split; eauto using inv_lk_step, inv_plock_step, inv_held_step, inv_scan_step, inv_sleeping_step,
    inv_off_step, inv_entered_step, inv_wakes_step, inv_active_step.
Qed.

Lemma sched_inv s : reachable s -> inv s.
Proof. induction 1; eauto using inv_initial, inv_step. Qed.

(** ** No wakeup is lost *)

Inductive steps (s : sys) : sys -> Prop :=
  | steps_nil : steps s s
  | steps_cons s1 s2 : step s s1 -> steps s1 s2 -> steps s s2.

Lemma run_from_relocking s i : (i < n)%nat -> s_lk s = None -> s_cond s = true -> q_pc (s_slot s i) = Relocking ->
  exists s', steps s s' /\ q_pc (s_slot s' i) = Holding /\ s_cond s' = true.
Proof.
  intros Hi Hlk Hc Hpc. eexists. split; [econstructor; [by apply (st_relock s i)|constructor]|]. slots; done.
Qed.
Lemma run_from_resumed s i : (i < n)%nat -> s_lk s = None -> s_cond s = true -> q_pc (s_slot s i) = Resumed true ->
  exists s', steps s s' /\ q_pc (s_slot s' i) = Holding /\ s_cond s' = true.
Proof.
  intros Hi Hlk Hc Hpc. destruct (run_from_relocking (goto i Relocking (set_plock i false (set_proc i awake_proc s))) i)
    as (s' & Hs & ?); [done|done|done|slots; done|]. exists s'. split; [|done].
  econstructor; [by apply (st_resume_sleep s i)|done].
Qed.
Lemma run_from_off s i : (i < n)%nat -> s_lk s = None -> s_cond s = true -> q_pc (s_slot s i) = Off true ->
  q_lock (s_slot s i) = false -> p_state (q_proc (s_slot s i)) = RUNNABLE ->
  exists s', steps s s' /\ q_pc (s_slot s' i) = Holding /\ s_cond s' = true.
Proof.
  intros Hi Hlk Hc Hpc Hl Hst.
  destruct (run_from_resumed (goto i (Resumed true) (set_plock i true (set_proc i (set_state RUNNING) s))) i)
    as (s' & Hs & ?); [done|done|done|slots; done|]. exists s'. split; [|done].
  econstructor; [by apply (st_run s i true)|done].
Qed.

(** With lk free, a process that is off its hart has a free lock. *)
Lemma lock_free s i : inv s -> s_lk s = None -> has_plock (q_pc (s_slot s i)) = false -> q_lock (s_slot s i) = false.
Proof.
  intros I Hlk Hpc. destruct (q_lock (s_slot s i)) eqn:Hl; [|done]. destruct (iv_held s I i Hl) as [|(w & Hw)]; [congruence|].
  destruct (known s w _ I Hw) as [Hw' _]. cbn in Hw'. congruence.
Qed.

(** C27. No wakeup is lost.  Whatever the interleaving of processes that wait
    for the condition with sleep, set it and call wakeup, yield or kill each
    other: once the condition is true and lk is free, no process sleeps on
    the channel any more; and every process inside sleep can run, by its own
    and the scheduler's steps alone, until it is back from sleep with lk held
    and the condition still true. *)
Theorem no_lost_wakeup s i : reachable s -> s_lk s = None -> s_cond s = true -> (i < n)%nat ->
  p_state (q_proc (s_slot s i)) <> SLEEPING /\
  (q_pc (s_slot s i) ∈ [SleepCalled; SleepLocked; SleepReleased; Switching true; Off true; Resumed true; Relocking] ->
   exists s', steps s s' /\ q_pc (s_slot s' i) = Holding /\ s_cond s' = true).
Proof.
  intros I%sched_inv Hlk Hc Hi.
  assert (~ asleep s i) as Ha.
  { intros Ha. destruct (iv_wakes s I i Hi Hc Ha) as (w & _ & k & _ & [Hw|Hw]);
      destruct (known s w _ I Hw) as [Hl _]; cbn in Hl; congruence. }
  split; [intros Hst; apply Ha; by right|]. rewrite !elem_of_cons, elem_of_nil.
  intros [Hpc|[Hpc|[Hpc|[Hpc|[Hpc|[Hpc|[Hpc|[]]]]]]]].
  - pose proof (iv_entered s I i). destruct (known s i _ I Hpc). cbn in *. congruence.
  - pose proof (iv_entered s I i). destruct (known s i _ I Hpc). cbn in *. congruence.
  - destruct Ha. by left.
  - destruct (iv_off s I i true) as [Hst|[_ Hst]]; [by left| |destruct Ha; by right].
    destruct (run_from_off (goto i (Off true) (set_plock i false s)) i) as (s' & Hs & ?); try (slots; done).
    exists s'. split; [|done]. econstructor; [by apply (st_switched s i true)|done].
  - destruct (iv_off s I i true) as [Hst|[_ Hst]]; [by right| |destruct Ha; by right].
    apply run_from_off; try done. apply lock_free; [done|done|by rewrite Hpc].
  - by apply run_from_resumed.
  - by apply run_from_relocking.
Qed.
End sched.

(** Two processes: the first goes to sleep, the second makes the condition
    true and wakes it. *)
Definition demo_sys : sys := mkSys None false (fun _ => mkSlot (set_state RUNNING proc0) false Outside).

Lemma demo_sys_initial : initial demo_sys.
Proof. done. Qed.

Lemma no_lost_wakeup_witness :
  exists s, reachable ChTicks 2 s /\ s_lk s = None /\ s_cond s = true /\ q_pc (s_slot s 0%nat) = Off true /\
    p_state (q_proc (s_slot s 0%nat)) <> SLEEPING /\
    exists s', steps ChTicks 2 s s' /\ q_pc (s_slot s' 0%nat) = Holding /\ s_cond s' = true.
Proof.
  eassert (reachable ChTicks 2 _) as Hr.
  { eapply reach_step; [|apply (st_release _ _ _ 1); [lia|]].
    1: eapply reach_step; [|apply (st_scan_done _ _ _ 1); [lia|]].
    1: eapply reach_step; [|apply (st_scan_me _ _ _ 1); [lia|]].
    1: eapply reach_step; [|apply (st_scan_wake _ _ _ 1 0); [lia|]].
    1: eapply reach_step; [|apply (st_scan_lock _ _ _ 1 0); [lia|lia|lia| |]].
    1: eapply reach_step; [|apply (st_signal _ _ _ 1); [lia|]].
    1: eapply reach_step; [|apply (st_acquire _ _ _ 1); [lia| |]].
    1: eapply reach_step; [|apply (st_switched _ _ _ 0 true); [lia|]].
    1: eapply reach_step; [|apply (st_sleep_state _ _ _ 0); [lia|]].
    1: eapply reach_step; [|apply (st_sleep_unlock _ _ _ 0); [lia|]].
    1: eapply reach_step; [|apply (st_sleep_lock _ _ _ 0); [lia| |]].
    1: eapply reach_step; [|apply (st_sleep _ _ _ 0); [lia| |]].
    1: eapply reach_step; [|apply (st_acquire _ _ _ 0); [lia| |]].
    1: apply reach_init, demo_sys_initial.
    all: reflexivity. }
  eexists. split; [exact Hr|]. split; [reflexivity|]. split; [reflexivity|]. split; [reflexivity|].
  destruct (no_lost_wakeup _ _ _ 0 Hr) as [Hn Hs]; [reflexivity|reflexivity|lia|]. split; [exact Hn|].
  apply Hs. do 4 apply list_elem_of_further. apply list_elem_of_here.
Defined.
