(* ===== verification/ProcProps.v ===== *)
(** * Properties of exec, the start of a process, wait, kill and the scheduler

    Proved over views of the process table: the code between two writes to
    the table is framed. *)
From S2P Require Import Prelude Params Sleeplock CString Interfaces Bio Log BlockInst Fs Kalloc Vm Pipe Console Kernel File Proc Exec Sysfile Syscall Trap Frame.

(** ** exec *)

(** The tables of processes and files. *)
Definition tables (s : kern) : list proc * nat * list file := (ks_proc s, ks_me s, ks_ftable s).
#[export] Instance tables_view : TableView tables.
Proof. by split. Qed.

Ltac frames := frame_with idtac.

Section exec.
Context `{Machine}.

Lemma tables_proc_pagetable p : frame tables (proc_pagetable p).
Proof. unfold proc_pagetable. frames. Qed.
Lemma tables_proc_freepagetable pt sz : frame tables (proc_freepagetable pt sz).
Proof. unfold proc_freepagetable. frames. Qed.
#[local] Hint Resolve tables_proc_pagetable tables_proc_freepagetable : keeps.
Lemma tables_load_segments n off ip pt sz : frame tables (load_segments n off ip pt sz).
Proof. revert off sz. induction n as [|n IH]; intros off sz; cbn [load_segments]; unfold loadseg; frames. Qed.
#[local] Hint Resolve tables_load_segments : keeps.

(** Each argument puts one pointer on ustack. *)
Lemma push_args_tables argv argc pt sp base us s v : tables s = v ->
  wlx (push_args argv argc pt sp base us) s
    (fun r s' => tables s' = v /\ forall sp' us', r = Some (sp', us') ->
       length us' = (length us + length argv)%nat /\ (argv = [] \/ argc + Z.of_nat (length argv) <= MAXARG)) (fun _ => True).
Proof.
  revert argc sp us s. induction argv as [|a argv IH]; intros argc sp us s Hv; cbn [push_args].
  - apply wlx_ret. split; [done|]. intros sp' us' [= <- <-]. split; [cbn; lia|by left].
  - destruct (Z.leb_spec MAXARG argc); [by apply wlx_ret|]. destruct (_ <? base); [by apply wlx_ret|].
    eapply (wlx_keep tables); [apply frame_vm, _|exact Hv|done|]. intros r s1 H1. destruct (r <? 0); [by apply wlx_ret|].
    eapply wlx_mono; [by apply IH| |done]. cbn beta. intros o s2 (H2 & Ho). split; [done|].
    intros sp' us' E. destruct (Ho _ _ E) as [Hl Hb]. rewrite length_app in Hl. cbn [length] in *. split; [lia|right].
    destruct Hb as [->|Hb]; cbn; lia.
Qed.

(** What a successful exec does to the process. *)
Definition new_image (path : bytes) (pt sz : Z) (p : proc) : proc :=
  set_sz sz (set_pagetable pt (set_name (splice (p_name p) 0 (safestrcpy 16 (str_at (last_elem path path)))) p)).

Lemma exec_stack_tables path argv elf pt sz s v : tables s = v ->
  wlx (exec_stack path argv elf pt sz) s
    (fun r s' => r = -1 /\ tables s' = v \/
       r = Z.of_nat (length argv) /\ Z.of_nat (length argv) <= MAXARG /\
       exists pt sz, tables s' = (alter (new_image path pt sz) v.1.2 v.1.1, v.1.2, v.2)) (fun _ => True).
Proof.
  intros Hv. unfold exec_stack. do 2 (eapply (wlx_keep tables); [solve [frames]|exact Hv|done|]; clear dependent s; intros ? s Hv).
  destruct (_ =? 0).
  { eapply (wlx_keep tables); [solve [frames]|exact Hv|done|]. intros ? s1 H1. apply wlx_ret. by left. }
  eapply (wlx_keep tables); [solve [frames]|exact Hv|done|]. clear dependent s. intros _ s Hv. apply wlx_bind.
  eapply wlx_mono; [by apply push_args_tables| |done]. cbn beta. clear dependent s. intros [[sp us]|] s [Hv Hus].
  2:{ eapply (wlx_keep tables); [solve [frames]|exact Hv|done|]. intros ? s1 H1. apply wlx_ret. by left. }
  destruct (Hus sp us eq_refl) as [Hlen Hmax]. destruct (_ <? _).
  { eapply (wlx_keep tables); [solve [frames]|exact Hv|done|]. intros ? s1 H1. apply wlx_ret. by left. }
  eapply (wlx_keep tables); [solve [frames]|exact Hv|done|]. clear dependent s. intros r s Hv. destruct (_ <? 0).
  { eapply (wlx_keep tables); [solve [frames]|exact Hv|done|]. intros ? s1 H1. apply wlx_ret. by left. }
  eapply (wlx_keep tables); [solve [frames]|exact Hv|done|]. clear dependent s. intros _ s Hv.
  apply wlx_bind, wlx_modify, wlx_bind, wlx_modify. remember (set_procs _ _) as s1 eqn:Hs1.
  assert (exists pt sz, tables s1 = (alter (new_image path pt sz) v.1.2 v.1.1, v.1.2, v.2)) as (pt1 & sz1 & Hv1).
  { eexists _, _. subst s1 v. unfold tables. cbn. by rewrite list_alter_alter_eq. }
  do 3 (eapply (wlx_keep tables); [solve [frames]|exact Hv1|done|]; clear dependent s1; intros ? s1 Hv1).
  apply wlx_ret. right. cbn in Hlen. split_and!; [lia| |eauto]. destruct Hmax as [->|]; [done|lia].
Qed.

Lemma kexec_tables path argv s v : tables s = v ->
  wlx (kexec path argv) s
    (fun r s' => r = -1 /\ tables s' = v \/
       r = Z.of_nat (length argv) /\ Z.of_nat (length argv) <= MAXARG /\
       exists pt sz, tables s' = (alter (new_image path pt sz) v.1.2 v.1.1, v.1.2, v.2)) (fun _ => True).
Proof.
  intros Hv. unfold kexec.
  assert (forall (m : M kern unit) s, frame tables m -> tables s = v -> wlx (m ;;; ret (-1)) s
    (fun r s' => r = -1 /\ tables s' = v \/ r = Z.of_nat (length argv) /\ Z.of_nat (length argv) <= MAXARG /\
       exists pt sz, tables s' = (alter (new_image path pt sz) v.1.2 v.1.1, v.1.2, v.2)) (fun _ => True)) as Hfail.
  { intros m s1 Hm H1. eapply (wlx_keep tables); [exact Hm|exact H1|done|]. intros ? s2 H2. apply wlx_ret. by left. }
  do 2 (eapply (wlx_keep tables); [solve [frames]|exact Hv|done|]; clear dependent s; intros ? s Hv).
  destruct (_ : option nat) as [ip|]; [|apply Hfail; [solve [frames]|done]].
  do 2 (eapply (wlx_keep tables); [solve [frames]|exact Hv|done|]; clear dependent s; intros ? s Hv).
  destruct (negb _); [apply Hfail; [solve [frames]|done]|]. destruct (negb _); [apply Hfail; [solve [frames]|done]|].
  do 2 (eapply (wlx_keep tables); [solve [frames]|exact Hv|done|]; clear dependent s; intros ? s Hv).
  destruct (_ =? 0); [apply Hfail; [solve [frames]|done]|].
  eapply (wlx_keep tables); [solve [frames]|exact Hv|done|]. clear dependent s. intros [sz|sz] s Hv.
  - eapply (wlx_keep tables); [solve [frames]|exact Hv|done|]. intros ? s1 H1. apply Hfail; [solve [frames]|done].
  - eapply (wlx_keep tables); [solve [frames]|exact Hv|done|]. intros ? s1 H1. by apply exec_stack_tables.
Qed.

(** ** The first return to user space *)

(** What the trampoline and the next trap find: the user's registers are those
    of the trapframe, sret goes to user mode with interrupts enabled and traps
    come to [usertrap] on the process's kernel stack. *)
Record returns (regs : trapregs) (s : kern) (u : userregs) : Prop := {
  rt_satp : u_satp u = MAKE_SATP (p_pagetable (me s));
  rt_sepc : u_sepc u = tf_get (me s) TF_epc s;
  rt_stvec : u_stvec u = TRAMPOLINE + (uservec - trampoline);
  rt_mode : Z.testbit (u_sstatus u) 8 = false /\ Z.testbit (u_sstatus u) 5 = true;
  rt_kernel_satp : tf_get (me s) TF_kernel_satp s = u64 (r_satp regs);
  rt_kernel_sp : tf_get (me s) TF_kernel_sp s = u64 (p_kstack (me s) + PGSIZE);
  rt_kernel_trap : tf_get (me s) TF_kernel_trap s = u64 usertrap_addr;
  rt_kernel_hartid : tf_get (me s) TF_kernel_hartid s = u64 (r_tp regs) }.

(** The fields of the trapframe that are the user's. *)
Definition user_field (off : Z) : Prop := off = TF_epc \/ TF_kernel_hartid + 8 <= off.

Lemma sstatus_user x : let y := Z.lor (Z.land x (Z.lnot SSTATUS_SPP)) SSTATUS_SPIE in Z.testbit y 8 = false /\ Z.testbit y 5 = true.
Proof. cbv zeta. rewrite !Z.lor_spec, !Z.land_spec, !Z.lnot_spec by lia. split; [by rewrite andb_false_r|by rewrite orb_true_r]. Qed.

(** Reading one field of the trapframe past stores to others. *)
Ltac tf_fields := unfold tf_get; cbn; rewrite !load64_store_ne by (unfold TF_kernel_satp, TF_kernel_sp, TF_kernel_trap, TF_kernel_hartid; lia).
Lemma prepare_return_wp regs s : wp (prepare_return regs (r_sstatus regs)) s (fun u s' =>
  returns regs s' u /\ tables s' = tables s /\ forall off, user_field off -> tf_get (me s) off s' = tf_get (me s) off s).
Proof.
  unfold prepare_return, tf_set. wp_steps. set (p := me s).
  match goal with |- returns _ ?s1 _ /\ _ => assert (me s1 = p) as Hme by done end.
  match goal with |- returns _ ?s1 _ /\ _ => assert (forall off, user_field off -> tf_get p off s1 = tf_get p off s) as Huser end.
  { intros off Ho. unfold user_field, TF_epc, TF_kernel_hartid in Ho. by tf_fields. }
  split; [|done]. split; rewrite ?Hme; cbn [u_satp u_sepc u_stvec u_sstatus]; try done.
  - apply sstatus_user.
  - tf_fields. apply load64_store_same.
  - tf_fields. apply load64_store_same.
  - tf_fields. apply load64_store_same.
  - apply load64_store_same.
Qed.
(** The process keeps its trapframe when its image is replaced. *)
Lemma image_trapframe path pt sz s s' : tables s' = (alter (new_image path pt sz) (ks_me s) (ks_proc s), ks_me s, ks_ftable s) ->
  p_trapframe (me s') = p_trapframe (me s).
Proof.
  unfold tables. intros [= Hp Hm _]. unfold me, proc_at. rewrite Hp, Hm, !list_lookup_total_alt, list_lookup_alter_eq. by destruct (ks_proc s !! ks_me s).
Qed.

Lemma wlx_wp {A} (m : M kern A) s Q X : wp m s Q -> wlx m s Q X.
Proof. unfold wp, wpt, wlx. by destruct (m s). Qed.

Lemma forkret_first regs s : wlx (forkret true regs) s (fun r s' =>
  (exists u, r = (false, u, TRAMPOLINE + (userret - trampoline)) /\ returns regs s' u) /\ tf_get (me s') TF_a0 s' = 1 /\
  exists pt sz, tables s' = (alter (new_image INIT pt sz) (ks_me s) (ks_proc s), ks_me s, ks_ftable s)) (fun _ => True).
Proof.
  unfold forkret. cbn [when]. apply wlx_bind, wlx_gets. apply wlx_bind.
  eapply (wlx_keep tables); [solve [frames]|exact (eq_refl (tables s))|done|]. intros _ s1 H1.
  apply wlx_bind. eapply wlx_mono; [by apply (kexec_tables INIT [INIT] s1 (tables s))| |done]. intros r s2 Hr. cbn beta.
  apply wlx_bind, wlx_modify, wlx_bind, wlx_gets. set (s3 := set_kmem _ s2).
  assert (tf_get (me s) TF_a0 s3 = u64 (u64 r)) as -> by apply load64_store_same.
  destruct Hr as [[-> _]|(-> & _ & pt & sz & Ht)]; [done|].
  change (tables s3 = (alter (new_image INIT pt sz) (ks_me s) (ks_proc s), ks_me s, ks_ftable s)) in Ht.
  change (u64 (u64 (Z.of_nat (length [INIT])))) with 1. cbv iota beta delta [when]. apply wlx_ret, wlx_bind.
  eapply wlx_mono; [apply (wlx_wp _ _ _ (fun _ => True)), prepare_return_wp| |done]. intros u s4 (Hu & Ht4 & Hf). apply wlx_ret. rewrite Ht4, Ht.
  split; [by exists u|]. split; [|eauto]. pose proof (image_trapframe INIT pt sz s s3 Ht) as Etf.
  assert (p_trapframe (me s4) = p_trapframe (me s3)) as E4 by (unfold me, proc_at; by injection Ht4 as -> ->).
  specialize (Hf TF_a0 ltac:(right; unfold TF_a0, TF_kernel_hartid; lia)). unfold tf_get in *. rewrite E4, Hf, Etf. apply load64_store_same.
Qed.
End exec.

(** ** kill *)

Definition kills (s : kern) : list Z := p_killed <$> ks_proc s.
#[export] Instance kills_view : TableView kills.
Proof. by split. Qed.

Lemma kills_modify_proc i f : (forall p, p_killed (f p) = p_killed p) -> frame kills (modify_proc i f).
Proof. intros Hf. apply frame_modify. intros s. apply (fmap_alter_same p_killed f i (ks_proc s) Hf). Qed.
Ltac kill_frames := frame_with ltac:(idtac; lazymatch goal with |- frame kills (modify_proc _ _) => apply kills_modify_proc; done end).

Section kill.
Context `{Machine}.

Lemma kills_proc_pagetable p : frame kills (proc_pagetable p).
Proof. unfold proc_pagetable. kill_frames. Qed.
#[local] Hint Resolve kills_proc_pagetable : keeps.

(** The slot [allocproc] returns is the first unused one; its killed flag is
    what it was. *)
Lemma allocproc_killed s v i p : kills s = v -> list_find (fun p => p_state p = UNUSED) (ks_proc s) = Some (i, p) ->
  wlx allocproc s (fun r s' => forall j, r = Some j -> j = i /\ kills s' = v) (fun _ => True).
Proof.
  intros Hv Hi. unfold allocproc, allocpid. apply wlx_bind, wlx_gets. rewrite Hi.
  do 4 (eapply (wlx_keep kills); [solve [kill_frames]|exact Hv|done|]; clear dependent s; intros ? s Hv).
  assert (forall (m : M kern unit) (s1 : kern), wlx (m ;;; ret None) s1
    (fun (r : option nat) s' => forall j, r = Some j -> j = i /\ kills s' = v) (fun _ => True)) as Hnone.
  { intros m s1. apply wlx_bind. unfold wlx. by destruct (m s1) as [| |[]]. }
  destruct (_ =? 0); [apply Hnone|].
  do 3 (eapply (wlx_keep kills); [solve [kill_frames]|exact Hv|done|]; clear dependent s; intros ? s Hv).
  destruct (_ =? 0); [apply Hnone|].
  eapply (wlx_keep kills); [solve [kill_frames]|exact Hv|done|]. intros ? s1 H1. apply wlx_ret. by intros j [= <-].
Qed.

(** C29. kill(0) succeeds and kills a process that does not exist yet: unused
    slots have pid 0, so the scan stops at the first of them and marks it, and
    the next allocproc hands out that slot without clearing the mark.  (An
    unused slot has pid 0 and a used one has not, by freeproc and allocpid.) *)
Theorem kill_zero_kills_next_child s : (forall p, p ∈ ks_proc s -> p_pid p = 0 <-> p_state p = UNUSED) ->
  (exists p, p ∈ ks_proc s /\ p_state p = UNUSED) ->
  wlx (let! r := kkill 0 in let! np := allocproc in ret (r, np)) s
    (fun r s' => r.1 = 0 /\ forall i, r.2 = Some i -> p_killed (proc_at i s') = 1) (fun _ => True).
Proof.
  intros Hpid (p0 & Hin & Hun). unfold kkill.
  destruct (list_find (fun p => p_pid p = 0) (ks_proc s)) as [[i p]|] eqn:Hf.
  2:{ apply list_find_None in Hf. rewrite Forall_forall in Hf. destruct (Hf p0 Hin). by apply Hpid. }
  apply wlx_bind, wlx_bind, wlx_gets. rewrite Hf. apply list_find_Some in Hf as (Hi & Hp & Hbefore).
  apply wlx_bind, wlx_modify, wlx_ret. set (s1 := set_procs (alter kill_one i (ks_proc s)) s).
  assert (ks_proc s1 !! i = Some (kill_one p)) as Hi1 by (cbn; by rewrite list_lookup_alter_eq, Hi).
  assert (p_state p = UNUSED) as Hst by (apply Hpid; [by eapply list_elem_of_lookup_2|done]).
  assert (list_find (fun p => p_state p = UNUSED) (ks_proc s1) = Some (i, kill_one p)) as Hfind.
  { apply list_find_Some. split_and!; [done|unfold kill_one; by rewrite Hst|]. intros j q Hq Hj. cbn in Hq.
    rewrite list_lookup_alter_ne in Hq by lia. intros Hqs. apply (Hbefore j q Hq Hj), Hpid; [|done]. by eapply list_elem_of_lookup_2. }
  apply wlx_bind. eapply wlx_mono; [by apply (allocproc_killed s1 (kills s1) i (kill_one p))| |done].
  cbn beta. intros r s2 Hr. apply wlx_ret. split; [done|]. cbn [fst snd]. intros j ->. destruct (Hr j eq_refl) as [-> Hk].
  unfold proc_at. rewrite list_lookup_total_alt.
  assert (kills s2 !! i = Some 1) as Hk2 by (rewrite Hk; unfold kills; by rewrite list_lookup_fmap, Hi1).
  unfold kills in Hk2. rewrite list_lookup_fmap in Hk2. destruct (ks_proc s2 !! i); [|done]. by injection Hk2.
Qed.
End kill.

(** A kernel with a running process, an unused slot and eight free pages. *)
Module KillDemo.
#[local] Instance machine : Machine := {|
  kend := 0x80021000; trampoline := 0x80007000; uservec := 0; userret := 0; usertrap_addr := 0; forkret_addr := 0;
  stat_padding := [0; 0; 0; 0] |}.
Definition page (i : Z) : Z := 0x80030000 + i * PGSIZE.
Definition pages : mem :=
  foldr (fun i m => store64 m (page i) (if i =? 7 then 0 else page (i + 1))) (fun _ => 0) (seqZ 0 8).
Definition running : proc :=
  mkProc RUNNING None 0 0 1 None 0 0 0 0 (0, 0) (replicate 16 None) None (replicate 16 0).
Definition state : kern :=
  mkKern (mkLst (mkBst [] ∅ 1) 0 0 false 1 0 []) (mkSb 0 0 0 0 0 0 0 0) [] (mkKst pages (page 0)) (mkCons [] 0 0 0) false
    [] ∅ [running; proc0] 0 0 2 0.
Definition outcome_ok (o : outcome kern (Z * option nat)) : bool :=
  match o with
  | Ret (r, Some i) s' _ => (r =? 0) && bool_decide (i = 1%nat) && (p_killed (proc_at i s') =? 1)
  | _ => false
  end.

(** The theorem applies, and the slot is handed out with the mark set. *)
Lemma kill_zero_witness :
  wlx (let! r := kkill 0 in let! np := allocproc in ret (r, np)) state
    (fun r s' => r.1 = 0 /\ forall i, r.2 = Some i -> p_killed (proc_at i s') = 1) (fun _ => True) /\
  outcome_ok ((let! r := kkill 0 in let! np := allocproc in ret (r, np)) state) = true.
Proof.
  split.
  - apply (kill_zero_kills_next_child state).
    + intros p Hp. apply elem_of_cons in Hp as [->|Hp]; [split; discriminate|].
      apply elem_of_cons in Hp as [->|Hp]; [split; reflexivity|]. by apply elem_of_nil in Hp.
    + exists proc0. split; [right; left|reflexivity].
  - vm_compute. reflexivity.
Defined.
End KillDemo.

(** ** wait *)

Section wait.
Context `{Machine}.

Definition is_child (s : kern) (p : proc) : Prop := p_parent p = Some (ks_me s).
#[export] Instance is_child_dec s p : Decision (is_child s p).
Proof. unfold is_child. apply _. Defined.
Definition is_zombie_child (s : kern) (p : proc) : Prop := is_child s p /\ p_state p = ZOMBIE.
#[export] Instance is_zombie_child_dec s p : Decision (is_zombie_child s p).
Proof. unfold is_zombie_child. apply _. Defined.

Lemma proc_at_lookup s i p : ks_proc s !! i = Some p -> proc_at i s = p.
Proof. apply list_lookup_total_correct. Qed.

(** Without a zombie child, the scan finds out whether there are children. *)
Lemma kwait_scan_none s addr n i hk : (i + n = length (ks_proc s))%nat ->
  Forall (fun p => ~ is_zombie_child s p) (drop i (ks_proc s)) ->
  kwait_scan n i addr hk s = Ret (inr (hk || bool_decide (Exists (is_child s) (drop i (ks_proc s))))) s [].
Proof.
  revert i hk. induction n as [|n IH]; intros i hk Hn Hz; cbn [kwait_scan].
  - rewrite drop_ge by lia. rewrite bool_decide_false by (by intros ?%Exists_nil). by rewrite orb_false_r.
  - assert (i < length (ks_proc s))%nat as [p Hp]%lookup_lt_is_Some_2 by lia. pose proof (drop_S _ _ _ Hp) as Hd. rewrite Hd in *.
    apply Forall_cons in Hz as [Hzp Hz]. unfold bind at 1 2, gets at 1 2. rewrite (proc_at_lookup s i p Hp).
    assert (forall b, kwait_scan n (S i) addr b s = Ret (inr (b || bool_decide (Exists (is_child s) (drop (S i) (ks_proc s))))) s []) as IHb
      by (intros b; apply IH; [lia|done]).
    destruct (decide (p_parent p = Some (ks_me s))) as [Hc|Hc].
    + rewrite (bool_decide_true (p_parent p = _)), (bool_decide_false (p_state p = _)) by (done || by intros Hst; apply Hzp).
      rewrite IHb. cbn [app]. rewrite (bool_decide_true (Exists _ (p :: _))) by (by left). by rewrite orb_true_r.
    + rewrite (bool_decide_false (p_parent p = _)) by done. rewrite IHb. cbn [app]. do 3 f_equal.
      apply bool_decide_ext. rewrite Exists_cons. unfold is_child at 2. tauto.
Qed.

Definition procs (s : kern) : list proc := ks_proc s.
#[export] Instance procs_view : TableView procs.
Proof. by split. Qed.

Lemma procs_freepagetable pt sz : frame procs (proc_freepagetable pt sz).
Proof. unfold proc_freepagetable. frames. Qed.
#[local] Hint Resolve procs_freepagetable : keeps.

Lemma freeproc_procs i s ps : ks_proc s = ps -> wlx (freeproc i) s (fun _ s' => ks_proc s' = alter clear_proc i ps) (fun _ => True).
Proof.
  intros Hv. unfold freeproc. do 2 (eapply (wlx_keep procs); [solve [frames]|exact Hv|done|]; clear dependent s; intros ? s Hv).
  apply wlx_bind, wlx_modify. remember (set_procs _ s) as s1 eqn:Hs1.
  assert (procs s1 = alter (set_trapframe 0) i ps) as H1 by by rewrite Hs1, <- Hv.
  eapply (wlx_keep procs); [solve [frames]|exact H1|done|]. intros ? s2 H2. apply wlx_modify. cbn.
  change (ks_proc s2) with (procs s2). rewrite H2, list_alter_alter_eq. by apply list_alter_ext.
Qed.

Lemma kwait_scan_zombie s addr k p n i hk : (i + n = length (ks_proc s))%nat -> (i <= k)%nat ->
  ks_proc s !! k = Some p -> is_zombie_child s p ->
  (forall j q, (i <= j < k)%nat -> ks_proc s !! j = Some q -> ~ is_zombie_child s q) ->
  wlx (kwait_scan n i addr hk) s
    (fun r s' => (addr = 0 -> r = inl (p_pid p)) /\
       (r = inl (-1) /\ ks_proc s' = ks_proc s \/ r = inl (p_pid p) /\ ks_proc s' = alter clear_proc k (ks_proc s))) (fun _ => True).
Proof.
  revert i hk. induction n as [|n IH]; intros i hk Hn Hik Hk [Hc Hz] Hbefore.
  { apply lookup_lt_Some in Hk. lia. }
  cbn [kwait_scan]. apply wlx_bind, wlx_gets, wlx_bind, wlx_gets. cbn beta.
  destruct (decide (i = k)) as [->|Hne].
  - rewrite (proc_at_lookup s k p Hk), bool_decide_true, bool_decide_true by done. destruct (Z.eqb_spec addr 0) as [->|Ha].
    + apply wlx_bind, wlx_ret. cbn. apply wlx_bind. eapply wlx_mono; [by apply freeproc_procs| |done].
      cbn beta. intros _ s2 H2. apply wlx_ret. auto.
    + eapply (wlx_keep procs); [apply frame_vm, _|done|done|]. intros r s1 H1. destruct (r <? 0); [apply wlx_ret; split; [done|by left]|].
      apply wlx_bind. eapply wlx_mono; [by apply freeproc_procs| |done].
      cbn beta. intros _ s2 H2. apply wlx_ret. auto.
  - assert (i < length (ks_proc s))%nat as [q Hq]%lookup_lt_is_Some_2 by lia. rewrite (proc_at_lookup s i q Hq).
    assert (forall b, wlx (kwait_scan n (S i) addr b) s
      (fun r s' => (addr = 0 -> r = inl (p_pid p)) /\
       (r = inl (-1) /\ ks_proc s' = ks_proc s \/ r = inl (p_pid p) /\ ks_proc s' = alter clear_proc k (ks_proc s))) (fun _ => True)) as Hnext.
    { intros b. apply IH; [lia|lia|done|done|]. intros j q' Hj. apply Hbefore. lia. }
    case_bool_decide as Hqc; [|done]. rewrite bool_decide_false; [done|]. intros Hqz. by apply (Hbefore i q); [lia|done|].
Qed.

End wait.

(** The parent in slot 0, a zombie child with pid 7 in slot 1. *)
Module WaitDemo.
#[local] Existing Instance KillDemo.machine.
Definition zombie : proc := mkProc ZOMBIE None 0 42 7 (Some 0%nat) 0 0 0 0 (0, 0) (replicate 16 None) None (replicate 16 0).
Definition state : kern :=
  mkKern (mkLst (mkBst [] ∅ 1) 0 0 false 1 0 []) (mkSb 0 0 0 0 0 0 0 0) [] (mkKst (fun _ => 0) 0) (mkCons [] 0 0 0) false
    [] ∅ (KillDemo.running :: zombie :: replicate 62 proc0) 0 0 2 0.

End WaitDemo.

(** ** The scheduler *)

Section scheduler.
Context (run : nat -> M kern unit).

Definition started (i : nat) (s : kern) : kern := set_current i (set_procs (alter (set_state RUNNING) i (ks_proc s)) s).

Lemma pick_wp i s (Q : bool -> kern -> Prop) :
  (if bool_decide (p_state (proc_at i s) = RUNNABLE) then wp (run i) (started i s) (fun _ s' => Q true s') else Q false s) ->
  wp (scheduler_pick run i) s Q.
Proof.
  intros HQ. unfold scheduler_pick. apply wp_bind, wp_gets. destruct (bool_decide _); [|by apply wp_ret].
  apply wp_bind, wp_modify, wp_bind, wp_modify, wp_bind. eapply wp_mono; [exact HQ|]. intros ? s' Hs'. by apply wp_ret.
Qed.

(** A pass over the table runs every process that is ready, whatever the others
    do when they run, as long as they give the hart back. *)
Context (j : nat) (ready ran : kern -> Prop) (Hready : forall s, ready s -> p_state (proc_at j s) = RUNNABLE)
  (Hother : forall i s, i <> j -> ready s -> wp (run i) (started i s) (fun _ => ready))
  (Hrun : forall s, ready s -> wp (run j) (started j s) (fun _ => ran))
  (Hafter : forall i s, ran s -> wp (run i) (started i s) (fun _ => ran)).

Lemma scheduler_after n i found s : ran s -> wp (scheduler_from run n i found) s (fun f s' => (found = true -> f = true) /\ ran s').
Proof.
  revert i found s. induction n as [|n IH]; intros i found s Hs; cbn [scheduler_from]; [by apply wp_ret|].
  apply wp_bind, pick_wp. destruct (bool_decide _); [eapply wp_mono; [by apply Hafter|]; cbn beta; intros _ s1 H1|];
    (eapply wp_mono; [by apply IH|]; intros f s' [Hf Hs']; split; [intros ->; by apply Hf|done]).
Qed.

Lemma scheduler_reaches n i found s : (i <= j < i + n)%nat -> ready s -> wp (scheduler_from run n i found) s (fun f s' => f = true /\ ran s').
Proof.
  revert i found s. induction n as [|n IH]; intros i found s Hj Hs; [lia|]. cbn [scheduler_from]. apply wp_bind, pick_wp.
  destruct (decide (i = j)) as [->|Hne].
  - rewrite bool_decide_true by by apply Hready. eapply wp_mono; [by apply Hrun|]. cbn beta. intros _ s1 H1.
    eapply wp_mono; [by apply scheduler_after|]. intros f s' [Hf Hs']. split; [|done]. apply Hf, orb_true_r.
  - destruct (bool_decide _); [eapply wp_mono; [by apply Hother|]; cbn beta; intros _ s1 H1|]; apply IH; (lia || done).
Qed.

Lemma scheduler_fair s : (j < Z.to_nat NPROC)%nat -> ready s -> wp (scheduler_pass run) s (fun found s' => found = true /\ ran s').
Proof. intros Hj. apply scheduler_reaches. lia. Qed.
End scheduler.
