(* ===== verification/Umalloc.v ===== *)
(** * The user-level allocator ([user/umalloc.c])

    A circular list of free blocks, ordered by address, threaded through the
    headers in the heap.  Addresses are bytes; [mem] gives the header stored
    at an address.  A header is 16 bytes and sizes count headers. *)
From S2P Require Import Prelude Params.

Record header : Set := mkHeader { h_ptr : Z; h_size : Z }.

Record heap : Type := mkHeap {
  m_mem : Z -> header;
  m_freep : Z;      (* 0 before the first call of malloc *)
  m_brk : Z }.      (* the end of the heap, which sbrk moves *)

Definition HDR : Z := 16.   (* sizeof(Header) *)
Definition SBRK_ERROR : Z := -1.

Definition upd_hdr (p : Z) (h : header) (m : Z -> header) : Z -> header := fun q => if decide (q = p) then h else m q.
Definition set_ptr (p q : Z) (s : heap) : heap :=
  mkHeap (upd_hdr p (mkHeader q (h_size (m_mem s p))) (m_mem s)) (m_freep s) (m_brk s).
Definition set_size (p n : Z) (s : heap) : heap :=
  mkHeap (upd_hdr p (mkHeader (h_ptr (m_mem s p)) n) (m_mem s)) (m_freep s) (m_brk s).
Definition set_freep (p : Z) (s : heap) : heap := mkHeap (m_mem s) p (m_brk s).

Definition ptr_of (p : Z) : M heap Z := gets (fun s => h_ptr (m_mem s p)).
Definition size_of (p : Z) : M heap Z := gets (fun s => h_size (m_mem s p)).

Section umalloc.
(** &base, where the heap starts, and whether the kernel grants more memory. *)
Context (base start : Z) (grant : Z -> Z -> bool).

(** A list of headers in the heap and base is walked at most twice. *)
Definition fuel (s : heap) : nat := Z.to_nat (2 * ((m_brk s - start) / HDR) + 8).

Definition sbrk (n : Z) : M heap Z :=
  let! b := gets m_brk in
  if grant b n then modify (fun s => mkHeap (m_mem s) (m_freep s) (b + n)) ;;; ret b else ret SBRK_ERROR.

(** The loop of [free]: the block after which bp belongs. *)
Fixpoint free_find (fuel : nat) (bp p : Z) : M heap Z :=
  match fuel with
  | O => undefined_behaviour "free: fuel"
  | S fuel =>
      let! q := ptr_of p in
      if (p <? bp) && (bp <? q) then ret p
      else if (q <=? p) && ((p <? bp) || (bp <? q)) then ret p
      else free_find fuel bp q
  end.

(** Join bp to the block after p, or link it. *)
Definition join_upper (bp p : Z) : M heap unit :=
  let! q := ptr_of p in
  let! sz := size_of bp in
  if bp + HDR * sz =? q then
    let! qsz := size_of q in
    modify (set_size bp (u32 (sz + qsz))) ;;;
    let! qq := ptr_of q in
    modify (set_ptr bp qq)
  else modify (set_ptr bp q).

(** Join bp to p, or link it after p. *)
Definition join_lower (bp p : Z) : M heap unit :=
  let! psz := size_of p in
  if p + HDR * psz =? bp then
    let! sz := size_of bp in
    modify (set_size p (u32 (psz + sz))) ;;;
    let! q := ptr_of bp in
    modify (set_ptr p q)
  else modify (set_ptr p bp).

Definition free (ap : Z) : M heap unit :=
  let bp := ap - HDR in
  let! n := gets fuel in
  let! p := gets m_freep in
  let! p := free_find n bp p in
  join_upper bp p ;;;
  join_lower bp p ;;;
  modify (set_freep p).

(** The argument of sbrk is an int. *)
Definition morecore (nu : Z) : M heap Z :=
  let nu := if nu <? 4096 then 4096 else nu in
  let! p := sbrk (i32 (nu * HDR)) in
  if p =? SBRK_ERROR then ret 0
  else
    modify (set_size p nu) ;;;
    free (p + HDR) ;;;
    gets m_freep.

(** Block p is big enough: unlink it, or cut off its tail. *)
Definition take_block (nunits prevp p : Z) : M heap Z :=
  let! sz := size_of p in
  let! p :=
    if sz =? nunits then
      let! q := ptr_of p in
      modify (set_ptr prevp q) ;;;
      ret p
    else
      modify (set_size p (sz - nunits)) ;;;
      let p := p + HDR * (sz - nunits) in
      modify (set_size p nunits) ;;;
      ret p in
  modify (set_freep prevp) ;;;
  ret (p + HDR).

Fixpoint malloc_loop (fuel : nat) (nunits prevp p : Z) : M heap Z :=
  match fuel with
  | O => undefined_behaviour "malloc: fuel"
  | S fuel =>
      let! sz := size_of p in
      if nunits <=? sz then take_block nunits prevp p
      else
        let! f := gets m_freep in
        if p =? f then
          let! p := morecore nunits in
          if p =? 0 then ret 0
          else let! q := ptr_of p in malloc_loop fuel nunits p q
        else let! q := ptr_of p in malloc_loop fuel nunits p q
  end.

Definition malloc (nbytes : Z) : M heap Z :=
  let nunits := u32 ((nbytes + HDR - 1) / HDR + 1) in
  let! f := gets m_freep in
  when (f =? 0)
    (modify (set_freep base) ;;;
     modify (fun s => mkHeap (upd_hdr base (mkHeader base 0) (m_mem s)) (m_freep s) (m_brk s))) ;;;
  let! prevp := gets m_freep in
  let! p := ptr_of prevp in
  let! n := gets fuel in
  malloc_loop n nunits prevp p.
End umalloc.
