(* ===== verification/UmallocInv.v ===== *)
(** * The user-level allocator: the free list *)
From S2P Require Import Prelude Params Umalloc.

Abbreviation block := (Z * Z)%type.   (* address of the header, size in headers *)
Definition bend (b : block) : Z := b.1 + HDR * b.2.
Definition disj (a b : block) : Prop := bend a <= b.1 \/ bend b <= a.1.

(** ** Lists of headers in memory *)

Section lists.
Implicit Types (m : Z -> header) (l : list Z) (L : list block).

(** From x through l to z. *)
Fixpoint linked m (x : Z) l (z : Z) : Prop :=
  match l with
  | [] => h_ptr (m x) = z
  | y :: l => h_ptr (m x) = y /\ linked m y l z
  end.
Fixpoint path m (x : Z) l : Prop :=
  match l with
  | [] => True
  | y :: l => h_ptr (m x) = y /\ path m y l
  end.
Fixpoint last_of (x : Z) l : Z := match l with [] => x | y :: l => last_of y l end.
Definition head_or (z : Z) l : Z := match l with [] => z | y :: _ => y end.

Lemma linked_split m x l1 l2 z : linked m x (l1 ++ l2) z <-> path m x l1 /\ linked m (last_of x l1) l2 z.
Proof. revert x. induction l1 as [|y l1 IH]; intros x; simpl; [tauto|]. rewrite IH. tauto. Qed.
Lemma path_app m x l1 l2 : path m x (l1 ++ l2) <-> path m x l1 /\ path m (last_of x l1) l2.
Proof. revert x. induction l1 as [|y l1 IH]; intros x; simpl; [tauto|]. rewrite IH. tauto. Qed.
Lemma last_of_app x l1 l2 : last_of x (l1 ++ l2) = last_of (last_of x l1) l2.
Proof. revert x. induction l1 as [|y l1 IH]; intros x; simpl; [done|apply IH]. Qed.
Lemma linked_head m x l z : linked m x l z -> h_ptr (m x) = head_or z l.
Proof. destruct l; simpl; tauto. Qed.
Lemma linked_path m x l z : linked m x l z <-> path m x l /\ h_ptr (m (last_of x l)) = z.
Proof. rewrite <- (app_nil_r l) at 1. apply linked_split. Qed.
Lemma last_of_in x l : last_of x l ∈ x :: l.
Proof. revert x. induction l as [|y l IH]; intros x; simpl; [left|right; apply IH]. Qed.

Lemma path_frame m m' x l : NoDup (x :: l) -> (forall q, q ∈ x :: l -> q <> last_of x l -> h_ptr (m' q) = h_ptr (m q)) ->
  path m x l -> path m' x l.
Proof.
  revert x. induction l as [|y l IH]; intros x Hd Hf; simpl; [done|]. intros [Hx Hp].
  apply NoDup_cons in Hd as [Hn Hd]. split.
  - rewrite Hf; [done|left|]. intros E. apply Hn. rewrite E. simpl. apply last_of_in.
  - apply IH; [done| |done]. intros q Hq Hne. apply Hf; [by right|done].
Qed.
Lemma linked_frame m m' x l z : (forall q, q ∈ x :: l -> h_ptr (m' q) = h_ptr (m q)) -> linked m x l z -> linked m' x l z.
Proof.
  revert x. induction l as [|y l IH]; intros x Hf; simpl; [intros <-; apply Hf; left|]. intros [<- Hl].
  split; [apply Hf; left|]. apply IH; [|done]. intros q Hq. apply Hf. by right.
Qed.

(** Blocks in order of address, with gaps between them. *)
Fixpoint ordered (lo : Z) L : Prop :=
  match L with
  | [] => True
  | b :: L => lo < b.1 /\ 1 <= b.2 /\ ordered (bend b) L
  end.
Fixpoint end_of (lo : Z) L : Z := match L with [] => lo | b :: L => end_of (bend b) L end.

Lemma ordered_app lo L1 L2 : ordered lo (L1 ++ L2) <-> ordered lo L1 /\ ordered (end_of lo L1) L2.
Proof. revert lo. induction L1 as [|b L1 IH]; intros lo; simpl; [tauto|]. rewrite IH. tauto. Qed.
Lemma ordered_lo lo lo' L : lo' <= lo -> ordered lo L -> ordered lo' L.
Proof. destruct L; simpl; [done|]. intros ? (? & ? & ?). split; [lia|done]. Qed.
Lemma ordered_in lo L b : ordered lo L -> b ∈ L -> lo < b.1 /\ 1 <= b.2 /\ bend b <= end_of lo L.
Proof.
  revert lo. induction L as [|c L IH]; intros lo; simpl; [by intros _ ?%elem_of_nil|]. intros (H1 & H2 & H3).
  assert (forall lo, ordered lo L -> lo <= end_of lo L) as Hend.
  { clear. induction L as [|c L IH]; intros lo; simpl; [lia|]. intros (? & ? & ?). specialize (IH (bend c) ltac:(done)). unfold bend, HDR in *. lia. }
  intros [->|Hb]%elem_of_cons; [split; [done|]; split; [done|by apply Hend]|].
  destruct (IH _ H3 Hb) as (? & ? & ?). unfold bend, HDR in *. split_and!; lia.
Qed.
Lemma end_of_app lo L1 L2 : end_of lo (L1 ++ L2) = end_of (end_of lo L1) L2.
Proof. revert lo. induction L1 as [|b L1 IH]; intros lo; simpl; [done|apply IH]. Qed.
Lemma end_of_last lo L b : end_of lo (L ++ [b]) = bend b.
Proof. by rewrite end_of_app. Qed.
Lemma end_of_le lo L x : lo <= x -> (forall b, b ∈ L -> bend b <= x) -> end_of lo L <= x.
Proof.
  revert lo. induction L as [|b L IH]; intros lo Hlo HL; simpl; [done|]. apply IH; [apply HL; left|]. intros c Hc. apply HL. by right.
Qed.

Lemma ordered_nodup lo L : ordered lo L -> NoDup (lo :: L.*1).
Proof.
  revert lo. induction L as [|b L IH]; intros lo; [intros _; apply NoDup_singleton|]. intros Ho. pose proof Ho as (H1 & H2 & H3).
  apply NoDup_cons. split.
  - rewrite list_elem_of_fmap. intros (c & -> & Hc). by destruct (ordered_in _ _ _ Ho Hc) as [? _]; lia.
  - specialize (IH _ H3). apply NoDup_cons in IH as [_ IH]. cbn. apply NoDup_cons. split; [|done].
    rewrite list_elem_of_fmap. intros (c & E & Hc). destruct (ordered_in _ _ _ H3 Hc) as [? _]. unfold bend, HDR in *. lia.
Qed.

(** Blocks of at least one header: the list is no longer than the heap. *)
Lemma ordered_length lo L : ordered lo L -> HDR * Z.of_nat (length L) <= end_of lo L - lo.
Proof.
  revert lo. induction L as [|b L IH]; intros lo; simpl; [lia|]. intros (? & ? & Ho). specialize (IH _ Ho). unfold bend, HDR in *. lia.
Qed.

(** Where a block that overlaps none of the list belongs. *)
Lemma ordered_split lo L b : ordered lo L -> 1 <= b.2 -> (forall c, c ∈ L -> disj b c) ->
  exists L1 L2, L = L1 ++ L2 /\ (forall c, c ∈ L1 -> bend c <= b.1) /\ (forall c, c ∈ L2 -> bend b <= c.1).
Proof.
  revert lo. induction L as [|c L IH]; intros lo Ho Hb Hd; [exists [], []; split; [done|]; split; by intros ? ?%elem_of_nil|].
  destruct Ho as (H1 & H2 & H3). destruct (Hd c ltac:(left)) as [Hlt|Hgt].
  - exists [], (c :: L). split; [done|]. split; [by intros ? ?%elem_of_nil|]. intros c' [->|Hc]%elem_of_cons; [done|].
    destruct (ordered_in _ _ _ H3 Hc) as [? _]. unfold bend, HDR in *. lia.
  - destruct (IH _ H3 Hb) as (L1 & L2 & -> & Hl1 & Hl2); [intros c' Hc; apply Hd; by right|].
    exists (c :: L1), L2. split; [done|]. split; [|done]. intros c' [->|Hc]%elem_of_cons; [done|by apply Hl1].
Qed.
End lists.

(** No two blocks overlap. *)
Fixpoint apart (A : list block) : Prop :=
  match A with
  | [] => True
  | a :: A => (forall c, c ∈ A -> disj a c) /\ apart A
  end.

Lemma apart_mid A1 b A2 : apart (A1 ++ b :: A2) -> apart (A1 ++ A2) /\ forall a, a ∈ A1 ++ A2 -> disj b a.
Proof.
  induction A1 as [|c A1 IH]; simpl; [tauto|]. intros [Hc Ha]. destruct (IH Ha) as [IH1 IH2]. split.
  - split; [|done]. intros a Hin. apply Hc. rewrite elem_of_app, elem_of_cons in *. tauto.
  - intros a [->|Hin]%elem_of_cons; [|by apply IH2]. destruct (Hc b); [rewrite elem_of_app, elem_of_cons; tauto|by right|by left].
Qed.

Definition units (L : list block) : Z := foldr (fun b n => b.2 + n) 0 L.
Lemma units_app L1 L2 : units (L1 ++ L2) = units L1 + units L2.
Proof. induction L1 as [|b L1 IH]; simpl; lia. Qed.

Lemma units_cons b L : units (b :: L) = b.2 + units L.
Proof. done. Qed.

Section inv.
Context (base start limit : Z) (grant : Z -> Z -> bool).
Context (Hbase : 0 < base < start) (Hlimit : limit - start < 2^36).
Implicit Types (m : Z -> header) (L A : list block) (s : heap).

Record flist m L : Prop := {
  fl_link : linked m base L.*1 base;
  fl_size : forall b, b ∈ L -> h_size (m b.1) = b.2;
  fl_base : h_size (m base) = 0;
  fl_ord : ordered base L }.

(** L is the free list, A the blocks that malloc has handed out. *)
Record heap_inv s L A : Prop := {
  hi_list : flist (m_mem s) L;
  hi_freep : m_freep s ∈ base :: L.*1;
  hi_brk : start <= m_brk s <= limit;
  hi_range : forall b, b ∈ L ++ A -> start <= b.1 /\ 1 <= b.2 /\ bend b <= m_brk s;
  hi_hdr : forall b, b ∈ A -> h_size (m_mem s b.1) = b.2;
  hi_live : apart A;
  hi_sep : forall b a, b ∈ L -> a ∈ A -> disj b a }.

Lemma flist_nodup m L : flist m L -> NoDup (base :: L.*1).
Proof. intros F. apply ordered_nodup, F. Qed.

(** ** The search of [free] *)

Lemma find_below m bp l2 : forall l x fuel s, m_mem s = m -> path m x l -> linked m (last_of x l) l2 base ->
  (forall q, q ∈ x :: l -> base <= q < bp) -> (forall k a b, (x :: l) !! k = Some a -> (x :: l) !! S k = Some b -> a < b) ->
  (forall q, q ∈ l2 -> bp < q) -> (length l < fuel)%nat ->
  free_find fuel bp x s = Ret (last_of x l) s [].
Proof.
  induction l as [|y l IH]; intros x fuel s Hm Hp Hl Hlt Hasc Hgt Hf; (destruct fuel as [|fuel]; [simpl in Hf; lia|]);
    cbn [free_find]; unfold bind, ptr_of, gets; rewrite Hm.
  - cbn [last_of]. cbn [last_of] in Hl. rewrite (linked_head _ _ _ _ Hl). destruct (Hlt x ltac:(left)) as [Hx1 Hx2].
    destruct l2 as [|z l2]; cbn [head_or].
    + replace (bp <? base) with false by lia. replace (base <=? x) with true by lia.
      replace (x <? bp) with true by lia. done.
    + specialize (Hgt z ltac:(left)). replace (x <? bp) with true by lia. by replace (bp <? z) with true by lia.
  - destruct Hp as [Hx Hp]. rewrite Hx. destruct (Hlt y ltac:(right; left)) as [_ Hy]. specialize (Hasc 0%nat x y eq_refl eq_refl) as Hxy.
    replace (bp <? y) with false by lia. rewrite andb_false_r. replace (y <=? x) with false by lia. cbn [andb].
    rewrite (IH y fuel s); try done; [intros q Hq; apply Hlt; by right| |simpl in Hf; lia].
    intros k a b Ha Hb. by apply (Hasc (S k)).
Qed.

Lemma find_above m bp (l1 : list Z) v : forall l x fuel s, m_mem s = m -> linked m x l base -> base < bp ->
  (forall q, q ∈ x :: l -> bp < q) -> (forall k a b, (x :: l) !! k = Some a -> (x :: l) !! S k = Some b -> a < b) ->
  (forall fuel, (length l1 < fuel)%nat -> free_find fuel bp base s = Ret v s []) -> (length l + 1 + length l1 < fuel)%nat ->
  free_find fuel bp x s = Ret v s [].
Proof.
  induction l as [|y l IH]; intros x fuel s Hm Hl Hb Hgt Hasc Hr Hf; (destruct fuel as [|fuel]; [simpl in Hf; lia|]);
    cbn [free_find]; unfold bind, ptr_of, gets; rewrite Hm; pose proof (Hgt x ltac:(left)) as Hx.
  - cbn in Hl. rewrite Hl. replace (x <? bp) with false by lia. replace (bp <? base) with false by lia. cbn [andb orb].
    rewrite andb_false_r, Hr by (simpl in Hf; lia). done.
  - destruct Hl as [Hxy Hl]. rewrite Hxy. specialize (Hasc 0%nat x y eq_refl eq_refl) as Hlt.
    replace (x <? bp) with false by lia. replace (y <=? x) with false by lia. cbn [andb].
    rewrite (IH y fuel s); try done; [intros q Hq; apply Hgt; by right| |simpl in Hf; lia].
    intros k a b Ha Hb'. by apply (Hasc (S k)).
Qed.

Lemma ordered_asc x lo L k a b : ordered lo L -> x <= lo -> (x :: L.*1) !! k = Some a -> (x :: L.*1) !! S k = Some b -> a < b.
Proof.
  revert x lo k. induction L as [|c L IH]; intros x lo k Ho Hx; [by destruct k|]. destruct Ho as (H1 & H2 & H3).
  destruct k as [|k]; cbn.
  - intros [= <-] [= <-]. lia.
  - apply (IH c.1 (bend c) k); [done|unfold bend, HDR; lia].
Qed.

Lemma lookup_mid {B} (x : B) (l l' : list B) k : (x :: l ++ l') !! S (length l + k) = l' !! k.
Proof. change ((l ++ l') !! (length l + k)%nat = l' !! k). rewrite lookup_app_r by lia. f_equal. lia. Qed.

(** The block before bp, from wherever freep is. *)
Lemma free_find_ok s L1 L2 bp p : flist (m_mem s) (L1 ++ L2) -> base < bp ->
  (forall c, c ∈ L1 -> c.1 < bp) -> (forall c, c ∈ L2 -> bp < c.1) -> p ∈ base :: (L1 ++ L2).*1 ->
  forall fuel, (2 * length (L1 ++ L2) + 2 < fuel)%nat -> free_find fuel bp p s = Ret (last_of base L1.*1) s [].
Proof.
  intros [Hl _ _ Ho] Hb H1 H2 Hp fuel Hf. rewrite fmap_app in *. apply linked_split in Hl as [Hp1 Hl2].
  apply ordered_app in Ho as [Ho1 Ho2]. rewrite length_app in Hf.
  assert (forall q, q ∈ L1.*1 -> base <= q < bp) as Hq1.
  { intros q (c & -> & Hc)%list_elem_of_fmap. destruct (ordered_in _ _ _ Ho1 Hc) as [? _]. specialize (H1 c Hc). lia. }
  assert (forall q, q ∈ L2.*1 -> bp < q) as Hq2 by (intros q (c & -> & Hc)%list_elem_of_fmap; by apply H2).
  assert (forall q, q ∈ base :: L1.*1 -> base <= q < bp) as Hq1' by (intros q [->|Hq]%elem_of_cons; [lia|by apply Hq1]).
  assert (forall fuel, (length L1.*1 < fuel)%nat -> free_find fuel bp base s = Ret (last_of base L1.*1) s []) as Hfrom.
  { intros n Hn. eapply (find_below (m_mem s) bp L2.*1); try done. intros k a b. eapply ordered_asc; [exact Ho1|lia]. }
  apply elem_of_cons in Hp as [->|[Hp|Hp]%elem_of_app].
  - apply Hfrom. rewrite length_fmap. lia.
  - apply list_elem_of_split in Hp as (l & l' & E). rewrite E, path_app in Hp1. destruct Hp1 as [_ [_ Hp1]].
    rewrite E, last_of_app in Hl2 |- *. cbn [last_of] in *.
    eapply (find_below (m_mem s) bp L2.*1); try done.
    + intros q Hq. apply Hq1. rewrite E, elem_of_app. by right.
    + intros k a b Ha Hb'. eapply (ordered_asc base base L1 (S (length l + k))); [exact Ho1|lia|..]; rewrite E; [by rewrite lookup_mid|].
      rewrite <- Nat.add_succ_r. by rewrite lookup_mid.
    + apply (f_equal length) in E. rewrite length_fmap, length_app in E. cbn in E. lia.
  - apply list_elem_of_split in Hp as (l & l' & E). rewrite E, linked_split in Hl2. destruct Hl2 as [_ [_ Hl2]].
    apply (find_above (m_mem s) bp L1.*1 (last_of base L1.*1) l' p fuel s); try done.
    + intros q Hq. apply Hq2. rewrite E, elem_of_app. by right.
    + intros k a b Ha Hb'. eapply (ordered_asc (end_of base L1) (end_of base L1) L2 (S (length l + k))); [exact Ho2|lia|..]; rewrite E; [by rewrite lookup_mid|].
      rewrite <- Nat.add_succ_r. by rewrite lookup_mid.
    + apply (f_equal length) in E. rewrite length_fmap, length_app in E. rewrite length_fmap. cbn in E. lia.
Qed.

(** ** Joining *)

(** The list after bp has been given its place: block b' and what follows. *)
Definition joined_up m m' L2 (b b' : block) L2' : Prop :=
  (forall x, x <> b.1 -> m' x = m x) /\ m' b.1 = mkHeader (head_or base L2'.*1) b'.2 /\ b'.1 = b.1 /\
  ((b' = b /\ L2' = L2 /\ forall c, c ∈ L2 -> bend b < c.1) \/
   exists c, L2 = c :: L2' /\ bend b = c.1 /\ b' = (b.1, b.2 + c.2)).

Lemma join_upper_ok s L1 L2 b : flist (m_mem s) (L1 ++ L2) -> h_size (m_mem s b.1) = b.2 -> base < b.1 -> 1 <= b.2 ->
  (forall c, c ∈ L2 -> bend b <= c.1 /\ b.2 + c.2 < 2^32) ->
  exists s' b' L2', join_upper b.1 (last_of base L1.*1) s = Ret tt s' [] /\ joined_up (m_mem s) (m_mem s') L2 b b' L2' /\
    m_freep s' = m_freep s /\ m_brk s' = m_brk s.
Proof.
  intros [Hl Hsz _ Ho] Hb Hbase' Hb1 H2. rewrite fmap_app in Hl. apply linked_split in Hl as [_ Hl]. apply ordered_app in Ho as [_ Ho].
  unfold join_upper, bind, ptr_of, size_of, gets, modify. rewrite (linked_head _ _ _ _ Hl), Hb. change (b.1 + HDR * b.2) with (bend b).
  destruct (Z.eqb_spec (bend b) (head_or base L2.*1)) as [E|Hne].
  - destruct L2 as [|c L2]; cbn in E; [unfold bend, HDR in *; lia|]. destruct Hl as [_ Hl]. destruct (H2 c ltac:(left)) as [_ Hlt].
    assert (c.1 <> b.1) as Hcb by (unfold bend, HDR in *; lia). cbn [head_or fmap list_fmap].
    assert (h_size (m_mem s c.1) = c.2) as Hc by (apply Hsz; rewrite elem_of_app; right; left).
    destruct Ho as (_ & Hc1 & _). eexists _, (b.1, b.2 + c.2), L2. split; [reflexivity|]. split; [|done]. cbn. split_and!.
    + intros x Hx. unfold upd_hdr. by rewrite !decide_False by done.
    + rewrite Hc. unfold upd_hdr. rewrite decide_True by done.
      rewrite decide_False by done. rewrite decide_True by done. cbn. f_equal; [by apply linked_head|]. apply u32_id. lia.
    + done.
    + right. by exists c.
  - eexists _, b, L2. split; [reflexivity|]. split; [|done]. cbn. split_and!.
    + intros x Hx. unfold upd_hdr. by rewrite decide_False by done.
    + unfold upd_hdr. rewrite decide_True by done. by rewrite Hb.
    + done.
    + left. split; [done|]. split; [done|]. intros c Hc. destruct (H2 c Hc) as [Hle _]. destruct L2 as [|c0 L2]; [by apply elem_of_nil in Hc|].
      cbn in Hne. apply elem_of_cons in Hc as [->|Hc]; [lia|]. destruct Ho as (_ & Hc0 & Ho). destruct (ordered_in _ _ _ Ho Hc) as [? _].
      destruct (H2 c0 ltac:(left)) as [? _]. unfold bend, HDR in *. lia.
Qed.

(** The free list after [free]. *)
Definition joined L1 (b' : block) L2' L' : Prop :=
  L' = L1 ++ b' :: L2' \/ exists L0 a, L1 = L0 ++ [a] /\ bend a = b'.1 /\ L' = L0 ++ (a.1, a.2 + b'.2) :: L2'.

Lemma last_of_blocks L1 : L1 = [] /\ last_of base L1.*1 = base \/ exists L0 a, L1 = L0 ++ [a] /\ last_of base L1.*1 = a.1.
Proof.
  destruct L1 as [|a L0 _] using rev_ind; [by left|]. right. exists L0, a. by rewrite fmap_app, last_of_app.
Qed.

Section lower.
Context (m m1 : Z -> header) (L1 L2 : list block) (b b' : block) (L2' : list block).
Context (F : flist m (L1 ++ L2)) (Hb : base < b.1) (Hb1 : 1 <= b.2).
Context (H1 : forall c, c ∈ L1 -> bend c <= b.1) (H2 : forall c, c ∈ L2 -> bend b <= c.1).
Context (J : joined_up m m1 L2 b b' L2').
Let p := last_of base L1.*1.

Lemma lower_pred : base <= p < b.1 /\ end_of base L1 <= b.1.
Proof.
  destruct F as [_ _ _ Ho]. apply ordered_app in Ho as [Ho _]. split; [|by apply end_of_le; [lia|]].
  unfold p. destruct (last_of_blocks L1) as [[_ ->]|(L0 & a & E & ->)]; [lia|].
  assert (a ∈ L1) as Ha by (rewrite E, elem_of_app; right; left). destruct (ordered_in _ _ _ Ho Ha) as (? & ? & _).
  specialize (H1 a Ha). unfold bend, HDR in *. lia.
Qed.

Lemma lower_rest : (forall c, c ∈ L2' -> c ∈ L2 /\ bend b' < c.1) /\ ordered (bend b') L2' /\ 1 <= b'.2 /\ b'.1 = b.1.
Proof.
  destruct F as [_ _ _ Ho]. apply ordered_app in Ho as [_ Ho]. destruct J as (_ & _ & Eb & [(-> & -> & Hgt)|(c & -> & E & ->)]).
  - split; [by intros c Hc; split; [|apply Hgt]|]. split; [|by split]. destruct L2 as [|c L]; [done|]. destruct Ho as (_ & ? & ?).
    split; [apply Hgt; left|done].
  - destruct Ho as (? & Hc & Ho). assert (bend (b.1, b.2 + c.2) = bend c) as Eb' by (unfold bend, HDR in *; cbn; lia). rewrite Eb'.
    split; [|split; [done|]; cbn; split; [lia|done]]. intros c' Hc'. split; [by right|]. by apply (ordered_in _ _ _ Ho Hc').
Qed.

Lemma lower_ne c : c ∈ L1 ++ L2' -> c.1 <> b.1 /\ h_size (m1 c.1) = c.2.
Proof.
  intros Hc. assert (c ∈ L1 ++ L2) as Hc'. { apply elem_of_app in Hc as [?|?%(proj1 lower_rest)]; apply elem_of_app; [by left|right; tauto]. }
  destruct F as [_ Hsz _ Ho]. assert (c.1 <> b.1) as Hne.
  { destruct (ordered_in _ _ _ Ho Hc') as (_ & ? & _). apply elem_of_app in Hc' as [Hin|Hin]; [specialize (H1 c Hin)|specialize (H2 c Hin)];
      unfold bend, HDR in *; lia. }
  split; [done|]. destruct J as (Hm & _). rewrite Hm by done. by apply Hsz.
Qed.

Lemma lower_linked : linked m1 b.1 L2'.*1 base.
Proof.
  destruct F as [Hl _ _ _]. rewrite fmap_app in Hl. apply linked_split in Hl as [_ Hl].
  assert (match L2' with [] => True | c :: l => linked m c.1 l.*1 base end) as Ht.
  { destruct J as (_ & _ & _ & [(_ & -> & _)|(c & -> & _)]); [destruct L2; [done|apply Hl]|]. destruct Hl as [_ Hl]. destruct L2'; [done|apply Hl]. }
  pose proof lower_ne as Hne. destruct J as (Hm & Hmb & _). destruct L2' as [|c l]; cbn; rewrite Hmb; [done|]. split; [done|].
  eapply linked_frame; [|exact Ht]. intros q Hq. rewrite Hm; [done|].
  apply (list_elem_of_fmap fst (c :: l)) in Hq as (c' & -> & Hc'). apply (Hne c'). apply elem_of_app. by right.
Qed.

(** The list with p's link, and perhaps size, changed. *)
Lemma lower_path m2 : (forall x, x <> p -> m2 x = m1 x) -> path m2 base L1.*1 /\ linked m2 b.1 L2'.*1 base.
Proof.
  intros Hm2. pose proof (flist_nodup _ _ F) as Hnd. pose proof lower_pred as [[Hp1 Hp2] _]. destruct F as [Hl _ _ Ho]. destruct J as (Hm & _). split.
  - rewrite fmap_app in Hl. apply linked_split in Hl as [Hp _]. eapply path_frame; [| |exact Hp].
    + rewrite fmap_app in Hnd. change (NoDup ((base :: L1.*1) ++ L2.*1)) in Hnd. by apply NoDup_app in Hnd as [? _].
    + intros q Hq Hne. rewrite Hm2 by done. rewrite Hm; [done|]. apply elem_of_cons in Hq as [->|Hq]; [lia|].
      apply list_elem_of_fmap in Hq as (c & -> & Hc). apply lower_ne, elem_of_app. by left.
  - eapply linked_frame; [|apply lower_linked]. intros q Hq. rewrite Hm2; [done|]. apply elem_of_cons in Hq as [->|Hq]; [lia|].
    apply list_elem_of_fmap in Hq as (c & -> & Hc). destruct lower_rest as (Hr & _ & ? & ?). destruct (Hr c Hc). unfold bend, HDR in *. lia.
Qed.

Lemma lower_link m2 : (forall x, x <> p -> m2 x = m1 x) -> h_ptr (m2 p) = b.1 -> h_size (m2 p) = h_size (m1 p) ->
  (L1 = [] \/ bend (default (0, 0) (last L1)) < b.1) -> flist m2 (L1 ++ b' :: L2').
Proof.
  intros Hm2 Hptr Hsize Hgap. destruct (lower_path m2 Hm2) as [Hpath Hlink]. pose proof lower_pred as [[Hp1 Hp2] Hend].
  destruct lower_rest as (Hr & Hor & Hb'1 & Eb). pose proof F as [_ _ H0 Ho]. apply ordered_app in Ho as [Ho1 _].
  assert (forall x, h_size (m2 x) = h_size (m1 x)) as Hsz by (intros x; destruct (decide (x = p)) as [->|]; [done|by rewrite Hm2]).
  split.
  - rewrite fmap_app. apply linked_split. split; [done|]. cbn. fold p. rewrite Hptr, Eb. done.
  - intros c Hc. rewrite Hsz. apply elem_of_app in Hc as [Hc|[->|Hc]%elem_of_cons].
    + apply lower_ne, elem_of_app. by left.
    + destruct J as (_ & Hmb & _). rewrite Eb, Hmb. done.
    + apply lower_ne, elem_of_app. by right.
  - rewrite Hsz. destruct J as (Hm & _). rewrite Hm by lia. done.
  - apply ordered_app. split; [done|]. split; [|done]. rewrite Eb. destruct Hgap as [->|Hgap]; [cbn; lia|].
    destruct L1 as [|a L0 _] using rev_ind; [cbn; lia|]. rewrite end_of_last. by rewrite last_snoc in Hgap.
Qed.

Lemma lower_merge m2 L0 a : L1 = L0 ++ [a] -> bend a = b.1 -> (forall x, x <> p -> m2 x = m1 x) ->
  h_ptr (m2 p) = h_ptr (m1 b.1) -> h_size (m2 p) = a.2 + b'.2 -> flist m2 (L0 ++ (a.1, a.2 + b'.2) :: L2').
Proof.
  intros EL Ea Hm2 Hptr Hsize. destruct (lower_path m2 Hm2) as [Hpath Hlink]. pose proof lower_pred as [[Hp1 Hp2] Hend].
  destruct lower_rest as (Hr & Hor & Hb'1 & Eb). pose proof F as [_ _ H0 Ho]. apply ordered_app in Ho as [Ho1 _].
  assert (p = a.1) as Ep by (unfold p; by rewrite EL, fmap_app, last_of_app).
  rewrite EL in Ho1. pose proof Ho1 as [Ho0 (Ha0 & Ha1 & _)]%ordered_app.
  assert (forall c, c ∈ L0 ++ L2' -> c.1 <> p /\ h_size (m1 c.1) = c.2) as Hne.
  { intros c Hc. split; [|apply lower_ne; rewrite EL, !elem_of_app in *; tauto]. rewrite Ep. apply elem_of_app in Hc as [Hc|Hc].
    - destruct (ordered_in _ _ _ Ho0 Hc) as (_ & ? & ?). unfold bend, HDR in *. lia.
    - destruct (Hr c Hc). unfold bend, HDR in *. lia. }
  assert (base < p) as Hbp by (rewrite Ep; eapply (ordered_in _ _ a Ho1); apply elem_of_app; right; left).
  split.
  - rewrite EL, fmap_app, path_app in Hpath. destruct Hpath as [Hpath [Hpa _]].
    rewrite fmap_app. apply linked_split. split; [done|]. cbn. split; [done|]. rewrite <- Ep.
    pose proof lower_linked as Hl'. clear -Hl' Hlink Hptr. destruct L2' as [|c l]; cbn in *; rewrite Hptr; [done|]. split; [apply Hl'|apply Hlink].
  - intros c Hc. apply elem_of_app in Hc as [Hc|[->|Hc]%elem_of_cons]; [|by cbn; rewrite <- Ep|].
    + destruct (Hne c) as [? <-]; [apply elem_of_app; by left|]. by rewrite Hm2.
    + destruct (Hne c) as [? <-]; [apply elem_of_app; by right|]. by rewrite Hm2.
  - rewrite Hm2 by lia. destruct J as (Hm & _). rewrite Hm by lia. done.
  - apply ordered_app. split; [done|]. cbn. split; [done|]. split; [lia|].
    replace (bend (a.1, a.2 + b'.2)) with (bend b'); [done|]. unfold bend, HDR in *. cbn. lia.
Qed.
End lower.

(** ** [free] *)

(** A block inside the heap, apart from the live ones. *)
Definition placed (brk : Z) A (b : block) : Prop := start <= b.1 /\ 1 <= b.2 /\ bend b <= brk /\ forall a, a ∈ A -> 1 <= a.2 /\ disj b a.

Lemma placed_glue brk A a b : placed brk A a -> placed brk A b -> bend a = b.1 -> placed brk A (a.1, a.2 + b.2).
Proof.
  intros (? & ? & ? & Ha) (? & ? & ? & Hb) E. unfold placed, bend, HDR, disj in *. cbn. split_and!; try lia.
  intros c Hc. destruct (Ha c Hc) as [? Hd], (Hb c Hc) as [_ Hd']. split; [done|]. unfold bend, HDR in *. cbn in *. lia.
Qed.

Lemma joined_placed brk A m m' L1 L2 b b' L2' L' : (forall c, c ∈ L1 ++ L2 -> placed brk A c) -> placed brk A b ->
  joined_up m m' L2 b b' L2' -> joined L1 b' L2' L' ->
  (forall c, c ∈ L' -> placed brk A c) /\ placed brk A b' /\ units L' = units (L1 ++ L2) + b.2 /\
  (length L' <= length (L1 ++ L2) + 1)%nat /\ exists c, c ∈ L' /\ b.2 <= c.2.
Proof.
  intros HL Hb J Hj. assert (placed brk A b' /\ (forall c, c ∈ L1 ++ L2' -> placed brk A c) /\ b.2 <= b'.2 /\ units L2' + b'.2 = units L2 + b.2 /\
    (length L2' <= length L2)%nat) as (Hb' & HL' & Hle & Hun & Hlen).
  { destruct J as (_ & _ & _ & [(-> & -> & _)|(c & -> & E & ->)]); [by split_and!|].
    assert (placed brk A c) as Hc by (apply HL; rewrite elem_of_app, elem_of_cons; tauto).
    split; [by apply placed_glue|]. split; [intros c' Hc'; apply HL; rewrite elem_of_app, elem_of_cons in *; tauto|].
    destruct Hc as (_ & ? & _). rewrite units_cons. cbn [snd length]. lia. }
  destruct Hj as [->|(L0 & a & -> & E & ->)].
  - rewrite !units_app, units_cons. split; [|split; [done|split; [lia|split; [rewrite !length_app in *; cbn [length]; lia|]]]].
    + intros c Hc. rewrite elem_of_app, elem_of_cons in Hc. destruct Hc as [?|[->|?]]; [|done|]; apply HL', elem_of_app; tauto.
    + exists b'. split; [rewrite elem_of_app, elem_of_cons; tauto|done].
  - assert (placed brk A a) as Ha by (apply HL'; rewrite !elem_of_app, list_elem_of_singleton; tauto).
    rewrite !units_app, !units_cons. change (units []) with 0. cbn [fst snd].
    split; [|split; [done|split; [lia|split; [rewrite !length_app in *; cbn [length]; lia|]]]].
    + intros c Hc. rewrite elem_of_app, elem_of_cons in Hc. destruct Hc as [?|[->|?]]; [|by apply placed_glue|]; apply HL'; rewrite !elem_of_app; tauto.
    + exists (a.1, a.2 + b'.2). split; [rewrite elem_of_app, elem_of_cons; tauto|]. destruct Ha as (_ & ? & _). cbn. lia.
Qed.

Lemma join_lower_ok s m L1 L2 b b' L2' : flist m (L1 ++ L2) -> base < b.1 -> 1 <= b.2 -> (forall c, c ∈ L1 -> bend c <= b.1) ->
  (forall c, c ∈ L2 -> bend b <= c.1) -> joined_up m (m_mem s) L2 b b' L2' -> (forall c, c ∈ L1 -> c.2 + b'.2 < 2^32) ->
  exists s' L', join_lower b.1 (last_of base L1.*1) s = Ret tt s' [] /\ joined L1 b' L2' L' /\ flist (m_mem s') L' /\
    last_of base L1.*1 ∈ base :: L'.*1 /\ m_freep s' = m_freep s /\ m_brk s' = m_brk s /\
    (forall x, x <> b.1 -> x <> last_of base L1.*1 -> m_mem s' x = m x).
Proof.
  intros F Hb Hb1 H1 H2 J Hu. set (p := last_of base L1.*1).
  pose proof (lower_pred m L1 L2 b F Hb H1) as [[Hp1 Hp2] _]. fold p in Hp1, Hp2. pose proof J as (Hm & Hmb & Eb & _).
  destruct (lower_rest m (m_mem s) L1 L2 b b' L2' F Hb1 H2 J) as (_ & _ & Hb'1 & _).
  unfold join_lower, bind, ptr_of, size_of, gets, modify.
  assert ((L1 = [] \/ bend (default (0, 0) (last L1)) < b.1) /\ p + HDR * h_size (m_mem s p) <> b.1 \/
    exists L0 a, L1 = L0 ++ [a] /\ p = a.1 /\ h_size (m_mem s p) = a.2 /\ bend a = b.1) as Hcase.
  { rewrite Hm by lia. destruct (last_of_blocks L1) as [[E Ep]|(L0 & a & E & Ep)]; fold p in Ep; rewrite Ep.
    - left. split; [by left|]. rewrite (fl_base _ _ F). lia.
    - assert (a ∈ L1) as Ha by (rewrite E, elem_of_app; right; left). rewrite (fl_size _ _ F a) by (apply elem_of_app; by left).
      destruct (decide (bend a = b.1)); [right; by exists L0, a|left]. split; [right|done]. rewrite E, last_snoc. specialize (H1 a Ha). cbn. lia. }
  destruct Hcase as [[Hgap Hne]|(L0 & a & E & Ep & Hsz & Ea)].
  - rewrite (proj2 (Z.eqb_neq _ _) Hne). eexists _, (L1 ++ b' :: L2'). split; [reflexivity|]. split; [by left|]. split.
    + eapply (lower_link m (m_mem s) L1 L2 b b' L2'); try done; cbn; unfold upd_hdr; [|by rewrite decide_True..].
      intros x Hx. by rewrite decide_False.
    + split; [rewrite fmap_app; pose proof (last_of_in base L1.*1); rewrite elem_of_cons, elem_of_app in *; tauto|].
      split_and!; try done. intros x Hx Hxp. cbn. unfold upd_hdr. rewrite decide_False by done. by apply Hm.
  - rewrite Hsz. replace (p + HDR * a.2 =? b.1) with true by (unfold bend in Ea; lia).
    eexists _, (L0 ++ (a.1, a.2 + b'.2) :: L2'). split; [reflexivity|]. split; [right; exists L0, a; by rewrite Eb|].
    assert (a ∈ L1) as Ha by (rewrite E, elem_of_app; right; left). split.
    + eapply (lower_merge m (m_mem s) L1 L2 b b' L2'); try done; cbn; unfold upd_hdr.
      * intros x Hx. fold p in Hx. by rewrite !decide_False.
      * fold p. rewrite decide_True by done. cbn. by rewrite decide_False by lia.
      * fold p. rewrite decide_True by done. cbn. rewrite decide_True by done. cbn. rewrite Hmb. cbn. apply u32_id. specialize (Hu a Ha).
        destruct (ordered_in _ _ a (fl_ord _ _ F)) as (_ & ? & _); [apply elem_of_app; by left|]. lia.
    + split; [rewrite Ep, fmap_app, elem_of_cons, elem_of_app; cbn; rewrite elem_of_cons; tauto|].
      split_and!; try done. intros x Hx Hxp. cbn. unfold upd_hdr. rewrite !decide_False by done. by apply Hm.
Qed.

Lemma list_fuel s L A : heap_inv s L A -> (2 * length L + 5 < fuel start s)%nat.
Proof.
  intros [[_ _ _ Ho] _ Hbrk Hr _ _ _]. assert (ordered (start - 1) L) as Ho'.
  { destruct L as [|b L]; [done|]. destruct Ho as (_ & ? & ?). destruct (Hr b ltac:(left)). split; [lia|done]. }
  pose proof (ordered_length _ _ Ho') as Hl. assert (end_of (start - 1) L <= m_brk s).
  { apply end_of_le; [lia|]. intros b Hb. apply Hr, elem_of_app. by left. }
  unfold fuel. assert (Z.of_nat (length L) <= (m_brk s - start) / HDR + 1); [|lia].
  assert (Z.of_nat (length L) - 1 <= (m_brk s - start) / HDR); [|lia]. apply Z.div_le_lower_bound; unfold HDR in *; lia.
Qed.

Lemma free_ok s L A1 b A2 : heap_inv s L (A1 ++ b :: A2) -> exists s' L', free start (b.1 + HDR) s = Ret tt s' [] /\
  heap_inv s' L' (A1 ++ A2) /\ units L' = units L + b.2 /\ m_brk s' = m_brk s /\
  (length L' <= length L + 1)%nat /\ exists c, c ∈ L' /\ b.2 <= c.2.
Proof.
  intros I. pose proof (list_fuel _ _ _ I) as Hfuel. destruct I as [F Hfp Hbrk Hr Hh Hlive Hsep]. set (A := A1 ++ A2).
  assert (b ∈ A1 ++ b :: A2) as HbA by (rewrite elem_of_app, elem_of_cons; tauto).
  assert (forall a, a ∈ A -> a ∈ A1 ++ b :: A2) as HA by (unfold A; intros a; rewrite !elem_of_app, elem_of_cons; tauto).
  destruct (apart_mid A1 b A2 Hlive) as [Hlive' Hdisj].
  destruct (Hr b) as (Hb0 & Hb1 & Hb2); [apply elem_of_app; by right|].
  assert (placed (m_brk s) A b) as Hbp.
  { split_and!; try done. intros a Ha. split; [apply Hr, elem_of_app; right; by apply HA|by apply Hdisj]. }
  assert (forall c, c ∈ L -> placed (m_brk s) A c) as HLp.
  { intros c Hc. destruct (Hr c) as (? & ? & ?); [apply elem_of_app; by left|]. split_and!; try done. intros a Ha.
    split; [apply Hr, elem_of_app; right; by apply HA|apply Hsep; [done|by apply HA]]. }
  destruct (ordered_split base L b (fl_ord _ _ F) Hb1) as (L1 & L2 & -> & H1 & H2).
  { intros c Hc. destruct (Hsep c b Hc HbA); [by right|by left]. }
  assert (forall c d, placed (m_brk s) A c -> placed (m_brk s) A d -> bend c <= d.1 -> c.2 + d.2 < 2^32) as Hsum.
  { intros c d (? & ? & ? & _) (? & ? & ? & _) E. unfold bend, HDR in *. lia. }
  assert (forall c, c ∈ L1 -> c.1 < b.1) as H1'.
  { intros c Hc. specialize (H1 c Hc). destruct (HLp c) as (_ & ? & _); [apply elem_of_app; by left|]. unfold bend, HDR in *. lia. }
  assert (forall c, c ∈ L2 -> b.1 < c.1) as H2' by (intros c Hc; specialize (H2 c Hc); unfold bend, HDR in *; lia).
  unfold free, bind. cbn [gets]. unfold gets. replace (b.1 + HDR - HDR) with b.1 by lia.
  rewrite (free_find_ok s L1 L2 b.1 (m_freep s) F) by (done || lia).
  destruct (join_upper_ok s L1 L2 b F) as (s1 & b' & L2' & -> & J & Hf1 & Hk1); [by apply Hh|lia|done| |].
  { intros c Hc. split; [by apply H2|]. apply Hsum; [done|apply HLp, elem_of_app; by right|by apply H2]. }
  assert (placed (m_brk s) A b') as Hb'.
  { destruct (joined_placed (m_brk s) A _ _ L1 L2 b b' L2' (L1 ++ b' :: L2') HLp Hbp J) as (_ & ? & _); [by left|done]. }
  destruct (join_lower_ok s1 (m_mem s) L1 L2 b b' L2' F) as (s2 & L' & -> & Hj & F' & Hp & Hf2 & Hk2 & Hm2); try done; [lia| |].
  { intros c Hc. apply Hsum; [apply HLp, elem_of_app; by left|done|]. destruct J as (_ & _ & -> & _). by apply H1. }
  destruct (joined_placed (m_brk s) A _ _ L1 L2 b b' L2' L' HLp Hbp J Hj) as (HL' & _ & Hun & Hbig).
  exists (set_freep (last_of base L1.*1) s2), L'. split; [done|]. split; [|by cbn; rewrite Hk2, Hk1].
  split; cbn; rewrite ?Hk2, ?Hk1; try done.
  - intros c [Hc|Hc]%elem_of_app; [destruct (HL' c Hc) as (? & ? & ? & _); done|]. apply Hr, elem_of_app. right. by apply HA.
  - intros a Ha. rewrite Hm2; [by apply Hh, HA|..].
    + destruct Hbp as (_ & _ & _ & Hd). destruct (Hd a Ha) as [? [?|?]]; unfold bend, HDR in *; lia.
    + destruct (last_of_blocks L1) as [[_ ->]|(L0 & c & E & ->)].
      * destruct (Hr a) as (? & _); [apply elem_of_app; right; by apply HA|lia].
      * destruct (HLp c) as (_ & ? & _ & Hd); [rewrite E, !elem_of_app, list_elem_of_singleton; tauto|].
        destruct (Hd a Ha) as [? [?|?]]; unfold bend, HDR in *; lia.
  - intros c a Hc Ha. destruct (HL' c Hc) as (_ & _ & _ & Hd). by apply Hd.
Qed.

(** ** [malloc] *)

Lemma rotate m l x : linked m base l base -> x ∈ base :: l -> exists r, linked m x r x /\ x :: r ≡ₚ base :: l.
Proof.
  intros Hl [->|Hx]%elem_of_cons; [by exists l|]. apply list_elem_of_split in Hx as (l1 & l2 & ->).
  apply linked_split in Hl as [Hp [Hx Hl]]. exists (l2 ++ base :: l1). split; [|solve_Permutation].
  apply linked_path in Hl as [Hp2 Hb]. apply linked_split. split; [done|]. cbn. split; [done|]. by apply linked_path.
Qed.

(** The block before a block of the list. *)
Lemma pred_unique m L prev b : flist m L -> prev ∈ base :: L.*1 -> b ∈ L -> h_ptr (m prev) = b.1 ->
  exists L1 L2, L = L1 ++ b :: L2 /\ prev = last_of base L1.*1.
Proof.
  intros F Hp Hb Hptr. pose proof (flist_nodup _ _ F) as Hnd. destruct F as [Hl _ _ _].
  apply list_elem_of_split in Hb as (L1 & L2 & ->). exists L1, L2. split; [done|].
  rewrite fmap_app in *. cbn in *.
  assert (forall l x y z, path m x l -> h_ptr (m (last_of x l)) = z -> NoDup (x :: l) -> y ∈ x :: l -> h_ptr (m y) = z -> z ∉ x :: l -> y = last_of x l) as Huniq.
  { clear. induction l as [|w l IH]; intros x y z Hp Hz Hnd Hy Hyz Hn; [by apply list_elem_of_singleton in Hy|].
    destruct Hp as [Hx Hp]. apply NoDup_cons in Hnd as [Hnx Hnd]. apply elem_of_cons in Hy as [->|Hy].
    - exfalso. apply Hn. rewrite <- Hyz, Hx. right. left.
    - apply (IH w y z); try done. intros Hin. apply Hn. by right. }
  apply linked_split in Hl as [Hp1 [Hb1 Hl2]]. change (NoDup ((base :: L1.*1) ++ b.1 :: L2.*1)) in Hnd.
  apply NoDup_app in Hnd as (Hnd1 & Hdis & Hnd2).
  assert (b.1 ∉ base :: L1.*1) as Hnb by (intros Hin; apply (Hdis _ Hin); left).
  change (prev ∈ (base :: L1.*1) ++ b.1 :: L2.*1) in Hp. apply elem_of_app in Hp as [Hp|Hp]; [by eapply Huniq|].
  exfalso. apply linked_path in Hl2 as [Hp2 Hlast].
  assert (forall l x y, path m x l -> h_ptr (m (last_of x l)) = base -> y ∈ x :: l -> h_ptr (m y) = base \/ h_ptr (m y) ∈ l) as Hsucc.
  { clear. induction l as [|w l IH]; intros x y Hp Hb Hy; [apply list_elem_of_singleton in Hy as ->; by left|].
    destruct Hp as [Hx Hp]. apply elem_of_cons in Hy as [->|Hy]; [right; rewrite Hx; left|].
    destruct (IH w y Hp Hb Hy); [by left|right; by right]. }
  destruct (Hsucc _ _ _ Hp2 Hlast Hp) as [E|E]; rewrite Hptr in E.
  - apply Hnb. rewrite E. left.
  - apply NoDup_cons in Hnd2 as [? _]. done.
Qed.

Definition got (Q : outcome heap Z) s (nunits : Z) L A : Prop :=
  exists s' L' a, Q = Ret (a + HDR) s' [] /\ heap_inv s' L' ((a, nunits) :: A) /\ units L' = units L - nunits /\ m_brk s' = m_brk s.

Lemma ordered_disj lo L1 b L2 c : ordered lo (L1 ++ b :: L2) -> c ∈ L1 ++ L2 -> 1 <= b.2 /\ 1 <= c.2 /\ disj c b.
Proof.
  intros [Ho1 (Hb & Hb1 & Ho2)]%ordered_app [Hc|Hc]%elem_of_app; (split; [done|]).
  - destruct (ordered_in _ _ _ Ho1 Hc) as (_ & ? & ?). split; [done|]. left. lia.
  - destruct (ordered_in _ _ _ Ho2 Hc) as (? & ? & _). split; [done|]. right. lia.
Qed.

(** A block goes from the free list to the live blocks, whole or in part. *)
Lemma take_inv s s' L1 b L2 R n a A : heap_inv s (L1 ++ b :: L2) A -> flist (m_mem s') (L1 ++ R ++ L2) ->
  m_freep s' = last_of base L1.*1 -> m_brk s' = m_brk s -> b.1 <= a -> bend (a, n) = bend b -> 1 <= n ->
  (forall c, c ∈ R -> c.1 = b.1 /\ 1 <= c.2 /\ bend c <= a) -> h_size (m_mem s' a) = n ->
  (forall x, x <> b.1 -> x <> a -> h_size (m_mem s' x) = h_size (m_mem s x)) -> heap_inv s' (L1 ++ R ++ L2) ((a, n) :: A).
Proof.
  intros [F Hfp Hbrk Hr Hh Hlive Hsep] F' Hfp' Hk Ha Hend Hn HR Hsz Hoth. pose proof (fl_ord _ _ F) as Ho.
  assert (forall c, c ∈ L1 ++ L2 -> c ∈ L1 ++ b :: L2) as Hin by (intros c; rewrite !elem_of_app, elem_of_cons; tauto).
  assert (b ∈ L1 ++ b :: L2) as Hbin by (rewrite elem_of_app, elem_of_cons; tauto).
  destruct (Hr b) as (Hb0 & Hb1 & Hb2); [apply elem_of_app; by left|].
  assert (forall c, c ∈ L1 ++ R ++ L2 -> c ∈ L1 ++ L2 \/ c ∈ R) as Hc3 by (intros c; rewrite !elem_of_app; tauto).
  split; rewrite ?Hk; try done.
  - rewrite Hfp', fmap_app. pose proof (last_of_in base L1.*1). rewrite elem_of_cons, elem_of_app in *. tauto.
  - intros c. rewrite elem_of_app, elem_of_cons. intros [[Hc|Hc]%Hc3|[->|Hc]].
    + apply Hr, elem_of_app. left. by apply Hin.
    + destruct (HR c Hc) as (-> & ? & Hce). unfold bend, HDR in *. cbn in *. lia.
    + unfold bend, HDR in *. cbn in *. lia.
    + apply Hr, elem_of_app. by right.
  - intros c [->|Hc]%elem_of_cons; [done|]. destruct (Hr c) as (_ & Hc1 & _); [apply elem_of_app; by right|].
    rewrite Hoth; [by apply Hh|..]; destruct (Hsep b c Hbin Hc); unfold bend, HDR in *; cbn in *; lia.
  - split; [|done]. intros c Hc. destruct (Hsep b c Hbin Hc) as [?|?]; [left|right]; unfold bend, HDR in *; cbn in *; lia.
  - intros c d [Hc|Hc]%Hc3; rewrite elem_of_cons; intros [->|Hd].
    + destruct (ordered_disj _ _ _ _ _ Ho Hc) as (_ & _ & [?|?]); [left|right]; unfold bend, HDR in *; cbn in *; lia.
    + apply Hsep; [by apply Hin|done].
    + left. by apply HR.
    + destruct (HR c Hc) as (E & ? & ?). destruct (Hsep b d Hbin Hd) as [?|?]; [left|right]; unfold bend, HDR in *; cbn in *; lia.
Qed.

Lemma take_block_ok s L A n prev b : heap_inv s L A -> 1 <= n <= b.2 -> prev ∈ base :: L.*1 -> b ∈ L -> h_ptr (m_mem s prev) = b.1 ->
  got (take_block n prev b.1 s) s n L A.
Proof.
  intros I Hn Hp Hb Hptr. pose proof (hi_list _ _ _ I) as F. destruct (pred_unique _ _ _ _ F Hp Hb Hptr) as (L1 & L2 & -> & ->).
  pose proof F as [Hl Hsz H0 Ho]. unfold take_block, bind, size_of, ptr_of, gets. rewrite (Hsz b Hb).
  pose proof Ho as [Ho1 (Hb0 & Hb1 & Ho2)]%ordered_app. pose proof (ordered_nodup _ _ Ho) as Hnd.
  rewrite fmap_app in Hl, Hnd. cbn in Hl. apply linked_split in Hl as [Hp1 [_ Hl]].
  change (NoDup ((base :: L1.*1) ++ b.1 :: L2.*1)) in Hnd. apply NoDup_app in Hnd as (Hnd1 & Hdis & _).
  set (p := last_of base L1.*1) in *. destruct (Z.eqb_spec b.2 n) as [<-|Hne]; cbn [modify ret]; unfold modify, ret.
  - eexists _, (L1 ++ [] ++ L2), b.1. split; [reflexivity|]. split; [|rewrite !units_app, units_cons; cbn; split; [lia|done]].
    assert (forall x, h_size (m_mem (set_freep p (set_ptr p (h_ptr (m_mem s b.1)) s)) x) = h_size (m_mem s x)) as Hsame.
    { intros x. cbn. unfold upd_hdr. by destruct (decide (x = p)) as [->|]. }
    apply (take_inv s _ L1 b L2 []); try done; [|by intros c ?%elem_of_nil|rewrite Hsame; by apply Hsz].
    split; [| |by rewrite Hsame|].
    + rewrite fmap_app. apply linked_split. split.
      * eapply path_frame; [done| |exact Hp1]. intros q Hq Hqp. cbn. unfold upd_hdr. by rewrite decide_False.
      * fold p. cbn [app]. assert (p ∉ L2.*1) as Hnp.
        { pose proof (Hdis p (last_of_in _ _)) as Hn'. intros Hin. apply Hn'. by right. }
        pose proof (linked_head _ _ _ _ Hl) as Hh. destruct L2 as [|c L2]; cbn in *; unfold upd_hdr; rewrite decide_True by done; [done|].
        split; [done|]. eapply linked_frame; [|apply Hl]. intros q Hq. rewrite decide_False; [done|]. intros ->. done.
    + intros c Hc. cbn [app] in *. rewrite Hsame. apply Hsz. rewrite elem_of_app in *. rewrite elem_of_cons. tauto.
    + apply ordered_app. split; [done|]. cbn. eapply ordered_lo; [|exact Ho2]. unfold bend, HDR. lia.
  - set (a := b.1 + HDR * (b.2 - n)). eexists _, (L1 ++ [(b.1, b.2 - n)] ++ L2), a. split; [reflexivity|].
    split; [|rewrite !units_app, !units_cons; cbn; split; [lia|done]].
    set (s' := set_freep p _).
    assert (a <> b.1) as Hab by (unfold a, HDR; lia).
    assert (forall x, h_ptr (m_mem s' x) = h_ptr (m_mem s x) /\ h_size (m_mem s' x) = if decide (x = a) then n else if decide (x = b.1) then b.2 - n else h_size (m_mem s x)) as Hm.
    { intros x. cbn. unfold upd_hdr. repeat case_decide; subst; cbn; done. }
    apply (take_inv s _ L1 b L2 [(b.1, b.2 - n)]); try done; [|unfold a, HDR; lia|unfold bend, a, HDR; cbn; lia|lia| |by destruct (Hm a) as [_ ->]; rewrite decide_True|].
    + assert (forall c, c ∈ L1 ++ L2 -> c.1 <> a /\ c.1 <> b.1) as Hnc.
      { intros c Hc. destruct (ordered_disj _ _ _ _ _ Ho Hc) as (? & ? & [?|?]); unfold bend, a, HDR in *; lia. }
      assert (base < b.1) as Hbb by (apply (ordered_in _ _ _ Ho Hb)). split.
      * assert (linked (m_mem s) base (L1 ++ [(b.1, b.2 - n)] ++ L2).*1 base) as Hl0 by (pose proof (fl_link _ _ F) as Hl0; rewrite !fmap_app in *; exact Hl0).
        eapply linked_frame; [|exact Hl0]. intros q _. apply Hm.
      * intros c Hc. destruct (Hm c.1) as [_ ->]. rewrite !elem_of_app, list_elem_of_singleton in Hc. destruct Hc as [Hc|[->|Hc]].
        -- destruct (Hnc c) as [? ?]; [apply elem_of_app; by left|]. rewrite !decide_False by done. apply Hsz, elem_of_app. by left.
        -- cbn. by rewrite decide_False, decide_True.
        -- destruct (Hnc c) as [? ?]; [apply elem_of_app; by right|]. rewrite !decide_False by done. apply Hsz. rewrite elem_of_app, elem_of_cons. tauto.
      * destruct (Hm base) as [_ ->]. rewrite !decide_False by (unfold a, HDR; lia). done.
      * apply ordered_app. split; [done|]. cbn. split; [done|]. split; [lia|]. eapply ordered_lo; [|exact Ho2]. unfold bend, HDR. cbn. lia.
    + intros c ->%list_elem_of_singleton. cbn. unfold bend, a, HDR. cbn. lia.
    + intros x Hx Hxa. destruct (Hm x) as [_ ->]. by rewrite !decide_False.
Qed.

(** The kernel never gives memory past the limit. *)
Context (Hgrant : forall b n, grant b n = true -> b + n <= limit).

(** The number of headers [morecore] asks for. *)
Definition asked (nu : Z) : Z := if nu <? 4096 then 4096 else nu.

Lemma morecore_ok s L A nu : heap_inv s L A -> 1 <= nu -> nu * HDR < 2^31 ->
  (morecore start grant nu s = Ret 0 s [] /\ grant (m_brk s) (asked nu * HDR) = false) \/
  (exists s' L', morecore start grant nu s = Ret (m_freep s') s' [] /\ heap_inv s' L' A /\ units L' = units L + asked nu /\
    m_brk s' = m_brk s + asked nu * HDR /\ grant (m_brk s) (asked nu * HDR) = true /\
    (length L' <= length L + 1)%nat /\ exists c, c ∈ L' /\ nu <= c.2).
Proof.
  intros I Hnu Hlt. assert (nu <= asked nu /\ 1 <= asked nu /\ asked nu * HDR < 2^31) as (Hle & Hk1 & Hk).
  { unfold asked, HDR in *. destruct (Z.ltb_spec nu 4096); lia. }
  unfold morecore. fold (asked nu). set (k := asked nu) in *. assert (i32 (k * HDR) = k * HDR) as ->.
  { unfold i32. rewrite Z.mod_small; unfold HDR in *; lia. }
  unfold sbrk, bind, gets, modify, ret. destruct (grant (m_brk s) (k * HDR)) eqn:Hg; [right|left; done].
  specialize (Hgrant _ _ Hg). pose proof I as [F Hfp Hbrk Hr Hh Hlive Hsep].
  rewrite (proj2 (Z.eqb_neq (m_brk s) SBRK_ERROR)) by (unfold SBRK_ERROR; lia). set (b := (m_brk s, k)).
  set (s1 := set_size (m_brk s) k (mkHeap (m_mem s) (m_freep s) (m_brk s + k * HDR))).
  assert (forall c, c ∈ L ++ A -> c.1 <> m_brk s) as Hne.
  { intros c Hc. destruct (Hr c Hc) as (? & ? & ?). unfold bend, HDR in *. lia. }
  assert (forall x, h_ptr (m_mem s1 x) = h_ptr (m_mem s x) /\ h_size (m_mem s1 x) = if decide (x = m_brk s) then k else h_size (m_mem s x)) as Hm.
  { intros x. cbn. unfold upd_hdr. by destruct (decide (x = m_brk s)) as [->|]. }
  assert (heap_inv s1 L (b :: A)) as I1.
  { split; [split|..]; try done.
    - eapply linked_frame; [|apply F]. intros q _. apply Hm.
    - intros c Hc. destruct (Hm c.1) as [_ ->]. rewrite decide_False; [by apply F|]. apply Hne, elem_of_app. by left.
    - destruct (Hm base) as [_ ->]. rewrite decide_False by lia. apply F.
    - apply F.
    - cbn. unfold HDR in *. lia.
    - intros c. rewrite elem_of_app, elem_of_cons. intros [Hc|[->|Hc]]; [|unfold bend, HDR in *; cbn in *; lia|].
      + destruct (Hr c) as (? & ? & ?); [apply elem_of_app; by left|]. unfold HDR in *. cbn. lia.
      + destruct (Hr c) as (? & ? & ?); [apply elem_of_app; by right|]. unfold HDR in *. cbn. lia.
    - intros c [->|Hc]%elem_of_cons; [change (h_size (m_mem s1 (m_brk s)) = k); destruct (Hm (m_brk s)) as [_ ->]; by rewrite decide_True|].
      destruct (Hm c.1) as [_ ->]. rewrite decide_False; [by apply Hh|]. apply Hne, elem_of_app. by right.
    - split; [|done]. intros c Hc. right. apply Hr, elem_of_app. by right.
    - intros c d Hc [->|Hd]%elem_of_cons; [left; apply Hr, elem_of_app; by left|by apply Hsep]. }
  destruct (free_ok s1 L [] b A I1) as (s' & L' & Hrun & I' & Hun & Hbk & Hlen & c & Hc & Hcs).
  change (b.1 + HDR) with (m_brk s + HDR) in Hrun. rewrite Hrun. exists s', L'. split; [done|]. split; [done|]. split; [done|].
  split; [done|]. split; [done|]. split; [done|]. exists c. split; [done|]. cbn in Hcs. lia.
Qed.

(** One turn around the list: the first block that fits, or [morecore]. *)
Lemma scan_ok s L A n (Q : outcome heap Z -> Prop) k : heap_inv s L A -> 1 <= n ->
  (forall prev b, prev ∈ base :: L.*1 -> b ∈ L -> h_ptr (m_mem s prev) = b.1 -> n <= b.2 -> Q (take_block n prev b.1 s)) ->
  ((forall b, b ∈ L -> b.2 < n) -> forall fuel, (k <= fuel)%nat ->
     Q ((let! p := morecore start grant n in
         if p =? 0 then ret 0 else let! q := ptr_of p in malloc_loop start grant fuel n p q) s)) ->
  forall fuel, (length L + k < fuel)%nat -> Q (malloc_loop start grant fuel n (m_freep s) (h_ptr (m_mem s (m_freep s))) s).
Proof.
  intros I Hn Htake Hmore. pose proof (hi_list _ _ _ I) as F. pose proof (hi_freep _ _ _ I) as Hf.
  pose proof (flist_nodup _ _ F) as Hnd. set (f := m_freep s) in *.
  destruct (rotate _ _ _ (fl_link _ _ F) Hf) as (r0 & Hr0 & Hperm). rewrite <- Hperm in Hnd. apply NoDup_cons in Hnd as [Hfr _].
  assert (length r0 = length L) as Hlen. { apply Permutation_length in Hperm. cbn in Hperm. rewrite length_fmap in Hperm. lia. }
  assert (forall q, q ∈ f :: r0 <-> q ∈ base :: L.*1) as Hnodes by (intros q; by rewrite Hperm).
  assert (forall q, q ∈ base :: L.*1 -> n <= h_size (m_mem s q) -> exists b, b ∈ L /\ b.1 = q /\ n <= b.2) as Hfit.
  { intros q [->|(b & -> & Hb)%list_elem_of_fmap]%elem_of_cons Hq; [rewrite (fl_base _ _ F) in Hq; lia|].
    exists b. rewrite (fl_size _ _ F b Hb) in Hq. done. }
  assert (forall r prev fuel, linked (m_mem s) prev r f -> prev ∈ f :: r0 -> (forall q, q ∈ r -> q ∈ r0) ->
    (forall b, b ∈ L -> b.1 ∉ r ++ [f] -> b.2 < n) -> (length r + k < fuel)%nat ->
    Q (malloc_loop start grant fuel n prev (h_ptr (m_mem s prev)) s)) as Hloop.
  { induction r as [|y r IH]; intros prev fuel Hl Hp Hr Hno Hfu; (destruct fuel as [|fuel]; [cbn in Hfu; lia|]); cbn [malloc_loop];
      unfold size_of; rewrite bind_gets; rewrite (linked_head _ _ _ _ Hl); cbn [head_or].
    - destruct (Z.leb_spec n (h_size (m_mem s f))) as [Hle|Hgt].
      + destruct (Hfit f Hf Hle) as (b & Hb & Eb & Hb2). rewrite <- Eb. apply Htake; try done; [by apply Hnodes|].
        rewrite Eb. by apply linked_head in Hl.
      + rewrite bind_gets. fold f. rewrite Z.eqb_refl. apply Hmore; [|lia]. intros b Hb. destruct (decide (b.1 = f)) as [E|Hne].
        * by rewrite <- E, (fl_size _ _ F b Hb) in Hgt.
        * apply Hno; [done|]. by intros ?%list_elem_of_singleton.
    - destruct Hl as [Hy Hl]. assert (y ∈ base :: L.*1) as Hyn by (apply Hnodes; right; apply Hr; left).
      destruct (Z.leb_spec n (h_size (m_mem s y))) as [Hle|Hgt].
      + destruct (Hfit y Hyn Hle) as (b & Hb & <- & Hb2). apply Htake; try done. by apply Hnodes.
      + rewrite bind_gets. fold f. rewrite (proj2 (Z.eqb_neq y f)) by (intros ->; apply Hfr, Hr; left). unfold ptr_of. rewrite bind_gets.
        apply IH; try done; [by apply Hnodes|intros q Hq; apply Hr; by right| |cbn in Hfu; lia].
        intros b Hb Hnb. destruct (decide (b.1 = y)) as [E|Hne]; [by rewrite <- E, (fl_size _ _ F b Hb) in Hgt|].
        apply Hno; [done|]. cbn. by apply not_elem_of_cons. }
  intros fuel Hfu. apply (Hloop r0); try done; [left| |lia].
  intros b Hb Hnb. exfalso. apply Hnb. assert (b.1 ∈ f :: r0) as Hin by (apply Hnodes; right; apply list_elem_of_fmap; by exists b).
  rewrite elem_of_app, list_elem_of_singleton. apply elem_of_cons in Hin as [->|]; tauto.
Qed.

(** Before the first call the free list does not exist yet. *)
Definition ready s L A : Prop :=
  heap_inv s L A \/ (m_freep s = 0 /\ L = [] /\ A = [] /\ start <= m_brk s <= limit).

Definition units_for (nbytes : Z) : Z := (nbytes + HDR - 1) / HDR + 1.

Lemma units_for_bytes nbytes : 0 <= nbytes -> nbytes <= HDR * (units_for nbytes - 1) /\ 1 <= units_for nbytes.
Proof.
  intros Hn. unfold units_for. pose proof (Z_div_mod_eq_full (nbytes + HDR - 1) HDR).
  pose proof (Z.mod_pos_bound (nbytes + HDR - 1) HDR ltac:(done)). unfold HDR in *. lia.
Qed.

Definition grown s s' n L L' : Prop :=
  (m_brk s' = m_brk s /\ units L' = units L - n) \/
  ((forall b, b ∈ L -> b.2 < n) /\ grant (m_brk s) (asked n * HDR) = true /\ m_brk s' = m_brk s + asked n * HDR /\
   units L' = units L + asked n - n).

Lemma malloc_list s L A n fu : heap_inv s L A -> 1 <= n -> n * HDR < 2^31 -> (2 * length L + 5 < fu)%nat ->
  (exists s' L' a, malloc_loop start grant fu n (m_freep s) (h_ptr (m_mem s (m_freep s))) s = Ret (a + HDR) s' [] /\
    heap_inv s' L' ((a, n) :: A) /\ grown s s' n L L') \/
  (malloc_loop start grant fu n (m_freep s) (h_ptr (m_mem s (m_freep s))) s = Ret 0 s [] /\
    (forall b, b ∈ L -> b.2 < n) /\ grant (m_brk s) (asked n * HDR) = false).
Proof.
  intros I Hn Hlt Hfu. apply (scan_ok s L A n (fun o => (exists s' L' a, o = Ret (a + HDR) s' [] /\ heap_inv s' L' ((a, n) :: A) /\ grown s s' n L L') \/
    (o = Ret 0 s [] /\ (forall b, b ∈ L -> b.2 < n) /\ grant (m_brk s) (asked n * HDR) = false)) (length L + 2)); try done; [| |lia].
  - intros prev b Hp Hb Hptr Hb2. left. destruct (take_block_ok s L A n prev b I) as (s' & L' & a & E & I' & Hun & Hk); try done.
    exists s', L', a. split; [done|]. split; [done|]. by left.
  - intros Hno fuel Hfuel. destruct (morecore_ok s L A n I Hn Hlt) as [[E Hg]|(s1 & L1 & E & I1 & Hun & Hk & Hg & Hlen & c & Hc & Hcn)];
      rewrite (bind_run _ _ _ _ _ E); [right; split; [reflexivity|done]|left].
    assert (m_freep s1 <> 0) as Hf0.
    { pose proof (hi_freep _ _ _ I1) as Hin. apply elem_of_cons in Hin as [->|Hin]; [lia|].
      apply list_elem_of_fmap in Hin as (b & -> & Hb). pose proof (ordered_in _ _ _ (fl_ord _ _ (hi_list _ _ _ I1)) Hb). lia. }
    rewrite (proj2 (Z.eqb_neq _ _) Hf0). unfold ptr_of. rewrite bind_gets.
    assert (got (malloc_loop start grant fuel n (m_freep s1) (h_ptr (m_mem s1 (m_freep s1))) s1) s1 n L1 A) as (s' & L' & a & -> & I' & Hun' & Hk').
    { apply (scan_ok s1 L1 A n (fun o => got o s1 n L1 A) 0); try done; [| |lia].
      - intros prev b Hp Hb Hptr Hb2. by apply take_block_ok.
      - intros Hno'. specialize (Hno' c Hc). lia. }
    exists s', L', a. split; [done|]. split; [done|]. right. split_and!; try done; [congruence|lia].
Qed.

Lemma malloc_ok s L A nbytes : ready s L A -> 0 <= nbytes -> units_for nbytes * HDR < 2^31 -> let n := units_for nbytes in
  (exists s' L' a, malloc base start grant nbytes s = Ret (a + HDR) s' [] /\ heap_inv s' L' ((a, n) :: A) /\ grown s s' n L L') \/
  (exists s', malloc base start grant nbytes s = Ret 0 s' [] /\ heap_inv s' L A /\ m_brk s' = m_brk s /\
    (forall b, b ∈ L -> b.2 < n) /\ grant (m_brk s) (asked n * HDR) = false).
Proof.
  intros Hrdy Hnb Hlt n. destruct (units_for_bytes nbytes Hnb) as [_ Hn1].
  unfold malloc. fold (units_for nbytes). rewrite u32_id by (unfold HDR in *; lia). fold n. rewrite bind_gets.
  destruct Hrdy as [I|(Hf & -> & -> & Hbrk)].
  - assert (m_freep s <> 0) as Hf0.
    { pose proof (hi_freep _ _ _ I) as Hin. apply elem_of_cons in Hin as [->|Hin]; [lia|].
      apply list_elem_of_fmap in Hin as (b & -> & Hb). pose proof (ordered_in _ _ _ (fl_ord _ _ (hi_list _ _ _ I)) Hb). lia. }
    rewrite (proj2 (Z.eqb_neq _ _) Hf0). cbn [when]. rewrite (bind_run _ _ s s tt eq_refl), bind_gets. unfold ptr_of. rewrite !bind_gets.
    destruct (malloc_list s L A n (fuel start s) I Hn1 Hlt (list_fuel _ _ _ I)) as [(s' & L' & a & -> & I' & G)|(-> & Hno & Hg)].
    + left. by exists s', L', a.
    + right. by exists s.
  - rewrite Hf. cbn [when Z.eqb]. set (s1 := mkHeap (upd_hdr base (mkHeader base 0) (m_mem s)) base (m_brk s)).
    assert (heap_inv s1 [] []) as I.
    { split; try done; [|left|by intros ? ?%elem_of_nil|by intros ? ?%elem_of_nil|by intros ? ? ?%elem_of_nil].
      split; try done; cbn; unfold upd_hdr; [by rewrite decide_True|by intros ? ?%elem_of_nil|by rewrite decide_True]. }
    rewrite (bind_run _ _ s s1 tt) by reflexivity. rewrite bind_gets. unfold ptr_of. rewrite !bind_gets.
    destruct (malloc_list s1 [] [] n (fuel start s1) I Hn1 Hlt (list_fuel _ _ _ I)) as [(s' & L' & a & -> & I' & G)|(-> & Hno & Hg)].
    + left. by exists s', L', a.
    + right. by exists s1.
Qed.
End inv.
