(* ===== verification/UmallocProps.v ===== *)
(** * The user-level allocator: properties

    A program that calls malloc and free and writes into the blocks it was
    given, in any order. *)
From S2P Require Import Prelude Params Umalloc UmallocInv.

Section program.
Context (base start limit : Z) (grant : Z -> Z -> bool).
Context (Hbase : 0 < base < start) (Hlimit : limit - start < 2^36).
Context (Hgrant : forall b n, grant b n = true -> b + n <= limit).
Implicit Types (s : heap) (A L : list block).

(** The heap and the live blocks. *)
Inductive prog_step : heap * list block -> heap * list block -> Prop :=
  | pr_malloc s A nbytes r s' : 0 <= nbytes -> units_for nbytes * HDR < 2^31 -> malloc base start grant nbytes s = Ret r s' [] ->
      prog_step (s, A) (s', if r =? 0 then A else (r - HDR, units_for nbytes) :: A)
  | pr_free s A1 b A2 s' : free start (b.1 + HDR) s = Ret tt s' [] -> prog_step (s, A1 ++ b :: A2) (s', A1 ++ A2)
  | pr_write s A b x h : b ∈ A -> b.1 < x < bend b ->
      prog_step (s, A) (mkHeap (upd_hdr x h (m_mem s)) (m_freep s) (m_brk s), A).

Inductive prog_run (s0 : heap) : heap * list block -> Prop :=
  | run_init : prog_run s0 (s0, [])
  | run_step c c' : prog_run s0 c -> prog_step c c' -> prog_run s0 c'.

(** Everything the kernel gave is either free or live. *)
Definition accounted (brk0 : Z) s A : Prop :=
  exists L, ready base start limit s L A /\ HDR * (units L + units A) = m_brk s - brk0.

Lemma ready_live s L A : ready base start limit s L A -> apart A /\ forall b, b ∈ A -> start <= b.1 /\ 1 <= b.2 /\ bend b <= m_brk s.
Proof.
  intros [I|(_ & _ & -> & _)]; [|split; [done|by intros ? ?%elem_of_nil]]. split; [apply I|].
  intros b Hb. apply (hi_range _ _ _ _ _ _ I), elem_of_app. by right.
Qed.

Lemma ready_nonzero s L A b : ready base start limit s L A -> b ∈ A -> heap_inv base start limit s L A.
Proof. intros [I|(_ & _ & -> & _)] Hb; [done|]. by apply elem_of_nil in Hb. Qed.

Lemma grown_units s s' n L L' A a : grown grant s s' n L L' ->
  HDR * (units L + units A) = m_brk s - start -> HDR * (units L' + units ((a, n) :: A)) = m_brk s' - start.
Proof.
  intros G E. rewrite units_cons. cbn [snd]. destruct G as [[-> ->]|(_ & _ & -> & ->)]; unfold HDR in *; lia.
Qed.

Lemma write_inv s L A b x h : heap_inv base start limit s L A -> b ∈ A -> b.1 < x < bend b ->
  heap_inv base start limit (mkHeap (upd_hdr x h (m_mem s)) (m_freep s) (m_brk s)) L A.
Proof.
  intros [[Hl Hsz H0 Ho] Hfp Hbrk Hr Hh Hlive Hsep] Hb Hx.
  assert (forall c, c ∈ L -> c.1 <> x) as HL.
  { intros c Hc. destruct (Hr c) as (_ & ? & _); [apply elem_of_app; by left|]. destruct (Hsep c b Hc Hb); unfold bend, HDR in *; lia. }
  assert (forall c, c ∈ A -> c.1 <> x) as HA.
  { intros c Hc. destruct (Hr c) as (_ & Hc1 & _); [apply elem_of_app; by right|]. apply list_elem_of_split in Hc as (A1 & A2 & ->).
    destruct (apart_mid A1 c A2 Hlive) as [_ Hd]. rewrite elem_of_app, elem_of_cons in Hb.
    destruct (decide (b = c)) as [->|Hne]; [lia|]. destruct (Hd b) as [?|?]; [apply elem_of_app; tauto|..]; unfold bend, HDR in *; lia. }
  destruct (Hr b) as (Hb0 & _); [apply elem_of_app; by right|].
  split; try done; [split; try done|]; cbn; unfold upd_hdr.
  - eapply linked_frame; [|exact Hl]. intros q [->|(c & -> & Hc)%list_elem_of_fmap]%elem_of_cons; rewrite decide_False; try done; [lia|by apply HL].
  - intros c Hc. rewrite decide_False by by apply HL. by apply Hsz.
  - rewrite decide_False by lia. done.
  - intros c Hc. rewrite decide_False by by apply HA. by apply Hh.
Qed.

Lemma prog_accounted s0 c : m_freep s0 = 0 -> m_brk s0 = start -> start <= limit -> prog_run s0 c -> accounted start c.1 c.2.
Proof.
  intros Hf0 Hb0 Hlim. induction 1 as [|c c' _ (L & Hrdy & Hacc) Hs].
  - exists []. split; [right; cbn; split_and!; (done || lia)|]. cbn. lia.
  - inversion Hs as [s A nbytes r s' Hn Hlt Hrun|s A1 b A2 s' Hrun|s A b x h Hb Hx]; subst; cbn [fst snd] in *.
    + destruct (malloc_ok base start limit grant Hbase Hlimit Hgrant s L A nbytes Hrdy Hn Hlt) as [(s1 & L' & a & E & I' & G)|(s1 & E & I' & Hk & _)];
        rewrite E in Hrun; injection Hrun as <- <-.
      * assert (a + HDR <> 0) as Hnz. { destruct (hi_range _ _ _ _ _ _ I' (a, units_for nbytes)) as (? & _); [apply elem_of_app; right; left|]. unfold HDR. cbn in *. lia. }
        rewrite (proj2 (Z.eqb_neq _ _) Hnz). replace (a + HDR - HDR) with a by lia. exists L'. split; [by left|]. by eapply grown_units.
      * exists L. split; [by left|]. change (HDR * (units L + units A) = m_brk s1 - start). by rewrite Hacc, Hk.
    + pose proof (ready_nonzero s L _ b Hrdy ltac:(rewrite elem_of_app, elem_of_cons; tauto)) as I.
      destruct (free_ok base start limit grant Hbase Hlimit s L A1 b A2 I) as (s1 & L' & E & I' & Hun & Hk & _). rewrite E in Hrun. injection Hrun as <-.
      exists L'. split; [by left|]. rewrite Hk, Hun. rewrite !units_app, units_cons in *. lia.
    + exists L. split; [left; by apply write_inv with b; [eapply ready_nonzero|..]|done].
Qed.

(** C36.  The allocator, after any sequence of calls by a program that stays
    inside its blocks: no two live blocks overlap, all lie in memory the kernel
    gave, and every header of that memory is free or live, none is lost.  Every
    call of malloc returns, with 0 only when nothing fits and the kernel
    refuses, or else a block of at least the size asked for that overlaps no
    live block; every call of free with a live block returns. *)
Theorem umalloc_correct s0 s A : m_freep s0 = 0 -> m_brk s0 = start -> start <= limit -> prog_run s0 (s, A) ->
  apart A /\ (forall b, b ∈ A -> start <= b.1 /\ bend b <= m_brk s) /\
  (exists L, HDR * (units L + units A) = m_brk s - start /\
    forall nbytes, 0 <= nbytes -> units_for nbytes * HDR < 2^31 ->
      exists r s', malloc base start grant nbytes s = Ret r s' [] /\
        if decide (r = 0) then (forall b, b ∈ L -> b.2 < units_for nbytes) /\ grant (m_brk s) (asked (units_for nbytes) * HDR) = false
        else let b := (r - HDR, units_for nbytes) in
          r + nbytes <= bend b /\ start <= b.1 /\ bend b <= m_brk s' /\ forall a, a ∈ A -> disj b a) /\
  (forall b, b ∈ A -> exists s', free start (b.1 + HDR) s = Ret tt s' []).
Proof.
  intros Hf0 Hb0 Hlim Hrun. destruct (prog_accounted s0 (s, A) Hf0 Hb0 Hlim Hrun) as (L & Hrdy & Hacc). cbn [fst snd] in *.
  destruct (ready_live s L A Hrdy) as [Hap Hrange]. split; [done|]. split; [intros b Hb; by destruct (Hrange b Hb) as (? & _ & ?)|].
  split; [exists L; split; [done|]|].
  - intros nbytes Hn Hlt. destruct (units_for_bytes nbytes Hn) as [Hbytes Hn1].
    destruct (malloc_ok base start limit grant Hbase Hlimit Hgrant s L A nbytes Hrdy Hn Hlt) as [(s' & L' & a & -> & I & _)|(s' & -> & _ & _ & Hno & Hg)].
    + exists (a + HDR), s'. split; [done|]. destruct (hi_range _ _ _ _ _ _ I (a, units_for nbytes)) as (Ha & _ & He); [apply elem_of_app; right; left|].
      rewrite decide_False by (unfold HDR; cbn in *; lia). replace (a + HDR - HDR) with a by lia.
      split; [unfold bend, HDR in *; cbn in *; lia|]. split; [done|]. split; [done|]. apply (hi_live _ _ _ _ _ _ I).
    + exists 0, s'. split; [done|]. by rewrite decide_True.
  - intros b Hb. pose proof (ready_nonzero s L A b Hrdy Hb) as I. apply list_elem_of_split in Hb as (A1 & A2 & ->).
    destruct (free_ok base start limit grant Hbase Hlimit s L A1 b A2 I) as (s' & L' & E & _). by exists s'.
Qed.
End program.

(** ** A program *)

Definition demo_grant (b n : Z) : bool := b + n <=? 2^20.
Definition demo_heap : heap := mkHeap (fun _ => mkHeader 0 0) 0 4096.

(** malloc(100), malloc(5), then the first block is freed. *)
Definition demo_call (nbytes : Z) (s : heap) : heap := match malloc 64 4096 demo_grant nbytes s with Ret _ s' _ => s' | _ => s end.
Definition demo_heap1 : heap := demo_call 100 demo_heap.
Definition demo_heap2 : heap := demo_call 5 demo_heap1.
Definition demo_heap3 : heap := match free 4096 69520 demo_heap2 with Ret _ s' _ => s' | _ => demo_heap2 end.

Lemma demo_run : prog_run 64 4096 demo_grant demo_heap (demo_heap3, [(69472, 2)]).
Proof.
  eapply run_step; [eapply run_step; [eapply run_step; [apply run_init|]|]|].
  - apply (pr_malloc 64 4096 demo_grant demo_heap [] 100 69520 demo_heap1); [lia|done|]. vm_compute. reflexivity.
  - apply (pr_malloc 64 4096 demo_grant demo_heap1 _ 5 69488 demo_heap2); [lia|done|]. vm_compute. reflexivity.
  - apply (pr_free 64 4096 demo_grant demo_heap2 [(69472, 2)] (69504, 8) []). vm_compute. reflexivity.
Qed.

Lemma umalloc_correct_witness : apart [(69472, 2)] /\ exists s', free 4096 69488 demo_heap3 = Ret tt s' [].
Proof.
  assert (forall b n, demo_grant b n = true -> b + n <= 2^20) as Hg by (unfold demo_grant; lia).
  destruct (umalloc_correct 64 4096 (2^20) demo_grant ltac:(lia) ltac:(lia) Hg demo_heap demo_heap3 [(69472, 2)]
    eq_refl eq_refl ltac:(lia) demo_run) as (Ha & _ & _ & Hf).
  split; [exact Ha|]. exact (Hf (69472, 2) ltac:(left)).
Defined.

