(* ===== verification/Sh.v ===== *)
(** * The shell's parser ([user/sh.c])

    The text is a byte list without NUL; a parser state is the offset reached
    and the text from there on.  A token is the pair of its start and end
    offsets, as the code keeps two pointers, and [nulterminate] writes the
    NULs in the end.  The parse functions call each other with a fuel that
    bounds the depth of their recursion. *)
From S2P Require Import Prelude Params.

Module Sh.

Definition MAXARGS : nat := 10.
Definition O_RDONLY : Z := 0x000.
Definition O_WRONLY : Z := 0x001.
Definition O_CREATE : Z := 0x200.
Definition O_TRUNC : Z := 0x400.

Definition BAR : Z := 124.
Definition LPAREN : Z := 40.
Definition RPAREN : Z := 41.
Definition SEMI : Z := 59.
Definition AMP : Z := 38.
Definition LT : Z := 60.
Definition GT : Z := 62.
Definition PLUS : Z := 43.
Definition CH_a : Z := 97.

Definition whitespace : bytes := [32; 9; 13; 10; 11].
Definition symbols : bytes := [LT; BAR; GT; AMP; SEMI; LPAREN; RPAREN].
(** [strchr(l, c) != 0]. *)
Definition strchr (l : bytes) (c : Z) : bool := bool_decide (c ∈ l).

Abbreviation token := (nat * nat)%type.

(** [argv] and [eargv] of an execcmd are one list of tokens. *)
Inductive cmd : Set :=
  | EXEC (args : list token)
  | REDIR (c : cmd) (file : token) (mode fd : Z)
  | PIPE (left right : cmd)
  | LIST (left right : cmd)
  | BACK (c : cmd).

(** The offset and the rest of the text. *)
Record pst : Set := mkPst { ps_off : nat; ps_rest : bytes }.

Fixpoint skip_ws (off : nat) (l : bytes) : pst :=
  match l with
  | c :: l' => if strchr whitespace c then skip_ws (S off) l' else mkPst off l
  | [] => mkPst off []
  end.
Fixpoint skip_word (off : nat) (l : bytes) : pst :=
  match l with
  | c :: l' => if strchr whitespace c || strchr symbols c then mkPst off l else skip_word (S off) l'
  | [] => mkPst off []
  end.
Definition skip (s : pst) : pst := skip_ws (ps_off s) (ps_rest s).
Definition advance (n : nat) (s : pst) : pst := mkPst (ps_off s + n) (drop n (ps_rest s)).

(** The kind of token, 0 at the end of the text, and the token. *)
Definition gettoken : M pst (Z * token) :=
  modify skip ;;;
  let! s := gets id in
  let! r :=
    match ps_rest s with
    | [] => ret 0
    | c :: l =>
        if bool_decide (c ∈ [BAR; LPAREN; RPAREN; SEMI; AMP; LT]) then modify (advance 1) ;;; ret c
        else if c =? GT then
          match l with
          | c' :: _ => if c' =? GT then modify (advance 2) ;;; ret PLUS else modify (advance 1) ;;; ret GT
          | [] => modify (advance 1) ;;; ret GT
          end
        else modify (fun s => skip_word (ps_off s) (ps_rest s)) ;;; ret CH_a
    end in
  let! eq := gets ps_off in
  modify skip ;;;
  ret (r, (ps_off s, eq)).

Definition peek (toks : bytes) : M pst bool :=
  modify skip ;;;
  gets (fun s => match ps_rest s with c :: _ => strchr toks c | [] => false end).

(** ** Commands *)

(** The loop of [parseredirs]; every iteration consumes a symbol. *)
Fixpoint redirs_loop (fuel : nat) (rs : list (token * Z * Z)) : M pst (list (token * Z * Z)) :=
  match fuel with
  | O => undefined_behaviour "parseredirs: fuel"
  | S fuel =>
      let! more := peek [LT; GT] in
      if negb more then ret rs
      else
        let! t := gettoken in
        let! f := gettoken in
        if negb (f.1 =? CH_a) then panic "missing file for redirection"
        else if t.1 =? LT then redirs_loop fuel (rs ++ [(f.2, O_RDONLY, 0)])
        else if t.1 =? GT then redirs_loop fuel (rs ++ [(f.2, Z.lor (Z.lor O_WRONLY O_CREATE) O_TRUNC, 1)])
        else if t.1 =? PLUS then redirs_loop fuel (rs ++ [(f.2, Z.lor O_WRONLY O_CREATE, 1)])
        else redirs_loop fuel rs
  end.

Definition with_fuel {A} (f : nat -> M pst A) : M pst A := let! s := gets id in f (S (length (ps_rest s))).

(** Each redirection wraps the command so far. *)
Definition wrap (c : cmd) (rs : list (token * Z * Z)) : cmd := fold_left (fun c r => REDIR c r.1.1 r.1.2 r.2) rs c.
Definition parseredirs (c : cmd) : M pst cmd :=
  let! rs := with_fuel (fun n => redirs_loop n []) in
  ret (wrap c rs).

(** The loop of [parseexec].  The execcmd is shared with the redirections
    already wrapped around it, so its arguments are put in at the end. *)
Fixpoint exec_loop (fuel : nat) (args : list token) (rs : list (token * Z * Z)) : M pst (list token * list (token * Z * Z)) :=
  match fuel with
  | O => undefined_behaviour "parseexec: fuel"
  | S fuel =>
      let! stop := peek [BAR; RPAREN; AMP; SEMI] in
      if stop then ret (args, rs)
      else
        let! t := gettoken in
        if t.1 =? 0 then ret (args, rs)
        else if negb (t.1 =? CH_a) then panic "syntax"
        else
          let args := args ++ [t.2] in
          if (MAXARGS <=? length args)%nat then panic "too many args"
          else
            let! rs := with_fuel (fun n => redirs_loop n rs) in
            exec_loop fuel args rs
  end.

(** The loop over & in [parseline]. *)
Fixpoint back_loop (fuel : nat) (c : cmd) : M pst cmd :=
  match fuel with
  | O => undefined_behaviour "parseline: fuel"
  | S fuel =>
      let! more := peek [AMP] in
      if more then gettoken ;;; back_loop fuel (BACK c) else ret c
  end.

(** The four functions that call each other, with the calls they make as
    arguments. *)
Definition parseline (parsepipe parseline : M pst cmd) : M pst cmd :=
  let! c := parsepipe in
  let! c := with_fuel (fun n => back_loop n c) in
  let! more := peek [SEMI] in
  if more then
    gettoken ;;;
    let! c' := parseline in
    ret (LIST c c')
  else ret c.
Definition parsepipe (parseexec parsepipe : M pst cmd) : M pst cmd :=
  let! c := parseexec in
  let! more := peek [BAR] in
  if more then
    gettoken ;;;
    let! c' := parsepipe in
    ret (PIPE c c')
  else ret c.
Definition parseexec (parseblock : M pst cmd) : M pst cmd :=
  let! block := peek [LPAREN] in
  if block then parseblock
  else
    let! rs := with_fuel (fun n => redirs_loop n []) in
    let! r := with_fuel (fun n => exec_loop n [] rs) in
    ret (wrap (EXEC r.1) r.2).
Definition parseblock (parseline : M pst cmd) : M pst cmd :=
  let! open := peek [LPAREN] in
  if negb open then panic "parseblock"
  else
    gettoken ;;;
    let! c := parseline in
    let! close := peek [RPAREN] in
    if negb close then panic "syntax - missing )"
    else
      gettoken ;;;
      parseredirs c.

Inductive nonterminal : Set := NLine | NPipe | NExec | NBlock.
Fixpoint parse (n : nonterminal) (fuel : nat) : M pst cmd :=
  match fuel with
  | O => undefined_behaviour "parse: fuel"
  | S fuel =>
      match n with
      | NLine => parseline (fun s => parse NPipe fuel s) (fun s => parse NLine fuel s)
      | NPipe => parsepipe (fun s => parse NExec fuel s) (fun s => parse NPipe fuel s)
      | NExec => parseexec (fun s => parse NBlock fuel s)
      | NBlock => parseblock (fun s => parse NLine fuel s)
      end
  end.

(** ** NUL termination *)

Definition put_nul (buf : bytes) (t : token) : bytes := <[t.2 := 0]> buf.

Fixpoint nulterminate (c : cmd) (buf : bytes) : bytes :=
  match c with
  | EXEC args => fold_left put_nul args buf
  | REDIR c f _ _ => put_nul (nulterminate c buf) f
  | PIPE l r | LIST l r => nulterminate r (nulterminate l buf)
  | BACK c => nulterminate c buf
  end.

(** The text, in memory with its final NUL; the result is the command and the
    memory its strings are in. *)
Definition parsecmd (text : bytes) : M pst (cmd * bytes) :=
  modify (fun _ => mkPst 0 text) ;;;
  let! c := parse NLine (4 * length text + 4) in
  peek [] ;;;
  let! s := gets id in
  if negb (length (ps_rest s) =? 0)%nat then panic "syntax"
  else ret (c, nulterminate c (text ++ [0])).
End Sh.
