(* ===== verification/ShProps.v ===== *)
(** * The shell's parser: properties

    [spells xs l]: the text l is the lexemes xs with any spacing that keeps
    them apart.  The parser turns the spelling of a command into the tree of
    that command, and after [nulterminate] every word of it is a C string in
    memory. *)
From S2P Require Import Prelude Params CString Sh.
Import Sh.

(** ** Lexemes *)

Inductive lexeme : Set := LWord (w : bytes) | LSym (k : Z).

Definition is_word_char (c : Z) : bool := negb (strchr whitespace c || strchr symbols c || (c =? 0)).
Definition is_word (w : bytes) : Prop := w <> [] /\ Forall (fun c => is_word_char c = true) w.
Definition sym_kinds : list Z := [BAR; LPAREN; RPAREN; SEMI; AMP; LT; GT; PLUS].
Definition lex_ok (x : lexeme) : Prop := match x with LWord w => is_word w | LSym k => k ∈ sym_kinds end.

Definition lex_bytes (x : lexeme) : bytes := match x with LWord w => w | LSym k => if k =? PLUS then [GT; GT] else [k] end.
Definition lex_kind (x : lexeme) : Z := match x with LWord _ => CH_a | LSym k => k end.
(** The first character. *)
Definition lex_head (x : lexeme) : Z := default 0 (head (lex_bytes x)).

(** What may follow a lexeme directly. *)
Definition sep (x : lexeme) (rest : bytes) : Prop :=
  match x, rest with
  | LWord _, c :: _ => is_word_char c = false
  | LSym k, c :: _ => k = GT -> c <> GT
  | _, [] => True
  end.

Definition blanks (ws : bytes) : Prop := Forall (fun c => strchr whitespace c = true) ws.

Fixpoint spells (xs : list lexeme) (l : bytes) : Prop :=
  match xs with
  | [] => blanks l
  | x :: xs => exists ws rest, l = ws ++ lex_bytes x ++ rest /\ blanks ws /\ lex_ok x /\ sep x rest /\ spells xs rest
  end.

Lemma spells_ok xs : forall l x, spells xs l -> x ∈ xs -> lex_ok x.
Proof.
  induction xs as [|y xs IH]; intros l x Hsp Hx; [by apply elem_of_nil in Hx|]. destruct Hsp as (ws & rest & _ & _ & Hok & _ & Hsp).
  apply elem_of_cons in Hx as [->|Hx]; [done|]. by eapply IH.
Qed.

Lemma blank_not_word c : strchr whitespace c = true -> is_word_char c = false.
Proof. intros H. unfold is_word_char. by rewrite H. Qed.

Lemma skip_ws_blanks off ws l : blanks ws -> skip_ws off (ws ++ l) = skip_ws (off + length ws) l.
Proof.
  revert off. induction ws as [|c ws IH]; intros off; [intros _; by rewrite Nat.add_0_r|]. intros [Hc Hw]%Forall_cons. cbn. rewrite Hc, IH by done. f_equal. lia.
Qed.
Lemma skip_ws_stop off c l : strchr whitespace c = false -> skip_ws off (c :: l) = mkPst off (c :: l).
Proof. intros Hc. cbn. by rewrite Hc. Qed.

Lemma word_char_strchr c : is_word_char c = true -> strchr whitespace c = false /\ strchr symbols c = false /\ c <> 0.
Proof. unfold is_word_char. rewrite negb_true_iff, !orb_false_iff. intros [[-> ->] H]. split_and!; try done. lia. Qed.

Lemma skip_word_spec off w l : Forall (fun c => is_word_char c = true) w -> match l with c :: _ => is_word_char c = false /\ c <> 0 | [] => True end ->
  skip_word off (w ++ l) = mkPst (off + length w) l.
Proof.
  revert off. induction w as [|c w IH]; intros off Hw Hl; cbn.
  - rewrite Nat.add_0_r. destruct l as [|c l]; [done|]. destruct Hl as [Hl Hc0]. cbn.
    unfold is_word_char in Hl. rewrite negb_false_iff in Hl. replace (c =? 0) with false in Hl by lia. rewrite orb_false_r in Hl. by rewrite Hl.
  - apply Forall_cons in Hw as [Hc Hw]. destruct (word_char_strchr c Hc) as (-> & -> & _). cbn. rewrite IH by done. f_equal. lia.
Qed.

(** The first character of a lexeme: no blank, and a symbol iff the lexeme is one. *)
Lemma lex_head_spec x : lex_ok x -> exists l, lex_bytes x = lex_head x :: l /\ strchr whitespace (lex_head x) = false /\ lex_head x <> 0.
Proof.
  destruct x as [w|k]; cbn.
  - intros [Hne Hw]. destruct w as [|c w]; [done|]. apply Forall_cons in Hw as [Hc _]. destruct (word_char_strchr c Hc) as (? & _ & ?). by exists w.
  - intros Hk. unfold sym_kinds in Hk. rewrite !elem_of_cons in Hk. unfold lex_head. cbn.
    repeat (destruct Hk as [->|Hk]; [by eexists|]). by apply elem_of_nil in Hk.
Qed.

(** ** The language *)

Inductive rkind : Set := RIn | ROut | RAppend.
Definition redir : Set := (rkind * bytes)%type.

Inductive line : Set :=
  | Line (p : pipeline) (amps : nat)                 (* pipeline & ... & *)
  | Seq (p : pipeline) (amps : nat) (l : line)       (* ... ; line *)
with pipeline : Set :=
  | Single (e : simple)
  | Bar (e : simple) (p : pipeline)
with simple : Set :=
  | Words (rs : list redir) (args : list (bytes * list redir))
  | Block (l : line) (rs : list redir).

Scheme line_mut := Induction for line Sort Prop
with pipeline_mut := Induction for pipeline Sort Prop
with simple_mut := Induction for simple Sort Prop.
Combined Scheme syntax_ind from line_mut, pipeline_mut, simple_mut.

Definition rkind_sym (k : rkind) : Z := match k with RIn => LT | ROut => GT | RAppend => PLUS end.
Definition redir_lex (r : redir) : list lexeme := [LSym (rkind_sym r.1); LWord r.2].
Definition redirs_lex (rs : list redir) : list lexeme := mjoin (redir_lex <$> rs).
Definition arg_lex (a : bytes * list redir) : list lexeme := LWord a.1 :: redirs_lex a.2.
Definition args_lex (l : list (bytes * list redir)) : list lexeme := mjoin (arg_lex <$> l).

Fixpoint line_lex (l : line) : list lexeme :=
  match l with
  | Line p n => pipeline_lex p ++ replicate n (LSym AMP)
  | Seq p n l => pipeline_lex p ++ replicate n (LSym AMP) ++ LSym SEMI :: line_lex l
  end
with pipeline_lex (p : pipeline) : list lexeme :=
  match p with
  | Single e => simple_lex e
  | Bar e p => simple_lex e ++ LSym BAR :: pipeline_lex p
  end
with simple_lex (e : simple) : list lexeme :=
  match e with
  | Words rs args => redirs_lex rs ++ args_lex args
  | Block l rs => LSym LPAREN :: line_lex l ++ LSym RPAREN :: redirs_lex rs
  end.

(** Commands with their words. *)
Inductive scmd : Set :=
  | SExec (args : list bytes)
  | SRedir (c : scmd) (file : bytes) (mode fd : Z)
  | SPipe (left right : scmd)
  | SList (left right : scmd)
  | SBack (c : scmd).

Definition rkind_mode (k : rkind) : Z * Z :=
  match k with
  | RIn => (O_RDONLY, 0)
  | ROut => (Z.lor (Z.lor O_WRONLY O_CREATE) O_TRUNC, 1)
  | RAppend => (Z.lor O_WRONLY O_CREATE, 1)
  end.
Definition swrap (c : scmd) (rs : list redir) : scmd :=
  fold_left (fun c r => SRedir c r.2 (rkind_mode r.1).1 (rkind_mode r.1).2) rs c.

Fixpoint line_cmd (l : line) : scmd :=
  match l with
  | Line p n => Nat.iter n SBack (pipeline_cmd p)
  | Seq p n l => SList (Nat.iter n SBack (pipeline_cmd p)) (line_cmd l)
  end
with pipeline_cmd (p : pipeline) : scmd :=
  match p with
  | Single e => simple_cmd e
  | Bar e p => SPipe (simple_cmd e) (pipeline_cmd p)
  end
with simple_cmd (e : simple) : scmd :=
  match e with
  | Words rs args => swrap (SExec args.*1) (rs ++ mjoin args.*2)
  | Block l rs => swrap (line_cmd l) rs
  end.

(** Fewer than MAXARGS arguments everywhere. *)
Fixpoint line_fits (l : line) : Prop :=
  match l with
  | Line p _ => pipeline_fits p
  | Seq p _ l => pipeline_fits p /\ line_fits l
  end
with pipeline_fits (p : pipeline) : Prop :=
  match p with
  | Single e => simple_fits e
  | Bar e p => simple_fits e /\ pipeline_fits p
  end
with simple_fits (e : simple) : Prop :=
  match e with
  | Words _ args => (length args < MAXARGS)%nat
  | Block l _ => line_fits l
  end.

(** The words of a parsed command, given what a token stands for. *)
Fixpoint strings (f : token -> bytes) (c : cmd) : scmd :=
  match c with
  | EXEC args => SExec (f <$> args)
  | REDIR c t mode fd => SRedir (strings f c) (f t) mode fd
  | PIPE l r => SPipe (strings f l) (strings f r)
  | LIST l r => SList (strings f l) (strings f r)
  | BACK c => SBack (strings f c)
  end.
Fixpoint toks (c : cmd) : list token :=
  match c with
  | EXEC args => args
  | REDIR c t _ _ => toks c ++ [t]
  | PIPE l r | LIST l r => toks l ++ toks r
  | BACK c => toks c
  end.

(** The depth of the recursion. *)
Fixpoint line_fuel (l : line) : nat :=
  match l with
  | Line p _ => S (pipeline_fuel p)
  | Seq p _ l => S (pipeline_fuel p `max` line_fuel l)
  end
with pipeline_fuel (p : pipeline) : nat :=
  match p with
  | Single e => S (simple_fuel e)
  | Bar e p => S (simple_fuel e `max` pipeline_fuel p)
  end
with simple_fuel (e : simple) : nat :=
  match e with
  | Words _ _ => 1
  | Block l _ => S (S (line_fuel l))
  end.

Section text.
Context (text : bytes) (Htext : Forall (fun c => c <> 0) text).

(** The parser is at a place where xs is still to be read. *)
Definition at_lex (s : pst) (xs : list lexeme) : Prop := spells xs (ps_rest s) /\ ps_rest s = drop (ps_off s) text.

Definition tok_str (t : token) : bytes := slice text t.1 (t.2 - t.1).
(** A word token: its characters, and what ends it. *)
Definition word_tok (t : token) : Prop :=
  (t.1 < t.2 <= length text)%nat /\ Forall (fun c => is_word_char c = true) (tok_str t) /\
  (forall c, text !! t.2 = Some c -> is_word_char c = false).

Lemma at_skip s xs : at_lex s xs -> at_lex (skip s) xs /\
  match xs with
  | x :: xs' => exists rest, ps_rest (skip s) = lex_bytes x ++ rest /\ lex_ok x /\ sep x rest /\ spells xs' rest
  | [] => ps_rest (skip s) = []
  end.
Proof.
  intros [Hsp Hd]. unfold skip. assert (forall ws l, ps_rest s = ws ++ l -> blanks ws -> l = drop (ps_off s + length ws) text) as Hdrop.
  { intros ws l E _. rewrite <- drop_drop, <- Hd, E. by rewrite drop_app_length. }
  destruct xs as [|x xs].
  - cbn in Hsp. pose proof (skip_ws_blanks (ps_off s) (ps_rest s) [] Hsp) as E. rewrite app_nil_r in E. rewrite E. cbn. split; [|done].
    split; [by constructor|]. cbn. apply (Hdrop (ps_rest s) []); [by rewrite app_nil_r|done].
  - destruct Hsp as (ws & rest & E & Hws & Hok & Hsep & Hsp). destruct (lex_head_spec x Hok) as (l & El & Hb & _).
    rewrite E, skip_ws_blanks by done. rewrite El. cbn [app]. rewrite skip_ws_stop by done. split.
    + split; cbn [ps_rest ps_off]; [exists [], rest; cbn [app]; rewrite El; split; [done|]; split; [by constructor|done]|].
      apply (Hdrop ws); [by rewrite E, El|done].
    + exists rest. done.
Qed.

Lemma at_advance s x rest n xs : ps_rest s = lex_bytes x ++ rest -> ps_rest s = drop (ps_off s) text -> n = length (lex_bytes x) -> spells xs rest ->
  at_lex (mkPst (ps_off s + n) rest) xs.
Proof. intros E Hd -> Hsp. split; [done|]. cbn. by rewrite <- drop_drop, <- Hd, E, drop_app_length. Qed.

(** The part of [gettoken] between the two runs of blanks. *)
Lemma token_lex s x xs rest : ps_rest s = lex_bytes x ++ rest -> ps_rest s = drop (ps_off s) text -> lex_ok x -> sep x rest -> spells xs rest ->
  exists s', at_lex s' xs /\ ps_off s' = (ps_off s + length (lex_bytes x))%nat /\
    (let! r :=
       match ps_rest s with
       | [] => ret 0
       | c :: l =>
           if bool_decide (c ∈ [BAR; LPAREN; RPAREN; SEMI; AMP; LT]) then modify (advance 1) ;;; ret c
           else if c =? GT then
             match l with
             | c' :: _ => if c' =? GT then modify (advance 2) ;;; ret PLUS else modify (advance 1) ;;; ret GT
             | [] => modify (advance 1) ;;; ret GT
             end
           else modify (fun s => skip_word (ps_off s) (ps_rest s)) ;;; ret CH_a
       end in
     ret r) s = Ret (lex_kind x) s' [].
Proof.
  intros E Hd Hok Hsep Hsp. exists (mkPst (ps_off s + length (lex_bytes x)) rest). split; [by eapply at_advance|]. split; [done|].
  rewrite E. destruct x as [w|k].
  - destruct Hok as [Hne Hw]. destruct w as [|c w]; [done|]. pose proof Hw as [Hc _]%Forall_cons. destruct (word_char_strchr c Hc) as (_ & Hs & _).
    unfold strchr, symbols in Hs. apply bool_decide_eq_false in Hs. rewrite !not_elem_of_cons in Hs. destruct Hs as (? & ? & ? & ? & ? & ? & ? & _).
    cbn [lex_bytes app]. rewrite bool_decide_eq_false_2 by (rewrite !not_elem_of_cons; split_and!; try done; apply not_elem_of_nil).
    rewrite (proj2 (Z.eqb_neq c GT)) by done. cbn. rewrite E. cbn [lex_bytes]. rewrite (skip_word_spec (ps_off s) (c :: w) rest Hw); [done|].
    destruct rest as [|c' rest]; [done|]. split; [exact Hsep|]. rewrite Forall_forall in Htext. apply Htext.
    assert (c' ∈ drop (ps_off s) text) as Hin by (rewrite <- Hd, E; cbn; rewrite elem_of_cons, elem_of_app, elem_of_cons; tauto).
    rewrite <- (take_drop (ps_off s) text). apply elem_of_app. by right.
  - unfold lex_ok, sym_kinds in Hok. rewrite !elem_of_cons in Hok. unfold advance.
    assert (bool_decide (GT ∈ [BAR; LPAREN; RPAREN; SEMI; AMP; LT]) = false) as Hgt by done.
    destruct Hok as [->|[->|[->|[->|[->|[->|[->|[->|Hk]]]]]]]];
      [cbn in *; rewrite bool_decide_eq_true_2 by (rewrite !elem_of_cons; tauto); cbn; by rewrite E..| | |by apply elem_of_nil in Hk].
    + cbn [lex_bytes Z.eqb app GT PLUS Pos.eqb] in *. rewrite Hgt. destruct rest as [|c' rest]; cbn; [by rewrite E|]. cbn in Hsep.
      rewrite (proj2 (Z.eqb_neq c' GT)) by by apply Hsep. cbn. by rewrite E.
    + change (lex_bytes (LSym PLUS)) with [GT; GT] in *. cbn [app]. rewrite Hgt. cbn. by rewrite E.
Qed.

Lemma gettoken_lex s x xs : at_lex s (x :: xs) -> exists t s', gettoken s = Ret (lex_kind x, t) s' [] /\ at_lex s' xs /\ tok_str t = lex_bytes x /\
  (forall w, x = LWord w -> word_tok t).
Proof.
  intros Hat. destruct (at_skip s _ Hat) as [Hat1 (rest & E & Hok & Hsep & Hsp)]. set (s1 := skip s) in *.
  destruct (token_lex s1 x xs rest E (proj2 Hat1) Hok Hsep Hsp) as (s2 & Hat2 & Hoff & Hrun).
  destruct (at_skip s2 xs Hat2) as [Hat3 _]. exists (ps_off s1, ps_off s2), (skip s2).
  assert (tok_str (ps_off s1, ps_off s2) = lex_bytes x) as Htok.
  { unfold tok_str, slice. cbn. rewrite <- (proj2 Hat1), E, Hoff. replace (ps_off s1 + length (lex_bytes x) - ps_off s1)%nat with (length (lex_bytes x)) by lia. apply take_app_length. }
  split; [|split; [done|split; [done|]]].
  - unfold gettoken. rewrite bind_modify. fold s1. rewrite bind_gets. unfold id at 1.
    unfold bind at 1 in Hrun. unfold bind at 1.
    match type of Hrun with match ?m with _ => _ end = _ => destruct m as [r s2' t| |]; [|done|done] end.
    cbn in Hrun. injection Hrun as -> -> Ht. rewrite app_nil_r in Ht. subst t. done.
  - intros w ->. destruct Hok as [Hne Hw]. unfold word_tok. rewrite Htok. cbn [fst snd lex_bytes] in *. pose proof (proj2 Hat1) as Hd.
    assert (length (w ++ rest) = length text - ps_off s1)%nat as Hl by (rewrite <- E, Hd; apply length_drop). rewrite length_app in Hl.
    destruct w as [|c w]; [done|]. cbn [length] in *. split; [lia|]. split; [done|]. intros c' Hc'. rewrite Hoff in Hc'.
    rewrite <- lookup_drop, <- Hd, E in Hc'. change (S (length w)) with (length (c :: w)) in Hc'.
    rewrite <- (Nat.add_0_r (length (c :: w))) in Hc'. rewrite lookup_app_r in Hc' by lia. replace (length (c :: w) + 0 - length (c :: w))%nat with 0%nat in Hc' by lia.
    destruct rest as [|c0 rest]; [done|]. injection Hc' as <-. exact Hsep.
Qed.

Lemma gettoken_end s : at_lex s [] -> exists t s', gettoken s = Ret (0, t) s' [] /\ at_lex s' [].
Proof.
  intros Hat. destruct (at_skip s _ Hat) as [Hat1 E]. destruct (at_skip _ _ Hat1) as [Hat2 _].
  eexists _, _. split; [|exact Hat2]. unfold gettoken. rewrite bind_modify, bind_gets. unfold id at 1. rewrite E. done.
Qed.

Definition next_in (toks : bytes) (xs : list lexeme) : bool := match xs with x :: _ => strchr toks (lex_head x) | [] => false end.

Lemma peek_lex toks s xs : at_lex s xs -> exists s', peek toks s = Ret (next_in toks xs) s' [] /\ at_lex s' xs.
Proof.
  intros Hat. destruct (at_skip s _ Hat) as [Hat1 Hx]. exists (skip s). split; [|done]. unfold peek. rewrite bind_modify. unfold gets. f_equal.
  destruct xs as [|x xs]; [by rewrite Hx|]. destruct Hx as (rest & -> & Hok & _). destruct (lex_head_spec x Hok) as (l & -> & _). done.
Qed.

Lemma at_length s xs : at_lex s xs -> (length xs <= length (ps_rest s))%nat.
Proof.
  intros [Hsp _]. revert Hsp. generalize (ps_rest s). induction xs as [|x xs IH]; intros l; [cbn; lia|].
  intros (ws & rest & -> & _ & Hok & _ & Hsp). specialize (IH _ Hsp). rewrite !length_app. destruct (lex_head_spec x Hok) as (l' & -> & _). cbn. lia.
Qed.

(** ** Redirections and arguments *)

Definition rs_match (rs : list redir) (l : list (token * Z * Z)) : Prop :=
  Forall2 (fun r x => tok_str x.1.1 = r.2 /\ x.1.2 = (rkind_mode r.1).1 /\ x.2 = (rkind_mode r.1).2 /\ word_tok x.1.1) rs l.

Lemma redirs_loop_lex rs : forall fuel s ys acc, at_lex s (redirs_lex rs ++ ys) -> next_in [LT; GT] ys = false -> (length rs < fuel)%nat ->
  exists l s', redirs_loop fuel acc s = Ret (acc ++ l) s' [] /\ at_lex s' ys /\ rs_match rs l.
Proof.
  induction rs as [|[k w] rs IH]; intros fuel s ys acc Hat Hys Hf; (destruct fuel as [|fuel]; [cbn in Hf; lia|]); cbn [redirs_loop].
  - destruct (peek_lex [LT; GT] s _ Hat) as (s' & Hp & Hat'). cbn [app redirs_lex] in *. rewrite (bind_run _ _ _ _ _ Hp).
    cbn in *. rewrite Hys. cbn. exists [], s'. rewrite app_nil_r. split; [done|]. split; [done|]. constructor.
  - destruct (peek_lex [LT; GT] s _ Hat) as (s1 & Hp & Hat1).
    assert (peek [LT; GT] s = Ret true s1 []) as Hp' by (rewrite Hp; by destruct k). rewrite (bind_run _ _ _ _ _ Hp'). cbn [negb]. cbv iota.
    change (redirs_lex ((k, w) :: rs) ++ ys) with (LSym (rkind_sym k) :: LWord w :: (redirs_lex rs ++ ys)) in Hat1.
    destruct (gettoken_lex s1 _ _ Hat1) as (t1 & s2 & Ht1 & Hat2 & _). rewrite (bind_run _ _ _ _ _ Ht1).
    destruct (gettoken_lex s2 _ _ Hat2) as (t2 & s3 & Ht2 & Hat3 & Hstr & Hword). rewrite (bind_run _ _ _ _ _ Ht2). cbn [fst snd lex_kind].
    change (CH_a =? CH_a) with true. cbn [negb]. cbv iota. set (x := (t2, (rkind_mode k).1, (rkind_mode k).2)).
    destruct (IH fuel s3 ys (acc ++ [x]) Hat3 Hys) as (l & s' & Hrun & Hat' & Hm); [cbn in Hf; lia|].
    exists (x :: l), s'. split; [|split; [done|constructor; [|done]; split; [done|]; split; [done|]; split; [done|]; by eapply Hword]].
    rewrite <- app_assoc in Hrun. by destruct k.
Qed.

Lemma redirs_length s rs ys : at_lex s (redirs_lex rs ++ ys) -> (length rs < S (length (ps_rest s)))%nat.
Proof.
  intros Hat. apply at_length in Hat. rewrite length_app in Hat. assert (length rs <= length (redirs_lex rs))%nat; [|lia].
  clear. induction rs as [|r rs IH]; [done|]. change (redirs_lex (r :: rs)) with (redir_lex r ++ redirs_lex rs).
  rewrite length_app. cbn [length redir_lex]. lia.
Qed.

Lemma redirs_lex_ok s rs ys acc : at_lex s (redirs_lex rs ++ ys) -> next_in [LT; GT] ys = false ->
  exists l s', with_fuel (fun n => redirs_loop n acc) s = Ret (acc ++ l) s' [] /\ at_lex s' ys /\ rs_match rs l.
Proof.
  intros Hat Hys. unfold with_fuel. rewrite bind_gets. unfold id. apply redirs_loop_lex; [done|done|]. by eapply redirs_length.
Qed.

(** What ends a simple command. *)
Definition follow (ys : list lexeme) : Prop := match ys with [] => True | x :: _ => exists k, x = LSym k /\ k ∈ [BAR; RPAREN; AMP; SEMI] end.

Lemma follow_redir ys : follow ys -> next_in [LT; GT] ys = false /\ next_in [LPAREN] ys = false.
Proof.
  destruct ys as [|x ys]; [done|]. intros (k & -> & Hk). rewrite !elem_of_cons in Hk.
  destruct Hk as [->|[->|[->|[->|Hk]]]]; [done..|by apply elem_of_nil in Hk].
Qed.
Lemma follow_stop ys : follow ys -> next_in [BAR; RPAREN; AMP; SEMI] ys = match ys with [] => false | _ => true end.
Proof.
  destruct ys as [|x ys]; [done|]. intros (k & -> & Hk). rewrite !elem_of_cons in Hk.
  destruct Hk as [->|[->|[->|[->|Hk]]]]; [done..|by apply elem_of_nil in Hk].
Qed.
Lemma at_word s w ys : at_lex s (LWord w :: ys) -> is_word w.
Proof. by intros [(ws & rest & _ & _ & Hw & _) _]. Qed.
Lemma word_next l w ys : is_word w -> (forall c, c ∈ l -> strchr symbols c = true) -> next_in l (LWord w :: ys) = false.
Proof.
  intros [Hne Hw] Hl. cbn. unfold lex_head. destruct w as [|c w]; [done|]. apply Forall_cons in Hw as [Hc _].
  cbn. destruct (word_char_strchr c Hc) as (_ & Hs & _). unfold strchr in *. apply bool_decide_eq_false_2. intros Hin. specialize (Hl c Hin). congruence.
Qed.
Lemma stop_symbols c : c ∈ [BAR; RPAREN; AMP; SEMI] \/ c ∈ [LPAREN] \/ c ∈ [LT; GT] -> strchr symbols c = true.
Proof. unfold strchr, symbols. intros H. apply bool_decide_eq_true_2. rewrite !elem_of_cons in *. tauto. Qed.

Definition args_match (args : list (bytes * list redir)) (ts : list token) : Prop :=
  Forall2 (fun a t => tok_str t = a.1 /\ word_tok t) args ts.

Lemma exec_loop_lex args : forall fuel s ys ts rs, at_lex s (args_lex args ++ ys) -> follow ys ->
  (length ts + length args < MAXARGS)%nat -> (length args < fuel)%nat ->
  exists ts' l s', exec_loop fuel ts rs s = Ret (ts ++ ts', rs ++ l) s' [] /\ at_lex s' ys /\ args_match args ts' /\ rs_match (mjoin args.*2) l.
Proof.
  induction args as [|[w ars] args IH]; intros fuel s ys ts rs Hat Hys Hmax Hf; (destruct fuel as [|fuel]; [cbn in Hf; lia|]); cbn [exec_loop].
  - destruct (peek_lex [BAR; RPAREN; AMP; SEMI] s _ Hat) as (s1 & Hp & Hat1). cbn [args_lex app fmap list_fmap mjoin list_join] in *.
    rewrite (follow_stop ys Hys) in Hp. rewrite (bind_run _ _ _ _ _ Hp). exists [], []. rewrite !app_nil_r.
    destruct ys as [|y ys]; [|exists s1; split; [done|]; split; [done|]; split; constructor].
    destruct (gettoken_end s1 Hat1) as (t & s2 & Ht & Hat2). cbv iota. rewrite (bind_run _ _ _ _ _ Ht). exists s2.
    split; [done|]. split; [done|]. split; constructor.
  - change (args_lex ((w, ars) :: args) ++ ys) with (LWord w :: (redirs_lex ars ++ args_lex args) ++ ys) in Hat. rewrite <- app_assoc in Hat.
    destruct (peek_lex [BAR; RPAREN; AMP; SEMI] s _ Hat) as (s1 & Hp & Hat1).
    rewrite (word_next _ w _ (at_word _ _ _ Hat)) in Hp by (intros c Hc; apply stop_symbols; by left). rewrite (bind_run _ _ _ _ _ Hp). cbv iota.
    destruct (gettoken_lex s1 _ _ Hat1) as (t & s2 & Ht & Hat2 & Hstr & Hword). rewrite (bind_run _ _ _ _ _ Ht). cbn [fst snd lex_kind].
    change (CH_a =? 0) with false. change (CH_a =? CH_a) with true. cbn [negb]. cbv iota.
    cbn [length] in Hmax, Hf. rewrite (proj2 (Nat.leb_gt MAXARGS (length (ts ++ [t])))) by (rewrite length_app; cbn [length]; lia). cbv iota.
    destruct (redirs_lex_ok s2 ars (args_lex args ++ ys) rs Hat2) as (l1 & s3 & Hr & Hat3 & Hm1).
    { destruct args as [|[w' ars'] args]; [by apply follow_redir|].
      apply word_next; [|intros c Hc; apply stop_symbols; tauto].
      apply (spells_ok _ _ (LWord w') (proj1 Hat2)). apply elem_of_app. right. by left. }
    cbn [fst snd] in Hr |- *. rewrite (bind_run _ _ _ _ _ Hr).
    destruct (IH fuel s3 ys (ts ++ [t]) (rs ++ l1) Hat3 Hys) as (ts' & l & s' & Hrun & Hat' & Ha & Hm); [rewrite length_app; cbn [length]; lia|lia|].
    exists (t :: ts'), (l1 ++ l), s'. rewrite <- !app_assoc in Hrun. split; [exact Hrun|]. split; [done|].
    split; [constructor; [|done]; split; [done|by eapply Hword]|by apply Forall2_app].
Qed.

Lemma args_length s args ys : at_lex s (args_lex args ++ ys) -> (length args < S (length (ps_rest s)))%nat.
Proof.
  intros Hat. apply at_length in Hat. rewrite length_app in Hat. assert (length args <= length (args_lex args))%nat; [|lia].
  clear. induction args as [|a args IH]; [done|]. change (args_lex (a :: args)) with (arg_lex a ++ args_lex args).
  rewrite length_app. cbn [length arg_lex]. lia.
Qed.

Lemma exec_lex_ok s args ys rs : at_lex s (args_lex args ++ ys) -> follow ys -> (length args < MAXARGS)%nat ->
  exists ts l s', with_fuel (fun n => exec_loop n [] rs) s = Ret (ts, rs ++ l) s' [] /\ at_lex s' ys /\ args_match args ts /\ rs_match (mjoin args.*2) l.
Proof.
  intros Hat Hys Hmax. unfold with_fuel. rewrite bind_gets. unfold id.
  apply (exec_loop_lex args _ s ys [] rs); [done|done|done|]. by eapply args_length.
Qed.

Lemma back_loop_lex n : forall fuel s ys c, at_lex s (replicate n (LSym AMP) ++ ys) -> next_in [AMP] ys = false -> (n < fuel)%nat ->
  exists s', back_loop fuel c s = Ret (Nat.iter n BACK c) s' [] /\ at_lex s' ys.
Proof.
  induction n as [|n IH]; intros fuel s ys c Hat Hys Hf; (destruct fuel as [|fuel]; [lia|]); cbn [back_loop replicate app] in *.
  - destruct (peek_lex [AMP] s _ Hat) as (s1 & Hp & Hat1). rewrite Hys in Hp. rewrite (bind_run _ _ _ _ _ Hp). by exists s1.
  - destruct (peek_lex [AMP] s _ Hat) as (s1 & Hp & Hat1). change (next_in [AMP] (LSym AMP :: _)) with true in Hp. rewrite (bind_run _ _ _ _ _ Hp). cbv iota.
    destruct (gettoken_lex s1 _ _ Hat1) as (t & s2 & Ht & Hat2 & _). rewrite (bind_run _ _ _ _ _ Ht).
    destruct (IH fuel s2 ys (BACK c) Hat2 Hys) as (s' & Hrun & Hat'); [lia|]. exists s'. split; [|done]. rewrite Hrun. by rewrite Nat.iter_succ_r.
Qed.

Lemma back_lex_ok s n ys c : at_lex s (replicate n (LSym AMP) ++ ys) -> next_in [AMP] ys = false ->
  exists s', with_fuel (fun m => back_loop m c) s = Ret (Nat.iter n BACK c) s' [] /\ at_lex s' ys.
Proof.
  intros Hat Hys. unfold with_fuel. rewrite bind_gets. unfold id. apply back_loop_lex; [done|done|].
  apply at_length in Hat. rewrite length_app, length_replicate in Hat. lia.
Qed.

(** ** The parse functions *)

(** The text ends or goes on with a symbol of ks. *)
Definition follow_in (ks : list Z) (ys : list lexeme) : Prop := match ys with [] => True | x :: _ => exists k, x = LSym k /\ k ∈ ks end.

Lemma follow_next ks l ys : follow_in ks ys -> forallb (fun k => negb (next_in l [LSym k])) ks = true -> next_in l ys = false.
Proof.
  destruct ys as [|x ys]; [done|]. intros (k & -> & Hk) Hall. rewrite forallb_forall in Hall. apply list_elem_of_In in Hk.
  specialize (Hall k Hk). by apply negb_true_iff in Hall.
Qed.
Lemma follow_in_follow ks ys : follow_in ks ys -> ks ⊆ [BAR; RPAREN; AMP; SEMI] -> follow ys.
Proof. destruct ys as [|x ys]; [done|]. intros (k & -> & Hk) Hsub. exists k. split; [done|]. by apply Hsub. Qed.

Definition parsed (c : cmd) (t : scmd) : Prop := strings tok_str c = t /\ Forall word_tok (toks c).
Definition parses (m : M pst cmd) (s : pst) (t : scmd) (ys : list lexeme) : Prop :=
  exists c s', m s = Ret c s' [] /\ at_lex s' ys /\ parsed c t.

Lemma parses_bind {A} (m : M pst A) (k : A -> M pst cmd) s s' a t ys : m s = Ret a s' [] -> parses (k a) s' t ys -> parses (bind m k) s t ys.
Proof. unfold parses. intros Hm. by rewrite (bind_run _ _ _ _ _ Hm). Qed.

Lemma wrap_parsed rs : forall l c t, parsed c t -> rs_match rs l -> parsed (wrap c l) (swrap t rs).
Proof.
  induction rs as [|r rs IH]; intros l c t Hc Hm; inversion Hm as [|? x ? l' Hx Hm']; subst; [done|].
  unfold wrap, swrap. cbn [fold_left]. apply (IH l'); [|done]. destruct Hc as [Hs Hw], Hx as (H1 & H2 & H3 & H4). split.
  - cbn. by rewrite Hs, H1, H2, H3.
  - cbn. apply Forall_app. split; [done|]. by constructor.
Qed.
Lemma back_parsed n c t : parsed c t -> parsed (Nat.iter n BACK c) (Nat.iter n SBack t).
Proof. intros Hc. induction n as [|n [IH1 IH2]]; [done|]. rewrite !Nat.iter_succ. split; [cbn; by rewrite IH1|done]. Qed.
Lemma pair_parsed c t c' t' : parsed c t -> parsed c' t' -> parsed (PIPE c c') (SPipe t t') /\ parsed (LIST c c') (SList t t').
Proof. intros [<- ?] [<- ?]. split; (split; [done|]); cbn; by apply Forall_app. Qed.
Lemma exec_parsed args ts : args_match args ts -> parsed (EXEC ts) (SExec args.*1).
Proof.
  intros Hm. split.
  - cbn. f_equal. induction Hm as [|a t args ts [Ha _] _ IH]; [done|]. cbn. by rewrite Ha, IH.
  - cbn. induction Hm as [|a t args ts [_ Hw] _ IH]; by constructor.
Qed.

Definition line_ok (l : line) : Prop := line_fits l -> forall fuel s ys, (line_fuel l <= fuel)%nat -> at_lex s (line_lex l ++ ys) ->
  follow_in [RPAREN] ys -> parses (parse NLine fuel) s (line_cmd l) ys.
Definition pipeline_ok (p : pipeline) : Prop := pipeline_fits p -> forall fuel s ys, (pipeline_fuel p <= fuel)%nat -> at_lex s (pipeline_lex p ++ ys) ->
  follow_in [RPAREN; AMP; SEMI] ys -> parses (parse NPipe fuel) s (pipeline_cmd p) ys.
Definition simple_ok (e : simple) : Prop := simple_fits e -> forall fuel s ys, (simple_fuel e <= fuel)%nat -> at_lex s (simple_lex e ++ ys) ->
  follow ys -> parses (parse NExec fuel) s (simple_cmd e) ys.

Lemma words_ok rs args : simple_ok (Words rs args).
Proof.
  intros Hfit fuel s ys Hf Hat Hys. cbn in Hf. destruct fuel as [|fuel]; [lia|]. cbn [parse simple_lex simple_fits] in *. unfold parseexec. rewrite <- app_assoc in Hat.
  destruct (peek_lex [LPAREN] s _ Hat) as (s1 & Hp & Hat1).
  assert (forall l, (forall c, c ∈ l -> strchr symbols c = true) -> next_in l ys = false -> next_in l (args_lex args ++ ys) = false) as Hargs.
  { intros l Hl Hn. destruct args as [|[w ars] args]; [done|]. apply word_next; [|done].
    apply (spells_ok _ _ (LWord w) (proj1 Hat)). apply elem_of_app. right. by left. }
  assert (next_in [LPAREN] (redirs_lex rs ++ args_lex args ++ ys) = false) as Hn.
  { destruct rs as [|[k w] rs]; [apply Hargs; [intros; apply stop_symbols; tauto|by apply follow_redir]|by destruct k]. }
  rewrite Hn in Hp. apply (parses_bind _ _ _ _ _ _ _ Hp). cbv iota.
  destruct (redirs_lex_ok s1 rs _ [] Hat1) as (l1 & s2 & Hr & Hat2 & Hm1); [apply Hargs; [intros; apply stop_symbols; tauto|by apply follow_redir]|].
  apply (parses_bind _ _ _ _ _ _ _ Hr). destruct (exec_lex_ok s2 args ys ([] ++ l1) Hat2 Hys Hfit) as (ts & l2 & s3 & Hx & Hat3 & Ha & Hm2).
  apply (parses_bind _ _ _ _ _ _ _ Hx). eexists _, s3. split; [done|]. split; [done|]. cbn [simple_cmd fst snd app].
  apply wrap_parsed; [by apply exec_parsed|by apply Forall2_app].
Qed.

Lemma block_ok l rs : line_ok l -> simple_ok (Block l rs).
Proof.
  intros IH Hfit fuel s ys Hf Hat Hys. cbn [simple_fuel] in Hf. destruct fuel as [|[|fuel]]; [lia|lia|]. cbn [parse simple_lex simple_fits app] in *. unfold parseexec, parseblock.
  destruct (peek_lex [LPAREN] s _ Hat) as (s1 & Hp & Hat1). change (next_in [LPAREN] (LSym LPAREN :: _)) with true in Hp. apply (parses_bind _ _ _ _ _ _ _ Hp). cbv iota.
  destruct (peek_lex [LPAREN] s1 _ Hat1) as (s2 & Hp2 & Hat2). change (next_in [LPAREN] (LSym LPAREN :: _)) with true in Hp2. apply (parses_bind _ _ _ _ _ _ _ Hp2). cbn [negb]. cbv iota.
  destruct (gettoken_lex s2 _ _ Hat2) as (t & s3 & Ht & Hat3 & _). apply (parses_bind _ _ _ _ _ _ _ Ht). rewrite <- app_assoc in Hat3. cbn [app] in Hat3.
  destruct (IH Hfit fuel s3 (LSym RPAREN :: redirs_lex rs ++ ys)) as (c & s4 & Hl & Hat4 & Hc); [lia|done|exists RPAREN; split; [done|by left]|].
  apply (parses_bind _ _ _ _ _ _ _ Hl). destruct (peek_lex [RPAREN] s4 _ Hat4) as (s5 & Hp5 & Hat5). change (next_in [RPAREN] (LSym RPAREN :: _)) with true in Hp5.
  apply (parses_bind _ _ _ _ _ _ _ Hp5). cbn [negb]. cbv iota. destruct (gettoken_lex s5 _ _ Hat5) as (t6 & s6 & Ht6 & Hat6 & _). apply (parses_bind _ _ _ _ _ _ _ Ht6).
  destruct (redirs_lex_ok s6 rs ys [] Hat6) as (l1 & s7 & Hr & Hat7 & Hm); [by apply follow_redir|].
  unfold parseredirs. apply (parses_bind _ _ _ _ _ _ _ Hr). eexists _, s7. split; [done|]. split; [done|]. cbn [simple_cmd app]. by apply wrap_parsed.
Qed.

Lemma single_ok e : simple_ok e -> pipeline_ok (Single e).
Proof.
  intros IH Hfit fuel s ys Hf Hat Hys. cbn [pipeline_fuel] in Hf. destruct fuel as [|fuel]; [lia|]. cbn [parse pipeline_lex] in *. unfold parsepipe.
  destruct (IH Hfit fuel s ys) as (c & s1 & He & Hat1 & Hc); [lia|done|eapply follow_in_follow; [done|set_solver]|].
  apply (parses_bind _ _ _ _ _ _ _ He). destruct (peek_lex [BAR] s1 _ Hat1) as (s2 & Hp & Hat2). rewrite (follow_next _ _ _ Hys) in Hp by done.
  apply (parses_bind _ _ _ _ _ _ _ Hp). by exists c, s2.
Qed.

Lemma bar_ok e p : simple_ok e -> pipeline_ok p -> pipeline_ok (Bar e p).
Proof.
  intros IHe IHp [Hfe Hfp] fuel s ys Hf Hat Hys. cbn [pipeline_fuel] in Hf. destruct fuel as [|fuel]; [lia|]. cbn [parse pipeline_lex] in *. unfold parsepipe.
  rewrite <- app_assoc in Hat. cbn [app] in Hat.
  destruct (IHe Hfe fuel s (LSym BAR :: pipeline_lex p ++ ys)) as (c & s1 & He & Hat1 & Hc); [lia|done|exists BAR; split; [done|by left]|].
  apply (parses_bind _ _ _ _ _ _ _ He). destruct (peek_lex [BAR] s1 _ Hat1) as (s2 & Hp & Hat2). change (next_in [BAR] (LSym BAR :: _)) with true in Hp.
  apply (parses_bind _ _ _ _ _ _ _ Hp). cbv iota. destruct (gettoken_lex s2 _ _ Hat2) as (t & s3 & Ht & Hat3 & _). apply (parses_bind _ _ _ _ _ _ _ Ht).
  destruct (IHp Hfp fuel s3 ys) as (c' & s4 & Hpp & Hat4 & Hc'); [lia|done|done|]. apply (parses_bind _ _ _ _ _ _ _ Hpp).
  exists (PIPE c c'), s4. split; [done|]. split; [done|]. by apply pair_parsed.
Qed.

(** A pipeline and its &s, at the start of [parseline]. *)
Lemma pipe_amps p n fuel s ys k t zs : pipeline_ok p -> pipeline_fits p -> (pipeline_fuel p <= fuel)%nat ->
  at_lex s (pipeline_lex p ++ replicate n (LSym AMP) ++ ys) -> follow_in [RPAREN; SEMI] ys ->
  (forall c s', at_lex s' ys -> parsed c (Nat.iter n SBack (pipeline_cmd p)) -> parses (k c) s' t zs) ->
  parses (let! c := parse NPipe fuel in let! c := with_fuel (fun m => back_loop m c) in k c) s t zs.
Proof.
  intros IH Hfit Hf Hat Hys Hk. destruct (IH Hfit fuel s (replicate n (LSym AMP) ++ ys)) as (c & s1 & Hp & Hat1 & Hc); [done|done| |].
  { destruct n as [|n]; [|exists AMP; split; [done|set_solver]]. destruct ys as [|y ys]; [done|]. destruct Hys as (k' & -> & Hk'). exists k'. split; [done|]. set_solver. }
  apply (parses_bind _ _ _ _ _ _ _ Hp). destruct (back_lex_ok s1 n ys c Hat1) as (s2 & Hb & Hat2); [by eapply follow_next|].
  apply (parses_bind _ _ _ _ _ _ _ Hb). apply Hk; [done|]. by apply back_parsed.
Qed.

Lemma last_ok p n : pipeline_ok p -> line_ok (Line p n).
Proof.
  intros IH Hfit fuel s ys Hf Hat Hys. cbn [line_fuel] in Hf. destruct fuel as [|fuel]; [lia|]. cbn [parse line_lex] in *. unfold parseline. rewrite <- app_assoc in Hat.
  eapply (pipe_amps p n); [done|done|lia|exact Hat|destruct ys as [|y ys]; [done|]; destruct Hys as (k & -> & Hk); exists k; split; [done|set_solver]|].
  intros c s1 Hat1 Hc. destruct (peek_lex [SEMI] s1 _ Hat1) as (s2 & Hp & Hat2). rewrite (follow_next _ _ _ Hys) in Hp by done.
  apply (parses_bind _ _ _ _ _ _ _ Hp). by exists c, s2.
Qed.

Lemma seq_ok p n l : pipeline_ok p -> line_ok l -> line_ok (Seq p n l).
Proof.
  intros IHp IHl [Hfp Hfl] fuel s ys Hf Hat Hys. cbn [line_fuel] in Hf. destruct fuel as [|fuel]; [lia|]. cbn [parse line_lex] in *. unfold parseline.
  rewrite <- !app_assoc in Hat. cbn [app] in Hat.
  eapply (pipe_amps p n); [done|done|lia|exact Hat|exists SEMI; split; [done|set_solver]|].
  intros c s1 Hat1 Hc. destruct (peek_lex [SEMI] s1 _ Hat1) as (s2 & Hp & Hat2). change (next_in [SEMI] (LSym SEMI :: _)) with true in Hp.
  apply (parses_bind _ _ _ _ _ _ _ Hp). cbv iota. destruct (gettoken_lex s2 _ _ Hat2) as (t & s3 & Ht & Hat3 & _). apply (parses_bind _ _ _ _ _ _ _ Ht).
  destruct (IHl Hfl fuel s3 ys) as (c' & s4 & Hl & Hat4 & Hc'); [lia|done|done|]. apply (parses_bind _ _ _ _ _ _ _ Hl).
  exists (LIST c c'), s4. split; [done|]. split; [done|]. by apply pair_parsed.
Qed.

Lemma syntax_ok : (forall l, line_ok l) /\ (forall p, pipeline_ok p) /\ (forall e, simple_ok e).
Proof. apply syntax_ind; auto using last_ok, seq_ok, single_ok, bar_ok, words_ok, block_ok. Qed.
End text.

(** The recursion is at most four calls deep for every lexeme read. *)
Lemma fuel_length : (forall l, line_fuel l <= 4 * length (line_lex l) + 3)%nat /\
  (forall p, pipeline_fuel p <= 4 * length (pipeline_lex p) + 2)%nat /\ (forall e, simple_fuel e <= 4 * length (simple_lex e) + 1)%nat.
Proof.
  apply syntax_ind; intros; cbn [line_fuel pipeline_fuel simple_fuel line_lex pipeline_lex simple_lex length];
    rewrite ?length_app; cbn [length]; rewrite ?length_app; cbn [length]; lia.
Qed.

(** ** NUL termination *)

Lemma nulterminate_toks c : forall buf, nulterminate c buf = fold_left put_nul (toks c) buf.
Proof.
  induction c as [args|c IH f m d|l IHl r IHr|l IHl r IHr|c IH]; intros buf; cbn; rewrite ?fold_left_app; [done|by rewrite IH|by rewrite IHl, IHr..|by rewrite IH].
Qed.

Lemma put_nuls_lookup ts : forall buf i, fold_left put_nul ts buf !! i = if decide (i ∈ ts.*2 /\ i < length buf)%nat then Some 0 else buf !! i.
Proof.
  induction ts as [|t ts IH]; intros buf i; cbn [fold_left fmap list_fmap].
  - rewrite decide_False; [done|]. intros [Hi _]. by apply elem_of_nil in Hi.
  - rewrite IH. replace (length (put_nul buf t)) with (length buf) by (symmetry; apply length_insert). destruct (decide (i ∈ ts.*2 /\ (i < length buf)%nat)) as [[Hi Hl]|Hn].
    + rewrite decide_True; [done|]. split; [by right|done].
    + destruct (decide (i = t.2)) as [->|Hne].
      * unfold put_nul. destruct (decide (t.2 < length buf)%nat) as [Hl|Hl].
        -- rewrite decide_True by (split; [by left|done]). by apply list_lookup_insert_eq.
        -- rewrite decide_False by tauto. rewrite list_insert_ge by lia. done.
      * rewrite decide_False by (rewrite elem_of_cons; tauto). by apply list_lookup_insert_ne.
Qed.

Lemma put_nuls_length ts : forall buf, length (fold_left put_nul ts buf) = length buf.
Proof. induction ts as [|t ts IH]; intros buf; [done|]. cbn [fold_left]. rewrite IH. apply length_insert. Qed.

(** The C string at an address of a buffer. *)
Definition cstr_at (buf : bytes) (t : token) : bytes := cstring (drop t.1 buf).

Lemma cstring_prefix w : forall buf a, Forall (fun c => c <> 0) w -> (forall i c, w !! i = Some c -> buf !! (a + i)%nat = Some c) ->
  buf !! (a + length w)%nat = Some 0 -> cstring (drop a buf) = w.
Proof.
  induction w as [|c w IH]; intros buf a Hw Hin Hend.
  - cbn in Hend. rewrite Nat.add_0_r in Hend. by rewrite (drop_S _ _ _ Hend).
  - apply Forall_cons in Hw as [Hc Hw]. pose proof (Hin 0%nat c eq_refl) as H0. rewrite Nat.add_0_r in H0. rewrite (drop_S _ _ _ H0). cbn.
    rewrite (proj2 (Z.eqb_neq c 0)) by done. f_equal. apply IH; [done| |].
    + intros i c' Hi. specialize (Hin (S i) c' Hi). by rewrite Nat.add_succ_r in Hin.
    + cbn in Hend. by rewrite Nat.add_succ_r in Hend.
Qed.

(** A NUL at the end of a word never falls inside another. *)
Lemma terminated text ts t : Forall (word_tok text) ts -> t ∈ ts -> cstr_at (fold_left put_nul ts (text ++ [0])) t = tok_str text t.
Proof.
  intros Hts Ht. pose proof Hts as Hall. rewrite Forall_forall in Hall. destruct (Hall t Ht) as (Hr & Hw & _).
  assert (length (tok_str text t) = t.2 - t.1)%nat as Hl by (unfold tok_str, slice; rewrite length_take, length_drop; lia).
  apply cstring_prefix.
  - eapply Forall_impl; [exact Hw|]. intros c Hc. by destruct (word_char_strchr c Hc) as (_ & _ & ?).
  - intros i c Hi. pose proof (lookup_lt_Some _ _ _ Hi) as Hlt. assert (text !! (t.1 + i)%nat = Some c) as Hti.
    { unfold tok_str, slice in Hi. rewrite lookup_take_lt, lookup_drop in Hi by lia. done. }
    rewrite put_nuls_lookup, decide_False; [by rewrite lookup_app_l by lia|]. intros [(t' & E & Ht')%list_elem_of_fmap _].
    destruct (Hall t' Ht') as (_ & _ & Hend). rewrite E in Hti. specialize (Hend c Hti).
    rewrite Forall_lookup in Hw. specialize (Hw i c Hi). cbn in Hw. congruence.
  - rewrite Hl. replace (t.1 + (t.2 - t.1))%nat with t.2 by lia. rewrite put_nuls_lookup, decide_True; [done|].
    split; [apply list_elem_of_fmap; by exists t|]. rewrite length_app. cbn. lia.
Qed.

Lemma strings_ext f g c : (forall t, t ∈ toks c -> f t = g t) -> strings f c = strings g c.
Proof.
  induction c as [args|c IH t m d|l IHl r IHr|l IHl r IHr|c IH]; cbn; intros H.
  - f_equal. apply list_fmap_ext. intros i t Hi. apply H. by eapply list_elem_of_lookup_2.
  - rewrite IH, H; [done|set_solver..].
  - rewrite IHl, IHr; [done|set_solver..].
  - rewrite IHl, IHr; [done|set_solver..].
  - by rewrite IH.
Qed.

(** ** Arbitrary input *)

Definition panics : list string := ["missing file for redirection"; "syntax"; "too many args"; "syntax - missing )"]%string.

(** Fewer than MAXARGS words in every simple command. *)
Fixpoint cmd_fits (c : cmd) : Prop :=
  match c with
  | EXEC args => (length args < MAXARGS)%nat
  | REDIR c _ _ _ | BACK c => cmd_fits c
  | PIPE l r | LIST l r => cmd_fits l /\ cmd_fits r
  end.

Section any.
Context (text : bytes) (Htext : Forall (fun c => c <> 0) text).

Definition in_text (s : pst) : Prop := ps_rest s = drop (ps_off s) text.
Definition len (s : pst) : nat := length (ps_rest s).

(** m returns a result and state as Q says, or stops with a message of [panics]. *)
Definition runs {A} (m : M pst A) (s : pst) (Q : A -> pst -> Prop) : Prop :=
  match m s with
  | Ret a s' _ => Q a s'
  | Panic msg _ => msg ∈ panics
  | Sleep _ _ _ => False
  end.

Lemma runs_bind {A B} (m : M pst A) (k : A -> M pst B) s P Q : runs m s P -> (forall a s', P a s' -> runs (k a) s' Q) -> runs (bind m k) s Q.
Proof.
  unfold runs, bind. intros Hm Hk. destruct (m s) as [a s' t|msg t|]; [|done|done]. specialize (Hk a s' Hm).
  by destruct (k a s').
Qed.
Lemma runs_panic {A} msg s (Q : A -> pst -> Prop) : msg ∈ panics -> runs (panic msg) s Q.
Proof. done. Qed.
Lemma runs_mono {A} (m : M pst A) s (P Q : A -> pst -> Prop) : runs m s P -> (forall a s', P a s' -> Q a s') -> runs m s Q.
Proof. unfold runs. destruct (m s); auto. Qed.

Lemma in_text_suffix s n l : in_text s -> ps_rest s = n ++ l -> in_text (mkPst (ps_off s + length n) l).
Proof. unfold in_text. cbn. intros Hd E. by rewrite <- drop_drop, <- Hd, E, drop_app_length. Qed.

Lemma skip_ws_split l : forall off, exists n, l = n ++ ps_rest (skip_ws off l) /\ ps_off (skip_ws off l) = (off + length n)%nat /\
  match ps_rest (skip_ws off l) with c :: _ => strchr whitespace c = false | [] => True end.
Proof.
  induction l as [|c l IH]; intros off; [exists []; cbn; by rewrite Nat.add_0_r|]. cbn. destruct (strchr whitespace c) eqn:Ec.
  - destruct (IH (S off)) as (n & E1 & E2 & E3). exists (c :: n). cbn. rewrite <- E1. split; [done|]. split; [rewrite E2; lia|done].
  - exists []. cbn. by rewrite Nat.add_0_r, Ec.
Qed.
Lemma skip_word_split l : forall off, exists n, l = n ++ ps_rest (skip_word off l) /\ ps_off (skip_word off l) = (off + length n)%nat /\
  Forall (fun c => strchr whitespace c || strchr symbols c = false) n /\
  match ps_rest (skip_word off l) with c :: _ => strchr whitespace c || strchr symbols c = true | [] => True end.
Proof.
  induction l as [|c l IH]; intros off; [exists []; cbn; by rewrite Nat.add_0_r|]. cbn. destruct (strchr whitespace c || strchr symbols c) eqn:Ec.
  - exists []. cbn. by rewrite Nat.add_0_r, Ec.
  - destruct (IH (S off)) as (n & E1 & E2 & E3 & E4). exists (c :: n). cbn. rewrite <- E1. split; [done|]. split; [rewrite E2; lia|]. split; [by constructor|done].
Qed.

Lemma skip_in s : in_text s -> in_text (skip s) /\ (len (skip s) <= len s)%nat /\ match ps_rest (skip s) with c :: _ => strchr whitespace c = false | [] => True end.
Proof.
  intros Hs. unfold skip, len. destruct (skip_ws_split (ps_rest s) (ps_off s)) as (n & E1 & E2 & E3). split; [|split; [|done]].
  - pose proof (in_text_suffix s n _ Hs E1) as H. unfold in_text in *. cbn in H. by rewrite E2.
  - rewrite E1 at 2. rewrite length_app. lia.
Qed.

(** What a token leaves: a step over n characters. *)
Lemma step_in s n l : in_text s -> ps_rest s = n ++ l -> n <> [] -> in_text (mkPst (ps_off s + length n) l) /\ (len (mkPst (ps_off s + length n) l) < len s)%nat.
Proof. intros Hs E Hn. split; [by eapply in_text_suffix|]. unfold len. cbn. rewrite E, length_app. destruct n; [done|cbn; lia]. Qed.

Lemma word_run s c l : in_text s -> ps_rest s = c :: l -> strchr whitespace c = false -> strchr symbols c = false ->
  let s' := skip_word (ps_off s) (ps_rest s) in in_text s' /\ (len s' < len s)%nat /\ word_tok text (ps_off s, ps_off s').
Proof.
  intros Hs E Hb Hy s'. destruct (skip_word_split (ps_rest s) (ps_off s)) as (n & E1 & E2 & E3 & E4). fold s' in E1, E2, E4.
  assert (n <> []) as Hn. { intros ->. cbn in E1. rewrite <- E1, E in E4. by rewrite Hb, Hy in E4. }
  destruct (step_in s n _ Hs E1 Hn) as [H1 H2]. rewrite <- E2 in H1, H2. destruct s' as [o' r']. cbn in *. split; [done|]. split; [done|].
  assert (Forall (fun c => c <> 0) (n ++ r')) as H0 by (rewrite <- E1, Hs; by apply Forall_drop).
  assert (length (ps_rest s) = length text - ps_off s)%nat as Hl by (rewrite Hs; apply length_drop). rewrite E1, length_app in Hl. subst o'.
  destruct n as [|c0 n]; [done|]. split; [cbn [fst snd length] in *; lia|]. apply Forall_app in H0 as [H0 H0']. split.
  - unfold tok_str, slice. cbn [fst snd]. rewrite <- Hs, E1. replace (ps_off s + length (c0 :: n) - ps_off s)%nat with (length (c0 :: n)) by lia. rewrite take_app_length.
    rewrite Forall_forall in E3, H0 |- *. intros c' Hc'. unfold is_word_char. rewrite (E3 c' Hc'). specialize (H0 c' Hc'). by rewrite (proj2 (Z.eqb_neq c' 0)).
  - intros c' Hc'. cbn [snd] in Hc'. pose proof H1 as H1'. unfold in_text in H1'. cbn [ps_rest ps_off] in H1'. rewrite <- (Nat.add_0_r (_ + _)), <- lookup_drop, <- H1' in Hc'.
    destruct r' as [|c1 r']; [done|]. injection Hc' as <-. unfold is_word_char. by rewrite E4.
Qed.

Definition nonempty (s : pst) : Prop := ps_rest (skip s) <> [].

Lemma gettoken_any s : in_text s -> runs gettoken s (fun r s' => in_text s' /\ (len s' <= len s)%nat /\
  (r.1 <> 0 -> (len s' < len s)%nat) /\ (nonempty s -> r.1 <> 0) /\ (r.1 = CH_a -> word_tok text r.2)).
Proof.
  intros Hs. destruct (skip_in s Hs) as (H1 & Hl1 & Hb). unfold gettoken. eapply runs_bind with (P := fun _ s' => s' = skip s); [done|]. intros _ ? ->.
  eapply runs_bind with (P := fun a s' => a = skip s /\ s' = skip s); [done|]. intros ? ? [-> ->]. unfold nonempty. set (s1 := skip s) in *. cbn [fst snd].
  eapply runs_bind with (P := fun r s2 => in_text s2 /\ (len s2 <= len s1)%nat /\ (r <> 0 -> (len s2 < len s1)%nat) /\ (ps_rest s1 <> [] -> r <> 0) /\ (r = CH_a -> word_tok text (ps_off s1, ps_off s2))).
  - destruct (ps_rest s1) as [|c l] eqn:E; [by split_and!|].
    assert (forall n l', c :: l = n ++ l' -> n <> [] -> forall k, k <> 0 -> k <> CH_a -> runs (modify (advance (length n)) ;;; ret k) s1
      (fun r s2 => in_text s2 /\ (len s2 <= len s1)%nat /\ (r <> 0 -> (len s2 < len s1)%nat) /\ (c :: l <> [] -> r <> 0) /\ (r = CH_a -> word_tok text (ps_off s1, ps_off s2)))) as Hadv.
    { intros n l' El Hn k Hk0 Hka. unfold runs, bind, modify, ret, advance. rewrite E, El, drop_app_length. rewrite <- E in El.
      destruct (step_in s1 n l' H1 El Hn). split_and!; [done|lia|done..]. }
    case_bool_decide as Hc.
    { apply (Hadv [c] l); [done|done|..]; intros ->; set_solver by (intros; discriminate). }
    destruct (c =? GT) eqn:Ec.
    { assert (c = GT) as -> by lia. destruct l as [|c' l]; [by apply (Hadv [GT] [])|]. destruct (c' =? GT) eqn:Ec'; [|by apply (Hadv [GT] (c' :: l))].
      assert (c' = GT) as -> by lia. by apply (Hadv [GT; GT] l). }
    assert (strchr symbols c = false) as Hy.
    { unfold strchr. apply bool_decide_eq_false_2. unfold symbols. rewrite !not_elem_of_cons in *. destruct Hc as (? & ? & ? & ? & ? & ? & ?). split_and!; try done; lia. }
    destruct (word_run s1 c l H1 E Hb Hy) as (? & ? & ?). unfold runs, bind, modify, ret. split_and!; [done|lia|done..].
  - intros r s2 (? & ? & ? & ? & ?). eapply runs_bind with (P := fun a s' => a = ps_off s2 /\ s' = s2); [done|]. intros ? ? [-> ->].
    destruct (skip_in s2) as (? & ? & _); [done|]. unfold runs, bind, modify, ret. cbn [fst snd]. split_and!; [done|lia| |done|done]. intros Hr. specialize (H2 Hr). lia.
Qed.

Lemma skip_idem s : in_text s -> skip (skip s) = skip s.
Proof.
  intros Hs. destruct (skip_in s Hs) as (_ & _ & Hb). unfold skip at 1. destruct (skip s) as [o [|c l]]; [done|]. cbn [ps_rest ps_off] in *. by apply skip_ws_stop.
Qed.

Lemma peek_any l s : in_text s -> runs (peek l) s (fun b s' => in_text s' /\ (len s' <= len s)%nat /\ (b = true -> nonempty s') /\ peek l s' = Ret b s' []).
Proof.
  intros Hs. destruct (skip_in s Hs) as (H1 & Hl1 & _). unfold runs. unfold peek at 1. rewrite bind_modify. unfold gets at 1. split_and!; [done|done| |].
  - unfold nonempty. rewrite skip_idem by done. by destruct (ps_rest (skip s)).
  - unfold peek. by rewrite bind_modify, skip_idem.
Qed.

(** m reads on in the text and its result satisfies P. *)
Definition reads {A} (m : M pst A) (s : pst) (P : A -> Prop) : Prop := runs m s (fun a s' => in_text s' /\ (len s' <= len s)%nat /\ P a).

Lemma reads_bind {A B} (m : M pst A) (k : A -> M pst B) s P Q : reads m s P ->
  (forall a s', in_text s' -> (len s' <= len s)%nat -> P a -> reads (k a) s' Q) -> reads (bind m k) s Q.
Proof.
  intros Hm Hk. eapply runs_bind; [exact Hm|]. intros a s' (Hs & Hl & HP). eapply runs_mono; [by apply Hk|].
  intros b s2 (? & ? & ?). split_and!; [done|lia|done].
Qed.
Lemma reads_ret {A} (a : A) s (P : A -> Prop) : in_text s -> P a -> reads (ret a) s P.
Proof. done. Qed.
(** A look ahead; when it succeeds, [gettoken] makes progress. *)
Lemma reads_peek {A} l (k : bool -> M pst A) s Q : in_text s ->
  (forall b s', in_text s' -> (len s' <= len s)%nat -> (b = true -> nonempty s') -> peek l s' = Ret b s' [] -> reads (k b) s' Q) ->
  reads (let! b := peek l in k b) s Q.
Proof.
  intros Hs Hk. eapply runs_bind; [by apply peek_any|]. intros b s' (H1 & H2 & H3 & Hb). eapply runs_mono; [by apply (Hk b s')|].
  intros a s2 (? & ? & ?). split_and!; [done|lia|done].
Qed.
Lemma reads_run {A B} (m : M pst A) (k : A -> M pst B) s a Q : m s = Ret a s [] -> reads (k a) s Q -> reads (bind m k) s Q.
Proof. unfold reads, runs. intros Hm. by rewrite (bind_run _ _ _ _ _ Hm). Qed.
Lemma reads_token {A} (k : Z * token -> M pst A) s Q : in_text s ->
  (forall r s', in_text s' -> (len s' <= len s)%nat -> (r.1 <> 0 -> (len s' < len s)%nat) -> (nonempty s -> r.1 <> 0) -> (r.1 = CH_a -> word_tok text r.2) -> reads (k r) s' Q) ->
  reads (let! r := gettoken in k r) s Q.
Proof.
  intros Hs Hk. eapply runs_bind; [by apply gettoken_any|]. intros r s' (H1 & H2 & H3 & H4 & H5). eapply runs_mono; [by apply (Hk r s')|].
  intros b s2 (? & ? & ?). split_and!; [done|lia|done].
Qed.
Lemma reads_fuel {A} (f : nat -> M pst A) s Q : reads (f (S (len s))) s Q -> reads (with_fuel f) s Q.
Proof. unfold reads, runs, with_fuel. by rewrite bind_gets. Qed.

Definition word_redirs (rs : list (token * Z * Z)) : Prop := Forall (fun r => word_tok text r.1.1) rs.

Lemma redirs_any fuel : forall rs s, in_text s -> (len s < fuel)%nat -> word_redirs rs -> reads (redirs_loop fuel rs) s word_redirs.
Proof.
  induction fuel as [|fuel IH]; intros rs s Hs Hf Hrs; [lia|]. cbn [redirs_loop]. apply reads_peek; [done|]. intros [] s1 H1 Hl1 Hne _; cbn [negb]; [|by apply reads_ret].
  apply reads_token; [done|]. intros t s2 H2 Hl2 Hlt2 Hk2 _. specialize (Hlt2 (Hk2 (Hne eq_refl))).
  apply reads_token; [done|]. intros f s3 H3 Hl3 _ _ Hw. destruct (f.1 =? CH_a) eqn:Ef; cbn [negb]; [|apply runs_panic; set_solver].
  assert (forall m d, word_redirs (rs ++ [(f.2, m, d)])) as Happ.
  { intros m d. apply Forall_app. split; [done|]. constructor; [|done]. apply Hw. lia. }
  repeat case_match; apply IH; try done; lia.
Qed.

Definition exec_wf (r : list token * list (token * Z * Z)) : Prop := (length r.1 < MAXARGS)%nat /\ Forall (word_tok text) r.1 /\ word_redirs r.2.

Lemma exec_any fuel : forall args rs s, in_text s -> (len s < fuel)%nat -> exec_wf (args, rs) -> reads (exec_loop fuel args rs) s exec_wf.
Proof.
  induction fuel as [|fuel IH]; intros args rs s Hs Hf Hwf; [lia|]. cbn [exec_loop]. apply reads_peek; [done|]. intros [] s1 H1 Hl1 _ _; [by apply reads_ret|].
  apply reads_token; [done|]. intros t s2 H2 Hl2 Hlt2 _ Hw. destruct (t.1 =? 0) eqn:E0; [by apply reads_ret|].
  destruct (t.1 =? CH_a) eqn:Ea; cbn [negb]; [|apply runs_panic; set_solver]. specialize (Hw ltac:(lia)). specialize (Hlt2 ltac:(lia)).
  destruct (MAXARGS <=? length (args ++ [t.2]))%nat eqn:Em; [apply runs_panic; set_solver|]. destruct Hwf as (Hm & Ha & Hr).
  eapply reads_bind; [apply reads_fuel, redirs_any; [done|lia|done]|]. intros rs' s3 H3 Hl3 Hr'. apply IH; [done|lia|].
  split_and!; [cbn [fst]; apply Nat.leb_gt in Em; lia|apply Forall_app; split; [done|by constructor]|done].
Qed.

Definition cmd_wf (c : cmd) : Prop := cmd_fits c /\ Forall (word_tok text) (toks c).

Lemma wrap_wf rs : forall c, cmd_wf c -> word_redirs rs -> cmd_wf (wrap c rs).
Proof.
  induction rs as [|r rs IH]; intros c [Hf Hw] Hrs; [done|]. apply Forall_cons in Hrs as [Hr Hrs]. apply (IH (REDIR c r.1.1 r.1.2 r.2)); [|done].
  split; [done|]. cbn. apply Forall_app. split; [done|]. by constructor.
Qed.
Lemma pair_wf c c' : cmd_wf c -> cmd_wf c' -> cmd_wf (PIPE c c') /\ cmd_wf (LIST c c').
Proof. intros [? ?] [? ?]. split; (split; [done|]); cbn; by apply Forall_app. Qed.

Lemma back_any fuel : forall c s, in_text s -> (len s < fuel)%nat -> cmd_wf c -> reads (back_loop fuel c) s cmd_wf.
Proof.
  induction fuel as [|fuel IH]; intros c s Hs Hf Hc; [lia|]. cbn [back_loop]. apply reads_peek; [done|]. intros [] s1 H1 Hl1 Hne _; [|by apply reads_ret].
  apply reads_token; [done|]. intros t s2 H2 Hl2 Hlt2 Hk2 _. specialize (Hlt2 (Hk2 (Hne eq_refl))). apply IH; [done|lia|done].
Qed.

Lemma parse_any fuel : forall s, in_text s ->
  ((4 * len s + 4 <= fuel)%nat -> reads (parse NLine fuel) s cmd_wf) /\
  ((4 * len s + 3 <= fuel)%nat -> reads (parse NPipe fuel) s cmd_wf) /\
  ((4 * len s + 2 <= fuel)%nat -> reads (parse NExec fuel) s cmd_wf) /\
  ((4 * len s + 1 <= fuel)%nat -> nonempty s -> peek [LPAREN] s = Ret true s [] -> reads (parse NBlock fuel) s cmd_wf).
Proof.
  induction fuel as [|fuel IH]; intros s Hs; [split_and!; lia|]. split_and!; intros Hf; cbn [parse]; unfold parseline, parsepipe, parseexec, parseblock.
  - eapply reads_bind; [apply (proj1 (proj2 (IH s Hs))); lia|]. intros c s1 H1 Hl1 Hc.
    eapply reads_bind; [apply reads_fuel, back_any; [done|lia|done]|]. intros c1 s2 H2 Hl2 Hc1.
    apply reads_peek; [done|]. intros [] s3 H3 Hl3 Hne _; [|by apply reads_ret].
    apply reads_token; [done|]. intros t s4 H4 _ Hlt4 Hk4 _. specialize (Hlt4 (Hk4 (Hne eq_refl))).
    eapply reads_bind; [apply (proj1 (IH s4 H4)); lia|]. intros c' s5 H5 _ Hc'. apply reads_ret; [done|]. by apply pair_wf.
  - eapply reads_bind; [apply (proj1 (proj2 (proj2 (IH s Hs)))); lia|]. intros c s1 H1 Hl1 Hc.
    apply reads_peek; [done|]. intros [] s3 H3 Hl3 Hne _; [|by apply reads_ret].
    apply reads_token; [done|]. intros t s4 H4 _ Hlt4 Hk4 _. specialize (Hlt4 (Hk4 (Hne eq_refl))).
    eapply reads_bind; [apply (proj1 (proj2 (IH s4 H4))); lia|]. intros c' s5 H5 _ Hc'. apply reads_ret; [done|]. by apply pair_wf.
  - apply reads_peek; [done|]. intros [] s1 H1 Hl1 Hne Hpk.
    + apply (proj2 (proj2 (proj2 (IH s1 H1)))); [lia|by apply Hne|done].
    + eapply reads_bind; [apply reads_fuel, redirs_any; [done|lia|constructor]|]. intros rs s2 H2 Hl2 Hrs.
      eapply reads_bind; [apply reads_fuel, exec_any; [done|lia|split_and!; [cbn; unfold MAXARGS; lia|constructor|done]]|].
      intros [ts rs'] s3 H3 _ (Hm & Hw & Hr). apply reads_ret; [done|]. by apply wrap_wf.
  - intros Hne Hp. apply (reads_run _ _ _ _ _ Hp). cbn [negb]. cbv iota.
    apply reads_token; [done|]. intros t s1 H1 _ Hlt1 Hk1 _. specialize (Hlt1 (Hk1 Hne)).
    eapply reads_bind; [apply (proj1 (IH s1 H1)); lia|]. intros c s2 H2 Hl2 Hc.
    apply reads_peek; [done|]. intros [] s3 H3 Hl3 _ _; cbn [negb]; [|apply runs_panic; set_solver].
    apply reads_token; [done|]. intros t' s4 H4 Hl4 _ _ _. unfold parseredirs.
    eapply reads_bind; [apply reads_fuel, redirs_any; [done|lia|constructor]|]. intros rs s5 H5 _ Hrs. apply reads_ret; [done|]. by apply wrap_wf.
Qed.
End any.

(** ** [parsecmd] *)

Lemma parse_spelled (l : line) (text : bytes) (s0 : pst) :
  line_fits l -> Forall (fun c => c <> 0) text -> spells (line_lex l) text ->
  exists c buf s, parsecmd text s0 = Ret (c, buf) s [] /\ strings (cstr_at buf) c = line_cmd l /\ length buf = S (length text).
Proof.
  intros Hfit Htext Hsp. set (s1 := mkPst 0 text). assert (at_lex text s1 (line_lex l ++ [])) as Hat by (rewrite app_nil_r; by split).
  destruct (proj1 (syntax_ok text Htext) l Hfit (4 * length text + 4)%nat s1 []) as (c & s2 & Hl & Hat2 & Hs & Hw); [|done|done|].
  { pose proof (proj1 fuel_length l). apply at_length in Hat. rewrite app_nil_r in Hat. cbn in Hat. lia. }
  destruct (at_skip text s2 [] Hat2) as [_ Hend]. destruct (peek_lex text [] s2 [] Hat2) as (s3 & Hp & Hat3).
  assert (s3 = skip s2) as -> by (unfold peek in Hp; rewrite bind_modify in Hp; unfold gets in Hp; congruence).
  exists c, (nulterminate c (text ++ [0])), (skip s2). split.
  - unfold parsecmd. rewrite bind_modify. fold s1. rewrite (bind_run _ _ _ _ _ Hl), (bind_run _ _ _ _ _ Hp), bind_gets. unfold id. by rewrite Hend.
  - rewrite nulterminate_toks. split.
    + rewrite <- Hs. apply strings_ext. intros t Ht. by apply terminated.
    + rewrite put_nuls_length, length_app. cbn. lia.
Qed.

Lemma parse_total (text : bytes) (s0 : pst) : Forall (fun c => c <> 0) text ->
  match parsecmd text s0 with
  | Ret (c, buf) _ _ => cmd_fits c /\ length buf = S (length text) /\
      Forall (fun t => (t.1 < t.2 <= length text)%nat /\ is_word (cstr_at buf t)) (toks c)
  | Panic msg _ => msg ∈ panics
  | Sleep _ _ _ => False
  end.
Proof.
  intros Htext. enough (runs (parsecmd text) s0 (fun r _ => cmd_fits r.1 /\ length r.2 = S (length text) /\
    Forall (fun t => (t.1 < t.2 <= length text)%nat /\ is_word (cstr_at r.2 t)) (toks r.1))) as H.
  { unfold runs in H. by destruct (parsecmd text s0) as [[c buf] s t|msg t|]. }
  unfold parsecmd.
  eapply runs_bind with (P := fun _ s => s = mkPst 0 text); [done|]. intros _ ? ->. set (s1 := mkPst 0 text).
  assert (in_text text s1) as H1 by done. eapply runs_bind; [apply (proj1 (parse_any text Htext _ s1 H1)); cbn; lia|]. intros c s2 (H2 & _ & Hfit & Hw).
  eapply runs_bind; [by apply (peek_any text)|]. intros _ s3 _. eapply runs_bind with (P := fun a s => a = s3); [done|]. intros ? s4 ->.
  destruct (length (ps_rest s3) =? 0)%nat; cbn [negb]; [|apply runs_panic; set_solver]. unfold runs, ret. cbn [fst snd].
  rewrite nulterminate_toks, put_nuls_length, length_app. split; [done|]. split; [cbn; lia|]. apply Forall_forall. intros t Ht.
  rewrite terminated by done. rewrite Forall_forall in Hw. destruct (Hw t Ht) as (Hr & Hword & _). split; [done|]. split; [|done].
  intros E. assert (length (tok_str text t) = t.2 - t.1)%nat as Hl by (unfold tok_str, slice; rewrite length_take, length_drop; lia). rewrite E in Hl. cbn in Hl. lia.
Qed.

(** ** The theorems *)

(** C38. [parsecmd] reads back what was written: for every command line of the
    shell's grammar (lists, background commands, pipelines, parenthesised
    blocks, words and redirections anywhere among them) with fewer than
    MAXARGS words per command, and for every way of writing it down with
    blanks between its lexemes, [parsecmd] returns the tree of that command:
    the words of the tree, read as C strings out of the memory that
    [nulterminate] leaves, are the words of the line. *)
Theorem parsecmd_reads_line (l : line) (text : bytes) (s0 : pst) :
  line_fits l -> Forall (fun c => c <> 0) text -> spells (line_lex l) text ->
  exists c buf s, parsecmd text s0 = Ret (c, buf) s [] /\ strings (cstr_at buf) c = line_cmd l /\ length buf = S (length text).
Proof. exact (parse_spelled l text s0). Qed.

(** C39. [parsecmd] on any input: for every text without NUL, the parser
    returns or stops with one of four messages (the check at the start of
    [parseblock] never fails, and the recursion is bounded by the length of
    the text).  When it returns, every simple command has fewer than MAXARGS
    words, so that [argv] has room for the final 0, and every argument and
    file name lies inside the text and is, after [nulterminate], a non-empty C
    string without blanks and symbols. *)
Theorem parsecmd_any_input (text : bytes) (s0 : pst) : Forall (fun c => c <> 0) text ->
  match parsecmd text s0 with
  | Ret (c, buf) _ _ => cmd_fits c /\ length buf = S (length text) /\
      Forall (fun t => (t.1 < t.2 <= length text)%nat /\ is_word (cstr_at buf t)) (toks c)
  | Panic msg _ => msg ∈ panics
  | Sleep _ _ _ => False
  end.
Proof. exact (parse_total text s0). Qed.

Module ShDemo.
(** a <b|(c;d&)>>e  *)
Definition text : bytes := [97; 32; 60; 98; 124; 40; 99; 59; 100; 38; 41; 62; 62; 101; 10].
Definition tree : line :=
  Line (Bar (Words [] [([97], [(RIn, [98])])]) (Single (Block (Seq (Single (Words [] [([99], [])])) 0 (Line (Single (Words [] [([100], [])])) 1)) [(RAppend, [101])]))) 0.

Lemma text_chars : Forall (fun c => c <> 0) text.
Proof. repeat constructor; done. Qed.
Ltac spell ws :=
  exists ws; eexists; split; [reflexivity|]; split; [by repeat constructor|];
  split; [first [unfold lex_ok, sym_kinds; set_solver | split; [done|by repeat constructor]]|]; split; [by cbn|].
Lemma text_spells : spells (line_lex tree) text.
Proof.
  cbn -[lex_bytes text lex_ok sep]. unfold text. spell (@nil Z). spell [32]. do 10 spell (@nil Z). by repeat constructor.
Qed.

Lemma parsecmd_reads_line_witness : exists c buf s,
  parsecmd text (mkPst 0 []) = Ret (c, buf) s [] /\ strings (cstr_at buf) c = line_cmd tree /\ length buf = 16%nat.
Proof.
  exact (parsecmd_reads_line tree text (mkPst 0 []) ltac:(cbn; unfold MAXARGS; split; [lia|split; lia]) text_chars text_spells).
Defined.

Lemma parsecmd_any_input_witness :
  match parsecmd text (mkPst 0 []) with
  | Ret (c, buf) _ _ => cmd_fits c /\ length buf = 16%nat /\ Forall (fun t => (t.1 < t.2 <= 15)%nat /\ is_word (cstr_at buf t)) (toks c)
  | Panic msg _ => msg ∈ panics
  | Sleep _ _ _ => False
  end.
Proof. exact (parsecmd_any_input text (mkPst 0 []) text_chars). Defined.
End ShDemo.
