(* ===== verification/ShRun.v ===== *)
(** * Running commands ([user/sh.c])

    [runcmd], [getcmd] and [main] as processes: a process is the tree of system
    calls it makes, depending on their results.  [eval] says what a tree does
    to the descriptor table of its process, with the rules of the kernel's
    handlers: [open] and [dup] use the lowest free descriptor, [pipe] the two
    lowest, a child gets a copy of the table, [exec] keeps it.  [flt n] says
    whether the n-th call that can fail does.  The bytes of a message are one
    write; the text after "leftovers:" is not kept.  A null command and an
    unknown type of command, which the parser never makes, have no case. *)
From S2P Require Import Prelude Params CString Printf Ulib Sh ShProps.
Import Sh.

(** ** Processes *)

Inductive prog : Type :=
  | PExit (status : Z)
  | PWrite (fd : Z) (out : bytes) (k : prog)
  | PClose (fd : Z) (k : prog)
  | PDup (fd : Z) (k : prog)
  | POpen (path : bytes) (mode : Z) (k : Z -> prog)
  | PPipe (k : option (Z * Z) -> prog)
  | PFork (k : Z -> prog)
  | PWait (k : prog)
  | PExec (path : bytes) (argv : list bytes) (k : prog)
  | PChdir (path : bytes) (k : Z -> prog)
  | PStuck.

(** What a descriptor refers to. *)
Inductive obj : Set := Std (fd : Z) | OFile (path : bytes) (mode : Z) | PipeR (id : nat) | PipeW (id : nat).
Abbreviation fdt := (gmap Z obj).

Inductive ev : Type :=
  | Started (path : bytes) (argv : list bytes) (T : fdt)
  | Forked (child : list ev)
  | Waited
  | Wrote (fd : Z) (out : bytes)
  | Moved (path : bytes)
  | Exited (status : Z)
  | Stuck.

Definition fd_free (T : fdt) (fd : Z) : Prop := T !! fd = None.
Definition lowest (T : fdt) : option Z := head (filter (fd_free T) (seqZ 0 NOFILE)).
(** The table with o at its lowest free descriptor. *)
Definition fd_put (o : obj) (T : fdt) : option (Z * fdt) :=
  match lowest T with Some fd => Some (fd, <[fd := o]> T) | None => None end.

Section eval.
Context (flt : nat -> bool).

Fixpoint eval (p : prog) (T : fdt) (n : nat) : list ev * nat :=
  match p with
  | PExit st => ([Exited st], n)
  | PWrite fd out k => let r := eval k T n in (Wrote fd out :: r.1, r.2)
  | PClose fd k => eval k (delete fd T) n
  | PDup fd k =>
      match T !! fd with
      | Some o => match fd_put o T with Some (_, T') => eval k T' n | None => eval k T n end
      | None => eval k T n
      end
  | POpen path mode k =>
      match fd_put (OFile path mode) T with
      | Some (fd, T') => if flt n then eval (k (-1)) T (S n) else eval (k fd) T' (S n)
      | None => eval (k (-1)) T (S n)
      end
  | PPipe k =>
      match fd_put (PipeR n) T with
      | Some (r, T1) =>
          match fd_put (PipeW n) T1 with
          | Some (w, T2) => if flt n then eval (k None) T (S n) else eval (k (Some (r, w))) T2 (S n)
          | None => eval (k None) T (S n)
          end
      | None => eval (k None) T (S n)
      end
  | PFork k =>
      if flt n then eval (k (-1)) T (S n)
      else
        let child := eval (k 0) T (S n) in
        let parent := eval (k (Z.of_nat n + 1)) T child.2 in
        (Forked child.1 :: parent.1, parent.2)
  | PWait k => let r := eval k T n in (Waited :: r.1, r.2)
  | PExec path argv k => if flt n then eval k T (S n) else ([Started path argv T], S n)
  | PChdir path k => if flt n then eval (k (-1)) T (S n) else let r := eval (k 0) T (S n) in (Moved path :: r.1, r.2)
  | PStuck => ([Stuck], n)
  end.
End eval.

(** ** The code *)

Definition NL : Z := 10.

(** A message on descriptor 2. *)
Definition say (msg : list bytes) (k : prog) : prog := PWrite 2 (mjoin msg ++ [NL]) k.
Definition sh_panic (s : bytes) : prog := say [s] (PExit 1).
(** [fork1], with what child and parent do next. *)
Definition fork1 (child parent : prog) : prog :=
  PFork (fun pid => if pid =? -1 then sh_panic (chars "fork") else if pid =? 0 then child else parent).

Fixpoint runcmd (buf : bytes) (c : cmd) : prog :=
  match c with
  | EXEC args =>
      match cstr_at buf <$> args with
      | [] => PExit 1
      | (path :: _) as argv => PExec path argv (say [chars "exec "; path; chars " failed"] (PExit 0))
      end
  | REDIR c file mode fd =>
      PClose fd (POpen (cstr_at buf file) mode (fun r =>
        if r <? 0 then say [chars "open "; cstr_at buf file; chars " failed"] (PExit 1)
        else runcmd buf c))
  | LIST l r => fork1 (runcmd buf l) (PWait (runcmd buf r))
  | PIPE l r =>
      PPipe (fun p =>
        match p with
        | None => sh_panic (chars "pipe")
        | Some (p0, p1) =>
            fork1 (PClose 1 (PDup p1 (PClose p0 (PClose p1 (runcmd buf l)))))
              (fork1 (PClose 0 (PDup p0 (PClose p0 (PClose p1 (runcmd buf r)))))
                (PClose p0 (PClose p1 (PWait (PWait (PExit 0))))))
        end)
  | BACK c => fork1 (runcmd buf c) (PExit 0)
  end.

Definition CONSOLE_NAME : bytes := chars "console".
Definition O_RDWR : Z := 0x002.
Definition NBUFSH : Z := 100.

(** The first loop of [main]; a round that goes on leaves one descriptor below
    3 fewer free. *)
Fixpoint open_console (fuel : nat) (k : prog) : prog :=
  match fuel with
  | O => PStuck
  | S fuel =>
      POpen CONSOLE_NAME O_RDWR (fun fd =>
        if negb (0 <=? fd) then k
        else if 3 <=? fd then PClose fd k
        else open_console fuel k)
  end.

Fixpoint skip_blanks (cmd : bytes) : bytes :=
  match cmd with
  | c :: cmd' => if (c =? 32) || (c =? 9) then skip_blanks cmd' else cmd
  | [] => []
  end.

(** [runcmd(parsecmd(cmd))] *)
Definition run_line (cmd : bytes) : prog :=
  match parsecmd cmd (mkPst 0 []) with
  | Ret (c, buf) _ _ => runcmd buf c
  | Panic msg _ => sh_panic (chars msg)
  | Sleep _ _ _ => PStuck
  end.

(** What [gets] put into the buffer of zeros, as a string if it is not empty,
    and the rest of the input. *)
Definition got_line (input : bytes) : option bytes * bytes :=
  let r := Ulib.gets NBUFSH input in
  (match cstring r.1 with [] => None | cmd => Some cmd end, r.2).
Definition getcmd (input : bytes) (k : option bytes * bytes -> prog) : prog :=
  PWrite 2 (chars "$ ") (k (got_line input)).

(** The loop of [main]: fuel is the number of lines read. *)
Fixpoint main_loop (fuel : nat) (input : bytes) : prog :=
  match fuel with
  | O => PStuck
  | S fuel =>
      getcmd input (fun r =>
        match r with
        | (None, _) => PExit 0
        | (Some line, rest) =>
            match skip_blanks line with
            | (c :: _) as cmd =>
                if c =? NL then main_loop fuel rest
                else if bool_decide (take 3 cmd = chars "cd ") then
                  let dir := drop 3 (take (length cmd - 1) cmd) in
                  PChdir dir (fun r => if r <? 0 then say [chars "cannot cd "; dir] (main_loop fuel rest) else main_loop fuel rest)
                else fork1 (run_line cmd) (PWait (main_loop fuel rest))
            | [] => fork1 (run_line []) (PWait (main_loop fuel rest))
            end
        end)
  end.

Definition main (input : bytes) : prog := open_console 4 (main_loop (S (length input)) input).
