(* ===== verification/ShRunProps.v ===== *)
(** * Running commands: properties

    [shaped] is what a command stands for: which programs are started, with
    which descriptors, and what is waited for.  [runcmd] does exactly that; when
    system calls fail, what it still starts is connected in the same way. *)
From S2P Require Import Prelude Params CString Printf Ulib Sh ShProps ShRun.
Import Sh.

Implicit Types (T : fdt) (tr : list ev).

(** The process tree of a command, for a shell whose descriptors are T. *)
Inductive shaped : fdt -> scmd -> list ev -> Prop :=
  | Shaped_exec T path args : shaped T (SExec (path :: args)) [Started path (path :: args) T]
  | Shaped_empty T : shaped T (SExec []) [Exited 1]
  | Shaped_redir T c file mode fd tr : shaped (<[fd := OFile file mode]> T) c tr -> shaped T (SRedir c file mode fd) tr
  | Shaped_list T l r tl tr : shaped T l tl -> shaped T r tr -> shaped T (SList l r) (Forked tl :: Waited :: tr)
  | Shaped_pipe T l r id tl tr : (forall fd, T !! fd <> Some (PipeR id) /\ T !! fd <> Some (PipeW id)) ->
      shaped (<[1 := PipeW id]> T) l tl -> shaped (<[0 := PipeR id]> T) r tr ->
      shaped T (SPipe l r) [Forked tl; Forked tr; Waited; Waited; Exited 0]
  | Shaped_back T c tr : shaped T c tr -> shaped T (SBack c) [Forked tr; Exited 0].

(** A program of the command, with the descriptors it is to have. *)
Inductive launch : fdt -> scmd -> list bytes -> fdt -> Prop :=
  | Launch_exec T path args : launch T (SExec (path :: args)) (path :: args) T
  | Launch_redir T c file mode fd argv T' : launch (<[fd := OFile file mode]> T) c argv T' -> launch T (SRedir c file mode fd) argv T'
  | Launch_list_l T l r argv T' : launch T l argv T' -> launch T (SList l r) argv T'
  | Launch_list_r T l r argv T' : launch T r argv T' -> launch T (SList l r) argv T'
  | Launch_pipe_l T l r id argv T' : launch (<[1 := PipeW id]> T) l argv T' -> launch T (SPipe l r) argv T'
  | Launch_pipe_r T l r id argv T' : launch (<[0 := PipeR id]> T) r argv T' -> launch T (SPipe l r) argv T'
  | Launch_back T c argv T' : launch T c argv T' -> launch T (SBack c) argv T'.

(** Some process of the tree starts a program. *)
Inductive starts : list ev -> list bytes -> fdt -> Prop :=
  | Starts_here path argv T tr : starts (Started path argv T :: tr) argv T
  | Starts_child child tr argv T : starts child argv T -> starts (Forked child :: tr) argv T
  | Starts_later e tr argv T : starts tr argv T -> starts (e :: tr) argv T.

(** Redirections are of descriptors 0, 1 and 2. *)
Fixpoint redirs_std (c : scmd) : Prop :=
  match c with
  | SExec _ => True
  | SRedir c _ _ fd => 0 <= fd <= 2 /\ redirs_std c
  | SPipe l r | SList l r => redirs_std l /\ redirs_std r
  | SBack c => redirs_std c
  end.

(** ** Descriptors *)

(** Exactly 0, 1 and 2 are open. *)
Definition std T : Prop := forall fd, is_Some (T !! fd) <-> 0 <= fd <= 2.
(** Pipes in T are older than n. *)
Definition old_pipes T (n : nat) : Prop := forall fd id, T !! fd = Some (PipeR id) \/ T !! fd = Some (PipeW id) -> (id < n)%nat.

Lemma lowest_is T fd : 0 <= fd < NOFILE -> T !! fd = None -> (forall fd', 0 <= fd' < fd -> is_Some (T !! fd')) -> lowest T = Some fd.
Proof.
  intros Hfd Hn Hb. unfold lowest. replace NOFILE with (fd + (NOFILE - fd)) by lia. rewrite seqZ_app, filter_app by lia.
  assert (filter (fd_free T) (seqZ 0 fd) = []) as ->.
  { apply elem_of_nil_inv. intros x [Hx Hin%elem_of_seqZ]%list_elem_of_filter. unfold fd_free in Hx. destruct (Hb x ltac:(lia)) as [? E]. congruence. }
  rewrite seqZ_cons by lia. rewrite filter_cons_True by done. done.
Qed.

Lemma std_insert T fd o : std T -> 0 <= fd <= 2 -> std (<[fd := o]> T).
Proof. intros Hs Hfd fd'. rewrite lookup_insert_is_Some. rewrite (Hs fd'). lia. Qed.

Lemma old_insert T n fd o : old_pipes T n -> (forall id, o = PipeR id \/ o = PipeW id -> (id < n)%nat) -> old_pipes (<[fd := o]> T) n.
Proof. intros Ho Hn fd' id H. rewrite !lookup_insert_Some in H. destruct H as [[[_ E]|[_ E]]|[[_ E]|[_ E]]]; [apply Hn; by left|eapply Ho; by left|apply Hn; by right|eapply Ho; by right]. Qed.
Lemma old_more T n m : old_pipes T n -> (n <= m)%nat -> old_pipes T m.
Proof. intros Ho Hle fd id H. specialize (Ho fd id H). lia. Qed.

(** [close] and then [open] or [dup]. *)
Lemma fd_replace T fd o : std T -> 0 <= fd <= 2 -> fd_put o (delete fd T) = Some (fd, <[fd := o]> T).
Proof.
  intros Hs Hfd. unfold fd_put. rewrite (lowest_is _ fd); [by rewrite insert_delete_eq|klia|apply lookup_delete_eq|].
  intros fd' Hfd'. rewrite lookup_delete_ne by lia. apply Hs. lia.
Qed.

Definition with_pipe T (n : nat) : fdt := <[4 := PipeW n]> (<[3 := PipeR n]> T).

Lemma std_none T fd : std T -> 3 <= fd -> T !! fd = None.
Proof. intros Hs Hfd. destruct (T !! fd) eqn:E; [|done]. assert (is_Some (T !! fd)) as Hi by (by eexists). apply Hs in Hi. lia. Qed.

Lemma pipe_fds T n : std T -> fd_put (PipeR n) T = Some (3, <[3 := PipeR n]> T) /\ fd_put (PipeW n) (<[3 := PipeR n]> T) = Some (4, with_pipe T n).
Proof.
  intros Hs. unfold fd_put. split.
  - rewrite (lowest_is T 3); [done|klia|by apply std_none|]. intros fd Hfd. apply Hs. lia.
  - rewrite (lowest_is _ 4); [done|klia|rewrite lookup_insert_ne by lia; by apply std_none|].
    intros fd Hfd. rewrite lookup_insert_is_Some. destruct (decide (3 = fd)); [by left|right]. split; [done|]. apply Hs. lia.
Qed.

(** The descriptors of a child of a pipe, and of its parent. *)
Lemma pipe_child flt T n m fd q o k : std T -> 0 <= fd <= 2 -> (q = 3 /\ o = PipeR n \/ q = 4 /\ o = PipeW n) ->
  eval flt (PClose fd (PDup q (PClose 3 (PClose 4 k)))) (with_pipe T n) m = eval flt k (<[fd := o]> T) m.
Proof.
  intros Hs Hfd Hq. cbn [eval]. assert (delete fd (with_pipe T n) !! q = Some o) as ->.
  { rewrite lookup_delete_ne by lia. unfold with_pipe. destruct Hq as [[-> ->]|[-> ->]]; [rewrite lookup_insert_ne by lia|]; by rewrite lookup_insert_eq. }
  assert (fd_put o (delete fd (with_pipe T n)) = Some (fd, <[fd := o]> (with_pipe T n))) as ->.
  { unfold fd_put. rewrite (lowest_is _ fd); [by rewrite insert_delete_eq|klia|apply lookup_delete_eq|].
    intros fd' Hfd'. rewrite lookup_delete_ne by lia. unfold with_pipe. rewrite !lookup_insert_ne by lia. apply Hs. lia. }
  f_equal. apply map_eq. intros fd'. unfold with_pipe. destruct (decide (fd' = 4)) as [->|H4]; [|rewrite (lookup_delete_ne _ 4) by done; destruct (decide (fd' = 3)) as [->|H3]].
  - rewrite lookup_delete_eq, lookup_insert_ne by lia. symmetry. apply std_none; (done || lia).
  - rewrite lookup_delete_eq, lookup_insert_ne by lia. symmetry. apply std_none; (done || lia).
  - rewrite lookup_delete_ne by done. destruct (decide (fd' = fd)) as [->|Hne]; [by rewrite !lookup_insert_eq|]. by rewrite !lookup_insert_ne by lia.
Qed.

Lemma pipe_parent flt T n m k : std T -> eval flt (PClose 3 (PClose 4 k)) (with_pipe T n) m = eval flt k T m.
Proof.
  intros Hs. cbn [eval]. f_equal. unfold with_pipe. apply map_eq. intros fd. destruct (decide (fd = 4)) as [->|H4].
  - rewrite lookup_delete_eq. symmetry. apply std_none; (done || lia).
  - rewrite lookup_delete_ne by done. destruct (decide (fd = 3)) as [->|H3]; [rewrite lookup_delete_eq; symmetry; apply std_none; (done || lia)|].
    by rewrite lookup_delete_ne, !lookup_insert_ne by lia.
Qed.

Lemma eval_mono flt p : forall T n, (n <= (eval flt p T n).2)%nat.
Proof.
  induction p as [st|fd out k IH|fd k IH|fd k IH|path mode k IH|k IH|k IH|k IH|path argv k IH|path k IH|]; intros T n; cbn [eval]; cbn [snd]; auto.
  - destruct (T !! fd); [|auto]. destruct (fd_put _ T) as [[? ?]|]; auto.
  - destruct (fd_put _ T) as [[? ?]|]; [destruct (flt n)|]; (etransitivity; [|apply IH]; lia).
  - destruct (fd_put _ T) as [[? ?]|]; [destruct (fd_put _ _) as [[? ?]|]; [destruct (flt n)|]|]; (etransitivity; [|apply IH]; lia).
  - destruct (flt n); [etransitivity; [|apply IH]; lia|]. cbn [snd]. etransitivity; [|apply IH]. etransitivity; [|apply IH]. lia.
  - destruct (flt n); [etransitivity; [|apply IH]; lia|]. cbn. lia.
  - destruct (flt n); [etransitivity; [|apply IH]; lia|]. cbn [snd]. etransitivity; [|apply IH]. lia.
Qed.

Lemma eval_fork flt child parent T n : eval flt (fork1 child parent) T n =
  if flt n then eval flt (sh_panic (chars "fork")) T (S n)
  else let r1 := eval flt child T (S n) in let r2 := eval flt parent T r1.2 in (Forked r1.1 :: r2.1, r2.2).
Proof.
  unfold fork1. cbn [eval]. destruct (flt n); [done|]. replace (0 =? -1) with false by done. replace (0 =? 0) with true by done.
  rewrite (proj2 (Z.eqb_neq (Z.of_nat n + 1) (-1))), (proj2 (Z.eqb_neq (Z.of_nat n + 1) 0)) by lia. done.
Qed.

(** ** [runcmd] *)

Definition no_faults (n : nat) : bool := false.

Lemma fresh_id T n : old_pipes T n -> forall fd, T !! fd <> Some (PipeR n) /\ T !! fd <> Some (PipeW n).
Proof. intros Ho fd. split; intros E; [specialize (Ho fd n (or_introl E))|specialize (Ho fd n (or_intror E))]; lia. Qed.

Lemma pipe_obj n m fd T o : old_pipes T n -> (n < m)%nat -> o = PipeR n \/ o = PipeW n -> old_pipes (<[fd := o]> T) m.
Proof. intros Ho Hlt Hor. apply old_insert; [eapply old_more; [done|lia]|]. intros id H. assert (id = n) by (destruct H, Hor; congruence). lia. Qed.

Lemma runcmd_shape buf (c : cmd) : forall T n, std T -> old_pipes T n -> redirs_std (strings (cstr_at buf) c) ->
  shaped T (strings (cstr_at buf) c) (eval no_faults (runcmd buf c) T n).1.
Proof.
  induction c as [args|c IH t mode fd|l IHl r IHr|l IHl r IHr|c IH]; intros T n Hs Ho Hr; cbn [runcmd strings] in *.
  - destruct (cstr_at buf <$> args) as [|path argv]; constructor.
  - destruct Hr as [Hfd Hr]. cbn [eval]. rewrite fd_replace by done. replace (fd <? 0) with false by lia. constructor.
    apply IH; [by apply std_insert| |done]. apply old_insert; [by eapply old_more; [done|lia]|]. intros id [E|E]; done.
  - destruct Hr as [Hl Hr]. cbn [eval]. destruct (pipe_fds T n Hs) as [-> ->]. cbn [no_faults]. cbv iota. rewrite eval_fork. cbn [no_faults]. cbv zeta iota.
    rewrite eval_fork. cbn [no_faults]. cbv zeta iota. rewrite (pipe_child _ _ _ _ 1 4 (PipeW n)) by (done || lia || by right).
    set (r1 := eval no_faults (runcmd buf l) _ _). rewrite (pipe_child _ _ _ _ 0 3 (PipeR n)) by (done || lia || by left). set (r2 := eval no_faults (runcmd buf r) _ _).
    rewrite pipe_parent by done. cbn [eval fst]. apply (Shaped_pipe T _ _ n); [by apply fresh_id|apply IHl|apply IHr]; try done; try (apply std_insert; (done || lia)).
    + apply (pipe_obj n); [done|lia|by right].
    + apply (pipe_obj n); [done| |by left]. pose proof (eval_mono no_faults (runcmd buf l) (<[1 := PipeW n]> T) (S (S n))). fold r1 in H. lia.
  - destruct Hr as [Hl Hr]. rewrite eval_fork. cbn [no_faults]. cbv zeta iota. cbn [eval fst]. set (r1 := eval no_faults (runcmd buf l) _ _).
    constructor; [apply IHl; [done|by eapply old_more; [done|lia]|done]|]. apply IHr; [done| |done]. eapply old_more; [done|].
    pose proof (eval_mono no_faults (runcmd buf l) T (S n)). fold r1 in H. lia.
  - rewrite eval_fork. cbn [no_faults]. cbv zeta iota. cbn [eval fst]. constructor. apply IH; [done|by eapply old_more; [done|lia]|done].
Qed.

(** Events that start nothing. *)
Lemma starts_inert e tr argv T' : starts (e :: tr) argv T' -> match e with Started _ a T => (a = argv /\ T = T') \/ starts tr argv T' | Forked child => starts child argv T' \/ starts tr argv T' | _ => starts tr argv T' end.
Proof. inversion 1; subst; [by left|by left|]. destruct e; auto. Qed.
Lemma starts_nil argv T' : starts [] argv T' -> False.
Proof. inversion 1. Qed.

Ltac quiet := repeat match goal with H : starts (_ :: _) _ _ |- _ => apply starts_inert in H; cbn beta iota in H | H : starts [] _ _ |- _ => destruct (starts_nil _ _ H) end; try done.

Lemma starts_fork flt child parent T n argv T' : starts (eval flt (fork1 child parent) T n).1 argv T' ->
  starts (eval flt child T (S n)).1 argv T' \/ exists m, starts (eval flt parent T m).1 argv T'.
Proof.
  rewrite eval_fork. destruct (flt n); cbv zeta; cbn [fst]; intros H.
  - cbn [sh_panic say eval fst] in H. quiet.
  - apply starts_inert in H as [H|H]; [by left|right]. by eexists.
Qed.

Lemma runcmd_launch buf (c : cmd) flt : forall T n argv T', std T -> redirs_std (strings (cstr_at buf) c) ->
  starts (eval flt (runcmd buf c) T n).1 argv T' -> launch T (strings (cstr_at buf) c) argv T'.
Proof.
  induction c as [args|c IH t mode fd|l IHl r IHr|l IHl r IHr|c IH]; intros T n argv T' Hs Hr H; cbn [runcmd strings] in *.
  - destruct (cstr_at buf <$> args) as [|path av]; cbn [eval] in H; [cbn [fst] in H; quiet|]. destruct (flt n); cbn [say eval fst] in H; quiet.
    destruct H as [[<- <-]|H]; [constructor|quiet].
  - destruct Hr as [Hfd Hr]. cbn [eval] in H. rewrite fd_replace in H by done. destruct (flt n); [change (-1 <? 0) with true in H; cbn [say eval fst] in H; quiet|]. replace (fd <? 0) with false in H by lia.
    constructor. eapply IH; [by apply std_insert|done|exact H].
  - destruct Hr as [Hl Hr]. cbn [eval] in H. destruct (pipe_fds T n Hs) as [E1 E2]. rewrite E1, E2 in H. destruct (flt n); [cbn [sh_panic say eval fst] in H; quiet|].
    apply starts_fork in H as [H|[m H]]; [rewrite (pipe_child _ _ _ _ 1 4 (PipeW n)) in H by (done || lia || by right); eapply Launch_pipe_l, IHl; [apply std_insert; (done || lia)|done|exact H]|].
    apply starts_fork in H as [H|[m' H]]; [rewrite (pipe_child _ _ _ _ 0 3 (PipeR n)) in H by (done || lia || by left); eapply Launch_pipe_r, IHr; [apply std_insert; (done || lia)|done|exact H]|].
    rewrite pipe_parent in H by done. cbn [eval fst] in H. quiet.
  - destruct Hr as [Hl Hr]. apply starts_fork in H as [H|[m H]]; [eapply Launch_list_l, IHl; done|]. cbn [eval fst] in H. apply starts_inert in H. cbn beta iota in H. eapply Launch_list_r, IHr; done.
  - apply starts_fork in H as [H|[m H]]; [constructor; eapply IH; done|]. cbn [eval fst] in H. quiet.
Qed.

(** ** From the line to the processes *)

Lemma swrap_std rs : forall c, redirs_std c -> redirs_std (swrap c rs).
Proof. induction rs as [|[k f] rs IH]; intros c Hc; [done|]. apply (IH (SRedir c f (rkind_mode k).1 (rkind_mode k).2)). split; [destruct k; cbn; lia|done]. Qed.
Lemma backs_std n c : redirs_std c -> redirs_std (Nat.iter n SBack c).
Proof. intros Hc. by induction n. Qed.

Lemma syntax_std : (forall l, redirs_std (line_cmd l)) /\ (forall p, redirs_std (pipeline_cmd p)) /\ (forall e, redirs_std (simple_cmd e)).
Proof.
  apply syntax_ind; cbn [line_cmd pipeline_cmd simple_cmd redirs_std]; auto using swrap_std, backs_std.
  intros rs args. by apply swrap_std.
Qed.

(** A line of the input: no NUL, one line end, at its end, and it fits the
    buffer. *)
Record is_line (text : bytes) : Prop := {
  il_nul : Forall (fun c => c <> 0) text;
  il_end : exists body, text = body ++ [NL] /\ Forall (fun c => c <> 10 /\ c <> 13) body;
  il_fits : Z.of_nat (length text) < NBUFSH }.

Lemma gets_line_loop body rest : forall n, Forall (fun c => c <> 10 /\ c <> 13) body -> (length body < n)%nat -> Ulib.gets_loop n (body ++ NL :: rest) = (body ++ [NL], rest).
Proof.
  induction body as [|c body IH]; intros [|n] Hb Hn; cbn [length] in Hn; try lia; [done|]. apply Forall_cons in Hb as [[H1 H2] Hb].
  cbn [app Ulib.gets_loop]. rewrite (proj2 (Z.eqb_neq c 10)), (proj2 (Z.eqb_neq c 13)) by done. cbn [orb]. rewrite IH by (done || lia). done.
Qed.
Lemma gets_line text rest : is_line text -> Ulib.gets NBUFSH (text ++ rest) = (text, rest).
Proof.
  intros [_ (body & -> & Hb) Hf]. unfold Ulib.gets. rewrite <- app_assoc. cbn [app]. apply gets_line_loop; [done|]. rewrite length_app in Hf. cbn [length] in Hf. unfold NBUFSH in *. lia.
Qed.

Lemma got_line_line text rest : is_line text -> got_line (text ++ rest) = (Some text, rest).
Proof.
  intros Hl. unfold got_line. rewrite gets_line by done. cbn [fst snd]. rewrite cstring_id by apply Hl. destruct (il_end _ Hl) as ([|] & -> & _); done.
Qed.

(** Skipping blanks does not change what is spelled. *)
Lemma skip_blanks_app ws y : (forall c y', y = c :: y' -> c <> 32 /\ c <> 9) -> skip_blanks (ws ++ y) = skip_blanks ws ++ y.
Proof.
  intros Hy. induction ws as [|c ws IH]; cbn [app skip_blanks].
  - destruct y as [|c y]; [done|]. destruct (Hy c y eq_refl). cbn. by rewrite (proj2 (Z.eqb_neq c 32)), (proj2 (Z.eqb_neq c 9)).
  - destruct ((c =? 32) || (c =? 9)); [done|]. done.
Qed.
Lemma skip_blanks_Forall (P : Z -> Prop) ws : Forall P ws -> Forall P (skip_blanks ws).
Proof. induction 1 as [|c ws Hc Hw IH]; [done|]. cbn. destruct ((c =? 32) || (c =? 9)); [done|by constructor]. Qed.

Lemma lex_not_blank x c y : lex_ok x -> lex_bytes x = c :: y -> c <> 32 /\ c <> 9.
Proof.
  destruct x as [w|k]; cbn.
  - intros [_ Hw] ->. apply Forall_cons in Hw as [Hc _]. split; intros ->; done.
  - intros Hk E. unfold sym_kinds in Hk. set_unfold in Hk. destruct (k =? PLUS); injection E as <- _; unfold GT, BAR, LPAREN, RPAREN, SEMI, AMP, LT, PLUS in *; lia.
Qed.
Lemma spells_skip xs text : spells xs text -> spells xs (skip_blanks text).
Proof.
  destruct xs as [|x xs]; cbn [spells]; [apply skip_blanks_Forall|]. intros (ws & rest & -> & Hw & Hx & Hs & Hr). exists (skip_blanks ws), rest.
  split; [|split; [by apply skip_blanks_Forall|done]]. apply skip_blanks_app. intros c y E. destruct (lex_bytes x) as [|c' l] eqn:El.
  - exfalso. destruct x as [w|k]; cbn in El; [destruct Hx; done|destruct (k =? PLUS); done].
  - injection E as <- _. by eapply lex_not_blank.
Qed.

Lemma spelled_runs l cmd : line_fits l -> Forall (fun c => c <> 0) cmd -> spells (line_lex l) cmd ->
  exists c buf, run_line cmd = runcmd buf c /\ strings (cstr_at buf) c = line_cmd l.
Proof.
  intros Hf Hz Hsp. destruct (parse_spelled l cmd (mkPst 0 []) Hf Hz Hsp) as (c & buf & s & Hp & Hs & _). exists c, buf. split; [|done]. unfold run_line. by rewrite Hp.
Qed.

(** ** The shell's main loop *)

Definition prompt : ev := Wrote 2 (chars "$ ").

(** The kinds of lines. *)
Definition blank_line (text : bytes) : Prop := head (skip_blanks text) = Some NL.
Definition cd_line (text dir : bytes) : Prop := skip_blanks text = chars "cd " ++ dir ++ [NL].
Definition command_line (text : bytes) (l : line) : Prop :=
  ~ blank_line text /\ take 3 (skip_blanks text) <> chars "cd " /\ line_fits l /\ spells (line_lex l) text.
Definition error_line (text msg : bytes) : Prop :=
  ~ blank_line text /\ take 3 (skip_blanks text) <> chars "cd " /\ run_line (skip_blanks text) = sh_panic msg.

(** What the shell does on a list of lines. *)
Inductive session T : list bytes -> list ev -> Prop :=
  | Session_end : session T [] [prompt; Exited 0]
  | Session_blank text ls tr : blank_line text -> session T ls tr -> session T (text :: ls) (prompt :: tr)
  | Session_cd text dir ls tr : cd_line text dir -> session T ls tr -> session T (text :: ls) (prompt :: Moved dir :: tr)
  | Session_command text l ls job tr : command_line text l -> shaped T (line_cmd l) job -> session T ls tr ->
      session T (text :: ls) (prompt :: Forked job :: Waited :: tr)
  | Session_error text msg ls tr : error_line text msg -> session T ls tr ->
      session T (text :: ls) (prompt :: Forked [Wrote 2 (msg ++ [NL]); Exited 1] :: Waited :: tr).

Definition understood (text : bytes) : Prop :=
  is_line text /\ (blank_line text \/ (exists dir, cd_line text dir) \/ (exists l, command_line text l) \/ (exists msg, error_line text msg)).

(** A round that forks. *)
Lemma main_fork text rest fuel T n : is_line text -> ~ blank_line text -> take 3 (skip_blanks text) <> chars "cd " ->
  (eval no_faults (main_loop (S fuel) (text ++ rest)) T n).1 =
    let r := eval no_faults (run_line (skip_blanks text)) T (S n) in prompt :: Forked r.1 :: Waited :: (eval no_faults (main_loop fuel rest) T r.2).1.
Proof.
  intros Hl Hb Hc. cbn [main_loop]. unfold getcmd. rewrite got_line_line by done. cbn [eval fst]. unfold blank_line in Hb. destruct (skip_blanks text) as [|c cmd]; [by rewrite eval_fork|].
  assert (c <> NL) as Hc' by (intros ->; done). rewrite (proj2 (Z.eqb_neq c NL)) by done. rewrite bool_decide_eq_false_2 by done. by rewrite eval_fork.
Qed.

Lemma main_session ls : forall fuel T n, Forall understood ls -> (length ls < fuel)%nat -> std T -> old_pipes T n ->
  session T ls (eval no_faults (main_loop fuel (mjoin ls)) T n).1.
Proof.
  induction ls as [|text ls IH]; intros [|fuel] T n Hu Hf Hs Ho; cbn [length] in Hf; try lia; [apply Session_end|].
  apply Forall_cons in Hu as [[Hl Hk] Hu]. change (mjoin (text :: ls)) with (text ++ mjoin ls). assert (forall m, (n <= m)%nat -> session T ls (eval no_faults (main_loop fuel (mjoin ls)) T m).1) as Hrec.
  { intros m Hm. apply IH; [done|lia|done|]. eapply old_more; done. }
  destruct Hk as [Hb|[[dir Hd]|[[l Hc]|[msg He]]]].
  - cbn [main_loop]. unfold getcmd. rewrite got_line_line by done. cbn [eval fst]. pose proof Hb as Hb'. unfold blank_line in Hb. destruct (skip_blanks text) as [|c cmd]; [done|]. injection Hb as ->.
    by apply Session_blank, Hrec.
  - cbn [main_loop]. unfold getcmd. rewrite got_line_line by done. cbn [eval fst]. pose proof Hd as Hd'. unfold cd_line in Hd. rewrite Hd. change (chars "cd ") with [99; 100; 32]. cbn [app].
    replace (99 =? NL) with false by done. rewrite bool_decide_eq_true_2 by done. cbn [length Nat.sub]. cbn [eval].
    replace (drop 3 _) with dir; [apply (Session_cd T text dir); [done|apply Hrec; lia]|].
    rewrite length_app. cbn [length]. rewrite Nat.add_1_r. cbn [take drop]. by rewrite take_app_length.
  - pose proof Hc as (Hb & Hcd & Hfit & Hsp). rewrite main_fork by done. cbv zeta. destruct (spelled_runs l (skip_blanks text) Hfit) as (c & buf & -> & Es); [apply skip_blanks_Forall, Hl|by apply spells_skip|].
    apply (Session_command T text l); [done| |apply Hrec; pose proof (eval_mono no_faults (runcmd buf c) T (S n)); lia].
    rewrite <- Es. apply runcmd_shape; [done|by eapply old_more; [done|lia]|]. rewrite Es. apply syntax_std.
  - pose proof He as (Hb & Hcd & Hr). rewrite main_fork by done. rewrite Hr. cbv zeta. cbn [sh_panic say eval fst snd]. change (mjoin [msg]) with (msg ++ []). rewrite app_nil_r.
    apply (Session_error T text msg); [done|apply Hrec; lia].
Qed.

(** ** Opening the descriptors *)

Definition console_obj : obj := OFile CONSOLE_NAME O_RDWR.
Definition fill T : fdt := T ∪ {[0 := console_obj; 1 := console_obj; 2 := console_obj]}.
Definition missing T : nat := length (filter (fd_free T) [0; 1; 2]).

Lemma fill_insert T fd : 0 <= fd <= 2 -> T !! fd = None -> fill (<[fd := console_obj]> T) = fill T.
Proof.
  intros Hfd Hn. apply map_eq. intros x. unfold fill. rewrite !lookup_union. destruct (decide (x = fd)) as [->|Hne]; [|by rewrite lookup_insert_ne].
  rewrite lookup_insert_eq, Hn. assert (fd = 0 \/ fd = 1 \/ fd = 2) as [->|[->| ->]] by lia; done.
Qed.
Lemma fill_std T : (forall fd, is_Some (T !! fd) -> 0 <= fd <= 2) -> std (fill T).
Proof.
  intros Hd fd. unfold fill. rewrite lookup_union_is_Some. split.
  - intros [H|H]; [by apply Hd|]. rewrite !lookup_insert_is_Some in H. destruct H as [|[_ [|[_ H]]]]; [lia|lia|]. destruct (decide (fd = 2)) as [->|Hne]; [lia|].
    rewrite lookup_singleton_ne in H by done. by destruct H.
  - intros Hfd. right. assert (fd = 0 \/ fd = 1 \/ fd = 2) as [->|[->| ->]] by lia; by eexists.
Qed.
Lemma fill_id T : std T -> fill T = T.
Proof.
  intros Hs. apply map_eq. intros fd. unfold fill. rewrite lookup_union. destruct (T !! fd) as [o|] eqn:E; [by rewrite union_Some_l|]. rewrite (left_id None _).
  apply eq_None_not_Some. intros H. assert (~ 0 <= fd <= 2) as Hn by (intros Hfd; apply Hs in Hfd; rewrite E in Hfd; by destruct Hfd).
  rewrite !lookup_insert_is_Some in H. destruct H as [|[_ [|[_ H]]]]; [lia|lia|]. rewrite lookup_singleton_ne in H by lia. by destruct H.
Qed.

(** The first of 0, 1, 2, 3 that is free. *)
Lemma lowest_std T : (forall fd, is_Some (T !! fd) -> 0 <= fd <= 2) ->
  std T /\ lowest T = Some 3 \/ exists fd, 0 <= fd <= 2 /\ T !! fd = None /\ lowest T = Some fd.
Proof.
  intros Hd. assert (forall fd, 0 <= fd <= 3 -> T !! fd = None -> (forall x, 0 <= x < fd -> is_Some (T !! x)) -> lowest T = Some fd) as Hl by (intros fd Hfd; apply lowest_is; klia).
  destruct (T !! 0) eqn:E0; [|right; exists 0; split; [lia|]; split; [done|apply Hl; (done || lia)]].
  assert (forall x, 0 <= x < 1 -> is_Some (T !! x)) as H0 by (intros x Hx; replace x with 0 by lia; by eexists).
  destruct (T !! 1) eqn:E1; [|right; exists 1; split; [lia|]; split; [done|apply Hl; (done || lia)]].
  assert (forall x, 0 <= x < 2 -> is_Some (T !! x)) as H1 by (intros x Hx; destruct (decide (x = 1)) as [->|]; [by eexists|apply H0; lia]).
  destruct (T !! 2) eqn:E2; [|right; exists 2; split; [lia|]; split; [done|apply Hl; (done || lia)]].
  assert (forall x, 0 <= x < 3 -> is_Some (T !! x)) as H2 by (intros x Hx; destruct (decide (x = 2)) as [->|]; [by eexists|apply H1; lia]).
  left. split; [intros fd; split; [apply Hd|intros; apply H2; lia]|]. apply Hl; [lia| |done]. destruct (T !! 3) eqn:E3; [|done]. assert (is_Some (T !! 3)) as H3 by (by eexists). apply Hd in H3. lia.
Qed.

Lemma missing_insert T fd o : 0 <= fd <= 2 -> T !! fd = None -> (missing (<[fd := o]> T) < missing T)%nat.
Proof.
  intros Hfd Hn. unfold missing. rewrite !filter_cons, !filter_nil. assert (forall x, x <> fd -> (fd_free (<[fd := o]> T) x <-> fd_free T x)) as He by (intros x Hx; unfold fd_free; by rewrite lookup_insert_ne).
  assert (~ fd_free (<[fd := o]> T) fd) as Hf by (unfold fd_free; by rewrite lookup_insert_eq). assert (fd_free T fd) as Hf' by done.
  assert (fd = 0 \/ fd = 1 \/ fd = 2) as [->|[->| ->]] by lia; repeat case_decide; cbn [length]; try lia; exfalso; naive_solver lia.
Qed.

Lemma open_console_fill fuel k : forall T n, (missing T < fuel)%nat -> (forall fd, is_Some (T !! fd) -> 0 <= fd <= 2) ->
  exists m, (n <= m)%nat /\ eval no_faults (open_console fuel k) T n = eval no_faults k (fill T) m.
Proof.
  induction fuel as [|fuel IH]; intros T n Hm Hd; [lia|]. cbn [open_console eval]. unfold fd_put. destruct (lowest_std T Hd) as [[Hs ->]|(fd & Hfd & Hn & ->)].
  - cbn [no_faults]. cbv iota. cbn [negb]. change (negb (0 <=? 3)) with false. change (3 <=? 3) with true. cbv iota. cbn [eval]. exists (S n). split; [lia|].
    rewrite fill_id by done. f_equal. rewrite delete_insert_id; [done|]. by apply std_none.
  - cbn [no_faults]. cbv iota. replace (0 <=? fd) with true by lia. replace (3 <=? fd) with false by lia. cbn [negb]. cbv iota.
    destruct (IH (<[fd := console_obj]> T) (S n)) as (m & Hle & E).
    + pose proof (missing_insert T fd console_obj Hfd Hn). lia.
    + intros x. rewrite lookup_insert_is_Some. intros [<-|[_ Hx]]; [lia|by apply Hd].
    + exists m. split; [lia|]. rewrite fill_insert in E by done. exact E.
Qed.

(** ** Every call may fail *)

Inductive stuck : list ev -> Prop :=
  | Stuck_here tr : stuck (Stuck :: tr)
  | Stuck_child child tr : stuck child -> stuck (Forked child :: tr)
  | Stuck_later e tr : stuck tr -> stuck (e :: tr).

(** No result of a system call leads to [PStuck]. *)
Fixpoint bounded (p : prog) : Prop :=
  match p with
  | PExit _ => True
  | PWrite _ _ k | PClose _ k | PDup _ k | PWait k | PExec _ _ k => bounded k
  | POpen _ _ k | PFork k | PChdir _ k => forall r, bounded (k r)
  | PPipe k => forall r, bounded (k r)
  | PStuck => False
  end.

Lemma stuck_cons e tr : stuck (e :: tr) -> e = Stuck \/ (exists child, e = Forked child /\ stuck child) \/ stuck tr.
Proof. inversion 1; subst; eauto. Qed.

Lemma bounded_eval flt p : bounded p -> forall T n, ~ stuck (eval flt p T n).1.
Proof.
  induction p as [st|fd out k IH|fd k IH|fd k IH|path mode k IH|k IH|k IH|k IH|path argv k IH|path k IH|]; intros Hp T n; cbn [eval bounded] in *; auto.
  - intros [|[(? & ? & _)|H]]%stuck_cons; try done. inversion H.
  - cbn [fst]. intros [|[(? & ? & _)|H]]%stuck_cons; try done. by apply (IH Hp T n).
  - destruct (T !! fd); [|auto]. destruct (fd_put _ T) as [[? ?]|]; auto.
  - destruct (fd_put _ T) as [[? ?]|]; [destruct (flt n)|]; auto.
  - destruct (fd_put _ T) as [[? ?]|]; [destruct (fd_put _ _) as [[? ?]|]; [destruct (flt n)|]|]; auto.
  - destruct (flt n); [auto|]. cbn [fst]. intros [|[(? & [= <-] & H)|H]]%stuck_cons; [done|by apply (IH 0) in H|by apply (IH (Z.of_nat n + 1)) in H].
  - cbn [fst]. intros [|[(? & ? & _)|H]]%stuck_cons; try done. by apply (IH Hp T n).
  - destruct (flt n); [auto|]. intros [|[(? & ? & _)|H]]%stuck_cons; try done. inversion H.
  - destruct (flt n); [auto|]. cbn [fst]. intros [|[(? & ? & _)|H]]%stuck_cons; try done. by apply (IH 0) in H.
Qed.

Lemma fork1_bounded child parent : bounded child -> bounded parent -> bounded (fork1 child parent).
Proof. intros Hc Hp r. by destruct (r =? -1), (r =? 0). Qed.
Lemma runcmd_bounded buf c : bounded (runcmd buf c).
Proof.
  induction c as [args|c IH t mode fd|l IHl r IHr|l IHl r IHr|c IH]; cbn [runcmd bounded].
  - by destruct (cstr_at buf <$> args).
  - intros r. by destruct (r <? 0).
  - intros [[p0 p1]|]; [|done]. by repeat (apply fork1_bounded; [done|]).
  - by apply fork1_bounded.
  - by apply fork1_bounded.
Qed.

Lemma cstring_chars l : Forall (fun c => c <> 0) (cstring l).
Proof. induction l as [|c l IH]; cbn; [done|]. destruct (Z.eqb_spec c 0); by constructor. Qed.

Lemma run_line_bounded cmd : Forall (fun c => c <> 0) cmd -> bounded (run_line cmd).
Proof.
  intros Hz. unfold run_line. pose proof (parse_total cmd (mkPst 0 []) Hz) as Hp. destruct (parsecmd cmd (mkPst 0 [])) as [[c buf] s t|msg t|]; [apply runcmd_bounded|done|done].
Qed.

Lemma gets_loop_rest n input : (length (Ulib.gets_loop n input).2 + length (Ulib.gets_loop n input).1 = length input)%nat.
Proof.
  revert input. induction n as [|n IH]; intros [|c input]; cbn; try done. destruct ((c =? 10) || (c =? 13)); cbn; [lia|]. specialize (IH input). lia.
Qed.

Lemma main_loop_bounded fuel : forall input, (length input < fuel)%nat -> bounded (main_loop fuel input).
Proof.
  induction fuel as [|fuel IH]; intros input Hf; [lia|]. cbn [main_loop]. unfold getcmd. cbn [bounded]. unfold got_line, Ulib.gets. pose proof (gets_loop_rest (Z.to_nat (NBUFSH - 1)) input) as Hl.
  destruct (Ulib.gets_loop _ input) as [got rest]. cbn [fst snd] in *. pose proof (cstring_chars got) as Hz. destruct (cstring got) as [|c line] eqn:Ec; [done|].
  assert (bounded (main_loop fuel rest)) as Hrec. { apply IH. destruct got; [done|]. cbn in Hl. lia. }
  apply (skip_blanks_Forall) in Hz. destruct (skip_blanks (c :: line)) as [|c' cmd]; [apply fork1_bounded; [by apply run_line_bounded|done]|].
  destruct (c' =? NL); [done|]. case_bool_decide; [intros r; by destruct (r <? 0)|]. apply fork1_bounded; [by apply run_line_bounded|done].
Qed.

Lemma open_console_total flt fuel k : bounded k -> forall T n, (missing T < fuel)%nat -> ~ stuck (eval flt (open_console fuel k) T n).1.
Proof.
  intros Hk. induction fuel as [|fuel IH]; intros T n Hm; [lia|]. cbn [open_console eval]. destruct (fd_put _ T) as [[fd T']|] eqn:Ep; [|by apply bounded_eval].
  destruct (flt n); [by apply bounded_eval|]. unfold fd_put in Ep. destruct (lowest T) as [x|] eqn:El; [|done]. injection Ep as -> <-.
  destruct (0 <=? fd) eqn:E0; cbn [negb]; [|by apply bounded_eval]. destruct (3 <=? fd) eqn:E3; [by apply bounded_eval|]. apply IH.
  assert (T !! fd = None) as Hn. { unfold lowest in El. apply head_Some_elem_of, list_elem_of_filter in El. apply El. }
  pose proof (missing_insert T fd (OFile CONSOLE_NAME O_RDWR) ltac:(lia) Hn). lia.
Qed.

(** ** The theorems *)

(** C32.  A whole session of the shell.  The input is a list of lines, each
    blank, a cd command, a command line of the grammar written down in any way,
    or one the parser refuses; none of the system calls fails.  The shell makes
    sure descriptors 0, 1 and 2 are open, and then for each line prints the
    prompt and does what the line means: a directory change happens in the
    shell itself; a command runs in a child, which is waited for, and its
    process tree is the one the command stands for.  In that tree every
    program is started with its own words as arguments and with exactly
    descriptors 0, 1 and 2: redirections replace the one they name, the two
    sides of | share a new pipe at 1 and 0 and no other end of it stays open,
    both are waited for, the left of ; is waited for before the right starts,
    and only a command with & is not.  A refused line is reported by the child
    alone.  At the end of the input the shell exits with 0. *)
Theorem shell_session (ls : list bytes) T : Forall understood ls -> (forall fd o, T !! fd = Some o -> 0 <= fd <= 2 /\ o = Std fd) ->
  session (fill T) ls (eval no_faults (main (mjoin ls)) T 0).1.
Proof.
  intros Hu HT. assert (forall fd, is_Some (T !! fd) -> 0 <= fd <= 2) as Hd by (intros fd [o Ho]; by apply HT in Ho as [? _]). unfold main.
  destruct (open_console_fill 4 (main_loop (S (length (mjoin ls))) (mjoin ls)) T 0) as (m & _ & ->); [|done|].
  - unfold missing. pose proof (length_filter (fd_free T) [0; 1; 2]). cbn [length] in *. lia.
  - apply main_session; [done| |by apply fill_std|].
    + apply Nat.lt_succ_r. clear -Hu. induction ls as [|text ls IH]; [done|]. apply Forall_cons in Hu as [[Hl _] Hu]. change (mjoin (text :: ls)) with (text ++ mjoin ls).
      rewrite length_app. destruct (il_end _ Hl) as (body & -> & _). rewrite length_app. cbn [length]. specialize (IH Hu). lia.
    + intros fd id H. exfalso. unfold fill in H. rewrite !lookup_union_Some_raw in H. rewrite !lookup_insert_Some, !lookup_singleton_Some in H.
      destruct H as [[H|(_ & H)]|[H|(_ & H)]]; [by apply HT in H as [_ ?]| |by apply HT in H as [_ ?]|]; naive_solver.
Qed.

(** When system calls fail: whatever the input and whichever calls fail, the
    shell and all its children come to an end; and a command of the grammar
    never starts a program that is not one of its own, connected as if nothing
    had failed. *)
Theorem shell_faults flt :
  (forall input T, ~ stuck (eval flt (main input) T 0).1) /\
  (forall text l T n argv T', is_line text -> command_line text l -> std T ->
    starts (eval flt (run_line (skip_blanks text)) T n).1 argv T' -> launch T (line_cmd l) argv T').
Proof.
  split.
  - intros input T. apply open_console_total; [apply main_loop_bounded; lia|]. unfold missing. pose proof (length_filter (fd_free T) [0; 1; 2]). cbn [length] in *. lia.
  - intros text l T n argv T' Hl (_ & _ & Hf & Hsp) Hs Hst. destruct (spelled_runs l (skip_blanks text) Hf) as (c & buf & E & Es); [apply skip_blanks_Forall, Hl|by apply spells_skip|].
    rewrite E in Hst. rewrite <- Es. eapply runcmd_launch; [done|rewrite Es; apply syntax_std|exact Hst].
Qed.

(** ** An example *)

(** "a <b|(c;d&)>>e", an empty line, "cd x" and a lone parenthesis *)
Definition demo_lines : list bytes := [ShDemo.text; [32; 10]; [99; 100; 32; 120; 10]; [41; 10]].
Definition demo_fds : fdt := {[0 := Std 0; 1 := Std 1; 2 := Std 2]}.

Lemma demo_is_line text : bool_decide (0 ∉ text) && bool_decide (last text = Some NL) && bool_decide (length text < 100)%nat &&
  forallb (fun c => negb (c =? 10) && negb (c =? 13)) (take (length text - 1) text) = true -> is_line text.
Proof.
  rewrite !andb_true_iff, !bool_decide_eq_true, forallb_forall. intros [[[Hz Hl] Hf] Hb]. split; [| |unfold NBUFSH; lia].
  - apply Forall_forall. intros c Hc ->. done.
  - apply last_Some in Hl as [body ->]. exists body. split; [done|]. rewrite length_app in Hb. cbn [length] in Hb. rewrite Nat.add_sub, take_app_length in Hb.
    apply Forall_forall. intros c Hc%list_elem_of_In. specialize (Hb c Hc). lia.
Qed.

Lemma demo_understood : Forall understood demo_lines.
Proof.
  repeat (apply Forall_cons; split; [split; [apply demo_is_line; by vm_compute|]|]); [..|constructor].
  - right. right. left. exists ShDemo.tree. split; [done|]. split; [done|]. split; [cbn; unfold MAXARGS; split; [lia|split; lia]|apply ShDemo.text_spells].
  - left. done.
  - right. left. exists [120]. done.
  - right. right. right. exists (chars "syntax"). split; [done|]. split; [done|]. by vm_compute.
Qed.

Lemma shell_session_witness : session demo_fds demo_lines (eval no_faults (main (mjoin demo_lines)) demo_fds 0).1 /\
  last (eval no_faults (main (mjoin demo_lines)) demo_fds 0).1 = Some (Exited 0).
Proof.
  split; [|by vm_compute]. replace demo_fds with (fill demo_fds) at 1 by (by vm_compute). apply (shell_session demo_lines demo_fds demo_understood).
  intros fd o. unfold demo_fds. rewrite !lookup_insert_Some, lookup_singleton_Some. intros [[<- <-]|[_ [[<- <-]|[_ [<- <-]]]]]; (split; [lia|done]).
Defined.
